(* ===== verification/_CoqProject ===== *)
-Q . S2P
Prelude.v
GoStrings.v
GoSort.v
Capabilities.v
Authz.v
AuthzFacts.v
AuthzRequest.v
AuthzShadow.v
AuthzTheorems.v
Sha256.v
Json.v
JsonTypes.v
ReleaseGate.v
ReleaseGateFacts.v
ReleaseGateTheorems.v
DeliveryPolicy.v
DeliveryPolicyTheorems.v
PlanGraph.v
PlanGraphFacts.v
PlanGraphSpec.v
PlanNormalizeFacts.v
Workflow.v
WorkflowTheorems.v
PlanStore.v
PlanStored.v
PlanEnsure.v
PlanHashFacts.v
PlanLease.v
PlanLeaseFacts.v
PlanGraphTheorems.v
PlanLeaseTheorems.v
PlanLeaseSpec.v
PlanHashTheorems.v
PlanEnsureTheorems.v
PlanAssign.v
PlanAssignFacts.v
PlanDispatch.v
PlanDispatchFacts.v
PlanDispatchRuns.v
PlanAssignTheorems.v
PlanDispatchTheorems.v
PlanExecutionTheorems.v
JsonRaw.v
GoJson.v
Evidence.v
EvidenceJson.v
EvidenceSecurity.v
EvidenceEnvironment.v
EvidenceQA.v
EvidenceGrounding.v
GateJson.v
DeliveryLedger.v
LedgerGate.v
LedgerFacts.v
LedgerDemo.v
LedgerTheorems.v
LedgerGateTheorems.v
GoInt.v
CostUsage.v
CostLedger.v
CostFacts.v
CostAggregate.v
Base64.v
AccessProof.v
PreviewToken.v
EventAccess.v
AttemptLimiter.v
AttemptTheorems.v
EventAccessTheorems.v
AccessGrants.v
Vault.v
VaultInventory.v
VaultFacts.v
VaultBuild.v
VaultSealed.v
VaultTheorems.v
AgentCallback.v
AgentRegistry.v
AgentTheorems.v
