(* ===== verification/Prelude.v ===== *)
(** * A verification library for the events backend

    The repository is one Go service: HTTP controllers over services and repositories for events,
    guests and media, and a control plane that plans, dispatches and releases software changes
    made by agents.  This library models the parts that decide something - who may act, which
    plan is sound, which worker runs a step, when a release is allowed - as Rocq definitions
    that read like the source, and proves what they promise.

    ** The parts and the files that model them

    - Authorization ([internal/capabilities], [internal/products], [internal/authz]).
      [Capabilities.v] has the vocabulary, the role and product tables and the rollout modes;
      [Authz.v] every check of authz.go, enforcement.go and event_authority.go, as computations
      over one request's cached state ([RequestState]) that may panic; repositories are the
      record [Hooks].  [AuthzFacts.v], [AuthzRequest.v] (the invariant of a request's caches),
      [AuthzShadow.v] (shadow mode) and [AuthzTheorems.v] (the properties).
    - Release gate ([internal/releasegate/gate.go]).  [ReleaseGate.v] is [Evaluate] and the
      digests it is bound to; [ReleaseGateFacts.v] has the specification
      [release_ready]; [ReleaseGateTheorems.v].
    - Delivery policy ([internal/deliverypolicy/policy.go]).  [DeliveryPolicy.v] resolves
      policy layers; [DeliveryPolicyTheorems.v].
    - Delivery plans ([services/deliveryplansteps]).  [PlanGraph.v] is the step graph of
      steps.go ([Normalize], [validateDAG], [validateIntegrationGraph], evidence requirements,
      step statuses), with [PlanGraphFacts.v], [PlanGraphSpec.v], [PlanNormalizeFacts.v],
      [PlanGraphTheorems.v].  [PlanStore.v] has the tables and the transactions ([T]) the rest
      of the package runs in.  [PlanStored.v] decodes the JSON columns and hashes a plan
      (plan_hash.go), [PlanEnsure.v] stores and projects it; [PlanHashFacts.v],
      [PlanHashTheorems.v], [PlanEnsureTheorems.v].  [PlanLease.v] is
      claim.go: claims, renewals and reports under fences, with [PlanLeaseFacts.v],
      [PlanLeaseTheorems.v] and the abstract lease service of
      [PlanLeaseSpec.v].  [PlanAssign.v] and [PlanDispatch.v] are orchestration.go and
      fan_in.go: executions, reservations, machines, failover; [PlanAssignFacts.v],
      [PlanDispatchFacts.v], [PlanDispatchRuns.v], and
      [PlanAssignTheorems.v], [PlanDispatchTheorems.v], [PlanExecutionTheorems.v].
    - Delivery workflow ([services/deliveryworkflow]).  [Workflow.v] is [Advance] and its
      table; [WorkflowTheorems.v].
    - Delivery evidence and its ledger ([internal/qaevidence], [internal/environmentevidence],
      [internal/securityevidence], [internal/evidencejson], [internal/deliveryledger]).
      [Evidence.v] is the interface of an observation ([Evidence] and its laws);
      [EvidenceQA.v], [EvidenceEnvironment.v] and [EvidenceSecurity.v] implement it,
      [EvidenceJson.v] is the integrity check of integrity.go, [EvidenceGrounding.v] compares a
      model's claims with an observation.  [DeliveryLedger.v] records and projects observations
      over the interface and names its three uses, [LedgerGate.v] is
      gate_evaluation.go on the JSON form of the gate's input ([GateJson.v]); [LedgerFacts.v],
      the example of [LedgerDemo.v], [LedgerTheorems.v], [LedgerGateTheorems.v].
    - Automation cost ([services/automationcost]).  [CostUsage.v] reads and validates the token
      counts of usage.go, [CostLedger.v] is ledger.go (prices, [Build], the hold of
      [EstimateUpperBound]), [AggregateUsage] and profile.go; [CostFacts.v], [CostAggregate.v].
    - Public event access ([internal/publicaccessproof], [internal/previewtoken],
      [controllers/publicaccess], the handler VerifyEventAccess).  [AccessProof.v] and
      [PreviewToken.v] are the signed tokens, [EventAccess.v] the configuration of an event and
      its gate, [AttemptLimiter.v] the limiter of guesses and the handler, as programs whose
      operations are interleaved; [EventAccessTheorems.v], [AttemptTheorems.v],
      [AccessGrants.v] (from the handler to the gate).
    - Project Vault ([internal/projectvault]).  [Vault.v] has the proposals with their JSON and
      digests, the suggested policy, stored proposals and probes; [VaultInventory.v] is [Build],
      with what it finds in a repository, and [Reconcile].  [VaultFacts.v] (a Vault as a map,
      [settled]; well-formed Vaults and what they remember), [VaultBuild.v], [VaultSealed.v]
      (probes, and the proposals the code makes: [made]), [VaultTheorems.v].
    - Agent machines ([internal/agentcallbackauth], [internal/agentwork],
      [controllers/automation/agent_instances.go], agent_callback_auth.go and the tokens of
      gateway.go).  [AgentCallback.v] has the signed texts, their verification and the machine's
      side, [AgentRegistry.v] the registry (register, enroll, revoke), the middleware of callbacks
      and their interleaving at any replicas ([Step]); [AgentTheorems.v].
    - Go itself.  [GoStrings.v] (package strings on bytes, regular expressions of the code),
      [GoSort.v] (package sort), [Sha256.v], [Json.v] (what [json.Marshal] writes and
      [json.Unmarshal] reads), [JsonTypes.v] (encoding and decoding at a Go
      type), [JsonRaw.v] ([json.RawMessage]: the text of a member), [GoJson.v] (records of the
      model as Go values), [GoInt.v] (int64 and float64),
      [Base64.v] (packages encoding/base64 and crypto/hmac).

    The parts meet where the code calls across packages: [Authz] decides from [Capabilities];
    the delivery policy names the actions and test kinds of the release gate; executions of a
    plan hash exactly the rows [Normalize] built and workers change, so [PlanExecutionTheorems.v]
    composes hashing, leases and dispatch in one run ([dispatching], [execution]); a gate of the
    workflow approves the plan that an execution freezes;
    the ledger keeps the gate's decisions with their input, so [LedgerGateTheorems.v] composes
    the gate, the JSON codec and the ledger into what an authorization means.

    ** What the theorems show

    - Authorization: an allowed request is backed by a grant of the hooks' answers (events,
      organizations, resources, batches), failures of the directory deny, tenants are separate,
      the shadow log is bounded.
    - Release gate: [Evaluate] allows exactly the inputs that are [release_ready]; digests bind
      what was approved, up to a SHA-256 collision (stated as such, never assumed away).
    - Plans: the graph checks decide their declarative contracts and always end, an accepted
      plan is a sound set of rows, statuses only move forward, retries are idempotent.
    - Leases: each fence is issued once and names one holder, a live lease keeps its holder, a
      claim takes the first free step in display order, and every run refines the abstract lease
      service.
    - Dispatch: executions are frozen and created once; each binds a step at most once, within its
      limit, and a child task serves one step (two executions of one plan may bind the same step:
      its lease decides who runs it); a reserved machine has every workspace ready that the work
      item froze; the greedy allocation of machines is complete; a step fails over only when its
      leases and the old machine's heartbeats have ended.
    - Ledger: rows are only added and numbered, what is recorded is read back if it is within the
      limit of bytes its package decodes, which recording does not look at, a task has one
      observation, a changed row projects to nothing else; an authorization means a reproduced
      decision on release-ready evidence, and an allowed evaluation does authorize.  Claims are
      accepted exactly when they state the observation.
    - Cost: a ledger's charges are exact and never wrap around, a hold covers the charge of its
      call but for one micro-dollar, which an input split between prices can need, and summed
      usage has the summed ledger.
    - Public access: the gate decides its declarative rule, a verified password opens its event
      until it changes or the proof expires, a preview link opens one event, and in every
      interleaving wrong guesses are bounded per window.
    - Project Vault: reconciling is the pointwise merge of two Vaults, every Vault made is well
      formed and remembers every fact of the ones before it, a proposal grants nothing whatever
      the repository holds, probes change what they attest to, a stored proposal is accepted as it
      was made and not otherwise, and building does not depend on input order.  [Build] may panic on a path
      that lowering makes longer: [slice_out_of_range].
    - Agent machines: in every interleaving a signed text reaches its handler once, if no
      transaction of a callback stalls for more than two minutes ([stalled_transaction_replays]
      shows that this is needed); a signature binds its request; revocation is final; an enrolled
      machine holds its key, and a machine that does is enrolled and its callbacks are admitted.
    - Policy: resolution does not depend on input order, the narrowest layer wins, overrides are
      bounded.  Workflow: no release without the four approvals; a release stays reachable.

    ** Bounds and fuel

    [tenantWalk] follows at most 32 parents, the bound of the source.  [Sum256] runs on the
    number of blocks of the padded text, [validateDAG] on one more than the number of steps and
    the JSON reader on twice the length of the text plus one: [validateDAG_run] and [parse_fuel]
    show that these are enough.  The JSON reader stops at 10000 levels, as [encoding/json] does.
    Integers that Go keeps in 64 bits are [Z] with the code's own bounds written out.

    ** Parameters

    Code outside src/ is a parameter: [GoUnicode] (case mapping of non-ASCII text), [GoTimeURL]
    (url.Parse, the JSON text of an instant), [UuidText] (the text of identities, which can be
    read back), [GoMapRange] and [GoMappingRange] (any order of Go's range over a map),
    [GoRuntime] and [Tx] (clock, fresh identities, rows locked by other transactions), [Jsonb]
    (the database's own text of a jsonb value), [Database] (the same for a row of the ledger, and
    the precision of its instants), [GoFold] (unicode.SimpleFold outside ASCII), [GoNet] (package net), [GoChoice]
    (the order of range over a map of strings, equal elements after sort.Slice), [UuidShape] (an
    identity is written with hexadecimal digits and dashes), [Ed25519] (crypto/ed25519: sizes, and
    that what a generated key signs verifies; nothing is assumed about forgeries), [GoRequestURI]
    (whether url.ParseRequestURI fails), [Hooks] (repositories).  Each theorem holds for
    all of them; the witnesses use the concrete instances [ascii_only], [unary], [tree_order],
    [tree_mapping], [same_jsonb], [LedgerDemo.kept], [one_choice], [toy_ed25519], [any_uri].

    The database is modelled as tables; a transaction that fails leaves them as they were, and
    the loss of a connection is not modelled.

    ** Not modelled, and why

    - HTTP controllers, DTOs, routes, middleware, configuration and the commands: glue between
      the parts above, frameworks and the network.
    - Repositories and the AWS, Redis and queue adapters: they only call third-party clients.
    - [internal/automationagent]: it drives git, Docker and model providers.
    - The services for events, guests, media and clients: CRUD over repositories.
    - [services/deliveryplansteps/input.go] and [services/deliverydecomposition]: readers of
      generic maps whose values are any Go interface; the graph they produce goes through the
      checks that are modelled.
    - [internal/deliveryledger/autonomy_snapshot.go]: it copies the text of a policy, which holds
      the JSON of instants (a parameter of [DeliveryPolicy.v]).
    - [internal/releasegatecontrol]: it gathers the input of the gate by calls to GitHub.
    - The lists of agent instances: a read-only query with a cursor.
    - Reading a stored proposal back is an argument of [ValidateStoredProposal]; a float64 and a
      map of a Vault are kept as the JSON the code writes for them.
    - The conversion of a float64 outside the range of int64 is the one of amd64; validated
      usage has none.
    - The Redis scripts of the limiter of guesses: their answers are arguments of [add] and
      [refund], and its theorem is about process memory.
    - NUL characters in jsonb columns, which PostgreSQL refuses.
    - sort.Slice may leave elements with equal keys in any order: the parameter [GoChoice]
      for the commands of a Vault, elsewhere the model keeps their order. *)
From stdpp Require Import base tactics list strings gmap sorting.
From Stdlib Require Import Ascii.

(** ** Results: a Go [(T, error)] pair whose value is meaningful only without error *)

Inductive Result (E A : Type) : Type :=
| Ok (a : A)
| Err (e : E).
Arguments Ok {E A} a.
Arguments Err {E A} e.

Definition result_bind {E A B} (f : A → Result E B) (r : Result E A) : Result E B :=
  match r with Ok a => f a | Err e => Err e end.

#[export] Instance result_mret {E} : MRet (Result E) := fun A a => Ok a.
#[export] Instance result_mbind {E} : MBind (Result E) := fun A B f r => result_bind f r.

Definition is_ok {E A} (r : Result E A) : bool := match r with Ok _ => true | Err _ => false end.

(** [fail_if c e]: the Go statement [if c { return e }]. *)
Definition fail_if {E} (c : bool) (e : E) : Result E unit := if c then Err e else Ok tt.

Lemma bind_ok {E A B} (r : Result E A) (f : A → Result E B) b :
  r ≫= f = Ok b ↔ ∃ a, r = Ok a ∧ f a = Ok b.
Proof. destruct r; cbn; [|split; [done|by intros (? & ? & _)]]. split; [eauto|by intros (? & [= ->] & ?)]. Qed.

Lemma fail_if_ok {E} c (e : E) u : fail_if c e = Ok u ↔ c = false.
Proof. destruct c, u; by cbn. Qed.
Lemma fail_if_bind {E A} c (e : E) (r : Result E A) b : (_ ← fail_if c e; r) = Ok b ↔ c = false ∧ r = Ok b.
Proof. destruct c; cbn; naive_solver. Qed.

(** ** Identities: a [uuid.UUID] of github.com/gofrs/uuid is its 128-bit value *)

Definition uuid := N.
Definition Nil : uuid := 0%N.

(** ** Loops that fill a map *)

Lemma foldl_insert_Some `{Countable K} {A B} (key : A → K) (value : A → B) l : ∀ (m : gmap K B) k v,
  NoDup (key <$> l) →
  foldl (λ m x, <[key x := value x]> m) m l !! k = Some v ↔
  (∃ x, x ∈ l ∧ key x = k ∧ value x = v) ∨ (m !! k = Some v ∧ k ∉ key <$> l).
Proof.
  induction l as [|x l IH]; intros m k v; cbn [foldl].
  - split; [intros Hm; right; split; [done|apply not_elem_of_nil]|by intros [(x & ?%not_elem_of_nil & _)|[? _]]].
  - intros [Hx Hnd]%NoDup_cons. rewrite IH by done. destruct (decide (key x = k)) as [<-|Hne].
    + rewrite lookup_insert_eq. split.
      * intros [(y & Hy & Hk & <-)|[[= <-] _]]; [exfalso; apply Hx; rewrite <-Hk; by apply list_elem_of_fmap_2|].
        left. exists x. by split; [left|].
      * intros [(y & [->|Hy]%elem_of_cons & Hk & <-)|[_ Hn]]; [by right| |].
        -- exfalso. apply Hx. rewrite <-Hk. by apply list_elem_of_fmap_2.
        -- exfalso. apply Hn. by left.
    + rewrite lookup_insert_ne by done. split.
      * intros [(y & Hy & Hk)|[Hm Hn]]; [left; exists y; by split; [right|]|right]. split; [done|].
        rewrite fmap_cons, not_elem_of_cons. by split; [intros ->|].
      * intros [(y & [->|Hy]%elem_of_cons & Hk & Hv)|[Hm Hn]]; [done|left; by exists y|right]. split; [done|].
        rewrite fmap_cons, not_elem_of_cons in Hn. tauto.
Qed.
