(* ===== verification/GoStrings.v ===== *)
(** * Go's [strings] package on byte strings

    A Go string is a sequence of bytes; [string] (a list of 8-bit [ascii]) is that
    sequence.  [TrimSpace] is exact on every byte string (the UTF-8 encodings of all
    white-space code points are listed).  [ToLower], [ToUpper] and [EqualFold] follow
    the ASCII fast path of the Go library byte for byte; what they do from the first
    non-ASCII byte on is read from Go's Unicode case tables, which are the parameter
    [GoUnicode]: every theorem of the development holds for any such tables. *)
From stdpp Require Import base tactics list strings.
From Stdlib Require Import Ascii.
From S2P Require Import Prelude.

(** ** Bytes *)

Abbreviation bytes := String.list_ascii_of_string.
Abbreviation of_bytes := String.string_of_list_ascii.

Lemma of_bytes_bytes s : of_bytes (bytes s) = s.
Proof. apply String.string_of_list_ascii_of_string. Qed.
Lemma bytes_of_bytes l : bytes (of_bytes l) = l.
Proof. apply String.list_ascii_of_string_of_list_ascii. Qed.
Lemma bytes_inj s t : bytes s = bytes t → s = t.
Proof. intros H. by rewrite <-(of_bytes_bytes s), H, of_bytes_bytes. Qed.
Lemma bytes_append s t : bytes (s +:+ t) = bytes s ++ bytes t.
Proof. induction s as [|c s IH]; cbn; [done|]. by rewrite <-IH. Qed.
Lemma length_bytes s : length (bytes s) = String.length s.
Proof. induction s; cbn; auto. Qed.

Definition in_range (lo hi : N) (c : ascii) : bool :=
  (N.leb lo (N_of_ascii c)) && (N.leb (N_of_ascii c) hi).
Definition byte_is (n : N) (c : ascii) : bool := N.eqb (N_of_ascii c) n.
Definition is_upper := in_range 65 90.
Definition is_lower := in_range 97 122.
Definition is_digit := in_range 48 57.
Definition is_alnum (c : ascii) : bool := is_upper c || is_lower c || is_digit c.
Definition is_hex_digit (c : ascii) : bool := is_digit c || in_range 97 102 c || in_range 65 70 c.
(** [one_of "x-/"]: membership in a literal set of bytes. *)
Definition one_of (set : string) (c : ascii) : bool := existsb (Ascii.eqb c) (bytes set).
Definition is_ascii_byte (c : ascii) : bool := N.ltb (N_of_ascii c) 128.
Definition is_control (c : ascii) : bool := N.ltb (N_of_ascii c) 32 || byte_is 127 c.

Definition all_bytes (p : ascii → bool) (s : string) : bool := forallb p (bytes s).
Definition some_byte (p : ascii → bool) (s : string) : bool := existsb p (bytes s).
Definition is_ascii (s : string) : bool := all_bytes is_ascii_byte s.

(** ** [strings.TrimSpace] *)

(** The white-space code points of [unicode.IsSpace], by their UTF-8 length. *)
Definition space1 (a : ascii) : bool := in_range 9 13 a || byte_is 32 a.
Definition space2 (a b : ascii) : bool := byte_is 194 a && (byte_is 133 b || byte_is 160 b).
Definition space3 (a b c : ascii) : bool :=
  (byte_is 225 a && byte_is 154 b && byte_is 128 c)
  || (byte_is 226 a && byte_is 128 b &&
      (in_range 128 138 c || byte_is 168 c || byte_is 169 c || byte_is 175 c))
  || (byte_is 226 a && byte_is 129 b && byte_is 159 c)
  || (byte_is 227 a && byte_is 128 b && byte_is 128 c).

Section Trim.
Context (s1 : ascii → bool) (s2 : ascii → ascii → bool) (s3 : ascii → ascii → ascii → bool).

Fixpoint trim_front (l : list ascii) : list ascii :=
  match l with
  | [] => []
  | a :: l1 =>
      if s1 a then trim_front l1
      else match l1 with
           | [] => l
           | b :: l2 =>
               if s2 a b then trim_front l2
               else match l2 with
                    | [] => l
                    | c :: l3 => if s3 a b c then trim_front l3 else l
                    end
           end
  end.

Definition starts_space (l : list ascii) : bool :=
  match l with
  | [] => false
  | a :: l1 => s1 a || match l1 with
                       | [] => false
                       | b :: l2 => s2 a b || match l2 with
                                              | [] => false
                                              | c :: _ => s3 a b c
                                              end
                       end
  end.

Lemma trim_front_id l : starts_space l = false → trim_front l = l.
Proof.
  destruct l as [|a [|b [|c l]]]; cbn; [done|..];
    rewrite ?orb_false_iff; intros; destruct_and?; by repeat case_match.
Qed.

Lemma trim_front_clean l : starts_space (trim_front l) = false.
Proof.
  induction l as [l IH] using (induction_ltof1 _ length); unfold ltof in IH.
  destruct l as [|a [|b [|c l]]]; cbn [trim_front]; [done|..];
    repeat case_match; try (apply IH; cbn; lia); cbn;
    rewrite ?orb_false_iff; repeat split; done.
Qed.

Lemma trim_front_step l :
  trim_front l = l ∨ ∃ k t, l = k ++ t ∧ length t < length l ∧ trim_front l = trim_front t.
Proof.
  destruct l as [|a l1]; [by left|]. destruct (s1 a) eqn:H1.
  { right. exists [a], l1. cbn. rewrite H1. auto. }
  destruct l1 as [|b l2]; [left; cbn; by rewrite H1|]. destruct (s2 a b) eqn:H2.
  { right. exists [a; b], l2. cbn. rewrite H1, H2. auto with lia. }
  destruct l2 as [|c l3]; [left; cbn; by rewrite H1, H2|]. destruct (s3 a b c) eqn:H3.
  { right. exists [a; b; c], l3. cbn. rewrite H1, H2, H3. auto with lia. }
  left. cbn. by rewrite H1, H2, H3.
Qed.

Lemma trim_front_suffix l : ∃ k, l = k ++ trim_front l.
Proof.
  induction l as [l IH] using (induction_ltof1 _ length); unfold ltof in IH.
  destruct (trim_front_step l) as [->|(k & t & -> & Hlt & ->)]; [by exists []|].
  destruct (IH t Hlt) as [k' Hk]. exists (k ++ k'). by rewrite <-app_assoc, <-Hk.
Qed.

Lemma starts_space_app l k : starts_space (l ++ k) = false → starts_space l = false.
Proof.
  destruct l as [|a [|b [|c l]]]; cbn; [done|..]; destruct k as [|x [|y k]]; cbn;
    rewrite ?orb_false_iff; tauto.
Qed.
End Trim.

Definition trim_left : list ascii → list ascii := trim_front space1 space2 space3.
Definition trim_right (l : list ascii) : list ascii :=
  rev (trim_front space1 (λ b a, space2 a b) (λ c b a, space3 a b c) (rev l)).
Definition TrimSpace (s : string) : string := of_bytes (trim_right (trim_left (bytes s))).

Lemma trim_right_prefix l : ∃ k, l = trim_right l ++ k.
Proof.
  unfold trim_right. destruct (trim_front_suffix space1 (λ b a, space2 a b) (λ c b a, space3 a b c) (rev l)) as [k Hk].
  exists (rev k). rewrite <-rev_app_distr, <-Hk. by rewrite rev_involutive.
Qed.

Lemma trim_right_idem l : trim_right (trim_right l) = trim_right l.
Proof.
  unfold trim_right. rewrite rev_involutive. f_equal. apply trim_front_id, trim_front_clean.
Qed.

Lemma TrimSpace_idem s : TrimSpace (TrimSpace s) = TrimSpace s.
Proof.
  unfold TrimSpace. rewrite bytes_of_bytes. f_equal. set (l := trim_left (bytes s)).
  assert (trim_left (trim_right l) = trim_right l) as ->.
  { apply trim_front_id. destruct (trim_right_prefix l) as [k Hk].
    eapply (starts_space_app _ _ _ _ k). rewrite <-Hk. apply trim_front_clean. }
  apply trim_right_idem.
Qed.

(** A string of visible ASCII bytes is left alone. *)
Definition is_visible := in_range 33 126.
Lemma starts_space_visible f g l :
  (∀ a b, is_visible a → f a b = false) → (∀ a b c, is_visible a → g a b c = false) →
  forallb is_visible l = true → starts_space space1 f g l = false.
Proof.
  intros Hf Hg H. destruct l as [|a l]; [done|]. cbn in H. apply andb_true_iff in H as [Ha Hl].
  assert (space1 a = false) as H1.
  { revert Ha. unfold is_visible, space1, in_range, byte_is. clear.
    rewrite andb_true_iff, orb_false_iff, andb_false_iff, !N.leb_le, N.eqb_neq, !N.leb_gt. lia. }
  cbn. rewrite H1. cbn. destruct l as [|b [|c l]]; [done|..]; rewrite Hf by (by apply Is_true_true).
  - done.
  - cbn. apply Hg. by apply Is_true_true.
Qed.

Lemma TrimSpace_visible s : all_bytes is_visible s = true → TrimSpace s = s.
Proof.
  intros H. unfold all_bytes in H. unfold TrimSpace, trim_left, trim_right.
  assert (∀ n a, (127 ≤ n)%N → is_visible a → byte_is n a = false) as Hn.
  { intros n a Hn. unfold is_visible, in_range, byte_is. rewrite andb_True, !Is_true_true.
    rewrite !N.leb_le, N.eqb_neq. lia. }
  rewrite (trim_front_id _ _ _ (bytes s)).
  2:{ apply starts_space_visible; [..|done].
      - intros a b Ha. unfold space2. by rewrite (Hn 194%N a) by (done || lia).
      - intros a b c Ha. unfold space3.
        by rewrite (Hn 225%N a), (Hn 226%N a), (Hn 227%N a) by (done || lia). }
  rewrite trim_front_id, rev_involutive, of_bytes_bytes; [done|].
  apply starts_space_visible.
  - intros a b Ha. unfold space2. rewrite (Hn 133%N a), (Hn 160%N a) by (done || lia). by rewrite andb_false_r.
  - intros a b c Ha. unfold space3.
    assert (in_range 128 138 a = false) as ->.
    { revert Ha. unfold is_visible, in_range. rewrite andb_True, !Is_true_true, !N.leb_le, andb_false_iff, !N.leb_gt. lia. }
    rewrite (Hn 128%N a), (Hn 168%N a), (Hn 169%N a), (Hn 175%N a), (Hn 159%N a) by (done || lia).
    by rewrite !andb_false_r.
  - rewrite forallb_forall in *. intros x Hx. apply H. by apply in_rev.
Qed.

(** ** Case: [strings.ToLower], [strings.ToUpper], [strings.EqualFold] *)

Definition lower_byte (c : ascii) : ascii :=
  if is_upper c then ascii_of_N (N_of_ascii c + 32) else c.
Definition upper_byte (c : ascii) : ascii :=
  if is_lower c then ascii_of_N (N_of_ascii c - 32) else c.
Definition map_bytes (f : ascii → ascii) (s : string) : string := of_bytes (f <$> bytes s).
Definition no_upper (s : string) : bool := all_bytes (λ c, negb (is_upper c)) s.

(** Go's Unicode case tables, used only from a non-ASCII byte on. The lower case of a text
    holds no ASCII upper-case letter, is its own lower case and has white space where the text has. *)
Class GoUnicode := {
  unicode_ToLower : string → string;
  unicode_ToUpper : string → string;
  unicode_EqualFold : string → string → bool;
  unicode_ToLower_no_upper s : no_upper (unicode_ToLower s) = true;
  unicode_ToLower_idem s : unicode_ToLower (unicode_ToLower s) = unicode_ToLower s;
  unicode_ToLower_trimmed s : TrimSpace s = s → TrimSpace (unicode_ToLower s) = unicode_ToLower s;
}.

Lemma lower_byte_not_upper c : negb (is_upper (lower_byte c)) = true.
Proof. destruct c as [[] [] [] [] [] [] [] []]; vm_compute; auto. Qed.
Lemma map_lower_no_upper s : no_upper (map_bytes lower_byte s) = true.
Proof.
  unfold no_upper, all_bytes, map_bytes. rewrite bytes_of_bytes. induction (bytes s) as [|c l IH]; cbn; [done|].
  by rewrite lower_byte_not_upper, IH.
Qed.
Lemma map_lower_id s : no_upper s = true → map_bytes lower_byte s = s.
Proof.
  unfold no_upper, all_bytes, map_bytes. intros Hs. rewrite <-(of_bytes_bytes s) at 2. f_equal.
  induction (bytes s) as [|c l IH]; cbn in *; [done|]. apply andb_true_iff in Hs as [Hc Hl].
  rewrite IH by done. f_equal. unfold lower_byte. apply negb_true_iff in Hc. by rewrite Hc.
Qed.

Lemma map_lower_idem s : map_bytes lower_byte (map_bytes lower_byte s) = map_bytes lower_byte s.
Proof. apply map_lower_id, map_lower_no_upper. Qed.

(** Lower case keeps white space. *)
Lemma trimmed_iff s : TrimSpace s = s ↔ starts_space space1 space2 space3 (bytes s) = false ∧
  starts_space space1 (λ b a, space2 a b) (λ c b a, space3 a b c) (rev (bytes s)) = false.
Proof.
  split.
  - intros <-. unfold TrimSpace. rewrite bytes_of_bytes. split.
    + destruct (trim_right_prefix (trim_left (bytes s))) as [k Hk]. eapply (starts_space_app _ _ _ _ k). rewrite <-Hk. apply trim_front_clean.
    + unfold trim_right. rewrite rev_involutive. apply trim_front_clean.
  - intros [H1 H2]. unfold TrimSpace, trim_left, trim_right. rewrite (trim_front_id space1 space2 space3), trim_front_id by done.
    by rewrite rev_involutive, of_bytes_bytes.
Qed.
Lemma lower_byte_spaces n c : (n < 65 ∨ 123 ≤ n)%N → byte_is n (lower_byte c) = byte_is n c.
Proof.
  intros Hn. unfold lower_byte. destruct (is_upper c) eqn:Hu; [|done]. unfold is_upper, in_range in Hu.
  apply andb_true_iff in Hu as [?%N.leb_le ?%N.leb_le]. unfold byte_is. rewrite N_ascii_embedding by lia.
  destruct (N.eqb_spec (N_of_ascii c + 32) n), (N.eqb_spec (N_of_ascii c) n); lia || done.
Qed.
Lemma lower_byte_range lo hi c : (hi < 65 ∨ 123 ≤ lo)%N → in_range lo hi (lower_byte c) = in_range lo hi c.
Proof.
  intros Hn. unfold lower_byte. destruct (is_upper c) eqn:Hu; [|done]. unfold is_upper, in_range in Hu.
  apply andb_true_iff in Hu as [?%N.leb_le ?%N.leb_le]. unfold in_range. rewrite N_ascii_embedding by lia.
  apply eq_true_iff_eq. rewrite !andb_true_iff, !N.leb_le. lia.
Qed.
Lemma starts_space_map s1 s2 s3 (f : ascii → ascii) l : (∀ a, s1 (f a) = s1 a) → (∀ a b, s2 (f a) (f b) = s2 a b) →
  (∀ a b c, s3 (f a) (f b) (f c) = s3 a b c) → starts_space s1 s2 s3 (f <$> l) = starts_space s1 s2 s3 l.
Proof. intros H1 H2 H3. destruct l as [|a [|b [|c l]]]; cbn; by rewrite ?H1, ?H2, ?H3. Qed.
Lemma map_lower_trimmed s : TrimSpace s = s → TrimSpace (map_bytes lower_byte s) = map_bytes lower_byte s.
Proof.
  assert (∀ a, space1 (lower_byte a) = space1 a) as H1.
  { intros a. unfold space1. by rewrite lower_byte_range, lower_byte_spaces by lia. }
  assert (∀ a b, space2 (lower_byte a) (lower_byte b) = space2 a b) as H2.
  { intros a b. unfold space2. by rewrite !lower_byte_spaces by lia. }
  assert (∀ a b c, space3 (lower_byte a) (lower_byte b) (lower_byte c) = space3 a b c) as H3.
  { intros a b c. unfold space3. by rewrite !lower_byte_spaces, !lower_byte_range by lia. }
  rewrite !trimmed_iff. unfold map_bytes. rewrite bytes_of_bytes, <-(map_rev lower_byte).
  change (map lower_byte (rev (bytes s))) with (lower_byte <$> rev (bytes s)).
  by rewrite !starts_space_map by (intros; auto).
Qed.

(** A concrete instance (case mapping of ASCII letters only) for evaluation. *)
Definition ascii_only : GoUnicode :=
  {| unicode_ToLower := map_bytes lower_byte; unicode_ToUpper := map_bytes upper_byte;
     unicode_EqualFold := String.eqb; unicode_ToLower_no_upper := map_lower_no_upper;
     unicode_ToLower_idem := map_lower_idem; unicode_ToLower_trimmed := map_lower_trimmed |}.

Section Case.
Context `{GoUnicode}.

Definition ToLower (s : string) : string :=
  if is_ascii s then map_bytes lower_byte s else unicode_ToLower s.
Definition ToUpper (s : string) : string :=
  if is_ascii s then map_bytes upper_byte s else unicode_ToUpper s.

Fixpoint EqualFold (s t : string) : bool :=
  match s, t with
  | EmptyString, EmptyString => true
  | String a s', String b t' =>
      if negb (is_ascii_byte a && is_ascii_byte b) then unicode_EqualFold s t
      else if Ascii.eqb (lower_byte a) (lower_byte b) then EqualFold s' t' else false
  | _, _ => false
  end.

(** Lower-casing the values the validators accept. *)
Lemma ToLower_ascii s : is_ascii s = true → ToLower s = map_bytes lower_byte s.
Proof. unfold ToLower. by intros ->. Qed.

Lemma ascii_of_N_lower (c : ascii) :
  is_ascii_byte (lower_byte c) = is_ascii_byte c ∧ lower_byte (lower_byte c) = lower_byte c ∧
  is_visible (lower_byte c) = is_visible c ∧ is_hex_digit (lower_byte c) = is_hex_digit c ∧
  is_alnum (lower_byte c) = is_alnum c.
Proof. destruct c as [[] [] [] [] [] [] [] []]; vm_compute; auto. Qed.

Lemma all_bytes_map p f s : (∀ c, p (f c) = p c) → all_bytes p (map_bytes f s) = all_bytes p s.
Proof.
  intros Hp. unfold all_bytes, map_bytes. rewrite bytes_of_bytes.
  induction (bytes s) as [|c l IH]; cbn; [done|]. by rewrite Hp, IH.
Qed.

Lemma ToLower_all_bytes p s :
  (∀ c, p (lower_byte c) = p c) → is_ascii s = true → all_bytes p (ToLower s) = all_bytes p s.
Proof. intros Hp Hs. rewrite ToLower_ascii by done. by apply all_bytes_map. Qed.

Lemma ToLower_is_ascii s : is_ascii s = true → is_ascii (ToLower s) = true.
Proof.
  intros Hs. unfold is_ascii. rewrite ToLower_all_bytes; [done|apply ascii_of_N_lower|done].
Qed.

Lemma ToLower_idem s : is_ascii s = true → ToLower (ToLower s) = ToLower s.
Proof.
  intros Hs. rewrite (ToLower_ascii (ToLower s)) by (by apply ToLower_is_ascii).
  rewrite ToLower_ascii by done. unfold map_bytes. rewrite bytes_of_bytes, <-list_fmap_compose.
  f_equal. apply list_fmap_ext. intros i c _. apply ascii_of_N_lower.
Qed.

(** The lower case of anything is its own lower case, once it is ASCII. *)
Lemma ToLower_no_upper s : no_upper (ToLower s) = true.
Proof. unfold ToLower. destruct (is_ascii s); [apply map_lower_no_upper|apply unicode_ToLower_no_upper]. Qed.
(** Lower case twice. *)
Lemma ToLower_twice s : ToLower (ToLower s) = ToLower s.
Proof.
  unfold ToLower at 2 3. destruct (is_ascii s) eqn:Hs.
  { rewrite <-ToLower_ascii by done. by apply ToLower_idem. }
  unfold ToLower. destruct (is_ascii (unicode_ToLower s)); [|apply unicode_ToLower_idem]. apply map_lower_id, unicode_ToLower_no_upper.
Qed.
Lemma ToLower_trimmed s : TrimSpace (ToLower (TrimSpace s)) = ToLower (TrimSpace s).
Proof.
  unfold ToLower. pose proof (TrimSpace_idem s). destruct (is_ascii (TrimSpace s)); [by apply map_lower_trimmed|by apply unicode_ToLower_trimmed].
Qed.
Lemma ToLower_stable s : is_ascii (ToLower s) = true → ToLower (ToLower s) = ToLower s.
Proof. intros Hs. rewrite (ToLower_ascii (ToLower s)) by done. apply map_lower_id, ToLower_no_upper. Qed.

Lemma EqualFold_ascii s t :
  is_ascii s = true → is_ascii t = true →
  EqualFold s t = true ↔ ToLower s = ToLower t.
Proof.
  intros Hs Ht. rewrite !ToLower_ascii by done. unfold map_bytes.
  transitivity (lower_byte <$> bytes s = lower_byte <$> bytes t).
  2:{ split; [by intros ->|]. intros Heq%(f_equal (λ x, bytes x)). by rewrite !bytes_of_bytes in Heq. }
  unfold is_ascii, all_bytes in *. revert t Ht.
  induction s as [|a s IH]; intros [|b t] Ht; [cbn; split; done..|].
  cbn in Hs, Ht. apply andb_true_iff in Hs as [Ha Hs], Ht as [Hb Ht].
  cbn [EqualFold String.list_ascii_of_string]. rewrite !fmap_cons, Ha, Hb. cbn [andb negb].
  destruct (Ascii.eqb_spec (lower_byte a) (lower_byte b)) as [->|Hne]; [|split; [done|congruence]].
  rewrite (IH Hs t) by done. split; [by intros ->|congruence].
Qed.
End Case.

(** ** Prefixes, suffixes, substrings, splitting *)

Definition HasPrefix (s p : string) : bool := String.prefix p s.
Definition HasSuffix (s p : string) : bool := String.prefix (of_bytes (rev (bytes p))) (of_bytes (rev (bytes s))).
Definition TrimPrefix (s p : string) : string :=
  if HasPrefix s p then String.substring (String.length p) (String.length s - String.length p) s else s.
Definition TrimSuffix (s p : string) : string :=
  if HasSuffix s p then String.substring 0 (String.length s - String.length p) s else s.
Fixpoint Contains (s sub : string) : bool :=
  String.prefix sub s || match s with EmptyString => false | String _ s' => Contains s' sub end.
(** [strings.ContainsAny] with an ASCII set. *)
Definition ContainsAny (s set : string) : bool := some_byte (one_of set) s.

(** [strings.Trim(s, cutset)] with a cutset of one ASCII byte. *)
Fixpoint drop_byte (c : ascii) (l : list ascii) : list ascii :=
  match l with a :: r => if Ascii.eqb a c then drop_byte c r else l | [] => [] end.
Definition Trim (s : string) (c : ascii) : string := of_bytes (rev (drop_byte c (rev (drop_byte c (bytes s))))).

Fixpoint split_bytes (sep : ascii) (cur : list ascii) (l : list ascii) : list string :=
  match l with
  | [] => [of_bytes (rev cur)]
  | c :: l' => if Ascii.eqb c sep then of_bytes (rev cur) :: split_bytes sep [] l'
               else split_bytes sep (c :: cur) l'
  end.
(** [strings.Split(s, sep)] with a one-byte separator. *)
Definition Split (s : string) (sep : ascii) : list string := split_bytes sep [] (bytes s).

(** The one-byte string Go writes ["\x00"], used as a key separator. *)
Definition NUL : string := String "000"%char EmptyString.

(** ** The anchored regular expressions of the code *)

(** [^[class]+$] *)
Definition re_plus (class : ascii → bool) (s : string) : bool :=
  negb (String.eqb s "") && all_bytes class s.
(** [^[first][rest]{lo,hi}$] *)
Definition re_ident (first rest : ascii → bool) (lo hi : nat) (s : string) : bool :=
  match s with
  | EmptyString => false
  | String c r => first c && all_bytes rest r && Nat.leb lo (String.length r) && Nat.leb (String.length r) hi
  end.
(** [^[class]{n}$] *)
Definition re_exact (class : ascii → bool) (n : nat) (s : string) : bool :=
  Nat.eqb (String.length s) n && all_bytes class s.

(** What such a text is made of. *)
Lemma re_plus_all class s : re_plus class s = true → all_bytes class s = true.
Proof. unfold re_plus. by intros [_ ?]%andb_true_iff. Qed.
Lemma re_ident_all first rest lo hi s :
  re_ident first rest lo hi s = true → (∀ c, first c = true → rest c = true) → all_bytes rest s = true.
Proof.
  unfold re_ident, all_bytes. destruct s as [|c r]; [done|]. intros [[[Hc Hr]%andb_true_iff _]%andb_true_iff _]%andb_true_iff Hin.
  cbn. rewrite (Hin c Hc). exact Hr.
Qed.

(** [hex.DecodeString(s)] succeeds. *)
Definition hex_decodes (s : string) : bool :=
  Nat.even (String.length s) && all_bytes is_hex_digit s.

Lemma all_bytes_impl (p q : ascii → bool) s :
  (∀ c, p c = true → q c = true) → all_bytes p s = true → all_bytes q s = true.
Proof. unfold all_bytes. rewrite !forallb_forall. eauto. Qed.

Lemma all_bytes_append p s t : all_bytes p (s +:+ t) = all_bytes p s && all_bytes p t.
Proof. unfold all_bytes. rewrite bytes_append. apply forallb_app. Qed.

Lemma hex_is_visible c : is_hex_digit c = true → is_visible c = true ∧ is_ascii_byte c = true.
Proof. destruct c as [[] [] [] [] [] [] [] []]; vm_compute; auto. Qed.
Lemma visible_is_ascii c : is_visible c = true → is_ascii_byte c = true.
Proof. destruct c as [[] [] [] [] [] [] [] []]; vm_compute; auto. Qed.

Lemma visible_string_ascii s : all_bytes is_visible s = true → is_ascii s = true.
Proof. apply all_bytes_impl, visible_is_ascii. Qed.

Example TrimSpace_ex : TrimSpace "  release/v2 " = "release/v2".
Proof. reflexivity. Qed.
Example Split_ex : Split "itbem/events" "/" = ["itbem"; "events"].
Proof. reflexivity. Qed.
