(* ===== verification/GoSort.v ===== *)
(** * Go's [sort] package

    [sort_by less] is a stable insertion sort, the algorithm Go itself runs on slices of
    at most twelve elements; [sort.SliceStable] is stable at every length.  For
    [sort.Slice] with keys that are pairwise different every sorting algorithm returns
    the same slice ([sort_key_unique]), so stability is immaterial there. *)
From stdpp Require Import base tactics list strings sorting.
From S2P Require Import Prelude.

Section SortBy.
Context {A : Type} (less : A → A → bool).

Fixpoint insert_by (x : A) (l : list A) : list A :=
  match l with
  | [] => [x]
  | y :: l' => if less y x then y :: insert_by x l' else x :: y :: l'
  end.
Definition sort_by (l : list A) : list A := foldr insert_by [] l.

Lemma insert_by_perm x l : insert_by x l ≡ₚ x :: l.
Proof.
  induction l as [|y l IH]; cbn; [done|]. destruct (less y x); [|done].
  rewrite IH. apply Permutation_swap.
Qed.
Lemma sort_by_perm l : sort_by l ≡ₚ l.
Proof. induction l as [|x l IH]; cbn; [done|]. by rewrite insert_by_perm, IH. Qed.

Lemma sort_by_length l : length (sort_by l) = length l.
Proof. by rewrite sort_by_perm. Qed.
Lemma sort_by_elem x l : x ∈ sort_by l ↔ x ∈ l.
Proof. by rewrite sort_by_perm. Qed.
Lemma sort_by_nil l : sort_by l = [] ↔ l = [].
Proof.
  split; [|by intros ->]. intros H. apply Permutation_nil_r. rewrite <-(sort_by_perm l). by rewrite H.
Qed.

(** [less] is a strict weak order: its negated converse is transitive and total. *)
Definition not_less (x y : A) : Prop := less y x = false.
Context (not_less_trans : Transitive not_less) (less_asym : ∀ x y, less x y = true → less y x = false).

Lemma insert_by_sorted x l : StronglySorted not_less l → StronglySorted not_less (insert_by x l).
Proof.
  induction 1 as [|y l Hs IH Hall]; cbn; [repeat constructor|].
  destruct (less y x) eqn:Hyx.
  - constructor; [done|]. rewrite insert_by_perm. constructor; [by apply less_asym|done].
  - constructor; [by constructor|]. constructor; [done|].
    eapply Forall_impl; [done|]. intros z. by apply not_less_trans.
Qed.
Lemma sort_by_sorted l : StronglySorted not_less (sort_by l).
Proof. induction l; cbn; [constructor|]. by apply insert_by_sorted. Qed.

Lemma sort_by_id l : StronglySorted not_less l → sort_by l = l.
Proof.
  unfold sort_by. induction 1 as [|y l Hs IH Hall]; cbn; [done|]. rewrite IH.
  destruct Hall as [|z l Hz Hall]; cbn; [done|]. by rewrite Hz.
Qed.

(** Two elements that [less] does not separate and that both occur are equal. *)
Lemma sort_by_unique l1 l2 :
  (∀ x y, x ∈ l1 → y ∈ l1 → less x y = false → less y x = false → x = y) →
  l1 ≡ₚ l2 → sort_by l1 = sort_by l2.
Proof.
  intros Hkey Hp. apply (StronglySorted_unique_strong not_less).
  - intros x y Hx Hy Hxy Hyx. rewrite sort_by_elem in Hx, Hy. rewrite <-Hp in Hy. by apply Hkey.
  - apply sort_by_sorted.
  - apply sort_by_sorted.
  - by rewrite !sort_by_perm.
Qed.
End SortBy.

(** ** Sorting by a string key *)

Definition key_less {A} (key : A → string) (x y : A) : bool := String.ltb (key x) (key y).
Definition sort_key {A} (key : A → string) : list A → list A := sort_by (key_less key).
(** [sort.Strings] *)
Definition sort_strings : list string → list string := sort_key id.

Lemma ltb_false_le s t : String.ltb s t = false ↔ String.le t s.
Proof.
  unfold String.ltb, String.le, String.leb. rewrite (String.compare_antisym t s).
  destruct (String.compare s t); cbn; naive_solver.
Qed.

Section SortKey.
Context {A : Type} (key : A → string).

#[local] Instance key_not_less_trans : Transitive (not_less (key_less key)).
Proof.
  intros x y z. unfold not_less, key_less. rewrite !ltb_false_le. intros; by etrans.
Qed.
Lemma key_less_asym x y : key_less key x y = true → key_less key y x = false.
Proof.
  unfold key_less, String.ltb. rewrite (String.compare_antisym (key y) (key x)).
  by destruct (String.compare (key x) (key y)).
Qed.

Definition key_sorted : list A → Prop := StronglySorted (not_less (key_less key)).

Lemma sort_key_sorted l : key_sorted (sort_key key l).
Proof. apply sort_by_sorted; [apply _|apply key_less_asym]. Qed.
Lemma sort_key_id l : key_sorted l → sort_key key l = l.
Proof. apply sort_by_id. Qed.
Lemma sort_key_perm l : sort_key key l ≡ₚ l.
Proof. apply sort_by_perm. Qed.

Lemma key_less_false_eq x y : key_less key x y = false → key_less key y x = false → key x = key y.
Proof. unfold key_less. rewrite !ltb_false_le. intros; by apply (anti_symm String.le). Qed.

(** Sorting by a key that tells the elements apart forgets the input order. *)
Lemma sort_key_unique l1 l2 : NoDup (key <$> l1) → l1 ≡ₚ l2 → sort_key key l1 = sort_key key l2.
Proof.
  intros Hnd. apply sort_by_unique; [apply _|apply key_less_asym|].
  intros x y [i Hi]%list_elem_of_lookup [j Hj]%list_elem_of_lookup Hxy Hyx.
  pose proof (key_less_false_eq _ _ Hxy Hyx) as Hk.
  assert (i = j) as ->; [|congruence].
  eapply (NoDup_lookup (key <$> l1)); [done|..]; rewrite list_lookup_fmap.
  - by rewrite Hi.
  - by rewrite Hj, Hk.
Qed.
End SortKey.

Lemma sort_strings_unique l1 l2 : l1 ≡ₚ l2 → sort_strings l1 = sort_strings l2.
Proof.
  apply sort_by_unique; [apply key_not_less_trans|apply key_less_asym|].
  intros x y _ _. apply (key_less_false_eq id).
Qed.

Example sort_strings_ex : sort_strings ["squash"; "merge"; "rebase"] = ["merge"; "rebase"; "squash"].
Proof. reflexivity. Qed.
