(* ===== verification/Capabilities.v ===== *)
(** * Capabilities and products

    [internal/capabilities] (the vocabulary, the role table, the policy allow-list, the
    rollout mode) and [internal/products] (the product registry), with the root levels of
    [models.User].  These tables are what [Authz] decides from. *)
From stdpp Require Import base tactics list strings gmap.
From S2P Require Import Prelude GoStrings GoSort.
Open Scope string_scope.

Module capabilities.
Section capabilities.
Context `{GoUnicode}.

(** [type Capability string]: an action name. *)
Definition Capability := string.
Definition View : Capability := "view".
Definition EventCreate : Capability := "event:create".
Definition EventManage : Capability := "event:manage".
Definition EventDelete : Capability := "event:delete".
Definition GuestManage : Capability := "guest:manage".
Definition Checkin : Capability := "checkin:run".
Definition AnalyticsView : Capability := "analytics:view".
Definition MembersManage : Capability := "members:manage".
Definition OrgManage : Capability := "organization:manage".
Definition MetricsView : Capability := "metrics:view".
Definition EventClientsManage : Capability := "event:clients:manage".

Definition All : list Capability :=
  [View; EventCreate; EventManage; EventDelete; GuestManage; Checkin;
   AnalyticsView; MembersManage; OrgManage; MetricsView; EventClientsManage].

Definition sessionNames : gmap Capability string := list_to_map
  [(View, "events:view"); (EventCreate, "events:create"); (EventManage, "events:manage");
   (EventDelete, "events:delete"); (GuestManage, "guests:manage"); (Checkin, "checkin:run");
   (AnalyticsView, "analytics:view"); (MembersManage, "members:manage");
   (OrgManage, "organizations:manage"); (MetricsView, "metrics:view");
   (EventClientsManage, "events:clients:manage")].
Definition SessionName (capability : Capability) : option string := sessionNames !! capability.

Definition roleCapabilities : gmap string (list Capability) := list_to_map
  [("EVENT_MANAGER", [View; EventCreate; EventManage; GuestManage; Checkin; AnalyticsView; EventClientsManage]);
   ("EDITOR", [View; EventManage; GuestManage; AnalyticsView]);
   ("MEMBER", [View; GuestManage]);
   ("CHECKIN", [View; Checkin]);
   ("ANALYST", [View; AnalyticsView]);
   ("GUEST", [View]);
   ("VIEWER", [View])].

Definition NormalizeRole (role : string) : string := TrimPrefix (ToUpper (TrimSpace role)) "INHERITED_".

Definition IsOrganizationAdmin (role : string) : bool :=
  let code := NormalizeRole role in String.eqb code "OWNER" || String.eqb code "ADMIN".

Definition IsKnownRole (role : string) : bool :=
  let code := NormalizeRole role in
  if String.eqb code "OWNER" || String.eqb code "ADMIN" then true
  else bool_decide (is_Some (roleCapabilities !! code)).

Definition RoleCapabilities (role : string) : list Capability :=
  let code := NormalizeRole role in
  if String.eqb code "" then []
  else if String.eqb code "OWNER" || String.eqb code "ADMIN" then All
  else match roleCapabilities !! code with
       | Some known => known
       | None => [View]
       end.

Definition RoleHas (role : string) (capability : Capability) : bool :=
  existsb (λ held, String.eqb held capability) (RoleCapabilities role).

Definition EventClientCapabilities : list Capability :=
  [View; EventManage; GuestManage; Checkin; AnalyticsView].

Definition policyAllowList : gmap string (list string) := list_to_map
  [("itbem", ["dashboard:view"; "metrics:view"; "audit:view"; "automation:view"; "automation:manage";
              "platform:users:view"; "organizations:view"; "members:manage"]);
   ("eventiapp", ["dashboard:view"; "metrics:view"; "events:view"; "events:create"; "events:manage";
                  "guests:manage"; "checkin:run"; "analytics:view"; "members:manage"]);
   ("cafettonhouse", ["dashboard:view"; "metrics:view"; "events:view"; "events:create"; "events:manage";
                      "guests:manage"; "checkin:run"; "analytics:view"; "members:manage"])].
Definition normalizeApplication (application : string) : string := ToLower (TrimSpace application).
(** A missing key of a Go map of slices reads as the empty slice. *)
Definition allowListed (application : string) : list string :=
  default [] (policyAllowList !! normalizeApplication application).
Definition PolicyAllowList (application : string) : list string := sort_strings (allowListed application).
Definition PolicyAllows (application sessionName : string) : bool :=
  existsb (λ name, String.eqb name sessionName) (allowListed application).
Definition PolicyApplications : list string := sort_strings (map_to_list policyAllowList).*1.

(** [type Mode string] *)
Definition Mode := string.
Definition ModeOff : Mode := "off".
Definition ModeShadow : Mode := "shadow".
Definition ModeEnforce : Mode := "enforce".

Definition ParseMode (raw : string) : Mode * bool (* an error was returned *) :=
  let value := ToLower (TrimSpace raw) in
  if String.eqb value "" || String.eqb value ModeOff then (ModeOff, false)
  else if String.eqb value ModeShadow then (ModeShadow, false)
  else if String.eqb value ModeEnforce then (ModeEnforce, false)
  else (ModeOff, true).
End capabilities.
End capabilities.

Module products.
Section products.
Context `{GoUnicode}.

Definition EventiApp := "eventiapp".
Definition ITBEM := "itbem".
Definition CafettonHouse := "cafettonhouse".
(** [core.Definition] *)
Record Definition_ := {
  Code : string;
  Name : string;
  ProductLabel : string;
  Modules : list string;
  AllowsPlatformAuthority_ : bool;
  SupportsEventOperations_ : bool;
  SupportsAutomation_ : bool;
}.
Definition eventiapp_Definition : Definition_ :=
  {| Code := EventiApp; Name := "EventiApp"; ProductLabel := "Event operations";
     Modules := ["home"; "events"; "metrics"]; AllowsPlatformAuthority_ := true;
     SupportsEventOperations_ := true; SupportsAutomation_ := false |}.
Definition itbem_Definition : Definition_ :=
  {| Code := ITBEM; Name := "ITBEM"; ProductLabel := "Business operations";
     Modules := ["home"; "users"; "organizations"; "metrics"; "automation"];
     AllowsPlatformAuthority_ := true; SupportsEventOperations_ := false; SupportsAutomation_ := true |}.
Definition cafettonhouse_Definition : Definition_ :=
  {| Code := CafettonHouse; Name := "Cafetton House"; ProductLabel := "Client operations";
     Modules := ["home"; "users"; "organizations"; "metrics"];
     AllowsPlatformAuthority_ := false; SupportsEventOperations_ := false; SupportsAutomation_ := false |}.

Definition DefaultCode := EventiApp.
Definition orderedDefinitions : list Definition_ :=
  [eventiapp_Definition; itbem_Definition; cafettonhouse_Definition].
Definition definitions : gmap string Definition_ :=
  list_to_map ((λ d, (Code d, d)) <$> orderedDefinitions).
Definition Normalize (value : string) : string := ToLower (TrimSpace value).
Definition Resolve (value : string) : option Definition_ := definitions !! Normalize value.
Definition NormalizeOrDefault (value : string) : string :=
  match Resolve value with Some d => Code d | None => DefaultCode end.
Definition resolved_flag (f : Definition_ → bool) (value : string) : bool :=
  match Resolve value with Some d => f d | None => false end.
Definition AllowsPlatformAuthority : string → bool := resolved_flag AllowsPlatformAuthority_.
Definition SupportsEventOperations : string → bool := resolved_flag SupportsEventOperations_.
Definition SupportsAutomation : string → bool := resolved_flag SupportsAutomation_.

Definition organizationAdminModules : gmap string (list string) := {[ EventiApp := ["metrics"] ]}.
Definition ModuleRequiresOrganizationAdmin (product module : string) : bool :=
  match Resolve product with
  | None => false
  | Some d =>
      let module := TrimSpace module in
      if String.eqb module "" then false
      else existsb (λ reserved, EqualFold (TrimSpace reserved) module)
             (default [] (organizationAdminModules !! Code d))
  end.

Definition protectedSurfacePrefixes : list string :=
  ["/api/events"; "/api/guests"; "/api/moments"; "/api/invitations";
   "/api/sections"; "/api/tables"; "/api/resources"; "/api/admin/resources";
   "/api/fonts"; "/api/catalogs/design-templates"; "/api/catalogs/design-workspace";
   "/api/catalogs/color-palettes"; "/api/catalogs/font-sets"; "/api/catalogs/resource-types";
   "/api/catalogs/guest-statuses"; "/api/event-types"].
Definition OwnsProtectedSurface (path : string) : bool :=
  let path := TrimSuffix (ToLower (TrimSpace path)) "/" in
  existsb (HasPrefix path) protectedSurfacePrefixes.
Definition OwnsAutomationSurface (path : string) : bool :=
  HasPrefix (TrimSuffix (ToLower (TrimSpace path)) "/") "/api/automation".
Definition RequiresAutomationPath (path : string) : bool := OwnsAutomationSurface path.
Definition ParseEventClientAccess (raw : string) : bool := String.eqb (ToLower (TrimSpace raw)) "on".
Definition RequiresEventOperationsPath (path : string) : bool := OwnsProtectedSurface path.
End products.
End products.
