(* ===== verification/Authz.v ===== *)
(** * Authorization: the model of [internal/authz]

    One HTTP request runs in the monad [M]: it threads the echo context and the request
    memo it points to ([RequestState]) and ends in a value, an error or a nil dereference
    ([Panic]).  Lookups of other services are the hooks of [Hooks], each a field that may
    be unset, exactly as in the source. *)
From stdpp Require Import base tactics list strings gmap.
From S2P Require Import Prelude GoStrings GoSort Capabilities.
Export capabilities products.
Open Scope string_scope.

(** ** Data *)

Definition RootLevelNone : Z := 0.
Definition RootLevelPrimary : Z := 1.
Definition RootLevelOperational : Z := 2.

(** [models.User]: the fields authorization reads or stamps.  [AuthRequestMemo] is the
    address of a memo in the request's heap. *)
Record User := {
  ID : uuid;
  RootLevel : Z;
  IsRoot : bool;
  AuthTenantCode : string;
  AuthApplicationCode : string;
  AuthPolicyRestricted : bool;
  AuthPolicyCapabilities : gset string;
  AuthRequestMemo : option nat;
  SessionApplicationCode : string;
}.
Record Client := { Client_Code : string; Client_ParentID : option uuid }.
Record Event := { Event_ID : uuid; Event_ClientID : option uuid }.
Record EventSection := { EventSection_EventID : uuid }.
Record Moment := { Moment_EventID : option uuid }.
Record Guest := { Guest_EventID : uuid }.
Record Invitation := { Invitation_EventID : uuid }.
Record Resource := { Resource_EventSectionID : option uuid }.

Record Failure := { Status : Z; Message : string; Detail : string }.
Inductive error := EFailure (f : Failure) | EPlain (msg : string).
(** What a repository lookup returns as [error]. *)
Inductive LookupError := ErrRecordNotFound | ErrLookup (msg : string).
Definition LookupError_Error (e : LookupError) : string :=
  match e with ErrRecordNotFound => "record not found" | ErrLookup msg => msg end.

Record ApplicationAccess := { Allowed : bool; Role : string; Entitled : bool; Reason : string }.

Record Hooks := {
  SyncUser : option (string → Result LookupError (option User));
  CheckAccessRecursive : option (uuid → uuid → bool * string);
  CheckAccessRecursiveE : option (uuid → uuid → Result LookupError (bool * string));
  CheckApplicationAccessRecursive : option (uuid → uuid → string → Result LookupError ApplicationAccess);
  GetClientByID : option (uuid → Result LookupError (option Client));
  GetEventByIDRaw : option (uuid → Result LookupError (option Event));
  GetEventSectionByID : option (uuid → Result LookupError (option EventSection));
  GetMomentByID : option (uuid → Result LookupError (option Moment));
  GetGuestByID : option (uuid → Result LookupError (option Guest));
  GetInvitationByIDLite : option (uuid → Result LookupError (option Invitation));
  GetResourceByID : option (uuid → Result LookupError (option Resource));
  GetEventMemberRole : option (uuid → uuid → Result LookupError (option string));
  HasEventClientGrant : option (uuid → uuid → Result LookupError bool);
  ResolveClientProduct : option (uuid → Result LookupError string);
  GetEventMemberRoles : option (list uuid → uuid → Result LookupError (gmap uuid string));
  ReachableClientIDsInApplication : option (uuid → string → list uuid → Result LookupError (gmap uuid bool));
}.

Inductive accessScope := scopeOrganization | scopeEventResource.
#[export] Instance accessScope_eq_dec : EqDecision accessScope.
Proof. solve_decision. Defined.
Inductive authorityKind := authorityOrganization | authorityPlatform | authorityEventClient.
#[export] Instance authorityKind_eq_dec : EqDecision authorityKind.
Proof. solve_decision. Defined.
Record eventAuthority := { kind : authorityKind; access : ApplicationAccess }.
Definition noAccess : ApplicationAccess := {| Allowed := false; Role := ""; Entitled := false; Reason := "" |}.

(** [PolicyCeilingSource]: the two answers of the application session. *)
Record PolicyCeilingSource := { ApplicationCode : string; PolicyCeiling : gset string * bool }.

(** [requestMemoKey]: user, client, whether the entitlement was evaluated. *)
Definition requestMemoKey : Type := uuid * uuid * bool.
Record requestMemo := {
  memo_route : string;
  memo_tenant : string;
  memo_entries : gmap requestMemoKey ApplicationAccess;
}.

(** [shadowDeduper]; a time is a number of nanoseconds. *)
Record shadowDeduper := { ttl : Z; max_entries : nat; seen : gmap string Z }.
Record shadowLine := { check : string; tenant : string; line_capability : string; reason : string; route : string }.

(** The echo context of one request, the heap of memos it and its user copies point into,
    and the process-wide shadow log. *)
Record RequestState := {
  cognito_sub : option string;
  tenant_code : option string;
  application_session : option PolicyCeilingSource;
  route_path : string;
  context_memo : option nat;
  event_authorities : gmap string eventAuthority;
  metrics_organization : option uuid;
  memos : list requestMemo;
  shadowLog : shadowDeduper;
  shadowLines : list shadowLine;
}.

(** The configuration of the process: hooks, the two rollout modes, the clock, and the
    text form of identifiers ([uuid.UUID.String], a third-party function). *)
Record Env := {
  hooks : Hooks;
  entitlement_mode : Mode;
  ceiling_mode : Mode;
  clock : Z;
  uuid_String : uuid → string;
}.

(** ** The request monad *)

Inductive outcome A := Value (a : A) | Failed (e : error) | Panic.
Arguments Value {A} a. Arguments Failed {A} e. Arguments Panic {A}.
Definition M (A : Type) : Type := RequestState → RequestState * outcome A.
#[export] Instance M_ret : MRet M := λ A a s, (s, Value a).
#[export] Instance M_bind : MBind M := λ A B f m s,
  match m s with
  | (s', Value a) => f a s'
  | (s', Failed e) => (s', Failed e)
  | (s', Panic) => (s', Panic)
  end.
Definition fail {A} (e : error) : M A := λ s, (s, Failed e).
Definition deny {A} (status : Z) (message detail : string) : M A :=
  fail (EFailure {| Status := status; Message := message; Detail := detail |}).
(** Reading a field through a pointer. *)
Definition deref {A} (o : option A) : M A := λ s, (s, match o with Some a => Value a | None => Panic end).
Definition get_state : M RequestState := λ s, (s, Value s).
Definition put_state (s : RequestState) : M unit := λ _, (s, Value tt).
(** [v, err := m]: the error as a value. *)
Definition try {A} (m : M A) : M (Result error A) := λ s,
  match m s with
  | (s', Value a) => (s', Value (Ok a))
  | (s', Failed e) => (s', Value (Err e))
  | (s', Panic) => (s', Panic)
  end.

Definition StatusBadRequest : Z := 400.
Definition StatusUnauthorized : Z := 401.
Definition StatusForbidden : Z := 403.
Definition StatusNotFound : Z := 404.
Definition StatusInternalServerError : Z := 500.

Definition forbidden {A} (detail : string) : M A := deny StatusForbidden "Access denied" detail.
Definition lookupFailure {A} (kind : string) (err : LookupError) : M A :=
  match err with
  | ErrRecordNotFound => deny StatusNotFound (kind +:+ " not found") (LookupError_Error err)
  | _ => deny StatusInternalServerError (kind +:+ " lookup failed") (LookupError_Error err)
  end.
Definition dependencyFailure {A} (name : string) : M A :=
  deny StatusInternalServerError "Authorization dependency unavailable" (name +:+ " hook is not configured").
Definition organizationLookupFailure {A} : M A :=
  deny StatusInternalServerError "Authorization error" "Organization access lookup failed".
Definition Failure_Error (e : Failure) : string :=
  if String.eqb (Detail e) "" then Message e else Detail e.
(** [Respond]: the HTTP status and body an error turns into. *)
Definition Respond (err : error) : Z * string * string :=
  match err with
  | EFailure failure => (Status failure, Message failure, Detail failure)
  | EPlain msg => (StatusInternalServerError, "Authorization error", msg)
  end.

(** ** Root levels (methods of [*models.User]; a nil receiver is allowed) *)

Definition EffectiveRootLevel (u : option User) : Z :=
  match u with
  | None => RootLevelNone
  | Some u =>
      if Z.gtb (RootLevel u) RootLevelNone then RootLevel u
      else if IsRoot u then RootLevelPrimary
      else RootLevelNone
  end.
Definition IsPlatformAdmin (u : option User) : bool := Z.gtb (EffectiveRootLevel u) RootLevelNone.
Definition IsPrimaryRoot (u : option User) : bool := Z.eqb (EffectiveRootLevel u) RootLevelPrimary.

(** ** [ReplaceHooksForTest]: every configured field of the replacement wins *)

Definition ReplaceHooksForTest (hooks replacement : Hooks) : Hooks :=
  {| SyncUser := union (SyncUser replacement) (SyncUser hooks);
     CheckAccessRecursive := union (CheckAccessRecursive replacement) (CheckAccessRecursive hooks);
     CheckAccessRecursiveE := union (CheckAccessRecursiveE replacement) (CheckAccessRecursiveE hooks);
     CheckApplicationAccessRecursive :=
       union (CheckApplicationAccessRecursive replacement) (CheckApplicationAccessRecursive hooks);
     GetClientByID := union (GetClientByID replacement) (GetClientByID hooks);
     GetEventByIDRaw := union (GetEventByIDRaw replacement) (GetEventByIDRaw hooks);
     GetEventSectionByID := union (GetEventSectionByID replacement) (GetEventSectionByID hooks);
     GetMomentByID := union (GetMomentByID replacement) (GetMomentByID hooks);
     GetGuestByID := union (GetGuestByID replacement) (GetGuestByID hooks);
     GetInvitationByIDLite := union (GetInvitationByIDLite replacement) (GetInvitationByIDLite hooks);
     GetResourceByID := union (GetResourceByID replacement) (GetResourceByID hooks);
     GetEventMemberRole := union (GetEventMemberRole replacement) (GetEventMemberRole hooks);
     HasEventClientGrant := union (HasEventClientGrant replacement) (HasEventClientGrant hooks);
     ResolveClientProduct := union (ResolveClientProduct replacement) (ResolveClientProduct hooks);
     GetEventMemberRoles := union (GetEventMemberRoles replacement) (GetEventMemberRoles hooks);
     ReachableClientIDsInApplication :=
       union (ReachableClientIDsInApplication replacement) (ReachableClientIDsInApplication hooks) |}.

Section Authz.
Context `{GoUnicode} (env : Env).

(** ** enforcement.go *)

Definition normalizeMode (mode : Mode) : Mode :=
  if String.eqb mode ModeShadow || String.eqb mode ModeEnforce then mode else ModeOff.
(** The modes in force, as [ConfigureEnforcement] stored them. *)
Definition EntitlementMode : Mode := normalizeMode (entitlement_mode env).
Definition PolicyCeilingMode : Mode := normalizeMode (ceiling_mode env).

Definition memoOf (user : option User) : option nat := user ≫= AuthRequestMemo.

Definition set_context_memo (p : nat) (ms : list requestMemo) (s : RequestState) : RequestState :=
  {| cognito_sub := cognito_sub s; tenant_code := tenant_code s; application_session := application_session s;
     route_path := route_path s; context_memo := Some p; event_authorities := event_authorities s;
     metrics_organization := metrics_organization s; memos := ms;
     shadowLog := shadowLog s; shadowLines := shadowLines s |}.
Definition set_memos (ms : list requestMemo) (s : RequestState) : RequestState :=
  {| cognito_sub := cognito_sub s; tenant_code := tenant_code s; application_session := application_session s;
     route_path := route_path s; context_memo := context_memo s; event_authorities := event_authorities s;
     metrics_organization := metrics_organization s; memos := ms;
     shadowLog := shadowLog s; shadowLines := shadowLines s |}.
Definition set_event_authorities (m : gmap string eventAuthority) (s : RequestState) : RequestState :=
  {| cognito_sub := cognito_sub s; tenant_code := tenant_code s; application_session := application_session s;
     route_path := route_path s; context_memo := context_memo s; event_authorities := m;
     metrics_organization := metrics_organization s; memos := memos s;
     shadowLog := shadowLog s; shadowLines := shadowLines s |}.
Definition set_metrics (o : uuid) (s : RequestState) : RequestState :=
  {| cognito_sub := cognito_sub s; tenant_code := tenant_code s; application_session := application_session s;
     route_path := route_path s; context_memo := context_memo s; event_authorities := event_authorities s;
     metrics_organization := Some o; memos := memos s;
     shadowLog := shadowLog s; shadowLines := shadowLines s |}.
Definition set_shadow (d : shadowDeduper) (ls : list shadowLine) (s : RequestState) : RequestState :=
  {| cognito_sub := cognito_sub s; tenant_code := tenant_code s; application_session := application_session s;
     route_path := route_path s; context_memo := context_memo s; event_authorities := event_authorities s;
     metrics_organization := metrics_organization s; memos := memos s;
     shadowLog := d; shadowLines := ls |}.

(** [stampRequestAuthorization]: the policy ceiling of the session, and the memo, which
    is created once per context and shared by every user copy. *)
Definition stampRequestAuthorization (user : User) : M User :=
  s ← get_state;
  let tenant := ToLower (TrimSpace (default "" (tenant_code s))) in
  let '(application, (names, restricted)) :=
    match application_session s with
    | Some source =>
        let code := ToLower (TrimSpace (ApplicationCode source)) in
        (if String.eqb code "" then tenant else code, PolicyCeiling source)
    | None => (tenant, (∅, false))
    end in
  p ← match context_memo s with
      | Some p => mret p
      | None =>
          let memo := {| memo_route := route_path s; memo_tenant := tenant; memo_entries := ∅ |} in
          _ ← put_state (set_context_memo (length (memos s)) (memos s ++ [memo]) s);
          mret (length (memos s))
      end;
  mret {| ID := ID user; RootLevel := RootLevel user; IsRoot := IsRoot user;
          AuthTenantCode := AuthTenantCode user; AuthApplicationCode := application;
          AuthPolicyRestricted := restricted; AuthPolicyCapabilities := names;
          AuthRequestMemo := Some p; SessionApplicationCode := SessionApplicationCode user |}.

Definition checkAccessRecursive (userID clientID : uuid) : M (bool * string) :=
  match CheckAccessRecursiveE (hooks env), CheckAccessRecursive (hooks env) with
  | Some hook, _ =>
      match hook userID clientID with
      | Err _ => organizationLookupFailure
      | Ok r => mret r
      end
  | None, Some hook => mret (hook userID clientID)
  | None, None => dependencyFailure "CheckAccessRecursive"
  end.

(** The lookup behind the memo. *)
Definition freshOrganizationAccess (userID clientID : uuid) (evaluateEntitlement : bool) : M ApplicationAccess :=
  match evaluateEntitlement, CheckApplicationAccessRecursive (hooks env) with
  | true, Some hook =>
      match hook userID clientID DefaultCode with
      | Err _ => organizationLookupFailure
      | Ok resolved => mret resolved
      end
  | true, None =>
      if String.eqb EntitlementMode ModeEnforce then dependencyFailure "CheckApplicationAccessRecursive"
      else '(allowed, role) ← checkAccessRecursive userID clientID;
           mret {| Allowed := allowed; Role := role; Entitled := true; Reason := "" |}
  | false, _ =>
      '(allowed, role) ← checkAccessRecursive userID clientID;
      mret {| Allowed := allowed; Role := role; Entitled := true; Reason := "" |}
  end.

Definition evaluateEntitlement (scope : accessScope) : bool :=
  bool_decide (scope = scopeEventResource) && negb (String.eqb EntitlementMode ModeOff).

Definition memo_lookup (memo : option nat) (key : requestMemoKey) (s : RequestState) : option ApplicationAccess :=
  memo ≫= λ p, memos s !! p ≫= λ m, memo_entries m !! key.
Definition memo_store (memo : option nat) (key : requestMemoKey) (a : ApplicationAccess) (s : RequestState) : RequestState :=
  match memo with
  | None => s
  | Some p => set_memos (alter (λ m, {| memo_route := memo_route m; memo_tenant := memo_tenant m;
                                        memo_entries := <[key := a]> (memo_entries m) |}) p (memos s)) s
  end.

Definition lookupOrganizationAccess (user : option User) (clientID : uuid) (scope : accessScope) : M ApplicationAccess :=
  u ← deref user;
  let evaluate := evaluateEntitlement scope in
  let key := (ID u, clientID, evaluate) in
  s ← get_state;
  match memo_lookup (memoOf user) key s with
  | Some cached => mret cached
  | None =>
      access ← freshOrganizationAccess (ID u) clientID evaluate;
      s' ← get_state;
      _ ← put_state (memo_store (memoOf user) key access s');
      mret access
  end.

(** [shadowDeduper.first] *)
Definition deduper_first (d : shadowDeduper) (now : Z) (key : string) : shadowDeduper * bool :=
  let fresh := match seen d !! key with
               | Some seenAt => negb (Z.ltb (now - seenAt) (ttl d))
               | None => true
               end in
  if negb fresh then (d, false)
  else
    let pruned :=
      if Nat.leb (max_entries d) (size (seen d)) then
        let kept := filter (λ kv : string * Z, (now - kv.2 < ttl d)%Z) (seen d) in
        if Nat.leb (max_entries d) (size kept) then ∅ else kept
      else seen d in
    ({| ttl := ttl d; max_entries := max_entries d; seen := <[key := now]> pruned |}, true).

Definition reportShadowDenial (user : option User) (check : string) (clientID : uuid)
    (capability : Capability) (reason : string) : M unit :=
  s ← get_state;
  let userID := match user with Some u => ID u | None => Nil end in
  let tenant := match user with Some u => AuthApplicationCode u | None => "" end in
  let '(tenant, route) :=
    match memoOf user ≫= λ p, memos s !! p with
    | Some memo => (if String.eqb tenant "" then memo_tenant memo else tenant, memo_route memo)
    | None => (tenant, "")
    end in
  let key := check +:+ "|" +:+ uuid_String env userID +:+ "|" +:+ uuid_String env clientID +:+ "|" +:+ capability in
  let '(log, first) := deduper_first (shadowLog s) (clock env) key in
  put_state (set_shadow log
    (if first then shadowLines s ++ [{| check := check; tenant := tenant; line_capability := capability;
                                        reason := reason; route := route |}]
     else shadowLines s) s).

Definition enforceProductEntitlement (user : option User) (clientID : uuid) (capability : Capability)
    (access : ApplicationAccess) : M unit :=
  if negb (Allowed access) || Entitled access then mret tt
  else
    let reason := if String.eqb (Reason access) "" then "member_not_entitled" else Reason access in
    if String.eqb EntitlementMode ModeShadow then
      reportShadowDenial user "entitlement" clientID capability reason
    else if String.eqb EntitlementMode ModeEnforce then
      forbidden "Your organization is not enabled for this application"
    else mret tt.

Definition enforcePolicyCeiling (user : option User) (capability : Capability) : M unit :=
  let mode := PolicyCeilingMode in
  match user with
  | None => mret tt
  | Some u =>
      if String.eqb mode ModeOff || negb (AuthPolicyRestricted u) || IsPrimaryRoot user then mret tt
      else match SessionName capability with
           | None => mret tt
           | Some name =>
               if negb (PolicyAllows (AuthApplicationCode u) name) then mret tt
               else if bool_decide (name ∈ AuthPolicyCapabilities u) then mret tt
               else if String.eqb mode ModeShadow then
                 reportShadowDenial user "policy" Nil capability "policy_excludes"
               else forbidden "Your application access policy does not allow this action"
           end
  end.

Definition finalizeAuthorityDecision (user : option User) (clientID : uuid) (capability : Capability)
    (access : ApplicationAccess) : M unit :=
  _ ← enforceProductEntitlement user clientID capability access;
  enforcePolicyCeiling user capability.

(** ** authz.go: the caller *)

Definition scopeUserToTenant (user : option User) : M (option User) :=
  match user with
  | None => mret None
  | Some u =>
      s ← get_state;
      let tenantCode := default "" (tenant_code s) in
      let code := match Resolve tenantCode with
                  | Some definition => Code definition
                  | None => SessionApplicationCode u
                  end in
      let demoted := negb (String.eqb tenantCode "") && negb (AllowsPlatformAuthority tenantCode) in
      let scoped :=
        {| ID := ID u;
           RootLevel := if demoted then RootLevelNone else RootLevel u;
           IsRoot := if demoted then false else IsRoot u;
           AuthTenantCode := if demoted then ToLower (TrimSpace tenantCode) else AuthTenantCode u;
           AuthApplicationCode := AuthApplicationCode u; AuthPolicyRestricted := AuthPolicyRestricted u;
           AuthPolicyCapabilities := AuthPolicyCapabilities u; AuthRequestMemo := AuthRequestMemo u;
           SessionApplicationCode := code |} in
      stamped ← stampRequestAuthorization scoped;
      mret (Some stamped)
  end.

Definition cognitoSubFromContext : M string :=
  s ← get_state;
  match cognito_sub s with
  | Some sub => if String.eqb sub "" then deny StatusUnauthorized "Unauthorized" "Invalid token" else mret sub
  | None => deny StatusUnauthorized "Unauthorized" "Invalid token"
  end.

Definition currentUserByCognitoSub (cognitoSub : string) : M (option User) :=
  match SyncUser (hooks env) with
  | None => dependencyFailure "SyncUser"
  | Some sync =>
      match sync cognitoSub with
      | Err e => deny StatusUnauthorized "User not found" (LookupError_Error e)
      | Ok user => mret user
      end
  end.

Definition CurrentUser : M (option User) :=
  cognitoSub ← cognitoSubFromContext;
  user ← currentUserByCognitoSub cognitoSub;
  scopeUserToTenant user.

Definition RequireRoot : M (option User) :=
  user ← CurrentUser;
  if negb (IsPlatformAdmin user) then deny StatusForbidden "Forbidden" "Admin only" else mret user.

Definition RequirePrimaryRoot : M (option User) :=
  user ← CurrentUser;
  if negb (IsPrimaryRoot user)
  then deny StatusForbidden "Forbidden" "Primary platform administrator required" else mret user.

(** ** authz.go: organizations *)

Definition outsideTenant {A} : M A := forbidden "Client is outside the authenticated tenant".

(** The ancestor walk: at most 32 organizations, then deny. *)
Fixpoint tenantWalk (getClient : uuid → Result LookupError (option Client)) (tenant : string)
    (depth : nat) (currentID : uuid) : M unit :=
  match depth with
  | O => outsideTenant
  | S depth' =>
      if N.eqb currentID Nil then outsideTenant
      else match getClient currentID with
           | Ok (Some client) =>
               if EqualFold (TrimSpace (Client_Code client)) tenant then mret tt
               else match Client_ParentID client with
                    | None => outsideTenant
                    | Some parent => tenantWalk getClient tenant depth' parent
                    end
           | _ => outsideTenant
           end
  end.

Definition requireTenantClientBoundary (user : option User) (clientID : uuid) : M unit :=
  match user with
  | None => mret tt
  | Some u =>
      if String.eqb (TrimSpace (AuthTenantCode u)) "" || String.eqb (NormalizeOrDefault (AuthTenantCode u)) DefaultCode
      then mret tt
      else match GetClientByID (hooks env) with
           | None => dependencyFailure "GetClientByID"
           | Some getClient => tenantWalk getClient (AuthTenantCode u) 32 clientID
           end
  end.

Definition platformHasCapability (user : option User) (capability : Capability) : bool :=
  if IsPrimaryRoot user then true
  else if negb (Z.eqb (EffectiveRootLevel user) RootLevelOperational) then false
  else existsb (String.eqb capability) [View; GuestManage; Checkin; AnalyticsView; MetricsView; MembersManage].

Definition roleHasCapability (role : string) (capability : Capability) : bool := RoleHas role capability.

Definition PlatformRootMayGrantRole (user : option User) (roleCode : string) : bool :=
  IsPlatformAdmin user &&
  forallb (λ capability, negb (roleHasCapability roleCode capability && negb (platformHasCapability user capability))) All.

Definition requireSessionApplicationReach (user : option User) (clientID : uuid) : M unit :=
  u ← deref user;
  let applicationCode := TrimSpace (SessionApplicationCode u) in
  if String.eqb applicationCode "" then mret tt
  else match ReachableClientIDsInApplication (hooks env) with
       | None => dependencyFailure "ReachableClientIDsInApplication"
       | Some hook =>
           match hook (ID u) applicationCode [clientID] with
           | Err _ => deny StatusInternalServerError "Authorization error" "application reach lookup failed"
           | Ok reachable =>
               if default false (reachable !! clientID) then mret tt
               else forbidden "Client is outside the current application"
           end
       end.

Definition requireClientAccess (user : option User) (clientID : uuid) (scope : accessScope) : M unit :=
  _ ← requireTenantClientBoundary user clientID;
  if IsPlatformAdmin user then mret tt
  else
    access ← lookupOrganizationAccess user clientID scope;
    if negb (Allowed access) then forbidden "You do not have access to this client"
    else
      _ ← requireSessionApplicationReach user clientID;
      enforceProductEntitlement user clientID View access.
Definition RequireClientAccess (user : option User) (clientID : uuid) : M unit :=
  requireClientAccess user clientID scopeOrganization.
Definition RequireEventListAccess (user : option User) (clientID : uuid) : M unit :=
  requireClientAccess user clientID scopeEventResource.

Definition platformLevelDenied {A} : M A :=
  forbidden "Your platform administrator level cannot perform this action".

Definition requireClientCapability (user : option User) (clientID : uuid) (capability : Capability)
    (scope : accessScope) : M unit :=
  _ ← requireTenantClientBoundary user clientID;
  if IsPlatformAdmin user then
    if platformHasCapability user capability then enforcePolicyCeiling user capability
    else platformLevelDenied
  else
    access ← lookupOrganizationAccess user clientID scope;
    if negb (Allowed access) || negb (roleHasCapability (Role access) capability)
    then forbidden "Your organization role cannot perform this action"
    else
      _ ← requireSessionApplicationReach user clientID;
      finalizeAuthorityDecision user clientID capability access.
Definition RequireClientCapability (user : option User) (clientID : uuid) (capability : Capability) : M unit :=
  requireClientCapability user clientID capability scopeOrganization.

(** ** event_authority.go *)

Definition eventClientGrantAccess : ApplicationAccess :=
  {| Allowed := true; Role := ""; Entitled := true; Reason := "" |}.

Definition authorizeEventView (user : option User) (event : option Event) (authority : eventAuthority) : M unit :=
  match event ≫= Event_ClientID with
  | Some clientID =>
      if negb (bool_decide (kind authority = authorityOrganization)) then mret tt
      else enforceProductEntitlement user clientID View (access authority)
  | None => mret tt
  end.

Definition eventClientCeiling : list Capability := [View; EventManage; GuestManage; Checkin; AnalyticsView].
Definition eventClientHasCapability (capability : Capability) : bool :=
  existsb (λ allowed, String.eqb allowed capability) eventClientCeiling.

Definition eventAuthorityContextKey (event : Event) : string :=
  let clientID := match Event_ClientID event with Some c => uuid_String env c | None => "none" end in
  "authz.event_authority:" +:+ uuid_String env (Event_ID event) +:+ ":" +:+ clientID.

Definition eventClientGrantApplies (user : option User) (eventID clientID : uuid) : M bool :=
  match HasEventClientGrant (hooks env) with
  | None => mret false
  | Some hook =>
      u ← deref user;
      if negb (String.eqb (TrimSpace (AuthTenantCode u)) "") then mret false
      else match hook eventID (ID u) with
           | Err _ => deny StatusInternalServerError "Authorization error" "event client grant lookup failed"
           | Ok false => mret false
           | Ok true =>
               match ResolveClientProduct (hooks env) with
               | None => dependencyFailure "ResolveClientProduct"
               | Some resolve =>
                   match resolve clientID with
                   | Err _ => deny StatusInternalServerError "Authorization error" "organization product lookup failed"
                   | Ok product => mret (SupportsEventOperations product)
                   end
               end
           end
  end.

(** The fixed precedence: platform root, organization, event-client grant, deny. *)
Definition resolveEventAuthority (user : option User) (event : option Event) : M eventAuthority :=
  match user, event with
  | None, _ | _, None => forbidden "You do not have access to this client"
  | Some u, Some ev =>
      if IsPlatformAdmin user then mret {| kind := authorityPlatform; access := noAccess |}
      else match Event_ClientID ev with
           | None => forbidden "Event is not linked to a client"
           | Some clientID =>
               _ ← requireTenantClientBoundary user clientID;
               access ← lookupOrganizationAccess user clientID scopeEventResource;
               if Allowed access then mret {| kind := authorityOrganization; access := access |}
               else
                 granted ← eventClientGrantApplies user (Event_ID ev) clientID;
                 if (granted : bool) then mret {| kind := authorityEventClient; access := noAccess |}
                 else forbidden "You do not have access to this client"
           end
  end.

Definition memoizedEventAuthority (user : option User) (event : option Event) : M eventAuthority :=
  ev ← deref event;
  let key := eventAuthorityContextKey ev in
  s ← get_state;
  match event_authorities s !! key with
  | Some cached => mret cached
  | None =>
      authority ← resolveEventAuthority user event;
      s' ← get_state;
      _ ← put_state (set_event_authorities (<[key := authority]> (event_authorities s')) s');
      mret authority
  end.

(** ** authz.go: events *)

Definition lookupEventByID (eventID : uuid) : M (option Event) :=
  match GetEventByIDRaw (hooks env) with
  | None => dependencyFailure "GetEventByIDRaw"
  | Some hook =>
      match hook eventID with
      | Err e => lookupFailure "Event" e
      | Ok event => mret event
      end
  end.

Definition EnsureEventAccess (user : option User) (event : option Event) : M unit :=
  authority ← resolveEventAuthority user event;
  authorizeEventView user event authority.

Definition EnsureEventIDAccess (user : option User) (eventID : uuid) : M (option Event) :=
  event ← lookupEventByID eventID;
  _ ← EnsureEventAccess user event;
  mret event.

(** The two loads run in goroutines; the caller waits for the user first and returns its
    error, or re-raises its panic, before it looks at the event.  [loadEvent] does not
    touch the request state, so joining in that order is the sequential composition. *)
Definition loadEventAccessInputs (loadUser : M (option User)) (loadEvent : M (option Event))
    : M (option User * option Event) :=
  user ← loadUser;
  event ← loadEvent;
  mret (user, event).

Definition RequireEventAccess (eventID : uuid) : M (option User * option Event) :=
  s ← get_state;
  let tenantCode := default "" (tenant_code s) in
  if negb (String.eqb (TrimSpace tenantCode) "") && negb (SupportsEventOperations tenantCode) then
    deny StatusForbidden "Application surface denied"
      "Event operations are only available in the EventiApp application"
  else
    cognitoSub ← cognitoSubFromContext;
    '(user, event) ← loadEventAccessInputs
      (loaded ← currentUserByCognitoSub cognitoSub; scopeUserToTenant loaded)
      (lookupEventByID eventID);
    authority ← memoizedEventAuthority user event;
    _ ← authorizeEventView user event authority;
    ev ← deref event;
    _ ← match Event_ClientID ev with
        | Some clientID => s' ← get_state; put_state (set_metrics clientID s')
        | None => mret tt
        end;
    mret (user, event).

Definition eventRoleHasCapability (role : string) (capability : Capability) : bool :=
  let code := ToUpper (TrimSpace role) in
  let among (names : list string) := existsb (String.eqb code) names in
  if among ["EVENT_OWNER"; "OWNER"; "MANAGER"; "EVENT_MANAGER"] then true
  else if String.eqb capability View then among ["EDITOR"; "CHECKIN"; "ANALYST"; "VIEWER"]
  else if String.eqb capability EventCreate then false
  else if String.eqb capability EventManage then among ["EDITOR"]
  else if String.eqb capability EventDelete then false
  else if String.eqb capability GuestManage then among ["EDITOR"]
  else if String.eqb capability Checkin then among ["EDITOR"; "CHECKIN"]
  else if String.eqb capability AnalyticsView then among ["EDITOR"; "ANALYST"]
  else false.

(** The event membership may only narrow what the organization role allows. *)
Definition requireEventMemberRole (user : option User) (eventID : uuid) (capability : Capability) : M unit :=
  match GetEventMemberRole (hooks env) with
  | None => mret tt
  | Some hook =>
      u ← deref user;
      match hook eventID (ID u) with
      | Err e => deny StatusInternalServerError "Authorization error" (LookupError_Error e)
      | Ok (Some role) =>
          if negb (eventRoleHasCapability role capability)
          then forbidden "Your event assignment cannot perform this action" else mret tt
      | Ok None => mret tt
      end
  end.

Definition RequireEventCapability (eventID : uuid) (capability : Capability) : M (option User * option Event) :=
  '(user, event) ← RequireEventAccess eventID;
  authority ← memoizedEventAuthority user event;
  ev ← deref event;
  match kind authority with
  | authorityPlatform =>
      if platformHasCapability user capability then
        _ ← enforcePolicyCeiling user capability; mret (user, event)
      else platformLevelDenied
  | authorityEventClient =>
      if eventClientHasCapability capability then
        clientID ← deref (Event_ClientID ev);
        _ ← finalizeAuthorityDecision user clientID capability eventClientGrantAccess;
        mret (user, event)
      else forbidden "Your event client access cannot perform this action"
  | authorityOrganization =>
      match Event_ClientID ev with
      | None => forbidden "Event is not linked to a client"
      | Some clientID =>
          if negb (roleHasCapability (Role (access authority)) capability)
          then forbidden "Your organization role cannot perform this action"
          else
            _ ← finalizeAuthorityDecision user clientID capability (access authority);
            _ ← requireEventMemberRole user eventID capability;
            mret (user, event)
      end
  end.

(** ** authz.go: sections, moments, guests, invitations, resources *)

Definition EnsureEventSectionAccess (user : option User) (sectionID : uuid) : M (option EventSection) :=
  match GetEventSectionByID (hooks env) with
  | None => dependencyFailure "GetEventSectionByID"
  | Some hook =>
      match hook sectionID with
      | Err e => lookupFailure "Event section" e
      | Ok section =>
          sec ← deref section;
          _ ← EnsureEventIDAccess user (EventSection_EventID sec);
          mret section
      end
  end.
Definition RequireEventSectionAccess (sectionID : uuid) : M (option User * option EventSection) :=
  user ← CurrentUser;
  section ← EnsureEventSectionAccess user sectionID;
  mret (user, section).
Definition RequireEventSectionCapability (sectionID : uuid) (capability : Capability)
    : M (option User * option EventSection) :=
  '(user, section) ← RequireEventSectionAccess sectionID;
  sec ← deref section;
  _ ← RequireEventCapability (EventSection_EventID sec) capability;
  mret (user, section).

Definition EnsureMomentAccess (user : option User) (momentID : uuid) : M (option Moment) :=
  match GetMomentByID (hooks env) with
  | None => dependencyFailure "GetMomentByID"
  | Some hook =>
      match hook momentID with
      | Err e => lookupFailure "Moment" e
      | Ok moment =>
          if IsPlatformAdmin user then mret moment
          else
            m ← deref moment;
            match Moment_EventID m with
            | None => forbidden "Moment is not linked to an event"
            | Some eventID => _ ← EnsureEventIDAccess user eventID; mret moment
            end
      end
  end.
Definition RequireMomentAccess (momentID : uuid) : M (option User * option Moment) :=
  user ← CurrentUser;
  moment ← EnsureMomentAccess user momentID;
  mret (user, moment).
Definition RequireMomentCapability (momentID : uuid) (capability : Capability) : M (option User * option Moment) :=
  '(user, moment) ← RequireMomentAccess momentID;
  if IsPlatformAdmin user then
    if platformHasCapability user capability then mret (user, moment) else platformLevelDenied
  else
    m ← deref moment;
    match Moment_EventID m with
    | None => forbidden "Moment is not linked to an event"
    | Some eventID => _ ← RequireEventCapability eventID capability; mret (user, moment)
    end.

Definition EnsureGuestAccess (user : option User) (guestID : uuid) : M (option Guest) :=
  match GetGuestByID (hooks env) with
  | None => dependencyFailure "GetGuestByID"
  | Some hook =>
      match hook guestID with
      | Err e => lookupFailure "Guest" e
      | Ok guest =>
          g ← deref guest;
          if N.eqb (Guest_EventID g) Nil then forbidden "Guest is not linked to an event"
          else _ ← EnsureEventIDAccess user (Guest_EventID g); mret guest
      end
  end.
Definition RequireGuestAccess (guestID : uuid) : M (option User * option Guest) :=
  user ← CurrentUser;
  guest ← EnsureGuestAccess user guestID;
  mret (user, guest).
Definition RequireGuestCapability (guestID : uuid) (capability : Capability) : M (option User * option Guest) :=
  '(user, guest) ← RequireGuestAccess guestID;
  g ← deref guest;
  _ ← RequireEventCapability (Guest_EventID g) capability;
  mret (user, guest).

Definition RequireInvitationAccess (invitationID : uuid) : M (option User * option Invitation) :=
  user ← CurrentUser;
  match GetInvitationByIDLite (hooks env) with
  | None => dependencyFailure "GetInvitationByIDLite"
  | Some hook =>
      match hook invitationID with
      | Err e => lookupFailure "Invitation" e
      | Ok invitation =>
          i ← deref invitation;
          if N.eqb (Invitation_EventID i) Nil then forbidden "Invitation is not linked to an event"
          else _ ← EnsureEventIDAccess user (Invitation_EventID i); mret (user, invitation)
      end
  end.
Definition RequireInvitationCapability (invitationID : uuid) (capability : Capability)
    : M (option User * option Invitation) :=
  '(user, invitation) ← RequireInvitationAccess invitationID;
  i ← deref invitation;
  _ ← RequireEventCapability (Invitation_EventID i) capability;
  mret (user, invitation).

Definition RequireResourceAccess (resourceID : uuid) : M (option User * option Resource) :=
  user ← CurrentUser;
  match GetResourceByID (hooks env) with
  | None => dependencyFailure "GetResourceByID"
  | Some hook =>
      match hook resourceID with
      | Err e => lookupFailure "Resource" e
      | Ok resource =>
          r ← deref resource;
          match Resource_EventSectionID r with
          | None =>
              if IsPlatformAdmin user then mret (user, resource)
              else forbidden "Resource is not linked to an event section"
          | Some sectionID => _ ← EnsureEventSectionAccess user sectionID; mret (user, resource)
          end
      end
  end.
Definition RequireResourceCapability (resourceID : uuid) (capability : Capability)
    : M (option User * option Resource) :=
  '(user, resource) ← RequireResourceAccess resourceID;
  r ← deref resource;
  match Resource_EventSectionID r with
  | None =>
      if IsPrimaryRoot user then mret (user, resource)
      else forbidden "Only the primary platform administrator can mutate platform resources"
  | Some sectionID => _ ← RequireEventSectionCapability sectionID capability; mret (user, resource)
  end.

(** ** authz.go: creation and moves *)

Definition RequireEventClientForCreate (user : option User) (clientID : option uuid) : M unit :=
  match clientID with
  | None => deny StatusBadRequest "client_id required" "Events must belong to a client"
  | Some id => requireClientCapability user id EventCreate scopeEventResource
  end.
Definition RequireEventSectionForCreate (user : option User) (eventID : uuid) : M unit :=
  if N.eqb eventID Nil
  then deny StatusBadRequest "event_id required" "Event sections must belong to an event"
  else _ ← EnsureEventIDAccess user eventID; mret tt.
Definition RequireResourceSectionForCreate (user : option User) (sectionID : option uuid) : M unit :=
  match sectionID with
  | None =>
      if IsPrimaryRoot user then mret tt
      else deny StatusBadRequest "section_id required"
             "Resources created from the dashboard must belong to an event section"
  | Some id => _ ← EnsureEventSectionAccess user id; mret tt
  end.

Definition RequireClientMoveAccess (user : option User) (oldClientID newClientID : option uuid) : M unit :=
  match newClientID with
  | None =>
      match oldClientID with
      | None => mret tt
      | Some _ => deny StatusBadRequest "client_id es obligatorio" "An event cannot be detached from its organization"
      end
  | Some new =>
      if bool_decide (oldClientID = Some new) then mret tt
      else
        _ ← match oldClientID with
            | Some old => RequireClientCapability user old EventManage
            | None => mret tt
            end;
        RequireClientCapability user new EventManage
  end.

(** ** event_authority.go: one capability on many events of an organization *)

Definition finalAuthorityAllows (r : Result error unit) : M bool :=
  match r with
  | Ok _ => mret true
  | Err (EFailure failure) =>
      if Z.ltb (Status failure) StatusInternalServerError then mret false else fail (EFailure failure)
  | Err e => fail e
  end.

Definition all_events (eventIDs : list uuid) (allowed : bool) : gmap uuid bool :=
  foldl (λ result id, <[id := allowed]> result) ∅ eventIDs.

Definition EventCapabilityForOrganizationEvents (user : option User) (orgID : uuid) (eventIDs : list uuid)
    (capability : Capability) : M (gmap uuid bool) :=
  match user with
  | None => mret ∅
  | Some u =>
      boundary ← try (requireTenantClientBoundary user orgID);
      match boundary with
      | Err _ => mret ∅
      | Ok _ =>
          if IsPlatformAdmin user then
            allowed ← (if platformHasCapability user capability then
                         r ← try (enforcePolicyCeiling user capability); finalAuthorityAllows r
                       else mret false);
            mret (all_events eventIDs allowed)
          else
            access ← lookupOrganizationAccess user orgID scopeEventResource;
            allowed ← (if Allowed access && roleHasCapability (Role access) capability then
                         r ← try (finalizeAuthorityDecision user orgID capability access);
                         finalAuthorityAllows r
                       else mret false);
            if negb allowed then mret (all_events eventIDs false)
            else
              roles ← match eventIDs with
                      | [] => mret ∅
                      | _ =>
                          match GetEventMemberRoles (hooks env) with
                          | None => dependencyFailure "GetEventMemberRoles"
                          | Some hook =>
                              match hook eventIDs (ID u) with
                              | Err _ => deny StatusInternalServerError "Authorization error" "event member lookup failed"
                              | Ok roles => mret roles
                              end
                          end
                      end;
              mret (foldl (λ result id,
                      <[id := match roles !! id with
                              | Some role => eventRoleHasCapability role capability
                              | None => true
                              end]> result) ∅ eventIDs)
      end
  end.
End Authz.
