(* ===== verification/AuthzFacts.v ===== *)
(** * Theorems about [Authz]: the role tables, the tenant boundary, the request memo *)
From stdpp Require Import base tactics list strings gmap.
From S2P Require Import Prelude GoStrings GoSort Capabilities Authz.
Open Scope string_scope.

(** ** Inverting a run that returned a value *)

Lemma bind_value {A B} (m : M A) (f : A → M B) s s' b :
  (m ≫= f) s = (s', Value b) ↔ ∃ s1 a, m s = (s1, Value a) ∧ f a s1 = (s', Value b).
Proof.
  unfold mbind, M_bind. destruct (m s) as [s1 [a|e|]]; [|naive_solver..].
  split; [eauto|]. by intros (? & ? & [= -> ->] & ?).
Qed.
Lemma deref_value {A} (o : option A) s s' a : deref o s = (s', Value a) ↔ s' = s ∧ o = Some a.
Proof. unfold deref. destruct o; naive_solver. Qed.

(** Take a hypothesis [m s = (s', Value v)] apart along the binds of [m]. *)
Ltac minv_step :=
  match goal with
  | H : (_ ≫= _) _ = (_, Value _) |- _ => apply bind_value in H as (?s & ?a & ?H & H)
  | H : mret _ _ = (_, Value _) |- _ => injection H as <- <-
  | H : mret _ _ = (_, Value _) |- _ => injection H as ?; subst
  | H : get_state _ = (_, Value _) |- _ => injection H as <- <-
  | H : put_state _ _ = (_, Value _) |- _ => injection H as <- <-
  | H : deref _ _ = (_, Value _) |- _ => apply deref_value in H as [-> ?H]
  | H : deny _ _ _ _ = (_, Value _) |- _ => discriminate H
  | H : forbidden _ _ = (_, Value _) |- _ => discriminate H
  | H : platformLevelDenied _ = (_, Value _) |- _ => discriminate H
  | H : outsideTenant _ = (_, Value _) |- _ => discriminate H
  | H : dependencyFailure _ _ = (_, Value _) |- _ => discriminate H
  | H : organizationLookupFailure _ = (_, Value _) |- _ => discriminate H
  | H : fail _ _ = (_, Value _) |- _ => discriminate H
  | H : lookupFailure _ ?e _ = (_, Value _) |- _ => destruct e; discriminate H
  | H : (let '(_, _) := ?p in _) _ = (_, Value _) |- _ => destruct p eqn:?
  | H : (if ?b then _ else _) _ = (_, Value _) |- _ => destruct b eqn:?
  | H : (match ?x with _ => _ end) _ = (_, Value _) |- _ => destruct x eqn:?
  end; try discriminate; simplify_eq.
Ltac minv := repeat minv_step.

(** ** The role and capability tables *)

Section Tables.
Context `{GoUnicode}.

Lemma RoleHas_elem role capability : RoleHas role capability = true ↔ capability ∈ RoleCapabilities role.
Proof.
  unfold RoleHas. rewrite existsb_exists, list_elem_of_In. setoid_rewrite String.eqb_eq. naive_solver.
Qed.

(** The roles that carry a capability the operational root lacks. *)
Definition privileged_roles : list string := ["OWNER"; "ADMIN"; "EVENT_MANAGER"; "EDITOR"].

Lemma RoleCapabilities_unprivileged role :
  NormalizeRole role ∉ privileged_roles →
  Forall (λ c, c ∈ [View; GuestManage; Checkin; AnalyticsView]) (RoleCapabilities role).
Proof.
  unfold RoleCapabilities. generalize (NormalizeRole role) as code. intros code Hcode.
  unfold privileged_roles in Hcode. rewrite !not_elem_of_cons in Hcode. destruct_and?.
  case_match; [constructor|].
  destruct (String.eqb_spec code "OWNER"), (String.eqb_spec code "ADMIN"); try done. cbn [orb].
  destruct (roleCapabilities !! code) as [known|] eqn:Hk; [|repeat constructor].
  unfold roleCapabilities in Hk. apply elem_of_list_to_map_2 in Hk.
  rewrite !elem_of_cons, elem_of_nil in Hk.
  by repeat (destruct Hk as [[= -> ->]|Hk]; [first [done | repeat constructor]|]).
Qed.
End Tables.

Section Granting.
Context `{GoUnicode}.

Lemma RoleCapabilities_incl_All role c : c ∈ RoleCapabilities role → c ∈ All.
Proof.
  unfold RoleCapabilities. generalize (NormalizeRole role) as code. intros code.
  case_match; [by rewrite elem_of_nil|]. case_match; [done|].
  destruct (roleCapabilities !! code) as [known|] eqn:Hk; [|intros ->%list_elem_of_singleton; constructor].
  unfold roleCapabilities in Hk. apply elem_of_list_to_map_2 in Hk.
  rewrite !elem_of_cons, elem_of_nil in Hk. intros Hc.
  repeat (destruct Hk as [[= -> ->]|Hk];
    [rewrite !elem_of_cons, ?elem_of_nil in Hc; destruct_or?; subst; first [done | repeat constructor]|]). done.
Qed.

Lemma PlatformRootMayGrantRole_spec user role :
  PlatformRootMayGrantRole user role = true ↔
  IsPlatformAdmin user = true ∧
  ∀ c, c ∈ RoleCapabilities role → platformHasCapability user c = true.
Proof.
  unfold PlatformRootMayGrantRole, roleHasCapability. rewrite andb_true_iff, forallb_forall.
  setoid_rewrite <-list_elem_of_In. f_equiv. split; intros Hall c Hc.
  - specialize (Hall c (RoleCapabilities_incl_All _ _ Hc)). apply RoleHas_elem in Hc.
    rewrite Hc in Hall. by destruct (platformHasCapability user c).
  - destruct (RoleHas role c) eqn:Hr; [|done]. apply RoleHas_elem in Hr. by rewrite (Hall c Hr).
Qed.

Lemma privileged_has_event_manage role :
  NormalizeRole role ∈ privileged_roles → EventManage ∈ RoleCapabilities role.
Proof.
  unfold RoleCapabilities, privileged_roles. generalize (NormalizeRole role). intros code Hc.
  rewrite !elem_of_cons, elem_of_nil in Hc.
  repeat (destruct Hc as [->|Hc]; [vm_compute; repeat constructor|]). done.
Qed.

(** [privileged_roles] is exactly what the operational platform root may not hand out. *)
Theorem operational_root_grants user role :
  EffectiveRootLevel user = RootLevelOperational →
  PlatformRootMayGrantRole user role = true ↔ NormalizeRole role ∉ privileged_roles.
Proof.
  intros Hlevel. rewrite PlatformRootMayGrantRole_spec.
  assert (∀ c, platformHasCapability user c =
            existsb (String.eqb c) [View; GuestManage; Checkin; AnalyticsView; MetricsView; MembersManage]) as Hp.
  { intros c. unfold platformHasCapability, IsPrimaryRoot. by rewrite Hlevel. }
  assert (IsPlatformAdmin user = true) as Hadmin by (unfold IsPlatformAdmin; by rewrite Hlevel).
  split.
  - intros [_ Hall] Hr%privileged_has_event_manage%Hall. rewrite Hp in Hr. discriminate.
  - intros Hr. split; [done|]. intros c Hc. rewrite Hp.
    eapply Forall_forall in Hc; [|by apply RoleCapabilities_unprivileged].
    rewrite !elem_of_cons, elem_of_nil in Hc. by destruct_or? Hc; subst.
Qed.
End Granting.

(** ** The tenant boundary *)

Section Boundary.
Context `{GoUnicode} (env : Env).

(** [ancestor get n a b]: [b] is reached from [a] by following [n] parent links through
    organizations that exist and have a non-nil identity. *)
Inductive ancestor (get : uuid → Result LookupError (option Client)) : nat → uuid → uuid → Prop :=
| ancestor_here a : ancestor get 0 a a
| ancestor_up n a c p b :
    a ≠ Nil → get a = Ok (Some c) → Client_ParentID c = Some p → ancestor get n p b →
    ancestor get (S n) a b.

(** An organization whose code is the tenant's, fewer than [depth] links up. *)
Definition inside_tenant get tenant depth a : Prop :=
  ∃ n b c, n < depth ∧ ancestor get n a b ∧ b ≠ Nil ∧ get b = Ok (Some c) ∧
           EqualFold (TrimSpace (Client_Code c)) tenant = true.

Lemma tenantWalk_spec get tenant depth a s :
  (tenantWalk get tenant depth a s).1 = s ∧
  ((tenantWalk get tenant depth a s).2 = Value tt ∧ inside_tenant get tenant depth a ∨
   (tenantWalk get tenant depth a s).2 = (outsideTenant (A:=unit) s).2 ∧ ¬ inside_tenant get tenant depth a).
Proof.
  revert a. induction depth as [|d IH]; intros a; cbn [tenantWalk].
  { split; [done|]. right. split; [done|]. intros (n & ? & ? & ? & _). lia. }
  destruct (N.eqb_spec a Nil) as [->|Ha].
  { split; [done|]. right. split; [done|]. intros (n & b & c & _ & Hanc & Hb & _). by inversion Hanc; subst. }
  destruct (get a) as [[client|]|e] eqn:Hget.
  2,3: split; [done|]; right; split; [done|]; intros (n & b & c & _ & Hanc & Hb & Hg & _); inversion Hanc; congruence.
  destruct (EqualFold (TrimSpace (Client_Code client)) tenant) eqn:Hfold.
  { split; [done|]. left. split; [done|]. exists 0, a, client. repeat split; try done; [lia|constructor]. }
  destruct (Client_ParentID client) as [p|] eqn:Hp.
  - destruct (IH p) as [Hs [[Ho (n & b & c & Hn & Hanc & ?)]|[Ho Hnot]]]; (split; [done|]).
    + left. split; [done|]. exists (S n), b, c. split; [lia|]. split; [|done]. by econstructor.
    + right. split; [done|]. intros (n & b & c & Hn & Hanc & Hb & Hg & Hf). apply Hnot.
      inversion Hanc as [|? ? c0 p0 ? ? Hg0 Hp0 Hanc0]; subst; [congruence|].
      assert (c0 = client) as -> by congruence. assert (p0 = p) as -> by congruence.
      eexists _, b, c. split; [|done]; lia.
  - split; [done|]. right. split; [done|]. intros (n & b & c & _ & Hanc & Hb & Hg & Hf).
    inversion Hanc; congruence.
Qed.

Definition branded (u : User) : Prop :=
  TrimSpace (AuthTenantCode u) ≠ "" ∧ NormalizeOrDefault (AuthTenantCode u) ≠ DefaultCode.

(** C2: The tenant boundary holds exactly when an organization at most 31 parent links
    above the target carries the tenant's code; otherwise it is a 403, never a 500. *)
Theorem tenant_boundary_iff u clientID get s :
  branded u → GetClientByID (hooks env) = Some get →
  (requireTenantClientBoundary env (Some u) clientID s).1 = s ∧
  ((requireTenantClientBoundary env (Some u) clientID s).2 = Value tt ↔
     inside_tenant get (AuthTenantCode u) 32 clientID) ∧
  (¬ inside_tenant get (AuthTenantCode u) 32 clientID →
     ∃ f, (requireTenantClientBoundary env (Some u) clientID s).2 = Failed (EFailure f) ∧
          Status f = StatusForbidden).
Proof.
  intros [Hb1 Hb2] Hget. unfold requireTenantClientBoundary.
  apply String.eqb_neq in Hb1, Hb2. rewrite Hb1, Hb2, Hget. cbn [orb].
  destruct (tenantWalk_spec get (AuthTenantCode u) 32 clientID s) as [-> [[-> Hin]|[-> Hout]]];
    (split; [done|]); split; [naive_solver..| |].
  - split; [discriminate|done].
  - intros _. eexists. split; reflexivity.
Qed.
End Boundary.
