(* ===== verification/AuthzRequest.v ===== *)
(** * The invariant of one request, and what an allowed request implies

    The echo context caches two things: organization lookups (the memo) and the event
    authority.  [request_inv] says both caches hold what a fresh computation would give
    for the caller of the request; every operation keeps it ([keeps]), so an allowed
    request can be traced to the hooks' answers alone ([event_grant], [client_grant]). *)
From stdpp Require Import base tactics list strings gmap.
From Stdlib Require Import Ascii.
From S2P Require Import Prelude GoStrings GoSort Capabilities Authz AuthzFacts.
Open Scope string_scope.

(** The text form of identifiers, hexadecimal digits and dashes: it has no colon, is not
    the word [none], and is injective (documented of [uuid.UUID.String]). *)
Class UuidText (env : Env) : Prop := {
  uuid_String_colon id : all_bytes (λ c, negb (Ascii.eqb c ":")) (uuid_String env id) = true;
  uuid_String_none id : uuid_String env id ≠ "none";
  uuid_String_inj : Inj (=) (=) (uuid_String env);
}.

Section Request.
Context `{GoUnicode} (env : Env).

(** ** What the specifications talk about: answers of the hooks *)

(** The organization lookup answered [a], from any state. *)
Definition organization_answer (userID clientID : uuid) (evaluate : bool) (a : ApplicationAccess) : Prop :=
  ∀ s, freshOrganizationAccess env userID clientID evaluate s = (s, Value a).
Definition inside_boundary (u : User) (clientID : uuid) : Prop :=
  ∀ s, requireTenantClientBoundary env (Some u) clientID s = (s, Value tt).
Definition in_session_application (u : User) (clientID : uuid) : Prop :=
  TrimSpace (SessionApplicationCode u) = "" ∨
  ∃ hook reachable, ReachableClientIDsInApplication (hooks env) = Some hook ∧
    hook (ID u) (TrimSpace (SessionApplicationCode u)) [clientID] = Ok reachable ∧
    reachable !! clientID = Some true.
Definition entitled (a : ApplicationAccess) : Prop :=
  EntitlementMode env = ModeEnforce → Allowed a = true → Entitled a = true.
Definition ceiling_allows (u : User) (capability : Capability) : Prop :=
  PolicyCeilingMode env = ModeEnforce → AuthPolicyRestricted u = true → IsPrimaryRoot (Some u) = false →
  ∀ name, SessionName capability = Some name → PolicyAllows (AuthApplicationCode u) name = true →
  name ∈ AuthPolicyCapabilities u.
Definition event_client_granted (u : User) (eventID clientID : uuid) : Prop :=
  TrimSpace (AuthTenantCode u) = "" ∧
  ∃ hook resolve product,
    HasEventClientGrant (hooks env) = Some hook ∧ hook eventID (ID u) = Ok true ∧
    ResolveClientProduct (hooks env) = Some resolve ∧ resolve clientID = Ok product ∧
    SupportsEventOperations product = true.
(** An event membership, when the caller has one, carries the capability. *)
Definition event_member_allows (u : User) (eventID : uuid) (capability : Capability) : Prop :=
  ∀ hook, GetEventMemberRole (hooks env) = Some hook →
    ∃ r, hook eventID (ID u) = Ok r ∧
         ∀ role, r = Some role → eventRoleHasCapability role capability = true.

Inductive authority_spec (u : User) (ev : Event) (a : eventAuthority) : Prop :=
| spec_platform :
    kind a = authorityPlatform → IsPlatformAdmin (Some u) = true → authority_spec u ev a
| spec_organization clientID :
    kind a = authorityOrganization → IsPlatformAdmin (Some u) = false →
    Event_ClientID ev = Some clientID → inside_boundary u clientID →
    organization_answer (ID u) clientID (evaluateEntitlement env scopeEventResource) (access a) →
    Allowed (access a) = true → authority_spec u ev a
| spec_event_client clientID denied :
    kind a = authorityEventClient → IsPlatformAdmin (Some u) = false →
    Event_ClientID ev = Some clientID → inside_boundary u clientID →
    organization_answer (ID u) clientID (evaluateEntitlement env scopeEventResource) denied →
    Allowed denied = false → event_client_granted u (Event_ID ev) clientID → authority_spec u ev a.

(** The caller of the request that state [s] belongs to, up to the memo pointer. *)
Definition forget (u : User) : User :=
  {| ID := ID u; RootLevel := RootLevel u; IsRoot := IsRoot u; AuthTenantCode := AuthTenantCode u;
     AuthApplicationCode := AuthApplicationCode u; AuthPolicyRestricted := AuthPolicyRestricted u;
     AuthPolicyCapabilities := AuthPolicyCapabilities u; AuthRequestMemo := None;
     SessionApplicationCode := SessionApplicationCode u |}.
Definition caller (s : RequestState) (u : User) : Prop :=
  ∃ s' v, CurrentUser env s = (s', Value (Some v)) ∧ forget v = forget u.

Definition same_inputs (s0 s : RequestState) : Prop :=
  cognito_sub s = cognito_sub s0 ∧ tenant_code s = tenant_code s0 ∧
  application_session s = application_session s0.

Definition memo_sound (s : RequestState) : Prop :=
  ∀ p m userID clientID evaluate a,
    memos s !! p = Some m → memo_entries m !! (userID, clientID, evaluate) = Some a →
    organization_answer userID clientID evaluate a.
Definition authorities_sound (s0 s : RequestState) : Prop :=
  ∀ ev a, event_authorities s !! eventAuthorityContextKey env ev = Some a →
    ∃ u, caller s0 u ∧ authority_spec u ev a.
Definition request_inv (s0 s : RequestState) : Prop :=
  same_inputs s0 s ∧ memo_sound s ∧ authorities_sound s0 s.

(** What the repositories document: a lookup without error returns a row. *)
Record hooks_honest : Prop := {
  honest_event hook id x : GetEventByIDRaw (hooks env) = Some hook → hook id = Ok x → is_Some x;
  honest_section hook id x : GetEventSectionByID (hooks env) = Some hook → hook id = Ok x → is_Some x;
  honest_guest hook id x : GetGuestByID (hooks env) = Some hook → hook id = Ok x → is_Some x;
  honest_resource hook id x : GetResourceByID (hooks env) = Some hook → hook id = Ok x → is_Some x;
}.

(** [keeps s0 m Q]: [m] keeps the invariant, a value it returns satisfies [Q], and with
    honest hooks it does not dereference nil. *)
Definition keeps {A} (s0 : RequestState) (m : M A) (Q : A → Prop) : Prop :=
  ∀ s, request_inv s0 s →
    request_inv s0 (m s).1 ∧ (∀ a, (m s).2 = Value a → Q a) ∧ (hooks_honest → (m s).2 ≠ Panic).

Lemma keeps_ret {A} s0 (a : A) (Q : A → Prop) : Q a → keeps s0 (mret a) Q.
Proof. intros HQ s Hs. split_and!; [done| |done]. by intros ? [= <-]. Qed.
Lemma keeps_bind {A B} s0 (m : M A) (f : A → M B) (P : A → Prop) Q :
  keeps s0 m P → (∀ a, P a → keeps s0 (f a) Q) → keeps s0 (m ≫= f) Q.
Proof.
  intros Hm Hf s Hs. destruct (Hm s Hs) as (Hinv & Hval & Hpanic). unfold mbind, M_bind.
  destruct (m s) as [s1 [a|e|]]; cbn in *; [by apply Hf; [apply Hval|]|split_and!; done|].
  split_and!; [done|done|]. intros Hh. by specialize (Hpanic Hh).
Qed.
Lemma keeps_weaken {A} s0 (m : M A) (P Q : A → Prop) : (∀ a, P a → Q a) → keeps s0 m P → keeps s0 m Q.
Proof. intros HPQ Hm s Hs. destruct (Hm s Hs) as (? & ? & ?). eauto. Qed.
Lemma keeps_deny {A} s0 status message detail (Q : A → Prop) : keeps s0 (deny status message detail) Q.
Proof. intros s Hs. by split_and!. Qed.
Lemma keeps_deref {A} s0 (o : option A) (Q : A → Prop) :
  (∀ a, o = Some a → Q a) → (hooks_honest → is_Some o) → keeps s0 (deref o) Q.
Proof.
  intros HQ Ho s Hs. split_and!; [done|..]; destruct o as [x|]; cbn; try done.
  - intros a [= <-]. by apply HQ.
  - intros Hh. destruct (Ho Hh) as [? ?]. done.
Qed.
Lemma keeps_deref_Some {A} s0 (a : A) : keeps s0 (deref (Some a)) (λ v, v = a).
Proof. apply keeps_deref; [|done]. by intros ? [= ->]. Qed.

(** ** Lookups leave the state alone and do not read it *)

Definition stateless {A} (m : M A) : Prop := ∃ o, o ≠ Panic ∧ ∀ s, m s = (s, o).
Lemma stateless_ret {A} (a : A) : stateless (mret a). Proof. eexists. by split; [|intros s; reflexivity]. Qed.
Lemma stateless_deny {A} x y z : stateless (deny (A:=A) x y z). Proof. eexists. by split; [|intros s; reflexivity]. Qed.
Lemma stateless_deref {A} (a : A) : stateless (deref (Some a)). Proof. eexists. by split; [|intros s; reflexivity]. Qed.
Lemma stateless_lookupFailure {A} k e : stateless (lookupFailure (A:=A) k e).
Proof. destruct e; eexists; by split; [|intros s; reflexivity]. Qed.
Lemma stateless_bind {A B} (m : M A) (f : A → M B) :
  stateless m → (∀ a, stateless (f a)) → stateless (m ≫= f).
Proof.
  intros (o & Hp & Ho) Hf. unfold mbind, M_bind. destruct o as [a|e|]; [..|done].
  - destruct (Hf a) as (o' & Hp' & Ho'). exists o'. split; [done|]. intros s. by rewrite Ho, Ho'.
  - exists (Failed e). split; [done|]. intros s. by rewrite Ho.
Qed.

Ltac solve_stateless :=
  repeat first
    [ apply stateless_ret | apply stateless_deny | apply stateless_deref | apply stateless_lookupFailure
    | apply stateless_bind; [|intros ?] | case_match ].

Lemma fresh_stateless userID clientID e : stateless (freshOrganizationAccess env userID clientID e).
Proof. unfold freshOrganizationAccess, checkAccessRecursive. solve_stateless. Qed.
Lemma tenantWalk_stateless get tenant n id : stateless (tenantWalk get tenant n id).
Proof. revert id. induction n as [|n IH]; intros id; cbn; solve_stateless; apply IH. Qed.
Lemma boundary_stateless user clientID : stateless (requireTenantClientBoundary env user clientID).
Proof. unfold requireTenantClientBoundary. solve_stateless. apply tenantWalk_stateless. Qed.
Lemma reach_stateless u clientID : stateless (requireSessionApplicationReach env (Some u) clientID).
Proof. unfold requireSessionApplicationReach. solve_stateless. Qed.
Lemma grant_stateless u eventID clientID : stateless (eventClientGrantApplies env (Some u) eventID clientID).
Proof. unfold eventClientGrantApplies. solve_stateless. Qed.
Lemma lookupEventByID_stateless eventID : stateless (lookupEventByID env eventID).
Proof. unfold lookupEventByID. solve_stateless. Qed.
Lemma member_stateless u eventID c : stateless (requireEventMemberRole env (Some u) eventID c).
Proof. unfold requireEventMemberRole. solve_stateless. Qed.

(** A stateless computation keeps the invariant; its value is its value everywhere. *)
Lemma keeps_stateless {A} s0 (m : M A) : stateless m → keeps s0 m (λ a, ∀ s, m s = (s, Value a)).
Proof.
  intros (o & Hp & Ho) s Hs. rewrite Ho. split_and!; [done| |done]. cbn. intros a -> s'. apply Ho.
Qed.
Lemma keeps_state {A} s0 (f : RequestState → M A) Q :
  (∀ s, request_inv s0 s →
     request_inv s0 (f s s).1 ∧ (∀ a, (f s s).2 = Value a → Q a) ∧ (hooks_honest → (f s s).2 ≠ Panic)) →
  keeps s0 (get_state ≫= f) Q.
Proof. intros Hf s Hs. by apply Hf. Qed.

(** ** The shadow log is outside the invariant *)

Lemma reportShadowDenial_keeps s0 user chk clientID capability reason :
  keeps s0 (reportShadowDenial env user chk clientID capability reason) (λ _, True).
Proof.
  intros s Hs. unfold reportShadowDenial, mbind, M_bind, get_state.
  repeat case_match; split_and!; done || exact Hs.
Qed.

Lemma enforceProductEntitlement_keeps s0 user clientID capability a :
  keeps s0 (enforceProductEntitlement env user clientID capability a) (λ _, entitled a).
Proof.
  unfold enforceProductEntitlement, entitled.
  destruct (Allowed a) eqn:Ha; cbn; [|apply keeps_ret; congruence].
  destruct (Entitled a) eqn:He; [by apply keeps_ret|].
  destruct (String.eqb_spec (EntitlementMode env) ModeShadow) as [Hs|Hs].
  - eapply keeps_weaken; [|apply reportShadowDenial_keeps]. intros _ _. rewrite Hs. discriminate.
  - destruct (String.eqb_spec (EntitlementMode env) ModeEnforce) as [He'|He']; [apply keeps_deny|].
    by apply keeps_ret.
Qed.

Lemma enforcePolicyCeiling_keeps s0 u capability :
  keeps s0 (enforcePolicyCeiling env (Some u) capability) (λ _, ceiling_allows u capability).
Proof.
  unfold enforcePolicyCeiling, ceiling_allows.
  destruct (String.eqb_spec (PolicyCeilingMode env) ModeOff) as [Hm|Hm]; cbn.
  { apply keeps_ret. rewrite Hm. discriminate. }
  destruct (AuthPolicyRestricted u) eqn:Hr; cbn; [|by apply keeps_ret].
  destruct (IsPrimaryRoot (Some u)) eqn:Hp; [by apply keeps_ret|].
  destruct (SessionName capability) as [name|] eqn:Hn; [|by apply keeps_ret].
  destruct (PolicyAllows (AuthApplicationCode u) name) eqn:Hal; cbn; [|apply keeps_ret; intros _ _ _ n [= <-]; congruence].
  destruct (bool_decide_reflect (name ∈ AuthPolicyCapabilities u)) as [Hin|Hin].
  { apply keeps_ret. intros _ _ _ n [= ->]. done. }
  destruct (String.eqb_spec (PolicyCeilingMode env) ModeShadow) as [Hs|Hs]; [|apply keeps_deny].
  eapply keeps_weaken; [|apply reportShadowDenial_keeps]. intros _ _. rewrite Hs. discriminate.
Qed.

Lemma finalize_keeps s0 u clientID capability a :
  keeps s0 (finalizeAuthorityDecision env (Some u) clientID capability a)
    (λ _, entitled a ∧ ceiling_allows u capability).
Proof.
  unfold finalizeAuthorityDecision. eapply keeps_bind; [apply enforceProductEntitlement_keeps|].
  intros ? He. eapply keeps_weaken; [|apply enforcePolicyCeiling_keeps]. by split.
Qed.

(** ** The caches *)

Lemma lookupOrganizationAccess_keeps s0 u clientID scope :
  keeps s0 (lookupOrganizationAccess env (Some u) clientID scope)
    (organization_answer (ID u) clientID (evaluateEntitlement env scope)).
Proof.
  unfold lookupOrganizationAccess. eapply keeps_bind; [apply keeps_deref_Some|].
  intros _ ->. apply keeps_state. intros s Hs. set (e := evaluateEntitlement env scope).
  destruct (memo_lookup (memoOf (Some u)) (ID u, clientID, e) s) as [cached|] eqn:Hc.
  { split_and!; [done| |done]. intros a [= <-]. unfold memo_lookup in Hc. cbn in Hc.
    destruct (AuthRequestMemo u) as [p|]; cbn in Hc; [|done].
    destruct (memos s !! p) as [m|] eqn:Hm; cbn in Hc; [|done].
    destruct Hs as (_ & Hms & _). by eapply Hms. }
  revert s Hs Hc. intros s Hs _. revert s Hs.
  change (keeps s0 (access ← freshOrganizationAccess env (ID u) clientID e;
    s' ← get_state; _ ← put_state (memo_store (memoOf (Some u)) (ID u, clientID, e) access s'); mret access)
    (organization_answer (ID u) clientID e)).
  eapply keeps_bind; [apply keeps_stateless, fresh_stateless|]. intros a Ha.
  apply keeps_state. intros s (Hin & Hms & Hau). split_and!; [|by intros ? [= <-]|done].
  unfold mbind, M_bind, put_state; cbn. unfold memo_store; cbn.
  destruct (AuthRequestMemo u) as [p|]; [|done]. split_and!; [exact Hin| |exact Hau].
  intros p' m userID cl ev b. cbn. intros Hm Hb.
  destruct (decide (p' = p)) as [->|Hne]; [|rewrite list_lookup_alter_ne in Hm by done; by eapply Hms].
  rewrite list_lookup_alter_eq in Hm. destruct (memos s !! p) as [m0|] eqn:Hm0; [|done].
  injection Hm as <-. cbn in Hb. apply lookup_insert_Some in Hb as [[Hk <-]|[_ Hb]].
  - injection Hk as <- <- <-. exact Ha.
  - by eapply Hms.
Qed.

Lemma forget_fields u v :
  forget u = forget v →
  ID u = ID v ∧ RootLevel u = RootLevel v ∧ IsRoot u = IsRoot v ∧ AuthTenantCode u = AuthTenantCode v.
Proof. intros Hf. injection Hf. auto. Qed.

Lemma authority_spec_forget u v ev a : forget u = forget v → authority_spec u ev a → authority_spec v ev a.
Proof.
  intros Hf Ha. destruct (forget_fields u v Hf) as (Hid & Hl & Hr & Ht).
  assert (IsPlatformAdmin (Some u) = IsPlatformAdmin (Some v)) as Hadm.
  { unfold IsPlatformAdmin, EffectiveRootLevel. by rewrite Hl, Hr. }
  assert (∀ c, inside_boundary u c → inside_boundary v c) as Hb.
  { intros c Hc s. rewrite <-(Hc s). unfold requireTenantClientBoundary. by rewrite Ht. }
  destruct Ha; [eapply spec_platform|eapply spec_organization|eapply spec_event_client]; eauto; try congruence.
  unfold event_client_granted in *. by rewrite <-Hid, <-Ht.
Qed.

Lemma resolveEventAuthority_keeps s0 user event :
  keeps s0 (resolveEventAuthority env user event)
    (λ a, ∃ u ev, user = Some u ∧ event = Some ev ∧ authority_spec u ev a).
Proof.
  unfold resolveEventAuthority. destruct user as [u|]; [|apply keeps_deny].
  destruct event as [ev|]; [|apply keeps_deny].
  destruct (IsPlatformAdmin (Some u)) eqn:Hadm.
  { apply keeps_ret. exists u, ev. split_and!; [done..|]. by constructor 1. }
  destruct (Event_ClientID ev) as [c|] eqn:Hc; [|apply keeps_deny].
  eapply keeps_bind; [apply keeps_stateless, boundary_stateless|]. intros [] Hb.
  eapply keeps_bind; [apply lookupOrganizationAccess_keeps|]. intros acc Hacc.
  destruct (Allowed acc) eqn:Hal.
  { apply keeps_ret. exists u, ev. split_and!; [done..|]. by econstructor 2. }
  eapply keeps_bind; [apply keeps_stateless, grant_stateless|]. intros granted Hg.
  destruct granted; [|apply keeps_deny]. apply keeps_ret. exists u, ev. split_and!; [done..|].
  econstructor 3; eauto. clear Hb Hacc. specialize (Hg s0). unfold eventClientGrantApplies in Hg. minv.
  unfold event_client_granted. apply negb_false_iff, String.eqb_eq in Heqb.
  split; [done|]. by eauto 10.
Qed.

(** ** The caller *)

(** The user [CurrentUser] stamps, as a function of the request inputs. *)
Definition application_of (s : RequestState) : string * (gset string * bool) :=
  let tenant := ToLower (TrimSpace (default "" (tenant_code s))) in
  match application_session s with
  | Some source =>
      let code := ToLower (TrimSpace (ApplicationCode source)) in
      (if String.eqb code "" then tenant else code, PolicyCeiling source)
  | None => (tenant, (∅, false))
  end.

Lemma stamp_run u s :
  ∃ p ms, stampRequestAuthorization u s =
    (if context_memo s then s else set_context_memo p ms s,
     Value {| ID := ID u; RootLevel := RootLevel u; IsRoot := IsRoot u; AuthTenantCode := AuthTenantCode u;
              AuthApplicationCode := (application_of s).1;
              AuthPolicyRestricted := (application_of s).2.2;
              AuthPolicyCapabilities := (application_of s).2.1;
              AuthRequestMemo := Some p; SessionApplicationCode := SessionApplicationCode u |}) ∧
    (context_memo s = None → ∃ m, ms = (memos s ++ [m])%list ∧ memo_entries m = ∅).
Proof.
  unfold stampRequestAuthorization, application_of, mbind, M_bind, get_state, put_state, mret, M_ret.
  destruct (application_session s) as [src|]; [destruct (PolicyCeiling src) as [names restricted]|];
    destruct (context_memo s) as [p|] eqn:Hp.
  all: first [exists p, (memos s); by split | do 2 eexists; split; [reflexivity|intros _; eexists; split; [done|done]]].
Qed.

Lemma scopeUserToTenant_run user s s' v :
  scopeUserToTenant user s = (s', Value v) →
  ∀ s2, same_inputs s s2 →
    ∃ s2' v2, scopeUserToTenant user s2 = (s2', Value v2) ∧ forget <$> v2 = forget <$> v.
Proof.
  intros Hrun s2 (Hsub & Htc & Happ). unfold scopeUserToTenant in *. destruct user as [u|].
  2:{ injection Hrun as _ <-. by exists s2, None. }
  unfold mbind, M_bind, get_state in *. rewrite Htc.
  match type of Hrun with context [stampRequestAuthorization ?w _] => set (scoped := w) in * end.
  destruct (stamp_run scoped s) as (p & ms & Heq & _). rewrite Heq in Hrun. injection Hrun as _ <-.
  destruct (stamp_run scoped s2) as (p2 & ms2 & Heq2 & _). rewrite Heq2. do 2 eexists. split; [reflexivity|].
  cbn. unfold application_of. by rewrite Htc, Happ.
Qed.

Lemma CurrentUser_caller s0 s s' user :
  same_inputs s0 s → CurrentUser env s = (s', Value user) →
  (∀ u, user = Some u → caller s0 u) ∧ (∀ u, caller s0 u → ∃ v, user = Some v ∧ forget v = forget u).
Proof.
  intros Hin Hrun.
  assert (∃ s1 v, CurrentUser env s0 = (s1, Value v) ∧ forget <$> v = forget <$> user) as (s1 & v & Hrun0 & Hf).
  { unfold CurrentUser, cognitoSubFromContext, mbind, M_bind, get_state in *.
    pose proof Hin as (Hsub & _ & _). rewrite Hsub in Hrun.
    destruct (cognito_sub s0) as [sub|]; [|done]. destruct (String.eqb sub ""); [done|]. cbn in *.
    unfold currentUserByCognitoSub in *. destruct (SyncUser (hooks env)) as [sync|]; [|done].
    destruct (sync sub) as [usr|]; [|done]. cbn in *.
    eapply scopeUserToTenant_run; [exact Hrun|]. destruct Hin as (? & ? & ?). by split_and!. }
  split.
  - intros u ->. destruct v as [v|]; [|done]. apply (inj Some) in Hf. by exists s1, v.
  - intros u (s2 & w & Hw & Hwu). rewrite Hrun0 in Hw. injection Hw as -> ->.
    destruct user as [x|]; [|done]. apply (inj Some) in Hf. exists x. by rewrite <-Hf.
Qed.

Lemma set_context_memo_inv s0 s p m :
  request_inv s0 s → memo_entries m = ∅ → request_inv s0 (set_context_memo p (memos s ++ [m]) s).
Proof.
  intros (Hin & Hms & Hau) Hm. split_and!; [exact Hin| |exact Hau].
  intros p' m' userID c e a. cbn. rewrite lookup_app_Some. intros [Hl|[_ Hl]] Ha; [by eapply Hms|].
  apply list_lookup_singleton_Some in Hl as [_ ->]. by rewrite Hm in Ha.
Qed.

Lemma stamp_keeps s0 u : keeps s0 (stampRequestAuthorization u) (λ _, True).
Proof.
  intros s Hs. destruct (stamp_run u s) as (p & ms & -> & Hms). split_and!; [|done..]. cbn.
  destruct (context_memo s); [done|]. destruct (Hms eq_refl) as (m & -> & Hm). by apply set_context_memo_inv.
Qed.

Lemma CurrentUser_keeps s0 :
  keeps s0 (CurrentUser env)
    (λ user, (∀ u, user = Some u → caller s0 u) ∧ (∀ u, caller s0 u → ∃ v, user = Some v ∧ forget v = forget u)).
Proof.
  assert (keeps s0 (CurrentUser env) (λ _, True)) as Hk.
  - unfold CurrentUser, cognitoSubFromContext. eapply (keeps_bind _ _ _ (λ _, True)).
    { apply keeps_state. intros s Hs. repeat case_match; by split_and!. }
    intros sub _. eapply (keeps_bind _ _ _ (λ _, True)).
    { eapply keeps_weaken; [|apply keeps_stateless]; [done|]. unfold currentUserByCognitoSub. solve_stateless. }
    intros [u|] _; [|by apply keeps_ret]. unfold scopeUserToTenant. apply keeps_state. intros s Hs.
    revert s Hs. intros s. match goal with |- context [stampRequestAuthorization ?w] => generalize w end. intros w.
    revert s. change (keeps s0 (stamped ← stampRequestAuthorization w; mret (Some stamped)) (λ _, True)).
    eapply keeps_bind; [apply stamp_keeps|]. intros ? _. by apply keeps_ret.
  - intros s Hs. destruct (Hk s Hs) as (Hi & _ & Hp). split_and!; [done| |done].
    intros user Hv. destruct (CurrentUser env s) as [s' o] eqn:Hrun. cbn in Hv. subst.
    destruct Hs as [Hin _]. by eapply CurrentUser_caller.
Qed.

(** ** Event authority and event capabilities *)

Context `{!UuidText env}.

Lemma append_inj_colon (a b c d : string) :
  all_bytes (λ x, negb (Ascii.eqb x ":")) a = true → all_bytes (λ x, negb (Ascii.eqb x ":")) b = true →
  a +:+ ":" +:+ c = b +:+ ":" +:+ d → a = b ∧ c = d.
Proof.
  assert (∀ x l t, all_bytes (λ x, negb (Ascii.eqb x ":")) (String x l) = true →
    String x (l +:+ t) ≠ String ":" c ∧ String x (l +:+ t) ≠ String ":" d) as Hne.
  { intros x l t Hx. by split; intros [= -> _]. }
  revert b. induction a as [|x a IH]; intros [|y b] Ha Hb Heq.
  - injection Heq as Heq. by split.
  - symmetry in Heq. by apply Hne in Heq.
  - by apply Hne in Heq.
  - injection Heq as -> Heq. apply andb_true_iff in Ha as [_ Ha], Hb as [_ Hb].
    by destruct (IH b Ha Hb Heq) as [-> ->].
Qed.

Lemma eventAuthorityContextKey_inj ev ev' :
  eventAuthorityContextKey env ev = eventAuthorityContextKey env ev' → ev = ev'.
Proof.
  unfold eventAuthorityContextKey. intros Heq. apply (inj (String.append _)) in Heq.
  apply append_inj_colon in Heq as [Hid Heq]; [|apply uuid_String_colon..].
  apply uuid_String_inj in Hid.
  destruct ev as [id [c|]], ev' as [id' [c'|]]; cbn in *; subst; try done.
  - apply uuid_String_inj in Heq. by subst.
  - by apply uuid_String_none in Heq.
  - symmetry in Heq. by apply uuid_String_none in Heq.
Qed.

Lemma memoizedEventAuthority_keeps s0 user event :
  (∀ u, user = Some u → caller s0 u) →
  (∀ u, caller s0 u → ∃ v, user = Some v ∧ forget v = forget u) →
  (hooks_honest → is_Some event) →
  keeps s0 (memoizedEventAuthority env user event)
    (λ a, ∃ u ev, user = Some u ∧ event = Some ev ∧ caller s0 u ∧ authority_spec u ev a).
Proof.
  intros Hc1 Hc2 Hsome. unfold memoizedEventAuthority.
  destruct event as [ev|]; [|by eapply keeps_bind; [apply (keeps_deref _ _ (λ _, False))|]].
  eapply keeps_bind; [apply keeps_deref_Some|]. intros _ ->.
  apply keeps_state. intros s Hs.
  destruct (event_authorities s !! eventAuthorityContextKey env ev) as [cached|] eqn:Hcache.
  { split_and!; [done| |done]. intros a [= <-]. destruct Hs as (_ & _ & Hau).
    destruct (Hau _ _ Hcache) as (u & Hu & Hspec). destruct (Hc2 u Hu) as (v & -> & Hf).
    exists v, ev. split_and!; [done..|by apply Hc1|]. by eapply authority_spec_forget. }
  clear Hcache. revert s Hs.
  change (keeps s0 (authority ← resolveEventAuthority env user (Some ev); s' ← get_state;
    _ ← put_state (set_event_authorities
           (<[eventAuthorityContextKey env ev := authority]> (event_authorities s')) s'); mret authority)
    (λ a, ∃ u e, user = Some u ∧ Some ev = Some e ∧ caller s0 u ∧ authority_spec u e a)).
  eapply keeps_bind; [apply resolveEventAuthority_keeps|].
  intros a (u & e & -> & [= <-] & Hspec). specialize (Hc1 u eq_refl).
  apply keeps_state. intros s (Hin & Hms & Hau). split_and!; [|intros ? [= <-]; by eauto 10|done].
  split_and!; [exact Hin|exact Hms|]. unfold mbind, M_bind, put_state. intros e b. cbn. rewrite lookup_insert_Some.
  intros [[Hk <-]|[_ Hb]]; [|by apply Hau]. apply eventAuthorityContextKey_inj in Hk as <-. eauto.
Qed.

Definition event_answer (eventID : uuid) (ev : Event) : Prop :=
  ∃ hook, GetEventByIDRaw (hooks env) = Some hook ∧ hook eventID = Ok (Some ev).

Lemma lookupEventByID_keeps s0 eventID :
  keeps s0 (lookupEventByID env eventID)
    (λ event, (∀ ev, event = Some ev → event_answer eventID ev) ∧ (hooks_honest → is_Some event)).
Proof.
  eapply keeps_weaken; [|apply keeps_stateless, lookupEventByID_stateless].
  intros event Hrun. specialize (Hrun s0). unfold lookupEventByID in Hrun. minv. split.
  - intros ev ->. unfold event_answer. eauto.
  - intros Hh. by eapply honest_event.
Qed.

Lemma authorizeEventView_keeps s0 user event a :
  keeps s0 (authorizeEventView env user event a)
    (λ _, kind a = authorityOrganization → ∀ c, event ≫= Event_ClientID = Some c → entitled (access a)).
Proof.
  unfold authorizeEventView. destruct (event ≫= Event_ClientID) as [c|]; [|by apply keeps_ret].
  destruct (bool_decide_reflect (kind a = authorityOrganization)); cbn; [|by apply keeps_ret].
  eapply keeps_weaken; [|apply enforceProductEntitlement_keeps]. auto.
Qed.

Definition viewable (s0 : RequestState) (eventID : uuid) (r : option User * option Event) : Prop :=
  ∃ u ev a, r = (Some u, Some ev) ∧ caller s0 u ∧ event_answer eventID ev ∧ authority_spec u ev a ∧
    (kind a = authorityOrganization → entitled (access a)).

Lemma keeps_ext {A} s0 (m m' : M A) Q : (∀ s, m s = m' s) → keeps s0 m' Q → keeps s0 m Q.
Proof. intros Hext Hm s Hs. rewrite Hext. by apply Hm. Qed.

(** Loading the user and the event is [CurrentUser] followed by the event lookup. *)
Lemma load_inputs_CurrentUser {B} (m : M (option Event)) (k : option User * option Event → M B) s :
  (cognitoSub ← cognitoSubFromContext;
   r ← loadEventAccessInputs (loaded ← currentUserByCognitoSub env cognitoSub; scopeUserToTenant loaded) m;
   k r) s = (user ← CurrentUser env; event ← m; k (user, event)) s.
Proof.
  unfold loadEventAccessInputs, CurrentUser, mbind, M_bind.
  destruct (cognitoSubFromContext s) as [s1 [sub|e|]]; [|done..].
  destruct (currentUserByCognitoSub env sub s1) as [s2 [loaded|e|]]; [|done..].
  destruct (scopeUserToTenant loaded s2) as [s3 [user|e|]]; [|done..].
  by destruct (m s3) as [s4 [event|e|]].
Qed.

Lemma RequireEventAccess_keeps s0 eventID :
  keeps s0 (RequireEventAccess env eventID)
    (λ r, viewable s0 eventID r ∧ ∀ u, caller s0 u → ∃ v, r.1 = Some v ∧ forget v = forget u).
Proof.
  unfold RequireEventAccess. apply keeps_state. intros s Hs. case_match; [by split_and!|]. clear H0. revert s Hs.
  eapply keeps_ext; [intros s; apply (load_inputs_CurrentUser (lookupEventByID env eventID))|].
  eapply keeps_bind; [apply CurrentUser_keeps|]. intros user [Hc1 Hc2].
  eapply keeps_bind; [apply lookupEventByID_keeps|]. intros event [Hev Hsome].
  eapply keeps_bind; [by apply memoizedEventAuthority_keeps|]. intros a (u & ev & -> & -> & Hcu & Hspec).
  eapply keeps_bind; [apply authorizeEventView_keeps|]. intros [] Hvw.
  eapply keeps_bind; [apply keeps_deref_Some|]. intros _ ->.
  eapply (keeps_bind _ _ _ (λ _, True)).
  { destruct (Event_ClientID ev) as [c|]; [|by apply keeps_ret].
    apply keeps_state. intros s Hs. by split_and!. }
  intros _ _. apply keeps_ret. split; [|done]. exists u, ev, a. split_and!; [done|done|by apply Hev|done|].
  intros Hk. destruct Hspec; [congruence| |congruence]. by eapply Hvw.
Qed.

(** Why a caller may use [capability] on an event: one of three authorities, in the fixed
    precedence; each must also pass the policy ceiling. *)
Inductive event_grant (eventID : uuid) (u : User) (ev : Event) (capability : Capability) : Prop :=
| grant_platform :
    IsPlatformAdmin (Some u) = true → platformHasCapability (Some u) capability = true →
    ceiling_allows u capability → event_grant eventID u ev capability
| grant_organization clientID a :
    IsPlatformAdmin (Some u) = false → Event_ClientID ev = Some clientID → inside_boundary u clientID →
    organization_answer (ID u) clientID (evaluateEntitlement env scopeEventResource) a →
    Allowed a = true → roleHasCapability (Role a) capability = true →
    entitled a → ceiling_allows u capability → event_member_allows u eventID capability →
    event_grant eventID u ev capability
| grant_event_client clientID denied :
    IsPlatformAdmin (Some u) = false → Event_ClientID ev = Some clientID → inside_boundary u clientID →
    organization_answer (ID u) clientID (evaluateEntitlement env scopeEventResource) denied →
    Allowed denied = false → event_client_granted u (Event_ID ev) clientID →
    eventClientHasCapability capability = true → ceiling_allows u capability →
    event_grant eventID u ev capability.

Definition usable (s0 : RequestState) (eventID : uuid) (capability : Capability)
    (r : option User * option Event) : Prop :=
  ∃ u ev, r = (Some u, Some ev) ∧ caller s0 u ∧ event_answer eventID ev ∧ event_grant eventID u ev capability.

Lemma member_keeps s0 u eventID capability :
  keeps s0 (requireEventMemberRole env (Some u) eventID capability) (λ _, event_member_allows u eventID capability).
Proof.
  eapply keeps_weaken; [|apply keeps_stateless, member_stateless]. intros [] Hrun hook Hhook.
  specialize (Hrun s0). unfold requireEventMemberRole in Hrun. rewrite Hhook in Hrun.
  unfold mbind, M_bind, deref in Hrun. cbn in Hrun.
  destruct (hook eventID (ID u)) as [r|e]; [|discriminate]. exists r. split; [done|]. intros role ->.
  destruct (eventRoleHasCapability role capability); [done|discriminate].
Qed.

Lemma RequireEventCapability_keeps s0 eventID capability :
  keeps s0 (RequireEventCapability env eventID capability) (usable s0 eventID capability).
Proof.
  unfold RequireEventCapability. eapply keeps_bind; [apply RequireEventAccess_keeps|].
  intros r [(u & ev & b & -> & Hcu & Hev & _) Hc]. cbn in Hc.
  eapply keeps_bind; [by apply memoizedEventAuthority_keeps; [intros ? [= ->]|..]|].
  intros a (u' & ev' & [= <-] & [= <-] & _ & Hspec).
  eapply keeps_bind; [apply keeps_deref_Some|]. intros _ ->.
  destruct Hspec as [Hk Hadm|c Hk Hadm Hc' Hin Hans Hal|c d Hk Hadm Hc' Hin Hans Hal Hg]; rewrite Hk.
  - destruct (platformHasCapability (Some u) capability) eqn:Hp; [|apply keeps_deny].
    eapply keeps_bind; [apply enforcePolicyCeiling_keeps|]. intros ? Hceil. apply keeps_ret.
    exists u, ev. split_and!; [done..|]. by constructor 1.
  - rewrite Hc'. destruct (roleHasCapability (Role (access a)) capability) eqn:Hr; cbn; [|apply keeps_deny].
    eapply keeps_bind; [apply finalize_keeps|]. intros ? [Hent Hceil].
    eapply keeps_bind; [apply member_keeps|]. intros ? Hm. apply keeps_ret.
    exists u, ev. split_and!; [done..|]. by econstructor 2.
  - destruct (eventClientHasCapability capability) eqn:Hcap; [|apply keeps_deny]. rewrite Hc'.
    eapply keeps_bind; [apply keeps_deref_Some|]. intros _ ->.
    eapply keeps_bind; [apply finalize_keeps|]. intros ? [_ Hceil]. apply keeps_ret.
    exists u, ev. split_and!; [done..|]. by econstructor 3.
Qed.

(** Why a caller may use [capability] on an organization. *)
Inductive client_grant (u : User) (clientID : uuid) (capability : Capability) (scope : accessScope) : Prop :=
| client_grant_platform :
    inside_boundary u clientID → IsPlatformAdmin (Some u) = true →
    platformHasCapability (Some u) capability = true → ceiling_allows u capability →
    client_grant u clientID capability scope
| client_grant_member a :
    inside_boundary u clientID → IsPlatformAdmin (Some u) = false →
    organization_answer (ID u) clientID (evaluateEntitlement env scope) a → Allowed a = true →
    roleHasCapability (Role a) capability = true → in_session_application u clientID →
    entitled a → ceiling_allows u capability → client_grant u clientID capability scope.

Lemma reach_keeps s0 u clientID :
  keeps s0 (requireSessionApplicationReach env (Some u) clientID) (λ _, in_session_application u clientID).
Proof.
  eapply keeps_weaken; [|apply keeps_stateless, reach_stateless]. intros [] Hrun. specialize (Hrun s0).
  unfold requireSessionApplicationReach, mbind, M_bind, deref in Hrun. cbn in Hrun. unfold in_session_application.
  destruct (String.eqb_spec (TrimSpace (SessionApplicationCode u)) "") as [He|He]; [by left|]. right.
  destruct (ReachableClientIDsInApplication (hooks env)) as [hook|]; [|done].
  destruct (hook (ID u) (TrimSpace (SessionApplicationCode u)) [clientID]) as [reachable|] eqn:Hh; [|done].
  exists hook, reachable. split_and!; [done..|]. by destruct (reachable !! clientID) as [[]|].
Qed.

Lemma requireClientCapability_keeps s0 u clientID capability scope :
  keeps s0 (requireClientCapability env (Some u) clientID capability scope)
    (λ _, client_grant u clientID capability scope).
Proof.
  unfold requireClientCapability. eapply keeps_bind; [apply keeps_stateless, boundary_stateless|]. intros [] Hb.
  destruct (IsPlatformAdmin (Some u)) eqn:Hadm.
  { destruct (platformHasCapability (Some u) capability) eqn:Hp; [|apply keeps_deny].
    eapply keeps_weaken; [|apply enforcePolicyCeiling_keeps]. intros ? Hc. by constructor 1. }
  eapply keeps_bind; [apply lookupOrganizationAccess_keeps|]. intros a Ha.
  destruct (Allowed a) eqn:Hal; cbn; [|apply keeps_deny].
  destruct (roleHasCapability (Role a) capability) eqn:Hr; cbn; [|apply keeps_deny].
  eapply keeps_bind; [apply reach_keeps|]. intros ? Hreach.
  eapply keeps_weaken; [|apply finalize_keeps]. intros ? [Hent Hceil]. by econstructor 2.
Qed.
End Request.

Create HintDb keeps.
#[export] Hint Resolve keeps_deny keeps_ret : keeps.
