(* ===== verification/AuthzShadow.v ===== *)
(** * Shadow mode changes nothing but the log

    [sim m1 m2]: from states that differ at most in the shadow log, [m1] and [m2] end with
    the same outcome in states that differ at most in the shadow log.  Running the policy
    ceiling in shadow mode is [sim] to running with the ceiling off. *)
From stdpp Require Import base tactics list strings gmap.
From S2P Require Import Prelude GoStrings GoSort Capabilities Authz AuthzFacts AuthzRequest.
Open Scope string_scope.

Definition no_log : shadowDeduper := {| ttl := 0; max_entries := 0; seen := ∅ |}.
Definition erase (s : RequestState) : RequestState := set_shadow no_log [] s.

Definition sim {A} (m1 m2 : M A) : Prop :=
  ∀ s1 s2, erase s1 = erase s2 → (m1 s1).2 = (m2 s2).2 ∧ erase (m1 s1).1 = erase (m2 s2).1.

Lemma sim_ret {A} (a : A) : sim (mret a) (mret a).
Proof. by intros s1 s2 Hs. Qed.
Lemma sim_deny {A} x y z : sim (deny (A:=A) x y z) (deny x y z).
Proof. by intros s1 s2 Hs. Qed.
Lemma sim_deref {A} (o : option A) : sim (deref o) (deref o).
Proof. by intros s1 s2 Hs. Qed.
Lemma sim_lookupFailure {A} k e : sim (lookupFailure (A:=A) k e) (lookupFailure k e).
Proof. destruct e; apply sim_deny. Qed.
Lemma sim_bind {A B} (m1 m2 : M A) (f1 f2 : A → M B) :
  sim m1 m2 → (∀ a, sim (f1 a) (f2 a)) → sim (m1 ≫= f1) (m2 ≫= f2).
Proof.
  intros Hm Hf s1 s2 Hs. unfold mbind, M_bind. destruct (Hm s1 s2 Hs) as [Ho He].
  destruct (m1 s1) as [t1 o1], (m2 s2) as [t2 o2]; cbn in *. subst o2.
  destruct o1; [by apply Hf|done..].
Qed.
(** Reading the state through functions the log does not feed. *)
Lemma sim_get {A} (f1 f2 : RequestState → M A) :
  (∀ s1 s2, erase s1 = erase s2 → (f1 s1 s1).2 = (f2 s2 s2).2 ∧ erase (f1 s1 s1).1 = erase (f2 s2 s2).1) →
  sim (get_state ≫= f1) (get_state ≫= f2).
Proof. intros Hf s1 s2 Hs. by apply Hf. Qed.

Lemma erase_fields s1 s2 :
  erase s1 = erase s2 →
  cognito_sub s1 = cognito_sub s2 ∧ tenant_code s1 = tenant_code s2 ∧
  application_session s1 = application_session s2 ∧ route_path s1 = route_path s2 ∧
  context_memo s1 = context_memo s2 ∧ event_authorities s1 = event_authorities s2 ∧
  metrics_organization s1 = metrics_organization s2 ∧ memos s1 = memos s2.
Proof. intros Hs. injection Hs. auto 10. Qed.

#[export] Instance erase_equiv : Equivalence (λ s1 s2, erase s1 = erase s2).
Proof. split; [by intros ?|by intros ???|intros ?????; congruence]. Qed.

Ltac erase_fields_in Hs :=
  apply erase_fields in Hs as (Hsub & Htc & Happ & Hpath & Hctx & Hauth & Hmetrics & Hmemos).

Ltac solve_sim :=
  repeat first
    [ apply sim_ret | apply sim_deny | apply sim_deref | apply sim_lookupFailure
    | apply sim_bind; [|intros ?] | case_match | eassumption ].

Definition with_ceiling (mode : Mode) (env : Env) : Env :=
  {| hooks := hooks env; entitlement_mode := entitlement_mode env; ceiling_mode := mode;
     clock := clock env; uuid_String := uuid_String env |}.

Section Shadow.
Context `{GoUnicode} (env : Env).
#[local] Abbreviation shadow := (with_ceiling ModeShadow env).
#[local] Abbreviation off := (with_ceiling ModeOff env).

Lemma fresh_sim u c e : sim (freshOrganizationAccess shadow u c e) (freshOrganizationAccess off u c e).
Proof. unfold freshOrganizationAccess, checkAccessRecursive, EntitlementMode; cbn [hooks with_ceiling entitlement_mode ceiling_mode]. solve_sim. Qed.
Lemma tenantWalk_sim get t n id : sim (tenantWalk get t n id) (tenantWalk get t n id).
Proof. revert id. induction n as [|n IH]; intros id; cbn; solve_sim; apply IH. Qed.
Lemma boundary_sim u c : sim (requireTenantClientBoundary shadow u c) (requireTenantClientBoundary off u c).
Proof. unfold requireTenantClientBoundary; cbn [hooks with_ceiling entitlement_mode ceiling_mode]. solve_sim. apply tenantWalk_sim. Qed.
Lemma reach_sim u c : sim (requireSessionApplicationReach shadow u c) (requireSessionApplicationReach off u c).
Proof. unfold requireSessionApplicationReach; cbn [hooks with_ceiling entitlement_mode ceiling_mode]. solve_sim. Qed.
Lemma granted_sim u e c : sim (eventClientGrantApplies shadow u e c) (eventClientGrantApplies off u e c).
Proof. unfold eventClientGrantApplies; cbn [hooks with_ceiling entitlement_mode ceiling_mode]. solve_sim. Qed.
Lemma lookupEvent_sim e : sim (lookupEventByID shadow e) (lookupEventByID off e).
Proof. unfold lookupEventByID; cbn [hooks with_ceiling entitlement_mode ceiling_mode]. solve_sim. Qed.
Lemma member_sim u e c : sim (requireEventMemberRole shadow u e c) (requireEventMemberRole off u e c).
Proof. unfold requireEventMemberRole; cbn [hooks with_ceiling entitlement_mode ceiling_mode]. solve_sim. Qed.

Lemma reportShadowDenial_erase (e : Env) user chk c cap reason s :
  (reportShadowDenial e user chk c cap reason s).2 = Value tt ∧
  erase (reportShadowDenial e user chk c cap reason s).1 = erase s.
Proof. unfold reportShadowDenial, mbind, M_bind, get_state. by repeat case_match. Qed.

Lemma report_sim (e1 e2 : Env) user chk c cap reason chk' c' cap' reason' :
  sim (reportShadowDenial e1 user chk c cap reason) (reportShadowDenial e2 user chk' c' cap' reason').
Proof.
  intros s1 s2 Hs. destruct (reportShadowDenial_erase e1 user chk c cap reason s1) as [-> ->].
  by destruct (reportShadowDenial_erase e2 user chk' c' cap' reason' s2) as [-> ->].
Qed.
Lemma report_ret_sim (e : Env) user chk c cap reason : sim (reportShadowDenial e user chk c cap reason) (mret tt).
Proof. intros s1 s2 Hs. by destruct (reportShadowDenial_erase e user chk c cap reason s1) as [-> ->]. Qed.

Lemma entitlement_sim u c cap a :
  sim (enforceProductEntitlement shadow u c cap a) (enforceProductEntitlement off u c cap a).
Proof. unfold enforceProductEntitlement, EntitlementMode; cbn [hooks with_ceiling entitlement_mode ceiling_mode].
  repeat case_match; first [apply sim_ret | apply report_sim | apply sim_deny].
Qed.
Lemma ceiling_sim u cap : sim (enforcePolicyCeiling shadow u cap) (enforcePolicyCeiling off u cap).
Proof.
  unfold enforcePolicyCeiling. destruct u as [u|]; [|apply sim_ret]. unfold PolicyCeilingMode.
  change (String.eqb (normalizeMode (ceiling_mode off)) ModeOff) with true. cbn [orb].
  change (String.eqb (normalizeMode (ceiling_mode shadow)) ModeOff) with false.
  change (String.eqb (normalizeMode (ceiling_mode shadow)) ModeShadow) with true. cbn [orb].
  repeat case_match; first [apply sim_ret | apply report_ret_sim].
Qed.
Lemma finalize_sim u c cap a :
  sim (finalizeAuthorityDecision shadow u c cap a) (finalizeAuthorityDecision off u c cap a).
Proof. unfold finalizeAuthorityDecision. apply sim_bind; [apply entitlement_sim|intros _; apply ceiling_sim]. Qed.

Lemma lookup_sim u c scope :
  sim (lookupOrganizationAccess shadow u c scope) (lookupOrganizationAccess off u c scope).
Proof.
  unfold lookupOrganizationAccess. apply sim_bind; [apply sim_deref|intros v].
  change (evaluateEntitlement shadow scope) with (evaluateEntitlement off scope).
  apply sim_get. intros s1 s2 Hs. assert (memo_lookup (memoOf u) (ID v, c, evaluateEntitlement off scope) s1 =
    memo_lookup (memoOf u) (ID v, c, evaluateEntitlement off scope) s2) as ->.
  { unfold memo_lookup. erase_fields_in Hs. by rewrite Hmemos. }
  destruct (memo_lookup _ _ s2); [done|]. revert s1 s2 Hs. apply sim_bind; [apply fresh_sim|intros a].
  apply sim_get. intros s1 s2 Hs. split; [done|]. cbn. unfold memo_store.
  destruct (memoOf u); [|done]. erase_fields_in Hs. unfold erase, set_shadow, set_memos; cbn.
  by rewrite Hsub, Htc, Happ, Hpath, Hctx, Hauth, Hmetrics, Hmemos.
Qed.

Lemma stamp_sim u : sim (stampRequestAuthorization u) (stampRequestAuthorization u).
Proof.
  unfold stampRequestAuthorization. apply sim_get. intros s1 s2 Hs. pose proof Hs as Hs'. erase_fields_in Hs'.
  rewrite Happ, Htc. match goal with |- context [match ?x with pair _ _ => _ end] => destruct x as [app [names restricted]] end.
  unfold mbind, M_bind, put_state, mret, M_ret. rewrite Hctx.
  destruct (context_memo s2); cbn; [done|]. rewrite Hmemos. split; [done|].
  unfold erase, set_shadow, set_context_memo; cbn.
  by rewrite Hsub, Htc, Happ, Hpath, Hauth, Hmetrics.
Qed.

Lemma scope_sim u : sim (scopeUserToTenant u) (scopeUserToTenant u).
Proof.
  unfold scopeUserToTenant. destruct u as [u|]; [|apply sim_ret]. apply sim_get. intros s1 s2 Hs.
  pose proof Hs as Hs'. erase_fields_in Hs'. rewrite Htc. revert s1 s2 Hs Hsub Htc Happ Hpath Hctx Hauth Hmetrics Hmemos.
  intros s1 s2 Hs _ _ _ _ _ _ _ _.
  match goal with |- context [stampRequestAuthorization ?w] => generalize w end. intros w. revert s1 s2 Hs.
  apply sim_bind; [apply stamp_sim|intros ?; apply sim_ret].
Qed.

Lemma CurrentUser_sim : sim (CurrentUser shadow) (CurrentUser off).
Proof.
  unfold CurrentUser. apply sim_bind.
  - unfold cognitoSubFromContext. apply sim_get. intros s1 s2 Hs. pose proof Hs as Hs'. erase_fields_in Hs'.
    rewrite Hsub. by repeat case_match.
  - intros sub. apply sim_bind; [|intros; apply scope_sim]. unfold currentUserByCognitoSub.
    cbn [hooks with_ceiling]. solve_sim.
Qed.

Lemma resolve_sim u e : sim (resolveEventAuthority shadow u e) (resolveEventAuthority off u e).
Proof.
  unfold resolveEventAuthority. destruct u as [u|]; [|apply sim_deny]. destruct e as [e|]; [|apply sim_deny].
  case_match; [apply sim_ret|]. case_match; [|apply sim_deny].
  apply sim_bind; [apply boundary_sim|intros _]. apply sim_bind; [apply lookup_sim|intros a].
  case_match; [apply sim_ret|]. apply sim_bind; [apply granted_sim|intros []]; [apply sim_ret|apply sim_deny].
Qed.

Lemma memoized_sim u e : sim (memoizedEventAuthority shadow u e) (memoizedEventAuthority off u e).
Proof.
  unfold memoizedEventAuthority. apply sim_bind; [apply sim_deref|intros ev].
  change (eventAuthorityContextKey shadow ev) with (eventAuthorityContextKey off ev).
  apply sim_get. intros s1 s2 Hs. pose proof Hs as Hs'. erase_fields_in Hs'. rewrite Hauth.
  destruct (event_authorities s2 !! _); [done|].
  clear Hsub Htc Happ Hpath Hctx Hauth Hmetrics Hmemos. revert s1 s2 Hs.
  apply sim_bind; [apply resolve_sim|intros a]. apply sim_get. intros s1 s2 Hs. split; [done|]. cbn.
  erase_fields_in Hs. unfold erase, set_shadow, set_event_authorities; cbn.
  by rewrite Hsub, Htc, Happ, Hpath, Hctx, Hauth, Hmetrics, Hmemos.
Qed.

Lemma view_sim u e a : sim (authorizeEventView shadow u e a) (authorizeEventView off u e a).
Proof. unfold authorizeEventView. case_match; [|apply sim_ret]. case_match; [apply sim_ret|apply entitlement_sim]. Qed.

Lemma RequireEventAccess_sim eventID : sim (RequireEventAccess shadow eventID) (RequireEventAccess off eventID).
Proof.
  unfold RequireEventAccess. apply sim_get. intros s1 s2 Hs. pose proof Hs as Hs'. erase_fields_in Hs'. rewrite Htc.
  case_match; [done|]. clear - Hs. rewrite !load_inputs_CurrentUser. revert s1 s2 Hs.
  apply sim_bind; [apply CurrentUser_sim|intros u]. apply sim_bind; [apply lookupEvent_sim|intros e].
  apply sim_bind; [apply memoized_sim|intros a]. apply sim_bind; [apply view_sim|intros _].
  apply sim_bind; [apply sim_deref|intros ev]. apply sim_bind; [|intros _; apply sim_ret].
  case_match; [|apply sim_ret]. apply sim_get. intros s1 s2 Hs. split; [done|]. cbn.
  erase_fields_in Hs. unfold erase, set_shadow, set_metrics; cbn. by rewrite Hsub, Htc, Happ, Hpath, Hctx, Hauth, Hmemos.
Qed.

Lemma RequireEventCapability_sim eventID cap :
  sim (RequireEventCapability shadow eventID cap) (RequireEventCapability off eventID cap).
Proof.
  unfold RequireEventCapability. apply sim_bind; [apply RequireEventAccess_sim|intros [u e]].
  apply sim_bind; [apply memoized_sim|intros a]. apply sim_bind; [apply sim_deref|intros ev].
  destruct (kind a).
  - case_match; [|apply sim_deny]. case_match; [apply sim_deny|].
    apply sim_bind; [apply finalize_sim|intros _]. apply sim_bind; [apply member_sim|intros _; apply sim_ret].
  - case_match; [|apply sim_deny]. apply sim_bind; [apply ceiling_sim|intros _; apply sim_ret].
  - case_match; [|apply sim_deny]. apply sim_bind; [apply sim_deref|intros c].
    apply sim_bind; [apply finalize_sim|intros _; apply sim_ret].
Qed.

Lemma requireClientCapability_sim u c cap scope :
  sim (requireClientCapability shadow u c cap scope) (requireClientCapability off u c cap scope).
Proof.
  unfold requireClientCapability. apply sim_bind; [apply boundary_sim|intros _].
  case_match; [case_match; [apply ceiling_sim|apply sim_deny]|].
  apply sim_bind; [apply lookup_sim|intros a]. case_match; [apply sim_deny|].
  apply sim_bind; [apply reach_sim|intros _; apply finalize_sim].
Qed.
End Shadow.
