(* ===== verification/AuthzTheorems.v ===== *)
(** * Authorization: the properties, with concrete requests *)
From stdpp Require Import base tactics list strings gmap pretty.
From Stdlib Require Import Ascii.
From S2P Require Import Prelude GoStrings GoSort Capabilities Authz AuthzFacts AuthzRequest AuthzShadow.
Open Scope string_scope.

(** ** A concrete request: an editor of organization 7 on event 3 *)

Definition editor : User :=
  {| ID := 11%N; RootLevel := 0; IsRoot := false; AuthTenantCode := ""; AuthApplicationCode := "";
     AuthPolicyRestricted := false; AuthPolicyCapabilities := ∅; AuthRequestMemo := None;
     SessionApplicationCode := "" |}.
Definition operator : User :=
  {| ID := 12%N; RootLevel := 2; IsRoot := false; AuthTenantCode := ""; AuthApplicationCode := "";
     AuthPolicyRestricted := false; AuthPolicyCapabilities := ∅; AuthRequestMemo := None;
     SessionApplicationCode := "" |}.

Definition demo_hooks : Hooks :=
  {| SyncUser := Some (λ sub, if String.eqb sub "operator" then Ok (Some operator) else Ok (Some editor));
     CheckAccessRecursive := None;
     CheckAccessRecursiveE := Some (λ _ clientID, Ok (N.eqb clientID 7, "EDITOR"));
     CheckApplicationAccessRecursive := Some (λ _ clientID _,
       Ok {| Allowed := N.eqb clientID 7; Role := "EDITOR"; Entitled := true; Reason := "" |});
     GetClientByID := Some (λ id, Ok (Some {| Client_Code := "cafettonhouse"; Client_ParentID := None |}));
     GetEventByIDRaw := Some (λ id, Ok (Some {| Event_ID := id; Event_ClientID := Some 7%N |}));
     GetEventSectionByID := Some (λ _, Ok (Some {| EventSection_EventID := 3%N |}));
     GetMomentByID := Some (λ _, Ok (Some {| Moment_EventID := Some 3%N |}));
     GetGuestByID := Some (λ _, Ok (Some {| Guest_EventID := 3%N |}));
     GetInvitationByIDLite := Some (λ _, Ok (Some {| Invitation_EventID := 3%N |}));
     GetResourceByID := Some (λ _, Ok (Some {| Resource_EventSectionID := Some 5%N |}));
     GetEventMemberRole := Some (λ _ _, Ok (Some "EDITOR"));
     HasEventClientGrant := None;
     ResolveClientProduct := None;
     GetEventMemberRoles := Some (λ _ _, Ok {[ 4%N := "CHECKIN" ]});
     ReachableClientIDsInApplication := Some (λ _ _ ids, Ok (list_to_map ((λ i, (i, true)) <$> ids))) |}.
(** A text form of identifiers for evaluation: one letter per unit. *)
Definition unary_text (id : uuid) : string := of_bytes (replicate (N.to_nat id) "a"%char).
Definition demo_env (entitlement ceiling : Mode) : Env :=
  {| hooks := demo_hooks; entitlement_mode := entitlement; ceiling_mode := ceiling; clock := 1000;
     uuid_String := unary_text |}.
Definition start (sub : string) (session : option PolicyCeilingSource) : RequestState :=
  {| cognito_sub := Some sub; tenant_code := Some "eventiapp"; application_session := session;
     route_path := "/api/events/:id"; context_memo := None; event_authorities := ∅;
     metrics_organization := None; memos := [];
     shadowLog := {| ttl := 600; max_entries := 10000; seen := ∅ |}; shadowLines := [] |}.

(** ** The invariant holds at the start of a request *)

Section Start.
Context `{GoUnicode} (env : Env).

Lemma request_inv_start s : memos s = [] → event_authorities s = ∅ → request_inv env s s.
Proof.
  intros Hm Ha. split_and!; [by split_and!|..].
  - intros p m ? ? ? ?. by rewrite Hm.
  - intros ev a. by rewrite Ha, lookup_empty.
Qed.

(** A value returned by a computation that [keeps] the invariant. *)
Lemma keeps_run {A} s0 (m : M A) Q s s' a :
  keeps env s0 m Q → request_inv env s0 s → m s = (s', Value a) → request_inv env s0 s' ∧ Q a.
Proof. intros Hm Hs Hrun. destruct (Hm s Hs) as (? & HQ & _). rewrite Hrun in *. auto. Qed.
End Start.

#[export] Instance demo_uuid_text e c : UuidText (demo_env e c).
Proof.
  split; cbn; unfold unary_text.
  - intros id. unfold all_bytes. rewrite bytes_of_bytes. by induction (N.to_nat id).
  - intros id Hid%(f_equal (λ t, String.list_ascii_of_string t)). rewrite bytes_of_bytes in Hid.
    destruct (N.to_nat id); discriminate.
  - intros x y Hxy%(f_equal (λ t, length (String.list_ascii_of_string t))).
    rewrite !bytes_of_bytes, !length_replicate in Hxy. lia.
Qed.

(** ** Events *)

Section EventTheorems.
Context `{GoUnicode} (env : Env) `{!UuidText env}.

(** C1: at any point of a request, whatever is cached, [RequireEventCapability] allows
    only what one of the three authorities grants from the hooks' own answers: a platform
    level that holds the capability; an allowed organization role that holds it, is
    entitled, and is not narrowed by an event membership; or an event-client grant within
    the event-client ceiling, for a caller whose organization lookup was answered and
    denied. The policy ceiling holds in every case, and the caches stay sound. *)
Theorem RequireEventCapability_sound s0 s eventID capability s' r :
  request_inv env s0 s →
  RequireEventCapability env eventID capability s = (s', Value r) →
  request_inv env s0 s' ∧ usable env s0 eventID capability r.
Proof. intros Hs. by eapply keeps_run; [apply RequireEventCapability_keeps|]. Qed.

(** with repositories that return a row whenever they return no error, no sequence of
    cached answers makes an event check dereference nil. *)
Theorem RequireEventCapability_no_panic s0 s eventID capability :
  hooks_honest env → request_inv env s0 s → (RequireEventCapability env eventID capability s).2 ≠ Panic.
Proof. intros Hh Hs. by eapply (RequireEventCapability_keeps env s0). Qed.

Lemma fresh_failure_status userID clientID e s f :
  (freshOrganizationAccess env userID clientID e s).2 = Failed (EFailure f) → Status f = StatusInternalServerError.
Proof.
  unfold freshOrganizationAccess, checkAccessRecursive, organizationLookupFailure, dependencyFailure, deny, fail,
    mbind, M_bind, mret, M_ret.
  repeat (case_match; cbn); intros Hf; simplify_eq; done.
Qed.

(** an organization lookup that fails is a 500, whatever event-client grant exists:
    it never falls through to a weaker authority. *)
Theorem organization_failure_is_final u ev clientID s f :
  IsPlatformAdmin (Some u) = false → Event_ClientID ev = Some clientID → inside_boundary env u clientID →
  (lookupOrganizationAccess env (Some u) clientID scopeEventResource s).2 = Failed (EFailure f) →
  (resolveEventAuthority env (Some u) (Some ev) s).2 = Failed (EFailure f) ∧ Status f = StatusInternalServerError.
Proof.
  intros Hadm Hc Hb Hf. unfold resolveEventAuthority. rewrite Hadm, Hc.
  unfold mbind, M_bind. rewrite (Hb s). split.
  { by destruct (lookupOrganizationAccess env (Some u) clientID scopeEventResource s) as [s1 [a|e|]]; cbn in *; simplify_eq. }
  revert Hf. unfold lookupOrganizationAccess. unfold mbind, M_bind, deref, get_state.
  cbn -[memo_lookup freshOrganizationAccess evaluateEntitlement].
  match goal with |- context [memo_lookup ?a ?b ?c] => destruct (memo_lookup a b c); [done|] end.
  destruct (freshOrganizationAccess env (ID u) clientID (evaluateEntitlement env scopeEventResource) s)
    as [s1 [a|e|]] eqn:Hfresh; [done| |done].
  cbn. intros [= ->]. by eapply fresh_failure_status; rewrite Hfresh.
Qed.
End EventTheorems.

Lemma RequireEventCapability_sound_witness :
  ∃ s' r, request_inv (H:=ascii_only) (demo_env ModeEnforce ModeEnforce) (start "editor" None) s' ∧
    usable (H:=ascii_only) (demo_env ModeEnforce ModeEnforce) (start "editor" None) 3%N EventManage r.
Proof.
  do 2 eexists.
  apply (RequireEventCapability_sound (H:=ascii_only) (demo_env ModeEnforce ModeEnforce) (start "editor" None)
    (start "editor" None) 3%N EventManage).
  - by apply request_inv_start.
  - vm_compute. reflexivity.
Defined.

Lemma RequireEventCapability_no_panic_witness :
  (RequireEventCapability (H:=ascii_only) (demo_env ModeEnforce ModeOff) 3%N EventDelete (start "editor" None)).2 ≠ Panic.
Proof.
  apply (RequireEventCapability_no_panic (H:=ascii_only) (demo_env ModeEnforce ModeOff) (start "editor" None)).
  - by split; cbn; intros hook id x [= <-] [= <-].
  - by apply request_inv_start.
Defined.

Definition failing_hooks : Hooks :=
  ReplaceHooksForTest demo_hooks
    {| SyncUser := None; CheckAccessRecursive := None;
       CheckAccessRecursiveE := Some (λ _ _, Err (ErrLookup "connection reset"));
       CheckApplicationAccessRecursive := None; GetClientByID := None; GetEventByIDRaw := None;
       GetEventSectionByID := None; GetMomentByID := None; GetGuestByID := None; GetInvitationByIDLite := None;
       GetResourceByID := None; GetEventMemberRole := None; HasEventClientGrant := Some (λ _ _, Ok true);
       ResolveClientProduct := Some (λ _, Ok "eventiapp"); GetEventMemberRoles := None;
       ReachableClientIDsInApplication := None |}.
Definition failing_env : Env :=
  {| hooks := failing_hooks; entitlement_mode := ModeOff; ceiling_mode := ModeOff; clock := 1000;
     uuid_String := unary_text |}.

Lemma organization_failure_is_final_witness :
  let ev := {| Event_ID := 3%N; Event_ClientID := Some 7%N |} in
  ∃ f, (resolveEventAuthority (H:=ascii_only) failing_env (Some editor) (Some ev) (start "editor" None)).2
         = Failed (EFailure f) ∧ Status f = StatusInternalServerError.
Proof.
  eexists. eapply (organization_failure_is_final (H:=ascii_only) failing_env editor _ 7%N).
  - reflexivity.
  - reflexivity.
  - intros s. reflexivity.
  - vm_compute. reflexivity.
Defined.

(** ** Organizations *)

Section ClientTheorems.
Context `{GoUnicode} (env : Env) `{!UuidText env}.

(** an allowed move either keeps the event's organization as it is, or the caller may
    manage events in the new organization and, when there was one, in the old one too; an
    event is never detached from its organization. *)
Theorem RequireClientMoveAccess_sound s0 s u old new s' :
  request_inv env s0 s →
  RequireClientMoveAccess env (Some u) old new s = (s', Value tt) →
  new = old ∨
  ∃ n, new = Some n ∧ client_grant env u n EventManage scopeOrganization ∧
       ∀ o, old = Some o → client_grant env u o EventManage scopeOrganization.
Proof.
  intros Hs Hrun. unfold RequireClientMoveAccess in Hrun. destruct new as [n|].
  2:{ destruct old; [discriminate|by left]. }
  destruct (bool_decide_reflect (old = Some n)) as [->|_]; [by left|]. right. exists n. split; [done|].
  apply bind_value in Hrun as (s1 & [] & Hold & Hnew).
  assert (request_inv env s0 s1 ∧ ∀ o, old = Some o → client_grant env u o EventManage scopeOrganization)
    as [Hs1 Hg].
  { destruct old as [o|]; [|unfold mret, M_ret in Hold; simplify_eq; by split].
    eapply keeps_run in Hold as [? Hg]; [|apply requireClientCapability_keeps|done]. split; [done|]. by intros ? [= <-]. }
  split; [|done]. by eapply keeps_run in Hnew as [_ ?]; [|apply requireClientCapability_keeps|].
Qed.

(** *** Many events of one organization *)

Inductive batch_grant (u : User) (orgID id : uuid) (eventIDs : list uuid) (capability : Capability) : Prop :=
| batch_platform :
    inside_boundary env u orgID → IsPlatformAdmin (Some u) = true →
    platformHasCapability (Some u) capability = true → ceiling_allows env u capability →
    batch_grant u orgID id eventIDs capability
| batch_member a hook roles :
    inside_boundary env u orgID → IsPlatformAdmin (Some u) = false →
    organization_answer env (ID u) orgID (evaluateEntitlement env scopeEventResource) a →
    Allowed a = true → roleHasCapability (Role a) capability = true →
    entitled env a → ceiling_allows env u capability →
    GetEventMemberRoles (hooks env) = Some hook → hook eventIDs (ID u) = Ok roles →
    (∀ role, roles !! id = Some role → eventRoleHasCapability role capability = true) →
    batch_grant u orgID id eventIDs capability.

Lemma foldl_insert_lookup (f : uuid → bool) l (m : gmap uuid bool) id b :
  foldl (λ result i, <[i := f i]> result) m l !! id = Some b → (id ∈ l ∧ b = f id) ∨ m !! id = Some b.
Proof.
  revert m. induction l as [|i l IH]; intros m; cbn; [by right|].
  intros [[Hin ->]|Hm]%IH; [left; split; [by constructor|done]|].
  apply lookup_insert_Some in Hm as [[-> <-]|[_ ?]]; [left; split; [constructor|done]|by right].
Qed.

Lemma keeps_try {A} s0 (m : M A) Q : keeps env s0 m Q → keeps env s0 (try m) (λ r, ∀ a, r = Ok a → Q a).
Proof.
  intros Hm s Hs. destruct (Hm s Hs) as (Hi & HQ & Hp). unfold try.
  destruct (m s) as [s1 [a|e|]]; cbn in *; split_and!; try done.
  - intros r Hr a' ->. injection Hr as ->. by apply HQ.
  - intros r Hr a' ->. discriminate Hr.
  - intros Hh. by destruct (Hp Hh).
Qed.

Lemma finalAuthorityAllows_keeps s0 r :
  keeps env s0 (finalAuthorityAllows r) (λ b, b = true → r = Ok tt).
Proof.
  unfold finalAuthorityAllows. destruct r as [[]|[f|msg]]; [by apply keeps_ret| |].
  - case_match; [by apply keeps_ret|]. intros s Hs. by split_and!.
  - intros s Hs. by split_and!.
Qed.

Lemma authority_allows_keeps s0 (m : M unit) (P : Prop) (b : bool) :
  keeps env s0 m (λ _, P) →
  keeps env s0 (if b then r ← try m; finalAuthorityAllows r else mret false) (λ allowed, allowed = true → b = true ∧ P).
Proof.
  intros Hm. destruct b; [|by apply keeps_ret]. eapply keeps_bind; [by apply keeps_try|]. intros r Hr.
  eapply keeps_weaken; [|apply finalAuthorityAllows_keeps]. intros allowed Ha Ht. split; [done|]. by eapply Hr, Ha.
Qed.

(** the batch check answers [true] for an event only when the caller is a platform
    root whose level holds the capability, or an entitled organization role holds it and
    no event membership of that very event withholds it; the policy ceiling holds either
    way, and event-client grants are never consulted. *)
Theorem batch_capability_sound s0 s u orgID eventIDs capability s' result id :
  request_inv env s0 s →
  EventCapabilityForOrganizationEvents env (Some u) orgID eventIDs capability s = (s', Value result) →
  result !! id = Some true →
  id ∈ eventIDs ∧ batch_grant u orgID id eventIDs capability.
Proof.
  intros Hs Hrun Hid. unfold EventCapabilityForOrganizationEvents in Hrun.
  apply bind_value in Hrun as (s1 & boundary & Hb & Hrun).
  eapply keeps_run in Hb as [Hs1 Hb]; [|apply keeps_try, keeps_stateless, boundary_stateless|done].
  destruct boundary as [[]|e]; [|injection Hrun as _ <-; by rewrite lookup_empty in Hid].
  specialize (Hb tt eq_refl). destruct (IsPlatformAdmin (Some u)) eqn:Hadm.
  { apply bind_value in Hrun as (s2 & allowed & Ha & Hrun). injection Hrun as _ <-.
    eapply keeps_run in Ha as [_ Ha]; [|eapply authority_allows_keeps, enforcePolicyCeiling_keeps|done].
    apply foldl_insert_lookup in Hid as [[Hin <-]|Hid]; [|by rewrite lookup_empty in Hid].
    destruct (Ha eq_refl). split; [done|]. by constructor 1. }
  apply bind_value in Hrun as (s2 & a & Ha & Hrun).
  eapply keeps_run in Ha as [Hs2 Ha]; [|apply lookupOrganizationAccess_keeps|done].
  apply bind_value in Hrun as (s3 & allowed & Hall & Hrun).
  eapply keeps_run in Hall as [Hs3 Hall]; [|eapply authority_allows_keeps, finalize_keeps|done].
  destruct allowed; cbn [negb] in Hrun.
  2:{ injection Hrun as _ <-. apply foldl_insert_lookup in Hid as [[_ ?]|Hid]; [done|by rewrite lookup_empty in Hid]. }
  destruct (Hall eq_refl) as [[Hal Hr]%andb_true_iff [Hent Hceil]].
  apply bind_value in Hrun as (s4 & roles & Hroles & Hrun). injection Hrun as _ <-.
  apply foldl_insert_lookup in Hid as [[Hin Hval]|Hid]; [|by rewrite lookup_empty in Hid].
  split; [done|]. destruct eventIDs as [|i0 rest]; [by apply not_elem_of_nil in Hin|].
  destruct (GetEventMemberRoles (hooks env)) as [hook|] eqn:Hh; [|discriminate].
  destruct (hook (i0 :: rest) (ID u)) as [rs|] eqn:Hrs; [|discriminate]. injection Hroles as _ ->.
  econstructor 2; eauto. intros role Hrole. by rewrite Hrole in Hval.
Qed.
End ClientTheorems.

(** ** Sections and resources *)

Section ResourceTheorems.
Context `{GoUnicode} (env : Env) `{!UuidText env}.

Definition section_answer (sectionID : uuid) (section : EventSection) : Prop :=
  ∃ hook, GetEventSectionByID (hooks env) = Some hook ∧ hook sectionID = Ok (Some section).
Definition resource_answer (resourceID : uuid) (resource : Resource) : Prop :=
  ∃ hook, GetResourceByID (hooks env) = Some hook ∧ hook resourceID = Ok (Some resource).

Lemma EnsureEventIDAccess_keeps s0 user eventID :
  keeps env s0 (EnsureEventIDAccess env user eventID) (λ _, True).
Proof.
  unfold EnsureEventIDAccess, EnsureEventAccess.
  eapply keeps_bind; [apply lookupEventByID_keeps|]. intros event [_ Hsome].
  eapply (keeps_bind _ _ _ _ (λ _, True)); [|intros _ _; by apply keeps_ret].
  eapply keeps_bind; [apply resolveEventAuthority_keeps|]. intros a _.
  eapply keeps_weaken; [|apply authorizeEventView_keeps]. done.
Qed.

Lemma EnsureEventSectionAccess_keeps s0 user sectionID :
  keeps env s0 (EnsureEventSectionAccess env user sectionID)
    (λ r, ∃ section, r = Some section ∧ section_answer sectionID section).
Proof.
  unfold EnsureEventSectionAccess.
  destruct (GetEventSectionByID (hooks env)) as [hook|] eqn:Hh; [|apply keeps_deny].
  destruct (hook sectionID) as [section|e] eqn:Hans; [|destruct e; apply keeps_deny].
  eapply keeps_bind.
  { apply (keeps_deref env s0 section (λ sec, section = Some sec)); [done|]. intros Hon.
    by eapply (honest_section env Hon). }
  intros sec ->. eapply keeps_bind; [by apply EnsureEventIDAccess_keeps|]. intros _ _. apply keeps_ret.
  exists sec. split; [done|]. exists hook. by split.
Qed.

Definition section_usable s0 sectionID capability : Prop :=
  ∃ section r, section_answer sectionID section ∧ usable env s0 (EventSection_EventID section) capability r.

Lemma RequireEventSectionCapability_keeps s0 sectionID capability :
  keeps env s0 (RequireEventSectionCapability env sectionID capability)
    (λ _, section_usable s0 sectionID capability).
Proof.
  unfold RequireEventSectionCapability, RequireEventSectionAccess.
  eapply (keeps_bind _ _ _ _ (λ r, ∃ section, r.2 = Some section ∧ section_answer sectionID section)).
  { eapply keeps_bind; [apply CurrentUser_keeps|]. intros user _.
    eapply keeps_bind; [apply EnsureEventSectionAccess_keeps|]. intros r Hr. by apply keeps_ret. }
  intros [user r] (section & Hs & Hans). cbn in Hs. subst r.
  eapply keeps_bind; [apply keeps_deref_Some|]. intros _ ->.
  eapply keeps_bind; [by apply RequireEventCapability_keeps|]. intros r Hr. apply keeps_ret. by exists section, r.
Qed.

Lemma RequireResourceAccess_keeps s0 resourceID :
  keeps env s0 (RequireResourceAccess env resourceID)
    (λ r, ∃ resource, r.2 = Some resource ∧ resource_answer resourceID resource ∧
                      ∀ u, r.1 = Some u → caller env s0 u).
Proof.
  unfold RequireResourceAccess. eapply keeps_bind; [apply CurrentUser_keeps|]. intros user [Hu _].
  destruct (GetResourceByID (hooks env)) as [hook|] eqn:Hh; [|apply keeps_deny].
  destruct (hook resourceID) as [resource|e] eqn:Hans; [|destruct e; apply keeps_deny].
  eapply keeps_bind.
  { apply (keeps_deref env s0 resource (λ res, resource = Some res)); [done|]. intros Hon.
    by eapply (honest_resource env Hon). }
  intros res ->. assert (resource_answer resourceID res) as Hra by (exists hook; by split).
  destruct (Resource_EventSectionID res) as [sectionID|].
  - eapply keeps_bind; [apply EnsureEventSectionAccess_keeps|]. intros _ _. apply keeps_ret. eauto.
  - destruct (IsPlatformAdmin user); [apply keeps_ret; eauto|apply keeps_deny].
Qed.

Definition resource_usable s0 resourceID capability (r : option User * option Resource) : Prop :=
  ∃ resource, r.2 = Some resource ∧ resource_answer resourceID resource ∧
    match Resource_EventSectionID resource with
    | Some sectionID => section_usable s0 sectionID capability
    | None => ∃ u, r.1 = Some u ∧ caller env s0 u ∧ IsPrimaryRoot (Some u) = true
    end.

(** a resource may be mutated only through the event of its own section, under the
    event rules; a resource of the platform, which no section owns, only by a primary
    root. *)
Theorem RequireResourceCapability_sound s0 s resourceID capability s' r :
  request_inv env s0 s →
  RequireResourceCapability env resourceID capability s = (s', Value r) →
  request_inv env s0 s' ∧ resource_usable s0 resourceID capability r.
Proof.
  intros Hs Hrun. eapply keeps_run; [|exact Hs|exact Hrun]. clear s Hs Hrun. unfold RequireResourceCapability.
  eapply keeps_bind; [apply RequireResourceAccess_keeps|]. intros [user o] (res & Ho & Hres & Hu). cbn in Ho, Hu. subst o.
  eapply keeps_bind; [apply keeps_deref_Some|]. intros _ ->.
  destruct (Resource_EventSectionID res) as [sectionID|] eqn:Hsec.
  - eapply keeps_bind; [apply RequireEventSectionCapability_keeps|]. intros ? Hse. apply keeps_ret.
    exists res. by rewrite Hsec.
  - destruct (IsPrimaryRoot user) eqn:Hroot; [|apply keeps_deny]. apply keeps_ret. exists res. rewrite Hsec.
    destruct user as [u|]; [|discriminate]. by eauto 10.
Qed.
End ResourceTheorems.

Lemma RequireResourceCapability_sound_witness :
  ∃ s', request_inv (H:=ascii_only) (demo_env ModeEnforce ModeEnforce) (start "editor" None) s' ∧
    section_usable (H:=ascii_only) (demo_env ModeEnforce ModeEnforce) (start "editor" None) 5%N EventManage.
Proof.
  assert (∃ s' r, RequireResourceCapability (H:=ascii_only) (demo_env ModeEnforce ModeEnforce) 9%N EventManage
    (start "editor" None) = (s', Value r)) as (s' & r & Hrun) by (do 2 eexists; vm_compute; reflexivity).
  exists s'. apply (RequireResourceCapability_sound (H:=ascii_only) (demo_env ModeEnforce ModeEnforce) (start "editor" None))
    in Hrun as (Hi & resource & _ & (hook & [= <-] & [= <-]) & Huse); [|by apply request_inv_start].
  by split.
Defined.

Lemma RequireClientMoveAccess_sound_witness :
  Some 7%N = Some 7%N ∨
  ∃ n, Some 7%N = Some n ∧ client_grant (H:=ascii_only) (demo_env ModeOff ModeOff) editor n EventManage scopeOrganization ∧
    ∀ o, None = Some o → client_grant (H:=ascii_only) (demo_env ModeOff ModeOff) editor o EventManage scopeOrganization.
Proof.
  right. destruct (RequireClientMoveAccess_sound (H:=ascii_only) (demo_env ModeOff ModeOff) (start "editor" None)
    (start "editor" None) editor None (Some 7%N) (start "editor" None)) as [Heq|Hn]; [| |discriminate Heq|exact Hn].
  - by apply request_inv_start.
  - vm_compute. reflexivity.
Defined.

Lemma batch_capability_sound_witness :
  (4%N : uuid) ∈ [3%N; 4%N] ∧
  batch_grant (H:=ascii_only) (demo_env ModeEnforce ModeEnforce) editor 7%N 4%N [3%N; 4%N] View.
Proof.
  eapply (batch_capability_sound (H:=ascii_only) (demo_env ModeEnforce ModeEnforce) (start "editor" None) (start "editor" None)).
  - by apply request_inv_start.
  - vm_compute. reflexivity.
  - vm_compute. reflexivity.
Defined.

(** ** Shadow mode and the shadow log *)

Section LogTheorems.
Context `{GoUnicode} (env : Env).

(** a policy ceiling in shadow mode changes nothing but the shadow log: every event
    and organization check ends with the answer, the caches and the metrics it would have
    with the ceiling off. *)
Theorem shadow_ceiling_is_transparent eventID user clientID capability scope s :
  let shadow := with_ceiling ModeShadow env in
  let off := with_ceiling ModeOff env in
  ((RequireEventCapability shadow eventID capability s).2 = (RequireEventCapability off eventID capability s).2 ∧
   erase (RequireEventCapability shadow eventID capability s).1 =
   erase (RequireEventCapability off eventID capability s).1) ∧
  (requireClientCapability shadow user clientID capability scope s).2 =
  (requireClientCapability off user clientID capability scope s).2 ∧
  erase (requireClientCapability shadow user clientID capability scope s).1 =
  erase (requireClientCapability off user clientID capability scope s).1.
Proof. split; [by apply RequireEventCapability_sim|by apply requireClientCapability_sim]. Qed.
End LogTheorems.

Lemma size_insert_le {A} (m : gmap string A) k v : (size (<[k:=v]> m) ≤ S (size m))%nat.
Proof.
  destruct (m !! k) eqn:Hk; [rewrite map_size_insert_Some; [lia|by eexists]|by rewrite map_size_insert_None].
Qed.

(** the shadow log never holds more than [max] keys, reports a key at most once within
    the ttl, and reports it again once the ttl has passed. *)
Theorem deduper_first_bounded_and_suppressing d now key :
  (0 < max_entries d)%nat → (size (seen d) ≤ max_entries d)%nat →
  let '(d', first) := deduper_first d now key in
  (size (seen d') ≤ max_entries d')%nat ∧
  (first = true ↔ ∀ t, seen d !! key = Some t → (ttl d ≤ now - t)%Z) ∧
  (∀ later, (now ≤ later < now + ttl d)%Z → first = true → (deduper_first d' later key).2 = false).
Proof.
  intros Hmax Hsize. unfold deduper_first at 1.
  set (fresh := match seen d !! key with Some seenAt => negb (Z.ltb (now - seenAt) (ttl d)) | None => true end).
  assert (fresh = true ↔ ∀ t, seen d !! key = Some t → (ttl d ≤ now - t)%Z) as Hfresh.
  { subst fresh. destruct (seen d !! key) as [t|]; [|naive_solver].
    rewrite negb_true_iff, Z.ltb_ge. naive_solver. }
  destruct fresh; cbn -[Nat.leb].
  - split_and!.
    + repeat case_match; cbn.
      * rewrite map_size_insert_None by apply lookup_empty. rewrite map_size_empty. lia.
      * etransitivity; [apply size_insert_le|]. apply Nat.leb_gt in H0. lia.
      * etransitivity; [apply size_insert_le|]. apply Nat.leb_gt in H. lia.
    + exact Hfresh.
    + intros later Hl _. unfold deduper_first. cbn [seen ttl]. rewrite lookup_insert_eq.
      assert ((later - now <? ttl d)%Z = true) as -> by (apply Z.ltb_lt; lia). done.
  - split_and!; [done|exact Hfresh|done].
Qed.

Definition demo_log : shadowDeduper := {| ttl := 600; max_entries := 1; seen := {[ "k" := 5%Z ]} |}.
Lemma deduper_first_witness :
  (size (seen (deduper_first demo_log 10 "j").1) ≤ 1)%nat ∧ (deduper_first (deduper_first demo_log 10 "j").1 20 "j").2 = false.
Proof.
  pose proof (deduper_first_bounded_and_suppressing demo_log 10 "j" ltac:(cbn; lia) ltac:(vm_compute; lia)) as Hd.
  destruct (deduper_first demo_log 10 "j") as [d' first] eqn:Hrun. destruct Hd as (Hs & Hf & Hl).
  vm_compute in Hrun. injection Hrun as <- <-. split; [exact Hs|]. apply Hl; [cbn; lia|done].
Defined.

(** ** Platform administrators and moments *)

(** An operational administrator whose session policy grants nothing. *)
Definition restricted_session : option PolicyCeilingSource :=
  Some {| ApplicationCode := "eventiapp"; PolicyCeiling := (∅, true) |}.

(** with the policy ceiling enforced, an operational administrator whose application
    policy excludes checking guests in is refused on the event itself but allowed on every
    moment of that event: the moment check returns before [enforcePolicyCeiling]. *)
Theorem moment_check_skips_policy_ceiling :
  let env := demo_env ModeEnforce ModeEnforce in
  let s := start "operator" restricted_session in
  (∃ f, (RequireEventCapability (H:=ascii_only) env 3%N Checkin s).2 = Failed (EFailure f) ∧
        Status f = StatusForbidden ∧
        Detail f = "Your application access policy does not allow this action") ∧
  (∃ u m, (RequireMomentCapability (H:=ascii_only) env 8%N Checkin s).2 = Value (Some u, Some m) ∧
          Moment_EventID m = Some 3%N ∧ IsPrimaryRoot (Some u) = false ∧ AuthPolicyRestricted u = true).
Proof.
  split.
  - eexists. split; [vm_compute; reflexivity|]. by split.
  - do 2 eexists. split; [vm_compute; reflexivity|]. by split_and!.
Qed.

(** ** Witnesses for the role table and the tenant boundary *)

Lemma operational_root_grants_witness :
  PlatformRootMayGrantRole (H:=ascii_only) (Some operator) " member" = true ∧
  PlatformRootMayGrantRole (H:=ascii_only) (Some operator) "Owner" = false.
Proof.
  split.
  - apply (operational_root_grants (H:=ascii_only) (Some operator) " member"); [reflexivity|].
    vm_compute. intros Hin. repeat (inversion Hin; subst; clear Hin; rename select (_ ∈ _) into Hin).
  - apply not_true_is_false. intros Hgrant.
    apply (operational_root_grants (H:=ascii_only) (Some operator) "Owner") in Hgrant; [|reflexivity].
    apply Hgrant. vm_compute. constructor.
Defined.

Definition branded_editor : User :=
  {| ID := 11%N; RootLevel := 0; IsRoot := false; AuthTenantCode := "CafettonHouse"; AuthApplicationCode := "";
     AuthPolicyRestricted := false; AuthPolicyCapabilities := ∅; AuthRequestMemo := None;
     SessionApplicationCode := "" |}.
Lemma tenant_boundary_witness :
  (requireTenantClientBoundary (H:=ascii_only) (demo_env ModeOff ModeOff) (Some branded_editor) 7%N (start "editor" None)).2
  = Value tt.
Proof.
  eapply (tenant_boundary_iff (H:=ascii_only) (demo_env ModeOff ModeOff) branded_editor 7%N).
  - by split; vm_compute.
  - reflexivity.
  - exists 0, 7%N, {| Client_Code := "cafettonhouse"; Client_ParentID := None |}.
    split_and!; [lia|constructor|done|reflexivity|reflexivity].
Defined.
