(* ===== verification/Sha256.v ===== *)
(** * [crypto/sha256.Sum256] and [encoding/hex]

    The digest of FIPS 180-4 on byte strings, on 32-bit words kept as [N] below [2^32],
    and the lower-case hexadecimal text of a digest. *)
From stdpp Require Import base tactics list strings.
From Stdlib Require Import Ascii.
From S2P Require Import Prelude GoStrings.
Open Scope N_scope.

Definition word32 (n : N) : N := N.land n (N.ones 32).
Definition add32 (a b : N) : N := word32 (a + b).
Definition rotr (n : N) (x : N) : N := N.lor (N.shiftr x n) (word32 (N.shiftl x (32 - n))).
Definition not32 (x : N) : N := N.lxor x (N.ones 32).

Definition Ch (x y z : N) : N := N.lxor (N.land x y) (N.land (not32 x) z).
Definition Maj (x y z : N) : N := N.lxor (N.land x y) (N.lxor (N.land x z) (N.land y z)).
Definition Sigma0 (x : N) : N := N.lxor (rotr 2 x) (N.lxor (rotr 13 x) (rotr 22 x)).
Definition Sigma1 (x : N) : N := N.lxor (rotr 6 x) (N.lxor (rotr 11 x) (rotr 25 x)).
Definition sigma0 (x : N) : N := N.lxor (rotr 7 x) (N.lxor (rotr 18 x) (N.shiftr x 3)).
Definition sigma1 (x : N) : N := N.lxor (rotr 17 x) (N.lxor (rotr 19 x) (N.shiftr x 10)).

(** The constants: the first 32 bits of the fractional parts of the cube roots of the first
    64 primes, and of the square roots of the first 8. *)
Definition is_prime (n : nat) : bool :=
  forallb (λ d, negb (Nat.eqb (Nat.modulo n d) 0)) (seq 2 (n - 2)).
Definition first_primes : list N := N.of_nat <$> List.filter is_prime (seq 2 310).
Fixpoint cube_root (bit : nat) (x r : N) : N :=
  let r' := r + N.shiftl 1 (N.of_nat bit) in
  let r1 := if r' * r' * r' <=? x then r' else r in
  match bit with O => r1 | S b => cube_root b x r1 end.
Definition K : list N := Eval vm_compute in (λ p, word32 (cube_root 36 (N.shiftl p 96) 0)) <$> first_primes.
Definition H0 : list N := Eval vm_compute in (λ p, word32 (N.sqrt (N.shiftl p 64))) <$> take 8 first_primes.

(** Padding: a one bit, zeros up to 56 modulo 64, the bit length on eight bytes. *)
Definition be_bytes (n : nat) (x : N) : list N :=
  (λ i, N.land (N.shiftr x (8 * N.of_nat i)) 255) <$> rev (seq 0 n).
Definition pad (msg : list N) : list N :=
  let len := length msg in
  let zeros := ((119 - len mod 64) mod 64)%nat in
  (msg ++ [128] ++ replicate zeros 0 ++ be_bytes 8 (8 * N.of_nat len))%list.
Fixpoint words (l : list N) : list N :=
  match l with
  | a :: b :: c :: d :: r =>
      N.lor (N.shiftl a 24) (N.lor (N.shiftl b 16) (N.lor (N.shiftl c 8) d)) :: words r
  | _ => []
  end.

(** The message schedule, last word first: 16 words of the block, then 48 derived ones. *)
Fixpoint schedule (n : nat) (rev_w : list N) : list N :=
  match n with
  | O => rev rev_w
  | S n' =>
      let w i := nth i rev_w 0 in
      schedule n' (add32 (add32 (sigma1 (w 1%nat)) (w 6%nat)) (add32 (sigma0 (w 14%nat)) (w 15%nat)) :: rev_w)
  end.
Definition round (st : list N) (kw : N * N) : list N :=
  match st with
  | [a; b; c; d; e; f; g; h] =>
      let t1 := add32 (add32 (add32 h (Sigma1 e)) (add32 (Ch e f g) kw.1)) kw.2 in
      let t2 := add32 (Sigma0 a) (Maj a b c) in
      [add32 t1 t2; a; b; c; add32 d t1; e; f; g]
  | _ => st
  end.
Definition compress (st block : list N) : list N :=
  zip_with add32 st (foldl round st (zip K (schedule 48 (rev block)))).
Fixpoint blocks (fuel : nat) (st ws : list N) : list N :=
  match fuel, ws with
  | S fuel', _ :: _ => blocks fuel' (compress st (take 16 ws)) (drop 16 ws)
  | _, _ => st
  end.

(** [sha256.Sum256]: every word of the padded message starts at most one block, so its
    length is fuel enough. *)
Definition Sum256 (msg : string) : list N :=
  let ws := words (pad (N_of_ascii <$> bytes msg)) in
  blocks (length ws) H0 ws ≫= be_bytes 4.

(** [hex.EncodeToString] *)
Definition hex_digit (n : N) : ascii := ascii_of_N (if N.ltb n 10 then 48 + n else 87 + n).
Definition EncodeToString (l : list N) : string :=
  of_bytes (l ≫= λ b, [hex_digit (N.shiftr b 4); hex_digit (N.land b 15)]).
Definition hexSum256 (msg : string) : string := EncodeToString (Sum256 msg).

Example Sum256_abc :
  hexSum256 "abc" = "ba7816bf8f01cfea414140de5dae2223b00361a396177a9cb410ff61f20015ad"%string.
Proof. vm_compute. reflexivity. Qed.
Example Sum256_two_blocks :
  hexSum256 "abcdbcdecdefdefgefghfghighijhijkijkljklmklmnlmnomnopnopq" =
  "248d6a61d20638b8e5c026930c3e6039a33ce45964ff2167f6ecedd419db06c1"%string.
Proof. vm_compute. reflexivity. Qed.
(** ** The shape of a digest: 64 lower-case hexadecimal digits *)

Lemma round_length st kw : length st = 8%nat → length (round st kw) = 8%nat.
Proof. intros Hst. do 8 (destruct st as [|? st]; [discriminate|]). destruct st; [reflexivity|discriminate]. Qed.
Lemma compress_length st block : length st = 8%nat → length (compress st block) = 8%nat.
Proof.
  intros Hst. unfold compress. rewrite length_zip_with.
  assert (∀ l s, length s = 8%nat → length (foldl round s l) = 8%nat) as ->; [|by rewrite Hst|done].
  intros l. induction l as [|kw l IH]; intros s Hs; [done|]. apply IH. by apply round_length.
Qed.
Lemma blocks_length fuel st ws : length st = 8%nat → length (blocks fuel st ws) = 8%nat.
Proof.
  revert st ws. induction fuel as [|fuel IH]; intros st ws Hst; [done|].
  destruct ws; [done|]. apply IH. by apply compress_length.
Qed.
Lemma be_bytes_length n x : length (be_bytes n x) = n.
Proof. unfold be_bytes. by rewrite length_fmap, length_rev, length_seq. Qed.
Lemma be_bytes_small n x : Forall (λ b, b < 256) (be_bytes n x).
Proof.
  unfold be_bytes. rewrite Forall_fmap. apply Forall_true. intros i. cbn.
  change 255 with (N.ones 8). rewrite N.land_ones. by apply N.mod_lt.
Qed.
Lemma Sum256_length msg : length (Sum256 msg) = 32%nat.
Proof.
  unfold Sum256. pose proof (blocks_length (length (words (pad (N_of_ascii <$> bytes msg)))) H0
    (words (pad (N_of_ascii <$> bytes msg))) eq_refl) as Hl. revert Hl.
  generalize (blocks (length (words (pad (N_of_ascii <$> bytes msg)))) H0 (words (pad (N_of_ascii <$> bytes msg)))).
  intros l Hl. do 8 (destruct l as [|? l]; [discriminate|]). destruct l; [reflexivity|discriminate].
Qed.
Lemma Sum256_small msg : Forall (λ b, b < 256) (Sum256 msg).
Proof. unfold Sum256. apply Forall_bind, Forall_true. intros w. apply be_bytes_small. Qed.

Definition is_lower_hex (c : ascii) : bool := is_digit c || in_range 97 102 c.

(** One byte and its two digits, checked on every byte. *)
Definition byte_digits_ok (b : N) : bool :=
  is_lower_hex (hex_digit (N.shiftr b 4)) && is_lower_hex (hex_digit (N.land b 15)) &&
  forallb (λ b', N.eqb b b' || negb (Ascii.eqb (hex_digit (N.shiftr b 4)) (hex_digit (N.shiftr b' 4)) &&
                                    Ascii.eqb (hex_digit (N.land b 15)) (hex_digit (N.land b' 15))))
    (N.of_nat <$> seq 0 256).
Lemma all_bytes_listed b : b < 256 → b ∈ N.of_nat <$> seq 0 256.
Proof. intros Hb. apply list_elem_of_fmap. exists (N.to_nat b). split; [lia|]. apply elem_of_seq. lia. Qed.
Lemma byte_digits b : b < 256 → byte_digits_ok b = true.
Proof.
  intros Hb%all_bytes_listed%list_elem_of_In. revert b Hb.
  assert (forallb byte_digits_ok (N.of_nat <$> seq 0 256) = true) as Hall by (vm_compute; reflexivity).
  by apply forallb_forall.
Qed.

Lemma EncodeToString_length l : String.length (EncodeToString l) = (2 * length l)%nat.
Proof.
  unfold EncodeToString. rewrite <-length_bytes, bytes_of_bytes. induction l as [|b l IH]; [done|].
  cbn [mbind list_bind app length]. rewrite IH. lia.
Qed.
Lemma EncodeToString_hex l : Forall (λ b, b < 256) l → all_bytes is_lower_hex (EncodeToString l) = true.
Proof.
  intros Hl. unfold all_bytes, EncodeToString. rewrite bytes_of_bytes. induction Hl as [|b l Hb _ IH]; [done|].
  cbn [mbind list_bind app forallb]. rewrite IH.
  pose proof (byte_digits b Hb) as [[-> ->]%andb_true_iff _]%andb_true_iff. done.
Qed.
Lemma EncodeToString_inj l1 l2 :
  Forall (λ b, b < 256) l1 → Forall (λ b, b < 256) l2 → EncodeToString l1 = EncodeToString l2 → l1 = l2.
Proof.
  intros Hl1 Hl2 Heq%(f_equal bytes). unfold EncodeToString in Heq. rewrite !bytes_of_bytes in Heq.
  revert l2 Hl2 Heq. induction Hl1 as [|b l1 Hb _ IH]; intros l2 Hl2 Heq.
  { destruct l2; [done|discriminate]. }
  destruct Hl2 as [|b' l2 Hb' Hl2]; [discriminate|]. cbn [mbind list_bind app] in Heq.
  injection Heq as Hhi Hlo Heq. f_equal; [|by apply IH].
  pose proof (byte_digits b Hb) as [_ Hall]%andb_true_iff. rewrite forallb_forall in Hall.
  specialize (Hall b' ltac:(apply list_elem_of_In, all_bytes_listed, Hb')).
  rewrite Hhi, Hlo, !Ascii.eqb_refl in Hall. cbn in Hall. rewrite orb_false_r in Hall. by apply N.eqb_eq.
Qed.

Lemma hexSum256_length msg : String.length (hexSum256 msg) = 64%nat.
Proof. unfold hexSum256. by rewrite EncodeToString_length, Sum256_length. Qed.
Lemma hexSum256_hex msg : all_bytes is_lower_hex (hexSum256 msg) = true.
Proof. apply EncodeToString_hex, Sum256_small. Qed.
(** Equal digests of different messages are a collision of [Sum256]. *)
Lemma hexSum256_eq x y : hexSum256 x = hexSum256 y → Sum256 x = Sum256 y.
Proof. apply EncodeToString_inj; apply Sum256_small. Qed.

(** ** Digests and case *)

Section Fold.
Context {unicode : GoUnicode}.

Lemma lower_hex_byte c : is_lower_hex c = true → is_ascii_byte c = true ∧ negb (is_upper c) = true.
Proof. destruct c as [[] [] [] [] [] [] [] []]; vm_compute; auto. Qed.
Lemma lower_hex_text s : all_bytes is_lower_hex s = true → is_ascii s = true ∧ ToLower s = s.
Proof.
  intros Hs. assert (is_ascii s = true) as Ha by (revert Hs; apply all_bytes_impl; intros c Hc; by apply lower_hex_byte in Hc as [? _]).
  split; [done|]. rewrite ToLower_ascii by done. apply map_lower_id. revert Hs. apply all_bytes_impl. intros c Hc. by apply lower_hex_byte in Hc as [_ ?].
Qed.
(** Lower-case digests are compared without case as they are. *)
Lemma hex_fold s t : all_bytes is_lower_hex s = true → all_bytes is_lower_hex t = true → EqualFold s t = true ↔ s = t.
Proof. intros [Hs Ls]%lower_hex_text [Ht Lt]%lower_hex_text. rewrite EqualFold_ascii by done. by rewrite Ls, Lt. Qed.
Lemma fold_sym s t : is_ascii s = true → is_ascii t = true → EqualFold s t = true → EqualFold t s = true.
Proof. intros Hs Ht. rewrite !EqualFold_ascii by done. done. Qed.
End Fold.
#[global] Opaque Sum256.
