(* ===== verification/Json.v ===== *)
(** * [encoding/json]

    The text [json.Marshal] writes for the values the code marshals: the escapes of
    [encodeState.string] with HTML escaping on (Go 1.22 and later), decimal integers,
    arrays and objects without spaces; and the reader of [json.Unmarshal]: white space,
    literals, numbers, escapes with surrogate pairs, replaced bytes, bounded nesting.
    [parse_text_Marshal]: what is marshalled is read back; so ([Marshal_inj]) two different
    values with valid UTF-8 strings never have the same text. *)
From stdpp Require Import base tactics strings list.
From Stdlib Require Import Ascii List.
From Stdlib Require Decimal DecimalFacts DecimalPos DecimalN.
From S2P Require Import Prelude GoStrings Sha256.
Open Scope nat_scope.
Open Scope string_scope.

(** ** UTF-8: the valid multi-byte sequences of [unicode/utf8] *)

Definition cont (c : ascii) : bool := in_range 128 191 c.
Definition rune2 (a b : ascii) : bool := in_range 194 223 a && cont b.
Definition rune3 (a b c : ascii) : bool :=
  (byte_is 224 a && in_range 160 191 b || in_range 225 236 a && cont b ||
   byte_is 237 a && in_range 128 159 b || in_range 238 239 a && cont b) && cont c.
Definition rune4 (a b c d : ascii) : bool :=
  (byte_is 240 a && in_range 144 191 b || in_range 241 243 a && cont b ||
   byte_is 244 a && in_range 128 143 b) && cont c && cont d.

(** [utf8.Valid] *)
Fixpoint valid_bytes (l : list ascii) : bool :=
  match l with
  | [] => true
  | a :: l1 =>
      if is_ascii_byte a then valid_bytes l1
      else match l1 with
           | b :: l2 =>
               if rune2 a b then valid_bytes l2
               else match l2 with
                    | c :: l3 =>
                        if rune3 a b c then valid_bytes l3
                        else match l3 with
                             | d :: l4 => rune4 a b c d && valid_bytes l4
                             | [] => false
                             end
                    | [] => false
                    end
           | [] => false
           end
  end.
Definition utf8_valid (s : string) : bool := valid_bytes (bytes s).

(** ** Strings *)

Definition hex1 (n : N) : ascii := ascii_of_N (if N.ltb n 10 then 48 + n else 87 + n).
Definition html_safe (c : ascii) : bool := in_range 32 127 c && negb (one_of "<>&\" c) && negb (byte_is 34 c).
Definition escape (c : ascii) : list ascii :=
  if html_safe c then [c]
  else if byte_is 92 c || byte_is 34 c then ["\"%char; c]
  else if byte_is 8 c then bytes "\b"
  else if byte_is 12 c then bytes "\f"
  else if byte_is 10 c then bytes "\n"
  else if byte_is 13 c then bytes "\r"
  else if byte_is 9 c then bytes "\t"
  else (bytes "\u00" ++ [hex1 (N.shiftr (N_of_ascii c) 4); hex1 (N.land (N_of_ascii c) 15)])%list.
(** U+2028 and U+2029 are escaped too. *)
Definition escape3 (a b c : ascii) : list ascii :=
  if byte_is 226 a && byte_is 128 b && byte_is 168 c then bytes "\u2028"
  else if byte_is 226 a && byte_is 128 b && byte_is 169 c then bytes "\u2029"
  else [a; b; c].
(** An invalid byte becomes the escape of U+FFFD. *)
Definition replacement : list ascii := bytes "\ufffd".

Fixpoint quote_body (l : list ascii) : list ascii :=
  match l with
  | [] => []
  | a :: l1 =>
      if is_ascii_byte a then escape a ++ quote_body l1
      else match l1 with
           | b :: l2 =>
               if rune2 a b then a :: b :: quote_body l2
               else match l2 with
                    | c :: l3 =>
                        if rune3 a b c then escape3 a b c ++ quote_body l3
                        else match l3 with
                             | d :: l4 =>
                                 if rune4 a b c d then a :: b :: c :: d :: quote_body l4
                                 else replacement ++ quote_body l1
                             | [] => replacement ++ quote_body l1
                             end
                    | [] => replacement ++ quote_body l1
                    end
           | [] => replacement ++ quote_body l1
           end
  end%list.
Definition QUOTE : ascii := ascii_of_N 34.
Definition quote (s : string) : list ascii := (QUOTE :: quote_body (bytes s) ++ [QUOTE])%list.

(** ** Integers ([strconv.Itoa], [fmt.Sprint] of an [int64]) *)

Fixpoint digits (u : Decimal.uint) : list ascii :=
  match u with
  | Decimal.Nil => []
  | Decimal.D0 u => "0"%char :: digits u | Decimal.D1 u => "1"%char :: digits u | Decimal.D2 u => "2"%char :: digits u
  | Decimal.D3 u => "3"%char :: digits u | Decimal.D4 u => "4"%char :: digits u | Decimal.D5 u => "5"%char :: digits u
  | Decimal.D6 u => "6"%char :: digits u | Decimal.D7 u => "7"%char :: digits u | Decimal.D8 u => "8"%char :: digits u
  | Decimal.D9 u => "9"%char :: digits u
  end.
Definition itoa (z : Z) : list ascii :=
  match z with
  | Z0 => ["0"%char]
  | Zpos p => digits (N.to_uint (Npos p))
  | Zneg p => "-"%char :: digits (N.to_uint (Npos p))
  end.
Definition Sprint (z : Z) : string := of_bytes (itoa z).

(** ** The text of a number *)

Definition prepend (p : list ascii) (r : option (list ascii * list ascii)) : option (list ascii * list ascii) :=
  match r with Some (s, rest) => Some (p ++ s, rest)%list | None => None end.
Definition is_exponent (c : ascii) : bool := byte_is 101 c || byte_is 69 c.
Fixpoint digits_of (l : list ascii) : list ascii * list ascii :=
  match l with
  | c :: r => if is_digit c then let '(d, r') := digits_of r in (c :: d, r') else ([], l)
  | [] => ([], [])
  end.
(** At least one digit. *)
Definition some_digits (l : list ascii) : option (list ascii * list ascii) :=
  match digits_of l with ([], _) => None | (d, r) => Some (d, r) end.
Definition scan_integer (l : list ascii) : option (list ascii * list ascii) :=
  match l with
  | c :: r => if byte_is 48 c then Some ([c], r) else some_digits l
  | [] => None
  end.
Definition scan_fraction (l : list ascii) : option (list ascii * list ascii) :=
  match l with
  | c :: r => if byte_is 46 c then prepend [c] (some_digits r) else Some ([], l)
  | [] => Some ([], [])
  end.
Definition scan_exponent (l : list ascii) : option (list ascii * list ascii) :=
  match l with
  | c :: r =>
      if is_exponent c then
        match r with
        | s :: r' => if one_of "+-" s then prepend [c; s] (some_digits r') else prepend [c] (some_digits r)
        | [] => None
        end
      else Some ([], l)
  | [] => Some ([], [])
  end.
(** The text of a number. *)
Definition scan_number (l : list ascii) : option (list ascii * list ascii) :=
  let '(sign, l) := match l with c :: r => if byte_is 45 c then ([c], r) else ([], l) | [] => ([], []) end in
  '(i, l) ← scan_integer l;
  '(f, l) ← scan_fraction l;
  '(e, l) ← scan_exponent l;
  Some (sign ++ i ++ f ++ e, l)%list.

(** [strconv.ParseInt(text, 10, 64)] of the text of a number. *)
Fixpoint uint_of (l : list ascii) : option Decimal.uint :=
  match l with
  | [] => Some Decimal.Nil
  | c :: r =>
      u ← uint_of r;
      match (N_of_ascii c - 48)%N with
      | 0%N => if is_digit c then Some (Decimal.D0 u) else None
      | 1%N => Some (Decimal.D1 u) | 2%N => Some (Decimal.D2 u) | 3%N => Some (Decimal.D3 u)
      | 4%N => Some (Decimal.D4 u) | 5%N => Some (Decimal.D5 u) | 6%N => Some (Decimal.D6 u)
      | 7%N => Some (Decimal.D7 u) | 8%N => Some (Decimal.D8 u) | 9%N => Some (Decimal.D9 u)
      | _ => None
      end
  end.
Definition int_of (text : list ascii) : option Z :=
  match text with
  | c :: r => if byte_is 45 c then u ← uint_of r; Some (- Z.of_N (N.of_uint u))%Z
              else u ← uint_of text; Some (Z.of_N (N.of_uint u))
  | [] => None
  end.
Definition ParseInt (text : list ascii) : option Z :=
  z ← int_of text; if Z.leb (- 2 ^ 63) z && Z.ltb z (2 ^ 63) then Some z else None.

(** The text of a number that is not an integer as Go writes it. *)
Definition other_number (text : string) : bool :=
  bool_decide (scan_number (bytes text) = Some (bytes text, [])) &&
  match int_of (bytes text) with Some z => negb (bool_decide (itoa z = bytes text)) | None => true end.

(** ** Values *)

Inductive json :=
| JNull | JBool (b : bool) | JInt (z : Z) | JNumber (text : string) (valid : other_number text = true) | JString (s : string)
| JArray (l : list json) | JObject (fields : list (string * json)).

Fixpoint join (l : list (list ascii)) : list ascii :=
  match l with
  | [] => []
  | [x] => x
  | x :: l' => (x ++ ","%char :: join l')%list
  end.
Fixpoint render (j : json) : list ascii :=
  match j with
  | JNull => bytes "null"
  | JBool true => bytes "true"
  | JBool false => bytes "false"
  | JInt z => itoa z
  | JNumber text _ => bytes text
  | JString s => quote s
  | JArray l => "["%char :: join (map render l) ++ ["]"%char]
  | JObject fs => "{"%char :: join (map (λ '(k, v), quote k ++ ":"%char :: render v) fs) ++ ["}"%char]
  end%list.
Definition Marshal (j : json) : string := of_bytes (render j).

(** A slice of values: [null] when the slice is nil. *)
Definition nil_or_array (l : list json) : json := match l with [] => JNull | _ => JArray l end.

Example Marshal_ex :
  Marshal (JArray [JObject [("a", JString "<x>"); ("n", JInt (-12)); ("t", JBool true); ("z", JNull)]])
  = of_bytes (bytes "[{" ++ QUOTE :: bytes "a" ++ QUOTE :: bytes ":" ++ QUOTE :: bytes "\u003cx\u003e" ++ QUOTE ::
              bytes "," ++ QUOTE :: bytes "n" ++ QUOTE :: bytes ":-12," ++ QUOTE :: bytes "t" ++ QUOTE ::
              bytes ":true," ++ QUOTE :: bytes "z" ++ QUOTE :: bytes ":null}]")%list.
Proof. vm_compute. reflexivity. Qed.

(** ** Reading: the scanner and the literals of [encoding/json.Unmarshal] *)

Definition hex_digit (c : ascii) : option N :=
  if is_digit c then Some (N_of_ascii c - 48)%N
  else if in_range 97 102 c then Some (N_of_ascii c - 87)%N
  else if in_range 65 70 c then Some (N_of_ascii c - 55)%N
  else None.
(** [getu4] *)
Definition hex4 (a b c d : ascii) : option N :=
  match hex_digit a, hex_digit b, hex_digit c, hex_digit d with
  | Some a, Some b, Some c, Some d => Some (((a * 16 + b) * 16 + c) * 16 + d)%N
  | _, _, _, _ => None
  end.
Definition replacement_char : list ascii := ascii_of_N <$> [239; 191; 189]%N.
(** [utf8.EncodeRune] of a code point below 0x110000 that is not a surrogate. *)
Definition EncodeRune (n : N) : list ascii :=
  let tail k := (128 + N.land (N.shiftr n (6 * k)) 63)%N in
  ascii_of_N <$> (if N.ltb n 128 then [n]
                  else if N.ltb n 2048 then [192 + N.shiftr n 6; tail 0]
                  else if N.ltb n 65536 then [224 + N.shiftr n 12; tail 1; tail 0]
                  else [240 + N.shiftr n 18; tail 2; tail 1; tail 0])%N.
Definition high_surrogate (n : N) : bool := N.leb 55296 n && N.ltb n 56320.
Definition low_surrogate (n : N) : bool := N.leb 56320 n && N.ltb n 57344.
Definition unescape (c : ascii) : ascii :=
  if Ascii.eqb c "b" then ascii_of_N 8 else if Ascii.eqb c "f" then ascii_of_N 12
  else if Ascii.eqb c "n" then ascii_of_N 10 else if Ascii.eqb c "r" then ascii_of_N 13
  else if Ascii.eqb c "t" then ascii_of_N 9 else c.
(** The string up to the closing quote, and what follows it: escapes are resolved, a surrogate
    without its other half and a byte that is not UTF-8 become U+FFFD, control bytes and
    unknown escapes are syntax errors. *)
Fixpoint unquote (l : list ascii) : option (list ascii * list ascii) :=
  match l with
  | [] => None
  | c :: r =>
      if byte_is 34 c then Some ([], r)
      else if byte_is 92 c then
        match r with
        | e :: r1 =>
            if Ascii.eqb e "u" then
              match r1 with
              | h1 :: h2 :: h3 :: h4 :: r2 =>
                  match hex4 h1 h2 h3 h4 with
                  | None => None
                  | Some n =>
                      if high_surrogate n then
                        match r2 with
                        | b :: u :: k1 :: k2 :: k3 :: k4 :: r3 =>
                            match hex4 k1 k2 k3 k4 with
                            | Some m =>
                                if byte_is 92 b && Ascii.eqb u "u" && low_surrogate m
                                then prepend (EncodeRune (65536 + (n - 55296) * 1024 + (m - 56320))%N) (unquote r3)
                                else prepend replacement_char (unquote r2)
                            | None => prepend replacement_char (unquote r2)
                            end
                        | _ => prepend replacement_char (unquote r2)
                        end
                      else if low_surrogate n then prepend replacement_char (unquote r2)
                      else prepend (EncodeRune n) (unquote r2)
                  end
              | _ => None
              end
            else if one_of "bfnrt\/" e || byte_is 34 e then prepend [unescape e] (unquote r1)
            else None
        | [] => None
        end
      else if N.ltb (N_of_ascii c) 32 then None
      else if is_ascii_byte c then prepend [c] (unquote r)
      else
        match r with
        | c2 :: r2 =>
            if rune2 c c2 then prepend [c; c2] (unquote r2)
            else match r2 with
                 | c3 :: r3 =>
                     if rune3 c c2 c3 then prepend [c; c2; c3] (unquote r3)
                     else match r3 with
                          | c4 :: r4 =>
                              if rune4 c c2 c3 c4 then prepend [c; c2; c3; c4] (unquote r4)
                              else prepend replacement_char (unquote r)
                          | [] => prepend replacement_char (unquote r)
                          end
                 | [] => prepend replacement_char (unquote r)
                 end
        | [] => prepend replacement_char (unquote r)
        end
  end.

Lemma unquote_rune a l r :
  is_ascii_byte a = false →
  match l with
  | [b] => rune2 a b
  | [b; c] => negb (rune2 a b) && rune3 a b c
  | [b; c; d] => negb (rune2 a b) && negb (rune3 a b c) && rune4 a b c d
  | _ => false
  end = true → unquote (a :: l ++ r) = prepend (a :: l) (unquote r).
Proof.
  intros Ha. assert (byte_is 34 a = false ∧ byte_is 92 a = false ∧ N.ltb (N_of_ascii a) 32 = false) as (H1 & H2 & H3).
  { unfold is_ascii_byte in Ha. apply N.ltb_ge in Ha. unfold byte_is. rewrite !N.eqb_neq, N.ltb_ge. lia. }
  destruct l as [|b [|c [|d [|]]]]; try done; cbn [app]; cbn [unquote]; rewrite H1, H2, H3, Ha.
  - by intros ->.
  - by intros [->%negb_true_iff ->]%andb_true_iff.
  - by intros [[->%negb_true_iff ->%negb_true_iff]%andb_true_iff ->]%andb_true_iff.
Qed.
Lemma unquote_escape c rest :
  is_ascii_byte c = true → unquote (escape c ++ rest) = prepend [c] (unquote rest).
Proof. destruct c as [[] [] [] [] [] [] [] []]; (discriminate || reflexivity). Qed.
Lemma byte_is_eq n c : byte_is n c = true → c = ascii_of_N n.
Proof. unfold byte_is. intros <-%N.eqb_eq. by rewrite ascii_N_embedding. Qed.
Lemma prepend_app p q r : prepend p (prepend q r) = prepend (p ++ q)%list r.
Proof. destruct r as [[s rest]|]; [|done]. cbn. by rewrite app_assoc. Qed.
Lemma unquote_escape3 a b c rest :
  is_ascii_byte a = false → rune2 a b = false → rune3 a b c = true →
  unquote (escape3 a b c ++ rest) = prepend [a; b; c] (unquote rest).
Proof.
  intros Ha H2 H3. unfold escape3.
  destruct (byte_is 226 a && byte_is 128 b && byte_is 168 c) eqn:H8.
  { apply andb_true_iff in H8 as [[->%byte_is_eq ->%byte_is_eq]%andb_true_iff ->%byte_is_eq]. reflexivity. }
  destruct (byte_is 226 a && byte_is 128 b && byte_is 169 c) eqn:H9.
  { apply andb_true_iff in H9 as [[->%byte_is_eq ->%byte_is_eq]%andb_true_iff ->%byte_is_eq]. reflexivity. }
  apply (unquote_rune a [b; c]); [done|]. by rewrite H2, H3.
Qed.

(** Reading back a quoted valid string gives the string. *)
Lemma unquote_quote_body rest : ∀ l,
  valid_bytes l = true → unquote (quote_body l ++ QUOTE :: rest) = Some (l, rest).
Proof.
  fix IH 1. intros [|a l1]; [done|]. cbn [valid_bytes quote_body].
  destruct (is_ascii_byte a) eqn:Ha.
  { intros Hv. by rewrite <-app_assoc, unquote_escape, IH. }
  destruct l1 as [|b l2]; [done|]. destruct (rune2 a b) eqn:H2.
  { intros Hv. change ((a :: b :: quote_body l2) ++ QUOTE :: rest)%list with (a :: [b] ++ (quote_body l2 ++ QUOTE :: rest))%list.
    by rewrite unquote_rune, IH. }
  destruct l2 as [|c l3]; [done|]. destruct (rune3 a b c) eqn:H3.
  { intros Hv. by rewrite <-app_assoc, unquote_escape3, IH. }
  destruct l3 as [|d l4]; [done|]. destruct (rune4 a b c d) eqn:H4; [|done].
  intros Hv. change ((a :: b :: c :: d :: quote_body l4) ++ QUOTE :: rest)%list
    with (a :: [b; c; d] ++ (quote_body l4 ++ QUOTE :: rest))%list.
  rewrite unquote_rune, IH; [done..|]. by rewrite H2, H3, H4.
Qed.
Lemma unquote_quote s rest : utf8_valid s = true →
  ∃ r, (quote s ++ rest)%list = QUOTE :: r ∧ unquote r = Some (bytes s, rest).
Proof.
  intros Hs. exists (quote_body (bytes s) ++ QUOTE :: rest)%list. split; [|by apply unquote_quote_body].
  unfold quote. by rewrite <-app_comm_cons, <-app_assoc.
Qed.

(** ** Integers are read back *)

(** What may follow a value: nothing, or a separator. *)
Definition stop (r : list ascii) : Prop := match r with [] => True | c :: _ => one_of ",]}" c = true end.

Lemma uint_of_digits u : uint_of (digits u) = Some u.
Proof. induction u as [|u IH|u IH|u IH|u IH|u IH|u IH|u IH|u IH|u IH|u IH]; cbn; [done|by rewrite IH..]. Qed.
Lemma positive_digits p : ∃ c r, digits (Pos.to_uint p) = c :: r ∧ in_range 49 57 c = true.
Proof.
  assert (Pos.to_uint p = Decimal.unorm (Pos.to_uint p)) as Hn.
  { transitivity (N.to_uint (N.of_uint (N.to_uint (Npos p)))); [by rewrite DecimalN.Unsigned.of_to|apply DecimalN.Unsigned.to_of]. }
  destruct (Pos.to_uint p) as [|u|u|u|u|u|u|u|u|u|u] eqn:Hp; try (do 2 eexists; split; reflexivity); exfalso.
  - by apply DecimalPos.Unsigned.to_uint_nonnil in Hp.
  - unfold Decimal.unorm in Hn. cbn [Decimal.nzhead] in Hn.
    destruct (Decimal.nzhead u) eqn:Hz; try discriminate.
    + injection Hn as ->. pose proof (DecimalPos.Unsigned.of_to p) as H. rewrite Hp in H. discriminate H.
    + by apply DecimalFacts.nzhead_nonzero in Hz.
Qed.
Lemma int_of_itoa z : int_of (itoa z) = Some z.
Proof.
  destruct z as [|p|p]; [done|..]; cbn [itoa N.to_uint].
  - destruct (positive_digits p) as (c & r & Hd & Hc). unfold int_of. rewrite Hd.
    assert (byte_is 45 c = false) as ->.
    { unfold byte_is, in_range in *. apply andb_true_iff in Hc as [?%N.leb_le _]. apply N.eqb_neq. lia. }
    rewrite <-Hd, uint_of_digits. cbn. f_equal. change (N.of_uint (Pos.to_uint p)) with (N.of_uint (N.to_uint (Npos p))).
    by rewrite DecimalN.Unsigned.of_to.
  - cbn. rewrite uint_of_digits. cbn. f_equal. change (N.of_uint (Pos.to_uint p)) with (N.of_uint (N.to_uint (Npos p))).
    by rewrite DecimalN.Unsigned.of_to.
Qed.
Lemma itoa_inj x y : itoa x = itoa y → x = y.
Proof. intros H%(f_equal int_of). rewrite !int_of_itoa in H. by injection H. Qed.
Lemma ParseInt_itoa z : (- 2 ^ 63 ≤ z < 2 ^ 63)%Z → ParseInt (itoa z) = Some z.
Proof.
  intros [H1%Z.leb_le H2%Z.ltb_lt]. unfold ParseInt. rewrite int_of_itoa. cbn [mbind option_bind]. by rewrite H1, H2.
Qed.

Lemma digits_of_digits u rest : stop rest → digits_of (digits u ++ rest) = (digits u, rest).
Proof.
  intros Hs. assert (digits_of rest = ([], rest)) as Hr.
  { destruct rest as [|c r]; [done|]. unfold stop in Hs.
    destruct c as [[] [] [] [] [] [] [] []]; (discriminate || reflexivity). }
  induction u as [|u IH|u IH|u IH|u IH|u IH|u IH|u IH|u IH|u IH|u IH]; cbn; [done|by rewrite IH..].
Qed.
Lemma scan_rest rest : stop rest → scan_fraction rest = Some ([], rest) ∧ scan_exponent rest = Some ([], rest).
Proof.
  destruct rest as [|c r]; [done|]. unfold stop.
  destruct c as [[] [] [] [] [] [] [] []]; (discriminate || by split).
Qed.
Lemma scan_positive p rest : stop rest →
  scan_integer (digits (Pos.to_uint p) ++ rest) = Some (digits (Pos.to_uint p), rest).
Proof.
  intros Hs. pose proof (digits_of_digits (Pos.to_uint p) rest Hs) as Hd.
  destruct (positive_digits p) as (c & r & He & Hc). unfold scan_integer, some_digits. rewrite Hd, He. cbn [app].
  unfold byte_is, in_range in *. apply andb_true_iff in Hc as [?%N.leb_le _].
  by rewrite (proj2 (N.eqb_neq _ _)) by lia.
Qed.
Lemma scan_number_itoa z rest : stop rest → scan_number (itoa z ++ rest) = Some (itoa z, rest).
Proof.
  intros Hs. destruct (scan_rest rest Hs) as [Hf He]. unfold scan_number. destruct z as [|p|p].
  - cbn [itoa app]. change (byte_is 45 "0") with false. cbn iota. unfold scan_integer at 1.
    change (byte_is 48 "0") with true. cbn -[scan_fraction scan_exponent]. rewrite Hf. cbn -[scan_exponent]. by rewrite He.
  - destruct (positive_digits p) as (c & r & Hd & Hc). cbn [itoa N.to_uint].
    pose proof (scan_positive p rest Hs) as Hp. rewrite Hd in *. cbn [app] in *.
    assert (byte_is 45 c = false) as ->.
    { unfold byte_is, in_range in *. apply andb_true_iff in Hc as [?%N.leb_le _]. apply N.eqb_neq. lia. }
    rewrite Hp. cbn -[scan_fraction scan_exponent]. rewrite Hf. cbn -[scan_exponent]. rewrite He. cbn. by rewrite app_nil_r.
  - cbn [itoa N.to_uint app]. change (byte_is 45 "-") with true. cbn [mbind option_bind].
    rewrite (scan_positive p rest Hs). cbn -[scan_fraction scan_exponent]. rewrite Hf. cbn -[scan_exponent]. rewrite He. cbn. by rewrite app_nil_r.
Qed.

(** ** Values are read back *)

Section JsonInd.
Context (P : json → Prop) (Hnull : P JNull) (Hbool : ∀ b, P (JBool b)) (Hint : ∀ z, P (JInt z))
  (Hnumber : ∀ text valid, P (JNumber text valid)) (Hstring : ∀ s, P (JString s)) (Harray : ∀ l, Forall P l → P (JArray l))
  (Hobject : ∀ fs, Forall (λ f, P f.2) fs → P (JObject fs)).
Fixpoint json_nested_ind (j : json) : P j :=
  match j with
  | JNull => Hnull
  | JBool b => Hbool b
  | JInt z => Hint z
  | JNumber text valid => Hnumber text valid
  | JString s => Hstring s
  | JArray l => Harray l ((fix go l : Forall P l :=
      match l with [] => Forall_nil_2 _ | j :: l' => Forall_cons_2 _ _ _ (json_nested_ind j) (go l') end) l)
  | JObject fs => Hobject fs ((fix go fs : Forall (λ f, P f.2) fs :=
      match fs with [] => Forall_nil_2 _ | f :: fs' => Forall_cons_2 _ _ _ (json_nested_ind f.2) (go fs') end) fs)
  end.
End JsonInd.

(** Every string of the value is valid UTF-8. *)
Fixpoint json_utf8 (j : json) : bool :=
  match j with
  | JString s => utf8_valid s
  | JArray l => forallb json_utf8 l
  | JObject fs => forallb (λ '(k, v), utf8_valid k && json_utf8 v) fs
  | _ => true
  end.

(** What follows the first element of a sequence. *)
Fixpoint tail_items {A} (enc : A → list ascii) (l : list A) (rest : list ascii) : list ascii :=
  match l with [] => rest | x :: l' => ","%char :: enc x ++ tail_items enc l' rest end%list.
Lemma join_tail {A} (enc : A → list ascii) x l rest :
  (join (map enc (x :: l)) ++ rest)%list = (enc x ++ tail_items enc l rest)%list.
Proof.
  revert x. induction l as [|y l IH]; intros x; [done|]. cbn [tail_items]. rewrite <-IH.
  change (join (map enc (x :: y :: l))) with (enc x ++ ","%char :: join (map enc (y :: l)))%list.
  by rewrite <-app_assoc.
Qed.
Lemma tail_stop {A} (enc : A → list ascii) l close r :
  one_of "]}" close = true → stop (tail_items enc l (close :: r)).
Proof. destruct l; [|done]. unfold one_of. cbn. intros ->. by rewrite orb_true_r. Qed.

(** ** Reading values

    [parse_value] reads one value and returns what follows it.  [room] bounds the nesting and
    [fuel] the calls; [parse_fuel] shows that twice the length of the text is enough. *)

Inductive jvalue :=
| VNull | VBool (b : bool) | VNumber (text : list ascii) | VString (s : string)
| VArray (l : list jvalue) | VObject (fields : list (string * jvalue)).

Definition is_blank (c : ascii) : bool := byte_is 32 c || byte_is 9 c || byte_is 10 c || byte_is 13 c.
Fixpoint skip_blank (l : list ascii) : list ascii :=
  match l with c :: r => if is_blank c then skip_blank r else l | [] => [] end.
Definition literal (word : string) (v : jvalue) (l : list ascii) : option (jvalue * list ascii) :=
  if bool_decide (take (String.length word) l = bytes word) then Some (v, drop (String.length word) l) else None.

Fixpoint parse_value (fuel : nat) (room : N) (l : list ascii) : option (jvalue * list ascii) :=
  match fuel with
  | 0 => None
  | S fuel =>
      match skip_blank l with
      | [] => None
      | c :: r =>
          if byte_is 34 c then '(s, rest) ← unquote r; Some (VString (of_bytes s), rest)
          else if byte_is 91 c then
            if N.eqb room 0 then None
            else match skip_blank r with
                 | d :: r' =>
                     if byte_is 93 d then Some (VArray [], r')
                     else '(vs, rest) ← parse_elements fuel (room - 1) r; Some (VArray vs, rest)
                 | [] => None
                 end
          else if byte_is 123 c then
            if N.eqb room 0 then None
            else match skip_blank r with
                 | d :: r' =>
                     if byte_is 125 d then Some (VObject [], r')
                     else '(fs, rest) ← parse_members fuel (room - 1) r; Some (VObject fs, rest)
                 | [] => None
                 end
          else if byte_is 110 c then literal "null" VNull (c :: r)
          else if byte_is 116 c then literal "true" (VBool true) (c :: r)
          else if byte_is 102 c then literal "false" (VBool false) (c :: r)
          else '(text, rest) ← scan_number (c :: r); Some (VNumber text, rest)
      end
  end
with parse_elements (fuel : nat) (room : N) (l : list ascii) : option (list jvalue * list ascii) :=
  match fuel with
  | 0 => None
  | S fuel =>
      '(v, rest) ← parse_value fuel room l;
      match skip_blank rest with
      | c :: r =>
          if byte_is 44 c then '(vs, rest) ← parse_elements fuel room r; Some (v :: vs, rest)
          else if byte_is 93 c then Some ([v], r)
          else None
      | [] => None
      end
  end
with parse_members (fuel : nat) (room : N) (l : list ascii) : option (list (string * jvalue) * list ascii) :=
  match fuel with
  | 0 => None
  | S fuel =>
      match skip_blank l with
      | c :: r =>
          if negb (byte_is 34 c) then None
          else
            '(key, rest) ← unquote r;
            match skip_blank rest with
            | c :: r =>
                if negb (byte_is 58 c) then None
                else
                  '(v, rest) ← parse_value fuel room r;
                  match skip_blank rest with
                  | c :: r =>
                      if byte_is 44 c then '(fs, rest) ← parse_members fuel room r; Some ((of_bytes key, v) :: fs, rest)
                      else if byte_is 125 c then Some ([(of_bytes key, v)], r)
                      else None
                  | [] => None
                  end
            | [] => None
            end
      | [] => None
      end
  end.

Definition maxNestingDepth : N := 10000.
(** The value a text holds, if it is one value and white space. *)
Definition parse_text (room : N) (s : string) : option jvalue :=
  match parse_value (2 * String.length s + 1) room (bytes s) with
  | Some (v, rest) => match skip_blank rest with [] => Some v | _ => None end
  | None => None
  end.
Definition read_json (s : string) : option jvalue := parse_text maxNestingDepth s.

(** ** The fuel is enough *)

Open Scope nat_scope.

Lemma skip_length l : length (skip_blank l) ≤ length l.
Proof. induction l as [|c l IH]; cbn; [done|]. destruct (is_blank c); cbn; lia. Qed.
Lemma unquote_length : ∀ l s rest, unquote l = Some (s, rest) → length rest < length l.
Proof.
  assert (∀ p o s rest, prepend p o = Some (s, rest) → ∃ s', o = Some (s', rest)) as Hp.
  { intros p [[s' r]|] s rest; [|done]. cbn. intros [= _ <-]. by exists s'. }
  intros l. remember (length l) as k eqn:Hk. revert l Hk.
  induction k as [k IH] using lt_wf_ind. intros [|c l] Hk s rest; [done|]. cbn [unquote]. cbn [length] in Hk. intros H.
  assert (∀ l' s', length l' < k → unquote l' = Some (s', rest) → length rest < length l') as IH' by (intros l' s' Hl; by eapply IH).
  clear IH.
  repeat (match goal with
    | H : (if ?b then _ else _) = Some _ |- _ => destruct b
    | H : match ?l with [] => _ | _ :: _ => _ end = Some _ |- _ => destruct l
    | H : match ?o with Some _ => _ | None => _ end = Some _ |- _ => destruct o
    end); try discriminate; try (injection H as _ <-; lia);
  apply Hp in H as (s' & H); apply IH' in H; cbn [length] in *; lia.
Qed.
Lemma digits_of_length l : length (digits_of l).2 ≤ length l ∧ ((digits_of l).1 ≠ [] → length (digits_of l).2 < length l).
Proof. induction l as [|c l IH]; cbn; [done|]. destruct (is_digit c); [|done]. destruct (digits_of l). cbn in *. lia. Qed.
Lemma some_digits_length l d r : some_digits l = Some (d, r) → length r < length l.
Proof.
  unfold some_digits. pose proof (digits_of_length l) as [_ H]. destruct (digits_of l) as [[|x d'] r'] eqn:He; [done|].
  intros [= _ <-]. by apply H.
Qed.
Lemma scan_number_length l d r : scan_number l = Some (d, r) → length r < length l.
Proof.
  assert (∀ l d r, scan_integer l = Some (d, r) → length r < length l) as Hi.
  { intros [|c l'] d' r'; [done|]. unfold scan_integer. destruct (byte_is 48 c); [intros [= _ <-]; cbn; lia|apply some_digits_length]. }
  assert (∀ p l d r, prepend p (some_digits l) = Some (d, r) → length r < length l) as Hd.
  { intros p l' d' r'. destruct (some_digits l') as [[s r0]|] eqn:He; [|done]. intros [= _ <-]. by eapply some_digits_length. }
  assert (∀ l d r, scan_fraction l = Some (d, r) → length r ≤ length l) as Hf.
  { intros [|c l'] d' r'; [by intros [= _ <-]|]. unfold scan_fraction. destruct (byte_is 46 c); [|by intros [= _ <-]].
    intros ?%Hd. cbn. lia. }
  assert (∀ l d r, scan_exponent l = Some (d, r) → length r ≤ length l) as He.
  { intros [|c l'] d' r'; [by intros [= _ <-]|]. unfold scan_exponent. destruct (is_exponent c); [|by intros [= _ <-]].
    destruct l' as [|s l']; [done|]. destruct (one_of "+-" s); intros ?%Hd; cbn in *; lia. }
  unfold scan_number. set (sl := match l with c :: r => if byte_is 45 c then ([c], r) else ([], l) | [] => ([], []) end).
  assert (length sl.2 ≤ length l) as Hl by (destruct l as [|c l]; cbn; [done|]; destruct (byte_is 45 c); cbn; lia).
  destruct sl as [sign l1]. intros H.
  apply bind_Some in H as ([i l2] & H2 & H). apply bind_Some in H as ([f l3] & H3 & H).
  apply bind_Some in H as ([e l4] & H4 & H). injection H as _ <-.
  apply Hi in H2. apply Hf in H3. apply He in H4. cbn in Hl. lia.
Qed.
Lemma literal_length w v l v' r : w ≠ "" → literal w v l = Some (v', r) → length r < length l.
Proof.
  unfold literal. intros Hw. case_bool_decide as Ht; [|done]. intros [= _ <-]. apply (f_equal length) in Ht.
  rewrite length_take, length_bytes in Ht. rewrite length_drop.
  assert (String.length w ≠ 0) by (destruct w; [done|discriminate]). lia.
Qed.

Lemma parse_length n :
  (∀ room l v rest, parse_value n room l = Some (v, rest) → length rest < length l) ∧
  (∀ room l v rest, parse_elements n room l = Some (v, rest) → length rest < length l) ∧
  (∀ room l v rest, parse_members n room l = Some (v, rest) → length rest < length l).
Proof.
  induction n as [|n (IHp & IHe & IHm)]; [done|].
  split; [|split]; intros room l v rest H; pose proof (skip_length l) as Hl.
  - cbn [parse_value] in H. destruct (skip_blank l) as [|c r]; [done|]. cbn in Hl. pose proof (skip_length r).
    destruct (byte_is 34 c). { apply bind_Some in H as ([s r1] & H1%unquote_length & [= _ <-]). lia. }
    destruct (byte_is 91 c).
    { destruct (N.eqb room 0); [done|]. destruct (skip_blank r) as [|d r'] eqn:Hr; [done|]. cbn in *.
      destruct (byte_is 93 d); [injection H as _ <-; lia|]. apply bind_Some in H as ([s r1] & H1%IHe & [= _ <-]). lia. }
    destruct (byte_is 123 c).
    { destruct (N.eqb room 0); [done|]. destruct (skip_blank r) as [|d r'] eqn:Hr; [done|]. cbn in *.
      destruct (byte_is 125 d); [injection H as _ <-; lia|]. apply bind_Some in H as ([s r1] & H1%IHm & [= _ <-]). lia. }
    destruct (byte_is 110 c); [apply literal_length in H; cbn in *; [lia|done]|].
    destruct (byte_is 116 c); [apply literal_length in H; cbn in *; [lia|done]|].
    destruct (byte_is 102 c); [apply literal_length in H; cbn in *; [lia|done]|].
    apply bind_Some in H as ([s r1] & H1%scan_number_length & [= _ <-]). cbn in *. lia.
  - cbn [parse_elements] in H. apply bind_Some in H as ([x r1] & H1%IHp & H). pose proof (skip_length r1).
    destruct (skip_blank r1) as [|c r]; [done|]. cbn in *. destruct (byte_is 44 c).
    { apply bind_Some in H as ([s r2] & H2%IHe & [= _ <-]). lia. }
    destruct (byte_is 93 c); [injection H as _ <-; lia|done].
  - cbn [parse_members] in H. destruct (skip_blank l) as [|c r]; [done|]. destruct (byte_is 34 c); [|done]. cbn in *.
    apply bind_Some in H as ([key r1] & H1%unquote_length & H). pose proof (skip_length r1).
    destruct (skip_blank r1) as [|c1 r2]; [done|]. destruct (byte_is 58 c1); [|done]. cbn in *.
    apply bind_Some in H as ([x r3] & H3%IHp & H). pose proof (skip_length r3).
    destruct (skip_blank r3) as [|c2 r4]; [done|]. cbn in *. destruct (byte_is 44 c2).
    { apply bind_Some in H as ([s r5] & H5%IHm & [= _ <-]). lia. }
    destruct (byte_is 125 c2); [injection H as _ <-; lia|done].
Qed.

(** More fuel than twice the length of the text changes nothing. *)
Lemma parse_fuel n : ∀ m,
  n ≤ m →
  (∀ room l, 2 * length l + 1 ≤ n → parse_value n room l = parse_value m room l) ∧
  (∀ room l, 2 * length l + 2 ≤ n → parse_elements n room l = parse_elements m room l) ∧
  (∀ room l, 2 * length l + 2 ≤ n → parse_members n room l = parse_members m room l).
Proof.
  induction n as [|n IH]; intros m Hm; [split; [|split]; intros; lia|].
  destruct m as [|m]; [lia|]. destruct (IH m) as (IHp & IHe & IHm); [lia|].
  split; [|split]; intros room l Hn; pose proof (skip_length l) as Hl.
  - cbn [parse_value]. destruct (skip_blank l) as [|c r]; [done|]. cbn in Hl.
    rewrite <-IHe, <-IHm by lia. done.
  - cbn [parse_elements]. rewrite <-IHp by lia. destruct (parse_value n room l) as [[v r1]|] eqn:Hp; [|done]. cbn.
    apply parse_length in Hp. pose proof (skip_length r1). destruct (skip_blank r1) as [|c r]; [done|]. cbn in *.
    by rewrite <-IHe by lia.
  - cbn [parse_members]. destruct (skip_blank l) as [|c r]; [done|]. destruct (negb _); [done|]. cbn in *.
    destruct (unquote r) as [[key r1]|] eqn:Hu; [|done]. apply unquote_length in Hu. cbn. pose proof (skip_length r1).
    destruct (skip_blank r1) as [|c1 r2]; [done|]. destruct (negb _); [done|]. cbn in *. rewrite <-IHp by lia.
    destruct (parse_value n room r2) as [[v r3]|] eqn:Hp; [|done]. apply parse_length in Hp. cbn. pose proof (skip_length r3).
    destruct (skip_blank r3) as [|c2 r4]; [done|]. cbn in *. by rewrite <-IHm by lia.
Qed.

(** ** What was marshalled is read back *)

Fixpoint to_value (j : json) : jvalue :=
  match j with
  | JNull => VNull | JBool b => VBool b | JInt z => VNumber (itoa z) | JNumber text _ => VNumber (bytes text) | JString s => VString s
  | JArray l => VArray (map to_value l)
  | JObject fs => VObject (map (λ '(k, v), (k, to_value v)) fs)
  end.
(** The nesting of a value. *)
Fixpoint json_depth (j : json) : N :=
  match j with
  | JArray l => 1 + foldr (λ j n, N.max (json_depth j) n) 0 l
  | JObject fs => 1 + foldr (λ '(_, j) n, N.max (json_depth j) n) 0 fs
  | _ => 0
  end%N.

(** Scanning a number goes on as it does without what follows. *)
Lemma digits_of_rest rest l : stop rest → digits_of (l ++ rest) = let '(d, r) := digits_of l in (d, r ++ rest)%list.
Proof.
  intros Hs. pose proof (digits_of_digits Decimal.Nil rest Hs) as Hr. cbn in Hr. induction l as [|c l IH]; cbn [app digits_of]; [done|].
  destruct (is_digit c); [|done]. rewrite IH. by destruct (digits_of l).
Qed.
Lemma some_digits_rest rest l d r : stop rest → some_digits l = Some (d, r) → some_digits (l ++ rest) = Some (d, r ++ rest)%list.
Proof. intros Hs. unfold some_digits. rewrite digits_of_rest by done. by destruct (digits_of l) as [[|] ?]; intros [= <- <-]. Qed.
Lemma prepend_is_Some p x d r : prepend p x = Some (d, r) → ∃ d', x = Some (d', r) ∧ d = (p ++ d')%list.
Proof. destruct x as [[s t]|]; [|done]. intros [= <- <-]. by exists s. Qed.
Lemma scan_number_rest rest l d r : stop rest → scan_number l = Some (d, r) → scan_number (l ++ rest) = Some (d, r ++ rest)%list.
Proof.
  intros Hs. destruct (scan_rest rest Hs) as [Hf He]. unfold scan_number.
  assert (∀ l i l1, scan_integer l = Some (i, l1) → scan_integer (l ++ rest) = Some (i, l1 ++ rest)%list) as Hint.
  { intros [|c l0] i l1; [done|]. cbn [scan_integer app]. destruct (byte_is 48 c); [by intros [= <- <-]|]. by apply (some_digits_rest rest (c :: l0)). }
  assert (∀ l f l1, scan_fraction l = Some (f, l1) → scan_fraction (l ++ rest) = Some (f, l1 ++ rest)%list) as Hfrac.
  { intros [|c l0] f l1; [intros [= <- <-]; exact Hf|]. cbn [scan_fraction app]. destruct (byte_is 46 c); [|by intros [= <- <-]].
    intros (d' & Hd & ->)%prepend_is_Some. by rewrite (some_digits_rest rest l0 d' l1). }
  assert (∀ l e l1, scan_exponent l = Some (e, l1) → scan_exponent (l ++ rest) = Some (e, l1 ++ rest)%list) as Hexp.
  { intros [|c l0] e l1; [intros [= <- <-]; exact He|]. cbn [scan_exponent app]. destruct (is_exponent c); [|by intros [= <- <-]].
    destruct l0 as [|s l0]; [done|]. cbn [app]. destruct (one_of "+-" s); intros (d' & Hd & ->)%prepend_is_Some.
    - by rewrite (some_digits_rest rest l0 d' l1).
    - by rewrite (some_digits_rest rest (s :: l0) d' l1 Hs Hd : some_digits (s :: l0 ++ rest) = _). }
  assert (∃ sign l0, (match l with c :: r => if byte_is 45 c then ([c], r) else ([], l) | [] => ([], []) end) = (sign, l0) ∧
    (l0 ≠ [] → match (l ++ rest)%list with c :: r => if byte_is 45 c then ([c], r) else ([], (l ++ rest)%list) | [] => ([], []) end = (sign, l0 ++ rest)%list)) as (sign & l0 & -> & Hsign).
  { destruct l as [|c l]; [by exists [], []|]. cbn [app]. destruct (byte_is 45 c); do 2 eexists; by split. }
  intros ([i l1] & Hi & Hrest)%bind_Some. rewrite Hsign; [|by intros ->]. rewrite (Hint _ _ _ Hi). cbn [mbind option_bind].
  apply bind_Some in Hrest as ([f l2] & Hfr & Hrest). rewrite (Hfrac _ _ _ Hfr). cbn [mbind option_bind].
  apply bind_Some in Hrest as ([e l3] & Hex & [= <- <-]). rewrite (Hexp _ _ _ Hex). done.
Qed.
Lemma other_number_scan text rest : other_number text = true → stop rest → scan_number (bytes text ++ rest) = Some (bytes text, rest).
Proof.
  intros [Hn%bool_decide_eq_true _]%andb_true_iff Hs. by rewrite (scan_number_rest rest _ _ _ Hs Hn).
Qed.
Lemma other_number_int text z : other_number text = true → itoa z ≠ bytes text.
Proof. intros [_ Hz]%andb_true_iff Heq. rewrite <-Heq, int_of_itoa, bool_decide_eq_true_2 in Hz; done. Qed.
(** A number starts with a digit or a minus sign. *)
Lemma number_starts text : other_number text = true → ∃ c r, bytes text = c :: r ∧ (is_digit c || byte_is 45 c) = true.
Proof.
  intros [Hn%bool_decide_eq_true _]%andb_true_iff. destruct (bytes text) as [|c r]; [done|]. exists c, r. split; [done|].
  unfold scan_number in Hn. destruct (byte_is 45 c) eqn:H45; [by rewrite orb_true_r|]. rewrite orb_false_r. cbn [scan_integer] in Hn.
  destruct (byte_is 48 c) eqn:H48.
  - unfold is_digit, in_range, byte_is in *. apply N.eqb_eq in H48. by rewrite H48.
  - unfold some_digits in Hn. cbn [digits_of] in Hn. destruct (is_digit c); [done|]. done.
Qed.
Lemma number_start_stops c : (is_digit c || byte_is 45 c) = true → negb (is_blank c || one_of "]}" c) = true.
Proof. destruct c as [[] [] [] [] [] [] [] []]; (discriminate || reflexivity). Qed.

Definition starts_with (p : ascii → bool) (l : list ascii) : Prop := ∃ c r, l = c :: r ∧ p c = true.
Lemma render_starts j : starts_with (λ c, negb (is_blank c || one_of "]}" c)) (render j).
Proof.
  destruct j as [|[]|z|t Ht|s|l|fs]; try (do 2 eexists; split; reflexivity).
  2: { destruct (number_starts t Ht) as (c & r & Hc & Hb). exists c, r. split; [exact Hc|]. by apply number_start_stops. }
  destruct z as [|p|p]; [do 2 eexists; split; reflexivity| |do 2 eexists; split; reflexivity].
  destruct (positive_digits p) as (c & r & Hd & Hc). exists c, r. split; [exact Hd|].
  clear Hd. destruct c as [[] [] [] [] [] [] [] []]; (discriminate || reflexivity).
Qed.
Lemma itoa_number z : ∃ c r, itoa z = c :: r ∧ (is_digit c || byte_is 45 c) = true.
Proof.
  destruct z as [|p|p]; [do 2 eexists; split; reflexivity| |do 2 eexists; split; reflexivity].
  destruct (positive_digits p) as (c & r & Hd & Hc). exists c, r. split; [exact Hd|].
  clear Hd. destruct c as [[] [] [] [] [] [] [] []]; (discriminate || reflexivity).
Qed.
Lemma skip_nonblank c r : is_blank c = false → skip_blank (c :: r) = c :: r.
Proof. cbn. by intros ->. Qed.
Lemma skip_render j rest : skip_blank (render j ++ rest) = (render j ++ rest)%list.
Proof.
  destruct (render_starts j) as (c & r & -> & Hc). apply skip_nonblank. by apply negb_true_iff, orb_false_iff in Hc as [].
Qed.

Definition reads_back (j : json) : Prop := ∀ n room rest,
  json_utf8 j = true → (json_depth j ≤ room)%N → stop rest → 2 * length (render j) + 1 ≤ n →
  parse_value n room (render j ++ rest) = Some (to_value j, rest).

Lemma elements_read l : ∀ x n room rest,
  Forall reads_back (x :: l) → forallb json_utf8 (x :: l) = true →
  (foldr (λ j n, N.max (json_depth j) n) 0 (x :: l) ≤ room)%N →
  2 * length (join (map render (x :: l))) + 2 ≤ n →
  parse_elements n room (join (map render (x :: l)) ++ "]"%char :: rest) = Some (map to_value (x :: l), rest).
Proof.
  induction l as [|y l IH]; intros x n room rest Hr Hu Hd Hn;
    apply Forall_cons_1 in Hr as [Hx Hr]; cbn [forallb foldr] in Hu, Hd; apply andb_true_iff in Hu as [Hux Hu];
    rewrite (join_tail render x); (destruct n as [|n]; [lia|]); cbn [parse_elements].
  - cbn in Hn. rewrite Hx; [done|done|lia|done|lia].
  - assert (length (join (map render (x :: y :: l))) = length (render x) + S (length (join (map render (y :: l))))) as Hlen.
    { change (join (map render (x :: y :: l))) with (render x ++ ","%char :: join (map render (y :: l)))%list.
      by rewrite length_app. }
    rewrite Hlen in Hn. rewrite Hx; [|done|lia|by apply tail_stop|lia]. cbn [mbind option_bind tail_items skip_blank].
    change (is_blank ",") with false. cbn iota. change (byte_is 44 ",") with true. cbn iota.
    rewrite <-(join_tail render y), IH; [done|done|done|cbn [foldr]; lia|lia].
Qed.
Definition render_field (f : string * json) : list ascii := (quote f.1 ++ ":"%char :: render f.2)%list.
Lemma render_object fs : render (JObject fs) = ("{"%char :: join (map render_field fs) ++ ["}"%char])%list.
Proof. cbn [render]. do 3 f_equal. apply map_ext. by intros []. Qed.
Lemma members_read l : ∀ f n room rest,
  Forall (λ f, reads_back f.2) (f :: l) → forallb (λ '(k, v), utf8_valid k && json_utf8 v) (f :: l) = true →
  (foldr (λ '(_, j) n, N.max (json_depth j) n) 0 (f :: l) ≤ room)%N →
  2 * length (join (map render_field (f :: l))) + 2 ≤ n →
  parse_members n room (join (map render_field (f :: l)) ++ "}"%char :: rest)
    = Some (map (λ '(k, v), (k, to_value v)) (f :: l), rest).
Proof.
  induction l as [|g l IH]; intros [k x] n room rest Hr Hu Hd Hn;
    apply Forall_cons_1 in Hr as [Hx Hr]; cbn [forallb foldr snd] in Hu, Hd, Hx;
    apply andb_true_iff in Hu as [[Hk Hux]%andb_true_iff Hu]; rewrite (join_tail render_field (k, x));
    (destruct n as [|n]; [lia|]); cbn [parse_members]; unfold render_field at 1; cbn [fst snd];
    rewrite <-app_assoc, <-app_comm_cons;
    match goal with |- context [(quote k ++ ?t)%list] => destruct (unquote_quote k t Hk) as (r & -> & Hread) end;
    rewrite skip_nonblank by done; change (negb (byte_is 34 QUOTE)) with false; cbn iota;
    rewrite Hread; cbn [mbind option_bind]; rewrite skip_nonblank by done;
    change (negb (byte_is 58 ":")) with false; cbn iota; cbn [tail_items].
  - unfold render_field in Hn. cbn in Hn. rewrite length_app in Hn. cbn in Hn.
    rewrite Hx; [|done|lia|done|lia]. cbn. by rewrite of_bytes_bytes.
  - assert (length (join (map render_field ((k, x) :: g :: l)))
      = length (quote k) + S (length (render x)) + S (length (join (map render_field (g :: l))))) as Hlen.
    { change (join (map render_field ((k, x) :: g :: l)))
        with (render_field (k, x) ++ ","%char :: join (map render_field (g :: l)))%list.
      unfold render_field at 1. rewrite !length_app. cbn. lia. }
    rewrite Hlen in Hn. rewrite Hx; [|done|lia|done|lia]. cbn [mbind option_bind]. rewrite skip_nonblank by done.
    change (byte_is 44 ",") with true. cbn iota.
    rewrite <-(join_tail render_field g), IH; [cbn; by rewrite of_bytes_bytes|done|done|cbn [foldr]; lia|lia].
Qed.

Lemma parse_number n room t rest : (∃ c r, t = c :: r ∧ (is_digit c || byte_is 45 c) = true) → scan_number (t ++ rest) = Some (t, rest) →
  parse_value (S n) room (t ++ rest) = Some (VNumber t, rest).
Proof.
  intros (c & r & -> & Hb) Hz. cbn [parse_value app] in *. rewrite skip_nonblank by (by apply number_start_stops, negb_true_iff, orb_false_iff in Hb as []).
  assert (∀ k, k ∈ [34; 91; 123; 110; 116; 102]%N → byte_is k c = false) as Hno.
  { intros k Hk. unfold byte_is. apply N.eqb_neq. intros Heq. unfold is_digit, in_range, byte_is in Hb.
    rewrite Heq in Hb. revert Hb. repeat (apply elem_of_cons in Hk as [->|Hk]; [done|]). by apply not_elem_of_nil in Hk. }
  rewrite !Hno by (rewrite !elem_of_cons; tauto). by rewrite Hz.
Qed.
(** The text of a value is read back, whatever follows it. *)
Lemma parse_render j : reads_back j.
Proof.
  induction j as [|b|z|t Ht|s|l IH|fs IH] using json_nested_ind; intros n room rest Hu Hd Hs Hn;
    (destruct n as [|n]; [lia|]); cbn [parse_value].
  - done.
  - by destruct b.
  - change (parse_value (S n) room (itoa z ++ rest) = Some (VNumber (itoa z), rest)). apply parse_number; [apply itoa_number|by apply scan_number_itoa].
  - change (parse_value (S n) room (bytes t ++ rest) = Some (VNumber (bytes t), rest)). apply parse_number; [by apply number_starts|by apply other_number_scan].
  - destruct (unquote_quote s rest Hu) as (r & Hq & Hr). cbn [render]. rewrite Hq, skip_nonblank by done.
    change (byte_is 34 QUOTE) with true. cbn iota. rewrite Hr. cbn. by rewrite of_bytes_bytes.
  - cbn [render to_value json_depth json_utf8] in *. rewrite <-app_comm_cons, <-app_assoc, skip_nonblank by done. cbn [app].
    change (byte_is 34 "[") with false. change (byte_is 91 "[") with true. cbn iota.
    rewrite (proj2 (N.eqb_neq room 0)) by lia. cbn [length] in Hn. rewrite length_app in Hn. cbn in Hn.
    destruct l as [|x l]; [done|].
    destruct (render_starts x) as (c & r & Hx & [Hb Hc]%negb_true_iff%orb_false_iff).
    pose proof (join_tail render x l ("]"%char :: rest)) as Hj. rewrite Hx in Hj. cbn [app] in Hj.
    rewrite Hj at 1. rewrite skip_nonblank by done.
    assert (byte_is 93 c = false) as -> by (clear - Hc; destruct c as [[] [] [] [] [] [] [] []]; (discriminate || reflexivity)).
    rewrite elements_read; [done|done|done|lia|lia].
  - rewrite render_object in *. cbn [to_value json_depth json_utf8] in *. rewrite <-app_comm_cons, <-app_assoc, skip_nonblank by done.
    cbn [app]. change (byte_is 34 "{") with false. change (byte_is 91 "{") with false. change (byte_is 123 "{") with true. cbn iota.
    rewrite (proj2 (N.eqb_neq room 0)) by lia. cbn [length] in Hn. rewrite length_app in Hn. cbn in Hn.
    destruct fs as [|[k x] fs]; [done|].
    pose proof (join_tail render_field (k, x) fs ("}"%char :: rest)) as Hj. unfold render_field at 2 in Hj. cbn [fst snd] in Hj.
    unfold quote in Hj. cbn [app] in Hj. rewrite Hj at 1. rewrite skip_nonblank by done.
    change (byte_is 125 QUOTE) with false. cbn iota. rewrite members_read; [done|done|done|lia|lia].
Qed.

(** [Unmarshal] of the text of a value that is not nested too deeply. *)
Lemma parse_text_Marshal room j : json_utf8 j = true → (json_depth j ≤ room)%N → parse_text room (Marshal j) = Some (to_value j).
Proof.
  intros Hu Hd. unfold parse_text, Marshal. rewrite bytes_of_bytes.
  pose proof (parse_render j (2 * String.length (of_bytes (render j)) + 1) room [] Hu Hd I) as H.
  rewrite app_nil_r in H. rewrite H; [done|]. by rewrite <-length_bytes, bytes_of_bytes.
Qed.
Lemma JNumber_eq t t' (H : other_number t = true) (H' : other_number t' = true) : t = t' → JNumber t H = JNumber t' H'.
Proof. intros ->. f_equal. apply (proof_irrel H H'). Qed.
Lemma to_value_inj x : ∀ y, to_value x = to_value y → x = y.
Proof.
  induction x as [|b|z|t Ht|s|l IH|fs IH] using json_nested_ind; intros []; try discriminate; cbn [to_value]; intros Heq;
    try congruence; injection Heq as Heq.
  - by apply itoa_inj in Heq as ->.
  - by apply other_number_int in Heq.
  - symmetry in Heq. by apply other_number_int in Heq.
  - by apply JNumber_eq, bytes_inj.
  - f_equal. revert l0 Heq. induction IH as [|x l Hx _ IHl]; intros [|y l']; try discriminate; [done|].
    cbn. intros [= H1 H2]. by rewrite (Hx _ H1), (IHl _ H2).
  - f_equal. revert fields Heq. induction IH as [|[k x] l Hx _ IHl]; intros [|[k' y] l']; try discriminate; [done|].
    cbn in *. intros [= -> H1 H2]. by rewrite (Hx _ H1), (IHl _ H2).
Qed.

(** Two values with valid UTF-8 strings and the same text are the same value. *)
Lemma Marshal_inj x y : json_utf8 x = true → json_utf8 y = true → Marshal x = Marshal y → x = y.
Proof.
  intros Hx Hy Heq. apply to_value_inj, Some_inj.
  rewrite <-(parse_text_Marshal (N.max (json_depth x) (json_depth y)) x), <-(parse_text_Marshal (N.max (json_depth x) (json_depth y)) y);
    [by rewrite Heq|done|lia|done|lia].
Qed.
Lemma Sprint_inj x y : Sprint x = Sprint y → x = y.
Proof. intros Heq%(f_equal bytes). unfold Sprint in Heq. rewrite !bytes_of_bytes in Heq. by apply itoa_inj. Qed.

(** ASCII text is valid UTF-8. *)
Lemma ascii_utf8 s : is_ascii s = true → utf8_valid s = true.
Proof.
  unfold is_ascii, all_bytes, utf8_valid. induction (bytes s) as [|c l IH]; [done|]. cbn [forallb valid_bytes].
  intros [-> Hl]%andb_true_iff. by apply IH.
Qed.

(** ** Digests of marshalled values *)

(** Two texts that differ and have the same digest. *)
Definition collide (x y : string) : Prop := x ≠ y ∧ Sum256 x = Sum256 y.
Lemma digest_binds x y :
  json_utf8 x = true → json_utf8 y = true → hexSum256 (Marshal x) = hexSum256 (Marshal y) →
  x = y ∨ collide (Marshal x) (Marshal y).
Proof.
  intros Hx Hy Hd%hexSum256_eq. destruct (decide (Marshal x = Marshal y)) as [Heq|Hne]; [left|right].
  - by apply Marshal_inj.
  - by split.
Qed.
