(* ===== verification/JsonTypes.v ===== *)
(** * [encoding/json] on Go types

    The types the code passes to [json.Marshal] and [json.Unmarshal] are described by values of
    [gotype]; [decode] is the decoder (with [DisallowUnknownFields] when strict) and [encode]
    gives what [Marshal] writes.  [decode_encode] is the round trip, for every text of the same
    document: a database may write the members of an object in another order. *)
From stdpp Require Import base tactics list strings gmap.
From Stdlib Require Import Ascii.
From S2P Require Import Prelude GoStrings Sha256 Json.
Open Scope string_scope.

(** ** Field names *)

(** The key of an object field is matched by [foldName]: ASCII letters without case, the long
    s as [s] and the Kelvin sign as [k]. *)
Fixpoint fold_bytes (l : list ascii) : list ascii :=
  match l with
  | [] => []
  | a :: l1 =>
      match l1 with
      | b :: l2 =>
          if byte_is 197 a && byte_is 191 b then "s"%char :: fold_bytes l2
          else match l2 with
               | c :: l3 => if byte_is 226 a && byte_is 132 b && byte_is 170 c then "k"%char :: fold_bytes l3
                            else lower_byte a :: fold_bytes l1
               | [] => lower_byte a :: fold_bytes l1
               end
      | [] => lower_byte a :: fold_bytes l1
      end
  end.
Definition field_is (name key : string) : bool := bool_decide (fold_bytes (bytes key) = bytes name).

(** ** Types and values *)

(** The fields of a struct: JSON name, [omitempty], type. *)
Inductive gotype :=
| TString | TBool | TInt
| TSlice (element : gotype)
| TPointer (target : gotype)
| TStruct (fields : list (string * bool * gotype)).
(** A slice that is not nil has items; [spare] are the values its array holds behind them,
    which the decoder goes on to use. *)
Inductive govalue :=
| GString (s : string) | GBool (b : bool) | GInt (z : Z)
| GSlice (items : option (list govalue)) (spare : list govalue)
| GPointer (target : option govalue)
| GStruct (fields : list govalue).

Section Induction.
Context (P : gotype → Prop) (Hstring : P TString) (Hbool : P TBool) (Hint : P TInt) (Hslice : ∀ t, P t → P (TSlice t))
  (Hpointer : ∀ t, P t → P (TPointer t)) (Hstruct : ∀ fs, Forall (λ f, P f.2) fs → P (TStruct fs)).
Fixpoint gotype_nested_ind (t : gotype) : P t :=
  match t with
  | TString => Hstring | TBool => Hbool | TInt => Hint
  | TSlice t => Hslice t (gotype_nested_ind t)
  | TPointer t => Hpointer t (gotype_nested_ind t)
  | TStruct fs => Hstruct fs ((fix go (fs : list (string * bool * gotype)) : Forall (λ f, P f.2) fs :=
      match fs with
      | [] => @List.Forall_nil _ _
      | f :: fs => @List.Forall_cons _ _ f fs (gotype_nested_ind f.2) (go fs)
      end) fs)
  end.
End Induction.

Fixpoint zero (t : gotype) : govalue :=
  match t with
  | TString => GString "" | TBool => GBool false | TInt => GInt 0
  | TSlice _ => GSlice None []
  | TPointer _ => GPointer None
  | TStruct fs => GStruct (map (λ f, zero f.2) fs)
  end.

(** ** Writing *)

(** [omitempty] leaves out a field with such a value. *)
Definition is_empty (g : govalue) : bool :=
  match g with
  | GString s => String.eqb s "" | GBool b => negb b | GInt z => Z.eqb z 0
  | GSlice items _ => Nat.eqb (length (default [] items)) 0
  | GPointer p => negb (bool_decide (is_Some p))
  | GStruct _ => false
  end.
Fixpoint encode (t : gotype) (g : govalue) : json :=
  match t, g with
  | TString, GString s => JString s
  | TBool, GBool b => JBool b
  | TInt, GInt z => JInt z
  | TSlice t, GSlice (Some xs) _ => JArray (map (encode t) xs)
  | TPointer t, GPointer (Some p) => encode t p
  | TStruct fs, GStruct vals =>
      JObject ((fix fields (fs : list (string * bool * gotype)) (vals : list govalue) : list (string * json) :=
        match fs, vals with
        | f :: fs, x :: vals => (if f.1.2 && is_empty x then fields fs vals else (f.1.1, encode f.2 x) :: fields fs vals)
        | _, _ => []
        end) fs vals)
  | _, _ => JNull
  end.

(** ** Reading *)

Definition backing (g : govalue) : list govalue :=
  match g with GSlice items spare => (default [] items ++ spare)%list | _ => [] end.
Definition target_of_pointer (t : gotype) (g : govalue) : govalue :=
  match g with GPointer (Some p) => p | _ => zero t end.
Definition struct_values (g : govalue) : list govalue := match g with GStruct vals => vals | _ => [] end.
(** The field a key names. *)
Fixpoint field_index (key : string) (fs : list (string * bool * gotype)) : option (nat * gotype) :=
  match fs with
  | [] => None
  | f :: fs => if field_is f.1.1 key then Some (O, f.2) else '(i, t) ← field_index key fs; Some (S i, t)
  end.
(** The decoder writes over the old value; [None] is an error.  Members are read in order. *)
Fixpoint decode (strict : bool) (v : jvalue) {struct v} : gotype → govalue → option govalue :=
  fix into (t : gotype) (old : govalue) {struct t} : option govalue :=
    match t with
    | TString => match v with VNull => Some old | VString s => Some (GString s) | _ => None end
    | TBool => match v with VNull => Some old | VBool b => Some (GBool b) | _ => None end
    | TInt => match v with VNull => Some old | VNumber text => z ← ParseInt text; Some (GInt z) | _ => None end
    | TPointer t' =>
        match v with
        | VNull => Some (GPointer None)
        | _ => p ← into t' (target_of_pointer t' old); Some (GPointer (Some p))
        end
    | TSlice t' =>
        match v with
        | VNull => Some (GSlice None [])
        | VArray [] => Some (GSlice (Some []) [])
        | VArray vs =>
            xs ← (fix elements (vs : list jvalue) (array : list govalue) : option (list govalue) :=
              match vs with
              | [] => Some []
              | v :: vs => x ← decode strict v t' (hd (zero t') array); xs ← elements vs (tl array); Some (x :: xs)
              end) vs (backing old);
            Some (GSlice (Some xs) (drop (length xs) (backing old)))
        | _ => None
        end
    | TStruct fs =>
        match v with
        | VNull => Some old
        | VObject members =>
            vals ← (fix fields (members : list (string * jvalue)) (vals : list govalue) : option (list govalue) :=
              match members with
              | [] => Some vals
              | (key, v) :: rest =>
                  match field_index key fs with
                  | Some (i, t') => x ← decode strict v t' (default (zero t') (vals !! i)); fields rest (<[i := x]> vals)
                  | None => if strict then None else fields rest vals
                  end
              end) members (struct_values old);
            Some (GStruct vals)
        | _ => None
        end
    end.
Definition Unmarshal (strict : bool) (t : gotype) (text : string) : option govalue :=
  v ← read_json text; decode strict v t (zero t).

(** Scalars, decoded over an old value: [null] leaves it, any other kind is an error. *)
Definition decode_string (old : string) (v : jvalue) : option string :=
  match v with VNull => Some old | VString s => Some s | _ => None end.
Definition decode_bool (old : bool) (v : jvalue) : option bool :=
  match v with VNull => Some old | VBool b => Some b | _ => None end.
Definition decode_int64 (old : Z) (v : jvalue) : option Z :=
  match v with VNull => Some old | VNumber text => ParseInt text | _ => None end.

(** ** The same document, written differently *)

(** Equal up to the order of the members of objects. *)
Inductive same_json : jvalue → jvalue → Prop :=
| same_scalar v : match v with VArray _ | VObject _ => False | _ => True end → same_json v v
| same_array vs ws : Forall2 same_json vs ws → same_json (VArray vs) (VArray ws)
| same_object fs gs hs : Forall2 (λ f g, f.1 = g.1 ∧ same_json f.2 g.2) fs gs → gs ≡ₚ hs → same_json (VObject fs) (VObject hs).
Definition same_document (a b : string) : Prop :=
  ∃ v w, read_json a = Some v ∧ read_json b = Some w ∧ same_json v w.

(** ** The round trip *)

(** A type whose field names are different lower-case names, with [omitempty] on scalars and
    pointers only and no pointer to a type that may be [null]. *)
Definition plain_name (name : string) : bool := bool_decide (fold_bytes (bytes name) = bytes name) && utf8_valid name.
Definition may_omit (t : gotype) : bool := match t with TSlice _ | TStruct _ => false | _ => true end.
Definition never_null (t : gotype) : bool := match t with TSlice _ | TPointer _ => false | _ => true end.
Fixpoint type_ok (t : gotype) : bool :=
  match t with
  | TString | TBool | TInt => true
  | TSlice t => type_ok t
  | TPointer t => never_null t && type_ok t
  | TStruct fs =>
      bool_decide (NoDup (map (λ f, f.1.1) fs)) &&
      forallb (λ f, plain_name f.1.1 && implb f.1.2 (may_omit f.2) && type_ok f.2) fs
  end.
(** A value of the type with valid strings and 64-bit integers, and nothing behind its slices. *)
Fixpoint typed (t : gotype) (g : govalue) : bool :=
  match t, g with
  | TString, GString s => utf8_valid s
  | TBool, GBool _ => true
  | TInt, GInt z => Z.leb (- 2 ^ 63) z && Z.ltb z (2 ^ 63)
  | TSlice t, GSlice items [] => forallb (typed t) (default [] items)
  | TPointer t, GPointer None => true
  | TPointer t, GPointer (Some p) => typed t p
  | TStruct fs, GStruct vals =>
      (fix fields (fs : list (string * bool * gotype)) (vals : list govalue) : bool :=
        match fs, vals with
        | [], [] => true
        | f :: fs, x :: vals => typed f.2 x && fields fs vals
        | _, _ => false
        end) fs vals
  | _, _ => false
  end.

(** The loops of [encode], [decode] and [typed]. *)
Fixpoint encode_fields (fs : list (string * bool * gotype)) (vals : list govalue) : list (string * json) :=
  match fs, vals with
  | f :: fs, x :: vals => if f.1.2 && is_empty x then encode_fields fs vals else (f.1.1, encode f.2 x) :: encode_fields fs vals
  | _, _ => []
  end.
Fixpoint decode_items (strict : bool) (t : gotype) (vs : list jvalue) (array : list govalue) : option (list govalue) :=
  match vs with
  | [] => Some []
  | v :: vs => x ← decode strict v t (hd (zero t) array); xs ← decode_items strict t vs (tl array); Some (x :: xs)
  end.
Fixpoint decode_members (strict : bool) (fs : list (string * bool * gotype)) (members : list (string * jvalue)) (vals : list govalue) :
    option (list govalue) :=
  match members with
  | [] => Some vals
  | (key, v) :: rest =>
      match field_index key fs with
      | Some (i, t') => x ← decode strict v t' (default (zero t') (vals !! i)); decode_members strict fs rest (<[i := x]> vals)
      | None => if strict then None else decode_members strict fs rest vals
      end
  end.
Lemma encode_struct fs vals : encode (TStruct fs) (GStruct vals) = JObject (encode_fields fs vals).
Proof. reflexivity. Qed.
Lemma decode_slice strict v vs t old :
  decode strict (VArray (v :: vs)) (TSlice t) old =
  (xs ← decode_items strict t (v :: vs) (backing old); Some (GSlice (Some xs) (drop (length xs) (backing old)))).
Proof.
  assert (∀ vs array, (fix elements (vs : list jvalue) (array : list govalue) : option (list govalue) :=
      match vs with
      | [] => Some []
      | v :: vs => x ← decode strict v t (hd (zero t) array); xs ← elements vs (tl array); Some (x :: xs)
      end) vs array = decode_items strict t vs array) as Heq.
  { clear. induction vs as [|v vs IH]; intros array; [done|]. cbn [decode_items]. destruct (decode strict v t _); [|done].
    cbn [mbind option_bind]. by rewrite IH. }
  rewrite <-Heq. reflexivity.
Qed.
Lemma decode_struct strict members fs old :
  decode strict (VObject members) (TStruct fs) old = (vals ← decode_members strict fs members (struct_values old); Some (GStruct vals)).
Proof.
  assert (∀ members vals, (fix fields (members : list (string * jvalue)) (vals : list govalue) : option (list govalue) :=
      match members with
      | [] => Some vals
      | (key, v) :: rest =>
          match field_index key fs with
          | Some (i, t') => x ← decode strict v t' (default (zero t') (vals !! i)); fields rest (<[i := x]> vals)
          | None => if strict then None else fields rest vals
          end
      end) members vals = decode_members strict fs members vals) as Heq.
  { clear. induction members as [|[key v] rest IH]; intros vals; [done|]. cbn [decode_members]. destruct (field_index key fs) as [[i t']|].
    - destruct (decode strict v t' _); [|done]. cbn [mbind option_bind]. apply IH.
    - destruct strict; [done|]. apply IH. }
  rewrite <-Heq. reflexivity.
Qed.
Lemma typed_struct fs vals : typed (TStruct fs) (GStruct vals) = true ↔ Forall2 (λ f x, typed f.2 x = true) fs vals.
Proof.
  revert vals. induction fs as [|f fs IH]; intros [|x vals].
  - by split; [constructor|].
  - by split; [|intros H%Forall2_length].
  - by split; [|intros H%Forall2_length].
  - rewrite Forall2_cons. cbn [typed]. by rewrite andb_true_iff, <-IH.
Qed.

(** The key of a field finds it. *)
Lemma plain_fold name key : plain_name name = true → plain_name key = true → field_is name key = bool_decide (name = key).
Proof.
  unfold plain_name, field_is. intros [_ _]%andb_true_iff [Hk%bool_decide_eq_true _]%andb_true_iff. rewrite Hk.
  apply bool_decide_ext. split; [intros Heq|by intros ->]. by apply bytes_inj.
Qed.
Lemma field_index_lookup fs i f : NoDup (map (λ f, f.1.1) fs) → Forall (λ f, plain_name f.1.1 = true) fs → fs !! i = Some f →
  field_index f.1.1 fs = Some (i, f.2).
Proof.
  revert i. induction fs as [|g fs IH]; intros i Hnd Hp Hi; [done|]. cbn [map] in Hnd. apply NoDup_cons in Hnd as [Hg Hnd].
  apply Forall_cons in Hp as [Hpg Hp]. cbn [field_index]. destruct i as [|i]; cbn in Hi.
  - injection Hi as ->. rewrite plain_fold, bool_decide_eq_true_2 by done. done.
  - assert (plain_name f.1.1 = true) as Hpf by (rewrite Forall_forall in Hp; by eapply Hp, list_elem_of_lookup_2).
    rewrite plain_fold, bool_decide_eq_false_2; [|intros Heq|done..].
    + by rewrite (IH i).
    + apply Hg. rewrite Heq. apply list_elem_of_lookup_2 in Hi. by apply (list_elem_of_fmap_2 (λ f, f.1.1)).
Qed.

Lemma decode_members_run strict fs (vals : list govalue) L : NoDup (map (λ f, f.1.1) fs) → Forall (λ f, plain_name f.1.1 = true) fs → NoDup L.*1 →
  (∀ m, m ∈ L → strict = false ∧ field_index m.1 fs = None ∨
     ∃ i f x, fs !! i = Some f ∧ f.1.1 = m.1 ∧ vals !! i = Some x ∧ decode strict m.2 f.2 (zero f.2) = Some x) →
  ∀ acc : list govalue, (∀ i f, fs !! i = Some f → f.1.1 ∈ L.*1 → acc !! i = Some (zero f.2)) →
  ∃ acc' : list govalue, decode_members strict fs L acc = Some acc' ∧ length acc' = length acc ∧
    ∀ i f, fs !! i = Some f → acc' !! i = if bool_decide (f.1.1 ∈ L.*1) then vals !! i else acc !! i.
Proof.
  intros Hnd Hp. assert (∀ i j f g, fs !! i = Some f → fs !! j = Some g → f.1.1 = g.1.1 → i = j) as Hinj.
  { intros i j f g Hi Hj Heq. apply (NoDup_lookup _ _ _ f.1.1 Hnd).
    - change (map (λ f, f.1.1) fs) with ((λ f, f.1.1) <$> fs). by rewrite list_lookup_fmap, Hi.
    - change (map (λ f, f.1.1) fs) with ((λ f, f.1.1) <$> fs). by rewrite list_lookup_fmap, Hj, Heq. }
  induction L as [|[key v] L IH]; intros Hl Hm acc Hacc.
  { exists acc. split; [done|]. split; [done|]. intros i f _. by rewrite bool_decide_eq_false_2 by apply not_elem_of_nil. }
  rewrite fmap_cons in Hl. cbn [fst] in Hl. apply NoDup_cons in Hl as [Hk Hl].
  destruct (Hm (key, v)) as [[-> Hno]|(i & f & x & Hi & Hn & Hx & Hd)]; [by left|..].
  { cbn [fst] in Hno. cbn [decode_members]. rewrite Hno. destruct (IH Hl) with (acc := acc) as (acc' & H1 & H2 & H3).
    - intros m Hin. apply Hm. by right.
    - intros i f Hi Hin. apply (Hacc i f Hi). by right.
    - exists acc'. split; [done|]. split; [done|]. intros i f Hi. rewrite (H3 i f Hi).
      assert (bool_decide (f.1.1 ∈ L.*1) = bool_decide (f.1.1 ∈ ((key, v) :: L).*1)) as ->; [|done]. apply bool_decide_ext.
      rewrite fmap_cons, elem_of_cons. split; [by right|]. intros [Heq|]; [|done]. cbn in Heq. by rewrite <-Heq, (field_index_lookup fs i f) in Hno. }
  cbn [fst snd] in Hn, Hd. subst key.
  cbn [decode_members]. rewrite (field_index_lookup fs i f) by done. rewrite (Hacc i f Hi) by (by left). cbn [default]. unfold default. cbn. rewrite Hd. cbn [mbind option_bind].
  destruct (IH Hl) with (acc := <[i := x]> acc) as (acc' & H1 & H2 & H3).
  - intros m Hin. apply Hm. by right.
  - intros j g Hj Hin. rewrite list_lookup_insert_ne; [apply (Hacc j g Hj); by right|]. intros ->.
    assert (f = g) as -> by congruence. done.
  - exists acc'. split; [done|]. split; [by rewrite H2, length_insert|]. intros j g Hj. rewrite (H3 j g Hj).
    destruct (decide (i = j)) as [->|Hij].
    + assert (f = g) as -> by congruence. rewrite bool_decide_eq_false_2 by done. rewrite bool_decide_eq_true_2 by (by left).
      rewrite Hx. apply list_lookup_insert_eq. eapply lookup_lt_Some, (Hacc j g Hj). by left.
    + rewrite list_lookup_insert_ne by done.
      assert (bool_decide (g.1.1 ∈ L.*1) = bool_decide (g.1.1 ∈ ((f.1.1, v) :: L).*1)) as ->; [|done].
      apply bool_decide_ext. rewrite fmap_cons, elem_of_cons. split; [by right|]. intros [Heq|]; [|done]. destruct Hij. by eapply Hinj.
Qed.

(** What [encode] lists for a struct. *)
Lemma encode_fields_names fs vals : sublist (encode_fields fs vals).*1 (map (λ f, f.1.1) fs).
Proof.
  revert vals. induction fs as [|f fs IH]; intros [|x vals]; cbn [encode_fields]; [constructor|constructor|apply sublist_nil_l|].
  cbn [map]. destruct (f.1.2 && is_empty x); [by constructor|by apply sublist_skip].
Qed.
Lemma elem_of_encode_fields fs (vals : list govalue) m : m ∈ encode_fields fs vals → ∃ i f x, fs !! i = Some f ∧ vals !! i = Some x ∧ m = (f.1.1, encode f.2 x).
Proof.
  revert vals. induction fs as [|f fs IH]; intros [|x vals]; cbn [encode_fields]; try by intros ?%not_elem_of_nil.
  destruct (f.1.2 && is_empty x).
  - intros (i & g & y & H1 & H2 & H3)%IH. by exists (S i), g, y.
  - intros [->|(i & g & y & H1 & H2 & H3)%IH]%elem_of_cons; [by exists O, f, x|by exists (S i), g, y].
Qed.
Lemma encoded_or_empty fs (vals : list govalue) i f x : fs !! i = Some f → vals !! i = Some x →
  f.1.1 ∈ (encode_fields fs vals).*1 ∨ f.1.2 = true ∧ is_empty x = true.
Proof.
  revert vals i. induction fs as [|g fs IH]; intros [|y vals] i Hi Hx; try done. cbn [encode_fields].
  destruct i as [|i]; cbn in Hi, Hx.
  - injection Hi as ->. injection Hx as ->. destruct (f.1.2 && is_empty x) eqn:He; [right; by apply andb_true_iff in He|left; by left].
  - destruct (IH vals i Hi Hx) as [Hin|]; [left|by right]. destruct (g.1.2 && is_empty y); [done|by right].
Qed.
Lemma empty_is_zero t x : may_omit t = true → typed t x = true → is_empty x = true → x = zero t.
Proof.
  destruct t, x as [s|b|z|items spare|[p|]|vals]; cbn; try done.
  - by intros _ _ ->%String.eqb_eq.
  - by intros _ _ ->%negb_true_iff.
  - by intros _ _ ->%Z.eqb_eq.
Qed.
Lemma encode_not_null t g : never_null t = true → typed t g = true → encode t g ≠ JNull.
Proof. by destruct t, g. Qed.
Lemma same_null v : same_json VNull v → v = VNull.
Proof. by inversion 1. Qed.
Lemma not_null j v : same_json (to_value j) v → j ≠ JNull → v ≠ VNull.
Proof. destruct j; inversion 1; subst; by intros. Qed.
(** A document with the members of a struct or the elements of a slice. *)
Lemma same_struct fs vals v : same_json (to_value (encode (TStruct fs) (GStruct vals))) v →
  ∃ hs, v = VObject hs ∧ hs.*1 ≡ₚ (encode_fields fs vals).*1 ∧
    ∀ m, m ∈ hs → ∃ i f x, fs !! i = Some f ∧ vals !! i = Some x ∧ m.1 = f.1.1 ∧ same_json (to_value (encode f.2 x)) m.2.
Proof.
  rewrite encode_struct. cbn [to_value]. intros Hv. inversion Hv as [| |? gs hs Hall Hp]; subst; [done|]. exists hs. split; [done|]. split.
  - rewrite <-Hp. clear -Hall. revert gs Hall. generalize (encode_fields fs vals). induction l as [|[k j] l IHl]; intros gs Hall; cbn in Hall;
      inversion Hall as [|? [k' w] ? ? [Hk _] Hr]; subst; [done|]. cbn in Hk. subst. cbn. constructor. by apply IHl.
  - intros m Hm. rewrite <-Hp in Hm. apply list_elem_of_lookup in Hm as [n Hm].
    destruct (Forall2_lookup_r _ _ _ _ _ Hall Hm) as ([k j] & Hn & Hk & Hs). cbn in Hk, Hs.
    change (map (λ '(k, v), (k, to_value v)) (encode_fields fs vals)) with ((λ '(k, v), (k, to_value v)) <$> encode_fields fs vals) in Hn.
    rewrite list_lookup_fmap in Hn. destruct (encode_fields fs vals !! n) as [[k0 j0]|] eqn:He; [|done]. injection Hn as <- <-.
    apply list_elem_of_lookup_2, elem_of_encode_fields in He as (i & f & x & Hi & Hx & [= -> ->]). by exists i, f, x.
Qed.
Lemma same_slice t xs v : same_json (to_value (JArray (map (encode t) xs))) v →
  ∃ ws, v = VArray ws ∧ Forall2 (λ x w, same_json (to_value (encode t x)) w) xs ws.
Proof.
  cbn [to_value]. intros Hv. inversion Hv as [|? ws Hall|]; subst; [done|]. exists ws. split; [done|].
  clear -Hall. revert ws Hall. induction xs as [|x xs IH]; intros ws Hall; inversion Hall; subst; constructor; [done|by apply IH].
Qed.

Definition decodes_back (strict : bool) (t : gotype) : Prop := ∀ g v,
  type_ok t = true → typed t g = true → same_json (to_value (encode t g)) v → decode strict v t (zero t) = Some g.
Lemma decode_struct_back strict fs g v : Forall (λ f, decodes_back strict f.2) fs →
  type_ok (TStruct fs) = true → typed (TStruct fs) g = true → same_json (to_value (encode (TStruct fs) g)) v →
  decode strict v (TStruct fs) (zero (TStruct fs)) = Some g.
Proof.
  intros IH Hok Ht Hv. destruct g as [| | | | |vals]; try done. cbn in Hok. apply andb_true_iff in Hok as [Hnd Hok].
  apply bool_decide_eq_true in Hnd. rewrite forallb_forall in Hok. apply typed_struct in Ht.
  assert (Forall (λ f, plain_name f.1.1 = true) fs) as Hplain.
  { apply List.Forall_forall. intros f Hf. specialize (Hok f Hf). rewrite !andb_true_iff in Hok. tauto. }
  apply same_struct in Hv as (hs & -> & Hkeys & Hm). rewrite decode_struct.
  assert (∀ k, k ∈ hs.*1 ↔ k ∈ (encode_fields fs vals).*1) as Hhs by (intros k; by rewrite Hkeys).
  assert (NoDup hs.*1) as Hnh.
  { rewrite Hkeys. eapply sublist_NoDup; [exact Hnd|apply encode_fields_names]. }
  destruct (decode_members_run strict fs vals hs Hnd Hplain Hnh) with (acc := map (λ f, zero f.2) fs) as (acc & Hd & Hlen & Hacc).
  - intros m (i & f & x & Hi & Hx & Hk & Hs)%Hm. right. exists i, f, x. split; [done|]. split; [done|]. split; [done|].
    rewrite Forall_forall in IH. apply IH; [by eapply list_elem_of_lookup_2| |by eapply (Forall2_lookup_lr _ _ _ _ _ _ Ht)|done].
    specialize (Hok f ltac:(by eapply list_elem_of_In, list_elem_of_lookup_2)). by apply andb_true_iff in Hok as [_ ?].
  - intros i f Hi _. change (map (λ f, zero f.2) fs) with ((λ f, zero f.2) <$> fs). by rewrite list_lookup_fmap, Hi.
  - cbn [struct_values zero]. rewrite Hd. cbn [mbind option_bind]. do 2 f_equal. pose proof (Forall2_length _ _ _ Ht) as Hlt.
    apply list_eq_same_length with (n := length vals); [done|rewrite Hlen, length_map; congruence|].
    intros i y x Hi Hy Hx. destruct (lookup_lt_is_Some_2 fs i) as [f Hf]; [lia|]. rewrite (Hacc i f Hf) in Hy.
    case_bool_decide as Hin; [congruence|]. change (map (λ f, zero f.2) fs) with ((λ f, zero f.2) <$> fs) in Hy.
    rewrite list_lookup_fmap, Hf in Hy. injection Hy as <-. symmetry.
    destruct (encoded_or_empty fs vals i f x Hf Hx) as [He|[Ho He]]; [by rewrite <-Hhs in He|].
    specialize (Hok f ltac:(by eapply list_elem_of_In, list_elem_of_lookup_2)). rewrite !andb_true_iff in Hok. destruct Hok as [[_ Hok] _].
    rewrite Ho in Hok. apply empty_is_zero; [done|by eapply (Forall2_lookup_lr _ _ _ _ _ _ Ht)|done].
Qed.
Lemma decode_encode strict t : decodes_back strict t.
Proof.
  induction t as [| | |t IH|t IH|fs IH] using gotype_nested_ind; intros g v Hok Ht Hv.
  - destruct g; try done. inversion Hv; subst. done.
  - destruct g; try done. inversion Hv; subst. done.
  - destruct g; try done. inversion Hv; subst. cbn. apply andb_true_iff in Ht as [?%Z.leb_le ?%Z.ltb_lt]. by rewrite ParseInt_itoa by lia.
  - destruct g as [| | |items spare| |]; try done. destruct spare; [|done]. cbn in Ht. destruct items as [xs|]; [|by inversion Hv; subst].
    cbn [encode to_value] in Hv. inversion Hv as [|? ws Hall|]; subst; [done|]. cbn in Ht. rewrite forallb_forall in Ht.
    assert (decode_items strict t ws [] = Some xs) as Hd.
    { revert ws Hall Hv. induction xs as [|x xs IHx]; intros ws Hall _; cbn in Hall; inversion Hall as [|? w ? ws' Hw Hws]; subst; [done|].
      cbn [decode_items hd tl]. rewrite (IH x w); [|done|by apply Ht; left|done]. cbn [mbind option_bind].
      rewrite IHx; [done|intros y Hy; apply Ht; by right|done|by constructor]. }
    destruct ws as [|w ws]; [cbn in Hd; by injection Hd as <-|]. rewrite decode_slice.
    change (backing (zero (TSlice t))) with (@nil govalue). rewrite Hd. cbn. by rewrite drop_nil.
  - apply andb_true_iff in Hok as [Hn Hok]. destruct g as [| | | |[p|]|]; try done; cbn in Ht.
    + cbn [encode] in Hv. assert (v ≠ VNull) as Hnn by (eapply not_null; [exact Hv|by eapply encode_not_null]).
      pose proof (IH p v Hok Ht Hv) as Hd. assert (decode strict v (TPointer t) (zero (TPointer t)) = (p ← decode strict v t (zero t); Some (GPointer (Some p)))) as ->.
      { by destruct v. }
      by rewrite Hd.
    + cbn in Hv. apply same_null in Hv as ->. done.
  - by apply decode_struct_back.
Qed.

Lemma same_json_refl j : same_json (to_value j) (to_value j).
Proof.
  induction j as [|b|z|t Ht|s|l IH|fs IH] using json_nested_ind; cbn; try by constructor.
  - apply same_array. induction IH; cbn; by constructor.
  - apply same_object with (gs := map (λ '(k, v), (k, to_value v)) fs); [|done]. induction IH as [|[k x] fs Hx _ IHfs]; cbn; constructor; [by split|done].
Qed.

(** ** The strict decoder only refuses more *)

Section ValueInd.
Context (P : jvalue → Prop) (Hnull : P VNull) (Hbool : ∀ b, P (VBool b)) (Hnumber : ∀ text, P (VNumber text)) (Hstring : ∀ s, P (VString s))
  (Harray : ∀ vs, Forall P vs → P (VArray vs)) (Hobject : ∀ fs, Forall (λ f, P f.2) fs → P (VObject fs)).
Fixpoint jvalue_nested_ind (v : jvalue) : P v :=
  match v with
  | VNull => Hnull | VBool b => Hbool b | VNumber text => Hnumber text | VString s => Hstring s
  | VArray vs => Harray vs ((fix go (vs : list jvalue) : Forall P vs :=
      match vs with [] => @List.Forall_nil _ _ | v :: vs => @List.Forall_cons _ _ v vs (jvalue_nested_ind v) (go vs) end) vs)
  | VObject fs => Hobject fs ((fix go (fs : list (string * jvalue)) : Forall (λ f, P f.2) fs :=
      match fs with [] => @List.Forall_nil _ _ | f :: fs => @List.Forall_cons _ _ f fs (jvalue_nested_ind f.2) (go fs) end) fs)
  end.
End ValueInd.
Lemma same_value_refl v : same_json v v.
Proof.
  induction v as [|b|text|s|vs IH|ms IH] using jvalue_nested_ind; try by apply same_scalar.
  - apply same_array. induction IH; by constructor.
  - apply same_object with (gs := ms); [|done]. induction IH; by constructor.
Qed.
Lemma decode_pointer strict v t old : decode strict v (TPointer t) old =
  match v with VNull => Some (GPointer None) | _ => p ← decode strict v t (target_of_pointer t old); Some (GPointer (Some p)) end.
Proof. by destruct v. Qed.
Lemma decode_lax v : ∀ t old g, decode true v t old = Some g → decode false v t old = Some g.
Proof.
  assert (∀ v, (∀ t old g, (∀ t', t ≠ TPointer t') → decode true v t old = Some g → decode false v t old = Some g) →
    ∀ t old g, decode true v t old = Some g → decode false v t old = Some g) as Hpointer.
  { clear v. intros v Hv t. induction t as [| | | |t IH|]; intros old g; try by apply Hv. rewrite !decode_pointer.
    destruct v; try done; intros (p & Hp & [= <-])%bind_Some; by rewrite (IH _ _ Hp). }
  induction v as [|b|text|s|vs IH|ms IH] using jvalue_nested_ind; apply Hpointer; intros t old g Ht Hd; destruct t as [| | |t|t|fs];
    try done; try by destruct (Ht t).
  - destruct vs as [|v vs]; [done|]. rewrite decode_slice in Hd |- *. apply bind_Some in Hd as (xs & Hxs & [= <-]).
    assert (∀ array xs, decode_items true t (v :: vs) array = Some xs → decode_items false t (v :: vs) array = Some xs) as Hi; [|by rewrite (Hi _ _ Hxs)].
    clear -IH. induction IH as [|w ws Hw _ IHw]; intros array xs; [done|]. cbn [decode_items].
    intros (x & Hx%Hw & (ys & Hys%IHw & [= <-])%bind_Some)%bind_Some. by rewrite Hx; cbn; rewrite Hys.
  - rewrite decode_struct in Hd |- *. apply bind_Some in Hd as (vals & Hvals & [= <-]).
    assert (∀ vals vals', decode_members true fs ms vals = Some vals' → decode_members false fs ms vals = Some vals') as Hm; [|by rewrite (Hm _ _ Hvals)].
    clear -IH. induction IH as [|[key w] ms Hw _ IHm]; intros vals vals'; [done|]. cbn [decode_members]. destruct (field_index key fs) as [[i t']|]; [|done].
    cbn [snd] in Hw. intros (x & Hx%Hw & Hr%IHm)%bind_Some. by rewrite Hx.
Qed.

(** ** The text *)

Fixpoint type_depth (t : gotype) : N :=
  match t with
  | TString | TBool | TInt => 0
  | TSlice t => 1 + type_depth t
  | TPointer t => type_depth t
  | TStruct fs => 1 + foldr (λ f n, N.max (type_depth f.2) n) 0 fs
  end%N.
Lemma encode_depth t : ∀ g, (json_depth (encode t g) ≤ type_depth t)%N.
Proof.
  induction t as [| | |t IH|t IH|fs IH] using gotype_nested_ind; intros g.
  1-3: by destruct g.
  - destruct g as [| | |[xs|] spare| |]; try apply N.le_0_l. cbn. apply N.add_le_mono_l. induction xs as [|x xs IHx]; [apply N.le_0_l|]. cbn. specialize (IH x). lia.
  - destruct g as [| | | |[p|]|]; try apply N.le_0_l. apply IH.
  - destruct g as [| | | | |vals]; try apply N.le_0_l. rewrite encode_struct. cbn. apply N.add_le_mono_l. revert vals.
    induction IH as [|f fs Hf _ IHf]; intros [|x vals]; try apply N.le_0_l. cbn [encode_fields foldr]. specialize (Hf x). specialize (IHf vals).
    destruct (f.1.2 && is_empty x); cbn; lia.
Qed.
Lemma encode_utf8 t : ∀ g, type_ok t = true → typed t g = true → json_utf8 (encode t g) = true.
Proof.
  induction t as [| | |t IH|t IH|fs IH] using gotype_nested_ind; intros g Hok Ht.
  1-3: by destruct g.
  - destruct g as [| | |[xs|] [|]| |]; try done. cbn in *. rewrite forallb_forall in *. intros j (x & <- & Hx)%in_map_iff.
    apply IH; [done|by apply Ht].
  - destruct g as [| | | |[p|]|]; try done. cbn in *. apply andb_true_iff in Hok as [_ Hok]. by apply IH.
  - destruct g as [| | | | |vals]; try done. apply typed_struct in Ht. rewrite encode_struct. cbn in Hok |- *.
    apply andb_true_iff in Hok as [_ Hok]. rewrite forallb_forall in Hok |- *.
    intros [k j] (i & f & x & Hi & Hx & [= -> ->])%list_elem_of_In%elem_of_encode_fields.
    assert (f ∈ fs) as Hf by (by eapply list_elem_of_lookup_2). specialize (Hok f ltac:(by apply list_elem_of_In)).
    unfold plain_name in Hok. rewrite !andb_true_iff in Hok. destruct Hok as [[[_ Hn] _] Hok].
    rewrite Hn. rewrite Forall_forall in IH. apply IH; [done..|]. by eapply (Forall2_lookup_lr _ _ _ _ _ _ Ht).
Qed.
Lemma read_encoded t g : type_ok t = true → typed t g = true → (type_depth t ≤ maxNestingDepth)%N →
  read_json (Marshal (encode t g)) = Some (to_value (encode t g)).
Proof.
  intros Hok Ht Hd. apply parse_text_Marshal; [by apply encode_utf8|]. pose proof (encode_depth t g). lia.
Qed.

(** ** Reading part of the fields *)

(** Whether a document written at type [t] can be read at [t'], which has some of the fields of
    its structs, possibly behind pointers. *)
Definition scalar (t : gotype) : bool := match t with TString | TBool | TInt => true | _ => false end.
Fixpoint find_field {A} (name : string) (fs : list (string * bool * gotype)) (vals : list A) : option (string * bool * gotype * A) :=
  match fs, vals with
  | f :: fs, x :: vals => if String.eqb f.1.1 name then Some (f, x) else find_field name fs vals
  | _, _ => None
  end.
Fixpoint views (t' t : gotype) : bool :=
  match t', t with
  | TString, TString | TBool, TBool | TInt, TInt => true
  | TPointer t', _ => scalar t && views t' t
  | TSlice t', TSlice t => views t' t
  | TStruct fs', TStruct fs =>
      bool_decide (NoDup (map (λ f, f.1.1) fs')) &&
      forallb (λ f', plain_name f'.1.1 && match find_field f'.1.1 fs fs with Some (f, _) => negb f.1.2 && views f'.2 f.2 | None => false end) fs'
  | _, _ => false
  end.
(** What is read. *)
Fixpoint viewed (t' t : gotype) (g : govalue) : govalue :=
  match t' with
  | TString | TBool | TInt => g
  | TPointer t' => GPointer (Some (viewed t' t g))
  | TSlice t' => match t, g with TSlice t, GSlice (Some xs) _ => GSlice (Some (map (viewed t' t) xs)) [] | _, _ => GSlice None [] end
  | TStruct fs' =>
      match t, g with
      | TStruct fs, GStruct vals =>
          GStruct (map (λ f', match find_field f'.1.1 fs vals with Some (f, x) => viewed f'.2 f.2 x | None => zero f'.2 end) fs')
      | _, _ => zero t'
      end
  end.
Lemma field_index_Some key fs i t : field_index key fs = Some (i, t) → ∃ f, fs !! i = Some f ∧ field_is f.1.1 key = true ∧ f.2 = t.
Proof.
  revert i. induction fs as [|f fs IH]; intros i; [done|]. cbn. destruct (field_is f.1.1 key) eqn:Hf.
  - intros [= <- <-]. by exists f.
  - intros ([j t'] & Hj & [= <- <-])%bind_Some. by apply IH.
Qed.
Lemma find_field_Some {A} name fs (vals : list A) f x : find_field name fs vals = Some (f, x) →
  ∃ i, fs !! i = Some f ∧ vals !! i = Some x ∧ f.1.1 = name.
Proof.
  revert vals. induction fs as [|g fs IH]; intros [|y vals]; cbn; try done. destruct (String.eqb_spec g.1.1 name).
  - intros [= <- <-]. by exists O.
  - intros (i & ? & ? & ?)%IH. by exists (S i).
Qed.
Lemma find_field_lookup {A} fs (vals : list A) i f x : NoDup (map (λ f, f.1.1) fs) → fs !! i = Some f → vals !! i = Some x →
  find_field f.1.1 fs vals = Some (f, x).
Proof.
  revert vals i. induction fs as [|g fs IH]; intros [|y vals] i Hnd Hi Hx; try done. cbn [map] in Hnd. apply NoDup_cons in Hnd as [Hg Hnd].
  cbn [find_field]. destruct i as [|i]; cbn in Hi, Hx.
  - injection Hi as ->. injection Hx as ->. by rewrite String.eqb_refl.
  - destruct (String.eqb_spec g.1.1 f.1.1) as [Heq|]; [|by apply (IH vals i)]. destruct Hg. rewrite Heq.
    apply (list_elem_of_fmap_2 (λ f, f.1.1)). by eapply list_elem_of_lookup_2.
Qed.

Lemma lookup_map {A B} (f : A → B) l i : map f l !! i = f <$> l !! i.
Proof. apply list_lookup_fmap. Qed.
Definition reads_view (t' : gotype) : Prop := ∀ t g v, type_ok t = true → typed t g = true → views t' t = true →
  same_json (to_value (encode t g)) v → decode false v t' (zero t') = Some (viewed t' t g).
Lemma decode_view_struct fs' t g v : Forall (λ f, reads_view f.2) fs' → type_ok t = true → typed t g = true →
  views (TStruct fs') t = true → same_json (to_value (encode t g)) v →
  decode false v (TStruct fs') (zero (TStruct fs')) = Some (viewed (TStruct fs') t g).
Proof.
  intros IH Hok Ht Hw Hv. destruct t as [| | | | |fs]; try done. destruct g as [| | | | |vals]; try done. cbn in Hok. apply andb_true_iff in Hok as [Hnd Hok].
  apply bool_decide_eq_true in Hnd. rewrite forallb_forall in Hok. apply typed_struct in Ht. cbn in Hw. apply andb_true_iff in Hw as [Hnd' Hw].
  apply bool_decide_eq_true in Hnd'. rewrite forallb_forall in Hw. pose proof (Forall2_length _ _ _ Ht) as Hlen.
  assert (Forall (λ f, plain_name f.1.1 = true) fs') as Hplain.
  { apply List.Forall_forall. intros f Hf. specialize (Hw f Hf). rewrite !andb_true_iff in Hw. tauto. }
  (* the field of the written type *)
  assert (∀ j f', fs' !! j = Some f' → ∃ i f x, fs !! i = Some f ∧ vals !! i = Some x ∧ f.1.1 = f'.1.1 ∧ f.1.2 = false ∧ views f'.2 f.2 = true ∧
    typed f.2 x = true ∧ type_ok f.2 = true) as Hfield.
  { intros j f' Hj. specialize (Hw f' ltac:(by eapply list_elem_of_In, list_elem_of_lookup_2)). apply andb_true_iff in Hw as [_ Hw].
    destruct (find_field f'.1.1 fs fs) as [[f f0]|] eqn:Hf; [|done]. apply find_field_Some in Hf as (i & Hi & _ & Hn).
    apply andb_true_iff in Hw as [Ho%negb_true_iff Hw]. destruct (lookup_lt_is_Some_2 vals i) as [x Hx]; [rewrite <-Hlen; by eapply lookup_lt_Some|].
    exists i, f, x. repeat split; try done; [by eapply (Forall2_lookup_lr _ _ _ _ _ _ Ht)|].
    specialize (Hok f ltac:(by eapply list_elem_of_In, list_elem_of_lookup_2)). by apply andb_true_iff in Hok as [_ ?]. }
  apply same_struct in Hv as (hs & -> & Hkeys & Hm). rewrite decode_struct.
  set (vals' := map (λ f', match find_field f'.1.1 fs vals with Some (f, x) => viewed f'.2 f.2 x | None => zero f'.2 end) fs').
  assert (∀ j f' i f x, fs' !! j = Some f' → fs !! i = Some f → vals !! i = Some x → f.1.1 = f'.1.1 → vals' !! j = Some (viewed f'.2 f.2 x)) as Hvals'.
  { intros j f' i f x Hj Hi Hx Hn. unfold vals'. rewrite lookup_map, Hj. cbn. by rewrite <-Hn, (find_field_lookup _ _ i f x). }
  destruct (decode_members_run false fs' vals' hs Hnd' Hplain) with (acc := map (λ f, zero f.2) fs') as (acc & Hd & Hla & Hacc).
  - rewrite Hkeys. eapply sublist_NoDup; [exact Hnd|apply encode_fields_names].
  - intros m (i & f & x & Hi & Hx & Hk & Hs)%Hm. destruct (field_index m.1 fs') as [[j t']|] eqn:Hj; [right|by left].
    apply field_index_Some in Hj as (f' & Hj & Hf' & _). assert (f'.1.1 = f.1.1) as Hn.
    { rewrite Hk, plain_fold in Hf'; [by apply bool_decide_eq_true in Hf'|by eapply (Forall_lookup_1 _ _ _ _ Hplain)|].
      specialize (Hok f ltac:(by eapply list_elem_of_In, list_elem_of_lookup_2)). rewrite !andb_true_iff in Hok. tauto. }
    exists j, f', (viewed f'.2 f.2 x). split; [done|]. split; [congruence|]. split; [by eapply Hvals'|].
    destruct (Hfield j f' Hj) as (i2 & f2 & x2 & Hi2 & Hx2 & Hn2 & _ & Hv2 & Ht2 & Hok2).
    assert (i2 = i) as ->.
    { apply (NoDup_lookup _ _ _ f.1.1 Hnd); rewrite lookup_map;
        [by rewrite Hi2; cbn; congruence|by rewrite Hi]. }
    simplify_eq. rewrite Forall_forall in IH. apply IH; [by eapply list_elem_of_lookup_2|done..].
  - intros j f' Hj _. by rewrite lookup_map, Hj.
  - cbn [struct_values zero]. rewrite Hd. cbn [mbind option_bind viewed]. do 2 f_equal. fold vals'.
    apply list_eq_same_length with (n := length fs'); [by unfold vals'; rewrite length_map|by rewrite Hla, length_map|].
    intros j y x Hj Hy Hx. destruct (lookup_lt_is_Some_2 fs' j) as [f' Hf']; [lia|]. rewrite (Hacc j f' Hf') in Hy.
    rewrite bool_decide_eq_true_2 in Hy; [congruence|]. destruct (Hfield j f' Hf') as (i & f & z & Hi & Hz & Hn & Ho & _).
    rewrite Hkeys, <-Hn. destruct (encoded_or_empty fs vals i f z Hi Hz) as [|[Ho' _]]; [done|congruence].
Qed.
Lemma decode_view t' : reads_view t'.
Proof.
  induction t' as [| | |t' IH|t' IH|fs' IH] using gotype_nested_ind; intros t g v Hok Ht Hw Hv.
  1-3: destruct t; try done; by apply (decode_encode false) in Hv.
  - destruct t as [| | |t| |]; try done. destruct g as [| | |[xs|] [|]| |]; try done; [|by inversion Hv; subst].
    apply same_slice in Hv as (ws & -> & Hall). cbn in Ht, Hw, Hok. rewrite forallb_forall in Ht.
    assert (decode_items false t' ws [] = Some (map (viewed t' t) xs)) as Hd.
    { clear -Hall IH Hok Hw Ht. induction Hall as [|x w xs ws Hx _ IHx]; [done|]. cbn [decode_items hd tl map].
      rewrite (IH t x w); [|done|by apply Ht; left|done..]. cbn [mbind option_bind]. rewrite IHx; [done|]. intros y Hy. apply Ht. by right. }
    destruct ws as [|w ws]; [cbn in Hd; injection Hd as Hd; cbn; by rewrite <-Hd|]. rewrite decode_slice.
    change (backing (zero (TSlice t'))) with (@nil govalue). rewrite Hd. cbn. by rewrite drop_nil.
  - cbn in Hw. apply andb_true_iff in Hw as [Hsc Hw]. assert (v ≠ VNull) as Hnn.
    { eapply not_null; [exact Hv|]. by destruct t, g. }
    pose proof (IH t g v Hok Ht Hw Hv) as Hd.
    assert (decode false v (TPointer t') (zero (TPointer t')) = (p ← decode false v t' (zero t'); Some (GPointer (Some p)))) as -> by (by destruct v).
    by rewrite Hd.
  - by apply decode_view_struct.
Qed.
