(* ===== verification/ReleaseGate.v ===== *)
(** * internal/releasegate/gate.go: the merge and release gate

    [Evaluate] reads one structured input and answers [allowed] or [blocked] with reasons.
    [add] is modelled by returning the reasons of each step in the order they are added;
    maps from lower-cased repositories to evidence are [gmap]s.  [DecodeInput], the JSON
    reader, is in GateJson.v. *)
From stdpp Require Import base tactics list strings gmap.
From Stdlib Require Import Ascii.
From S2P Require Import Prelude GoStrings GoSort Sha256 Json.
Open Scope string_scope.

Definition SchemaVersion : Z := 3.
Definition Action := string.
Definition ActionMerge : Action := "merge".
Definition ActionRelease : Action := "release".
Definition EvidenceStatus := string.
Definition StatusPassed : EvidenceStatus := "passed".
Definition StatusFailed : EvidenceStatus := "failed".
Definition RecoveryClassification := string.
Definition RecoveryRollback : RecoveryClassification := "rollback".
Definition RecoveryRollForward : RecoveryClassification := "roll_forward".
Definition RecoveryExpandContract : RecoveryClassification := "expand_contract".
Definition RecoveryIrreversible : RecoveryClassification := "irreversible".

Record Revision := { Revision_Repository : string; Revision_Branch : string; Revision_SHA : string }.
Record RepositoryPolicyEvidence := {
  RPE_Repository : string; RPE_Digest : string; RPE_Resolved : bool; RPE_ActionAllowed : bool;
  RPE_BranchAllowed : bool;
}.
Record Policy := {
  Policy_Resolved : bool; Policy_Digest : string; RequiredTestKinds : list string;
  Policy_Repositories : list RepositoryPolicyEvidence;
}.
Record RequiredCheck := { RequiredCheck_Name : string; RequiredCheck_IntegrationID : Z }.
Record BranchEvidence := {
  Branch_Repository : string; Branch_HeadSHA : string; Mergeable : bool; ConflictFree : bool;
  ProtectionEvaluated : bool; Protected : bool; RequiredChecks : list RequiredCheck;
}.
Record CheckEvidence := {
  Check_Repository : string; Check_Name : string; Check_IntegrationID : Z; Check_HeadSHA : string;
  Check_Status : EvidenceStatus;
}.
Record ReviewEvidence := {
  Review_Repository : string; Review_HeadSHA : string; AuthorActor : string; ReviewerActor : string;
  Review_Approved : bool; BlockingChangeRequests : Z;
}.
Record VaultEvidence := {
  Vault_Repository : string; Vault_HeadSHA : string; RevisionID : string; Reconciled : bool;
}.
Record TestEvidence := { Test_Kind : string; Test_MatrixDigest : string; Test_Status : EvidenceStatus }.
Record SecurityEvidence := {
  Security_Repository : string; Security_HeadSHA : string; SecretScanPassed : bool; HighFindings : Z;
  CriticalFindings : Z;
}.
Record MatrixEvidence := { Matrix_MatrixDigest : string; Matrix_Status : EvidenceStatus }.
Record RecoveryEvidence := {
  Recovery_MatrixDigest : string; Classification : RecoveryClassification; Evaluated : bool;
  HumanApproved : bool;
}.
Record HumanApproval := {
  Actor : string; ActorType : string; Approval_SubjectDigest : string; Approval_Approved : bool;
}.
Record Input := {
  Input_SchemaVersion : Z; Input_Action : Action; ChangeSetID : string; Revisions : list Revision;
  Input_Policy : Policy; Branches : list BranchEvidence; Checks : list CheckEvidence;
  Reviews : list ReviewEvidence; Vault : list VaultEvidence; Tests : list TestEvidence;
  Security : list SecurityEvidence; Compatibility : MatrixEvidence; Migrations : MatrixEvidence;
  Dependencies : MatrixEvidence; Environment : MatrixEvidence; Recovery : RecoveryEvidence;
  Input_HumanApproval : option HumanApproval;
}.
Record Reason := { Code : string; Reason_Repository : string; Evidence : string }.
Record Decision := {
  Decision_SchemaVersion : Z; Decision_Action : Action; Decision_ChangeSetID : string;
  MatrixDigest : string; PolicyDigest : string; VaultDigest : string; RequirementsDigest : string;
  SubjectDigest : string; State : string; Reasons : list Reason;
}.

(** ** Patterns *)

Definition changeSetPattern : string → bool :=
  re_ident is_alnum (λ c, is_alnum c || one_of "_.:-" c) 0 127.
Definition repositoryPartPattern : string → bool := re_plus (λ c, is_alnum c || one_of "_.-" c).
Definition evidenceNamePattern : string → bool :=
  re_ident is_alnum (λ c, is_alnum c || one_of " _./:+-" c) 0 127.

Definition validRepository (value : string) : bool :=
  match Split value "/" with
  | [owner; name] => repositoryPartPattern owner && repositoryPartPattern name
  | _ => false
  end.
(** A control character of the string is a control byte: they are all ASCII. *)
Definition validBranch (value : string) : bool :=
  negb (String.eqb value "") && Nat.leb (String.length value) 255 && negb (HasPrefix value "/") &&
  negb (HasSuffix value "/") && negb (HasSuffix value ".") && negb (HasSuffix value ".lock") &&
  negb (ContainsAny value " ~^:?*[\") && negb (Contains value "..") && negb (Contains value "@{") &&
  negb (Contains value "//") && negb (Contains value "/.") && negb (some_byte is_control value).
Definition validSHA (value : string) : bool :=
  (Nat.eqb (String.length value) 40 || Nat.eqb (String.length value) 64) && hex_decodes value.

Section Gate.
Context `{GoUnicode}.

Definition validDigest (value : string) : bool :=
  let value := ToLower (TrimSpace value) in
  Nat.eqb (String.length value) 64 && hex_decodes value.
Definition equalSHA (left right : string) : bool :=
  EqualFold (TrimSpace left) (TrimSpace right) && validSHA (ToLower (TrimSpace left)).
Definition equalDigest (left right : string) : bool :=
  let left := ToLower (TrimSpace left) in
  let right := ToLower (TrimSpace right) in
  String.eqb left right && validDigest left.
Definition independentActors (author reviewer : string) : bool :=
  let author := TrimSpace author in
  let reviewer := TrimSpace reviewer in
  negb (String.eqb author "") && negb (String.eqb reviewer "") && negb (EqualFold author reviewer).

Fixpoint validUniqueNames_loop (seen : gset string) (values : list string) : bool :=
  match values with
  | [] => true
  | value :: rest =>
      let value := TrimSpace value in
      let key := ToLower value in
      if negb (evidenceNamePattern value) then false
      else if bool_decide (key ∈ seen) then false
      else validUniqueNames_loop ({[key]} ∪ seen) rest
  end.
Definition validUniqueNames : list string → bool := validUniqueNames_loop ∅.

Fixpoint validRequiredChecks_loop (seen : gset string) (values : list RequiredCheck) : bool :=
  match values with
  | [] => true
  | value :: rest =>
      let name := TrimSpace (RequiredCheck_Name value) in
      if negb (String.eqb name (RequiredCheck_Name value)) || negb (evidenceNamePattern name) ||
         Z.ltb (RequiredCheck_IntegrationID value) 0
      then false
      else
        let key := ToLower name +:+ NUL +:+ Sprint (RequiredCheck_IntegrationID value) in
        if bool_decide (key ∈ seen) then false else validRequiredChecks_loop ({[key]} ∪ seen) rest
  end.
Definition validRequiredChecks : list RequiredCheck → bool := validRequiredChecks_loop ∅.

(** ** Digests *)

(** The loop the four digest functions share: normalize each value or fail, refuse a key
    seen before, keep the normalized values in order. *)
Fixpoint collect {A B} (normalize : A → Result string (string * B)) (duplicated : string)
    (seen : gset string) (values : list A) : Result string (list B) :=
  match values with
  | [] => Ok []
  | value :: rest =>
      '(key, b) ← normalize value;
      if bool_decide (key ∈ seen) then Err duplicated
      else
        normalized ← collect normalize duplicated ({[key]} ∪ seen) rest;
        mret (b :: normalized)
  end.
Definition size_invalid {A} (values : list A) : bool :=
  Nat.eqb (length values) 0 || Nat.ltb 64 (length values).

Definition normalizeRevision (revision : Revision) : Result string (string * Revision) :=
  let repository := TrimSpace (Revision_Repository revision) in
  let branch := TrimSpace (Revision_Branch revision) in
  let sha := ToLower (TrimSpace (Revision_SHA revision)) in
  if negb (validRepository repository) || negb (validBranch branch) || negb (validSHA sha)
  then Err "revision is invalid"
  else Ok (ToLower repository,
           {| Revision_Repository := repository; Revision_Branch := branch; Revision_SHA := sha |}).
Definition normalizeRevisions (revisions : list Revision) : Result string (list Revision) :=
  if size_invalid revisions then Err "revision matrix size is invalid"
  else
    normalized ← collect normalizeRevision "repository is duplicated" ∅ revisions;
    mret (sort_key (λ r, ToLower (Revision_Repository r)) normalized).

Definition Revision_json (r : Revision) : json :=
  JObject [("repository", JString (Revision_Repository r)); ("branch", JString (Revision_Branch r));
           ("sha", JString (Revision_SHA r))].
Definition RevisionMatrixDigest (revisions : list Revision) : Result string string :=
  normalized ← normalizeRevisions revisions;
  mret (hexSum256 (Marshal (JArray (Revision_json <$> normalized)))).

Definition normalizePolicyEvidence (value : RepositoryPolicyEvidence)
    : Result string (string * RepositoryPolicyEvidence) :=
  let repository := ToLower (TrimSpace (RPE_Repository value)) in
  let digest := ToLower (TrimSpace (RPE_Digest value)) in
  if negb (validRepository repository) || negb (validDigest digest)
  then Err "repository policy evidence is invalid"
  else Ok (repository,
           {| RPE_Repository := repository; RPE_Digest := digest; RPE_Resolved := RPE_Resolved value;
              RPE_ActionAllowed := RPE_ActionAllowed value; RPE_BranchAllowed := RPE_BranchAllowed value |}).
Definition RPE_json (value : RepositoryPolicyEvidence) : json :=
  JObject [("repository", JString (RPE_Repository value)); ("digest", JString (RPE_Digest value));
           ("resolved", JBool (RPE_Resolved value)); ("action_allowed", JBool (RPE_ActionAllowed value));
           ("branch_allowed", JBool (RPE_BranchAllowed value))].
Definition CompositePolicyDigest (values : list RepositoryPolicyEvidence) : Result string string :=
  if size_invalid values then Err "repository policy evidence size is invalid"
  else
    normalized ← collect normalizePolicyEvidence "repository policy evidence is duplicated" ∅ values;
    mret (hexSum256 (Marshal (JArray (RPE_json <$> sort_key RPE_Repository normalized)))).

Definition normalizeVault (value : VaultEvidence) : Result string (string * VaultEvidence) :=
  let repository := TrimSpace (Vault_Repository value) in
  let headSHA := ToLower (TrimSpace (Vault_HeadSHA value)) in
  let revisionID := TrimSpace (RevisionID value) in
  let key := ToLower repository in
  if negb (validRepository repository) || negb (validSHA headSHA) || String.eqb revisionID "" ||
     Nat.ltb 255 (String.length revisionID) || some_byte is_control revisionID
  then Err "vault evidence is invalid"
  else Ok (key, {| Vault_Repository := key; Vault_HeadSHA := headSHA; RevisionID := revisionID;
                   Reconciled := Reconciled value |}).
Definition Vault_json (value : VaultEvidence) : json :=
  JObject [("repository", JString (Vault_Repository value)); ("head_sha", JString (Vault_HeadSHA value));
           ("revision_id", JString (RevisionID value)); ("reconciled", JBool (Reconciled value))].
Definition VaultEvidenceDigest (values : list VaultEvidence) : Result string string :=
  if size_invalid values then Err "vault evidence size is invalid"
  else
    normalized ← collect normalizeVault "vault repository is duplicated" ∅ values;
    mret (hexSum256 (Marshal (JArray (Vault_json <$> sort_key Vault_Repository normalized)))).

Record requirement := {
  requirement_Repository : string; requirement_HeadSHA : string; requirement_ProtectionEvaluated : bool;
  requirement_Protected : bool; requirement_RequiredChecks : list RequiredCheck;
}.
Definition requiredCheck_less (left right : RequiredCheck) : bool :=
  if negb (String.eqb (RequiredCheck_Name left) (RequiredCheck_Name right))
  then String.ltb (RequiredCheck_Name left) (RequiredCheck_Name right)
  else Z.ltb (RequiredCheck_IntegrationID left) (RequiredCheck_IntegrationID right).
Definition lowerCheck (check : RequiredCheck) : RequiredCheck :=
  {| RequiredCheck_Name := ToLower (TrimSpace (RequiredCheck_Name check));
     RequiredCheck_IntegrationID := RequiredCheck_IntegrationID check |}.
Definition normalizeRequirement (value : BranchEvidence) : Result string (string * requirement) :=
  let repository := ToLower (TrimSpace (Branch_Repository value)) in
  let headSHA := ToLower (TrimSpace (Branch_HeadSHA value)) in
  if negb (validRepository repository) || negb (validSHA headSHA) || negb (validRequiredChecks (RequiredChecks value))
  then Err "branch requirements are invalid"
  else Ok (repository,
           {| requirement_Repository := repository; requirement_HeadSHA := headSHA;
              requirement_ProtectionEvaluated := ProtectionEvaluated value;
              requirement_Protected := Protected value;
              requirement_RequiredChecks := sort_by requiredCheck_less (lowerCheck <$> RequiredChecks value) |}).
(** [integration_id] is omitted when it is zero. *)
Definition RequiredCheck_json (check : RequiredCheck) : json :=
  JObject (("name", JString (RequiredCheck_Name check)) ::
           (if Z.eqb (RequiredCheck_IntegrationID check) 0 then []
            else [("integration_id", JInt (RequiredCheck_IntegrationID check))])).
(** [required_checks] is a nil slice, hence [null], when the branch has none. *)
Definition requirement_json (r : requirement) : json :=
  JObject [("repository", JString (requirement_Repository r)); ("head_sha", JString (requirement_HeadSHA r));
           ("protection_evaluated", JBool (requirement_ProtectionEvaluated r));
           ("protected", JBool (requirement_Protected r));
           ("required_checks", nil_or_array (RequiredCheck_json <$> requirement_RequiredChecks r))].
Definition BranchRequirementsDigest (values : list BranchEvidence) : Result string string :=
  if size_invalid values then Err "branch requirements size is invalid"
  else
    normalized ← collect normalizeRequirement "branch requirements repository is duplicated" ∅ values;
    mret (hexSum256 (Marshal (JArray (requirement_json <$> sort_key requirement_Repository normalized)))).

Definition subject_json (action : Action) (matrixDigest policyDigest vaultDigest requirementsDigest : string)
    (kinds : list string) (recovery : RecoveryClassification) : json :=
  JObject [("action", JString action); ("matrix_digest", JString matrixDigest);
           ("policy_digest", JString (ToLower (TrimSpace policyDigest)));
           ("vault_digest", JString (ToLower (TrimSpace vaultDigest)));
           ("requirements_digest", JString (ToLower (TrimSpace requirementsDigest)));
           ("recovery", JString recovery); ("required_test_kinds", nil_or_array (JString <$> kinds))].
Definition subjectKinds (requiredTestKinds : list string) : list string :=
  sort_strings ((λ kind, ToLower (TrimSpace kind)) <$> requiredTestKinds).
Definition subjectDigest (action : Action) (matrixDigest policyDigest vaultDigest requirementsDigest : string)
    (requiredTestKinds : list string) (recovery : RecoveryClassification) : string :=
  hexSum256 (Marshal (subject_json action matrixDigest policyDigest vaultDigest requirementsDigest
                        (subjectKinds requiredTestKinds) recovery)).

(** ** Indexing the evidence by lower-cased repository *)

Definition reason (code repository evidence : string) : Reason :=
  {| Code := code; Reason_Repository := repository; Evidence := evidence |}.
(** [add(...)] under a condition. *)
Definition add_if (c : bool) (r : Reason) : list Reason := if c then [r] else [].
Definition repositoryKey (repository : string) : string := ToLower (TrimSpace repository).

(** The loop the [unique...] functions share. *)
Fixpoint unique_by {A} (key : A → string) (invalid : A → bool) (invalidReason : Reason)
    (duplicateReason : A → Reason) (result : gmap string A) (values : list A) : gmap string A * list Reason :=
  match values with
  | [] => (result, [])
  | value :: rest =>
      if invalid value then
        let '(m, rs) := unique_by key invalid invalidReason duplicateReason result rest in
        (m, invalidReason :: rs)
      else match result !! key value with
           | Some _ =>
               let '(m, rs) := unique_by key invalid invalidReason duplicateReason result rest in
               (m, duplicateReason value :: rs)
           | None => unique_by key invalid invalidReason duplicateReason (<[key value := value]> result) rest
           end
  end.

Definition uniqueBranches : list BranchEvidence → gmap string BranchEvidence * list Reason :=
  unique_by (λ v, repositoryKey (Branch_Repository v))
    (λ v, negb (validRepository (Branch_Repository v)) || String.eqb (repositoryKey (Branch_Repository v)) "")
    (reason "branch_evidence_invalid" "" "branch")
    (λ v, reason "branch_evidence_duplicate" (Branch_Repository v) "branch") ∅.
Definition uniqueRepositoryPolicies
    : list RepositoryPolicyEvidence → gmap string RepositoryPolicyEvidence * list Reason :=
  unique_by (λ v, repositoryKey (RPE_Repository v))
    (λ v, negb (validRepository (RPE_Repository v)) || negb (validDigest (ToLower (TrimSpace (RPE_Digest v)))))
    (reason "repository_policy_evidence_invalid" "" "policy")
    (λ v, reason "repository_policy_evidence_duplicate" (RPE_Repository v) "policy") ∅.
Definition uniqueVault : list VaultEvidence → gmap string VaultEvidence * list Reason :=
  unique_by (λ v, repositoryKey (Vault_Repository v)) (λ v, negb (validRepository (Vault_Repository v)))
    (reason "vault_evidence_invalid" "" "vault")
    (λ v, reason "vault_evidence_duplicate" (Vault_Repository v) "vault") ∅.
Definition uniqueSecurity : list SecurityEvidence → gmap string SecurityEvidence * list Reason :=
  unique_by (λ v, repositoryKey (Security_Repository v)) (λ v, negb (validRepository (Security_Repository v)))
    (reason "security_evidence_invalid" "" "security")
    (λ v, reason "security_evidence_duplicate" (Security_Repository v) "security") ∅.
Definition uniqueTests : list TestEvidence → gmap string TestEvidence * list Reason :=
  unique_by (λ v, ToLower (TrimSpace (Test_Kind v))) (λ v, negb (evidenceNamePattern (TrimSpace (Test_Kind v))))
    (reason "test_evidence_invalid" "" "test")
    (λ v, reason "test_evidence_duplicate" "" (TrimSpace (Test_Kind v))) ∅.

Definition check_key (repository name : string) : string := repository +:+ NUL +:+ name.
Definition checkKey (value : CheckEvidence) : string :=
  check_key (repositoryKey (Check_Repository value)) (ToLower (TrimSpace (Check_Name value))).
Definition checkIdentity (value : CheckEvidence) : string :=
  checkKey value +:+ NUL +:+ Sprint (Check_IntegrationID value).
Definition invalidCheck (value : CheckEvidence) : bool :=
  negb (String.eqb (TrimSpace (Check_Name value)) (Check_Name value)) ||
  negb (validRepository (Check_Repository value)) || negb (evidenceNamePattern (TrimSpace (Check_Name value))) ||
  Z.ltb (Check_IntegrationID value) 0.
Definition append_at {A} (key : string) (value : A) (m : gmap string (list A)) : gmap string (list A) :=
  <[key := (default [] (m !! key) ++ [value])%list]> m.
Fixpoint groupChecks_loop (seen : gset string) (result : gmap string (list CheckEvidence))
    (values : list CheckEvidence) : gmap string (list CheckEvidence) * list Reason :=
  match values with
  | [] => (result, [])
  | value :: rest =>
      if invalidCheck value then
        let '(m, rs) := groupChecks_loop seen result rest in
        (m, reason "check_evidence_invalid" "" "check" :: rs)
      else if bool_decide (checkIdentity value ∈ seen) then
        let '(m, rs) := groupChecks_loop seen result rest in
        (m, reason "check_evidence_duplicate" (Check_Repository value) (TrimSpace (Check_Name value)) :: rs)
      else groupChecks_loop ({[checkIdentity value]} ∪ seen) (append_at (checkKey value) value result) rest
  end.
Definition groupChecks : list CheckEvidence → gmap string (list CheckEvidence) * list Reason :=
  groupChecks_loop ∅ ∅.
Definition groupReviews (values : list ReviewEvidence) : gmap string (list ReviewEvidence) :=
  foldl (λ result value,
    if validRepository (Review_Repository value) && Z.leb 0 (BlockingChangeRequests value)
    then append_at (repositoryKey (Review_Repository value)) value result else result) ∅ values.

(** ** Parts of [Evaluate] *)

Definition evaluateMatrixEvidence (name : string) (evidence : MatrixEvidence) (matrixDigest : string) : list Reason :=
  if negb (equalDigest (Matrix_MatrixDigest evidence) matrixDigest) then [reason (name +:+ "_evidence_stale") "" name]
  else if negb (String.eqb (Matrix_Status evidence) StatusPassed) then [reason (name +:+ "_not_ready") "" name]
  else [].

Definition known_classification (c : RecoveryClassification) : bool :=
  String.eqb c RecoveryRollback || String.eqb c RecoveryRollForward || String.eqb c RecoveryExpandContract ||
  String.eqb c RecoveryIrreversible.
Definition evaluateRecovery (evidence : RecoveryEvidence) (matrixDigest : string) : list Reason :=
  if negb (equalDigest (Recovery_MatrixDigest evidence) matrixDigest)
  then [reason "recovery_evidence_stale" "" "recovery"]
  else
    (add_if (negb (Evaluated evidence) || negb (known_classification (Classification evidence)))
       (reason "recovery_not_evaluated" "" "recovery") ++
     add_if (String.eqb (Classification evidence) RecoveryIrreversible && negb (HumanApproved evidence))
       (reason "irreversible_recovery_approval_missing" "" "recovery"))%list.

(** The repository policies of the matrix, and whether they leave [policyReady] alone. *)
Definition policy_reasons (action : Action) (policyEvidence : gmap string RepositoryPolicyEvidence)
    (revision : Revision) : list Reason :=
  match policyEvidence !! ToLower (Revision_Repository revision) with
  | None => [reason "repository_policy_missing" (Revision_Repository revision) "policy"]
  | Some evidence =>
      (add_if (negb (RPE_Resolved evidence))
         (reason "repository_policy_unresolved" (Revision_Repository revision) "policy") ++
       add_if (negb (RPE_ActionAllowed evidence))
         (reason "policy_action_not_allowed" (Revision_Repository revision) action) ++
       add_if (negb (RPE_BranchAllowed evidence))
         (reason "target_branch_not_allowed" (Revision_Repository revision) (Revision_Branch revision)))%list
  end.

(** One run against the head of the revision. *)
Definition check_run_reasons (revision : Revision) (required : RequiredCheck) (check : CheckEvidence) : list Reason :=
  if negb (equalSHA (Check_HeadSHA check) (Revision_SHA revision))
  then [reason "required_check_stale" (Revision_Repository revision) (RequiredCheck_Name required)]
  else if negb (String.eqb (Check_Status check) StatusPassed)
  then [reason "required_check_failed" (Revision_Repository revision) (RequiredCheck_Name required)]
  else [].
Definition required_check_reasons (revision : Revision) (candidates : list CheckEvidence) (required : RequiredCheck)
    : list Reason :=
  let missing := [reason "required_check_missing" (Revision_Repository revision) (RequiredCheck_Name required)] in
  if Z.ltb 0 (RequiredCheck_IntegrationID required) then
    match List.find (λ c, Z.eqb (Check_IntegrationID c) (RequiredCheck_IntegrationID required)) candidates with
    | Some check =>
        (check_run_reasons revision required check ++
         (candidates ≫= λ candidate,
            if negb (Z.eqb (Check_IntegrationID candidate) 0) then []
            else check_run_reasons revision required candidate))%list
    | None =>
        match candidates with
        | [] => missing
        | _ => [reason "required_check_source_mismatch" (Revision_Repository revision) (RequiredCheck_Name required)]
        end
    end
  else
    match candidates with
    | [] => missing
    | [check] => check_run_reasons revision required check
    | _ => [reason "required_check_source_ambiguous" (Revision_Repository revision) (RequiredCheck_Name required)]
    end.

Definition branch_reasons (revision : Revision) (branches : gmap string BranchEvidence)
    (checks : gmap string (list CheckEvidence)) : list Reason :=
  let key := ToLower (Revision_Repository revision) in
  match branches !! key with
  | None => [reason "branch_evidence_missing" (Revision_Repository revision) "branch"]
  | Some branch =>
      (add_if (negb (equalSHA (Branch_HeadSHA branch) (Revision_SHA revision)))
         (reason "branch_evidence_stale" (Revision_Repository revision) "head_sha") ++
       (if negb (ProtectionEvaluated branch)
        then [reason "branch_protection_unknown" (Revision_Repository revision) "protection"]
        else add_if (negb (Protected branch)) (reason "branch_unprotected" (Revision_Repository revision) "protection")) ++
       add_if (negb (Mergeable branch) || negb (ConflictFree branch))
         (reason "branch_not_mergeable" (Revision_Repository revision) "mergeability") ++
       (if negb (validRequiredChecks (RequiredChecks branch))
        then [reason "required_checks_invalid" (Revision_Repository revision) "required_checks"]
        else RequiredChecks branch ≫= λ required,
               required_check_reasons revision
                 (default [] (checks !! check_key key (ToLower (RequiredCheck_Name required)))) required))%list
  end.

(** The review loop: [approved], [exactReviewSeen] and the reasons added. *)
Definition review_step (revision : Revision) (st : bool * bool * list Reason) (review : ReviewEvidence)
    : bool * bool * list Reason :=
  let '(approved, exactReviewSeen, rs) := st in
  if negb (equalSHA (Review_HeadSHA review) (Revision_SHA revision)) then st
  else if Z.ltb 0 (BlockingChangeRequests review) then
    (approved, true, (rs ++ [reason "review_changes_requested" (Revision_Repository revision) "review"])%list)
  else if negb (Review_Approved review) then (approved, true, rs)
  else if negb (independentActors (AuthorActor review) (ReviewerActor review)) then
    (approved, true, (rs ++ [reason "review_not_independent" (Revision_Repository revision) "review"])%list)
  else (true, true, rs).
Definition review_reasons (revision : Revision) (reviews : gmap string (list ReviewEvidence)) : list Reason :=
  let values := default [] (reviews !! ToLower (Revision_Repository revision)) in
  let '(approved, exactReviewSeen, rs) := foldl (review_step revision) (false, false, []) values in
  (rs ++
   if approved then []
   else match values with
        | [] => [reason "review_missing" (Revision_Repository revision) "review"]
        | _ =>
            if negb exactReviewSeen then [reason "review_evidence_stale" (Revision_Repository revision) "review"]
            else [reason "review_not_approved_for_head" (Revision_Repository revision) "review"]
        end)%list.

Definition vault_reasons (revision : Revision) (vault : gmap string VaultEvidence) : list Reason :=
  match vault !! ToLower (Revision_Repository revision) with
  | None => [reason "vault_evidence_missing" (Revision_Repository revision) "vault"]
  | Some v =>
      if negb (equalSHA (Vault_HeadSHA v) (Revision_SHA revision))
      then [reason "vault_evidence_stale" (Revision_Repository revision) "vault"]
      else if negb (Reconciled v) || String.eqb (TrimSpace (RevisionID v)) ""
      then [reason "vault_not_reconciled" (Revision_Repository revision) "vault"]
      else []
  end.
Definition security_reasons (revision : Revision) (security : gmap string SecurityEvidence) : list Reason :=
  match security !! ToLower (Revision_Repository revision) with
  | None => [reason "security_evidence_missing" (Revision_Repository revision) "security"]
  | Some s =>
      if negb (equalSHA (Security_HeadSHA s) (Revision_SHA revision))
      then [reason "security_evidence_stale" (Revision_Repository revision) "security"]
      else
        (add_if (negb (SecretScanPassed s))
           (reason "secret_scan_failed" (Revision_Repository revision) "secret_scan") ++
         add_if (Z.ltb (HighFindings s) 0 || Z.ltb (CriticalFindings s) 0 || Z.ltb 0 (HighFindings s) ||
                 Z.ltb 0 (CriticalFindings s))
           (reason "high_or_critical_security_findings" (Revision_Repository revision) "security"))%list
  end.

Definition test_reasons (matrixDigest : string) (tests : gmap string TestEvidence) (required : string) : list Reason :=
  match tests !! ToLower required with
  | None => [reason "required_test_missing" "" required]
  | Some test =>
      if negb (equalDigest (Test_MatrixDigest test) matrixDigest) then [reason "required_test_stale" "" required]
      else if negb (String.eqb (Test_Status test) StatusPassed) then [reason "required_test_failed" "" required]
      else []
  end.

Definition approval_reasons (approval : option HumanApproval) (subject : string) : list Reason :=
  let missing := [reason "human_approval_missing" "" "human_approval"] in
  match approval with
  | None => missing
  | Some a =>
      if negb (Approval_Approved a) || negb (EqualFold (TrimSpace (ActorType a)) "human") ||
         String.eqb (TrimSpace (Actor a)) "" then missing
      else if negb (equalDigest (Approval_SubjectDigest a) subject)
      then [reason "human_approval_stale" "" "human_approval"]
      else []
  end.

(** [sortReasons]: a stable sort on code, repository and evidence. *)
Definition reason_key (r : Reason) : string :=
  Code r +:+ NUL +:+ ToLower (Reason_Repository r) +:+ NUL +:+ ToLower (Evidence r).
Definition sortReasons : list Reason → list Reason := sort_key reason_key.

Definition ok_value (r : Result string string) : string := match r with Ok d => d | Err _ => "" end.
Definition empty_reasons (rs : list Reason) : bool := match rs with [] => true | _ => false end.

Definition Evaluate (input : Input) : Decision :=
  let decided matrix policy vault requirements subject state rs :=
    {| Decision_SchemaVersion := SchemaVersion; Decision_Action := Input_Action input;
       Decision_ChangeSetID := ChangeSetID input; MatrixDigest := matrix; PolicyDigest := policy;
       VaultDigest := vault; RequirementsDigest := requirements; SubjectDigest := subject; State := state;
       Reasons := sortReasons rs |} in
  let identity := add_if
    (negb (Z.eqb (Input_SchemaVersion input) SchemaVersion) ||
     (negb (String.eqb (Input_Action input) ActionMerge) && negb (String.eqb (Input_Action input) ActionRelease)) ||
     negb (changeSetPattern (ChangeSetID input)))
    (reason "invalid_input" "" "schema, action, or change-set identity") in
  match normalizeRevisions (Revisions input) with
  | Err _ => decided "" "" "" "" "" "blocked" (identity ++ [reason "revision_matrix_invalid" "" "revisions"])%list
  | Ok normalized =>
      let matrixDigest := ok_value (RevisionMatrixDigest normalized) in
      let policy := Input_Policy input in
      let policyDigest := CompositePolicyDigest (Policy_Repositories policy) in
      let '(policyEvidence, policyEvidenceReasons) := uniqueRepositoryPolicies (Policy_Repositories policy) in
      let policyValid := is_ok policyDigest && equalDigest (Policy_Digest policy) (ok_value policyDigest) &&
                         validUniqueNames (RequiredTestKinds policy) in
      let policyRevisionReasons := normalized ≫= policy_reasons (Input_Action input) policyEvidence in
      let policyReady := policyValid && empty_reasons policyRevisionReasons in
      let policyUnresolved := negb (Policy_Resolved policy) || negb policyReady ||
                              negb (Nat.eqb (size policyEvidence) (length normalized)) in
      let decidedPolicy := if policyUnresolved then "" else ok_value policyDigest in
      let vaultDigest := VaultEvidenceDigest (Vault input) in
      let requirementsDigest := BranchRequirementsDigest (Branches input) in
      let subject := subjectDigest (Input_Action input) matrixDigest decidedPolicy (ok_value vaultDigest)
                       (ok_value requirementsDigest) (RequiredTestKinds policy) (Classification (Recovery input)) in
      let '(branches, branchEvidenceReasons) := uniqueBranches (Branches input) in
      let '(checks, checkReasons) := groupChecks (Checks input) in
      let reviews := groupReviews (Reviews input) in
      let '(vault, vaultEvidenceReasons) := uniqueVault (Vault input) in
      let '(security, securityEvidenceReasons) := uniqueSecurity (Security input) in
      let revisionReasons := normalized ≫= λ revision,
        (branch_reasons revision branches checks ++ review_reasons revision reviews ++
         vault_reasons revision vault ++ security_reasons revision security)%list in
      let '(tests, testEvidenceReasons) := uniqueTests (Tests input) in
      let requiredTests :=
        if Policy_Resolved policy && validDigest (Policy_Digest policy) && validUniqueNames (RequiredTestKinds policy)
        then RequiredTestKinds policy ≫= test_reasons matrixDigest tests else [] in
      let rs :=
        (identity ++ policyEvidenceReasons ++
         add_if (negb policyValid) (reason "policy_evidence_invalid" "" "policy") ++
         policyRevisionReasons ++
         add_if policyUnresolved (reason "policy_unresolved" "" "required test policy") ++
         add_if (negb (is_ok vaultDigest)) (reason "vault_evidence_digest_invalid" "" "vault") ++
         add_if (negb (is_ok requirementsDigest)) (reason "branch_requirements_digest_invalid" "" "branch_requirements") ++
         branchEvidenceReasons ++ checkReasons ++ vaultEvidenceReasons ++ securityEvidenceReasons ++
         revisionReasons ++ testEvidenceReasons ++ requiredTests ++
         evaluateMatrixEvidence "compatibility" (Compatibility input) matrixDigest ++
         evaluateMatrixEvidence "migrations" (Migrations input) matrixDigest ++
         evaluateMatrixEvidence "dependencies" (Dependencies input) matrixDigest ++
         evaluateMatrixEvidence "environment" (Environment input) matrixDigest ++
         evaluateRecovery (Recovery input) matrixDigest ++
         approval_reasons (Input_HumanApproval input) subject)%list in
      decided matrixDigest decidedPolicy (ok_value vaultDigest) (ok_value requirementsDigest) subject
        (if empty_reasons rs then "allowed" else "blocked") rs
  end.
End Gate.
