(* ===== verification/ReleaseGateFacts.v ===== *)
(** * Release gate: lemmas on the indexing loops and on each group of reasons, and the
    specification [release_ready] *)
From stdpp Require Import base tactics list strings gmap.
From Stdlib Require Import Ascii.
From S2P Require Import Prelude GoStrings GoSort Sha256 Json ReleaseGate.
Open Scope string_scope.

(** ** Empty lists of reasons *)

Lemma add_if_nil c r : add_if c r = [] ↔ c = false.
Proof. by destruct c. Qed.
Lemma empty_reasons_nil rs : empty_reasons rs = true ↔ rs = [].
Proof. by destruct rs. Qed.
Lemma bind_nil {A} (f : A → list Reason) l : l ≫= f = [] ↔ ∀ x, x ∈ l → f x = [].
Proof.
  induction l as [|x l IH]; cbn; [split; [by intros _ ? ?%not_elem_of_nil|done]|].
  rewrite app_nil, IH. split.
  - intros [? Hl] y [->|?]%elem_of_cons; auto.
  - intros Hall. split; [apply Hall; constructor|intros y Hy; apply Hall; by constructor].
Qed.
Lemma bind_nil_cases {A} (f : A → list Reason) l : empty_reasons (l ≫= f) = true ↔ ∀ x, x ∈ l → f x = [].
Proof. rewrite empty_reasons_nil. apply bind_nil. Qed.

(** ** [unique_by] *)

(** Every value is well formed and no two share a key. *)
Definition all_unique {A} (key : A → string) (invalid : A → bool) (values : list A) : Prop :=
  Forall (λ v, invalid v = false) values ∧ NoDup (key <$> values).

Section Unique.
Context {A : Type} (key : A → string) (invalid : A → bool) (ir : Reason) (dr : A → Reason).

Lemma unique_by_nil (m : gmap string A) values :
  (unique_by key invalid ir dr m values).2 = [] ↔
  all_unique key invalid values ∧ ∀ v, v ∈ values → m !! key v = None.
Proof.
  revert m. induction values as [|v l IH]; intros m; cbn [unique_by].
  { split; [|done]. intros _. split; [by split; constructor|by intros ? ?%not_elem_of_nil]. }
  destruct (invalid v) eqn:Hinv.
  { destruct (unique_by key invalid ir dr m l). split; [done|]. intros [[Hf _] _]. inversion Hf. congruence. }
  destruct (m !! key v) eqn:Hm.
  { destruct (unique_by key invalid ir dr m l). split; [done|]. intros [_ Hnone].
    specialize (Hnone v ltac:(constructor)). congruence. }
  rewrite IH. unfold all_unique. rewrite Forall_cons, fmap_cons, NoDup_cons. split.
  - intros [[Hf Hnd] Hnone]. split_and!; [done|done| |done|].
    + intros (w & Hk & Hw)%list_elem_of_fmap. specialize (Hnone w Hw). rewrite Hk, lookup_insert_eq in Hnone. done.
    + intros w [->|Hw]%elem_of_cons; [done|]. specialize (Hnone w Hw). by apply lookup_insert_None in Hnone as [? _].
  - intros [[[_ Hf] [Hnotin Hnd]] Hnone]. split; [by split|]. intros w Hw. apply lookup_insert_None. split.
    + apply Hnone. by constructor.
    + intros Hk. apply Hnotin. rewrite Hk. by apply list_elem_of_fmap_2.
Qed.

Lemma unique_by_lookup (m : gmap string A) values k v :
  (unique_by key invalid ir dr m values).2 = [] →
  (unique_by key invalid ir dr m values).1 !! k = Some v ↔ (v ∈ values ∧ key v = k) ∨ m !! k = Some v.
Proof.
  revert m. induction values as [|w l IH]; intros m; cbn [unique_by].
  { intros _. cbn. rewrite elem_of_nil. naive_solver. }
  destruct (invalid w); [by destruct (unique_by key invalid ir dr m l)|].
  destruct (m !! key w) eqn:Hm; [by destruct (unique_by key invalid ir dr m l)|].
  intros Hnil. rewrite IH by done. rewrite lookup_insert_Some, elem_of_cons.
  apply unique_by_nil in Hnil as [[_ _] Hnone]. split.
  - intros [[? ?]|[[<- ->]|[? ?]]]; auto.
  - intros [[[->|?] <-]|Hk]; [by right; left|by left|].
    destruct (decide (key w = k)) as [<-|]; [congruence|auto].
Qed.

Lemma unique_by_size (m : gmap string A) values :
  (unique_by key invalid ir dr m values).2 = [] →
  (size (unique_by key invalid ir dr m values).1 = size m + length values)%nat.
Proof.
  revert m. induction values as [|w l IH]; intros m; cbn [unique_by length].
  { intros _. cbn. lia. }
  destruct (invalid w); [by destruct (unique_by key invalid ir dr m l)|].
  destruct (m !! key w) eqn:Hm; [by destruct (unique_by key invalid ir dr m l)|].
  intros Hnil. rewrite IH by done. rewrite map_size_insert_None by done. lia.
Qed.

(** From the empty map: the index of clean values is the set of the values. *)
Lemma unique_by_clean values :
  let '(m, rs) := unique_by key invalid ir dr ∅ values in
  (rs = [] ↔ all_unique key invalid values) ∧
  (rs = [] → (∀ k v, m !! k = Some v ↔ v ∈ values ∧ key v = k) ∧ size m = length values).
Proof.
  destruct (unique_by key invalid ir dr ∅ values) as [m rs] eqn:Hrun.
  pose proof (unique_by_nil ∅ values) as Hnil. pose proof (unique_by_lookup ∅ values) as Hl.
  pose proof (unique_by_size ∅ values) as Hs. rewrite Hrun in *. cbn in *. split.
  - rewrite Hnil. split; [by intros [? _]|]. intros ?. split; [done|]. intros. apply lookup_empty.
  - intros Hrs. split; [|rewrite Hs, map_size_empty by done; lia].
    intros k v. rewrite Hl by done. rewrite lookup_empty. naive_solver.
Qed.
End Unique.

(** An index with this description holds evidence [P] for [k] exactly when a value does. *)
Definition indexes {A} (key : A → string) (values : list A) (m : gmap string A) : Prop :=
  ∀ k v, m !! k = Some v ↔ v ∈ values ∧ key v = k.
Lemma indexes_match {A B} (key : A → string) values m k (f : A → list B) (missing : list B) :
  indexes key values m → missing ≠ [] →
  match m !! k with Some v => f v | None => missing end = [] ↔ ∃ v, v ∈ values ∧ key v = k ∧ f v = [].
Proof.
  intros Hm Hmiss. destruct (m !! k) as [v|] eqn:Hk.
  - apply Hm in Hk as [Hv Hkv]. split; [by exists v|]. intros (w & Hw & Hkw & Hf).
    assert (m !! k = Some w) as Hw' by by apply Hm. assert (m !! k = Some v) by by apply Hm. congruence.
  - split; [done|]. intros (w & Hw & Hkw & _). assert (m !! k = Some w) by by apply Hm. congruence.
Qed.

(** ** [append_at] and the grouping loops *)

Definition group {A} (m : gmap string (list A)) (k : string) : list A := default [] (m !! k).
Lemma group_append_at {A} k' (v : A) m k :
  group (append_at k' v m) k = if decide (k' = k) then (group m k ++ [v])%list else group m k.
Proof.
  unfold group, append_at. destruct (decide (k' = k)) as [->|Hne].
  - by rewrite lookup_insert_eq.
  - by rewrite lookup_insert_ne.
Qed.

Section Groups.
Context `{GoUnicode}.

Lemma groupReviews_group values k :
  group (groupReviews values) k =
  filter (λ v, repositoryKey (Review_Repository v) = k ∧
               validRepository (Review_Repository v) && Z.leb 0 (BlockingChangeRequests v) = true) values.
Proof.
  induction values as [|v l IH] using rev_ind; [done|].
  unfold groupReviews in *. rewrite foldl_snoc, filter_app, filter_cons, filter_nil.
  destruct (validRepository (Review_Repository v) && Z.leb 0 (BlockingChangeRequests v)) eqn:Hv.
  - rewrite group_append_at, IH. destruct (decide (repositoryKey (Review_Repository v) = k)) as [He|Hne].
    + by rewrite decide_True.
    + rewrite decide_False by naive_solver. by rewrite app_nil_r.
  - rewrite decide_False by naive_solver. by rewrite app_nil_r.
Qed.

Lemma groupChecks_loop_nil seen m values :
  (groupChecks_loop seen m values).2 = [] ↔
  all_unique checkIdentity invalidCheck values ∧ ∀ v, v ∈ values → checkIdentity v ∉ seen.
Proof.
  revert seen m. induction values as [|v l IH]; intros seen m; cbn [groupChecks_loop].
  { split; [|done]. intros _. split; [by split; constructor|by intros ? ?%not_elem_of_nil]. }
  destruct (invalidCheck v) eqn:Hinv.
  { destruct (groupChecks_loop seen m l). split; [done|]. intros [[Hf _] _]. inversion Hf. congruence. }
  destruct (bool_decide_reflect (checkIdentity v ∈ seen)) as [Hs|Hs].
  { destruct (groupChecks_loop seen m l). split; [done|]. intros [_ Hnone]. by destruct (Hnone v ltac:(constructor)). }
  rewrite IH. unfold all_unique. rewrite Forall_cons, fmap_cons, NoDup_cons. split.
  - intros [[Hf Hnd] Hnone]. split_and!; [done|done| |done|].
    + intros (w & Hk & Hw)%list_elem_of_fmap. specialize (Hnone w Hw). rewrite Hk in Hnone. set_solver.
    + intros w [->|Hw]%elem_of_cons; [done|]. specialize (Hnone w Hw). set_solver.
  - intros [[[_ Hf] [Hnotin Hnd]] Hnone]. split; [by split|]. intros w Hw.
    assert (checkIdentity w ∉ seen) by (apply Hnone; by constructor).
    assert (checkIdentity w ≠ checkIdentity v); [|set_solver]. intros Hk. apply Hnotin. rewrite <-Hk.
    by apply list_elem_of_fmap_2.
Qed.

Lemma groupChecks_loop_group seen m values k :
  (groupChecks_loop seen m values).2 = [] →
  group (groupChecks_loop seen m values).1 k = (group m k ++ filter (λ v, checkKey v = k) values)%list.
Proof.
  revert seen m. induction values as [|v l IH]; intros seen m; cbn [groupChecks_loop]; [by rewrite filter_nil, app_nil_r|].
  destruct (invalidCheck v); [by destruct (groupChecks_loop seen m l)|].
  case_bool_decide; [by destruct (groupChecks_loop seen m l)|]. intros Hnil.
  rewrite IH, group_append_at, filter_cons by done. destruct (decide (checkKey v = k)); [by rewrite <-app_assoc|done].
Qed.

Lemma groupChecks_clean values :
  let '(m, rs) := groupChecks values in
  (rs = [] ↔ all_unique checkIdentity invalidCheck values) ∧
  (rs = [] → ∀ k, group m k = filter (λ v, checkKey v = k) values).
Proof.
  unfold groupChecks. pose proof (groupChecks_loop_nil ∅ ∅ values) as Hnil.
  pose proof (groupChecks_loop_group ∅ ∅ values) as Hg.
  destruct (groupChecks_loop ∅ ∅ values) as [m rs]. cbn in *. split; [|intros Hrs k; by rewrite Hg].
  rewrite Hnil. split; [by intros [? _]|]. intros ?. split; [done|]. set_solver.
Qed.
End Groups.

(** ** Normal forms *)

(** A string whose parts between separators are made of [p] is made of [p] and separators. *)
Lemma split_bytes_all p sep cur l :
  Forall (λ part, all_bytes p part = true) (split_bytes sep cur l) →
  forallb p cur = true ∧ forallb (λ c, p c || Ascii.eqb c sep) l = true.
Proof.
  assert (∀ cur, all_bytes p (of_bytes (rev cur)) = true → forallb p cur = true) as Hrev.
  { intros c. unfold all_bytes. rewrite bytes_of_bytes, !forallb_forall. intros Hc x Hx. by apply Hc, (proj1 (in_rev _ _)). }
  revert cur. induction l as [|c l IH]; intros cur; cbn [split_bytes forallb].
  { rewrite Forall_singleton. by intros ?%Hrev. }
  destruct (Ascii.eqb c sep).
  - rewrite Forall_cons. intros [?%Hrev [_ Hl]%IH]. by rewrite Hl, orb_true_r.
  - intros [[Hc Hcur]%andb_true_iff Hl]%IH. by rewrite Hc, Hl.
Qed.

Lemma validRepository_visible s : validRepository s = true → all_bytes is_visible s = true.
Proof.
  unfold validRepository, Split. intros Hv.
  assert (Forall (λ part, all_bytes (λ c, is_alnum c || one_of "_.-" c) part = true) (split_bytes "/" [] (bytes s))) as Hs.
  { destruct (split_bytes "/" [] (bytes s)) as [|owner [|name [|? ?]]]; try discriminate.
    apply andb_true_iff in Hv as [Ho%re_plus_all Hn%re_plus_all]. by repeat constructor. }
  apply split_bytes_all in Hs as [_ Hs]. unfold all_bytes. rewrite forallb_forall in *. intros c Hc.
  specialize (Hs c Hc). revert Hs. by destruct c as [[] [] [] [] [] [] [] []].
Qed.
Lemma validRepository_ascii s : validRepository s = true → is_ascii s = true.
Proof. intros Hv. by apply visible_string_ascii, validRepository_visible. Qed.

Lemma hex_visible s : hex_decodes s = true → all_bytes is_visible s = true.
Proof. unfold hex_decodes. intros [_ Hs]%andb_true_iff. revert Hs. apply all_bytes_impl, hex_is_visible. Qed.

Section Normal.
Context `{GoUnicode}.

(** Lower-cased hexadecimal text is its own normal form. *)
Lemma hex_normal s :
  hex_decodes (ToLower (TrimSpace s)) = true →
  ToLower (TrimSpace (ToLower (TrimSpace s))) = ToLower (TrimSpace s).
Proof.
  intros Hx%hex_visible. rewrite TrimSpace_visible by done. apply ToLower_stable. by apply visible_string_ascii.
Qed.
Lemma validSHA_hex s : validSHA s = true → hex_decodes s = true.
Proof. unfold validSHA. by intros [_ ?]%andb_true_iff. Qed.

Lemma normalizeRevision_ok r k n :
  normalizeRevision r = Ok (k, n) ↔
  validRepository (TrimSpace (Revision_Repository r)) = true ∧ validBranch (TrimSpace (Revision_Branch r)) = true ∧
  validSHA (ToLower (TrimSpace (Revision_SHA r))) = true ∧ k = ToLower (TrimSpace (Revision_Repository r)) ∧
  n = {| Revision_Repository := TrimSpace (Revision_Repository r); Revision_Branch := TrimSpace (Revision_Branch r);
         Revision_SHA := ToLower (TrimSpace (Revision_SHA r)) |}.
Proof.
  unfold normalizeRevision. destruct (validRepository _), (validBranch _), (validSHA _); cbn; naive_solver.
Qed.
Lemma normalizeRevision_idem r k n : normalizeRevision r = Ok (k, n) → normalizeRevision n = Ok (k, n).
Proof.
  rewrite !normalizeRevision_ok. intros (Hr & Hb & Hs & -> & ->). cbn [Revision_Repository Revision_Branch Revision_SHA]. rewrite !TrimSpace_idem.
  rewrite hex_normal by by apply validSHA_hex. by split_and!.
Qed.

(** ** [collect] *)

Lemma Forall2_Ok_fun {A B} (f : A → Result string B) l k1 k2 :
  Forall2 (λ v b, f v = Ok b) l k1 → Forall2 (λ v b, f v = Ok b) l k2 → k1 = k2.
Proof.
  intros H1. revert k2. induction H1 as [|v b l k1 Hv _ IH]; intros k2 H2; inversion H2; subst; [done|].
  f_equal; [congruence|by apply IH].
Qed.
Lemma collect_ok {A B} (normalize : A → Result string (string * B)) dup seen values out :
  collect normalize dup seen values = Ok out ↔
  ∃ kvs, Forall2 (λ v kv, normalize v = Ok kv) values kvs ∧ NoDup kvs.*1 ∧ (∀ k, k ∈ kvs.*1 → k ∉ seen) ∧ out = kvs.*2.
Proof.
  revert seen out. induction values as [|v l IH]; intros seen out; cbn [collect].
  { split.
    - intros [= <-]. exists []. split_and!; [constructor|constructor|by intros ? ?%not_elem_of_nil|done].
    - intros (kvs & Hf & _ & _ & ->). by inversion Hf. }
  unfold mbind, result_mbind, result_bind. destruct (normalize v) as [[k b]|e] eqn:Hv.
  2:{ split; [done|]. intros (kvs & Hf & _). inversion Hf. congruence. }
  case_bool_decide as Hk.
  { split; [done|]. intros (kvs & Hf & _ & Hs & _). inversion Hf as [|? kv ? ? He]; subst. rewrite Hv in He.
    injection He as <-. destruct (Hs k ltac:(constructor) Hk). }
  destruct (collect normalize dup ({[k]} ∪ seen) l) as [out'|e] eqn:Hrec.
  - apply IH in Hrec as (kvs & Hf & Hnd & Hs & ->). split.
    + intros [= <-]. exists ((k, b) :: kvs). cbn. split_and!; [by constructor| |set_solver|done].
      constructor; [|done]. intros Hin. specialize (Hs k Hin). set_solver.
    + intros (kvs' & Hf' & _ & _ & ->). inversion Hf' as [|? kv ? kvs2 He Hf2]; subst. rewrite Hv in He.
      injection He as <-. cbn. by rewrite (Forall2_Ok_fun _ _ _ _ Hf Hf2).
  - split; [done|]. intros (kvs & Hf & Hnd & Hs & ->). inversion Hf as [|? kv ? kvs2 He Hf2]; subst. rewrite Hv in He.
    injection He as <-. cbn in *. apply NoDup_cons in Hnd as [Hk' Hnd].
    assert (collect normalize dup ({[k]} ∪ seen) l = Ok kvs2.*2); [|congruence]. apply IH.
    exists kvs2. split_and!; [done..| |done]. intros k' Hk2. specialize (Hs k' ltac:(by constructor)). set_solver.
Qed.

(** Success does not depend on the order, and neither does the collection. *)
Lemma collect_perm {A B} (normalize : A → Result string (string * B)) dup values values' out :
  values ≡ₚ values' → collect normalize dup ∅ values = Ok out →
  ∃ out', collect normalize dup ∅ values' = Ok out' ∧ out ≡ₚ out'.
Proof.
  intros Hp (kvs & Hf & Hnd & _ & ->)%collect_ok.
  destruct (Permutation_Forall2 Hp Hf) as (kvs' & Hp' & Hf'). exists kvs'.*2. split; [|by rewrite Hp'].
  apply collect_ok. exists kvs'. split_and!; [done|by rewrite <-Hp'|set_solver|done].
Qed.
Lemma collect_keys {A B} (normalize : A → Result string (string * B)) (key : B → string) dup values out :
  (∀ v k b, normalize v = Ok (k, b) → key b = k) → collect normalize dup ∅ values = Ok out → NoDup (key <$> out).
Proof.
  intros Hkey (kvs & Hf & Hnd & _ & ->)%collect_ok. rewrite <-list_fmap_compose.
  replace ((key ∘ snd) <$> kvs) with kvs.*1; [done|]. apply list_fmap_ext. intros i [k b] Hi.
  destruct (Forall2_lookup_r _ _ _ _ _ Hf Hi) as (v & _ & Hv). cbn. symmetry. by eapply Hkey.
Qed.
(** A collection of normal forms collects to itself. *)
Lemma collect_idem {B} (normalize : B → Result string (string * B)) (key : B → string) dup values :
  Forall (λ b, normalize b = Ok (key b, b)) values → NoDup (key <$> values) → collect normalize dup ∅ values = Ok values.
Proof.
  intros Hf Hnd. apply collect_ok. exists ((λ b, (key b, b)) <$> values). rewrite <-!list_fmap_compose. split_and!.
  - clear Hnd. induction Hf; by constructor.
  - exact Hnd.
  - set_solver.
  - by rewrite list_fmap_id.
Qed.

Lemma normalizeRevisions_idem revisions normalized :
  normalizeRevisions revisions = Ok normalized → normalizeRevisions normalized = Ok normalized.
Proof.
  unfold normalizeRevisions. destruct (size_invalid revisions) eqn:Hsize; [done|].
  unfold mbind, result_mbind, result_bind. destruct (collect _ _ _ revisions) as [out|] eqn:Hc; [|done]. intros [= <-].
  pose proof (collect_ok normalizeRevision "repository is duplicated" ∅ revisions out) as [Hok _].
  destruct (Hok Hc) as (kvs & Hf & Hnd & _ & Hout).
  assert (∀ v k b, normalizeRevision v = Ok (k, b) → ToLower (Revision_Repository b) = k) as Hkey.
  { intros v k b (_ & _ & _ & -> & ->)%normalizeRevision_ok. done. }
  pose proof (collect_keys _ (λ r, ToLower (Revision_Repository r)) _ _ _ Hkey Hc) as Hkeys.
  set (sorted := sort_key (λ r, ToLower (Revision_Repository r)) out).
  assert (sorted ≡ₚ out) as Hp by apply sort_key_perm.
  assert (size_invalid sorted = false) as ->.
  { unfold size_invalid in *. rewrite Hp, Hout, length_fmap, <-(Forall2_length _ _ _ Hf). done. }
  rewrite (collect_idem _ (λ r, ToLower (Revision_Repository r))).
  - unfold mret, result_mret. f_equal. apply sort_key_id, sort_key_sorted.
  - rewrite Hp, Hout, Forall_fmap. apply Forall_lookup. intros i [k b] Hi.
    destruct (Forall2_lookup_r _ _ _ _ _ Hf Hi) as (v & _ & Hv). cbn. rewrite (Hkey _ _ _ Hv). by eapply normalizeRevision_idem.
  - by rewrite Hp.
Qed.
End Normal.

(** ** When a release is ready

    [release_ready] says, in terms of membership in the evidence lists only, what a merge
    or release needs. It mentions no index, no loop and no reason. The lemmas relate each
    group of reasons of [Evaluate] to its clause. *)

Section Spec.
Context `{GoUnicode}.

(** Evidence [v] of a list is about the repository of [revision]. *)
Definition about (revision : Revision) (repository : string) : Prop :=
  repositoryKey repository = ToLower (Revision_Repository revision).
Definition at_head (revision : Revision) (sha : string) : Prop := equalSHA sha (Revision_SHA revision) = true.

Definition policy_allows (revision : Revision) (e : RepositoryPolicyEvidence) : Prop :=
  about revision (RPE_Repository e) ∧ RPE_Resolved e = true ∧ RPE_ActionAllowed e = true ∧ RPE_BranchAllowed e = true.

Definition run_passes (revision : Revision) (c : CheckEvidence) : Prop :=
  at_head revision (Check_HeadSHA c) ∧ Check_Status c = StatusPassed.
(** The runs reported for a required name of the repository. *)
Definition runs_of (revision : Revision) (checks : list CheckEvidence) (name : string) : list CheckEvidence :=
  filter (λ c, checkKey c = check_key (ToLower (Revision_Repository revision)) (ToLower name)) checks.
(** A required check pinned to an App needs that App's run and every unattributed run to
    pass; an unpinned one needs a single, passing run. *)
Definition check_satisfied (revision : Revision) (runs : list CheckEvidence) (required : RequiredCheck) : Prop :=
  if Z.ltb 0 (RequiredCheck_IntegrationID required)
  then (∃ c, c ∈ runs ∧ Check_IntegrationID c = RequiredCheck_IntegrationID required ∧ run_passes revision c) ∧
       (∀ c, c ∈ runs → Check_IntegrationID c = 0%Z → run_passes revision c)
  else ∃ c, runs = [c] ∧ run_passes revision c.

Definition branch_ready (revision : Revision) (checks : list CheckEvidence) (b : BranchEvidence) : Prop :=
  about revision (Branch_Repository b) ∧ at_head revision (Branch_HeadSHA b) ∧
  ProtectionEvaluated b = true ∧ Protected b = true ∧ Mergeable b = true ∧ ConflictFree b = true ∧
  validRequiredChecks (RequiredChecks b) = true ∧
  ∀ required, required ∈ RequiredChecks b →
    check_satisfied revision (runs_of revision checks (RequiredCheck_Name required)) required.

Definition review_counts (revision : Revision) (review : ReviewEvidence) : Prop :=
  about revision (Review_Repository review) ∧ validRepository (Review_Repository review) = true ∧
  (0 ≤ BlockingChangeRequests review)%Z ∧ at_head revision (Review_HeadSHA review).
(** Some review approves the head, none blocks it, and every approval of it is independent. *)
Definition reviewed (revision : Revision) (reviews : list ReviewEvidence) : Prop :=
  (∃ review, review ∈ reviews ∧ review_counts revision review ∧ Review_Approved review = true) ∧
  ∀ review, review ∈ reviews → review_counts revision review →
    BlockingChangeRequests review = 0%Z ∧
    (Review_Approved review = true → independentActors (AuthorActor review) (ReviewerActor review) = true).

Definition vault_ready (revision : Revision) (v : VaultEvidence) : Prop :=
  about revision (Vault_Repository v) ∧ at_head revision (Vault_HeadSHA v) ∧ Reconciled v = true ∧
  TrimSpace (RevisionID v) ≠ "".
Definition secure (revision : Revision) (s : SecurityEvidence) : Prop :=
  about revision (Security_Repository s) ∧ at_head revision (Security_HeadSHA s) ∧ SecretScanPassed s = true ∧
  HighFindings s = 0%Z ∧ CriticalFindings s = 0%Z.
Definition test_passed (matrixDigest required : string) (t : TestEvidence) : Prop :=
  ToLower (TrimSpace (Test_Kind t)) = ToLower required ∧ equalDigest (Test_MatrixDigest t) matrixDigest = true ∧
  Test_Status t = StatusPassed.
Definition matrix_passed (matrixDigest : string) (e : MatrixEvidence) : Prop :=
  equalDigest (Matrix_MatrixDigest e) matrixDigest = true ∧ Matrix_Status e = StatusPassed.
Definition recoverable (matrixDigest : string) (e : RecoveryEvidence) : Prop :=
  equalDigest (Recovery_MatrixDigest e) matrixDigest = true ∧ Evaluated e = true ∧
  known_classification (Classification e) = true ∧
  (Classification e = RecoveryIrreversible → HumanApproved e = true).
Definition approves (subject : string) (a : HumanApproval) : Prop :=
  Approval_Approved a = true ∧ EqualFold (TrimSpace (ActorType a)) "human" = true ∧ TrimSpace (Actor a) ≠ "" ∧
  equalDigest (Approval_SubjectDigest a) subject = true.

(** No list names a repository, a check identity or a test kind twice, or malformed. *)
Record well_formed_evidence (i : Input) : Prop := {
  wf_policies : all_unique (λ v, repositoryKey (RPE_Repository v))
    (λ v, negb (validRepository (RPE_Repository v)) || negb (validDigest (ToLower (TrimSpace (RPE_Digest v)))))
    (Policy_Repositories (Input_Policy i));
  wf_branches : all_unique (λ v, repositoryKey (Branch_Repository v))
    (λ v, negb (validRepository (Branch_Repository v)) || String.eqb (repositoryKey (Branch_Repository v)) "") (Branches i);
  wf_checks : all_unique checkIdentity invalidCheck (Checks i);
  wf_vault : all_unique (λ v, repositoryKey (Vault_Repository v)) (λ v, negb (validRepository (Vault_Repository v))) (Vault i);
  wf_security : all_unique (λ v, repositoryKey (Security_Repository v))
    (λ v, negb (validRepository (Security_Repository v))) (Security i);
  wf_tests : all_unique (λ v, ToLower (TrimSpace (Test_Kind v)))
    (λ v, negb (evidenceNamePattern (TrimSpace (Test_Kind v)))) (Tests i);
}.

Record release_ready (i : Input) (matrix : list Revision) (matrixDigest policyDigest vaultDigest requirementsDigest : string)
    : Prop := {
  ready_identity : Input_SchemaVersion i = SchemaVersion ∧
    (Input_Action i = ActionMerge ∨ Input_Action i = ActionRelease) ∧ changeSetPattern (ChangeSetID i) = true;
  ready_matrix : normalizeRevisions (Revisions i) = Ok matrix;
  ready_matrix_digest : RevisionMatrixDigest (Revisions i) = Ok matrixDigest;
  ready_policy_digest : CompositePolicyDigest (Policy_Repositories (Input_Policy i)) = Ok policyDigest ∧
    equalDigest (Policy_Digest (Input_Policy i)) policyDigest = true;
  ready_policy : Policy_Resolved (Input_Policy i) = true ∧
    validUniqueNames (RequiredTestKinds (Input_Policy i)) = true ∧
    length (Policy_Repositories (Input_Policy i)) = length matrix;
  ready_vault_digest : VaultEvidenceDigest (Vault i) = Ok vaultDigest;
  ready_requirements_digest : BranchRequirementsDigest (Branches i) = Ok requirementsDigest;
  ready_evidence : well_formed_evidence i;
  ready_revision : ∀ r, r ∈ matrix →
    (∃ e, e ∈ Policy_Repositories (Input_Policy i) ∧ policy_allows r e) ∧
    (∃ b, b ∈ Branches i ∧ branch_ready r (Checks i) b) ∧ reviewed r (Reviews i) ∧
    (∃ v, v ∈ Vault i ∧ vault_ready r v) ∧ (∃ s, s ∈ Security i ∧ secure r s);
  ready_tests : ∀ kind, kind ∈ RequiredTestKinds (Input_Policy i) → ∃ t, t ∈ Tests i ∧ test_passed matrixDigest kind t;
  ready_matrix_evidence : matrix_passed matrixDigest (Compatibility i) ∧ matrix_passed matrixDigest (Migrations i) ∧
    matrix_passed matrixDigest (Dependencies i) ∧ matrix_passed matrixDigest (Environment i);
  ready_recovery : recoverable matrixDigest (Recovery i);
  ready_approval : ∃ a, Input_HumanApproval i = Some a ∧
    approves (subjectDigest (Input_Action i) matrixDigest policyDigest vaultDigest requirementsDigest
                (RequiredTestKinds (Input_Policy i)) (Classification (Recovery i))) a;
}.

(** ** Each group of reasons and its clause *)

Ltac bools := repeat rewrite ?negb_true_iff, ?negb_false_iff, ?orb_false_iff, ?andb_false_iff, ?String.eqb_eq, ?String.eqb_neq.
Ltac by_bools := repeat (case_match; cbn in *); bools; naive_solver.

Lemma check_run_nil r required c : check_run_reasons r required c = [] ↔ run_passes r c.
Proof.
  unfold check_run_reasons, run_passes, at_head. destruct (equalSHA _ _); cbn; [|naive_solver].
  destruct (String.eqb_spec (Check_Status c) StatusPassed); cbn; naive_solver.
Qed.

Lemma required_check_nil r runs required :
  (∀ c c', c ∈ runs → c' ∈ runs → Check_IntegrationID c = Check_IntegrationID c' → c = c') →
  required_check_reasons r runs required = [] ↔ check_satisfied r runs required.
Proof.
  intros Huniq. unfold required_check_reasons, check_satisfied. destruct (Z.ltb 0 (RequiredCheck_IntegrationID required)).
  - destruct (List.find _ runs) as [c|] eqn:Hfind.
    + apply find_some in Hfind as [Hc%list_elem_of_In Hid%Z.eqb_eq]. rewrite app_nil, check_run_nil, bind_nil. split.
      * intros [Hp Hz]. split; [by exists c|]. intros c' Hc' H0. specialize (Hz c' Hc'). rewrite H0 in Hz. by apply check_run_nil in Hz.
      * intros [(c' & Hc' & Hid' & Hp) Hz]. split; [by rewrite (Huniq c c') by congruence|]. intros x Hx.
        destruct (Z.eqb_spec (Check_IntegrationID x) 0); cbn; [|done]. apply check_run_nil. by apply Hz.
    + split; [by destruct runs|]. intros [(c & Hc & Hid & _) _]. pose proof (find_none _ _ Hfind c) as Hn. cbn in Hn.
      rewrite Hid, Z.eqb_refl in Hn. by specialize (Hn (proj1 (list_elem_of_In _ _) Hc)).
  - destruct runs as [|c [|c' rest]].
    + split; [done|]. by intros (? & ? & _).
    + rewrite check_run_nil. split; [by exists c|]. by intros (? & [= <-] & ?).
    + split; [done|]. by intros (? & ? & _).
Qed.

(** Checks that agree on their key and integration are the same check. *)
Lemma runs_unique r checks name :
  all_unique checkIdentity invalidCheck checks →
  ∀ c c', c ∈ runs_of r checks name → c' ∈ runs_of r checks name →
    Check_IntegrationID c = Check_IntegrationID c' → c = c'.
Proof.
  intros [_ Hnd] c c' [Hk Hc]%list_elem_of_filter [Hk' Hc']%list_elem_of_filter Hid.
  apply list_elem_of_lookup in Hc as [i Hi], Hc' as [j Hj].
  assert (i = j) as ->; [|congruence].
  eapply (NoDup_lookup (checkIdentity <$> checks)); [done|rewrite list_lookup_fmap, Hi; reflexivity|].
  rewrite list_lookup_fmap, Hj. cbn. unfold checkIdentity. by rewrite Hk, Hk', Hid.
Qed.

Lemma branch_nil r branches checks bm cm :
  indexes (λ v, repositoryKey (Branch_Repository v)) branches bm →
  all_unique checkIdentity invalidCheck checks → (∀ k, group cm k = filter (λ v, checkKey v = k) checks) →
  branch_reasons r bm cm = [] ↔ ∃ b, b ∈ branches ∧ branch_ready r checks b.
Proof.
  intros Hb Hu Hc. unfold branch_reasons. rewrite (indexes_match _ branches) by done. apply exist_proper. intros b.
  rewrite !app_nil, !add_if_nil. unfold branch_ready, about, at_head.
  assert ((if negb (validRequiredChecks (RequiredChecks b))
           then [reason "required_checks_invalid" (Revision_Repository r) "required_checks"]
           else RequiredChecks b ≫= λ required,
             required_check_reasons r (default [] (cm !! check_key (ToLower (Revision_Repository r)) (ToLower (RequiredCheck_Name required)))) required) = []
          ↔ validRequiredChecks (RequiredChecks b) = true ∧
            ∀ required, required ∈ RequiredChecks b → check_satisfied r (runs_of r checks (RequiredCheck_Name required)) required) as ->.
  { destruct (validRequiredChecks (RequiredChecks b)); cbn; [|naive_solver]. rewrite bind_nil.
    split; [intros Hall; split; [done|]|intros [_ Hall]]; intros q Hq; specialize (Hall q Hq);
      fold (group cm (check_key (ToLower (Revision_Repository r)) (ToLower (RequiredCheck_Name q)))) in *;
      rewrite Hc in *; apply required_check_nil in Hall || apply required_check_nil; try done; by apply runs_unique. }
  destruct (equalSHA _ _), (ProtectionEvaluated b), (Protected b), (Mergeable b), (ConflictFree b); cbn; naive_solver.
Qed.

Lemma all_cons {A} (P Q : A → Prop) v l :
  (∀ w, w ∈ v :: l → P w → Q w) ↔ (P v → Q v) ∧ ∀ w, w ∈ l → P w → Q w.
Proof.
  split.
  - intros Hall. split; [apply Hall; constructor|]. intros w Hw. apply Hall. by constructor.
  - intros [Hv Hl] w [->|Hw]%elem_of_cons; auto.
Qed.
Lemma ex_cons {A} (P Q : A → Prop) v l :
  (∃ w, w ∈ v :: l ∧ P w ∧ Q w) ↔ (P v ∧ Q v) ∨ ∃ w, w ∈ l ∧ P w ∧ Q w.
Proof.
  split.
  - intros (w & [->|Hw]%elem_of_cons & Hp); [by left|right; by exists w].
  - intros [Hv|(w & Hw & Hp)]; [exists v|exists w]; (split; [by constructor|done]).
Qed.

(** The review loop, from any state: what it finds on the reviews of the head. *)
Definition no_objection (v : ReviewEvidence) : Prop :=
  (BlockingChangeRequests v ≤ 0)%Z ∧
  (Review_Approved v = true → independentActors (AuthorActor v) (ReviewerActor v) = true).
Definition loop_spec r (start : bool * list Reason) (values : list ReviewEvidence) (result : bool * list Reason) : Prop :=
  (result.2 = [] ↔ start.2 = [] ∧ ∀ v, v ∈ values → at_head r (Review_HeadSHA v) → no_objection v) ∧
  (result.2 = [] → result.1 = true ↔
     start.1 = true ∨ ∃ v, v ∈ values ∧ at_head r (Review_HeadSHA v) ∧ Review_Approved v = true).
Lemma loop_objection r v l a rs x result :
  at_head r (Review_HeadSHA v) → ¬ no_objection v →
  loop_spec r (a, (rs ++ [x])%list) l result → loop_spec r (a, rs) (v :: l) result.
Proof.
  intros Hh Hno [H1 H2]. assert (result.2 ≠ []) as Hne by (intros Hx; apply H1 in Hx as [[_ ?]%app_nil _]; done).
  split; [|done]. split; [done|]. intros [_ Hall]. destruct Hno. apply Hall; [constructor|done].
Qed.
Lemma review_fold r values approved seen rs :
  let result := foldl (review_step r) (approved, seen, rs) values in
  loop_spec r (approved, rs) values (result.1.1, result.2).
Proof.
  cbv zeta. revert approved seen rs. induction values as [|v l IH]; intros approved seen rs; cbn [foldl].
  { split; cbn; setoid_rewrite elem_of_nil; naive_solver. }
  unfold review_step at 2 4.
  assert (at_head r (Review_HeadSHA v) ↔ equalSHA (Review_HeadSHA v) (Revision_SHA r) = true) as Hat by done.
  destruct (equalSHA (Review_HeadSHA v) (Revision_SHA r)) eqn:Hsha; cbn [negb].
  2:{ destruct (IH approved seen rs) as [H1 H2]. split; rewrite ?all_cons, ?ex_cons; intuition congruence. }
  destruct (Z.ltb_spec 0 (BlockingChangeRequests v)) as [Hb|Hb].
  { eapply loop_objection, IH; [done|]. intros [? _]. lia. }
  destruct (Review_Approved v) eqn:Ha; cbn [negb].
  2:{ destruct (IH approved true rs) as [H1 H2]. unfold loop_spec, no_objection in *.
      split; rewrite ?all_cons, ?ex_cons; intuition congruence. }
  destruct (independentActors (AuthorActor v) (ReviewerActor v)) eqn:Hi; cbn [negb].
  - destruct (IH true true rs) as [H1 H2]. unfold loop_spec, no_objection in *.
    split; rewrite ?all_cons, ?ex_cons; intuition congruence.
  - eapply loop_objection, IH; [done|]. intros [_ ?]. intuition congruence.
Qed.

Lemma review_nil r reviews : review_reasons r (groupReviews reviews) = [] ↔ reviewed r reviews.
Proof.
  unfold review_reasons. fold (group (groupReviews reviews) (ToLower (Revision_Repository r))).
  rewrite groupReviews_group. set (values := filter _ reviews).
  assert (∀ v, v ∈ values ∧ at_head r (Review_HeadSHA v) ↔ v ∈ reviews ∧ review_counts r v) as Hv.
  { intros v. subst values. rewrite list_elem_of_filter, andb_true_iff, Z.leb_le. unfold review_counts, about. naive_solver. }
  pose proof (review_fold r values false false []) as Hf. cbn in Hf.
  destruct (foldl (review_step r) (false, false, []) values) as [[approved seen] rs].
  destruct Hf as [Hrs Happ]. cbn in Hrs, Happ. rewrite app_nil. unfold reviewed.
  assert ((if approved then []
           else match values with
                | [] => [reason "review_missing" (Revision_Repository r) "review"]
                | _ => if negb seen then [reason "review_evidence_stale" (Revision_Repository r) "review"]
                       else [reason "review_not_approved_for_head" (Revision_Repository r) "review"]
                end) = [] ↔ approved = true) as ->.
  { destruct approved, values, seen; done. }
  split.
  - intros [Hnil Ha]. destruct (proj1 (Happ Hnil) Ha) as [?|(v & Hin & Hc & Hap)]; [done|]. split.
    { exists v. by destruct (proj1 (Hv v)) as [? ?]. }
    intros w Hw Hcw. destruct (proj2 (Hv w)) as [? ?]; [done|]. destruct (proj1 Hrs Hnil) as [_ Hall].
    destruct (Hall w) as [? ?]; [done..|]. split; [|done]. destruct Hcw as (_ & _ & ? & _). lia.
  - intros [(v & Hin & Hc & Hap) Hall]. assert (rs = []) as Hnil.
    { apply Hrs. split; [done|]. intros w Hw Hcw. destruct (proj1 (Hv w)) as [Hw' Hcw']; [done|].
      destruct (Hall w Hw' Hcw') as [? ?]. split; [lia|done]. }
    split; [done|]. apply Happ; [done|]. right. exists v. by destruct (proj2 (Hv v)) as [? ?].
Qed.

Lemma vault_nil r values vm :
  indexes (λ v, repositoryKey (Vault_Repository v)) values vm →
  vault_reasons r vm = [] ↔ ∃ v, v ∈ values ∧ vault_ready r v.
Proof.
  intros Hv. unfold vault_reasons. rewrite (indexes_match _ values) by done. apply exist_proper. intros v.
  unfold vault_ready, about, at_head. destruct (equalSHA _ _), (Reconciled v); cbn; try naive_solver.
  destruct (String.eqb_spec (TrimSpace (RevisionID v)) ""); naive_solver.
Qed.
Lemma security_nil r values sm :
  indexes (λ v, repositoryKey (Security_Repository v)) values sm →
  security_reasons r sm = [] ↔ ∃ s, s ∈ values ∧ secure r s.
Proof.
  intros Hs. unfold security_reasons. rewrite (indexes_match _ values) by done. apply exist_proper. intros v.
  unfold secure, about, at_head. destruct (equalSHA _ _); cbn; [|naive_solver].
  rewrite app_nil, !add_if_nil, !orb_false_iff, !Z.ltb_ge, negb_false_iff. intuition lia.
Qed.
Lemma policy_nil action r values pm :
  indexes (λ v, repositoryKey (RPE_Repository v)) values pm →
  policy_reasons action pm r = [] ↔ ∃ e, e ∈ values ∧ policy_allows r e.
Proof.
  intros Hp. unfold policy_reasons. rewrite (indexes_match _ values) by done. apply exist_proper. intros v.
  rewrite !app_nil, !add_if_nil, !negb_false_iff. unfold policy_allows, about. naive_solver.
Qed.
Lemma test_nil matrixDigest values tm required :
  indexes (λ v, ToLower (TrimSpace (Test_Kind v))) values tm →
  test_reasons matrixDigest tm required = [] ↔ ∃ t, t ∈ values ∧ test_passed matrixDigest required t.
Proof.
  intros Ht. unfold test_reasons. rewrite (indexes_match _ values) by done. apply exist_proper. intros v.
  unfold test_passed. destruct (equalDigest _ _); cbn; [|naive_solver].
  destruct (String.eqb_spec (Test_Status v) StatusPassed); cbn; naive_solver.
Qed.
Lemma matrix_nil name e matrixDigest : evaluateMatrixEvidence name e matrixDigest = [] ↔ matrix_passed matrixDigest e.
Proof.
  unfold evaluateMatrixEvidence, matrix_passed. destruct (equalDigest _ _); cbn; [|naive_solver].
  destruct (String.eqb_spec (Matrix_Status e) StatusPassed); cbn; naive_solver.
Qed.
Lemma recovery_nil e matrixDigest : evaluateRecovery e matrixDigest = [] ↔ recoverable matrixDigest e.
Proof.
  unfold evaluateRecovery, recoverable. destruct (equalDigest _ _); cbn; [|naive_solver].
  rewrite app_nil, !add_if_nil, orb_false_iff, andb_false_iff, !negb_false_iff, String.eqb_neq.
  destruct (HumanApproved e), (decide (Classification e = RecoveryIrreversible)); naive_solver.
Qed.
Lemma approval_nil approval subject :
  approval_reasons approval subject = [] ↔ ∃ a, approval = Some a ∧ approves subject a.
Proof.
  unfold approval_reasons. destruct approval as [a|]; [|split; [done|by intros (? & ? & _)]].
  assert (approves subject a ↔
    negb (Approval_Approved a) || negb (EqualFold (TrimSpace (ActorType a)) "human") || String.eqb (TrimSpace (Actor a)) "" = false ∧
    equalDigest (Approval_SubjectDigest a) subject = true) as Ha.
  { unfold approves. rewrite !orb_false_iff, !negb_false_iff, String.eqb_neq. tauto. }
  split.
  - intros Hnil. exists a. split; [done|]. apply Ha.
    destruct (negb (Approval_Approved a) || _ || _); [done|]. by destruct (equalDigest _ _).
  - intros (? & [= <-] & [-> ->]%Ha). done.
Qed.
End Spec.
