(* ===== verification/ReleaseGateTheorems.v ===== *)
(** * Release gate: the properties *)
From stdpp Require Import base tactics list strings gmap.
From Stdlib Require Import Ascii.
From S2P Require Import Prelude GoStrings GoSort Sha256 Json ReleaseGate ReleaseGateFacts.
Open Scope string_scope.

Section Theorems.
Context `{GoUnicode}.

(** ** [allowed] means ready *)

Lemma matrix_digest_normalized revisions n :
  normalizeRevisions revisions = Ok n →
  RevisionMatrixDigest n = RevisionMatrixDigest revisions ∧ is_ok (RevisionMatrixDigest revisions) = true.
Proof. intros Hn. unfold RevisionMatrixDigest. by rewrite (normalizeRevisions_idem _ _ Hn), Hn. Qed.

Lemma allowed_empty (rs : list Reason) :
  (if empty_reasons rs then "allowed" else "blocked") = "allowed" ↔ rs = [].
Proof. destruct rs; cbn; [done|split; discriminate]. Qed.

Lemma identity_nil i :
  negb (Z.eqb (Input_SchemaVersion i) SchemaVersion) ||
  (negb (String.eqb (Input_Action i) ActionMerge) && negb (String.eqb (Input_Action i) ActionRelease)) ||
  negb (changeSetPattern (ChangeSetID i)) = false ↔
  Input_SchemaVersion i = SchemaVersion ∧
  (Input_Action i = ActionMerge ∨ Input_Action i = ActionRelease) ∧ changeSetPattern (ChangeSetID i) = true.
Proof.
  rewrite !orb_false_iff, andb_false_iff, !negb_false_iff, Z.eqb_eq, !String.eqb_eq. tauto.
Qed.

(** The digests of a decided input, as [Evaluate] passes them on. *)
Lemma ok_value_Ok r d : r = Ok d ↔ is_ok r = true ∧ ok_value r = d.
Proof. destruct r; cbn; naive_solver. Qed.

(** A computed digest is its own normal form, so [equalDigest] against one is equality. *)
Lemma lower_hex_facts c : is_lower_hex c = true → is_visible c = true ∧ negb (is_upper c) = true ∧ is_hex_digit c = true.
Proof. destruct c as [[] [] [] [] [] [] [] []]; vm_compute; auto. Qed.
Lemma digest_normal m : ToLower (TrimSpace (hexSum256 m)) = hexSum256 m.
Proof.
  pose proof (hexSum256_hex m) as Hm. assert (all_bytes is_visible (hexSum256 m) = true) as Hv.
  { revert Hm. apply all_bytes_impl. intros c Hc. by apply lower_hex_facts. }
  rewrite TrimSpace_visible by done. rewrite ToLower_ascii by by apply visible_string_ascii. apply map_lower_id.
  revert Hm. apply all_bytes_impl. intros c Hc. by apply lower_hex_facts.
Qed.
Lemma digest_valid m : validDigest (hexSum256 m) = true.
Proof.
  unfold validDigest, hex_decodes. rewrite digest_normal, hexSum256_length. cbn [Nat.eqb Nat.even andb].
  generalize (hexSum256_hex m). apply all_bytes_impl. intros c Hc. by apply lower_hex_facts.
Qed.
Lemma equalDigest_hex d m : equalDigest d (hexSum256 m) = true ↔ ToLower (TrimSpace d) = hexSum256 m.
Proof.
  unfold equalDigest. rewrite digest_normal, andb_true_iff, String.eqb_eq. split; [by intros [? _]|].
  intros ->. split; [done|apply digest_valid].
Qed.
Lemma equalDigest_valid d m : equalDigest d (hexSum256 m) = true → validDigest d = true.
Proof.
  intros Hd%equalDigest_hex. pose proof (digest_valid m) as Hv. unfold validDigest in *. by rewrite Hd, <-(digest_normal m).
Qed.

(** The four digests are digests. *)
Lemma CompositePolicyDigest_hex values d : CompositePolicyDigest values = Ok d → ∃ m, d = hexSum256 m.
Proof. unfold CompositePolicyDigest. case_match; [done|]. intros (? & _ & [= <-])%bind_ok. eauto. Qed.
Lemma RevisionMatrixDigest_hex values d : RevisionMatrixDigest values = Ok d → ∃ m, d = hexSum256 m.
Proof. unfold RevisionMatrixDigest. intros (? & _ & [= <-])%bind_ok. eauto. Qed.
Lemma VaultEvidenceDigest_hex values d : VaultEvidenceDigest values = Ok d → ∃ m, d = hexSum256 m.
Proof. unfold VaultEvidenceDigest. case_match; [done|]. intros (? & _ & [= <-])%bind_ok. eauto. Qed.
Lemma BranchRequirementsDigest_hex values d : BranchRequirementsDigest values = Ok d → ∃ m, d = hexSum256 m.
Proof. unfold BranchRequirementsDigest. case_match; [done|]. intros (? & _ & [= <-])%bind_ok. eauto. Qed.

Lemma policy_clause i n pm :
  let policy := Input_Policy i in
  let digest := CompositePolicyDigest (Policy_Repositories policy) in
  let valid := is_ok digest && equalDigest (Policy_Digest policy) (ok_value digest) && validUniqueNames (RequiredTestKinds policy) in
  let revisions := n ≫= policy_reasons (Input_Action i) pm in
  let unresolved := negb (Policy_Resolved policy) || negb (valid && empty_reasons revisions) ||
                    negb (Nat.eqb (size pm) (length n)) in
  (valid = true ∧ revisions = [] ∧ unresolved = false) ↔
  (is_ok digest = true ∧ equalDigest (Policy_Digest policy) (ok_value digest) = true) ∧
  (Policy_Resolved policy = true ∧ validUniqueNames (RequiredTestKinds policy) = true ∧ size pm = length n) ∧
  revisions = [].
Proof.
  cbv zeta. rewrite !orb_false_iff, !negb_false_iff, !andb_true_iff, empty_reasons_nil, Nat.eqb_eq. tauto.
Qed.

Lemma unique_index {A} (key : A → string) invalid ir dr values m rs :
  unique_by key invalid ir dr ∅ values = (m, rs) →
  (rs = [] ↔ all_unique key invalid values) ∧ (rs = [] → indexes key values m ∧ size m = length values).
Proof. intros Hu. pose proof (unique_by_clean key invalid ir dr values) as Hc. by rewrite Hu in Hc. Qed.

Lemma bind_nil_exists {A} (f : A → list Reason) (P : A → Prop) l :
  (∀ x, f x = [] ↔ P x) → l ≫= f = [] ↔ ∀ x, x ∈ l → P x.
Proof. intros Hf. rewrite bind_nil. by setoid_rewrite Hf. Qed.

Lemma revision_nil i r branches checks vault security :
  well_formed_evidence i →
  indexes (λ v, repositoryKey (Branch_Repository v)) (Branches i) branches →
  (∀ k, group checks k = filter (λ v, checkKey v = k) (Checks i)) →
  indexes (λ v, repositoryKey (Vault_Repository v)) (Vault i) vault →
  indexes (λ v, repositoryKey (Security_Repository v)) (Security i) security →
  (branch_reasons r branches checks ++ review_reasons r (groupReviews (Reviews i)) ++ vault_reasons r vault ++
   security_reasons r security)%list = [] ↔
  (∃ b, b ∈ Branches i ∧ branch_ready r (Checks i) b) ∧ reviewed r (Reviews i) ∧
  (∃ v, v ∈ Vault i ∧ vault_ready r v) ∧ (∃ s, s ∈ Security i ∧ secure r s).
Proof.
  intros Hwf Hb Hc Hv Hs. rewrite !app_nil, (branch_nil r (Branches i) (Checks i)) by (done || apply Hwf).
  by rewrite review_nil, (vault_nil r (Vault i)), (security_nil r (Security i)).
Qed.

Lemma allowed_ready i :
  State (Evaluate i) = "allowed" ↔
  ∃ matrix matrixDigest policyDigest vaultDigest requirementsDigest,
    release_ready i matrix matrixDigest policyDigest vaultDigest requirementsDigest.
Proof.
  unfold Evaluate. destruct (normalizeRevisions (Revisions i)) as [n|e] eqn:Hn.
  2:{ cbn. split; [discriminate|]. intros (? & ? & ? & ? & ? & []). congruence. }
  destruct (matrix_digest_normalized _ _ Hn) as [-> Hmd].
  destruct (uniqueRepositoryPolicies _) as [pm prs] eqn:Hp; apply unique_index in Hp as [Hp Hpm].
  destruct (uniqueBranches _) as [bm brs] eqn:Hb; apply unique_index in Hb as [Hb Hbm].
  pose proof (groupChecks_clean (Checks i)) as Hc; destruct (groupChecks _) as [cm crs]; destruct Hc as [Hc Hcm].
  destruct (uniqueVault _) as [vm vrs] eqn:Hv; apply unique_index in Hv as [Hv Hvm].
  destruct (uniqueSecurity _) as [sm srs] eqn:Hs; apply unique_index in Hs as [Hs Hsm].
  destruct (uniqueTests _) as [tm trs] eqn:Ht; apply unique_index in Ht as [Ht Htm].
  cbn [State]. rewrite allowed_empty, !app_nil, !add_if_nil, identity_nil, !matrix_nil, recovery_nil, approval_nil, !negb_false_iff.
  destruct (RevisionMatrixDigest (Revisions i)) as [md|] eqn:Hmde; [clear Hmd|done].
  destruct (CompositePolicyDigest _) as [pd|] eqn:Hpd; [|split; [cbn; by intros (_ & _ & ? & _)|intros (? & ? & ? & ? & ? & [_ _ _ [? _] _ _ _ _ _ _ _ _ _]); congruence]].
  destruct (VaultEvidenceDigest _) as [vd|] eqn:Hvd; [|split; [cbn; by intros (_ & _ & _ & _ & _ & ? & _)|intros (? & ? & ? & ? & ? & [_ _ _ _ _ ? _ _ _ _ _ _ _]); congruence]].
  destruct (BranchRequirementsDigest _) as [bd|] eqn:Hbd; [|split; [cbn; by intros (_ & _ & _ & _ & _ & _ & ? & _)|intros (? & ? & ? & ? & ? & [_ _ _ _ _ _ ? _ _ _ _ _ _]); congruence]].
  cbn [is_ok ok_value andb]. destruct (CompositePolicyDigest_hex _ _ Hpd) as [pm_text Hpdx]. split.
  - intros (Hid & Hprs & Hvalid & Hpol & Hun & _ & _ & Hbrs & Hcrs & Hvrs & Hsrs & Hrev & Htrs & Htests & Hm1 & Hm2 & Hm3 & Hm4 & Hrec & Happ).
    rewrite Hun in Happ. rewrite Hvalid, Hpol, !orb_false_iff, !negb_false_iff, Nat.eqb_eq in Hun. destruct Hun as [[Hres _] Hsize].
    destruct (Hpm Hprs) as [Hpi Hps], (Hbm Hbrs) as [Hbi _], (Hvm Hvrs) as [Hvi _], (Hsm Hsrs) as [Hsi _], (Htm Htrs) as [Hti _].
    assert (well_formed_evidence i) as Hwf
      by (split; [by apply Hp|by apply Hb|by apply Hc|by apply Hv|by apply Hs|by apply Ht]).
    apply andb_true_iff in Hvalid as [Heq Hkinds].
    rewrite Hres, Hkinds, (equalDigest_valid _ pm_text) in Htests by (by rewrite <-Hpdx). cbn [andb] in Htests.
    rewrite bind_nil in Hpol, Hrev. rewrite bind_nil in Htests. exists n, md, pd, vd, bd. split; try done; try (by split_and!).
    + split_and!; [done|done|]. by rewrite <-Hps.
    + intros r Hr. split; [by apply (policy_nil (Input_Action i) r _ pm), Hpol|].
      apply (revision_nil i r bm cm vm sm); auto.
    + intros kind Hkind. by apply (test_nil md _ tm), Htests.
  - intros (n' & md' & pd' & vd' & bd' & [Hid Hn' Hmd' [Hpd' Heq] (Hres & Hkinds & Hlen) Hvd' Hbd' Hwf Hrev Htests (Hm1 & Hm2 & Hm3 & Hm4) Hrec Happ]).
    assert (n' = n ∧ md' = md ∧ pd' = pd ∧ vd' = vd ∧ bd' = bd) as (-> & -> & -> & -> & ->) by (split_and!; congruence).
    assert (prs = [] ∧ brs = [] ∧ crs = [] ∧ vrs = [] ∧ srs = [] ∧ trs = []) as (Hprs & Hbrs & Hcrs & Hvrs & Hsrs & Htrs)
      by (destruct Hwf; split_and!; [by apply Hp|by apply Hb|by apply Hc|by apply Hv|by apply Hs|by apply Ht]).
    destruct (Hpm Hprs) as [Hpi Hps], (Hbm Hbrs) as [Hbi _], (Hvm Hvrs) as [Hvi _], (Hsm Hsrs) as [Hsi _], (Htm Htrs) as [Hti _].
    assert (n ≫= policy_reasons (Input_Action i) pm = []) as Hpol.
    { apply bind_nil. intros r Hr. apply (policy_nil _ _ _ _ Hpi). by apply Hrev. }
    rewrite Hpol, Heq, Hkinds, Hres, Hps, Hlen, Nat.eqb_refl, (equalDigest_valid _ pm_text) by (by rewrite <-Hpdx).
    cbn [andb orb negb empty_reasons]. split_and!; try done; try tauto.
    + apply bind_nil. intros r Hr. apply (revision_nil i r bm cm vm sm); auto. by apply Hrev.
    + apply bind_nil. intros kind Hkind. apply (test_nil md _ _ _ Hti). by apply Htests.
Qed.

(** C31: [Evaluate] allows a merge or release exactly when it is ready: the decision is
    neither too strict nor too lax with respect to [release_ready]. *)
Theorem allowed_iff_ready i :
  State (Evaluate i) = "allowed" ↔
  ∃ matrix matrixDigest policyDigest vaultDigest requirementsDigest,
    release_ready i matrix matrixDigest policyDigest vaultDigest requirementsDigest.
Proof. apply allowed_ready. Qed.

(** ** Shape of a decision *)

Definition reasons_of_state (d : Decision) : Prop :=
  key_sorted reason_key (Reasons d) ∧ (State d = "allowed" ∨ State d = "blocked") ∧
  (State d = "allowed" ↔ Reasons d = []).
Lemma sorted_decision v action cs md pd vd bd sd rs :
  reasons_of_state {| Decision_SchemaVersion := v; Decision_Action := action; Decision_ChangeSetID := cs;
    MatrixDigest := md; PolicyDigest := pd; VaultDigest := vd; RequirementsDigest := bd; SubjectDigest := sd;
    State := if empty_reasons rs then "allowed" else "blocked"; Reasons := sortReasons rs |}.
Proof.
  assert (rs = [] ↔ sortReasons rs = []) as Hrs.
  { split; [by intros ->|]. intros Hs. apply Permutation_nil. rewrite <-Hs. apply (sort_key_perm reason_key). }
  split; [apply sort_key_sorted|]. cbn [State Reasons]. split; [destruct (empty_reasons rs); auto|].
  by rewrite allowed_empty.
Qed.

Lemma decision_state i : State (Evaluate i) = "allowed" ∨ State (Evaluate i) = "blocked".
Proof.
  unfold Evaluate. destruct (normalizeRevisions (Revisions i)); [|by right].
  repeat match goal with |- context [let '(_, _) := ?x in _] => destruct x end. cbn [State].
  destruct (empty_reasons _); auto.
Qed.

(** a decision is [allowed] or [blocked]; it is blocked exactly when it carries a
    reason; its reasons come in one order, by code, repository and evidence; and its matrix
    digest is the digest of the input's own matrix, the error [Evaluate] discards never
    being raised. *)
Theorem decision_shape i :
  reasons_of_state (Evaluate i) ∧
  MatrixDigest (Evaluate i) = ok_value (RevisionMatrixDigest (Revisions i)) ∧
  (is_ok (normalizeRevisions (Revisions i)) = true → validDigest (MatrixDigest (Evaluate i)) = true).
Proof.
  unfold Evaluate. destruct (normalizeRevisions (Revisions i)) as [n|e] eqn:Hn.
  - destruct (matrix_digest_normalized _ _ Hn) as [-> Hok].
    repeat match goal with |- context [let '(_, _) := ?x in _] => destruct x end. cbn [MatrixDigest].
    split; [|split; [done|]].
    + apply sorted_decision.
    + intros _. destruct (RevisionMatrixDigest (Revisions i)) as [d|] eqn:Hd; [|done].
      destruct (RevisionMatrixDigest_hex _ _ Hd) as [m ->]. apply digest_valid.
  - cbn [MatrixDigest Reasons State]. unfold RevisionMatrixDigest. rewrite Hn. split; [|done]. split_and!.
    + apply sort_key_sorted.
    + by right.
    + split; [discriminate|]. intros Hs. apply (f_equal length) in Hs. cbn [Reasons] in Hs. unfold sortReasons in Hs.
      rewrite (sort_key_perm reason_key), length_app in Hs. cbn in Hs. lia.
Qed.

(** ** Digests forget the order of their input *)

Lemma size_invalid_perm {A} (l l' : list A) : l ≡ₚ l' → size_invalid l = size_invalid l'.
Proof. intros Hp. unfold size_invalid. by rewrite Hp. Qed.
Lemma digest_perm {A B} (normalize : A → Result string (string * B)) (key : B → string) dup values values' out :
  (∀ v k b, normalize v = Ok (k, b) → key b = k) → values ≡ₚ values' →
  collect normalize dup ∅ values = Ok out →
  ∃ out', collect normalize dup ∅ values' = Ok out' ∧ sort_key key out = sort_key key out'.
Proof.
  intros Hkey Hp Hc. destruct (collect_perm _ _ _ _ _ Hp Hc) as (out' & Hc' & Hp'). exists out'. split; [done|].
  apply sort_key_unique; [by eapply collect_keys|done].
Qed.
Lemma revision_key v k b : normalizeRevision v = Ok (k, b) → ToLower (Revision_Repository b) = k.
Proof. by intros (_ & _ & _ & -> & ->)%normalizeRevision_ok. Qed.
Lemma policy_key v k b : normalizePolicyEvidence v = Ok (k, b) → RPE_Repository b = k.
Proof. unfold normalizePolicyEvidence. case_match; [done|]. by intros [= <- <-]. Qed.
Lemma vault_key v k b : normalizeVault v = Ok (k, b) → Vault_Repository b = k.
Proof. unfold normalizeVault. case_match; [done|]. by intros [= <- <-]. Qed.
Lemma requirement_key v k b : normalizeRequirement v = Ok (k, b) → requirement_Repository b = k.
Proof. unfold normalizeRequirement. case_match; [done|]. by intros [= <- <-]. Qed.

Ltac perm_digest Hp :=
  rewrite <-(size_invalid_perm _ _ Hp); case_match; [discriminate|]; intros (out & Hc & <-)%bind_ok;
  first [ destruct (digest_perm _ _ _ _ _ _ revision_key Hp Hc) as (out' & Hc' & Hs)
        | destruct (digest_perm _ _ _ _ _ _ policy_key Hp Hc) as (out' & Hc' & Hs)
        | destruct (digest_perm _ _ _ _ _ _ vault_key Hp Hc) as (out' & Hc' & Hs)
        | destruct (digest_perm _ _ _ _ _ _ requirement_key Hp Hc) as (out' & Hc' & Hs) ];
  apply bind_ok; eexists; split; [eassumption|]; unfold mret, result_mret; congruence.

Lemma normalizeRevisions_perm rs rs' n : rs ≡ₚ rs' → normalizeRevisions rs = Ok n → normalizeRevisions rs' = Ok n.
Proof. intros Hp. unfold normalizeRevisions. perm_digest Hp. Qed.

(** the order in which repositories are listed never changes a digest: the revision
    matrix, the composite policy, the vault evidence and the branch requirements. *)
Theorem digests_ignore_order revisions revisions' policies policies' vault vault' branches branches' d1 d2 d3 d4 :
  revisions ≡ₚ revisions' → policies ≡ₚ policies' → vault ≡ₚ vault' → branches ≡ₚ branches' →
  RevisionMatrixDigest revisions = Ok d1 → CompositePolicyDigest policies = Ok d2 →
  VaultEvidenceDigest vault = Ok d3 → BranchRequirementsDigest branches = Ok d4 →
  RevisionMatrixDigest revisions' = Ok d1 ∧ CompositePolicyDigest policies' = Ok d2 ∧
  VaultEvidenceDigest vault' = Ok d3 ∧ BranchRequirementsDigest branches' = Ok d4.
Proof.
  intros H1 H2 H3 H4 Hd1 Hd2 Hd3 Hd4. split_and!.
  - revert Hd1. unfold RevisionMatrixDigest. intros (n & Hn & Hd)%bind_ok.
    by rewrite (normalizeRevisions_perm _ _ _ H1 Hn).
  - revert Hd2. unfold CompositePolicyDigest. perm_digest H2.
  - revert Hd3. unfold VaultEvidenceDigest. perm_digest H3.
  - revert Hd4. unfold BranchRequirementsDigest. perm_digest H4.
Qed.

(** ** Digests bind their content, up to a collision of SHA-256 *)

Definition matrix_json (n : list Revision) : json := JArray (Revision_json <$> n).
Definition branches_utf8 (rs : list Revision) : bool := forallb (λ r, utf8_valid (TrimSpace (Revision_Branch r))) rs.
Lemma matrix_json_inj n1 n2 : matrix_json n1 = matrix_json n2 → n1 = n2.
Proof.
  intros [= Heq]. revert Heq. apply list_fmap_eq_inj. intros [] [] [= -> -> ->]. done.
Qed.

(** The normalized matrix is text: repositories and revisions are ASCII. *)
Lemma normalized_utf8 rs n :
  normalizeRevisions rs = Ok n → branches_utf8 rs = true → json_utf8 (matrix_json n) = true.
Proof.
  unfold normalizeRevisions. case_match; [done|]. intros (out & Hc & [= <-])%bind_ok Hb.
  apply collect_ok in Hc as (kvs & Hf & _ & _ & ->). cbn. rewrite forallb_forall. intros j Hj.
  apply list_elem_of_In, list_elem_of_fmap in Hj as (r & -> & Hr). unfold sort_key in Hr. rewrite sort_by_elem in Hr.
  apply list_elem_of_fmap in Hr as ([k r'] & -> & Hin). apply list_elem_of_lookup in Hin as [i Hi].
  destruct (Forall2_lookup_r _ _ _ _ _ Hf Hi) as (v & Hv & (Hrepo & _ & Hsha & _ & ->)%normalizeRevision_ok).
  unfold branches_utf8 in Hb. rewrite forallb_forall in Hb.
  specialize (Hb v ltac:(apply list_elem_of_In, list_elem_of_lookup; eauto)).
  cbn -[utf8_valid TrimSpace ToLower]. rewrite Hb, !ascii_utf8; try reflexivity.
  - by apply visible_string_ascii, hex_visible, validSHA_hex.
  - by apply validRepository_ascii.
Qed.

(** equal matrix digests mean equal normalized matrices, unless SHA-256 collides on
    the two encoded matrices themselves. *)
Theorem matrix_digest_binds rs1 rs2 n1 n2 d :
  normalizeRevisions rs1 = Ok n1 → normalizeRevisions rs2 = Ok n2 →
  branches_utf8 rs1 = true → branches_utf8 rs2 = true →
  RevisionMatrixDigest rs1 = Ok d → RevisionMatrixDigest rs2 = Ok d →
  n1 = n2 ∨ collide (Marshal (matrix_json n1)) (Marshal (matrix_json n2)).
Proof.
  intros Hn1 Hn2 Hb1 Hb2 Hd1 Hd2. unfold RevisionMatrixDigest in *. rewrite Hn1 in Hd1. rewrite Hn2 in Hd2.
  injection Hd1 as <-. injection Hd2 as Hd.
  destruct (digest_binds (matrix_json n1) (matrix_json n2)) as [Heq|]; [by eapply normalized_utf8..|done|left|by right].
  by apply matrix_json_inj.
Qed.

Lemma names_loop_ascii seen names :
  validUniqueNames_loop seen names = true → Forall (λ k, is_ascii (TrimSpace k) = true) names.
Proof.
  revert seen. induction names as [|k l IH]; intros seen; [constructor|]. cbn [validUniqueNames_loop].
  destruct (evidenceNamePattern (TrimSpace k)) eqn:Hk; cbn [negb]; [|done]. case_bool_decide; [done|].
  intros Hl. constructor; [|by eapply IH]. apply (re_ident_all _ _ _ _ _) in Hk.
  - revert Hk. apply all_bytes_impl. intros c. by destruct c as [[] [] [] [] [] [] [] []].
  - intros c. by destruct c as [[] [] [] [] [] [] [] []].
Qed.
Lemma subjectKinds_ascii kinds :
  validUniqueNames kinds = true → forallb json_utf8 (JString <$> subjectKinds kinds) = true.
Proof.
  intros Hk%names_loop_ascii. rewrite forallb_forall. intros j Hj.
  apply list_elem_of_In, list_elem_of_fmap in Hj as (k & -> & Hin). unfold subjectKinds, sort_strings, sort_key in Hin.
  rewrite sort_by_elem in Hin. apply list_elem_of_fmap in Hin as (k0 & -> & Hk0). rewrite Forall_forall in Hk.
  cbn -[ToLower TrimSpace]. apply ascii_utf8, ToLower_is_ascii, Hk, Hk0.
Qed.

(** The subject a ready input is approved for, as the gate encodes it. *)
Definition subject_of (i : Input) (matrixDigest policyDigest vaultDigest requirementsDigest : string) : json :=
  subject_json (Input_Action i) matrixDigest policyDigest vaultDigest requirementsDigest
    (subjectKinds (RequiredTestKinds (Input_Policy i))) (Classification (Recovery i)).
Lemma digest_ascii m : is_ascii (hexSum256 m) = true.
Proof. generalize (hexSum256_hex m). apply all_bytes_impl. intros c. by destruct c as [[] [] [] [] [] [] [] []]. Qed.
Lemma classification_ascii c : known_classification c = true → is_ascii c = true.
Proof. unfold known_classification. rewrite !orb_true_iff, !String.eqb_eq. intros [[[->| ->]| ->]| ->]; reflexivity. Qed.
Lemma subject_utf8 i n md pd vd bd : release_ready i n md pd vd bd → json_utf8 (subject_of i md pd vd bd) = true.
Proof.
  intros [(_ & Ha & _) _ Hmd [Hpd _] (_ & Hk & _) Hvd Hbd _ _ _ _ (_ & _ & Hc & _) _].
  apply RevisionMatrixDigest_hex in Hmd as [? ->]. apply CompositePolicyDigest_hex in Hpd as [? ->].
  apply VaultEvidenceDigest_hex in Hvd as [? ->]. apply BranchRequirementsDigest_hex in Hbd as [? ->].
  unfold subject_of, subject_json. rewrite !digest_normal. cbn -[utf8_valid nil_or_array subjectKinds].
  rewrite !ascii_utf8 by first [apply digest_ascii | apply classification_ascii, Hc | by destruct Ha as [-> | ->] | reflexivity].
  cbn [andb]. rewrite andb_true_r. pose proof (subjectKinds_ascii _ Hk) as Hs.
  by destruct (JString <$> subjectKinds (RequiredTestKinds (Input_Policy i))).
Qed.
Lemma nil_or_array_inj l1 l2 : nil_or_array l1 = nil_or_array l2 → l1 = l2.
Proof. destruct l1, l2; cbn; congruence. Qed.
Lemma subject_inj i1 i2 n1 n2 md1 md2 pd1 pd2 vd1 vd2 bd1 bd2 :
  release_ready i1 n1 md1 pd1 vd1 bd1 → release_ready i2 n2 md2 pd2 vd2 bd2 →
  subject_of i1 md1 pd1 vd1 bd1 = subject_of i2 md2 pd2 vd2 bd2 →
  (Input_Action i1, Classification (Recovery i1), subjectKinds (RequiredTestKinds (Input_Policy i1)), md1, pd1, vd1, bd1) =
  (Input_Action i2, Classification (Recovery i2), subjectKinds (RequiredTestKinds (Input_Policy i2)), md2, pd2, vd2, bd2).
Proof.
  intros [_ _ Hmd [Hpd _] _ Hvd Hbd _ _ _ _ _ _] [_ _ Hmd' [Hpd' _] _ Hvd' Hbd' _ _ _ _ _ _].
  apply RevisionMatrixDigest_hex in Hmd as [? ->], Hmd' as [? ->].
  apply CompositePolicyDigest_hex in Hpd as [? ->], Hpd' as [? ->].
  apply VaultEvidenceDigest_hex in Hvd as [? ->], Hvd' as [? ->].
  apply BranchRequirementsDigest_hex in Hbd as [? ->], Hbd' as [? ->].
  unfold subject_of, subject_json. rewrite !digest_normal. intros [= -> -> -> -> -> -> Hk].
  apply nil_or_array_inj in Hk. apply list_fmap_eq_inj in Hk; [|by intros ? ? [=]]. by rewrite Hk.
Qed.

(** C32: one approval cannot carry two different releases. If two inputs with the same
    approval are both allowed, they have the same action, recovery class and test kinds,
    and the same matrix, policy, vault and branch-requirement digests - or SHA-256 collides
    on the two encoded subjects themselves. *)
Theorem approval_binds_release i1 i2 a :
  State (Evaluate i1) = "allowed" → State (Evaluate i2) = "allowed" →
  Input_HumanApproval i1 = Some a → Input_HumanApproval i2 = Some a →
  ∃ md1 md2 pd1 pd2 vd1 vd2 bd1 bd2,
    RevisionMatrixDigest (Revisions i1) = Ok md1 ∧ RevisionMatrixDigest (Revisions i2) = Ok md2 ∧
    ((Input_Action i1, Classification (Recovery i1), subjectKinds (RequiredTestKinds (Input_Policy i1)), md1, pd1, vd1, bd1) =
     (Input_Action i2, Classification (Recovery i2), subjectKinds (RequiredTestKinds (Input_Policy i2)), md2, pd2, vd2, bd2) ∨
     collide (Marshal (subject_of i1 md1 pd1 vd1 bd1)) (Marshal (subject_of i2 md2 pd2 vd2 bd2))) ∧
    CompositePolicyDigest (Policy_Repositories (Input_Policy i1)) = Ok pd1 ∧
    CompositePolicyDigest (Policy_Repositories (Input_Policy i2)) = Ok pd2 ∧
    VaultEvidenceDigest (Vault i1) = Ok vd1 ∧ VaultEvidenceDigest (Vault i2) = Ok vd2 ∧
    BranchRequirementsDigest (Branches i1) = Ok bd1 ∧ BranchRequirementsDigest (Branches i2) = Ok bd2.
Proof.
  intros (n1 & md1 & pd1 & vd1 & bd1 & H1)%allowed_ready (n2 & md2 & pd2 & vd2 & bd2 & H2)%allowed_ready Ha1 Ha2.
  exists md1, md2, pd1, pd2, vd1, vd2, bd1, bd2. split_and!; try apply H1; try apply H2.
  destruct (ready_approval _ _ _ _ _ _ H1) as (a1 & Hx1 & _ & _ & _ & He1), (ready_approval _ _ _ _ _ _ H2) as (a2 & Hx2 & _ & _ & _ & He2).
  assert (a1 = a ∧ a2 = a) as [-> ->] by (split; congruence).
  apply equalDigest_hex in He1, He2. rewrite He1 in He2.
  destruct (digest_binds (subject_of i1 md1 pd1 vd1 bd1) (subject_of i2 md2 pd2 vd2 bd2)) as [Heq|Hc];
    [by eapply subject_utf8..|exact He2|left|by right]. by eapply subject_inj.
Qed.
End Theorems.

(** ** A concrete release of two repositories *)

Section Demo.
#[local] Existing Instance ascii_only.

Definition demo_sha : string := "0123456789abcdef0123456789abcdef01234567".
Definition demo_revision (repository : string) : Revision :=
  {| Revision_Repository := repository; Revision_Branch := "release/1.4"; Revision_SHA := demo_sha |}.
Definition demo_policy (repository : string) : RepositoryPolicyEvidence :=
  {| RPE_Repository := repository; RPE_Digest := demo_sha +:+ "0123456789abcdef01234567"; RPE_Resolved := true;
     RPE_ActionAllowed := true; RPE_BranchAllowed := true |}.
Definition demo_branch (repository : string) : BranchEvidence :=
  {| Branch_Repository := repository; Branch_HeadSHA := demo_sha; Mergeable := true; ConflictFree := true;
     ProtectionEvaluated := true; Protected := true;
     RequiredChecks := [{| RequiredCheck_Name := "ci/build"; RequiredCheck_IntegrationID := 15368 |}] |}.
Definition demo_check (repository : string) : CheckEvidence :=
  {| Check_Repository := repository; Check_Name := "ci/build"; Check_IntegrationID := 15368;
     Check_HeadSHA := demo_sha; Check_Status := StatusPassed |}.
Definition demo_review (repository : string) : ReviewEvidence :=
  {| Review_Repository := repository; Review_HeadSHA := demo_sha; AuthorActor := "ana"; ReviewerActor := "bo";
     Review_Approved := true; BlockingChangeRequests := 0 |}.
Definition demo_vault (repository : string) : VaultEvidence :=
  {| Vault_Repository := repository; Vault_HeadSHA := demo_sha; RevisionID := "rev-7"; Reconciled := true |}.
Definition demo_security (repository : string) : SecurityEvidence :=
  {| Security_Repository := repository; Security_HeadSHA := demo_sha; SecretScanPassed := true;
     HighFindings := 0; CriticalFindings := 0 |}.
Definition demo_repositories : list string := ["itbem/events"; "itbem/Dashboard"].
(** The digests of the demo, left as digests: nothing below computes SHA-256. *)
Definition demo_normalized : list Revision := demo_revision <$> ["itbem/Dashboard"; "itbem/events"].
Definition demo_matrix_digest : string := hexSum256 (Marshal (matrix_json demo_normalized)).
Definition demo_policy_digest : string :=
  hexSum256 (Marshal (JArray (RPE_json <$> (demo_policy <$> ["itbem/dashboard"; "itbem/events"])))).
Definition demo_vault_digest : string :=
  hexSum256 (Marshal (JArray (Vault_json <$> (demo_vault <$> ["itbem/dashboard"; "itbem/events"])))).
Definition demo_requirement (repository : string) : requirement :=
  {| requirement_Repository := repository; requirement_HeadSHA := demo_sha; requirement_ProtectionEvaluated := true;
     requirement_Protected := true;
     requirement_RequiredChecks := [{| RequiredCheck_Name := "ci/build"; RequiredCheck_IntegrationID := 15368 |}] |}.
Definition demo_requirements_digest : string :=
  hexSum256 (Marshal (JArray (requirement_json <$> (demo_requirement <$> ["itbem/dashboard"; "itbem/events"])))).
Definition demo_matrix : MatrixEvidence := {| Matrix_MatrixDigest := demo_matrix_digest; Matrix_Status := StatusPassed |}.
Definition demo_input (repositories : list string) (approval : option HumanApproval) : Input :=
  {| Input_SchemaVersion := 3; Input_Action := ActionRelease; ChangeSetID := "CS-42";
     Revisions := demo_revision <$> repositories;
     Input_Policy := {| Policy_Resolved := true; Policy_Digest := demo_policy_digest;
       RequiredTestKinds := ["unit"; "Integration"]; Policy_Repositories := demo_policy <$> repositories |};
     Branches := demo_branch <$> repositories; Checks := demo_check <$> repositories;
     Reviews := demo_review <$> repositories; Vault := demo_vault <$> repositories;
     Tests := [{| Test_Kind := "integration"; Test_MatrixDigest := demo_matrix_digest; Test_Status := StatusPassed |};
               {| Test_Kind := "unit"; Test_MatrixDigest := demo_matrix_digest; Test_Status := StatusPassed |}];
     Security := demo_security <$> repositories; Compatibility := demo_matrix; Migrations := demo_matrix;
     Dependencies := demo_matrix; Environment := demo_matrix;
     Recovery := {| Recovery_MatrixDigest := demo_matrix_digest; Classification := RecoveryRollback;
                    Evaluated := true; HumanApproved := false |};
     Input_HumanApproval := approval |}.
Definition demo_approval : HumanApproval :=
  {| Actor := "cleo"; ActorType := "Human";
     Approval_SubjectDigest := subjectDigest ActionRelease demo_matrix_digest demo_policy_digest demo_vault_digest
       demo_requirements_digest ["unit"; "Integration"] RecoveryRollback;
     Approval_Approved := true |}.
Definition demo_release : Input := demo_input demo_repositories (Some demo_approval).
(** The same release, the repositories listed the other way round. *)
Definition demo_release_reordered : Input := demo_input (rev demo_repositories) (Some demo_approval).

Lemma digest_self m : equalDigest (hexSum256 m) (hexSum256 m) = true.
Proof. apply equalDigest_hex, digest_normal. Qed.

(** The normalized evidence, computed; the digests are digests of it. *)
Lemma demo_digests repositories :
  repositories = demo_repositories ∨ repositories = rev demo_repositories →
  normalizeRevisions (demo_revision <$> repositories) = Ok demo_normalized ∧
  RevisionMatrixDigest (demo_revision <$> repositories) = Ok demo_matrix_digest ∧
  CompositePolicyDigest (demo_policy <$> repositories) = Ok demo_policy_digest ∧
  VaultEvidenceDigest (demo_vault <$> repositories) = Ok demo_vault_digest ∧
  BranchRequirementsDigest (demo_branch <$> repositories) = Ok demo_requirements_digest.
Proof.
  intros Hr.
  assert (normalizeRevisions (demo_revision <$> repositories) = Ok demo_normalized) as Hn
    by (destruct Hr as [-> | ->]; vm_compute; reflexivity).
  split; [exact Hn|]. split; [unfold RevisionMatrixDigest; rewrite Hn; reflexivity|].
  assert (∃ l, collect normalizePolicyEvidence "repository policy evidence is duplicated" ∅ (demo_policy <$> repositories) = Ok l ∧
    sort_key RPE_Repository l = demo_policy <$> ["itbem/dashboard"; "itbem/events"]) as (l1 & Hl1 & Hs1)
    by (destruct Hr as [-> | ->]; eexists; (split; [vm_compute; reflexivity|vm_compute; reflexivity])).
  assert (∃ l, collect normalizeVault "vault repository is duplicated" ∅ (demo_vault <$> repositories) = Ok l ∧
    sort_key Vault_Repository l = demo_vault <$> ["itbem/dashboard"; "itbem/events"]) as (l2 & Hl2 & Hs2)
    by (destruct Hr as [-> | ->]; eexists; (split; [vm_compute; reflexivity|vm_compute; reflexivity])).
  assert (∃ l, collect normalizeRequirement "branch requirements repository is duplicated" ∅ (demo_branch <$> repositories) = Ok l ∧
    sort_key requirement_Repository l = demo_requirement <$> ["itbem/dashboard"; "itbem/events"]) as (l3 & Hl3 & Hs3)
    by (destruct Hr as [-> | ->]; eexists; (split; [vm_compute; reflexivity|vm_compute; reflexivity])).
  unfold CompositePolicyDigest, VaultEvidenceDigest, BranchRequirementsDigest.
  assert (∀ A (f : string → A), size_invalid (f <$> repositories) = false) as Hsize by (by destruct Hr as [-> | ->]).
  rewrite !Hsize, Hl1, Hl2, Hl3. unfold mbind, result_mbind, result_bind, mret, result_mret. rewrite Hs1, Hs2, Hs3. by split_and!.
Qed.

Lemma demo_well_formed repositories :
  repositories = demo_repositories ∨ repositories = rev demo_repositories →
  well_formed_evidence (demo_input repositories (Some demo_approval)).
Proof.
  intros Hr. unfold demo_input.
  split; cbn [Policy_Repositories Input_Policy Branches Checks Vault Security Tests]; destruct Hr as [-> | ->];
    (split; [repeat constructor|by apply (bool_decide_unpack _)]).
Qed.

(** The evidence of one repository, whatever the others. *)
Lemma demo_revision_ready repository repositories :
  repository ∈ demo_repositories → repositories = demo_repositories ∨ repositories = rev demo_repositories →
  let r := demo_revision repository in
  (∃ e, e ∈ demo_policy <$> repositories ∧ policy_allows r e) ∧
  (∃ b, b ∈ demo_branch <$> repositories ∧ branch_ready r (demo_check <$> repositories) b) ∧
  reviewed r (demo_review <$> repositories) ∧
  (∃ v, v ∈ demo_vault <$> repositories ∧ vault_ready r v) ∧
  (∃ s, s ∈ demo_security <$> repositories ∧ secure r s).
Proof.
  intros Hin Hr r. change (repository ∈ ["itbem/events"; "itbem/Dashboard"]) in Hin.
  assert (repository ∈ repositories) as Hin'.
  { destruct Hr as [-> | ->]; [done|]. change (rev demo_repositories) with ["itbem/Dashboard"; "itbem/events"]. set_solver. }
  assert (at_head r demo_sha) as Hhead by reflexivity.
  assert (about r repository) as Habout.
  { subst r. rewrite !elem_of_cons in Hin. destruct Hin as [->|[->|[]%not_elem_of_nil]]; reflexivity. }
  split_and!.
  - exists (demo_policy repository). split; [by apply list_elem_of_fmap_2|]. by split_and!.
  - exists (demo_branch repository). split; [by apply list_elem_of_fmap_2|]. split_and!; try done.
    intros required [->|[]%not_elem_of_nil]%elem_of_cons.
    assert (runs_of r (demo_check <$> repositories) "ci/build" = [demo_check repository]) as Hruns.
    { subst r. rewrite !elem_of_cons in Hin. destruct Hin as [->|[->|[]%not_elem_of_nil]], Hr as [-> | ->]; vm_compute; reflexivity. }
    unfold check_satisfied. cbn [RequiredCheck_Name RequiredCheck_IntegrationID]. rewrite Hruns. split.
    + exists (demo_check repository). split_and!; [constructor|done|by split].
    + by intros c [->|[]%not_elem_of_nil]%elem_of_cons.
  - split.
    + exists (demo_review repository). split_and!; [by apply list_elem_of_fmap_2| |done].
      split_and!; [done| |done|done]. rewrite !elem_of_cons in Hin. destruct Hin as [->|[->|[]%not_elem_of_nil]]; reflexivity.
    + intros review (x & -> & _)%list_elem_of_fmap _. by split.
  - exists (demo_vault repository). split; [by apply list_elem_of_fmap_2|]. by split_and!.
  - exists (demo_security repository). split; [by apply list_elem_of_fmap_2|]. by split_and!.
Qed.

Lemma demo_members repository : repository ∈ ["itbem/Dashboard"; "itbem/events"] → repository ∈ demo_repositories.
Proof. unfold demo_repositories. set_solver. Qed.

Lemma demo_ready repositories :
  repositories = demo_repositories ∨ repositories = rev demo_repositories →
  release_ready (demo_input repositories (Some demo_approval)) demo_normalized demo_matrix_digest demo_policy_digest
    demo_vault_digest demo_requirements_digest.
Proof.
  intros Hr. destruct (demo_digests _ Hr) as (Hn & Hd1 & Hd2 & Hd3 & Hd4). split.
  - split_and!; [reflexivity|by right|reflexivity].
  - exact Hn.
  - exact Hd1.
  - split; [exact Hd2|apply digest_self].
  - split_and!; [reflexivity|reflexivity|by destruct Hr as [-> | ->]].
  - exact Hd3.
  - exact Hd4.
  - by apply demo_well_formed.
  - intros r Hrev. unfold demo_normalized in Hrev. apply list_elem_of_fmap in Hrev as (repository & -> & Hin).
    apply demo_revision_ready; [by apply demo_members|exact Hr].
  - intros kind [->|[->|[]%not_elem_of_nil]%elem_of_cons]%elem_of_cons.
    + eexists. split; [right; left|]. split_and!; [reflexivity|apply digest_self|reflexivity].
    + eexists. split; [left|]. split_and!; [reflexivity|apply digest_self|reflexivity].
  - split_and!; (split; [apply digest_self|reflexivity]).
  - split_and!; [apply digest_self|reflexivity|reflexivity|discriminate].
  - exists demo_approval. split; [reflexivity|]. split; [reflexivity|]. split; [reflexivity|]. split; [discriminate|].
    change (equalDigest (Approval_SubjectDigest demo_approval) (Approval_SubjectDigest demo_approval) = true).
    unfold demo_approval, subjectDigest. cbn [Approval_SubjectDigest]. apply digest_self.
Qed.

Lemma demo_allowed repositories :
  repositories = demo_repositories ∨ repositories = rev demo_repositories →
  State (Evaluate (demo_input repositories (Some demo_approval))) = "allowed".
Proof. intros Hr. apply allowed_ready. do 5 eexists. by apply demo_ready. Qed.

Lemma digests_ignore_order_witness :
  RevisionMatrixDigest (demo_revision <$> rev demo_repositories) = Ok demo_matrix_digest.
Proof.
  destruct (demo_digests demo_repositories ltac:(by left)) as (_ & H1 & H2 & H3 & H4).
  eapply (digests_ignore_order (demo_revision <$> demo_repositories) (demo_revision <$> rev demo_repositories)
    (demo_policy <$> demo_repositories) (demo_policy <$> demo_repositories)
    (demo_vault <$> demo_repositories) (demo_vault <$> demo_repositories)
    (demo_branch <$> demo_repositories) (demo_branch <$> demo_repositories)).
  - apply fmap_Permutation, perm_swap.
  - reflexivity.
  - reflexivity.
  - reflexivity.
  - exact H1.
  - exact H2.
  - exact H3.
  - exact H4.
Defined.

(** Spaces and the case of the commit do not matter; the repository and the branch do. *)
Definition demo_spaced : list Revision :=
  [{| Revision_Repository := " itbem/events"; Revision_Branch := "release/1.4 ";
      Revision_SHA := "0123456789ABCDEF0123456789abcdef01234567" |}; demo_revision "itbem/Dashboard"].
Lemma matrix_digest_binds_witness :
  demo_normalized = demo_normalized ∨
  collide (Marshal (matrix_json demo_normalized)) (Marshal (matrix_json demo_normalized)).
Proof.
  assert (normalizeRevisions demo_spaced = Ok demo_normalized) as Hs by (vm_compute; reflexivity).
  destruct (demo_digests demo_repositories ltac:(by left)) as (Hn & Hd & _).
  apply (matrix_digest_binds (demo_revision <$> demo_repositories) demo_spaced _ _ demo_matrix_digest Hn Hs).
  - vm_compute. reflexivity.
  - vm_compute. reflexivity.
  - exact Hd.
  - unfold RevisionMatrixDigest. rewrite Hs. reflexivity.
Defined.

Lemma approval_binds_release_witness :
  ∃ md1 md2, RevisionMatrixDigest (demo_revision <$> demo_repositories) = Ok md1 ∧
    RevisionMatrixDigest (demo_revision <$> rev demo_repositories) = Ok md2.
Proof.
  destruct (approval_binds_release demo_release demo_release_reordered demo_approval)
    as (md1 & md2 & _ & _ & _ & _ & _ & _ & H1 & H2 & _).
  - apply demo_allowed. by left.
  - apply demo_allowed. by right.
  - reflexivity.
  - reflexivity.
  - exists md1, md2. split; [exact H1|exact H2].
Defined.
End Demo.
