(* ===== verification/DeliveryPolicy.v ===== *)
(** * internal/deliverypolicy/policy.go: resolving delivery policy layers

    [Resolve] folds approved layers, in precedence order, into one policy. Instants are
    nanoseconds since the zero [time.Time] ([IsZero] is [0]); [net/url.Parse] and the JSON
    text of an instant are parameters. [CanonicalGitHubReference] is the one of
    internal/projectvault/proposal.go. *)
From stdpp Require Import base tactics list strings gmap.
From Stdlib Require Import Ascii.
From S2P Require Import Prelude GoStrings GoSort Sha256 Json ReleaseGate.
Open Scope string_scope.

(** What the code reads of a [*url.URL]. *)
Record URL := {
  Scheme : string; HasUser : bool; Host : string; Hostname : string; Port : string; Path : string;
  RawQuery : string; Fragment : string;
}.
Class GoTimeURL := {
  url_Parse : string → option URL;
  (** [time.Time.MarshalJSON] of the instant in UTC; it fails outside the years 0 to 9999. *)
  time_text : Z → option string;
}.

Definition SchemaVersion : Z := 1.
Definition Minute : Z := 60000000000.
Definition maximumOverrideLifetime : Z := 24 * 60 * Minute.

Definition Level := string.
Definition LevelPlatform : Level := "platform".
Definition LevelOrganization : Level := "organization".
Definition LevelProject : Level := "project".
Definition LevelRepository : Level := "repository".
Definition LevelOverride : Level := "override".
Definition DeliveryMode := string.
Definition ModeReviewOnly : DeliveryMode := "review_only".
Definition ModeMerge : DeliveryMode := "merge".
Definition ModeRelease : DeliveryMode := "release".
Definition GateApprovalMode := string.
Definition GateApprovalHuman : GateApprovalMode := "human".
Definition GateApprovalDelegated : GateApprovalMode := "delegated".

Record Context := { OrganizationID : string; ProjectID : string; Repository : string; Context_ChangeSetID : string }.
(** Pointers: [None] inherits. *)
Record Patch := {
  Patch_Mode : option DeliveryMode; Patch_GateApprovalMode : option GateApprovalMode;
  Patch_RequiredTestKinds : option (list string); Patch_AllowedTargetBranches : option (list string);
  Patch_MergeMethod : option string; Patch_DeploymentWorkflow : option string;
  Patch_DeploymentEnvironment : option string; Patch_RequiredSecretReferences : option (list string);
  Patch_RequiredVariableReferences : option (list string); Patch_RequiredHealthChecks : option (list string);
  Patch_RequiredPostMergeChecks : option (list string); Patch_RecoveryDefault : option string;
}.
Record Layer := {
  Layer_SchemaVersion : Z; Layer_RevisionID : string; Layer_Level : Level; Layer_OrganizationID : string;
  Layer_ProjectID : string; Layer_Repository : string; Layer_ChangeSetID : string; Layer_Patch : Patch;
  Layer_Reason : string; ExpiresAt : option Z; Layer_Digest : string; Approved : bool; ApprovedBy : string;
  ApprovedAt : Z;
}.
Record SafetyFloor := {
  IndependentReview : bool; ExactSHAEvidence : bool; VaultReconciliation : bool; SecretScan : bool;
  MaximumHighFindings : Z; MaximumCriticalFindings : Z; Safety_Compatibility : bool; Safety_Migrations : bool;
  DependencyOrder : bool; Safety_Environment : bool; Safety_Recovery : bool; Safety_HumanApproval : bool;
  ForceMergeAllowed : bool;
}.
Record Source := {
  Source_Level : Level; Source_RevisionID : string; Source_Digest : string; Source_ApprovedBy : string;
  Source_ApprovedAt : Z;
}.
Record ResolvedPolicy := {
  Resolved_SchemaVersion : Z; Resolved_Context : Context; Mode : DeliveryMode; PolicyGateApprovalMode : GateApprovalMode;
  Resolved_RequiredTestKinds : list string; AllowedTargetBranches : list string; MergeMethod : string;
  DeploymentWorkflow : string; DeploymentEnvironment : string; RequiredSecretReferences : list string;
  RequiredVariableReferences : list string; RequiredHealthChecks : list string;
  RequiredPostMergeChecks : list string; RecoveryDefault : string; Safety : SafetyFloor; Sources : list Source;
  Resolved : bool; Missing : list string; Digest : string; explicitTests : bool; explicitBranches : bool;
  explicitSecretReferences : bool; explicitVariableReferences : bool;
}.

(** ** Patterns *)

Definition identityPattern : string → bool :=
  re_ident is_alnum (λ c, is_alnum c || one_of "_.:/+-" c) 0 127.
Definition namePattern : string → bool :=
  re_ident is_alnum (λ c, is_alnum c || one_of " _./:+-" c) 0 127.
(** [^\.github/workflows/[A-Za-z0-9][A-Za-z0-9_.-]{0,119}\.ya?ml$]: the extension is the
    end of the string, what is between is the file name. *)
Definition workflowPattern (s : string) : bool :=
  HasPrefix s ".github/workflows/" &&
  let file := TrimPrefix s ".github/workflows/" in
  let stem ext := of_bytes (take (String.length file - String.length ext) (bytes file)) in
  let named ext := HasSuffix file ext && re_ident is_alnum (λ c, is_alnum c || one_of "_.-" c) 0 119 (stem ext) in
  named ".yml" || named ".yaml".
Definition environmentReferencePattern : string → bool :=
  re_ident (λ c, is_upper c || byte_is 95 c) (λ c, is_upper c || is_digit c || byte_is 95 c) 0 127.
Definition digestPattern : string → bool := re_exact (λ c, in_range 97 102 c || is_digit c) 64.
Definition githubComponentPattern (s : string) : bool :=
  match s with
  | EmptyString => false
  | String c r => is_alnum c && all_bytes (λ c, is_alnum c || one_of "_.-" c) r
  end.

Section Policy.
Context {unicode : GoUnicode} {time_url : GoTimeURL}.

(** internal/projectvault/proposal.go *)
Definition CanonicalGitHubReference (value : string) : Result string string :=
  let invalid := "repository URL must identify one github.com repository" in
  match url_Parse (TrimSpace value) with
  | None => Err invalid
  | Some parsed =>
      if HasUser parsed || negb (String.eqb (RawQuery parsed) "") || negb (String.eqb (Fragment parsed) "") then Err invalid
      else
        let parts := Split (Trim (Path parsed) "/") "/" in
        '(owner, name) ←
          (if String.eqb (ToLower (Scheme parsed)) "github" then
             if String.eqb (Host parsed) "" then Err invalid
             else Ok (Host parsed, match parts with [name] => name | _ => "" end)
           else if String.eqb (ToLower (Scheme parsed)) "https" then
             if negb (EqualFold (Hostname parsed) "github.com") || negb (String.eqb (Port parsed) "")
             then Err "repository URL must use https://github.com"
             else Ok (match parts with [owner; name] => (owner, name) | _ => ("", "") end)
           else Err "repository URL must use https://github.com or github://");
        let name := TrimSuffix name ".git" in
        if Nat.ltb 39 (String.length owner) || Nat.ltb 100 (String.length name) ||
           negb (githubComponentPattern owner) || negb (githubComponentPattern name)
        then Err "repository URL must identify one github.com owner/repository"
        else Ok ("github://" +:+ owner +:+ "/" +:+ name)
  end.

Definition safetyFloor : SafetyFloor :=
  {| IndependentReview := true; ExactSHAEvidence := true; VaultReconciliation := true; SecretScan := true;
     MaximumHighFindings := 0; MaximumCriticalFindings := 0; Safety_Compatibility := true; Safety_Migrations := true;
     DependencyOrder := true; Safety_Environment := true; Safety_Recovery := true; Safety_HumanApproval := true;
     ForceMergeAllowed := false |}.

(** ** Canonical forms *)

Definition canonicalNames (values : list string) : list string := sort_key ToLower (TrimSpace <$> values).
Definition canonicalBranches : list string → list string := canonicalNames.
Definition canonicalEnvironmentReferences (values : list string) : list string :=
  sort_strings ((λ value, ToUpper (TrimSpace value)) <$> values).
Definition canonicalPatch (patch : Patch) : Patch :=
  {| Patch_Mode := TrimSpace <$> Patch_Mode patch;
     Patch_GateApprovalMode := (λ v, ToLower (TrimSpace v)) <$> Patch_GateApprovalMode patch;
     Patch_RequiredTestKinds := canonicalNames <$> Patch_RequiredTestKinds patch;
     Patch_AllowedTargetBranches := canonicalBranches <$> Patch_AllowedTargetBranches patch;
     Patch_MergeMethod := (λ v, ToLower (TrimSpace v)) <$> Patch_MergeMethod patch;
     Patch_DeploymentWorkflow := TrimSpace <$> Patch_DeploymentWorkflow patch;
     Patch_DeploymentEnvironment := TrimSpace <$> Patch_DeploymentEnvironment patch;
     Patch_RequiredSecretReferences := canonicalEnvironmentReferences <$> Patch_RequiredSecretReferences patch;
     Patch_RequiredVariableReferences := canonicalEnvironmentReferences <$> Patch_RequiredVariableReferences patch;
     Patch_RequiredHealthChecks := canonicalNames <$> Patch_RequiredHealthChecks patch;
     Patch_RequiredPostMergeChecks := canonicalNames <$> Patch_RequiredPostMergeChecks patch;
     Patch_RecoveryDefault := (λ v, ToLower (TrimSpace v)) <$> Patch_RecoveryDefault patch |}.

(** ** Digests *)

(** [omitempty] on a string, on a pointer. *)
Definition omit_empty (name value : string) : list (string * json) :=
  if String.eqb value "" then [] else [(name, JString value)].
Definition omit_nil {A} (name : string) (enc : A → json) (value : option A) : list (string * json) :=
  match value with Some v => [(name, enc v)] | None => [] end.
Definition strings_json (values : list string) : json := JArray (JString <$> values).
Definition Patch_json (p : Patch) : json :=
  JObject (omit_nil "mode" JString (Patch_Mode p) ++ omit_nil "gate_approval_mode" JString (Patch_GateApprovalMode p) ++
    omit_nil "required_test_kinds" strings_json (Patch_RequiredTestKinds p) ++
    omit_nil "allowed_target_branches" strings_json (Patch_AllowedTargetBranches p) ++
    omit_nil "merge_method" JString (Patch_MergeMethod p) ++
    omit_nil "deployment_workflow" JString (Patch_DeploymentWorkflow p) ++
    omit_nil "deployment_environment" JString (Patch_DeploymentEnvironment p) ++
    omit_nil "required_secret_references" strings_json (Patch_RequiredSecretReferences p) ++
    omit_nil "required_variable_references" strings_json (Patch_RequiredVariableReferences p) ++
    omit_nil "required_health_checks" strings_json (Patch_RequiredHealthChecks p) ++
    omit_nil "required_post_merge_checks" strings_json (Patch_RequiredPostMergeChecks p) ++
    omit_nil "recovery_default" JString (Patch_RecoveryDefault p))%list.

(** The JSON of an instant, or the error [json.Marshal] returns for it. *)
Definition time_json (what : string) (instant : Z) : Result string json :=
  match time_text instant with Some t => Ok (JString t) | None => Err what end.
Definition LayerDigest (layer : Layer) : Result string string :=
  expires ← match ExpiresAt layer with
            | None => Ok []
            | Some t => j ← time_json "encode delivery policy layer" t; mret [("expires_at", j)]
            end;
  mret (hexSum256 (Marshal (JObject
    ([("schema_version", JInt (Layer_SchemaVersion layer)); ("revision_id", JString (TrimSpace (Layer_RevisionID layer)));
      ("level", JString (Layer_Level layer))] ++
     omit_empty "organization_id" (TrimSpace (Layer_OrganizationID layer)) ++
     omit_empty "project_id" (TrimSpace (Layer_ProjectID layer)) ++
     omit_empty "repository" (TrimSpace (Layer_Repository layer)) ++
     omit_empty "change_set_id" (TrimSpace (Layer_ChangeSetID layer)) ++
     [("patch", Patch_json (canonicalPatch (Layer_Patch layer)))] ++
     omit_empty "reason" (TrimSpace (Layer_Reason layer)) ++ expires)%list))).

Definition SafetyFloor_json (s : SafetyFloor) : json :=
  JObject [("independent_review", JBool (IndependentReview s)); ("exact_sha_evidence", JBool (ExactSHAEvidence s));
    ("vault_reconciliation", JBool (VaultReconciliation s)); ("secret_scan", JBool (SecretScan s));
    ("maximum_high_findings", JInt (MaximumHighFindings s));
    ("maximum_critical_findings", JInt (MaximumCriticalFindings s));
    ("compatibility", JBool (Safety_Compatibility s)); ("migrations", JBool (Safety_Migrations s));
    ("dependency_order", JBool (DependencyOrder s)); ("environment", JBool (Safety_Environment s));
    ("recovery", JBool (Safety_Recovery s)); ("human_approval", JBool (Safety_HumanApproval s));
    ("force_merge_allowed", JBool (ForceMergeAllowed s))].
Definition Source_json (s : Source) : Result string json :=
  at_json ← time_json "encode resolved delivery policy" (Source_ApprovedAt s);
  mret (JObject [("level", JString (Source_Level s)); ("revision_id", JString (Source_RevisionID s));
    ("digest", JString (Source_Digest s)); ("approved_by", JString (Source_ApprovedBy s)); ("approved_at", at_json)]).
Fixpoint Sources_json (l : list Source) : Result string (list json) :=
  match l with
  | [] => Ok []
  | s :: l' => j ← Source_json s; js ← Sources_json l'; mret (j :: js)
  end.
(** The digest and the unexported fields are cleared before encoding. *)
Definition resolvedDigest (p : ResolvedPolicy) : Result string string :=
  sources ← Sources_json (Sources p);
  let c := Resolved_Context p in
  mret (hexSum256 (Marshal (JObject
    ([("schema_version", JInt (Resolved_SchemaVersion p));
      ("context", JObject [("organization_id", JString (OrganizationID c)); ("project_id", JString (ProjectID c));
                           ("repository", JString (Repository c)); ("change_set_id", JString (Context_ChangeSetID c))])] ++
     omit_empty "mode" (Mode p) ++
     [("gate_approval_mode", JString (PolicyGateApprovalMode p));
      ("required_test_kinds", strings_json (Resolved_RequiredTestKinds p));
      ("allowed_target_branches", strings_json (AllowedTargetBranches p))] ++
     omit_empty "merge_method" (MergeMethod p) ++ omit_empty "deployment_workflow" (DeploymentWorkflow p) ++
     omit_empty "deployment_environment" (DeploymentEnvironment p) ++
     [("required_secret_references", strings_json (RequiredSecretReferences p));
      ("required_variable_references", strings_json (RequiredVariableReferences p));
      ("required_health_checks", strings_json (RequiredHealthChecks p));
      ("required_post_merge_checks", strings_json (RequiredPostMergeChecks p))] ++
     omit_empty "recovery_default" (RecoveryDefault p) ++
     [("safety", SafetyFloor_json (Safety p)); ("sources", JArray sources); ("resolved", JBool (Resolved p));
      ("missing", strings_json (Missing p)); ("digest", JString "")])%list))).

(** ** Validation *)

Definition precedence (level : Level) : nat :=
  if String.eqb level LevelPlatform then 0 else if String.eqb level LevelOrganization then 1
  else if String.eqb level LevelProject then 2 else if String.eqb level LevelRepository then 3
  else if String.eqb level LevelOverride then 4 else 99.

Definition validName (value : string) : bool := namePattern (TrimSpace value).

(** The loop the list validators share: each value is valid, and no two have the same key. *)
Fixpoint all_distinct (key : string → string) (valid : string → bool) (seen : gset string) (values : list string) : bool :=
  match values with
  | [] => true
  | value :: rest =>
      if negb (valid value) then false
      else if bool_decide (key value ∈ seen) then false
      else all_distinct key valid ({[key value]} ∪ seen) rest
  end.
Definition lower_trimmed (value : string) : string := ToLower (TrimSpace value).
Definition upper_trimmed (value : string) : string := ToUpper (TrimSpace value).
Definition validEnvironmentReferences (values : list string) : bool :=
  if Nat.ltb 64 (length values) then false
  else all_distinct upper_trimmed
         (λ v, environmentReferencePattern (upper_trimmed v) && negb (HasPrefix (upper_trimmed v) "GITHUB_")) ∅ values.
Definition validNames (values : list string) (allowEmpty : bool) : bool :=
  match values with [] => allowEmpty | _ => all_distinct lower_trimmed (λ v, validName (TrimSpace v)) ∅ values end.
Definition validIdentifiers (values : list string) (allowEmpty : bool) : bool :=
  match values with [] => allowEmpty | _ => all_distinct lower_trimmed (λ v, identityPattern (TrimSpace v)) ∅ values end.
Definition validTargetBranch (value : string) : bool :=
  negb (String.eqb value "" || Nat.ltb 255 (String.length value) || HasPrefix value "." || HasSuffix value "." ||
        HasPrefix value "/" || HasSuffix value "/" || Contains value ".." || Contains value "@{" ||
        some_byte (λ c, one_of " \~^:?*[]" c || byte_is 0 c || byte_is 13 c || byte_is 10 c) value).
Definition validBranches (values : list string) : bool :=
  match values with [] => false | _ => all_distinct lower_trimmed (λ v, validTargetBranch (TrimSpace v)) ∅ values end.

(** A set pointer whose value is not valid. *)
Definition set_invalid {A} (value : option A) (valid : A → bool) : bool :=
  match value with Some v => negb (valid v) | None => false end.
Definition one_of_strings (options : list string) (value : string) : bool := existsb (String.eqb value) options.
Definition validatePatch (patch : Patch) : Result string unit :=
  if set_invalid (Patch_Mode patch) (one_of_strings [ModeReviewOnly; ModeMerge; ModeRelease])
  then Err "delivery mode is invalid"
  else if set_invalid (Patch_GateApprovalMode patch) (one_of_strings [GateApprovalHuman; GateApprovalDelegated])
  then Err "gate approval mode is invalid"
  else if set_invalid (Patch_RequiredTestKinds patch) (λ v, validIdentifiers v true)
  then Err "required test kinds are invalid"
  else if set_invalid (Patch_AllowedTargetBranches patch) validBranches then Err "target branches are invalid"
  else if set_invalid (Patch_MergeMethod patch) (λ v, one_of_strings ["merge"; "squash"; "rebase"] (lower_trimmed v))
  then Err "merge method is invalid"
  else if set_invalid (Patch_DeploymentWorkflow patch) (λ v, workflowPattern (TrimSpace v))
  then Err "deployment workflow is invalid"
  else if set_invalid (Patch_DeploymentEnvironment patch) validName then Err "deployment environment is invalid"
  else if set_invalid (Patch_RequiredSecretReferences patch) validEnvironmentReferences
  then Err "required secret references are invalid"
  else if set_invalid (Patch_RequiredVariableReferences patch) validEnvironmentReferences
  then Err "required variable references are invalid"
  else if set_invalid (Patch_RequiredHealthChecks patch) (λ v, validNames v false)
  then Err "required health checks are invalid"
  else if set_invalid (Patch_RequiredPostMergeChecks patch) (λ v, validNames v false)
  then Err "required post-merge checks are invalid"
  else if set_invalid (Patch_RecoveryDefault patch)
            (λ v, one_of_strings [RecoveryRollback; RecoveryRollForward; RecoveryExpandContract; RecoveryIrreversible]
                    (lower_trimmed v))
  then Err "recovery default is invalid"
  else Ok tt.

Definition normalizeContext (context : Context) : Result string Context :=
  let organizationID := TrimSpace (OrganizationID context) in
  let projectID := TrimSpace (ProjectID context) in
  let changeSetID := TrimSpace (Context_ChangeSetID context) in
  if negb (identityPattern organizationID) || negb (identityPattern projectID) || negb (identityPattern changeSetID)
  then Err "policy scope identity is invalid"
  else
    repository ← CanonicalGitHubReference (Repository context);
    mret {| OrganizationID := organizationID; ProjectID := projectID; Repository := repository;
            Context_ChangeSetID := changeSetID |}.

(** The scope each level must carry. *)
Definition blank (s : string) : bool := String.eqb s "".
Definition is_canonical (reference repository : string) : bool :=
  match CanonicalGitHubReference reference with Ok canonical => String.eqb canonical repository | Err _ => false end.
Definition validateScope (context : Context) (layer : Layer) (now : Z) : Result string unit :=
  let organizationID := TrimSpace (Layer_OrganizationID layer) in
  let projectID := TrimSpace (Layer_ProjectID layer) in
  let repository := TrimSpace (Layer_Repository layer) in
  let changeSetID := TrimSpace (Layer_ChangeSetID layer) in
  let same_organization := String.eqb organizationID (OrganizationID context) in
  let same_project := String.eqb projectID (ProjectID context) in
  let unexpiring := match ExpiresAt layer with None => true | Some _ => false end in
  if String.eqb (Layer_Level layer) LevelPlatform then
    fail_if (negb (blank organizationID && blank projectID && blank repository && blank changeSetID && unexpiring))
      "platform policy must not carry a narrower scope"
  else if String.eqb (Layer_Level layer) LevelOrganization then
    fail_if (negb (same_organization && blank projectID && blank repository && blank changeSetID && unexpiring))
      "organization policy does not match the requested scope"
  else if String.eqb (Layer_Level layer) LevelProject then
    fail_if (negb (same_organization && same_project && blank repository && blank changeSetID && unexpiring))
      "project policy does not match the requested scope"
  else if String.eqb (Layer_Level layer) LevelRepository then
    fail_if (negb (is_canonical repository (Repository context) && same_organization && same_project &&
                   blank changeSetID && unexpiring))
      "repository policy does not match the requested scope"
  else if String.eqb (Layer_Level layer) LevelOverride then
    let expired := "approved override is expired or does not match the change set" in
    match ExpiresAt layer with
    | None => Err expired
    | Some expiresAt =>
        if negb (same_organization && same_project && String.eqb changeSetID (Context_ChangeSetID context) &&
                 negb (blank (TrimSpace (Layer_Reason layer))) && Z.ltb now expiresAt)
        then Err expired
        else if Z.ltb (ApprovedAt layer + maximumOverrideLifetime) expiresAt
        then Err "approved override exceeds the maximum lifetime"
        else fail_if (negb (blank repository) && negb (is_canonical repository (Repository context)))
               "approved override does not match the repository"
    end
  else Err "delivery policy level is unsupported".

Definition validateLayer (context : Context) (layer : Layer) (now : Z) : Result string unit :=
  let named what := "delivery policy " +:+ Layer_Level layer +:+ " layer" +:+ what in
  if negb (Z.eqb (Layer_SchemaVersion layer) SchemaVersion) || negb (identityPattern (TrimSpace (Layer_RevisionID layer))) ||
     negb (Approved layer) || negb (identityPattern (TrimSpace (ApprovedBy layer))) || Z.eqb (ApprovedAt layer) 0 ||
     Z.ltb (now + Minute) (ApprovedAt layer)
  then Err (named " is not an approved current revision")
  else
    _ ← match LayerDigest layer with
        | Ok expectedDigest =>
            fail_if (negb (digestPattern (ToLower (TrimSpace (Layer_Digest layer))) && EqualFold expectedDigest (Layer_Digest layer)))
              (named " digest does not match")
        | Err _ => Err (named " digest does not match")
        end;
    _ ← match validatePatch (Layer_Patch layer) with Ok _ => Ok tt | Err e => Err (named ": " +:+ e) end;
    _ ← fail_if (bool_decide (Patch_GateApprovalMode (Layer_Patch layer) = Some GateApprovalDelegated) &&
                 String.eqb (Layer_Level layer) LevelOverride)
          "delivery policy override cannot delegate gate approval";
    validateScope context layer now.

(** ** Resolution *)

Definition inherit {A} (value : option A) (inherited : A) : A := default inherited value.
Definition is_set {A} (value : option A) : bool := match value with Some _ => true | None => false end.
Definition applyPatch (policy : ResolvedPolicy) (patch : Patch) : ResolvedPolicy :=
  {| Resolved_SchemaVersion := Resolved_SchemaVersion policy; Resolved_Context := Resolved_Context policy;
     Mode := inherit (Patch_Mode patch) (Mode policy);
     PolicyGateApprovalMode := inherit (Patch_GateApprovalMode patch) (PolicyGateApprovalMode policy);
     Resolved_RequiredTestKinds := inherit (Patch_RequiredTestKinds patch) (Resolved_RequiredTestKinds policy);
     AllowedTargetBranches := inherit (Patch_AllowedTargetBranches patch) (AllowedTargetBranches policy);
     MergeMethod := inherit (lower_trimmed <$> Patch_MergeMethod patch) (MergeMethod policy);
     DeploymentWorkflow := inherit (TrimSpace <$> Patch_DeploymentWorkflow patch) (DeploymentWorkflow policy);
     DeploymentEnvironment := inherit (TrimSpace <$> Patch_DeploymentEnvironment patch) (DeploymentEnvironment policy);
     RequiredSecretReferences := inherit (Patch_RequiredSecretReferences patch) (RequiredSecretReferences policy);
     RequiredVariableReferences := inherit (Patch_RequiredVariableReferences patch) (RequiredVariableReferences policy);
     RequiredHealthChecks := inherit (Patch_RequiredHealthChecks patch) (RequiredHealthChecks policy);
     RequiredPostMergeChecks := inherit (Patch_RequiredPostMergeChecks patch) (RequiredPostMergeChecks policy);
     RecoveryDefault := inherit (lower_trimmed <$> Patch_RecoveryDefault patch) (RecoveryDefault policy);
     Safety := Safety policy; Sources := Sources policy; Resolved := Resolved policy; Missing := Missing policy;
     Digest := Digest policy;
     explicitTests := explicitTests policy || is_set (Patch_RequiredTestKinds patch);
     explicitBranches := explicitBranches policy || is_set (Patch_AllowedTargetBranches patch);
     explicitSecretReferences := explicitSecretReferences policy || is_set (Patch_RequiredSecretReferences patch);
     explicitVariableReferences := explicitVariableReferences policy || is_set (Patch_RequiredVariableReferences patch) |}.
Definition add_source (policy : ResolvedPolicy) (source : Source) : ResolvedPolicy :=
  {| Resolved_SchemaVersion := Resolved_SchemaVersion policy; Resolved_Context := Resolved_Context policy;
     Mode := Mode policy; PolicyGateApprovalMode := PolicyGateApprovalMode policy;
     Resolved_RequiredTestKinds := Resolved_RequiredTestKinds policy; AllowedTargetBranches := AllowedTargetBranches policy;
     MergeMethod := MergeMethod policy; DeploymentWorkflow := DeploymentWorkflow policy;
     DeploymentEnvironment := DeploymentEnvironment policy; RequiredSecretReferences := RequiredSecretReferences policy;
     RequiredVariableReferences := RequiredVariableReferences policy; RequiredHealthChecks := RequiredHealthChecks policy;
     RequiredPostMergeChecks := RequiredPostMergeChecks policy; RecoveryDefault := RecoveryDefault policy;
     Safety := Safety policy; Sources := (Sources policy ++ [source])%list; Resolved := Resolved policy;
     Missing := Missing policy; Digest := Digest policy; explicitTests := explicitTests policy;
     explicitBranches := explicitBranches policy; explicitSecretReferences := explicitSecretReferences policy;
     explicitVariableReferences := explicitVariableReferences policy |}.

Definition missing_if (c : bool) (name : string) : list string := if c then [name] else [].
Definition empty_list {A} (l : list A) : bool := match l with [] => true | _ => false end.
Definition missingConfiguration (policy : ResolvedPolicy) : list string :=
  let merging := String.eqb (Mode policy) ModeMerge || String.eqb (Mode policy) ModeRelease in
  sort_strings
    (missing_if (blank (Mode policy)) "mode" ++
     missing_if (negb (explicitTests policy) || (merging && empty_list (Resolved_RequiredTestKinds policy))) "required_test_kinds" ++
     missing_if (negb (explicitBranches policy) || empty_list (AllowedTargetBranches policy)) "allowed_target_branches" ++
     missing_if (merging && blank (MergeMethod policy)) "merge_method" ++
     if String.eqb (Mode policy) ModeRelease then
       missing_if (blank (DeploymentWorkflow policy)) "deployment_workflow" ++
       missing_if (blank (DeploymentEnvironment policy)) "deployment_environment" ++
       missing_if (negb (explicitSecretReferences policy)) "required_secret_references" ++
       missing_if (negb (explicitVariableReferences policy)) "required_variable_references" ++
       missing_if (empty_list (RequiredHealthChecks policy)) "required_health_checks" ++
       missing_if (blank (RecoveryDefault policy)) "recovery_default"
     else [])%list.

(** The lists put in canonical order, then [Missing] and [Resolved]. *)
Definition canonicalized (policy : ResolvedPolicy) : ResolvedPolicy :=
  {| Resolved_SchemaVersion := Resolved_SchemaVersion policy; Resolved_Context := Resolved_Context policy;
     Mode := Mode policy; PolicyGateApprovalMode := PolicyGateApprovalMode policy;
     Resolved_RequiredTestKinds := canonicalNames (Resolved_RequiredTestKinds policy);
     AllowedTargetBranches := canonicalBranches (AllowedTargetBranches policy);
     MergeMethod := MergeMethod policy; DeploymentWorkflow := DeploymentWorkflow policy;
     DeploymentEnvironment := DeploymentEnvironment policy;
     RequiredSecretReferences := canonicalEnvironmentReferences (RequiredSecretReferences policy);
     RequiredVariableReferences := canonicalEnvironmentReferences (RequiredVariableReferences policy);
     RequiredHealthChecks := canonicalNames (RequiredHealthChecks policy);
     RequiredPostMergeChecks := canonicalNames (RequiredPostMergeChecks policy);
     RecoveryDefault := RecoveryDefault policy; Safety := Safety policy; Sources := Sources policy;
     Resolved := Resolved policy; Missing := Missing policy; Digest := Digest policy;
     explicitTests := explicitTests policy; explicitBranches := explicitBranches policy;
     explicitSecretReferences := explicitSecretReferences policy;
     explicitVariableReferences := explicitVariableReferences policy |}.
Definition set_outcome (policy : ResolvedPolicy) (resolved : bool) (missing : list string) (digest : string) : ResolvedPolicy :=
  {| Resolved_SchemaVersion := Resolved_SchemaVersion policy; Resolved_Context := Resolved_Context policy;
     Mode := Mode policy; PolicyGateApprovalMode := PolicyGateApprovalMode policy;
     Resolved_RequiredTestKinds := Resolved_RequiredTestKinds policy; AllowedTargetBranches := AllowedTargetBranches policy;
     MergeMethod := MergeMethod policy; DeploymentWorkflow := DeploymentWorkflow policy;
     DeploymentEnvironment := DeploymentEnvironment policy; RequiredSecretReferences := RequiredSecretReferences policy;
     RequiredVariableReferences := RequiredVariableReferences policy; RequiredHealthChecks := RequiredHealthChecks policy;
     RequiredPostMergeChecks := RequiredPostMergeChecks policy; RecoveryDefault := RecoveryDefault policy;
     Safety := Safety policy; Sources := Sources policy; Resolved := resolved; Missing := missing; Digest := digest;
     explicitTests := explicitTests policy; explicitBranches := explicitBranches policy;
     explicitSecretReferences := explicitSecretReferences policy;
     explicitVariableReferences := explicitVariableReferences policy |}.

Definition initialPolicy (context : Context) : ResolvedPolicy :=
  {| Resolved_SchemaVersion := SchemaVersion; Resolved_Context := context; Mode := "";
     PolicyGateApprovalMode := GateApprovalHuman; Resolved_RequiredTestKinds := []; AllowedTargetBranches := [];
     MergeMethod := ""; DeploymentWorkflow := ""; DeploymentEnvironment := ""; RequiredSecretReferences := [];
     RequiredVariableReferences := []; RequiredHealthChecks := []; RequiredPostMergeChecks := []; RecoveryDefault := "";
     Safety := safetyFloor; Sources := []; Resolved := false; Missing := []; Digest := ""; explicitTests := false;
     explicitBranches := false; explicitSecretReferences := false; explicitVariableReferences := false |}.
Definition source_of (layer : Layer) : Source :=
  {| Source_Level := Layer_Level layer; Source_RevisionID := TrimSpace (Layer_RevisionID layer);
     Source_Digest := ToLower (Layer_Digest layer); Source_ApprovedBy := TrimSpace (ApprovedBy layer);
     Source_ApprovedAt := ApprovedAt layer |}.
Fixpoint apply_layers (context : Context) (now : Z) (seen : gset string) (policy : ResolvedPolicy) (layers : list Layer)
    : Result string ResolvedPolicy :=
  match layers with
  | [] => Ok policy
  | layer :: rest =>
      if bool_decide (Layer_Level layer ∈ seen)
      then Err ("delivery policy contains duplicate " +:+ Layer_Level layer +:+ " layer")
      else
        _ ← validateLayer context layer now;
        apply_layers context now ({[Layer_Level layer]} ∪ seen)
          (add_source (applyPatch policy (Layer_Patch layer)) (source_of layer)) rest
  end.
(** [sort.Slice] by precedence. *)
Definition precedence_less (left right : Layer) : bool :=
  Nat.ltb (precedence (Layer_Level left)) (precedence (Layer_Level right)).

Definition Resolve (context : Context) (layers : list Layer) (now : Z) : Result string ResolvedPolicy :=
  match normalizeContext context with
  | Err _ => Err "delivery policy context is invalid"
  | Ok normalizedContext =>
      if Z.eqb now 0 then Err "delivery policy context is invalid"
      else
        applied ← apply_layers normalizedContext now ∅ (initialPolicy normalizedContext) (sort_by precedence_less layers);
        let result := canonicalized applied in
        let missing := missingConfiguration result in
        let result := set_outcome result (empty_list missing) missing "" in
        digest ← resolvedDigest result;
        mret (set_outcome result (empty_list missing) missing digest)
  end.

Definition GatePolicyFor (policy : ResolvedPolicy) (action : Action) : Policy :=
  let actionAllowed :=
    (String.eqb action ActionMerge && (String.eqb (Mode policy) ModeMerge || String.eqb (Mode policy) ModeRelease)) ||
    (String.eqb action ActionRelease && String.eqb (Mode policy) ModeRelease) in
  {| Policy_Resolved := Resolved policy && actionAllowed && digestPattern (Digest policy);
     Policy_Digest := Digest policy; RequiredTestKinds := Resolved_RequiredTestKinds policy; Policy_Repositories := [] |}.
Definition AllowsTargetBranch (policy : ResolvedPolicy) (branch : string) : bool :=
  if negb (Resolved policy) || negb (String.eqb branch (TrimSpace branch)) then false
  else existsb (String.eqb branch) (AllowedTargetBranches policy).
End Policy.
