(* ===== verification/DeliveryPolicyTheorems.v ===== *)
(** * Delivery policy: the properties *)
From stdpp Require Import base tactics list strings gmap sorting.
From Stdlib Require Import Ascii.
From S2P Require Import Prelude GoStrings GoSort Sha256 Json ReleaseGate ReleaseGateFacts ReleaseGateTheorems DeliveryPolicy.
Open Scope string_scope.

Section Theorems.
Context {unicode : GoUnicode} {time_url : GoTimeURL}.

(** ** What a successful resolution has checked *)

Definition level_known (level : Level) : Prop :=
  level ∈ [LevelPlatform; LevelOrganization; LevelProject; LevelRepository; LevelOverride].
Lemma precedence_inj l1 l2 : level_known l1 → level_known l2 → precedence l1 = precedence l2 → l1 = l2.
Proof.
  unfold level_known. rewrite !elem_of_cons, !elem_of_nil. intros H1 H2.
  destruct_or? H1; destruct_or? H2; subst; intros Hp; (done || (vm_compute in Hp; discriminate)).
Qed.
Lemma validateScope_level context layer now : validateScope context layer now = Ok tt → level_known (Layer_Level layer).
Proof.
  unfold validateScope, level_known. rewrite !elem_of_cons.
  repeat match goal with |- context [String.eqb (Layer_Level layer) ?l] => destruct (String.eqb_spec (Layer_Level layer) l); [auto 10|] end.
  done.
Qed.

(** Everything [validateLayer] requires, one clause per check. *)
Record layer_valid (context : Context) (now : Z) (layer : Layer) : Prop := {
  valid_approved : Approved layer = true ∧ Layer_SchemaVersion layer = SchemaVersion ∧ ApprovedAt layer ≠ 0%Z ∧
    (ApprovedAt layer ≤ now + Minute)%Z;
  valid_identities : identityPattern (TrimSpace (Layer_RevisionID layer)) = true ∧
    identityPattern (TrimSpace (ApprovedBy layer)) = true;
  valid_sealed : ∃ d, LayerDigest layer = Ok d ∧ EqualFold d (Layer_Digest layer) = true;
  valid_patch : validatePatch (Layer_Patch layer) = Ok tt;
  valid_delegation : Layer_Level layer = LevelOverride → Patch_GateApprovalMode (Layer_Patch layer) ≠ Some GateApprovalDelegated;
  valid_scope : validateScope context layer now = Ok tt;
}.
Lemma validateLayer_valid context layer now : validateLayer context layer now = Ok tt → layer_valid context now layer.
Proof.
  unfold validateLayer. destruct (_ || _) eqn:Hc; [done|].
  apply orb_false_iff in Hc as [Hc H6%Z.ltb_ge]. apply orb_false_iff in Hc as [Hc H5%Z.eqb_neq].
  apply orb_false_iff in Hc as [Hc H4%negb_false_iff]. apply orb_false_iff in Hc as [Hc H3%negb_false_iff].
  apply orb_false_iff in Hc as [H1%negb_false_iff%Z.eqb_eq H2%negb_false_iff].
  intros (? & Hd & ([] & Hp & ([] & Hg & Hs)%bind_ok)%bind_ok)%bind_ok. apply fail_if_ok in Hg.
  destruct (LayerDigest layer) as [d|] eqn:Hld; [|done]. apply fail_if_ok in Hd.
  apply negb_false_iff, andb_true_iff in Hd as [_ Hd].
  split; [by split_and!|done|by exists d|by destruct (validatePatch _) as [[]|]| |done].
  intros Hl. rewrite Hl, andb_true_r in Hg. by apply bool_decide_eq_false in Hg.
Qed.

Definition apply_layer (policy : ResolvedPolicy) (layer : Layer) : ResolvedPolicy :=
  add_source (applyPatch policy (Layer_Patch layer)) (source_of layer).
Lemma apply_layers_ok context now seen policy layers result :
  apply_layers context now seen policy layers = Ok result ↔
  Forall (λ l, validateLayer context l now = Ok tt) layers ∧ NoDup (Layer_Level <$> layers) ∧
  (∀ l, l ∈ layers → Layer_Level l ∉ seen) ∧ result = foldl apply_layer policy layers.
Proof.
  revert seen policy. induction layers as [|l ls IH]; intros seen policy; cbn [apply_layers foldl].
  { split; [|by intros (_ & _ & _ & ->)]. intros [= ->]. split_and!; [constructor|constructor|by intros ? ?%not_elem_of_nil|done]. }
  case_bool_decide as Hs.
  { split; [done|]. intros (_ & _ & Hn & _). destruct (Hn l); [constructor|done]. }
  rewrite bind_ok, Forall_cons, fmap_cons, NoDup_cons. split.
  - intros ([] & Hv & (Hf & Hnd & Hn & ->)%IH). split_and!; [done|done| |done| |done].
    + intros (l' & Heq & Hl')%list_elem_of_fmap. specialize (Hn l' Hl'). rewrite Heq in Hn. set_solver.
    + intros l' [->|Hl']%elem_of_cons; [done|]. specialize (Hn l' Hl'). set_solver.
  - intros ([Hv Hf] & [Hnotin Hnd] & Hn & ->). exists tt. split; [done|]. apply IH. split_and!; [done|done| |done].
    intros l' Hl'. assert (Layer_Level l' ∉ seen) by (apply Hn; by constructor).
    assert (Layer_Level l' ≠ Layer_Level l); [|set_solver]. intros Heq. apply Hnotin. rewrite <-Heq. by apply list_elem_of_fmap_2.
Qed.

Lemma sorted_layers_perm layers : sort_by precedence_less layers ≡ₚ layers.
Proof. apply sort_by_perm. Qed.

(** The decomposition of a successful [Resolve]. *)
Lemma Resolve_ok context layers now p :
  Resolve context layers now = Ok p →
  ∃ c digest applied, normalizeContext context = Ok c ∧ now ≠ 0%Z ∧
    Forall (layer_valid c now) layers ∧ NoDup (Layer_Level <$> layers) ∧
    applied = foldl apply_layer (initialPolicy c) (sort_by precedence_less layers) ∧
    digestPattern digest = true ∧
    p = set_outcome (canonicalized applied) (empty_list (missingConfiguration (canonicalized applied)))
          (missingConfiguration (canonicalized applied)) digest.
Proof.
  unfold Resolve. destruct (normalizeContext context) as [c|]; [|done]. destruct (Z.eqb_spec now 0); [done|].
  intros (applied & (Hf & Hnd & _ & Ha)%apply_layers_ok & (digest & Hd & [= <-])%bind_ok)%bind_ok.
  rewrite sorted_layers_perm in Hf, Hnd. exists c, digest, applied. split_and!; [done|done| |done|done| |done].
  - eapply Forall_impl; [exact Hf|]. intros l. apply validateLayer_valid.
  - unfold resolvedDigest in Hd. apply bind_ok in Hd as (sources & _ & [= <-]).
    unfold digestPattern, re_exact. rewrite hexSum256_length. cbn [Nat.eqb andb].
    generalize (hexSum256_hex). intros Hhex. eapply all_bytes_impl; [|apply Hhex].
    intros ch. unfold is_lower_hex. by rewrite orb_comm.
Qed.

(** ** Order *)

Lemma same_level_same_layer c now layers x y :
  Forall (layer_valid c now) layers → NoDup (Layer_Level <$> layers) → x ∈ layers → y ∈ layers →
  precedence (Layer_Level x) = precedence (Layer_Level y) → x = y.
Proof.
  intros Hf Hnd Hx Hy Hp. rewrite Forall_forall in Hf. pose proof (Hf x Hx) as Hvx. pose proof (Hf y Hy) as Hvy.
  apply valid_scope, validateScope_level in Hvx, Hvy.
  assert (Layer_Level x = Layer_Level y) as Hl by by apply precedence_inj.
  apply list_elem_of_lookup in Hx as [i Hi], Hy as [j Hj]. assert (i = j) as ->; [|congruence].
  eapply (NoDup_lookup (Layer_Level <$> layers)); [done|rewrite list_lookup_fmap, Hi; reflexivity|].
  by rewrite list_lookup_fmap, Hj, Hl.
Qed.
(** [Resolve] answers the same policy, digest included, whatever the order of the
    layers it is given. *)
Theorem Resolve_ignores_order context layers layers' now p :
  layers ≡ₚ layers' → Resolve context layers now = Ok p → Resolve context layers' now = Ok p.
Proof.
  intros Hp Hr. destruct (Resolve_ok _ _ _ _ Hr) as (c & _ & _ & _ & _ & Hf & Hnd & _).
  assert (sort_by precedence_less layers = sort_by precedence_less layers') as Heq.
  { apply sort_by_unique; [| | |exact Hp].
    - intros x y z. unfold not_less, precedence_less. rewrite !Nat.ltb_ge. lia.
    - intros x y. unfold precedence_less. rewrite Nat.ltb_lt, Nat.ltb_ge. lia.
    - intros x y Hx Hy Hxy Hyx. unfold precedence_less in *. rewrite Nat.ltb_ge in Hxy, Hyx.
      eapply same_level_same_layer; [done..|lia]. }
  unfold Resolve in *. by rewrite <-Heq.
Qed.

(** ** Precedence *)

(** [v] is what the narrowest layer that sets the field says, [inherited] if none does. *)
Definition narrowest_setting {A} (layers : list Layer) (field : Patch → option A) (inherited v : A) : Prop :=
  (∃ l, l ∈ layers ∧ field (Layer_Patch l) = Some v ∧
        ∀ l', l' ∈ layers → is_Some (field (Layer_Patch l')) → precedence (Layer_Level l') ≤ precedence (Layer_Level l))%nat ∨
  (v = inherited ∧ ∀ l, l ∈ layers → field (Layer_Patch l) = None).

Lemma fold_setting {A} (get : ResolvedPolicy → A) (field : Patch → option A) policy layers :
  (∀ p patch, get (applyPatch p patch) = inherit (field patch) (get p)) → (∀ p s, get (add_source p s) = get p) →
  StronglySorted (not_less precedence_less) layers →
  narrowest_setting layers field (get policy) (get (foldl apply_layer policy layers)).
Proof.
  intros Hpatch Hsource. induction layers as [|l ls IH] using rev_ind; intros Hs.
  { right. split; [done|]. by intros l ?%not_elem_of_nil. }
  apply StronglySorted_app in Hs as (Hle & Hs & _). specialize (IH Hs).
  rewrite foldl_snoc. unfold apply_layer at 1. rewrite Hsource, Hpatch.
  destruct (field (Layer_Patch l)) as [v|] eqn:Hv; cbn [inherit default].
  - left. exists l. split; [set_solver|]. split; [done|]. intros l' [Hl'| ->%list_elem_of_singleton]%elem_of_app _; [|done].
    specialize (Hle l' l Hl' ltac:(constructor)). unfold not_less, precedence_less in Hle. by apply Nat.ltb_ge in Hle.
  - destruct IH as [(l0 & Hl0 & Hf & Hmax)|[Heq Hnone]].
    + left. exists l0. split; [set_solver|]. split; [done|].
      intros l' [Hl'| ->%list_elem_of_singleton]%elem_of_app Hset; [by apply Hmax|]. rewrite Hv in Hset. by destruct Hset.
    + right. split; [done|]. intros l' [Hl'| ->%list_elem_of_singleton]%elem_of_app; [by apply Hnone|done].
Qed.
Lemma narrowest_perm {A} layers layers' (field : Patch → option A) d v :
  layers ≡ₚ layers' → narrowest_setting layers field d v → narrowest_setting layers' field d v.
Proof.
  intros Hp [(l & Hl & Hf & Hmax)|[-> Hnone]].
  - left. exists l. rewrite <-Hp. split_and!; [done|done|]. intros l' Hl'. apply Hmax. by rewrite Hp.
  - right. split; [done|]. intros l Hl. apply Hnone. by rewrite Hp.
Qed.
Lemma sorted_precedence layers : StronglySorted (not_less precedence_less) (sort_by precedence_less layers).
Proof.
  apply sort_by_sorted.
  - intros x y z. unfold not_less, precedence_less. rewrite !Nat.ltb_ge. lia.
  - intros x y. unfold precedence_less. rewrite Nat.ltb_lt, Nat.ltb_ge. lia.
Qed.
Lemma Resolve_setting {A} (get : ResolvedPolicy → A) (field : Patch → option A) context layers now p c :
  (∀ p patch, get (applyPatch p patch) = inherit (field patch) (get p)) → (∀ p s, get (add_source p s) = get p) →
  normalizeContext context = Ok c → Resolve context layers now = Ok p →
  narrowest_setting layers field (get (initialPolicy c))
    (get (foldl apply_layer (initialPolicy c) (sort_by precedence_less layers))).
Proof.
  intros Hpatch Hsource Hc Hr. eapply narrowest_perm; [apply sorted_layers_perm|].
  apply fold_setting; [done..|apply sorted_precedence].
Qed.

Lemma narrowest_unique {A} c now layers (field : Patch → option A) d v w :
  Forall (layer_valid c now) layers → NoDup (Layer_Level <$> layers) →
  narrowest_setting layers field d v → narrowest_setting layers field d w → v = w.
Proof.
  intros Hf Hnd [(x & Hx & Hfx & Hmx)|[-> Hnx]] [(y & Hy & Hfy & Hmy)|[-> Hny]].
  - assert (x = y) as ->; [|congruence]. eapply same_level_same_layer; [done..|].
    apply Nat.le_antisymm; [apply Hmy|apply Hmx]; rewrite ?Hfx, ?Hfy; eauto.
  - specialize (Hny x Hx). congruence.
  - specialize (Hnx y Hy). congruence.
  - done.
Qed.

(** every setting of a resolved policy is the one of the narrowest layer that sets it
    (override before repository, project, organization, platform), in canonical form; an
    unset mode is empty and unset gate approvals are human. *)
Theorem narrowest_layer_wins context layers now p :
  Resolve context layers now = Ok p →
  StronglySorted lt (precedence <$> [LevelPlatform; LevelOrganization; LevelProject; LevelRepository; LevelOverride]) ∧
  narrowest_setting layers Patch_Mode "" (Mode p) ∧
  narrowest_setting layers Patch_GateApprovalMode GateApprovalHuman (PolicyGateApprovalMode p) ∧
  (∃ v, narrowest_setting layers Patch_RequiredTestKinds [] v ∧ Resolved_RequiredTestKinds p = canonicalNames v) ∧
  (∃ v, narrowest_setting layers Patch_AllowedTargetBranches [] v ∧ AllowedTargetBranches p = canonicalBranches v) ∧
  narrowest_setting layers (λ patch, lower_trimmed <$> Patch_MergeMethod patch) "" (MergeMethod p) ∧
  narrowest_setting layers (λ patch, lower_trimmed <$> Patch_RecoveryDefault patch) "" (RecoveryDefault p).
Proof.
  intros Hr. destruct (Resolve_ok _ _ _ _ Hr) as (c & digest & applied & Hc & _ & _ & _ & Ha & _ & ->).
  unfold set_outcome, canonicalized. cbn. rewrite Ha. split_and!.
  - repeat constructor.
  - by apply (Resolve_setting Mode Patch_Mode _ _ _ _ _ ltac:(done) ltac:(done) Hc Hr).
  - by apply (Resolve_setting PolicyGateApprovalMode Patch_GateApprovalMode _ _ _ _ _ ltac:(done) ltac:(done) Hc Hr).
  - eexists. split; [|reflexivity].
    by apply (Resolve_setting Resolved_RequiredTestKinds Patch_RequiredTestKinds _ _ _ _ _ ltac:(done) ltac:(done) Hc Hr).
  - eexists. split; [|reflexivity].
    by apply (Resolve_setting AllowedTargetBranches Patch_AllowedTargetBranches _ _ _ _ _ ltac:(done) ltac:(done) Hc Hr).
  - by apply (Resolve_setting MergeMethod (λ q, lower_trimmed <$> Patch_MergeMethod q) _ _ _ _ _ ltac:(done) ltac:(done) Hc Hr).
  - by apply (Resolve_setting RecoveryDefault (λ q, lower_trimmed <$> Patch_RecoveryDefault q) _ _ _ _ _ ltac:(done) ltac:(done) Hc Hr).
Qed.

(** ** Overrides *)

(** an override layer of a resolved policy is approved, unexpired, lives at most a day
    past its approval, says why, matches the change set, and never hands gate approval to
    delegates; so a delegated policy owes its delegation to a standing layer. *)
Theorem overrides_are_bounded context layers now p l :
  Resolve context layers now = Ok p → l ∈ layers → Layer_Level l = LevelOverride →
  (∃ expires, ExpiresAt l = Some expires ∧ (now < expires ≤ ApprovedAt l + 24 * 60 * Minute)%Z ∧
              (ApprovedAt l ≤ now + Minute)%Z) ∧
  Approved l = true ∧ TrimSpace (Layer_Reason l) ≠ "" ∧
  TrimSpace (Layer_ChangeSetID l) = TrimSpace (Context_ChangeSetID context) ∧
  (PolicyGateApprovalMode p = GateApprovalDelegated →
     ∃ l', l' ∈ layers ∧ Layer_Level l' ≠ LevelOverride ∧ Approved l' = true ∧
           Patch_GateApprovalMode (Layer_Patch l') = Some GateApprovalDelegated).
Proof.
  intros Hr Hl Hlevel. destruct (Resolve_ok _ _ _ _ Hr) as (c & digest & applied & Hc & _ & Hf & _ & Ha & _ & Hp).
  rewrite Forall_forall in Hf. pose proof (Hf l Hl) as [(Happ & _ & _ & Hat) _ _ _ _ Hscope].
  assert (Context_ChangeSetID c = TrimSpace (Context_ChangeSetID context)) as Hcs.
  { unfold normalizeContext in Hc. case_match; [done|]. by apply bind_ok in Hc as (? & _ & [= <-]). }
  unfold validateScope in Hscope. rewrite Hlevel in Hscope. cbn [String.eqb] in Hscope.
  change (String.eqb LevelOverride LevelPlatform) with false in Hscope. change (String.eqb LevelOverride LevelOrganization) with false in Hscope.
  change (String.eqb LevelOverride LevelProject) with false in Hscope. change (String.eqb LevelOverride LevelRepository) with false in Hscope.
  change (String.eqb LevelOverride LevelOverride) with true in Hscope. cbv iota in Hscope.
  destruct (ExpiresAt l) as [expires|] eqn:He; [|done]. destruct (negb _) eqn:Hc1 in Hscope; [done|].
  destruct (Z.ltb_spec (ApprovedAt l + maximumOverrideLifetime) expires); [done|].
  apply negb_false_iff in Hc1. rewrite !andb_true_iff, negb_true_iff, Z.ltb_lt, !String.eqb_eq in Hc1.
  destruct Hc1 as [[[[_ _] Hset] Hreason] Hnow]. split_and!; [|done| |congruence|].
  - exists expires. unfold maximumOverrideLifetime in *. split_and!; [done|lia..].
  - unfold blank in Hreason. by apply String.eqb_neq in Hreason.
  - intros Hdel. assert (narrowest_setting layers Patch_GateApprovalMode GateApprovalHuman (PolicyGateApprovalMode p)) as Hs.
    { rewrite Hp, Ha. by apply (Resolve_setting PolicyGateApprovalMode Patch_GateApprovalMode _ _ _ _ _ ltac:(done) ltac:(done) Hc Hr). }
    rewrite Hdel in Hs. destruct Hs as [(l' & Hl' & Hf' & _)|[? _]]; [|done].
    exists l'. pose proof (Hf l' Hl') as [(? & _) _ _ _ Hd _]. split_and!; [done| |done|done]. intros Hov. by apply (Hd Hov).
Qed.

(** ** Completeness *)

(** What a mode needs before a policy counts as resolved. *)
Definition configured (p : ResolvedPolicy) : Prop :=
  Mode p ≠ "" ∧ explicitTests p = true ∧ explicitBranches p = true ∧ AllowedTargetBranches p ≠ [] ∧
  (Mode p = ModeMerge ∨ Mode p = ModeRelease → Resolved_RequiredTestKinds p ≠ [] ∧ MergeMethod p ≠ "") ∧
  (Mode p = ModeRelease →
     DeploymentWorkflow p ≠ "" ∧ DeploymentEnvironment p ≠ "" ∧ explicitSecretReferences p = true ∧
     explicitVariableReferences p = true ∧ RequiredHealthChecks p ≠ [] ∧ RecoveryDefault p ≠ "").
Lemma missing_if_nil c name : missing_if c name = [] ↔ c = false.
Proof. by destruct c. Qed.
Lemma empty_list_false {A} (l : list A) : empty_list l = false ↔ l ≠ [].
Proof. by destruct l. Qed.
Lemma missing_configured p : missingConfiguration p = [] ↔ configured p.
Proof.
  unfold missingConfiguration, configured. set (merging := String.eqb (Mode p) ModeMerge || String.eqb (Mode p) ModeRelease).
  assert (merging = true ↔ Mode p = ModeMerge ∨ Mode p = ModeRelease) as Hm.
  { subst merging. by rewrite orb_true_iff, !String.eqb_eq. }
  assert (∀ l, sort_strings l = [] ↔ l = []) as ->.
  { intros l. split; [|by intros ->]. intros Hs. apply Permutation_nil. rewrite <-Hs. apply (sort_key_perm id). }
  rewrite !app_nil, !missing_if_nil, !orb_false_iff, !andb_false_iff, !negb_false_iff, !empty_list_false.
  unfold blank. rewrite !String.eqb_neq. rewrite <-Hm.
  assert ((if String.eqb (Mode p) ModeRelease then
             missing_if (String.eqb (DeploymentWorkflow p) "") "deployment_workflow" ++
             missing_if (String.eqb (DeploymentEnvironment p) "") "deployment_environment" ++
             missing_if (negb (explicitSecretReferences p)) "required_secret_references" ++
             missing_if (negb (explicitVariableReferences p)) "required_variable_references" ++
             missing_if (empty_list (RequiredHealthChecks p)) "required_health_checks" ++
             missing_if (String.eqb (RecoveryDefault p) "") "recovery_default" else [])%list = [] ↔
          (Mode p = ModeRelease → DeploymentWorkflow p ≠ "" ∧ DeploymentEnvironment p ≠ "" ∧ explicitSecretReferences p = true ∧
             explicitVariableReferences p = true ∧ RequiredHealthChecks p ≠ [] ∧ RecoveryDefault p ≠ "")) as ->.
  { destruct (String.eqb_spec (Mode p) ModeRelease); [|naive_solver].
    rewrite !app_nil, !missing_if_nil, !negb_false_iff, empty_list_false, !String.eqb_neq. naive_solver. }
  destruct merging; intuition congruence.
Qed.

(** a policy counts as resolved exactly when its mode's configuration is complete;
    whatever the layers say, the safety floor is untouched and the digest is a digest. *)
Theorem Resolve_complete_and_safe context layers now p :
  Resolve context layers now = Ok p →
  Safety p = safetyFloor ∧ digestPattern (Digest p) = true ∧ (Resolved p = true ↔ configured p) ∧
  (Resolved p = true ↔ Missing p = []).
Proof.
  intros Hr. destruct (Resolve_ok _ _ _ _ Hr) as (c & digest & applied & _ & _ & _ & _ & Ha & Hd & ->).
  assert (Safety applied = safetyFloor) as Hs.
  { rewrite Ha. generalize (sort_by precedence_less layers). intros ls.
    assert (∀ q, Safety (foldl apply_layer q ls) = Safety q) as ->; [|done].
    induction ls as [|l ls IH]; intros q; [done|]. cbn. by rewrite IH. }
  split_and!; [done|done| |].
  - change (configured (set_outcome ?q ?a ?b ?d)) with (configured q). rewrite <-missing_configured.
    cbn. by destruct (missingConfiguration (canonicalized applied)).
  - cbn. by destruct (missingConfiguration (canonicalized applied)).
Qed.

(** ** The policy at the gate *)

(** The modes under which an action may be gated at all. *)
Definition mode_permits (mode : DeliveryMode) (action : Action) : Prop :=
  (action = ActionMerge ∧ (mode = ModeMerge ∨ mode = ModeRelease)) ∨ (action = ActionRelease ∧ mode = ModeRelease).

(** the gate policy of a resolved delivery policy is resolved exactly for the actions
    its mode permits; and an input gated under it for any other action - a merge of a
    review-only project, a release of a merge-only one - is blocked, whatever evidence and
    approval it carries. *)
Theorem GatePolicyFor_mode context layers now p action i :
  Resolve context layers now = Ok p →
  (Policy_Resolved (GatePolicyFor p action) = true ↔ Resolved p = true ∧ mode_permits (Mode p) action) ∧
  (Policy_Resolved (Input_Policy i) = Policy_Resolved (GatePolicyFor p action) → ¬ mode_permits (Mode p) action →
   State (Evaluate i) = "blocked").
Proof.
  intros Hr. assert (digestPattern (Digest p) = true) as Hd.
  { destruct (Resolve_ok _ _ _ _ Hr) as (? & ? & ? & _ & _ & _ & _ & _ & ? & ->). done. }
  assert (Policy_Resolved (GatePolicyFor p action) = true ↔ Resolved p = true ∧ mode_permits (Mode p) action) as Hg.
  { unfold GatePolicyFor, mode_permits. cbn. rewrite Hd, !andb_true_iff, orb_true_iff, !andb_true_iff, orb_true_iff, !String.eqb_eq.
    tauto. }
  split; [exact Hg|]. intros Hpol Hno. destruct (decision_state i) as [Ha|]; [|done].
  apply allowed_ready in Ha as (? & ? & ? & ? & ? & Hready). destruct (ready_policy _ _ _ _ _ _ Hready) as [Hres _].
  rewrite Hpol in Hres. tauto.
Qed.

(** the branches a resolved policy allows are, exactly and case-sensitively, the
    trimmed names its narrowest branch-setting layer lists; nothing matches by prefix. *)
Theorem AllowsTargetBranch_exact context layers now p branch :
  Resolve context layers now = Ok p →
  AllowsTargetBranch p branch = true ↔
  Resolved p = true ∧ branch = TrimSpace branch ∧
  ∃ names name, narrowest_setting layers Patch_AllowedTargetBranches [] names ∧ name ∈ names ∧ branch = TrimSpace name.
Proof.
  intros Hr. destruct (Resolve_ok _ _ _ _ Hr) as (c & digest & applied & Hc & _ & Hf & Hnd & Ha & _ & Hp).
  pose proof (Resolve_setting AllowedTargetBranches Patch_AllowedTargetBranches _ _ _ _ _ ltac:(done) ltac:(done) Hc Hr) as Hs.
  rewrite <-Ha in Hs. assert (AllowedTargetBranches p = canonicalBranches (AllowedTargetBranches applied)) as Hb by by rewrite Hp.
  unfold AllowsTargetBranch. destruct (Resolved p); cbn [negb orb]; [|naive_solver].
  destruct (String.eqb_spec branch (TrimSpace branch)) as [Ht|]; cbn [negb]; [|naive_solver].
  rewrite Hb, existsb_exists. unfold canonicalBranches, canonicalNames, sort_key. split.
  - intros (x & Hx%list_elem_of_In & <-%String.eqb_eq). rewrite sort_by_elem in Hx.
    apply list_elem_of_fmap in Hx as (name & Hn & Hin). split_and!; [done|done|]. by exists (AllowedTargetBranches applied), name.
  - intros (_ & _ & names & name & Hn & Hin & Heq). exists branch. rewrite String.eqb_refl. split; [|done].
    apply list_elem_of_In. rewrite sort_by_elem. apply list_elem_of_fmap. exists name. split; [done|].
    by rewrite (narrowest_unique _ _ _ _ _ _ _ Hf Hnd Hs Hn).
Qed.
End Theorems.

(** ** A concrete resolution: an organization layer and an override *)

Section Demo.
#[local] Existing Instance ascii_only.
Definition demo_url : GoTimeURL :=
  {| url_Parse := λ s, if String.eqb s "github://itbem/events" then
       Some {| Scheme := "github"; HasUser := false; Host := "itbem"; Hostname := "itbem"; Port := ""; Path := "/events";
               RawQuery := ""; Fragment := "" |} else None;
     time_text := λ t, Some (Sprint t) |}.
#[local] Existing Instance demo_url.

Definition no_patch : Patch :=
  {| Patch_Mode := None; Patch_GateApprovalMode := None; Patch_RequiredTestKinds := None; Patch_AllowedTargetBranches := None;
     Patch_MergeMethod := None; Patch_DeploymentWorkflow := None; Patch_DeploymentEnvironment := None;
     Patch_RequiredSecretReferences := None; Patch_RequiredVariableReferences := None; Patch_RequiredHealthChecks := None;
     Patch_RequiredPostMergeChecks := None; Patch_RecoveryDefault := None |}.
Definition review_patch : Patch :=
  {| Patch_Mode := Some ModeReviewOnly; Patch_GateApprovalMode := Some GateApprovalDelegated;
     Patch_RequiredTestKinds := Some []; Patch_AllowedTargetBranches := Some ["release/v2 "; "main"];
     Patch_MergeMethod := Some "Squash"; Patch_DeploymentWorkflow := None; Patch_DeploymentEnvironment := None;
     Patch_RequiredSecretReferences := None; Patch_RequiredVariableReferences := None; Patch_RequiredHealthChecks := None;
     Patch_RequiredPostMergeChecks := None; Patch_RecoveryDefault := None |}.
Definition merge_patch : Patch :=
  {| Patch_Mode := None; Patch_GateApprovalMode := None; Patch_RequiredTestKinds := None; Patch_AllowedTargetBranches := None;
     Patch_MergeMethod := Some "merge"; Patch_DeploymentWorkflow := None; Patch_DeploymentEnvironment := None;
     Patch_RequiredSecretReferences := None; Patch_RequiredVariableReferences := None; Patch_RequiredHealthChecks := None;
     Patch_RequiredPostMergeChecks := None; Patch_RecoveryDefault := None |}.
Definition demo_context : Context :=
  {| OrganizationID := "org-1"; ProjectID := "events"; Repository := "github://itbem/events"; Context_ChangeSetID := "CS-42" |}.
Definition layer_of (level : Level) (project changeSet : string) (patch : Patch) (reason : string) (expires : option Z)
    (digest : string) : Layer :=
  {| Layer_SchemaVersion := 1; Layer_RevisionID := "rev-1"; Layer_Level := level; Layer_OrganizationID := "org-1";
     Layer_ProjectID := project; Layer_Repository := ""; Layer_ChangeSetID := changeSet; Layer_Patch := patch;
     Layer_Reason := reason; ExpiresAt := expires; Layer_Digest := digest; Approved := true; ApprovedBy := "ana";
     ApprovedAt := 5 |}.
(** The layer with the digest of its own content. *)
Definition sealed (layer : string → Layer) : Layer := layer (ok_value (LayerDigest (layer ""))).
Definition demo_organization : Layer := sealed (layer_of LevelOrganization "" "" review_patch "" None).
Definition demo_override : Layer := sealed (layer_of LevelOverride "events" "CS-42" merge_patch "hotfix" (Some 4000%Z)).
Definition demo_layers : list Layer := [demo_override; demo_organization].

Lemma sealed_digest level project changeSet patch reason expires :
  let layer := layer_of level project changeSet patch reason expires in
  ∃ m, LayerDigest (sealed layer) = Ok (hexSum256 m) ∧ Layer_Digest (sealed layer) = hexSum256 m.
Proof. destruct expires; eexists; split; reflexivity. Qed.
Lemma digest_fold m : EqualFold (hexSum256 m) (hexSum256 m) = true ∧ digestPattern (ToLower (TrimSpace (hexSum256 m))) = true.
Proof.
  split; [apply EqualFold_ascii; by rewrite ?digest_ascii|]. rewrite digest_normal. unfold digestPattern, re_exact.
  rewrite hexSum256_length. cbn [Nat.eqb andb]. eapply all_bytes_impl, hexSum256_hex.
  intros ch. unfold is_lower_hex. by rewrite orb_comm.
Qed.
Lemma validateLayer_intro context layer now d :
  negb (Z.eqb (Layer_SchemaVersion layer) SchemaVersion) || negb (identityPattern (TrimSpace (Layer_RevisionID layer))) ||
    negb (Approved layer) || negb (identityPattern (TrimSpace (ApprovedBy layer))) || Z.eqb (ApprovedAt layer) 0 ||
    Z.ltb (now + Minute) (ApprovedAt layer) = false →
  LayerDigest layer = Ok d → digestPattern (ToLower (TrimSpace (Layer_Digest layer))) = true →
  EqualFold d (Layer_Digest layer) = true → validatePatch (Layer_Patch layer) = Ok tt →
  bool_decide (Patch_GateApprovalMode (Layer_Patch layer) = Some GateApprovalDelegated) &&
    String.eqb (Layer_Level layer) LevelOverride = false →
  validateScope context layer now = Ok tt → validateLayer context layer now = Ok tt.
Proof. intros Hc Hd Hdp Hf Hp Hg Hs. unfold validateLayer. rewrite Hc, Hd, Hdp, Hf, Hp, Hg. exact Hs. Qed.
Lemma sealed_valid level project changeSet patch reason expires context now :
  validatePatch patch = Ok tt → Patch_GateApprovalMode patch = None ∨ level ≠ LevelOverride → (0 < now)%Z →
  (∀ digest, validateScope context (layer_of level project changeSet patch reason expires digest) now = Ok tt) →
  validateLayer context (sealed (layer_of level project changeSet patch reason expires)) now = Ok tt.
Proof.
  intros Hp Hg Hnow Hs. destruct (sealed_digest level project changeSet patch reason expires) as (m & Hd & Hl).
  destruct (digest_fold m) as [Hf Hdp]. eapply validateLayer_intro; [|exact Hd|by rewrite Hl|by rewrite Hl|exact Hp| |apply Hs].
  - apply orb_false_iff. split; [reflexivity|]. apply Z.ltb_ge. change (5 ≤ now + Minute)%Z. unfold Minute. lia.
  - change (bool_decide (Patch_GateApprovalMode patch = Some GateApprovalDelegated) && String.eqb level LevelOverride = false).
    destruct Hg as [->|Hg]; [done|]. apply String.eqb_neq in Hg. by rewrite Hg, andb_false_r.
Qed.

Lemma demo_resolves : ∃ p, Resolve demo_context demo_layers 1000 = Ok p.
Proof.
  unfold Resolve. assert (normalizeContext demo_context = Ok demo_context) as -> by (vm_compute; reflexivity).
  change (Z.eqb 1000 0) with false. cbv iota.
  change (sort_by precedence_less demo_layers) with [demo_organization; demo_override].
  assert (∃ applied, apply_layers demo_context 1000 ∅ (initialPolicy demo_context) [demo_organization; demo_override] = Ok applied)
    as [applied Ha].
  { eexists. apply apply_layers_ok. split_and!.
    - apply Forall_cons. split; [|apply Forall_singleton]; apply sealed_valid.
      + vm_compute. reflexivity.
      + by right.
      + lia.
      + intros digest. vm_compute. reflexivity.
      + vm_compute. reflexivity.
      + by left.
      + lia.
      + intros digest. vm_compute. reflexivity.
    - change (Layer_Level <$> [demo_organization; demo_override]) with [LevelOrganization; LevelOverride].
      by apply (bool_decide_unpack _).
    - intros l _. apply not_elem_of_empty.
    - reflexivity. }
  rewrite Ha. unfold mbind at 1, result_mbind at 1, result_bind at 1. unfold resolvedDigest.
  assert (∀ l, ∃ js, Sources_json l = Ok js) as Hsrc.
  { intros l. induction l as [|s l [js IH]]; [by eexists|]. cbn. rewrite IH. by eexists. }
  match goal with |- context [Sources_json ?l] => destruct (Hsrc l) as [js ->] end. eexists. reflexivity.
Qed.

Lemma Resolve_ignores_order_witness : ∃ p, Resolve demo_context (rev demo_layers) 1000 = Ok p.
Proof.
  destruct demo_resolves as [p Hp]. exists p. apply (Resolve_ignores_order _ demo_layers); [apply perm_swap|exact Hp].
Defined.
Lemma narrowest_layer_wins_witness : ∃ p, narrowest_setting demo_layers Patch_Mode "" (Mode p).
Proof. destruct demo_resolves as [p Hp]. exists p. apply (narrowest_layer_wins _ _ _ _ Hp). Defined.
Lemma overrides_are_bounded_witness :
  ∃ expires, ExpiresAt demo_override = Some expires ∧ (1000 < expires ≤ ApprovedAt demo_override + 24 * 60 * Minute)%Z.
Proof.
  destruct demo_resolves as [p Hp].
  destruct (overrides_are_bounded _ _ _ _ demo_override Hp ltac:(constructor) eq_refl) as [(e & He & Hb & _) _].
  exists e. split; [exact He|exact Hb].
Defined.
Lemma Resolve_complete_and_safe_witness : ∃ p, Safety p = safetyFloor ∧ digestPattern (Digest p) = true.
Proof.
  destruct demo_resolves as [p Hp]. exists p. destruct (Resolve_complete_and_safe _ _ _ _ Hp) as (Hs & Hd & _). by split.
Defined.
Lemma GatePolicyFor_mode_witness :
  ∃ p, Resolve demo_context demo_layers 1000 = Ok p ∧
    (Policy_Resolved (GatePolicyFor p ActionMerge) = true ↔ Resolved p = true ∧ mode_permits (Mode p) ActionMerge).
Proof.
  destruct demo_resolves as [p Hp]. exists p. split; [exact Hp|].
  destruct (GatePolicyFor_mode _ _ _ _ ActionMerge demo_release Hp) as [Hg _]. exact Hg.
Defined.
Lemma AllowsTargetBranch_exact_witness :
  ∃ p, Resolve demo_context demo_layers 1000 = Ok p ∧ AllowsTargetBranch p "release/v2-hotfix" = false.
Proof.
  destruct demo_resolves as [p Hp]. exists p. split; [exact Hp|]. apply not_true_is_false. intros Ha.
  apply (AllowsTargetBranch_exact _ _ _ _ _ Hp) in Ha as (_ & _ & names & name & Hn & Hin & Heq).
  destruct Hn as [(l & Hl & Hf & _)|[-> _]]; [|by apply not_elem_of_nil in Hin].
  unfold demo_layers in Hl. rewrite !elem_of_cons in Hl. destruct Hl as [->|[->|[]%not_elem_of_nil]].
  - cbn in Hf. discriminate Hf.
  - cbn in Hf. injection Hf as <-. rewrite !elem_of_cons in Hin. destruct Hin as [->|[->|[]%not_elem_of_nil]];
      vm_compute in Heq; discriminate Heq.
Defined.
End Demo.
