(* ===== verification/PlanGraph.v ===== *)
(** * Delivery plan steps: the step graph of [services/deliveryplansteps/steps.go]

    A plan is submitted as a list of [StepInput]s that name their dependencies by step key.
    [Normalize] trims and bounds every field, rejects duplicate keys, orders and criteria,
    checks that the dependencies form an acyclic graph ([validateDAG], a depth-first search
    with the three-valued [state] map of the source) and that one integration step closes it
    ([validateIntegrationGraph]), and builds the rows to store.

    Go ranges over a map in an unspecified order: each range statement over the step map reads
    its order from [GoMapRange], and the theorems hold for any such orders. [uuid.NewV4] is the
    parameter [NewV4] (its n-th result), [time.Now] the parameter [Now]; a time is a number of
    nanoseconds since the zero time. *)
From stdpp Require Import base tactics list strings gmap sorting.
From Stdlib Require Import Ascii.
From S2P Require Import Prelude GoStrings GoSort Json.
Open Scope string_scope.

(** ** Data *)

Definition MaxStepsPerPlan : nat := 100.
Definition MaxDependenciesPerPlan : nat := 500.
Definition MaxAcceptanceCriteria : nat := 12.
Definition MaxEvidenceRequirements : nat := 8.
Definition MaxEvidenceTypesPerRequirement : nat := 6.
Definition MaxEvidenceRequirementKeyBytes : nat := 48.
Definition MaxEvidenceRequirementTitleBytes : nat := 120.
Definition MaxEvidenceRequirementDescriptionBytes : nat := 400.
Definition MaxStepEvidenceBytes : Z := Z.shiftl 1 20.

Definition StepRoleImplementation : string := "implementation".
Definition StepRoleIntegration : string := "integration".

Definition DeliveryPlanStepPlanned : string := "planned".
Definition DeliveryPlanStepReady : string := "ready".
Definition DeliveryPlanStepRunning : string := "running".
Definition DeliveryPlanStepBlocked : string := "blocked".
Definition DeliveryPlanStepCompleted : string := "completed".
Definition DeliveryPlanStepFailed : string := "failed".
Definition DeliveryPlanStepSkipped : string := "skipped".

Definition is_slug (c : ascii) : bool := is_lower c || is_digit c || one_of "_-" c.
Definition stepKeyPattern : string → bool := re_ident is_lower is_slug 0 63.
Definition evidenceRequirementKeyPattern : string → bool := re_ident is_lower is_slug 0 47.
Definition idempotencyKeyPattern : string → bool :=
  re_ident is_alnum (λ c, is_alnum c || one_of "_.:-" c) 0 127.

Definition allowedStepEvidenceContentTypes : list string :=
  ["application/json"; "image/jpeg"; "image/png"; "text/csv"; "text/markdown"; "text/plain"].

Record EvidenceRequirement := {
  Requirement_Key : string;
  Requirement_Title : string;
  Requirement_Description : string;
  Requirement_Required : bool;
  ContentTypes : list string;
  MaxBytes : Z;
}.

Record StepInput := {
  Key : string;
  Role : string;
  Order : Z;
  Title : string;
  Objective : string;
  AcceptanceCriteria : list string;
  EvidenceRequirements : list EvidenceRequirement;
  DependsOn : list string;
  IdempotencyKey : string;
}.
(** The zero [StepInput]: what a map lookup gives for an absent key. *)
Definition zeroStep : StepInput :=
  {| Key := ""; Role := ""; Order := 0; Title := ""; Objective := ""; AcceptanceCriteria := [];
     EvidenceRequirements := []; DependsOn := []; IdempotencyKey := "" |}.

(** [models.DeliveryPlan]: the fields the package reads. *)
Record DeliveryPlan := {
  Plan_ID : uuid;
  WorkItemID : uuid;
  Version : Z;
  Plan_Status : string;
  ApprovedGateID : option uuid;
}.

(** [models.DeliveryPlanStep] *)
Record DeliveryPlanStep := {
  Step_ID : uuid;
  Step_PlanID : uuid;
  StepKey : string;
  Step_IdempotencyKey : string;
  Step_Role : string;
  DisplayOrder : Z;
  Step_Title : string;
  Step_Objective : string;
  AcceptanceCriteriaJSON : string;
  EvidenceRequirementsJSON : string;
  Status : string;
  AgentKey : string;
  WorkerID : string;
  MachineID : string;
  AutomationTaskID : option uuid;
  AutomationExecutionID : option uuid;
  RunID : string;
  LeaseFence : Z;
  LeaseExpiresAt : option Z;
  CreatedBy : string;
  StartedAt : option Z;
  CompletedAt : option Z;
  CreatedAt : Z;
  UpdatedAt : Z;
}.

(** [models.DeliveryPlanStepDependency] *)
Record DeliveryPlanStepDependency := {
  Dependency_ID : uuid;
  Dependency_PlanID : uuid;
  StepID : uuid;
  DependsOnStepID : uuid;
  Dependency_CreatedAt : Z;
}.

Record NormalizedPlan := { Steps : list DeliveryPlanStep; Dependencies : list DeliveryPlanStepDependency }.

(** The errors of the file, one constructor for each message. *)
Inductive PlanError :=
| TooManyRequirements | RequirementKeyNotSlug | RequirementKeysNotUnique | RequirementTextBound
| MaxBytesRange | ContentTypesCount | ContentTypeNotAllowed (contentType : string) | ContentTypesNotUnique
| PlanNotPersisted | TooManySteps | CreatedByTooLong | StepKeyNotStable | StepRoleInvalid (key : string)
| StepTextBound | OrderNegative | StepKeyDuplicated (key : string) | OrderDuplicated (order : Z)
| IdempotencyKeyInvalid | IdempotencyKeyRepeated | CriteriaCount (key : string)
| StepRequirements (key : string) (cause : PlanError) | CriterionEmptyOrOversized (key : string)
| CriterionRepeated (key : string) | DependencyRepeated (key dependency : string) | TooManyDependencies
| IdentityGeneration | DependencyIdentityGeneration
| SeveralIntegrationSteps | UnsupportedRole (key : string) | CriterionOwners | DependsOnIntegration
| NoImplementationOrIntegration | IntegrationNotLast | IntegrationCriteria | IntegrationDependsOn
| IntegrationMissesBranch
| DependencyCycle | UnknownDependency (key dependency : string) | SelfDependency
(** never returned (see [validateDAG_decides]): the recursion budget of the model *)
| OutOfFuel.

(** ** Evidence requirements *)

Section Requirements.
Context {unicode : GoUnicode}.

(** The part of a MIME type before its parameters. *)
Definition mimeType (contentType : string) : string :=
  ToLower (TrimSpace (hd "" (Split contentType ";"))).

(** The inner loop: [seenTypes] holds exactly the types appended to [contentTypes]. *)
Fixpoint normalizeContentTypes (types contentTypes : list string) : Result PlanError (list string) :=
  match types with
  | [] => Ok (sort_strings contentTypes)
  | t :: rest =>
      let contentType := mimeType t in
      if negb (bool_decide (contentType ∈ allowedStepEvidenceContentTypes))
      then Err (ContentTypeNotAllowed contentType)
      else if bool_decide (contentType ∈ contentTypes) then Err ContentTypesNotUnique
      else normalizeContentTypes rest (contentTypes ++ [contentType])
  end.

Definition normalizeRequirement (seenKeys : gset string) (requirement : EvidenceRequirement) :
    Result PlanError EvidenceRequirement :=
  let key := TrimSpace (Requirement_Key requirement) in
  let title := TrimSpace (Requirement_Title requirement) in
  let description := TrimSpace (Requirement_Description requirement) in
  _ ← fail_if (negb (evidenceRequirementKeyPattern key) ||
               Nat.ltb MaxEvidenceRequirementKeyBytes (String.length key)) RequirementKeyNotSlug;
  _ ← fail_if (bool_decide (key ∈ seenKeys)) RequirementKeysNotUnique;
  _ ← fail_if (String.eqb title "" || Nat.ltb MaxEvidenceRequirementTitleBytes (String.length title) ||
               Nat.ltb MaxEvidenceRequirementDescriptionBytes (String.length description)) RequirementTextBound;
  _ ← fail_if (Z.ltb (MaxBytes requirement) 1 || Z.ltb MaxStepEvidenceBytes (MaxBytes requirement)) MaxBytesRange;
  _ ← fail_if (Nat.eqb (length (ContentTypes requirement)) 0 ||
               Nat.ltb MaxEvidenceTypesPerRequirement (length (ContentTypes requirement))) ContentTypesCount;
  contentTypes ← normalizeContentTypes (ContentTypes requirement) [];
  Ok {| Requirement_Key := key; Requirement_Title := title; Requirement_Description := description;
        Requirement_Required := Requirement_Required requirement; ContentTypes := contentTypes;
        MaxBytes := MaxBytes requirement |}.

Fixpoint normalizeRequirements (seenKeys : gset string) (requirements : list EvidenceRequirement) :
    Result PlanError (list EvidenceRequirement) :=
  match requirements with
  | [] => Ok []
  | requirement :: rest =>
      r ← normalizeRequirement seenKeys requirement;
      rs ← normalizeRequirements ({[ Requirement_Key r ]} ∪ seenKeys) rest;
      Ok (r :: rs)
  end.

Definition normalizeEvidenceRequirements (requirements : list EvidenceRequirement) :
    Result PlanError (list EvidenceRequirement) :=
  if Nat.ltb MaxEvidenceRequirements (length requirements) then Err TooManyRequirements
  else normalizeRequirements ∅ requirements.
End Requirements.

(** [json.Marshal] of an [EvidenceRequirement] ([description] is omitted when empty). *)
Definition EvidenceRequirement_json (r : EvidenceRequirement) : json :=
  JObject ([("key", JString (Requirement_Key r)); ("title", JString (Requirement_Title r))] ++
           (if String.eqb (Requirement_Description r) "" then []
            else [("description", JString (Requirement_Description r))]) ++
           [("required", JBool (Requirement_Required r));
            ("content_types", nil_or_array (JString <$> ContentTypes r)); ("max_bytes", JInt (MaxBytes r))])%list.

(** ** The order of Go's range over the step map, one order for each range statement *)

Class GoMapRange := {
  range : nat → gmap string StepInput → list string;
  range_keys site byKey : range site byKey ≡ₚ (map_to_list byKey).*1;
}.
(** The order of the keys in the tree that represents the map. *)
Definition tree_order : GoMapRange :=
  {| range _ byKey := (map_to_list byKey).*1; range_keys _ byKey := reflexivity _ |}.

(** ** [validateDAG]: depth-first search *)

Record Search := { state : gmap string N; seenEdges : gset string }.
Definition stateOf (s : Search) (key : string) : N := default 0%N (state s !! key).
Definition setState (key : string) (v : N) (s : Search) : Search :=
  {| state := <[key := v]> (state s); seenEdges := seenEdges s |}.
Definition addEdge (e : string) (s : Search) : Search :=
  {| state := state s; seenEdges := {[e]} ∪ seenEdges s |}.
Definition edgeKey (key dependency : string) : string := key +:+ NUL +:+ dependency.
(** [byKey[key]] *)
Definition stepAt (byKey : gmap string StepInput) (key : string) : StepInput := default zeroStep (byKey !! key).

Section DAG.
Context (byKey : gmap string StepInput).

(** The loop of [visit] over the dependencies; [None] is an exhausted budget. *)
Fixpoint visitDependencies (visit : string → Search → option (Result PlanError Search))
    (key : string) (dependencies : list string) (s : Search) : option (Result PlanError Search) :=
  match dependencies with
  | [] => Some (Ok (setState key 2 s))
  | dependency :: rest =>
      if negb (bool_decide (is_Some (byKey !! dependency))) then Some (Err (UnknownDependency key dependency))
      else if String.eqb dependency key then Some (Err SelfDependency)
      else if bool_decide (edgeKey key dependency ∈ seenEdges s) then Some (Err (DependencyRepeated key dependency))
      else match visit dependency (addEdge (edgeKey key dependency) s) with
           | Some (Ok s') => visitDependencies visit key rest s'
           | r => r
           end
  end.

Fixpoint visit (fuel : nat) (key : string) (s : Search) : option (Result PlanError Search) :=
  match fuel with
  | O => None
  | S fuel =>
      if N.eqb (stateOf s key) 1 then Some (Err DependencyCycle)
      else if N.eqb (stateOf s key) 2 then Some (Ok s)
      else visitDependencies (visit fuel) key (DependsOn (stepAt byKey key)) (setState key 1 s)
  end.

(** A step is gray (1) at most once on the recursion's path: one level for each step, and one
    to return from, are enough. *)
Fixpoint visitAll (keys : list string) (s : Search) : option (Result PlanError Search) :=
  match keys with
  | [] => Some (Ok s)
  | key :: rest =>
      match visit (S (size byKey)) key s with
      | Some (Ok s') => visitAll rest s'
      | r => r
      end
  end.
End DAG.

Section Graph.
Context {map_range : GoMapRange}.

Definition validateDAG (byKey : gmap string StepInput) : Result PlanError unit :=
  match visitAll byKey (range 0 byKey) {| state := ∅; seenEdges := ∅ |} with
  | Some (Ok _) => Ok tt
  | Some (Err e) => Err e
  | None => Err OutOfFuel
  end.

(** ** [validateIntegrationGraph] *)

Record Producers := {
  integration : option StepInput;
  producerCriteria : gset string;
  maxProducerOrder : Z;
  successors : gset string;
}.

Fixpoint addCriteria (criteria : list string) (seen : gset string) : Result PlanError (gset string) :=
  match criteria with
  | [] => Ok seen
  | criterion :: rest =>
      if bool_decide (criterion ∈ seen) then Err CriterionOwners
      else addCriteria rest ({[criterion]} ∪ seen)
  end.
Fixpoint addSuccessors (byKey : gmap string StepInput) (dependencies : list string) (seen : gset string) :
    Result PlanError (gset string) :=
  match dependencies with
  | [] => Ok seen
  | dependency :: rest =>
      if String.eqb (Role (stepAt byKey dependency)) StepRoleIntegration then Err DependsOnIntegration
      else addSuccessors byKey rest ({[dependency]} ∪ seen)
  end.

(** The first range statement. *)
Definition addStep (byKey : gmap string StepInput) (key : string) (p : Producers) : Result PlanError Producers :=
  let step := stepAt byKey key in
  if String.eqb (Role step) StepRoleIntegration then
    match integration p with
    | Some _ => Err SeveralIntegrationSteps
    | None => Ok {| integration := Some step; producerCriteria := producerCriteria p;
                    maxProducerOrder := maxProducerOrder p; successors := successors p |}
    end
  else if negb (String.eqb (Role step) StepRoleImplementation) then Err (UnsupportedRole key)
  else
    criteria ← addCriteria (AcceptanceCriteria step) (producerCriteria p);
    next ← addSuccessors byKey (DependsOn step) (successors p);
    Ok {| integration := integration p; producerCriteria := criteria;
          maxProducerOrder := if Z.ltb (maxProducerOrder p) (Order step) then Order step else maxProducerOrder p;
          successors := next |}.
Fixpoint addSteps (byKey : gmap string StepInput) (keys : list string) (p : Producers) : Result PlanError Producers :=
  match keys with
  | [] => Ok p
  | key :: rest => p' ← addStep byKey key p; addSteps byKey rest p'
  end.

(** The second range statement. *)
Definition terminalBranches (byKey : gmap string StepInput) (succ : gset string) : gset string :=
  list_to_set (filter (λ key, Role (stepAt byKey key) = StepRoleImplementation ∧ key ∉ succ) (range 2 byKey)).

Definition validateIntegrationGraph (byKey : gmap string StepInput) : Result PlanError unit :=
  if Nat.eqb (size byKey) 0 then Ok tt else
  p ← addSteps byKey (range 1 byKey)
        {| integration := None; producerCriteria := ∅; maxProducerOrder := -1; successors := ∅ |};
  match integration p with
  | None => Err NoImplementationOrIntegration
  | Some step =>
      _ ← fail_if (Nat.eqb (size (producerCriteria p)) 0) NoImplementationOrIntegration;
      _ ← fail_if (Z.leb (Order step) (maxProducerOrder p)) IntegrationNotLast;
      let integrationCriteria : gset string := list_to_set (AcceptanceCriteria step) in
      _ ← fail_if (negb (Nat.eqb (size integrationCriteria) (size (producerCriteria p)))) IntegrationCriteria;
      _ ← fail_if (negb (bool_decide (producerCriteria p ⊆ integrationCriteria))) IntegrationCriteria;
      let terminal := terminalBranches byKey (successors p) in
      _ ← fail_if (negb (forallb (λ key, String.eqb (Role (stepAt byKey key)) StepRoleImplementation) (DependsOn step)))
            IntegrationDependsOn;
      let dependencies : gset string := list_to_set (DependsOn step) in
      _ ← fail_if (Nat.ltb (size dependencies) (size terminal)) IntegrationMissesBranch;
      fail_if (negb (bool_decide (terminal ⊆ dependencies))) IntegrationMissesBranch
  end.
End Graph.

(** ** [Normalize] *)

(** [uuid.NewV4] (the result of its n-th call, which may fail) and [time.Now]. *)
Class GoRuntime := { NewV4 : nat → option uuid; Now : Z }.

(** The loop's maps: [byKey], [byOrder], [byIdempotencyKey] and the dependency count. *)
Record Seen := {
  byKey : gmap string StepInput;
  byOrder : gset Z;
  byIdempotencyKey : gmap string string;
  dependencyCount : nat;
}.

Fixpoint normalizeCriteria (key : string) (criteria : list string) (seen : gset string) : Result PlanError (list string) :=
  match criteria with
  | [] => Ok []
  | c :: rest =>
      let criterion := TrimSpace c in
      if String.eqb criterion "" || Nat.ltb 400 (String.length criterion) then Err (CriterionEmptyOrOversized key)
      else if bool_decide (criterion ∈ seen) then Err (CriterionRepeated key)
      else cs ← normalizeCriteria key rest ({[criterion]} ∪ seen); Ok (criterion :: cs)
  end.
Fixpoint normalizeDependencies (key : string) (dependencies : list string) (seen : gset string) : Result PlanError (list string) :=
  match dependencies with
  | [] => Ok []
  | d :: rest =>
      let dependency := TrimSpace d in
      if bool_decide (dependency ∈ seen) then Err (DependencyRepeated key dependency)
      else ds ← normalizeDependencies key rest ({[dependency]} ∪ seen); Ok (dependency :: ds)
  end.

Section Normalize.
Context {unicode : GoUnicode}.

(** One iteration of the loop over the inputs: the trimmed input and the updated maps. *)
Definition normalizeInput (input : StepInput) (s : Seen) : Result PlanError (StepInput * Seen) :=
  let key := TrimSpace (Key input) in
  let role := TrimSpace (ToLower (Role input)) in
  let title := TrimSpace (Title input) in
  let objective := TrimSpace (Objective input) in
  _ ← fail_if (negb (stepKeyPattern key)) StepKeyNotStable;
  _ ← fail_if (negb (String.eqb role StepRoleImplementation) && negb (String.eqb role StepRoleIntegration))
        (StepRoleInvalid key);
  _ ← fail_if (String.eqb title "" || Nat.ltb 240 (String.length title) || Nat.ltb 5000 (String.length objective))
        StepTextBound;
  _ ← fail_if (Z.ltb (Order input) 0) OrderNegative;
  _ ← fail_if (bool_decide (is_Some (byKey s !! key))) (StepKeyDuplicated key);
  _ ← fail_if (bool_decide (Order input ∈ byOrder s)) (OrderDuplicated (Order input));
  let trimmed := TrimSpace (IdempotencyKey input) in
  let idempotencyKey := if String.eqb trimmed "" then "step:" +:+ key else trimmed in
  _ ← fail_if (negb (idempotencyKeyPattern idempotencyKey)) IdempotencyKeyInvalid;
  _ ← fail_if (match byIdempotencyKey s !! idempotencyKey with
               | Some previous => negb (String.eqb previous key)
               | None => false
               end) IdempotencyKeyRepeated;
  _ ← fail_if (Nat.eqb (length (AcceptanceCriteria input)) 0 ||
               Nat.ltb MaxAcceptanceCriteria (length (AcceptanceCriteria input))) (CriteriaCount key);
  requirements ← match normalizeEvidenceRequirements (EvidenceRequirements input) with
                 | Ok r => Ok r
                 | Err e => Err (StepRequirements key e)
                 end;
  criteria ← normalizeCriteria key (AcceptanceCriteria input) ∅;
  dependsOn ← normalizeDependencies key (DependsOn input) ∅;
  let step := {| Key := key; Role := role; Order := Order input; Title := title; Objective := objective;
                 AcceptanceCriteria := criteria; EvidenceRequirements := requirements;
                 DependsOn := dependsOn; IdempotencyKey := idempotencyKey |} in
  Ok (step, {| byKey := <[key := step]> (byKey s);
               byOrder := {[Order input]} ∪ byOrder s;
               byIdempotencyKey := <[idempotencyKey := key]> (byIdempotencyKey s);
               dependencyCount := dependencyCount s + length dependsOn |}).

Fixpoint normalizeInputs (inputs : list StepInput) (s : Seen) : Result PlanError (list StepInput * Seen) :=
  match inputs with
  | [] => Ok ([], s)
  | input :: rest =>
      '(step, s') ← normalizeInput input s;
      '(steps, s'') ← normalizeInputs rest s';
      Ok (step :: steps, s'')
  end.

Context {runtime : GoRuntime} {map_range : GoMapRange}.

(** The row of one step; [n] counts the identities drawn so far. *)
Definition stepRow (plan : DeliveryPlan) (createdBy : string) (now : Z) (id : uuid) (input : StepInput) : DeliveryPlanStep :=
  {| Step_ID := id; Step_PlanID := Plan_ID plan; StepKey := Key input; Step_IdempotencyKey := IdempotencyKey input;
     Step_Role := Role input; DisplayOrder := Order input; Step_Title := Title input; Step_Objective := Objective input;
     AcceptanceCriteriaJSON := Marshal (nil_or_array (JString <$> AcceptanceCriteria input));
     EvidenceRequirementsJSON := Marshal (JArray (EvidenceRequirement_json <$> EvidenceRequirements input));
     Status := DeliveryPlanStepPlanned; AgentKey := ""; WorkerID := ""; MachineID := "";
     AutomationTaskID := None; AutomationExecutionID := None; RunID := ""; LeaseFence := 0; LeaseExpiresAt := None;
     CreatedBy := createdBy; StartedAt := None; CompletedAt := None; CreatedAt := now; UpdatedAt := now |}.

Fixpoint buildSteps (plan : DeliveryPlan) (createdBy : string) (now : Z) (n : nat) (ordered : list StepInput)
    (idsByKey : gmap string uuid) : Result PlanError (list DeliveryPlanStep * gmap string uuid * nat) :=
  match ordered with
  | [] => Ok ([], idsByKey, n)
  | input :: rest =>
      match NewV4 n with
      | None => Err IdentityGeneration
      | Some id =>
          '(steps, ids, n') ← buildSteps plan createdBy now (S n) rest (<[Key input := id]> idsByKey);
          Ok (stepRow plan createdBy now id input :: steps, ids, n')
      end
  end.

Definition idOf (idsByKey : gmap string uuid) (key : string) : uuid := default Nil (idsByKey !! key).

Fixpoint buildDependencies (plan : DeliveryPlan) (now : Z) (n : nat) (edges : list (string * string))
    (idsByKey : gmap string uuid) : Result PlanError (list DeliveryPlanStepDependency) :=
  match edges with
  | [] => Ok []
  | (key, dependency) :: rest =>
      match NewV4 n with
      | None => Err DependencyIdentityGeneration
      | Some id =>
          rows ← buildDependencies plan now (S n) rest idsByKey;
          Ok ({| Dependency_ID := id; Dependency_PlanID := Plan_ID plan; StepID := idOf idsByKey key;
                 DependsOnStepID := idOf idsByKey dependency; Dependency_CreatedAt := now |} :: rows)
      end
  end.

(** The edges in the order of the two nested loops. *)
Definition orderedEdges (ordered : list StepInput) : list (string * string) :=
  concat ((λ input, pair (Key input) <$> sort_strings (DependsOn input)) <$> ordered).

Definition Normalize (plan : DeliveryPlan) (createdBy : string) (inputs : list StepInput) (now : Z) :
    Result PlanError NormalizedPlan :=
  _ ← fail_if (N.eqb (Plan_ID plan) Nil || N.eqb (WorkItemID plan) Nil || Z.ltb (Version plan) 1) PlanNotPersisted;
  _ ← fail_if (Nat.ltb MaxStepsPerPlan (length inputs)) TooManySteps;
  let createdBy := TrimSpace createdBy in
  _ ← fail_if (Nat.ltb 128 (String.length createdBy)) CreatedByTooLong;
  let now := if Z.eqb now 0 then Now else now in
  '(steps, seen) ← normalizeInputs inputs
     {| byKey := ∅; byOrder := ∅; byIdempotencyKey := ∅; dependencyCount := 0 |};
  _ ← fail_if (Nat.ltb MaxDependenciesPerPlan (dependencyCount seen)) TooManyDependencies;
  _ ← validateDAG (byKey seen);
  _ ← validateIntegrationGraph (byKey seen);
  let ordered := sort_by (λ a b, Z.ltb (Order a) (Order b)) steps in
  '(rows, ids, n) ← buildSteps plan createdBy now 0 ordered ∅;
  dependencies ← buildDependencies plan now n (orderedEdges ordered) ids;
  Ok {| Steps := rows; Dependencies := dependencies |}.

(** ** [CanTransitionStatus] *)

Definition validTransitions : list (string * list string) :=
  [(DeliveryPlanStepPlanned, [DeliveryPlanStepPlanned; DeliveryPlanStepReady; DeliveryPlanStepBlocked; DeliveryPlanStepSkipped]);
   (DeliveryPlanStepReady, [DeliveryPlanStepReady; DeliveryPlanStepRunning; DeliveryPlanStepBlocked; DeliveryPlanStepSkipped]);
   (DeliveryPlanStepRunning, [DeliveryPlanStepRunning; DeliveryPlanStepCompleted; DeliveryPlanStepBlocked; DeliveryPlanStepFailed]);
   (DeliveryPlanStepBlocked, [DeliveryPlanStepBlocked; DeliveryPlanStepReady; DeliveryPlanStepSkipped]);
   (DeliveryPlanStepFailed, [DeliveryPlanStepFailed; DeliveryPlanStepReady; DeliveryPlanStepSkipped]);
   (DeliveryPlanStepCompleted, [DeliveryPlanStepCompleted]);
   (DeliveryPlanStepSkipped, [DeliveryPlanStepSkipped])].
Definition CanTransitionStatus (current next : string) : bool :=
  let current := TrimSpace (ToLower current) in
  let next := TrimSpace (ToLower next) in
  existsb (λ '(from, targets), String.eqb from current && existsb (String.eqb next) targets) validTransitions.
End Normalize.
