(* ===== verification/PlanGraphFacts.v ===== *)
(** * Lemmas on the depth-first search of [validateDAG]

    [dag_ok] is the declarative contract of the search: every dependency names a step of the
    map, no step lists a dependency twice, and no step depends on itself through any chain.
    [visit_run] is the one induction on the search: on every path it returns, a success
    blackens the step and all its dependencies, and a failure refutes [dag_ok]. *)
From stdpp Require Import base tactics list strings gmap relations.
From Stdlib Require Import Ascii.
From S2P Require Import Prelude GoStrings GoSort PlanGraph.
Open Scope string_scope.

(** ** The contract *)

(** [key] lists [dependency]. *)
Definition edge (byKey : gmap string StepInput) (key dependency : string) : Prop :=
  dependency ∈ DependsOn (stepAt byKey key).
Definition known (byKey : gmap string StepInput) (key : string) : Prop := is_Some (byKey !! key).
Record dag_ok (byKey : gmap string StepInput) : Prop := {
  dag_known : ∀ key d, known byKey key → edge byKey key d → known byKey d;
  dag_nodup : ∀ key, known byKey key → NoDup (DependsOn (stepAt byKey key));
  dag_acyclic : ∀ key, ¬ tc (edge byKey) key key;
}.

(** Step keys hold no NUL byte, so that an edge's key tells its two ends. *)
Definition no_nul (s : string) : Prop := all_bytes (λ c, negb (byte_is 0 c)) s = true.

Lemma edgeKey_inj a b c d : no_nul a → no_nul c → edgeKey a b = edgeKey c d → a = c ∧ b = d.
Proof.
  unfold no_nul, edgeKey. revert c. induction a as [|x a IH]; intros [|y c] Ha Hc Heq; cbn in *.
  - by injection Heq.
  - injection Heq as <- _. by vm_compute in Hc.
  - injection Heq as -> _. by vm_compute in Ha.
  - injection Heq as -> Heq. unfold all_bytes in *. cbn in Ha, Hc.
    apply andb_true_iff in Ha as [_ Ha], Hc as [_ Hc]. by destruct (IH c Ha Hc Heq) as [-> ->].
Qed.

Section Search.
Context (byKey : gmap string StepInput).

Lemma stateOf_set k v s k' : stateOf (setState k v s) k' = if decide (k = k') then v else stateOf s k'.
Proof. unfold stateOf, setState; cbn. destruct (decide (k = k')) as [->|]; by simplify_map_eq. Qed.
Lemma stateOf_add e s k : stateOf (addEdge e s) k = stateOf s k.
Proof. done. Qed.

(** The states of the search: three colours, the gray steps are the path [p] to the current
    one, each recorded edge leaves a step that is not white. *)
Record inv (p : list string) (s : Search) : Prop := {
  inv_color : ∀ k, (stateOf s k ≤ 2)%N;
  inv_gray : ∀ k, stateOf s k = 1%N ↔ k ∈ p;
  inv_path : NoDup p;
  inv_known : ∀ k, k ∈ p → known byKey k;
  inv_black : ∀ k, stateOf s k = 2%N →
    NoDup (DependsOn (stepAt byKey k)) ∧ (∀ d, edge byKey k d → known byKey d ∧ d ≠ k ∧ Acc (flip (edge byKey)) d);
  inv_edges : ∀ e, e ∈ seenEdges s → ∃ a b, e = edgeKey a b ∧ known byKey a ∧ stateOf s a ≠ 0%N;
}.

(** What a call that succeeds leaves: same path, more black steps, more edges, all of them
    from steps that were white. *)
Record grows (s s' : Search) : Prop := {
  grows_black : ∀ k, stateOf s k = 2%N → stateOf s' k = 2%N;
  grows_seen : seenEdges s ⊆ seenEdges s';
  grows_new : ∀ e, e ∈ seenEdges s' → e ∈ seenEdges s ∨
    ∃ a b, e = edgeKey a b ∧ known byKey a ∧ stateOf s a = 0%N;
}.

Lemma grows_refl s : grows s s.
Proof. split; auto. Qed.

Lemma path_length p s : inv p s → (length p ≤ size byKey)%nat.
Proof.
  intros Hinv. rewrite <-size_dom. rewrite <-(size_list_to_set (C:=gset string)) by apply Hinv.
  apply subseteq_size. intros k. rewrite elem_of_list_to_set, elem_of_dom. apply Hinv.
Qed.
Lemma path_room p s key : inv p s → known byKey key → stateOf s key = 0%N → (length p < size byKey)%nat.
Proof.
  intros Hinv Hk Hw. rewrite <-size_dom.
  assert (key ∉ p) as Hnp. { rewrite <-(inv_gray _ _ Hinv). rewrite Hw. done. }
  enough (length (key :: p) ≤ size (dom byKey))%nat by (cbn in *; lia).
  rewrite <-(size_list_to_set (C:=gset string)) by (constructor; [done|apply Hinv]).
  apply subseteq_size. intros k. rewrite elem_of_list_to_set, elem_of_dom, list_elem_of_In. cbn.
  intros [<-|Hin%list_elem_of_In]; [done|]. by apply Hinv.
Qed.

(** Every step of the path leads to [key]. *)
Definition leads (p : list string) (key : string) : Prop := ∀ g, g ∈ p → tc (edge byKey) g key.
Definition keys_plain : Prop := ∀ k, known byKey k → no_nul k.
(** The contract, and that the current call is on a path of the graph. *)
Definition sound_call (p : list string) (key : string) : Prop := dag_ok byKey ∧ keys_plain ∧ leads p key.

(** What [visit] promises of its result. *)
Definition visited (p : list string) (key : string) (s : Search) (r : option (Result PlanError Search)) : Prop :=
  match r with
  | None => False
  | Some (Err e) => e ≠ OutOfFuel ∧ ¬ sound_call p key
  | Some (Ok s') => inv p s' ∧ grows s s' ∧ stateOf s' key = 2%N
  end.

Lemma inv_set_gray p s key :
  inv p s → known byKey key → stateOf s key = 0%N → inv (key :: p) (setState key 1 s).
Proof.
  intros Hinv Hk Hw. assert (key ∉ p) as Hnp. { rewrite <-(inv_gray _ _ Hinv), Hw. done. }
  split; cbn [seenEdges setState].
  - intros k. rewrite stateOf_set. case_decide; [lia|apply Hinv].
  - intros k. rewrite stateOf_set, elem_of_cons. case_decide as Hd; [subst; tauto|].
    rewrite (inv_gray _ _ Hinv). split; [auto|]. intros [->|]; done.
  - constructor; [done|apply Hinv].
  - intros k [->|Hp]%elem_of_cons; [done|by apply Hinv].
  - intros k. rewrite stateOf_set. case_decide; [done|]. apply Hinv.
  - intros e (a & b & -> & Ha & Hne)%(inv_edges _ _ Hinv). exists a, b. split; [done|]. split; [done|].
    rewrite stateOf_set. by case_decide.
Qed.

Lemma inv_add_edge p s key d : inv p s → key ∈ p → inv p (addEdge (edgeKey key d) s).
Proof.
  intros Hinv Hp. split; [apply Hinv..|]. intros e. cbn. rewrite elem_of_union, elem_of_singleton.
  intros [->|He]; [|by apply Hinv]. exists key, d. split; [done|]. split; [by apply Hinv|].
  rewrite stateOf_add. by rewrite (proj2 (inv_gray _ _ Hinv key) Hp).
Qed.

Lemma black_Acc p s k : inv p s → stateOf s k = 2%N → Acc (flip (edge byKey)) k.
Proof. intros Hinv Hb. constructor. intros d Hd. by apply (proj2 (inv_black _ _ Hinv k Hb)). Qed.

Lemma inv_set_black p s key :
  inv (key :: p) s → NoDup (DependsOn (stepAt byKey key)) →
  (∀ d, edge byKey key d → known byKey d ∧ d ≠ key ∧ stateOf s d = 2%N) → inv p (setState key 2 s).
Proof.
  intros Hinv Hnd Hdeps. pose proof (inv_path _ _ Hinv) as [Hnp Hndp]%NoDup_cons.
  split; cbn [seenEdges setState].
  - intros k. rewrite stateOf_set. case_decide; [lia|apply Hinv].
  - intros k. rewrite stateOf_set. case_decide as Hd; [subst; done|].
    rewrite (inv_gray _ _ Hinv), elem_of_cons. split; [intros [->|]; done|auto].
  - done.
  - intros k Hp. apply (inv_known _ _ Hinv). by right.
  - intros k. rewrite stateOf_set. case_decide as Hd; [subst k|apply Hinv]. intros _. split; [done|].
    intros d He. destruct (Hdeps d He) as (? & ? & Hb).
    split; [done|]. split; [done|]. by eapply black_Acc.
  - intros e (a & b & -> & Ha & Hne)%(inv_edges _ _ Hinv). exists a, b. split; [done|]. split; [done|].
    rewrite stateOf_set. by case_decide.
Qed.

Lemma stateOf_cases p s k : inv p s → stateOf s k = 0%N ∨ stateOf s k = 1%N ∨ stateOf s k = 2%N.
Proof. intros Hinv. pose proof (inv_color _ _ Hinv k). lia. Qed.

(** ** The loop over the dependencies *)

(** The edges recorded since [s0]: of steps that were white, and of [key] only the [done] ones. *)
Definition recorded (key : string) (dn : list string) (s0 s : Search) : Prop :=
  ∀ e, e ∈ seenEdges s → e ∈ seenEdges s0 ∨
    ∃ a b, e = edgeKey a b ∧ known byKey a ∧ stateOf s0 a = 0%N ∧ (a = key → b ∈ dn).

(** The state [s] of the loop of [visit key], entered in [s0], after the dependencies [dn]. *)
Record looping (p : list string) (key : string) (s0 s : Search) (dn : list string) : Prop := {
  loop_inv : inv (key :: p) s;
  loop_nodup : NoDup dn;
  loop_done : ∀ d, d ∈ dn → known byKey d ∧ d ≠ key ∧ stateOf s d = 2%N ∧ edgeKey key d ∈ seenEdges s;
  loop_black : ∀ k, stateOf s0 k = 2%N → stateOf s k = 2%N;
  loop_seen : seenEdges s0 ⊆ seenEdges s;
  loop_recorded : recorded key dn s0 s;
}.

Lemma looping_white p key s0 s dn a :
  inv p s0 → looping p key s0 s dn → stateOf s a = 0%N → stateOf s0 a = 0%N.
Proof.
  intros Hi0 Hl Ha. destruct (stateOf_cases p s0 a Hi0) as [H|[H|H]]; [done|..].
  - apply (inv_gray _ _ Hi0) in H. pose proof (inv_gray _ _ (loop_inv _ _ _ _ _ Hl) a) as [_ Hg].
    rewrite Hg in Ha; [done|by right].
  - apply (loop_black _ _ _ _ _ Hl) in H. congruence.
Qed.

Lemma looping_step p key s0 s s' dn d :
  inv p s0 → looping p key s0 s dn → known byKey d → d ≠ key → edgeKey key d ∉ seenEdges s →
  inv (key :: p) s' → grows (addEdge (edgeKey key d) s) s' → stateOf s' d = 2%N →
  looping p key s0 s' (dn ++ [d]).
Proof.
  intros Hi0 Hl Hk Hne Hfresh Hi' Hg Hb. split.
  - done.
  - apply NoDup_app. split; [by eapply loop_nodup|]. split; [|apply NoDup_singleton].
    intros x Hx ->%list_elem_of_singleton. by apply Hfresh, (loop_done _ _ _ _ _ Hl).
  - intros x [Hx| ->%list_elem_of_singleton]%elem_of_app.
    + destruct (loop_done _ _ _ _ _ Hl x Hx) as (? & ? & Hbx & Hsx). repeat split; [done..| |].
      * by apply (grows_black _ _ Hg).
      * apply (grows_seen _ _ Hg). cbn. by apply elem_of_union_r.
    + repeat split; [done..|]. apply (grows_seen _ _ Hg). cbn. by apply elem_of_union_l, elem_of_singleton.
  - intros k H0. by apply (grows_black _ _ Hg), (loop_black _ _ _ _ _ Hl).
  - intros e He. apply (grows_seen _ _ Hg). cbn. by apply elem_of_union_r, (loop_seen _ _ _ _ _ Hl).
  - intros e He. destruct (grows_new _ _ Hg e He) as [Hold|(a & b & -> & Ha & Hw)].
    + cbn in Hold. apply elem_of_union in Hold as [->%elem_of_singleton|Hold].
      * right. exists key, d. split; [done|]. split; [apply (inv_known _ _ Hi'); by left|].
        split; [|intros _; by apply elem_of_app; right; apply list_elem_of_singleton].
        destruct (stateOf_cases p s0 key Hi0) as [H|[H|H]]; [done|..].
        -- apply (inv_gray _ _ Hi0) in H. by pose proof (inv_path _ _ Hi') as [? _]%NoDup_cons.
        -- apply (loop_black _ _ _ _ _ Hl) in H.
           pose proof (proj2 (inv_gray _ _ (loop_inv _ _ _ _ _ Hl) key) (list_elem_of_here _ _)). congruence.
      * destruct (loop_recorded _ _ _ _ _ Hl e Hold) as [|(a & b & -> & ? & ? & Hab)]; [by left|right].
        exists a, b. repeat split; [done..|]. intros Heq. apply elem_of_app. left. auto.
    + rewrite stateOf_add in Hw. right. exists a, b. split; [done|]. split; [done|].
      split; [by eapply looping_white|]. intros ->.
      pose proof (proj2 (inv_gray _ _ (loop_inv _ _ _ _ _ Hl) key) (list_elem_of_here _ _)). congruence.
Qed.

Lemma looping_repeat p key s0 s dn d rest :
  inv p s0 → looping p key s0 s dn → stateOf s0 key = 0%N → known byKey key →
  (dn ++ d :: rest)%list = DependsOn (stepAt byKey key) → edgeKey key d ∈ seenEdges s → ¬ sound_call p key.
Proof.
  intros Hi0 Hl Hw Hk Hdeps He (Hok & Hplain & _).
  destruct (loop_recorded _ _ _ _ _ Hl _ He) as [H0|(a & b & Heq & Ha & _ & Hab)].
  - apply (inv_edges _ _ Hi0) in H0 as (a & b & Heq & Ha & Hna).
    apply edgeKey_inj in Heq as [<- <-]; auto.
  - apply edgeKey_inj in Heq as [<- <-]; auto.
    pose proof (dag_nodup _ Hok key Hk) as Hnd. rewrite <-Hdeps in Hnd.
    apply NoDup_app in Hnd as (_ & Hdis & _). apply (Hdis d); [auto|by left].
Qed.

Lemma sound_call_edge p key d : sound_call p key → edge byKey key d → sound_call (key :: p) d.
Proof.
  intros (Hok & Hplain & Hl) He. split; [done|]. split; [done|]. intros g [->|Hg]%elem_of_cons.
  - by apply tc_once.
  - eapply tc_r; [by apply Hl|done].
Qed.

Lemma looping_finish p key s0 s :
  looping p key s0 s (DependsOn (stepAt byKey key)) → visited p key s0 (Some (Ok (setState key 2 s))).
Proof.
  intros Hl. cbn. split; [|split].
  - eapply inv_set_black; [by eapply loop_inv|by eapply loop_nodup|].
    intros d Hd. by destruct (loop_done _ _ _ _ _ Hl d Hd) as (? & ? & ? & _).
  - split; cbn.
    + intros k Hk. rewrite stateOf_set. case_decide; [done|]. by apply (loop_black _ _ _ _ _ Hl).
    + by eapply loop_seen.
    + intros e He. destruct (loop_recorded _ _ _ _ _ Hl e He) as [|(a & b & -> & ? & ? & _)]; [by left|].
      right. by exists a, b.
  - rewrite stateOf_set. by case_decide.
Qed.

Lemma visitDependencies_run vis p key s0 :
  inv p s0 → known byKey key → stateOf s0 key = 0%N →
  (∀ d s, inv (key :: p) s → known byKey d → visited (key :: p) d s (vis d s)) →
  ∀ rest dn s, (dn ++ rest)%list = DependsOn (stepAt byKey key) → looping p key s0 s dn →
  visited p key s0 (visitDependencies byKey vis key rest s).
Proof.
  intros Hi0 Hk Hw Hvis. induction rest as [|d rest IH]; intros dn s Hdeps Hl; cbn [visitDependencies].
  { rewrite app_nil_r in Hdeps. subst dn. by apply looping_finish. }
  assert (edge byKey key d) as He. { unfold edge. rewrite <-Hdeps. apply elem_of_app. right. by left. }
  destruct (bool_decide_reflect (is_Some (byKey !! d))) as [Hd|Hd]; cbn [negb].
  2:{ split; [done|]. intros (Hok & _). by apply Hd, (dag_known _ Hok key). }
  destruct (String.eqb_spec d key) as [->|Hne].
  { split; [done|]. intros (Hok & _). eapply (dag_acyclic _ Hok key). by apply tc_once. }
  destruct (bool_decide_reflect (edgeKey key d ∈ seenEdges s)) as [Hs|Hs].
  { split; [done|]. by eapply looping_repeat. }
  assert (inv (key :: p) (addEdge (edgeKey key d) s)) as Hia.
  { apply inv_add_edge; [by eapply loop_inv|by left]. }
  pose proof (Hvis d _ Hia Hd) as Hv. destruct (vis d (addEdge (edgeKey key d) s)) as [[s'|e]|]; cbn in Hv |- *.
  - destruct Hv as (Hi' & Hg & Hb). apply (IH (dn ++ [d])%list); [by rewrite <-app_assoc|].
    by apply (looping_step p key s0 s).
  - destruct Hv as [He0 Hv]. split; [done|]. intros Hsc. apply Hv. by apply sound_call_edge.
  - done.
Qed.

(** ** The search *)

Lemma visit_run fuel : ∀ p key s,
  inv p s → known byKey key → (size byKey < fuel + length p)%nat → visited p key s (visit byKey fuel key s).
Proof.
  induction fuel as [|fuel IH]; intros p key s Hi Hk Hf.
  { pose proof (path_length p s Hi). lia. }
  cbn [visit]. destruct (N.eqb_spec (stateOf s key) 1) as [H1|H1].
  { split; [done|]. intros (Hok & _ & Hl). apply (dag_acyclic _ Hok key), Hl. by apply (inv_gray _ _ Hi). }
  destruct (N.eqb_spec (stateOf s key) 2) as [H2|H2].
  { cbn. auto using grows_refl. }
  assert (stateOf s key = 0%N) as Hw by (destruct (stateOf_cases p s key Hi); intuition).
  apply (visitDependencies_run _ p key s) with (dn := []); [done..| |done|].
  - intros d s' Hi' Hd. apply IH; [done..|]. cbn. lia.
  - split; [by apply inv_set_gray|constructor|by intros d ?%not_elem_of_nil| |done|].
    + intros k. rewrite stateOf_set. case_decide; [subst; congruence|done].
    + intros e He. by left.
Qed.

Lemma visitAll_run keys : ∀ s,
  inv [] s → (∀ k, k ∈ keys → known byKey k) →
  match visitAll byKey keys s with
  | None => False
  | Some (Err e) => e ≠ OutOfFuel ∧ ¬ (dag_ok byKey ∧ keys_plain)
  | Some (Ok s') => inv [] s' ∧ (∀ k, stateOf s k = 2%N → stateOf s' k = 2%N) ∧ (∀ k, k ∈ keys → stateOf s' k = 2%N)
  end.
Proof.
  induction keys as [|key keys IH]; intros s Hi Hkeys; cbn [visitAll].
  { split; [done|]. split; [auto|]. by intros k ?%not_elem_of_nil. }
  assert (known byKey key) as Hk by (apply Hkeys; by left).
  pose proof (visit_run (S (size byKey)) [] key s Hi Hk) as Hv.
  assert (size byKey < S (size byKey) + length (@nil string))%nat as Hf by lia. specialize (Hv Hf).
  destruct (visit byKey (S (size byKey)) key s) as [[s'|e]|]; cbn in Hv; [|..|done].
  - destruct Hv as (Hi' & Hg & Hb). specialize (IH s' Hi' ltac:(intros; apply Hkeys; by right)).
    destruct (visitAll byKey keys s') as [[s''|e]|]; [|done..]. destruct IH as (? & Hmono & Hall).
    split; [done|]. split.
    + intros k Hkb. by apply Hmono, (grows_black _ _ Hg).
    + intros k [->|Hin]%elem_of_cons; auto.
  - destruct Hv as [He0 Hv]. split; [done|]. intros (Hok & Hplain). apply Hv. split; [done|]. split; [done|]. by intros g ?%not_elem_of_nil.
Qed.

Lemma inv_start : inv [] {| state := ∅; seenEdges := ∅ |}.
Proof.
  split; cbn.
  - done.
  - intros k. unfold stateOf. cbn. rewrite lookup_empty. cbn. split; [done|by intros ?%not_elem_of_nil].
  - constructor.
  - by intros k ?%not_elem_of_nil.
  - intros k. unfold stateOf. cbn. by rewrite lookup_empty.
  - intros e He. by apply not_elem_of_empty in He.
Qed.

(** All steps black: the contract holds. *)
Lemma inv_all_black s : inv [] s → (∀ k, known byKey k → stateOf s k = 2%N) → dag_ok byKey.
Proof.
  intros Hi Hall. split.
  - intros key d Hk He. by apply (proj2 (inv_black _ _ Hi key (Hall key Hk))).
  - intros key Hk. by apply (inv_black _ _ Hi key (Hall key Hk)).
  - intros key Hc. assert (known byKey key) as Hk.
    { assert (∃ d, edge byKey key d) as [d He] by (inversion Hc; eauto). unfold edge, stepAt in He.
      unfold known. destruct (byKey !! key); [eauto|]. by apply not_elem_of_nil in He. }
    pose proof (black_Acc _ _ _ Hi (Hall key Hk)) as Ha.
    revert Hc. clear -Ha. induction Ha as [k _ IH]. intros Hc.
    assert (∃ d, edge byKey k d ∧ rtc (edge byKey) d k) as (d & Hd & Hr).
    { inversion Hc; subst; eexists; (split; [done|]); [apply rtc_refl|by apply tc_rtc]. }
    apply (IH d Hd). eapply tc_rtc_l; [done|by apply tc_once].
Qed.
End Search.

(** ** The range order *)

Section Range.
Context {map_range : GoMapRange}.

Lemma range_known site byKey k : k ∈ range site byKey ↔ known byKey k.
Proof.
  rewrite range_keys. unfold known. split.
  - intros ([k' v] & -> & Hin)%list_elem_of_fmap. cbn. by apply elem_of_map_to_list in Hin as ->.
  - intros [v Hv]. apply list_elem_of_fmap. exists (k, v). by rewrite elem_of_map_to_list.
Qed.
Lemma range_NoDup site byKey : NoDup (range site byKey).
Proof. rewrite range_keys. apply NoDup_fst_map_to_list. Qed.

(** The search decides its contract and always ends, in any order of its starting points. *)
Lemma validateDAG_run byKey :
  validateDAG byKey ≠ Err OutOfFuel ∧
  match validateDAG byKey with
  | Ok _ => dag_ok byKey
  | Err _ => ¬ (dag_ok byKey ∧ keys_plain byKey)
  end.
Proof.
  unfold validateDAG. pose proof (visitAll_run byKey (range 0 byKey) _ (inv_start byKey)) as Hv.
  specialize (Hv (λ k, proj1 (range_known 0 byKey k))).
  destruct (visitAll _ _ _) as [[s|e]|]; [|destruct Hv as [??]; split; congruence|done].
  destruct Hv as (Hi & _ & Hall). split; [done|]. apply (inv_all_black byKey s Hi).
  intros k Hk. by apply Hall, range_known.
Qed.
End Range.
