(* ===== verification/PlanGraphSpec.v ===== *)
(** * Lemmas on [validateIntegrationGraph]

    [closed_by byKey ik] is the declarative contract: the step [ik] is the one integration
    step, it comes last, owns the union of the acceptance criteria, depends on every branch no
    implementation step continues, and nothing depends on it.  [addSteps_run] follows the
    first range statement. *)
From stdpp Require Import base tactics list strings gmap.
From S2P Require Import Prelude GoStrings GoSort PlanGraph PlanGraphFacts.
Open Scope string_scope.

(** [key] is an implementation step of the map. *)
Definition producer (byKey : gmap string StepInput) (key : string) : Prop :=
  known byKey key ∧ Role (stepAt byKey key) = StepRoleImplementation.
Abbreviation criteria_of byKey key := (AcceptanceCriteria (stepAt byKey key)).

Record closed_by (byKey : gmap string StepInput) (ik : string) : Prop := {
  closed_step : known byKey ik ∧ Role (stepAt byKey ik) = StepRoleIntegration;
  closed_roles : ∀ k, known byKey k → k ≠ ik → producer byKey k;
  closed_last : (-1 < Order (stepAt byKey ik))%Z ∧
    ∀ k, producer byKey k → (Order (stepAt byKey k) < Order (stepAt byKey ik))%Z;
  closed_owner : ∀ k, producer byKey k → NoDup (criteria_of byKey k);
  closed_owners : ∀ k1 k2 c, producer byKey k1 → producer byKey k2 →
    c ∈ criteria_of byKey k1 → c ∈ criteria_of byKey k2 → k1 = k2;
  closed_some : ∃ k c, producer byKey k ∧ c ∈ criteria_of byKey k;
  closed_criteria : ∀ c, c ∈ criteria_of byKey ik ↔ ∃ k, producer byKey k ∧ c ∈ criteria_of byKey k;
  closed_forward : ∀ k, producer byKey k → ¬ edge byKey k ik;
  closed_depends : ∀ d, edge byKey ik d → producer byKey d;
  closed_leaves : ∀ k, producer byKey k → (∀ k', producer byKey k' → ¬ edge byKey k' k) → edge byKey ik k;
}.
(** An empty map needs no integration step. *)
Definition integration_ok (byKey : gmap string StepInput) : Prop := byKey = ∅ ∨ ∃ ik, closed_by byKey ik.

Lemma addCriteria_run cs : ∀ seen,
  match addCriteria cs seen with
  | Ok seen' => NoDup cs ∧ (∀ c, c ∈ cs → c ∉ seen) ∧ ∀ c, c ∈ seen' ↔ c ∈ cs ∨ c ∈ seen
  | Err _ => ¬ NoDup cs ∨ ∃ c, c ∈ cs ∧ c ∈ seen
  end.
Proof.
  induction cs as [|c cs IH]; intros seen; cbn [addCriteria].
  { split; [constructor|]. split; [by intros c ?%not_elem_of_nil|]. intros c. rewrite elem_of_nil. tauto. }
  destruct (bool_decide_reflect (c ∈ seen)) as [Hs|Hs].
  { right. exists c. split; [by left|done]. }
  specialize (IH ({[c]} ∪ seen)). destruct (addCriteria cs ({[c]} ∪ seen)) as [seen'|e].
  - destruct IH as (Hnd & Hdis & Heq). split; [|split].
    + constructor; [|done]. intros Hc. apply (Hdis c Hc). by apply elem_of_union_l, elem_of_singleton.
    + intros x [->|Hx]%elem_of_cons; [done|]. intros H. apply (Hdis x Hx). by apply elem_of_union_r.
    + intros x. rewrite Heq, elem_of_cons, elem_of_union, elem_of_singleton. tauto.
  - destruct IH as [Hnd|(x & Hx & [->%elem_of_singleton|Hxs]%elem_of_union)].
    + left. by intros [_ H]%NoDup_cons.
    + left. by intros [H _]%NoDup_cons.
    + right. exists x. split; [by right|done].
Qed.

Section Integration.
Context (byKey : gmap string StepInput).

Lemma addSuccessors_run ds : ∀ seen,
  match addSuccessors byKey ds seen with
  | Ok seen' => (∀ d, d ∈ ds → Role (stepAt byKey d) ≠ StepRoleIntegration) ∧ ∀ d, d ∈ seen' ↔ d ∈ ds ∨ d ∈ seen
  | Err _ => ∃ d, d ∈ ds ∧ Role (stepAt byKey d) = StepRoleIntegration
  end.
Proof.
  induction ds as [|d ds IH]; intros seen; cbn [addSuccessors].
  { split; [by intros d ?%not_elem_of_nil|]. intros d. rewrite elem_of_nil. tauto. }
  destruct (String.eqb_spec (Role (stepAt byKey d)) StepRoleIntegration) as [Hr|Hr].
  { exists d. split; [by left|done]. }
  specialize (IH ({[d]} ∪ seen)). destruct (addSuccessors byKey ds ({[d]} ∪ seen)) as [seen'|e].
  - destruct IH as (Hall & Heq). split.
    + intros x [->|Hx]%elem_of_cons; auto.
    + intros x. rewrite Heq, elem_of_cons, elem_of_union, elem_of_singleton. tauto.
  - destruct IH as (x & Hx & Hrx). exists x. split; [by right|done].
Qed.

(** What the loop knows after the steps [dn]. *)
Definition prod_in (dn : list string) (k : string) : Prop := k ∈ dn ∧ producer byKey k.
Record collected (dn : list string) (p : Producers) : Prop := {
  coll_integration : match integration p with
    | None => ∀ k, k ∈ dn → producer byKey k
    | Some step => ∃ ik, ik ∈ dn ∧ step = stepAt byKey ik ∧ Role (stepAt byKey ik) = StepRoleIntegration ∧
                    ∀ k, k ∈ dn → k ≠ ik → producer byKey k
    end;
  coll_criteria : ∀ c, c ∈ producerCriteria p ↔ ∃ k, prod_in dn k ∧ c ∈ criteria_of byKey k;
  coll_owner : ∀ k, prod_in dn k → NoDup (criteria_of byKey k);
  coll_owners : ∀ k1 k2 c, prod_in dn k1 → prod_in dn k2 →
    c ∈ criteria_of byKey k1 → c ∈ criteria_of byKey k2 → k1 = k2;
  coll_order : ∀ z, (maxProducerOrder p < z)%Z ↔ (-1 < z)%Z ∧ ∀ k, prod_in dn k → (Order (stepAt byKey k) < z)%Z;
  coll_successors : ∀ d, d ∈ successors p ↔ ∃ k, prod_in dn k ∧ edge byKey k d;
  coll_forward : ∀ k d, prod_in dn k → edge byKey k d → Role (stepAt byKey d) ≠ StepRoleIntegration;
}.

Lemma roles_differ : StepRoleIntegration ≠ StepRoleImplementation.
Proof. done. Qed.

Lemma closed_unique ik k : closed_by byKey ik → known byKey k → Role (stepAt byKey k) = StepRoleIntegration → k = ik.
Proof.
  intros Hc Hk Hr. destruct (decide (k = ik)) as [|Hne]; [done|].
  destruct (closed_roles _ _ Hc k Hk Hne) as [_ Hi]. rewrite Hr in Hi. done.
Qed.

Lemma collected_integration dn p key :
  collected dn p → known byKey key → Role (stepAt byKey key) = StepRoleIntegration →
  integration p = None →
  collected (dn ++ [key]) {| integration := Some (stepAt byKey key); producerCriteria := producerCriteria p;
                             maxProducerOrder := maxProducerOrder p; successors := successors p |}.
Proof.
  intros Hc Hk Hr Hn.
  assert (∀ k, prod_in (dn ++ [key]) k ↔ prod_in dn k) as Hpi.
  { intros k. unfold prod_in. rewrite elem_of_app, list_elem_of_singleton. split; [|tauto].
    intros [[Hin| ->] Hp]; [done|]. destruct Hp as [_ Hp]. by rewrite Hr in Hp. }
  split; cbn.
  - exists key. rewrite elem_of_app, list_elem_of_singleton. split; [tauto|]. split; [done|]. split; [done|].
    intros k. rewrite elem_of_app, list_elem_of_singleton. intros [Hin| ->] Hne; [|done].
    pose proof (coll_integration _ _ Hc) as Hi. rewrite Hn in Hi. auto.
  - setoid_rewrite Hpi. apply Hc.
  - setoid_rewrite Hpi. apply Hc.
  - setoid_rewrite Hpi. apply Hc.
  - setoid_rewrite Hpi. apply Hc.
  - setoid_rewrite Hpi. apply Hc.
  - setoid_rewrite Hpi. apply Hc.
Qed.

Lemma collected_producer dn p key criteria next :
  collected dn p → producer byKey key →
  NoDup (criteria_of byKey key) → (∀ c, c ∈ criteria_of byKey key → c ∉ producerCriteria p) →
  (∀ c, c ∈ criteria ↔ c ∈ criteria_of byKey key ∨ c ∈ producerCriteria p) →
  (∀ d, edge byKey key d → Role (stepAt byKey d) ≠ StepRoleIntegration) →
  (∀ d, d ∈ next ↔ edge byKey key d ∨ d ∈ successors p) →
  collected (dn ++ [key])
    {| integration := integration p; producerCriteria := criteria;
       maxProducerOrder := if Z.ltb (maxProducerOrder p) (Order (stepAt byKey key)) then Order (stepAt byKey key)
                           else maxProducerOrder p;
       successors := next |}.
Proof.
  intros Hc Hp Hnd Hdis Hcr Hrole Hnext.
  assert (∀ k, prod_in (dn ++ [key]) k ↔ prod_in dn k ∨ k = key) as Hpi.
  { intros k. unfold prod_in. rewrite elem_of_app, list_elem_of_singleton. split; [tauto|].
    intros [[? ?]| ->]; tauto. }
  split; cbn.
  - pose proof (coll_integration _ _ Hc) as Hi. destruct (integration p) as [step|].
    + destruct Hi as (ik & Hin & -> & Hr & Hall). exists ik. rewrite elem_of_app. split; [tauto|].
      split; [done|]. split; [done|]. intros k. rewrite elem_of_app, list_elem_of_singleton. intros [Hk| ->] Hne; auto.
    + intros k. rewrite elem_of_app, list_elem_of_singleton. intros [Hk| ->]; auto.
  - intros c. setoid_rewrite Hpi. rewrite Hcr, (coll_criteria _ _ Hc). split.
    + intros [H|(k & H & H')]; eauto.
    + intros (k & [H| ->] & H'); eauto.
  - intros k [H| ->]%Hpi; [|done]. by apply (coll_owner _ _ Hc).
  - assert (∀ k c, prod_in dn k → c ∈ criteria_of byKey k → c ∈ criteria_of byKey key → False) as Hnew.
    { intros k c Hk H1 H2. apply (Hdis c H2), (coll_criteria _ _ Hc). eauto. }
    intros k1 k2 c [H1| ->]%Hpi [H2| ->]%Hpi ? ?; [by eapply (coll_owners _ _ Hc)|exfalso; eauto..|done].
  - intros z. pose proof (coll_order _ _ Hc z) as Hz. setoid_rewrite Hpi.
    destruct (Z.ltb_spec (maxProducerOrder p) (Order (stepAt byKey key))) as [Hlt|Hge].
    + split.
      * intros Ho. destruct (proj1 Hz) as [H1 Hall]; [lia|]. split; [done|]. intros k [H| ->]; auto.
      * intros [_ Hall]. apply Hall. by right.
    + rewrite Hz. split.
      * intros [H1 Hall]. split; [done|]. intros k [H| ->]; [auto|]. assert (maxProducerOrder p < z)%Z by (apply Hz; auto). lia.
      * intros [H1 Hall]. auto.
  - intros d. setoid_rewrite Hpi. rewrite Hnext, (coll_successors _ _ Hc). split.
    + intros [H|(k & H & H')]; eauto.
    + intros (k & [H| ->] & H'); eauto.
  - intros k d [H| ->]%Hpi; [by apply (coll_forward _ _ Hc)|auto].
Qed.

Lemma addStep_run dn p key :
  collected dn p → known byKey key → key ∉ dn → (∀ k, k ∈ dn → known byKey k) →
  match addStep byKey key p with
  | Ok p' => collected (dn ++ [key]) p'
  | Err _ => ∀ ik, ¬ closed_by byKey ik
  end.
Proof.
  intros Hc Hk Hnew Hdn. unfold addStep.
  destruct (String.eqb_spec (Role (stepAt byKey key)) StepRoleIntegration) as [Hr|Hr].
  { destruct (integration p) as [step|] eqn:Hi; [|by apply collected_integration].
    intros ik Hcl. pose proof (coll_integration _ _ Hc) as Hint. rewrite Hi in Hint.
    destruct Hint as (ik' & Hin & _ & Hr' & _). apply Hnew.
    rewrite (closed_unique ik key), <-(closed_unique ik ik'); auto. }
  destruct (String.eqb_spec (Role (stepAt byKey key)) StepRoleImplementation) as [Hp|Hp]; cbn [negb].
  2:{ intros ik Hcl. destruct (decide (key = ik)) as [->|Hne].
      - by destruct (closed_step _ _ Hcl).
      - by destruct (closed_roles _ _ Hcl key Hk Hne). }
  pose proof (addCriteria_run (criteria_of byKey key) (producerCriteria p)) as Ha.
  destruct (addCriteria _ _) as [criteria|e]; cbn [mbind result_mbind result_bind].
  2:{ intros ik Hcl. destruct Ha as [Ha|(c & H1 & H2)].
      - by apply Ha, (closed_owner _ _ Hcl).
      - apply (coll_criteria _ _ Hc) in H2 as (k & [Hin Hpk] & H2). apply Hnew.
        by rewrite (closed_owners _ _ Hcl key k c). }
  pose proof (addSuccessors_run (DependsOn (stepAt byKey key)) (successors p)) as Hs.
  destruct (addSuccessors _ _ _) as [next|e]; cbn [mbind result_mbind result_bind].
  2:{ intros ik Hcl. destruct Hs as (d & Hd & Hrd).
      assert (known byKey d) as Hkd.
      { unfold stepAt, known in *. destruct (byKey !! d); [eauto|]. by cbn in Hrd. }
      rewrite (closed_unique ik d) in Hd by done. by apply (closed_forward _ _ Hcl key). }
  destruct Ha as (? & ? & ?), Hs as (? & ?). by apply collected_producer.
Qed.

Lemma addSteps_run keys : ∀ dn p,
  collected dn p → NoDup (dn ++ keys)%list → (∀ k, k ∈ (dn ++ keys)%list → known byKey k) →
  match addSteps byKey keys p with
  | Ok p' => collected (dn ++ keys) p'
  | Err _ => ∀ ik, ¬ closed_by byKey ik
  end.
Proof.
  induction keys as [|key keys IH]; intros dn p Hc Hnd Hk; cbn [addSteps].
  { by rewrite app_nil_r. }
  assert (key ∉ dn) as Hnew.
  { intros Hin. apply NoDup_app in Hnd as (_ & Hdis & _). apply (Hdis key Hin). by left. }
  pose proof (addStep_run dn p key Hc) as Hs.
  assert (known byKey key) as Hkey by (apply Hk, elem_of_app; right; by left).
  specialize (Hs Hkey Hnew (λ k Hin, Hk k (proj2 (elem_of_app _ _ _) (or_introl Hin)))).
  destruct (addStep byKey key p) as [p'|e]; cbn [mbind result_mbind result_bind]; [|done].
  specialize (IH (dn ++ [key])%list p' Hs). rewrite <-app_assoc in IH. cbn [app] in IH. by apply IH.
Qed.

Lemma collected_start :
  collected [] {| integration := None; producerCriteria := ∅; maxProducerOrder := -1; successors := ∅ |}.
Proof.
  assert (∀ k, ¬ prod_in [] k) as Hno by (by intros k [?%not_elem_of_nil _]).
  split; cbn.
  - by intros k ?%not_elem_of_nil.
  - intros c. split; [by intros ?%not_elem_of_empty|]. by intros (k & ?%Hno & _).
  - by intros k ?%Hno.
  - by intros k1 k2 c ?%Hno.
  - intros z. split; [|tauto]. intros Hz. split; [done|]. by intros k ?%Hno.
  - intros d. split; [by intros ?%not_elem_of_empty|]. by intros (k & ?%Hno & _).
  - by intros k d ?%Hno.
Qed.
End Integration.

Section Decide.
Context {map_range : GoMapRange} (byKey : gmap string StepInput).

Lemma prod_in_range k : prod_in byKey (range 1 byKey) k ↔ producer byKey k.
Proof. unfold prod_in. rewrite range_known. unfold producer. tauto. Qed.

(** What the checks after the loop amount to. *)
Record checked (ik : string) (p : Producers) : Prop := {
  checked_some : producerCriteria p ≠ ∅;
  checked_last : (maxProducerOrder p < Order (stepAt byKey ik))%Z;
  checked_criteria : (list_to_set (criteria_of byKey ik) : gset string) = producerCriteria p;
  checked_depends : ∀ d, edge byKey ik d → producer byKey d;
  checked_leaves : ∀ k, producer byKey k → k ∉ successors p → edge byKey ik k;
}.

Lemma checked_closed ik p :
  collected byKey (range 1 byKey) p → known byKey ik → Role (stepAt byKey ik) = StepRoleIntegration →
  (∀ k, known byKey k → k ≠ ik → producer byKey k) → checked ik p → closed_by byKey ik.
Proof.
  intros Hc Hk Hr Hroles [H1 H2 H3 H4 H5]. split.
  - done.
  - done.
  - pose proof (proj1 (coll_order _ _ _ Hc _) H2) as [? Hall]. split; [done|].
    intros k Hp. by apply Hall, prod_in_range.
  - intros k Hp. by apply (coll_owner _ _ _ Hc), prod_in_range.
  - intros k1 k2 c Hp1 Hp2. apply (coll_owners _ _ _ Hc); by apply prod_in_range.
  - apply set_choose_L in H1 as [c Hcc]. apply (coll_criteria _ _ _ Hc) in Hcc as (k & Hp%prod_in_range & Hin). eauto.
  - intros c. rewrite <-(elem_of_list_to_set (C:=gset string)), H3, (coll_criteria _ _ _ Hc).
    by setoid_rewrite prod_in_range.
  - intros k Hp%prod_in_range He. by apply (coll_forward _ _ _ Hc k ik Hp He).
  - done.
  - intros k Hp Hleaf. apply H5; [done|]. intros (k' & Hp'%prod_in_range & He)%(coll_successors _ _ _ Hc). by eapply Hleaf.
Qed.

Lemma closed_checked ik p : collected byKey (range 1 byKey) p → closed_by byKey ik → checked ik p.
Proof.
  intros Hc Hcl. split.
  - destruct (closed_some _ _ Hcl) as (k & c & Hp%prod_in_range & Hin).
    assert (c ∈ producerCriteria p) as Hcp by (apply (coll_criteria _ _ _ Hc); eauto).
    intros He. rewrite He in Hcp. by apply not_elem_of_empty in Hcp.
  - apply (coll_order _ _ _ Hc). destruct (closed_last _ _ Hcl) as [? Hall]. split; [done|].
    intros k Hp%prod_in_range. auto.
  - apply set_eq. intros c.
    rewrite elem_of_list_to_set, (closed_criteria _ _ Hcl), (coll_criteria _ _ _ Hc). by setoid_rewrite prod_in_range.
  - apply Hcl.
  - intros k Hp Hns. apply (closed_leaves _ _ Hcl k Hp). intros k' Hp' He. apply Hns, (coll_successors _ _ _ Hc).
    exists k'. by rewrite prod_in_range.
Qed.

Lemma elem_of_terminal succ k : k ∈ terminalBranches byKey succ ↔ producer byKey k ∧ k ∉ succ.
Proof.
  unfold terminalBranches. rewrite elem_of_list_to_set, list_elem_of_filter, range_known. unfold producer. tauto.
Qed.

Lemma forall_producers (ds : list string) :
  forallb (λ key, String.eqb (Role (stepAt byKey key)) StepRoleImplementation) ds = true ↔
  ∀ d, d ∈ ds → producer byKey d.
Proof.
  rewrite forallb_forall. setoid_rewrite <-list_elem_of_In. apply forall_proper; intros d.
  rewrite String.eqb_eq. unfold producer, known, stepAt. split; [|tauto]. intros H Hd. specialize (H Hd).
  split; [|done]. destruct (byKey !! d); [eauto|]. by cbn in H.
Qed.

(** The checks, in the order of the source, decide [checked]. *)
Lemma checks_run ik p :
  let step := stepAt byKey ik in
  let integrationCriteria : gset string := list_to_set (AcceptanceCriteria step) in
  let terminal := terminalBranches byKey (successors p) in
  let dependencies : gset string := list_to_set (DependsOn step) in
  (_ ← fail_if (Nat.eqb (size (producerCriteria p)) 0) NoImplementationOrIntegration;
   _ ← fail_if (Z.leb (Order step) (maxProducerOrder p)) IntegrationNotLast;
   _ ← fail_if (negb (Nat.eqb (size integrationCriteria) (size (producerCriteria p)))) IntegrationCriteria;
   _ ← fail_if (negb (bool_decide (producerCriteria p ⊆ integrationCriteria))) IntegrationCriteria;
   _ ← fail_if (negb (forallb (λ key, String.eqb (Role (stepAt byKey key)) StepRoleImplementation) (DependsOn step)))
         IntegrationDependsOn;
   _ ← fail_if (Nat.ltb (size dependencies) (size terminal)) IntegrationMissesBranch;
   fail_if (negb (bool_decide (terminal ⊆ dependencies))) IntegrationMissesBranch) = Ok tt ↔ checked ik p.
Proof.
  cbv zeta. rewrite !bind_ok. setoid_rewrite bind_ok. setoid_rewrite bind_ok. setoid_rewrite bind_ok.
  setoid_rewrite bind_ok. setoid_rewrite bind_ok. setoid_rewrite fail_if_ok.
  setoid_rewrite negb_false_iff. setoid_rewrite bool_decide_eq_true.
  setoid_rewrite Nat.eqb_neq. setoid_rewrite Z.leb_gt. setoid_rewrite Nat.eqb_eq.
  setoid_rewrite forall_producers. setoid_rewrite Nat.ltb_ge.
  split.
  - intros ([] & H1 & [] & H2 & [] & H3 & [] & H4 & [] & H5 & [] & H6 & H7). split; [|done| |done|].
    + intros He. rewrite He in H1. by rewrite size_empty in H1.
    + symmetry. apply set_subseteq_size_eq; [done|exact (Nat.eq_le_incl _ _ H3)].
    + intros k Hp Hs. specialize (H7 k). rewrite elem_of_terminal, elem_of_list_to_set in H7. by apply H7.
  - intros [H1 H2 H3 H4 H5].
    assert (terminalBranches byKey (successors p) ⊆ (list_to_set (DependsOn (stepAt byKey ik)) : gset string)) as Hsub.
    { intros k. rewrite elem_of_terminal, elem_of_list_to_set. intros [? ?]. by apply H5. }
    exists tt. split; [by intros ?%size_empty_inv%leibniz_equiv|]. exists tt. split; [done|].
    exists tt. split; [by rewrite H3|]. exists tt. split; [by rewrite H3|].
    exists tt. split; [done|]. exists tt. split; [by apply subseteq_size|done].
Qed.

Lemma validateIntegrationGraph_iff : validateIntegrationGraph byKey = Ok tt ↔ integration_ok byKey.
Proof.
  unfold validateIntegrationGraph, integration_ok.
  destruct (Nat.eqb_spec (size byKey) 0) as [He%map_size_empty_inv|Hne]; [by split; [left|]|].
  pose proof (addSteps_run byKey (range 1 byKey) [] _ (collected_start byKey) (range_NoDup 1 byKey)
                (λ k, proj1 (range_known 1 byKey k))) as Hrun.
  destruct (addSteps _ _ _) as [p|e]; cbn [mbind result_mbind result_bind app] in *.
  2:{ split; [done|]. intros [->|[ik Hcl]]; [done|]. by destruct (Hrun ik). }
  pose proof (coll_integration _ _ _ Hrun) as Hi. destruct (integration p) as [step|] eqn:Hp.
  - destruct Hi as (ik & Hin%range_known & -> & Hr & Hall). setoid_rewrite range_known in Hall.
    rewrite checks_run. split.
    + intros Hch. right. exists ik. by eapply checked_closed.
    + intros [->|[ik' Hcl]]; [done|].
      assert (ik = ik') as -> by (by eapply closed_unique). by apply closed_checked.
  - split; [done|]. intros [->|[ik Hcl]]; [done|]. destruct (closed_step _ _ Hcl) as [Hk Hr].
    destruct (Hi ik) as [_ Himpl]; [by apply range_known|]. by rewrite Hr in Himpl.
Qed.
End Decide.
