(* ===== verification/PlanNormalizeFacts.v ===== *)
(** * Lemmas on [normalizeEvidenceRequirements] and [Normalize]

    [bounded_requirement] and [step_ok] say what the two normalisers let through;
    [normalizeInputs_run] describes the loop's maps by the list it returns, [buildSteps_run]
    and [buildDependencies_run] the rows by the identities drawn. *)
From stdpp Require Import base tactics list strings gmap sorting relations.
From S2P Require Import Prelude GoStrings GoSort PlanGraph PlanGraphFacts PlanGraphSpec.
Open Scope string_scope.

(** Runs through a chain of binds that ends in [Ok]. *)
Ltac run_ok H :=
  repeat match type of H with
  | _ ≫= _ = Ok _ => let u := fresh "u" in let Hu := fresh "Hu" in
      apply bind_ok in H as (u & Hu & H)
  end.

(** Passes the next check of a chain. *)
Ltac pass_check := apply bind_ok; exists tt; split; [apply fail_if_ok|].

(** ** Evidence requirements *)

Section Requirements.
Context {unicode : GoUnicode}.

Record bounded_requirement (r : EvidenceRequirement) : Prop := {
  requirement_key : evidenceRequirementKeyPattern (Requirement_Key r) = true;
  requirement_trimmed : TrimSpace (Requirement_Key r) = Requirement_Key r ∧
    TrimSpace (Requirement_Title r) = Requirement_Title r ∧
    TrimSpace (Requirement_Description r) = Requirement_Description r;
  requirement_text : Requirement_Title r ≠ "" ∧ (String.length (Requirement_Title r) ≤ 120)%nat ∧
    (String.length (Requirement_Description r) ≤ 400)%nat;
  requirement_bytes : (1 ≤ MaxBytes r ≤ 1048576)%Z;
  requirement_types : (1 ≤ length (ContentTypes r) ≤ 6)%nat ∧ NoDup (ContentTypes r) ∧
    Forall (λ t, t ∈ allowedStepEvidenceContentTypes) (ContentTypes r) ∧ key_sorted id (ContentTypes r);
}.

Lemma normalizeContentTypes_run types : ∀ acc res,
  normalizeContentTypes types acc = Ok res →
  res = sort_strings (acc ++ (mimeType <$> types))%list ∧
  Forall (λ t, t ∈ allowedStepEvidenceContentTypes) (mimeType <$> types) ∧
  (NoDup acc → NoDup (acc ++ (mimeType <$> types))%list).
Proof.
  induction types as [|t types IH]; intros acc res; cbn [normalizeContentTypes].
  { intros [= <-]. rewrite fmap_nil, app_nil_r. split; [done|]. split; [constructor|auto]. }
  case_bool_decide as Ha; cbn [negb]; [|done]. case_bool_decide as Hs; [done|].
  intros (-> & Hall & Hnd)%IH. rewrite fmap_cons, <-app_assoc in *. cbn [app] in *. split; [done|].
  split; [by constructor|]. intros Hacc. apply Hnd, NoDup_app. split; [done|].
  split; [|apply NoDup_singleton]. by intros x Hx ->%list_elem_of_singleton.
Qed.

Lemma normalizeContentTypes_ok types : ∀ acc,
  Forall (λ t, t ∈ allowedStepEvidenceContentTypes) (mimeType <$> types) →
  NoDup (acc ++ (mimeType <$> types))%list →
  normalizeContentTypes types acc = Ok (sort_strings (acc ++ (mimeType <$> types))%list).
Proof.
  induction types as [|t types IH]; intros acc Hall Hnd; cbn [normalizeContentTypes].
  { by rewrite fmap_nil, app_nil_r. }
  rewrite fmap_cons in *. apply Forall_cons in Hall as [Ha Hall].
  rewrite bool_decide_true by done. cbn [negb]. rewrite bool_decide_false.
  2:{ intros Hin. apply NoDup_app in Hnd as (_ & Hdis & _). apply (Hdis _ Hin). by left. }
  rewrite IH; [|done|]; by rewrite <-app_assoc.
Qed.

Lemma mimeType_allowed t : t ∈ allowedStepEvidenceContentTypes → mimeType t = t.
Proof.
  unfold allowedStepEvidenceContentTypes. rewrite !elem_of_cons, elem_of_nil.
  intros [->|[->|[->|[->|[->|[->|[]]]]]]]; reflexivity.
Qed.
Lemma mimeTypes_allowed ts : Forall (λ t, t ∈ allowedStepEvidenceContentTypes) ts → mimeType <$> ts = ts.
Proof. induction 1 as [|t ts Ht _ IH]; [done|]. by rewrite fmap_cons, IH, mimeType_allowed. Qed.

Lemma normalizeRequirement_run seen r r' :
  normalizeRequirement seen r = Ok r' → bounded_requirement r' ∧ Requirement_Key r' ∉ seen.
Proof.
  unfold normalizeRequirement. intros H. run_ok H. injection H as <-.
  repeat match goal with Hu : fail_if _ _ = Ok _ |- _ => apply fail_if_ok in Hu end.
  rewrite ?orb_false_iff, ?negb_false_iff, ?Nat.ltb_ge, ?Z.ltb_ge, ?Nat.eqb_neq, ?bool_decide_eq_false,
    ?String.eqb_neq in *.
  apply normalizeContentTypes_run in Hu4 as (-> & Hall & Hnd). cbn [app] in *.
  split; [|done].
  split; cbn [Requirement_Key Requirement_Title Requirement_Description MaxBytes ContentTypes].
  - by destruct Hu.
  - by rewrite !TrimSpace_idem.
  - unfold MaxEvidenceRequirementTitleBytes, MaxEvidenceRequirementDescriptionBytes in *. tauto.
  - unfold MaxStepEvidenceBytes in *. cbn in *. tauto.
  - unfold sort_strings, MaxEvidenceTypesPerRequirement in *. split; [|split; [|split]].
    + rewrite sort_key_perm, length_fmap. lia.
    + rewrite sort_key_perm. apply Hnd. constructor.
    + by rewrite sort_key_perm.
    + apply sort_key_sorted.
Qed.

Lemma key_pattern_length s : evidenceRequirementKeyPattern s = true → (String.length s ≤ 48)%nat.
Proof.
  destruct s as [|c s]; cbn; [done|]. rewrite !andb_true_iff. intros [_ H%Nat.leb_le]. lia.
Qed.

Lemma normalizeRequirement_ok seen r :
  bounded_requirement r → Requirement_Key r ∉ seen → normalizeRequirement seen r = Ok r.
Proof.
  intros [Hk (Ht1 & Ht2 & Ht3) (H1 & H2 & H3) Hb (Hl & Hnd & Hall & Hs)] Hseen.
  unfold normalizeRequirement. rewrite Ht1, Ht2, Ht3, Hk.
  pose proof (mimeTypes_allowed _ Hall) as Hm.
  pass_check.
  { rewrite orb_false_iff, Nat.ltb_ge. split; [done|by apply key_pattern_length]. }
  pass_check.
  { by apply bool_decide_eq_false. }
  pass_check.
  { by rewrite !orb_false_iff, !Nat.ltb_ge, String.eqb_neq. }
  pass_check.
  { rewrite orb_false_iff, !Z.ltb_ge. change MaxStepEvidenceBytes with 1048576%Z. lia. }
  pass_check.
  { rewrite orb_false_iff, Nat.ltb_ge, Nat.eqb_neq. unfold MaxEvidenceTypesPerRequirement. lia. }
  rewrite normalizeContentTypes_ok; cbn [app]; rewrite ?Hm; [|done..].
  cbn [mbind result_mbind result_bind]. unfold sort_strings. rewrite sort_key_id by done. by destruct r.
Qed.

Lemma normalizeRequirements_run rs : ∀ seen rs',
  normalizeRequirements seen rs = Ok rs' →
  length rs' = length rs ∧ Forall bounded_requirement rs' ∧ NoDup (Requirement_Key <$> rs') ∧
  (∀ k, k ∈ Requirement_Key <$> rs' → k ∉ seen).
Proof.
  induction rs as [|r rs IH]; intros seen rs' H; cbn [normalizeRequirements] in H.
  { injection H as <-. repeat split; [constructor..|]. by intros k ?%not_elem_of_nil. }
  run_ok H. injection H as <-. apply normalizeRequirement_run in Hu as [Hb Hns].
  apply IH in Hu0 as (Hl & Hall & Hnd & Hdis). cbn [length]. split; [by rewrite Hl|].
  split; [by constructor|]. rewrite fmap_cons. split.
  - constructor; [|done]. intros Hin. apply (Hdis _ Hin). by apply elem_of_union_l, elem_of_singleton.
  - intros k [->|Hin]%elem_of_cons; [done|]. intros Hs. apply (Hdis k Hin). by apply elem_of_union_r.
Qed.

Lemma normalizeRequirements_ok rs : ∀ seen,
  Forall bounded_requirement rs → NoDup (Requirement_Key <$> rs) → (∀ k, k ∈ Requirement_Key <$> rs → k ∉ seen) →
  normalizeRequirements seen rs = Ok rs.
Proof.
  induction rs as [|r rs IH]; intros seen Hall Hnd Hdis; cbn [normalizeRequirements]; [done|].
  rewrite fmap_cons in *. apply Forall_cons in Hall as [Hb Hall]. apply NoDup_cons in Hnd as [Hn Hnd].
  rewrite normalizeRequirement_ok; [|done|apply Hdis; by left]. cbn [mbind result_mbind result_bind].
  rewrite IH; [done..|]. intros k Hk. rewrite elem_of_union, elem_of_singleton. intros [->|Hs]; [done|].
  apply (Hdis k); [by right|done].
Qed.
End Requirements.

(** ** One input *)

Lemma normalizeCriteria_run key cs : ∀ seen cs',
  normalizeCriteria key cs seen = Ok cs' →
  cs' = TrimSpace <$> cs ∧ NoDup cs' ∧ (∀ c, c ∈ cs' → c ∉ seen) ∧
  Forall (λ c, c ≠ "" ∧ (String.length c ≤ 400)%nat) cs'.
Proof.
  induction cs as [|c cs IH]; intros seen cs' H; cbn [normalizeCriteria] in H.
  { injection H as <-. split; [done|]. split; [constructor|]. split; [by intros c ?%not_elem_of_nil|constructor]. }
  destruct (String.eqb (TrimSpace c) "" || Nat.ltb 400 (String.length (TrimSpace c))) eqn:Hb; [done|].
  apply orb_false_iff in Hb as [He%String.eqb_neq Hl%Nat.ltb_ge]. case_bool_decide as Hs; [done|].
  run_ok H. injection H as <-. apply IH in Hu as (-> & Hnd & Hdis & Hall). rewrite fmap_cons.
  split; [done|]. split; [constructor; [|done]|split; [|by constructor]].
  - intros Hin. apply (Hdis _ Hin). by apply elem_of_union_l, elem_of_singleton.
  - intros x [->|Hx]%elem_of_cons; [done|]. intros Hxs. apply (Hdis x Hx). by apply elem_of_union_r.
Qed.

Lemma normalizeDependencies_run key ds : ∀ seen ds',
  normalizeDependencies key ds seen = Ok ds' → ds' = TrimSpace <$> ds ∧ NoDup ds' ∧ (∀ d, d ∈ ds' → d ∉ seen).
Proof.
  induction ds as [|d ds IH]; intros seen ds' H; cbn [normalizeDependencies] in H.
  { injection H as <-. split; [done|]. split; [constructor|]. by intros d ?%not_elem_of_nil. }
  case_bool_decide as Hs; [done|].
  run_ok H. injection H as <-. apply IH in Hu as (-> & Hnd & Hdis). rewrite fmap_cons.
  split; [done|]. split; [constructor; [|done]|].
  - intros Hin. apply (Hdis _ Hin). by apply elem_of_union_l, elem_of_singleton.
  - intros x [->|Hx]%elem_of_cons; [done|]. intros Hxs. apply (Hdis x Hx). by apply elem_of_union_r.
Qed.

Section Normalize.
Context {unicode : GoUnicode}.

(** What a trimmed input looks like, and how it comes from the submitted one. *)
Record step_of (input step : StepInput) : Prop := {
  step_key : Key step = TrimSpace (Key input) ∧ stepKeyPattern (Key step) = true;
  step_role : Role step = StepRoleImplementation ∨ Role step = StepRoleIntegration;
  step_text : Title step ≠ "" ∧ (String.length (Title step) ≤ 240)%nat ∧ (String.length (Objective step) ≤ 5000)%nat;
  step_order : Order step = Order input ∧ (0 ≤ Order step)%Z;
  step_idempotency : idempotencyKeyPattern (IdempotencyKey step) = true;
  step_criteria : AcceptanceCriteria step = TrimSpace <$> AcceptanceCriteria input ∧
    (1 ≤ length (AcceptanceCriteria step) ≤ 12)%nat ∧ NoDup (AcceptanceCriteria step) ∧
    Forall (λ c, c ≠ "" ∧ (String.length c ≤ 400)%nat) (AcceptanceCriteria step);
  step_requirements : normalizeEvidenceRequirements (EvidenceRequirements input) = Ok (EvidenceRequirements step);
  step_depends : DependsOn step = TrimSpace <$> DependsOn input ∧ NoDup (DependsOn step);
}.

Lemma normalizeInput_run input s step s' :
  normalizeInput input s = Ok (step, s') →
  step_of input step ∧ byKey s !! Key step = None ∧ Order step ∉ byOrder s ∧
  byKey s' = <[Key step := step]> (byKey s) ∧ byOrder s' = {[Order step]} ∪ byOrder s ∧
  dependencyCount s' = (dependencyCount s + length (DependsOn step))%nat.
Proof.
  unfold normalizeInput. intros H. run_ok H. injection H as <- <-.
  repeat match goal with Hu : fail_if _ _ = Ok _ |- _ => apply fail_if_ok in Hu end.
  rewrite ?orb_false_iff, ?negb_false_iff, ?Nat.ltb_ge, ?Z.ltb_ge, ?Nat.eqb_neq, ?bool_decide_eq_false,
    ?String.eqb_neq in *.
  apply normalizeCriteria_run in Hu9 as (-> & Hnd & _ & Hall).
  apply normalizeDependencies_run in Hu10 as (-> & Hndd & _).
  destruct (normalizeEvidenceRequirements (EvidenceRequirements input)) as [rs|e] eqn:Hrs; [|done].
  injection Hu8 as <-.
  cbn [Key Order DependsOn byKey byOrder dependencyCount].
  split; [|split; [by apply eq_None_not_Some|repeat split; done]].
  split; cbn [Key Role Order Title Objective AcceptanceCriteria EvidenceRequirements DependsOn IdempotencyKey]; try done.
  - apply andb_false_iff in Hu0 as [H|H]; apply negb_false_iff, String.eqb_eq in H; auto.
  - tauto.
  - rewrite length_fmap. unfold MaxAcceptanceCriteria in *. split; [done|]. split; [lia|done].
Qed.

(** The maps of the loop after [steps]. *)
Record seen_after (steps : list StepInput) (s s' : Seen) : Prop := {
  after_keys : NoDup (Key <$> steps) ∧ ∀ k, k ∈ Key <$> steps → byKey s !! k = None;
  after_orders : NoDup (Order <$> steps) ∧ ∀ z, z ∈ Order <$> steps → z ∉ byOrder s;
  after_byKey : byKey s' = list_to_map ((λ step, (Key step, step)) <$> steps) ∪ byKey s;
  after_count : dependencyCount s' = (dependencyCount s + sum_list (length <$> (DependsOn <$> steps)))%nat;
}.

Lemma normalizeInputs_run inputs : ∀ s steps s',
  normalizeInputs inputs s = Ok (steps, s') → Forall2 step_of inputs steps ∧ seen_after steps s s'.
Proof.
  induction inputs as [|input inputs IH]; intros s steps s' H; cbn [normalizeInputs] in H.
  { injection H as <- <-. split; [constructor|]. split; cbn.
    - split; [constructor|by intros k ?%not_elem_of_nil].
    - split; [constructor|by intros k ?%not_elem_of_nil].
    - by rewrite (left_id_L ∅ (∪)).
    - lia. }
  apply bind_ok in H as ([step s1] & H1 & H). apply bind_ok in H as ([rest s2] & H2 & H). injection H as <- <-.
  apply normalizeInput_run in H1 as (Hst & Hk & Ho & Hbk & Hbo & Hc).
  apply IH in H2 as (Hall & [[Hnk Hk2] [Hno Ho2] Hmap Hcount]). split; [by constructor|]. split; rewrite ?fmap_cons.
  - split.
    + constructor; [|done]. intros Hin%Hk2. rewrite Hbk, lookup_insert_eq in Hin. done.
    + intros k [->|Hin]%elem_of_cons; [done|]. apply Hk2 in Hin. rewrite Hbk, lookup_insert_None in Hin. by destruct Hin.
  - split.
    + constructor; [|done]. intros Hin. apply (Ho2 _ Hin). rewrite Hbo. by apply elem_of_union_l, elem_of_singleton.
    + intros z [->|Hin]%elem_of_cons; [done|]. intros Hz. apply (Ho2 z Hin). rewrite Hbo. by apply elem_of_union_r.
  - rewrite Hmap, Hbk. rewrite list_to_map_cons, <-insert_union_l, <-insert_union_r; [done|].
    apply not_elem_of_list_to_map_1. rewrite <-list_fmap_compose. intros Hin.
    assert (Key step ∈ Key <$> rest) as Hin' by exact Hin. apply Hk2 in Hin'. rewrite Hbk, lookup_insert_eq in Hin'. done.
  - rewrite Hcount, Hc. cbn [sum_list_with sum_list fmap list_fmap length]. cbn. lia.
Qed.
End Normalize.

(** ** The rows *)

(** Documented behaviour of [uuid.NewV4]: two calls never give the same identity. *)
Definition distinct_ids `{GoRuntime} : Prop := ∀ i j id, NewV4 i = Some id → NewV4 j = Some id → i = j.

Section Rows.
Context {runtime : GoRuntime} (plan : DeliveryPlan) (createdBy : string) (now : Z).

Record rows_of (n : nat) (ordered : list StepInput) (rows : list DeliveryPlanStep)
    (ids ids' : gmap string uuid) : Prop := {
  rows_steps : Forall2 (λ row step, row = stepRow plan createdBy now (Step_ID row) step) rows ordered;
  rows_drawn : ∀ row, row ∈ rows → ∃ i, (n ≤ i)%nat ∧ NewV4 i = Some (Step_ID row);
  rows_distinct : distinct_ids → NoDup (Step_ID <$> rows);
  rows_other : ∀ k, k ∉ Key <$> ordered → ids' !! k = ids !! k;
  rows_ids : NoDup (Key <$> ordered) → ∀ row, row ∈ rows → ids' !! StepKey row = Some (Step_ID row);
}.

Lemma buildSteps_run ordered : ∀ n ids rows ids' n',
  buildSteps plan createdBy now n ordered ids = Ok (rows, ids', n') → rows_of n ordered rows ids ids'.
Proof.
  induction ordered as [|step ordered IH]; intros n ids rows ids' n' H; cbn [buildSteps] in H.
  { injection H as <- <- <-. split; try done; [by intros row ?%not_elem_of_nil|constructor|].
    by intros _ row ?%not_elem_of_nil. }
  destruct (NewV4 n) as [id|] eqn:Hid; [|done].
  apply bind_ok in H as ([[rest ids1] n1] & H1 & H). injection H as <- <- <-. apply IH in H1 as [Hs Hd Hu Ho Hi].
  split; rewrite ?fmap_cons; cbn [Step_ID stepRow].
  - by constructor.
  - intros row [->|Hrow]%elem_of_cons; [by exists n|]. destruct (Hd row Hrow) as (i & ? & ?). exists i. split; [lia|done].
  - intros Hdist. constructor; [|auto]. intros (row & Heq & Hrow)%list_elem_of_fmap.
    destruct (Hd row Hrow) as (i & Hle & Hi'). rewrite <-Heq in Hi'. pose proof (Hdist _ _ _ Hid Hi'). lia.
  - intros k Hk. rewrite not_elem_of_cons in Hk. destruct Hk as [Hne Hk]. rewrite Ho by done. by rewrite lookup_insert_ne.
  - intros [Hk Hnd]%NoDup_cons row [->|Hrow]%elem_of_cons; [|auto]. cbn [StepKey Step_ID stepRow].
    rewrite Ho by done. by rewrite lookup_insert_eq.
Qed.

Lemma buildDependencies_run edges : ∀ n ids deps,
  buildDependencies plan now n edges ids = Ok deps →
  Forall2 (λ dep e, Dependency_PlanID dep = Plan_ID plan ∧ StepID dep = idOf ids e.1 ∧ DependsOnStepID dep = idOf ids e.2)
    deps edges.
Proof.
  induction edges as [|[k d] edges IH]; intros n ids deps H; cbn [buildDependencies] in H.
  { injection H as <-. constructor. }
  destruct (NewV4 n) as [id|]; [|done]. run_ok H. injection H as <-. constructor; [done|]. by eapply IH.
Qed.
End Rows.

Lemma elem_of_orderedEdges ordered k d :
  (k, d) ∈ orderedEdges ordered ↔ ∃ step, step ∈ ordered ∧ Key step = k ∧ d ∈ DependsOn step.
Proof.
  unfold orderedEdges. induction ordered as [|step ordered IH].
  { cbn. rewrite elem_of_nil. split; [done|]. by intros (? & ?%not_elem_of_nil & _). }
  rewrite fmap_cons. cbn [concat]. rewrite elem_of_app, IH. split.
  - intros [(d' & [= -> ->] & Hd)%list_elem_of_fmap|(st & Hin & ? & ?)].
    + exists step. split; [by left|]. split; [done|]. revert Hd. unfold sort_strings. by rewrite sort_key_perm.
    + exists st. split; [by right|done].
  - intros (st & [->|Hin]%elem_of_cons & <- & Hd); [left|right; eauto].
    apply list_elem_of_fmap. exists d. split; [done|]. unfold sort_strings. by rewrite sort_key_perm.
Qed.

(** ** The loop's map and the list it returns *)

Section StepMap.
Context (steps : list StepInput) (Hkeys : NoDup (Key <$> steps)).
Abbreviation step_map := (list_to_map ((λ step, (Key step, step)) <$> steps) : gmap string StepInput).

Lemma step_map_lookup k step : step_map !! k = Some step ↔ step ∈ steps ∧ Key step = k.
Proof.
  rewrite <-elem_of_list_to_map.
  - rewrite list_elem_of_fmap. split; [intros (s & [= -> ->] & ?); done|intros [? <-]; eauto].
  - by rewrite <-list_fmap_compose.
Qed.
Lemma step_map_at step : step ∈ steps → stepAt step_map (Key step) = step.
Proof. intros Hs. unfold stepAt. by rewrite (proj2 (step_map_lookup (Key step) step)). Qed.
Lemma step_map_known k : known step_map k ↔ k ∈ Key <$> steps.
Proof.
  unfold known. rewrite list_elem_of_fmap. split.
  - intros [step [? <-]%step_map_lookup]. eauto.
  - intros (step & -> & ?). exists step. by rewrite step_map_lookup.
Qed.
Lemma step_map_edge k d : edge step_map k d ↔ ∃ step, step ∈ steps ∧ Key step = k ∧ d ∈ DependsOn step.
Proof.
  unfold edge. split.
  - destruct (step_map !! k) as [step|] eqn:Hk.
    + unfold stepAt. rewrite Hk. cbn. intros Hd. apply step_map_lookup in Hk as [? ?]. eauto.
    + unfold stepAt. rewrite Hk. cbn. by intros ?%not_elem_of_nil.
  - intros (step & Hin & <- & Hd). by rewrite step_map_at.
Qed.
End StepMap.

Lemma slug_no_nul c : is_lower c = true ∨ is_slug c = true → negb (byte_is 0 c) = true.
Proof. destruct c as [[] [] [] [] [] [] [] []]; vm_compute; tauto. Qed.
Lemma stepKeyPattern_no_nul s : stepKeyPattern s = true → no_nul s.
Proof.
  destruct s as [|c s]; [done|]. unfold stepKeyPattern, re_ident, no_nul, all_bytes. rewrite !andb_true_iff.
  intros [[[Hc Hs] _] _]. cbn [String.list_ascii_of_string forallb]. rewrite slug_no_nul by auto. cbn [andb].
  rewrite forallb_forall in *. intros x Hx. apply slug_no_nul. auto.
Qed.

(** ** Steps in the order of [sort.Slice] *)

Definition order_less (a b : StepInput) : bool := Z.ltb (Order a) (Order b).
Lemma order_sorted steps :
  NoDup (Order <$> steps) → StronglySorted Z.lt (Order <$> sort_by order_less steps).
Proof.
  intros Hnd. assert (StronglySorted (not_less order_less) (sort_by order_less steps)) as Hs.
  { apply sort_by_sorted.
    - intros x y z. unfold not_less, order_less. rewrite !Z.ltb_ge. lia.
    - intros x y. unfold order_less. rewrite Z.ltb_lt, Z.ltb_ge. lia. }
  rewrite <-(sort_by_perm order_less steps) in Hnd. induction Hs as [|x l Hs IH Hall]; [constructor|].
  rewrite fmap_cons in *. apply NoDup_cons in Hnd as [Hx Hnd]. constructor; [auto|].
  apply Forall_forall. intros z (y & -> & Hy)%list_elem_of_fmap.
  rewrite Forall_forall in Hall. specialize (Hall y Hy).
  unfold not_less, order_less in Hall. apply Z.ltb_ge in Hall.
  assert (Order x ≠ Order y); [|lia]. intros Heq. apply Hx, list_elem_of_fmap. eauto.
Qed.

(** ** What a successful [Normalize] went through *)

(** The row [a] has a stored dependency on the row [b]. *)
Definition depends (np : NormalizedPlan) (a b : uuid) : Prop :=
  ∃ dep, dep ∈ Dependencies np ∧ StepID dep = a ∧ DependsOnStepID dep = b.

Section Result.
Context {unicode : GoUnicode} {runtime : GoRuntime} {map_range : GoMapRange}.

Abbreviation graph_of steps := (list_to_map ((λ step, (Key step, step)) <$> steps) : gmap string StepInput).

(** The trimmed inputs [steps], the identity of each key, the rows. *)
Record normalized (plan : DeliveryPlan) (createdBy : string) (inputs : list StepInput) (now : Z)
    (steps : list StepInput) (ids : gmap string uuid) (np : NormalizedPlan) : Prop := {
  norm_inputs : Forall2 step_of inputs steps;
  norm_size : (length inputs ≤ 100)%nat ∧ (sum_list (length <$> (DependsOn <$> steps)) ≤ 500)%nat;
  norm_keys : NoDup (Key <$> steps);
  norm_orders : NoDup (Order <$> steps);
  norm_dag : dag_ok (graph_of steps);
  norm_integration : integration_ok (graph_of steps);
  norm_rows : rows_of plan (TrimSpace createdBy) (if Z.eqb now 0 then Now else now) 0
    (sort_by order_less steps) (Steps np) ∅ ids;
  norm_edges : Forall2 (λ dep e, Dependency_PlanID dep = Plan_ID plan ∧ StepID dep = idOf ids e.1 ∧
      DependsOnStepID dep = idOf ids e.2) (Dependencies np) (orderedEdges (sort_by order_less steps));
}.

Lemma Forall2_no_nul inputs steps : Forall2 step_of inputs steps → ∀ k, k ∈ Key <$> steps → no_nul k.
Proof.
  intros Hall k (step & -> & Hin)%list_elem_of_fmap. apply list_elem_of_lookup in Hin as [i Hi].
  destruct (Forall2_lookup_r _ _ _ _ _ Hall Hi) as (input & _ & Hst).
  apply stepKeyPattern_no_nul, (step_key _ _ Hst).
Qed.

(** The loops over the inputs do not depend on the identities drawn. *)
Definition normal_inputs (inputs steps : list StepInput) : Prop :=
  ∃ seen, normalizeInputs inputs {| byKey := ∅; byOrder := ∅; byIdempotencyKey := ∅; dependencyCount := 0 |} = Ok (steps, seen).
Lemma Normalize_inputs plan createdBy inputs now np :
  Normalize plan createdBy inputs now = Ok np →
  ∃ steps ids, normal_inputs inputs steps ∧ normalized plan createdBy inputs now steps ids np.
Proof.
  unfold Normalize. intros H. apply bind_ok in H as ([] & _ & H). apply bind_ok in H as ([] & Hlen & H).
  apply bind_ok in H as ([] & _ & H). apply bind_ok in H as ([steps seen] & Hin & H).
  apply bind_ok in H as ([] & Hcount & H). apply bind_ok in H as ([] & Hdag & H).
  apply bind_ok in H as ([] & Hint & H). apply bind_ok in H as ([[rows ids] n] & Hrows & H).
  apply bind_ok in H as (deps & Hdeps & H). injection H as <-.
  apply fail_if_ok, Nat.ltb_ge in Hlen. apply fail_if_ok, Nat.ltb_ge in Hcount.
  pose proof Hin as Hin'. apply normalizeInputs_run in Hin as (Hall & [[Hk _] [Ho _] Hmap Hc]).
  cbn [byKey dependencyCount] in *. rewrite (right_id_L ∅ (∪)) in Hmap. rewrite Hc in Hcount. rewrite Hmap in *.
  exists steps, ids. split; [by exists seen|]. split; try done.
  - destruct (validateDAG_run (graph_of steps)) as [_ Hr]. by rewrite Hdag in Hr.
  - by apply validateIntegrationGraph_iff.
  - by apply buildSteps_run in Hrows.
  - by eapply buildDependencies_run.
Qed.
Lemma Normalize_run plan createdBy inputs now np :
  Normalize plan createdBy inputs now = Ok np → ∃ steps ids, normalized plan createdBy inputs now steps ids np.
Proof. intros (steps & ids & _ & Hn)%Normalize_inputs. by exists steps, ids. Qed.

Section Rows.
Context {plan createdBy inputs now steps ids np} (Hn : normalized plan createdBy inputs now steps ids np)
  (Hdist : distinct_ids).

Lemma row_step row : row ∈ Steps np → ∃ step, step ∈ steps ∧
  row = stepRow plan (TrimSpace createdBy) (if Z.eqb now 0 then Now else now) (Step_ID row) step.
Proof.
  intros [i Hi]%list_elem_of_lookup.
  destruct (Forall2_lookup_l _ _ _ _ _ (rows_steps _ _ _ _ _ _ _ _ (norm_rows _ _ _ _ _ _ _ Hn)) Hi) as (step & Hs & Heq).
  exists step. split; [|done]. apply list_elem_of_lookup_2 in Hs. by rewrite sort_by_perm in Hs.
Qed.
Lemma step_row step : step ∈ steps → ∃ row, row ∈ Steps np ∧
  row = stepRow plan (TrimSpace createdBy) (if Z.eqb now 0 then Now else now) (Step_ID row) step.
Proof.
  rewrite <-(sort_by_perm order_less steps). intros [i Hi]%list_elem_of_lookup.
  destruct (Forall2_lookup_r _ _ _ _ _ (rows_steps _ _ _ _ _ _ _ _ (norm_rows _ _ _ _ _ _ _ Hn)) Hi) as (row & Hr & Heq).
  exists row. split; [|done]. by apply list_elem_of_lookup_2 in Hr.
Qed.

Lemma ordered_keys : NoDup (Key <$> sort_by order_less steps).
Proof. rewrite sort_by_perm. by eapply norm_keys. Qed.
Lemma row_id row : row ∈ Steps np → idOf ids (StepKey row) = Step_ID row.
Proof.
  intros Hr. unfold idOf. by rewrite (rows_ids _ _ _ _ _ _ _ _ (norm_rows _ _ _ _ _ _ _ Hn) ordered_keys row Hr).
Qed.

(** Fields of all rows, read through the steps. *)
Lemma rows_field {A} (f : DeliveryPlanStep → A) (g : StepInput → A) :
  (∀ id step, f (stepRow plan (TrimSpace createdBy) (if Z.eqb now 0 then Now else now) id step) = g step) →
  f <$> Steps np = g <$> sort_by order_less steps.
Proof.
  intros Hfg. pose proof (rows_steps _ _ _ _ _ _ _ _ (norm_rows _ _ _ _ _ _ _ Hn)) as Hall.
  induction Hall as [|row step rows l -> _ IH]; [done|]. by rewrite !fmap_cons, IH, Hfg.
Qed.

(** Two rows with one identity are the same row. *)
Lemma row_unique r1 r2 : r1 ∈ Steps np → r2 ∈ Steps np → Step_ID r1 = Step_ID r2 → r1 = r2.
Proof.
  intros [i Hi]%list_elem_of_lookup [j Hj]%list_elem_of_lookup Heq.
  pose proof (rows_distinct _ _ _ _ _ _ _ _ (norm_rows _ _ _ _ _ _ _ Hn) Hdist) as Hnd.
  assert (i = j) as ->; [|congruence]. eapply (NoDup_lookup (Step_ID <$> Steps np)); [done|..]; rewrite list_lookup_fmap.
  - by rewrite Hi.
  - by rewrite Hj, Heq.
Qed.

Lemma row_known row : row ∈ Steps np → known (graph_of steps) (StepKey row).
Proof.
  intros (step & Hs & ->)%row_step. apply step_map_known; [by eapply norm_keys|]. apply list_elem_of_fmap. by exists step.
Qed.
Lemma known_row k : known (graph_of steps) k → ∃ row, row ∈ Steps np ∧ StepKey row = k.
Proof.
  rewrite step_map_known by (by eapply norm_keys). intros (step & -> & Hs)%list_elem_of_fmap.
  destruct (step_row step Hs) as (row & Hr & Heq). exists row. split; [done|]. by rewrite Heq.
Qed.

(** The stored dependencies are the edges of the graph. *)
Lemma depends_edge a b :
  depends np a b ↔ ∃ ra rb, ra ∈ Steps np ∧ rb ∈ Steps np ∧ a = Step_ID ra ∧ b = Step_ID rb ∧
                     edge (graph_of steps) (StepKey ra) (StepKey rb).
Proof.
  pose proof (norm_edges _ _ _ _ _ _ _ Hn) as Hall. split.
  - intros (dep & [i Hi]%list_elem_of_lookup & <- & <-).
    destruct (Forall2_lookup_l _ _ _ _ _ Hall Hi) as ([k d] & Hs & _ & -> & ->). cbn [fst snd].
    apply list_elem_of_lookup_2, elem_of_orderedEdges in Hs as (step & Hs & <- & Hd). rewrite sort_by_perm in Hs.
    assert (edge (graph_of steps) (Key step) d) as He.
    { apply step_map_edge; [by eapply norm_keys|]. by exists step. }
    assert (known (graph_of steps) (Key step)) as Hk.
    { apply step_map_known; [by eapply norm_keys|]. apply list_elem_of_fmap. by exists step. }
    destruct (known_row _ Hk) as (ra & Hra & Heqa).
    destruct (known_row d (dag_known _ (norm_dag _ _ _ _ _ _ _ Hn) _ _ Hk He)) as (rb & Hrb & Heqb).
    exists ra, rb. rewrite <-!row_id, Heqa, Heqb by done. done.
  - intros (ra & rb & Hra & Hrb & -> & -> & He). apply step_map_edge in He as (step & Hs & Hk & Hd); [|by eapply norm_keys].
    assert ((StepKey ra, StepKey rb) ∈ orderedEdges (sort_by order_less steps)) as [i Hi]%list_elem_of_lookup.
    { apply elem_of_orderedEdges. exists step. by rewrite sort_by_perm. }
    destruct (Forall2_lookup_r _ _ _ _ _ Hall Hi) as (dep & Hdep & _ & H1 & H2). cbn [fst snd] in *.
    exists dep. split; [by apply list_elem_of_lookup_2 in Hdep|]. by rewrite H1, H2, !row_id.
Qed.

Lemma depends_tc a b : tc (depends np) a b →
  ∃ ra rb, ra ∈ Steps np ∧ rb ∈ Steps np ∧ a = Step_ID ra ∧ b = Step_ID rb ∧ tc (edge (graph_of steps)) (StepKey ra) (StepKey rb).
Proof.
  induction 1 as [a b (ra & rb & ? & ? & ? & ? & ?)%depends_edge|a b c (ra & rb & ? & ? & ? & Hb & ?)%depends_edge _ IH].
  - exists ra, rb. repeat (split; [done|]). by apply tc_once.
  - destruct IH as (rb' & rc & Hrb' & ? & Hb' & ? & Htc). exists ra, rc. repeat (split; [done|]).
    assert (rb = rb') as -> by (apply row_unique; congruence). by eapply tc_l.
Qed.

Lemma depends_acyclic a : ¬ tc (depends np) a a.
Proof.
  intros (ra & rb & Hra & Hrb & -> & Heq & Htc)%depends_tc.
  rewrite (row_unique ra rb) in Htc by done. by apply (dag_acyclic _ (norm_dag _ _ _ _ _ _ _ Hn)) in Htc.
Qed.
End Rows.
End Result.

(** ** The contract of [Normalize] *)

Lemma orderedEdges_length l : length (orderedEdges l) = sum_list (length <$> (DependsOn <$> l)).
Proof.
  unfold orderedEdges. induction l as [|step l IH]; [done|]. rewrite !fmap_cons. cbn [concat sum_list sum_list_with].
  rewrite length_app, IH, length_fmap. unfold sort_strings. by rewrite sort_key_perm.
Qed.
Lemma orderedEdges_perm l1 l2 : l1 ≡ₚ l2 → length (orderedEdges l1) = length (orderedEdges l2).
Proof.
  unfold orderedEdges. induction 1; rewrite ?fmap_cons; cbn [concat]; rewrite ?length_app; lia.
Qed.

Record sound_plan {unicode : GoUnicode} (plan : DeliveryPlan) (inputs : list StepInput) (np : NormalizedPlan) : Prop := {
  (** one row for each input, one dependency row for each listed dependency *)
  sound_size : length (Steps np) = length inputs ∧ (length inputs ≤ 100)%nat ∧ (length (Dependencies np) ≤ 500)%nat;
  sound_order : StronglySorted Z.lt (DisplayOrder <$> Steps np) ∧ DisplayOrder <$> Steps np ≡ₚ Order <$> inputs;
  sound_keys : NoDup (StepKey <$> Steps np) ∧ StepKey <$> Steps np ≡ₚ (λ input, TrimSpace (Key input)) <$> inputs;
  sound_ids : NoDup (Step_ID <$> Steps np);
  sound_fresh : ∀ row, row ∈ Steps np → Step_PlanID row = Plan_ID plan ∧ Status row = DeliveryPlanStepPlanned ∧
    LeaseFence row = 0%Z ∧ LeaseExpiresAt row = None ∧ AutomationTaskID row = None ∧ CreatedAt row = UpdatedAt row;
  sound_depends : ∀ a b, depends np a b ↔ ∃ ra rb input, ra ∈ Steps np ∧ rb ∈ Steps np ∧ input ∈ inputs ∧
    a = Step_ID ra ∧ b = Step_ID rb ∧ StepKey ra = TrimSpace (Key input) ∧ StepKey rb ∈ TrimSpace <$> DependsOn input;
  sound_acyclic : ∀ a, ¬ tc (depends np) a a;
  sound_integration : inputs ≠ [] → ∃ row, row ∈ Steps np ∧ Step_Role row = StepRoleIntegration ∧
    ∀ other, other ∈ Steps np → other = row ∨
      Step_Role other = StepRoleImplementation ∧ (DisplayOrder other < DisplayOrder row)%Z ∧
      ¬ depends np (Step_ID other) (Step_ID row);
}.

Section Sound.
Context {unicode : GoUnicode} {runtime : GoRuntime} {map_range : GoMapRange}.
Context {plan createdBy inputs now steps ids np} (Hn : normalized plan createdBy inputs now steps ids np)
  (Hdist : distinct_ids).

Lemma inputs_field {A} (f : StepInput → A) (g : StepInput → A) :
  (∀ input step, step_of input step → g step = f input) → g <$> steps = f <$> inputs.
Proof.
  intros Hfg. pose proof (norm_inputs _ _ _ _ _ _ _ Hn) as Hall.
  clear Hn. induction Hall as [|input step l k Hst _ IH]; [done|]. by rewrite !fmap_cons, IH, (Hfg input step).
Qed.

Lemma edge_inputs ka kb : edge (list_to_map ((λ step, (Key step, step)) <$> steps)) ka kb ↔
  ∃ input, input ∈ inputs ∧ ka = TrimSpace (Key input) ∧ kb ∈ TrimSpace <$> DependsOn input.
Proof.
  pose proof (norm_inputs _ _ _ _ _ _ _ Hn) as Hall. rewrite step_map_edge by (by eapply norm_keys). split.
  - intros (step & [i Hi]%list_elem_of_lookup & <- & Hd). destruct (Forall2_lookup_r _ _ _ _ _ Hall Hi) as (input & Hin & Hst).
    exists input. split; [by apply list_elem_of_lookup_2 in Hin|]. split; [apply (step_key _ _ Hst)|].
    by rewrite <-(proj1 (step_depends _ _ Hst)).
  - intros (input & [i Hi]%list_elem_of_lookup & -> & Hd). destruct (Forall2_lookup_l _ _ _ _ _ Hall Hi) as (step & Hin & Hst).
    exists step. split; [by apply list_elem_of_lookup_2 in Hin|]. split; [apply (step_key _ _ Hst)|].
    by rewrite (proj1 (step_depends _ _ Hst)).
Qed.

Lemma rows_integration : inputs ≠ [] → ∃ row, row ∈ Steps np ∧ Step_Role row = StepRoleIntegration ∧
  ∀ other, other ∈ Steps np → other = row ∨
    Step_Role other = StepRoleImplementation ∧ (DisplayOrder other < DisplayOrder row)%Z ∧
    ¬ depends np (Step_ID other) (Step_ID row).
Proof.
  intros Hne. pose proof (norm_inputs _ _ _ _ _ _ _ Hn) as Hall. pose proof (norm_keys _ _ _ _ _ _ _ Hn) as Hkeys.
  destruct (norm_integration _ _ _ _ _ _ _ Hn) as [He|[ik Hcl]].
  { destruct Hall as [|input step l k _ _]; [done|]. apply (f_equal (lookup (Key step))) in He.
    rewrite lookup_empty, (proj2 (step_map_lookup _ Hkeys (Key step) step)) in He; [done|]. split; [by left|done]. }
  destruct (closed_step _ _ Hcl) as [Hk Hr]. destruct (known_row Hn ik Hk) as (row & Hrow & <-).
  destruct (row_step Hn row Hrow) as (step & Hs & Heq). exists row. split; [done|].
  assert (Key step = StepKey row) as Hkey by (by rewrite Heq).
  rewrite <-Hkey, step_map_at in Hr by done. split; [by rewrite Heq|].
  intros other Hother. destruct (decide (StepKey other = StepKey row)) as [Hsame|Hdiff]; [left|right].
  - apply (row_unique Hn Hdist); [done..|]. by rewrite <-!(row_id Hn), Hsame.
  - destruct (row_step Hn other Hother) as (st & Hst & Heq').
    assert (Key st = StepKey other) as Hkey' by (by rewrite Heq').
    pose proof (closed_roles _ _ Hcl _ (row_known Hn other Hother) Hdiff) as Hp.
    pose proof (proj2 (closed_last _ _ Hcl) _ Hp) as Ho. pose proof Hp as [_ Hpr].
    rewrite <-Hkey, <-Hkey', !step_map_at in Ho by done. rewrite <-Hkey', step_map_at in Hpr by done.
    split; [by rewrite Heq'|]. split; [by rewrite Heq, Heq'|].
    intros (ra & rb & Hra & Hrb & Ha & Hb & He)%(depends_edge Hn).
    apply (row_unique Hn Hdist) in Ha as <-, Hb as <-; [|done..]. by apply (closed_forward _ _ Hcl _ Hp).
Qed.

Lemma normalized_sound : sound_plan plan inputs np.
Proof.
  split.
  - pose proof (f_equal length (rows_field Hn StepKey Key (λ _ _, eq_refl))) as Hl. rewrite !length_fmap, sort_by_length in Hl.
    pose proof (Forall2_length _ _ _ (norm_inputs _ _ _ _ _ _ _ Hn)) as Hl2.
    destruct (norm_size _ _ _ _ _ _ _ Hn) as [H1 H2]. split; [congruence|]. split; [done|].
    rewrite (Forall2_length _ _ _ (norm_edges _ _ _ _ _ _ _ Hn)).
    by rewrite (orderedEdges_perm _ _ (sort_by_perm order_less steps)), orderedEdges_length.
  - rewrite (rows_field Hn DisplayOrder Order (λ _ _, eq_refl)). split.
    + apply order_sorted. by eapply norm_orders.
    + rewrite sort_by_perm. rewrite (inputs_field Order Order); [done|]. intros input step Hst. apply (step_order _ _ Hst).
  - rewrite (rows_field Hn StepKey Key (λ _ _, eq_refl)). split; [by eapply ordered_keys|].
    rewrite sort_by_perm. rewrite (inputs_field (λ input, TrimSpace (Key input)) Key); [done|].
    intros input step Hst. apply (step_key _ _ Hst).
  - apply (rows_distinct _ _ _ _ _ _ _ _ (norm_rows _ _ _ _ _ _ _ Hn) Hdist).
  - intros row (step & _ & ->)%(row_step Hn). done.
  - intros a b. rewrite (depends_edge Hn). split.
    + intros (ra & rb & ? & ? & ? & ? & (input & ? & ? & ?)%edge_inputs). by exists ra, rb, input.
    + intros (ra & rb & input & ? & ? & ? & ? & ? & ? & ?). exists ra, rb. repeat (split; [done|]).
      apply edge_inputs. by exists input.
  - intros a. by apply (depends_acyclic Hn Hdist).
  - apply rows_integration.
Qed.
End Sound.
