(* ===== verification/Workflow.v ===== *)
(** * The delivery lifecycle: [services/deliveryworkflow/workflow.go]

    A work item moves between the states of the file by [Advance], which asks for a gate
    decision (plan, code review, QA, release) wherever the [transitions] table names one.
    The Go function writes the item and the gate through pointers: the model returns both,
    also with an error, since a gate may be completed before it is refused. *)
From stdpp Require Import base tactics list strings relations.
From S2P Require Import Prelude GoStrings.
Open Scope string_scope.

Definition StatePlanning : string := "planning".
Definition StatePlanReview : string := "plan_review".
Definition StateImplementation : string := "implementation".
Definition StateCodeReview : string := "code_review".
Definition StatePreviewPending : string := "preview_pending".
Definition StateQARunning : string := "qa_running".
Definition StateQAReview : string := "qa_review".
Definition StateReleaseReview : string := "release_review".
Definition StateReleased : string := "released".
Definition StateAssessed : string := "assessed".
Definition StateBlocked : string := "blocked".
Definition StateCancelled : string := "cancelled".

Definition GatePlan : string := "plan".
Definition GateCodeReview : string := "code_review".
Definition GateQAReview : string := "qa_review".
Definition GateRelease : string := "release".

Definition DecisionApproved : string := "approved".
Definition DecisionChangesRequested : string := "changes_requested".

Definition Action := string.
Definition ActionSubmitPlan : Action := "submit_plan".
Definition ActionApprovePlan : Action := "approve_plan".
Definition ActionRequestPlanChanges : Action := "request_plan_changes".
Definition ActionSubmitCodeReview : Action := "submit_code_review".
Definition ActionApproveCodeReview : Action := "approve_code_review".
Definition ActionRequestCodeChanges : Action := "request_code_changes".
Definition ActionPreviewReady : Action := "preview_ready".
Definition ActionSubmitQA : Action := "submit_qa".
Definition ActionApproveQA : Action := "approve_qa".
Definition ActionRequestQAChanges : Action := "request_qa_changes".
Definition ActionApproveRelease : Action := "approve_release".
Definition ActionSubmitAssessment : Action := "submit_assessment".
Definition ActionBlock : Action := "block".
Definition ActionCancel : Action := "cancel".

Record transition := { from : string; to : string; gateKind : string; decision : string }.

Definition transitions : list (Action * transition) :=
  let plain a b := {| from := a; to := b; gateKind := ""; decision := "" |} in
  let gated a b k d := {| from := a; to := b; gateKind := k; decision := d |} in
  [(ActionSubmitPlan, plain StatePlanning StatePlanReview);
   (ActionApprovePlan, gated StatePlanReview StateImplementation GatePlan DecisionApproved);
   (ActionRequestPlanChanges, gated StatePlanReview StatePlanning GatePlan DecisionChangesRequested);
   (ActionSubmitCodeReview, plain StateImplementation StateCodeReview);
   (ActionApproveCodeReview, gated StateCodeReview StatePreviewPending GateCodeReview DecisionApproved);
   (ActionRequestCodeChanges, gated StateCodeReview StateImplementation GateCodeReview DecisionChangesRequested);
   (ActionPreviewReady, plain StatePreviewPending StateQARunning);
   (ActionSubmitQA, plain StateQARunning StateQAReview);
   (ActionApproveQA, gated StateQAReview StateReleaseReview GateQAReview DecisionApproved);
   (ActionRequestQAChanges, gated StateQAReview StateImplementation GateQAReview DecisionChangesRequested);
   (ActionApproveRelease, gated StateReleaseReview StateReleased GateRelease DecisionApproved);
   (ActionSubmitAssessment, plain StateImplementation StateAssessed)].
(** [transitions[action]] *)
Fixpoint lookupRule (rules : list (Action * transition)) (action : Action) : option transition :=
  match rules with
  | [] => None
  | (a, rule) :: rest => if String.eqb a action then Some rule else lookupRule rest action
  end.

(** [models.DeliveryWorkItem] and [models.DeliveryGate]: the fields [Advance] reads or writes. *)
Record DeliveryWorkItem := { Item_ID : uuid; State : string }.
Record DeliveryGate := {
  Gate_WorkItemID : uuid;
  Kind : string;
  Decision : string;
  Authority : string;
  DecidedBy : string;
  DecidedAt : Z;
}.

Inductive AdvanceError :=
| ItemRequired
| CannotBlockTerminal (state : string)
| CannotCancelTerminal (state : string)
| UnsupportedAction (action : Action)
| ActionNotAllowed (action : Action) (state : string)
| GateNotAccepted
| GateRequired (kind : string)
| GateOfAnotherItem
| GateMismatch (kind decision : string)
| DeciderRequired
| AuthorityInvalid.

Definition isTerminal (state : string) : bool :=
  String.eqb state StateReleased || String.eqb state StateAssessed || String.eqb state StateCancelled.

Section Workflow.
Context {unicode : GoUnicode}.

(** The gate as left behind (authority and decision time filled in) and the verdict. *)
Definition validateGate (item : DeliveryWorkItem) (gate : option DeliveryGate) (rule : transition) (now : Z) :
    option DeliveryGate * option AdvanceError :=
  if String.eqb (gateKind rule) "" then
    match gate with Some _ => (gate, Some GateNotAccepted) | None => (gate, None) end
  else match gate with
  | None => (gate, Some (GateRequired (gateKind rule)))
  | Some g =>
      if negb (N.eqb (Gate_WorkItemID g) (Item_ID item)) then (gate, Some GateOfAnotherItem)
      else if negb (String.eqb (TrimSpace (Kind g)) (gateKind rule)) ||
              negb (String.eqb (TrimSpace (Decision g)) (decision rule))
      then (gate, Some (GateMismatch (gateKind rule) (decision rule)))
      else if String.eqb (TrimSpace (DecidedBy g)) "" then (gate, Some DeciderRequired)
      else
        let given := ToLower (TrimSpace (Authority g)) in
        let historic := String.eqb given "" in
        let authority := if historic then "human" else given in
        let g := {| Gate_WorkItemID := Gate_WorkItemID g; Kind := Kind g; Decision := Decision g;
                    Authority := if historic then "human" else Authority g;
                    DecidedBy := DecidedBy g; DecidedAt := DecidedAt g |} in
        if negb (String.eqb authority "human") && negb (String.eqb authority "delegated")
        then (Some g, Some AuthorityInvalid)
        else
          (Some {| Gate_WorkItemID := Gate_WorkItemID g; Kind := Kind g; Decision := Decision g;
                   Authority := Authority g; DecidedBy := DecidedBy g;
                   DecidedAt := if Z.eqb (DecidedAt g) 0 then now else DecidedAt g |}, None)
  end.

Definition moveTo (state : string) (item : DeliveryWorkItem) : DeliveryWorkItem :=
  {| Item_ID := Item_ID item; State := state |}.

Definition Advance (item : option DeliveryWorkItem) (action : Action) (gate : option DeliveryGate) (now : Z) :
    option DeliveryWorkItem * option DeliveryGate * option AdvanceError :=
  match item with
  | None => (item, gate, Some ItemRequired)
  | Some it =>
      let trimmed := TrimSpace (State it) in
      let state := if String.eqb trimmed "" then StatePlanning else trimmed in
      if String.eqb action ActionBlock then
        if isTerminal state then (item, gate, Some (CannotBlockTerminal state))
        else (Some (moveTo StateBlocked it), gate, None)
      else if String.eqb action ActionCancel then
        if isTerminal state then (item, gate, Some (CannotCancelTerminal state))
        else (Some (moveTo StateCancelled it), gate, None)
      else match lookupRule transitions action with
      | None => (item, gate, Some (UnsupportedAction action))
      | Some rule =>
          if negb (String.eqb state (from rule)) then (item, gate, Some (ActionNotAllowed action state))
          else match validateGate it gate rule now with
               | (gate', Some e) => (item, gate', Some e)
               | (gate', None) => (Some (moveTo (to rule) it), gate', None)
               end
      end
  end.
End Workflow.
