(* ===== verification/WorkflowTheorems.v ===== *)
(** * Theorems on the delivery lifecycle

    A run is a sequence of successful [Advance] calls on one work item, with the gates as the
    calls left them.  No run reaches the released state without the four approvals in order;
    terminal states are final; and a release stays possible exactly from the working states. *)
From stdpp Require Import base tactics list strings relations.
From S2P Require Import Prelude GoStrings Workflow.
Open Scope string_scope.

(** The state an item counts as: a blank state is planning. *)
Definition current (it : DeliveryWorkItem) : string :=
  if String.eqb (TrimSpace (State it)) "" then StatePlanning else TrimSpace (State it).

Definition known_states : list string :=
  [StatePlanning; StatePlanReview; StateImplementation; StateCodeReview; StatePreviewPending; StateQARunning;
   StateQAReview; StateReleaseReview; StateReleased; StateAssessed; StateBlocked; StateCancelled].

Lemma current_moveTo s it : s ∈ known_states → current (moveTo s it) = s.
Proof.
  intros Hs%list_elem_of_In. cbn in Hs. unfold current, moveTo. cbn [State].
  repeat (destruct Hs as [<-|Hs]; [reflexivity|]). done.
Qed.

Section Runs.
Context {unicode : GoUnicode}.

Inductive run (it : DeliveryWorkItem) : list (Action * option DeliveryGate) → DeliveryWorkItem → Prop :=
| run_start : run it [] it
| run_advance log it1 action gate now it2 gate' :
    run it log it1 → Advance (Some it1) action gate now = (Some it2, gate', None) →
    run it (log ++ [(action, gate')]) it2.

(** A success follows block, cancel or a rule of the table. *)
Inductive move (it : DeliveryWorkItem) (gate gate' : option DeliveryGate) (now : Z) : string → Prop :=
| move_block : isTerminal (current it) = false → gate' = gate → move it gate gate' now StateBlocked
| move_cancel : isTerminal (current it) = false → gate' = gate → move it gate gate' now StateCancelled
| move_rule action rule : (action, rule) ∈ transitions → current it = from rule →
    validateGate it gate rule now = (gate', None) → move it gate gate' now (to rule).

Lemma lookupRule_elem rules action rule : lookupRule rules action = Some rule → (action, rule) ∈ rules.
Proof.
  induction rules as [|[a r] rules IH]; cbn; [done|].
  destruct (String.eqb_spec a action) as [->|]; [intros [= ->]; by left|]. intros H. right. auto.
Qed.

Lemma Advance_move it action gate now it2 gate' :
  Advance (Some it) action gate now = (Some it2, gate', None) →
  ∃ s, move it gate gate' now s ∧ it2 = moveTo s it.
Proof.
  unfold Advance. fold (current it).
  destruct (String.eqb action ActionBlock).
  { destruct (isTerminal (current it)) eqn:Ht; intros [= <- <-]. exists StateBlocked. split; [by apply move_block|done]. }
  destruct (String.eqb action ActionCancel).
  { destruct (isTerminal (current it)) eqn:Ht; intros [= <- <-]. exists StateCancelled. split; [by apply move_cancel|done]. }
  destruct (lookupRule transitions action) as [rule|] eqn:Hr; [|done].
  destruct (String.eqb_spec (current it) (from rule)) as [Hf|]; [|done]. cbn [negb].
  destruct (validateGate it gate rule now) as [g [e|]] eqn:Hg; intros [= <- <-].
  exists (to rule). split; [|done]. by apply (move_rule _ _ _ _ action); [apply lookupRule_elem| |].
Qed.

Lemma move_known it gate gate' now s : move it gate gate' now s → s ∈ known_states.
Proof.
  intros [_ _|_ _|action rule Hin%list_elem_of_In _ _].
  - by apply (bool_decide_unpack _).
  - by apply (bool_decide_unpack _).
  - cbn in Hin. destruct_or? Hin; simplify_eq; by apply (bool_decide_unpack _).
Qed.

(** ** Approvals *)

(** The kind of gate a log entry approves for the item [id]: a decision of the item, by a
    named decider, with human or delegated authority. *)
Definition approval (id : uuid) (entry : Action * option DeliveryGate) : option string :=
  match entry.2 with
  | Some g =>
      if N.eqb (Gate_WorkItemID g) id && String.eqb (TrimSpace (Decision g)) DecisionApproved &&
         negb (String.eqb (TrimSpace (DecidedBy g)) "") &&
         (String.eqb (ToLower (TrimSpace (Authority g))) "human" ||
          String.eqb (ToLower (TrimSpace (Authority g))) "delegated")
      then Some (TrimSpace (Kind g)) else None
  | None => None
  end.
(** The approvals a state needs behind it, in order. *)
Definition required (s : string) : list string :=
  if String.eqb s StateImplementation || String.eqb s StateCodeReview || String.eqb s StateAssessed then [GatePlan]
  else if String.eqb s StatePreviewPending || String.eqb s StateQARunning || String.eqb s StateQAReview
  then [GatePlan; GateCodeReview]
  else if String.eqb s StateReleaseReview then [GatePlan; GateCodeReview; GateQAReview]
  else if String.eqb s StateReleased then [GatePlan; GateCodeReview; GateQAReview; GateRelease]
  else [].

Lemma validateGate_approval it gate rule now gate' action :
  validateGate it gate rule now = (gate', None) → decision rule = DecisionApproved → gateKind rule ≠ "" →
  approval (Item_ID it) (action, gate') = Some (gateKind rule).
Proof.
  unfold validateGate. intros H Hd Hk. rewrite (proj2 (String.eqb_neq _ _) Hk) in H.
  destruct gate as [g|]; [|done].
  destruct (N.eqb_spec (Gate_WorkItemID g) (Item_ID it)) as [Hid|]; [|done]. cbn [negb] in H.
  destruct (String.eqb_spec (TrimSpace (Kind g)) (gateKind rule)) as [Hkind|]; [|done].
  destruct (String.eqb_spec (TrimSpace (Decision g)) (decision rule)) as [Hdec|]; [|done]. cbn [negb orb] in H.
  destruct (String.eqb (TrimSpace (DecidedBy g)) "") eqn:Hby; [done|].
  set (historic := String.eqb (ToLower (TrimSpace (Authority g))) "") in H.
  destruct (negb _ && negb _) eqn:Ha in H; [done|]. injection H as <-.
  unfold approval. cbn [snd Gate_WorkItemID Decision DecidedBy Authority DecidedAt Kind].
  rewrite Hid, N.eqb_refl, Hdec, Hd, Hby, Hkind.
  destruct historic eqn:Hh; subst historic; [reflexivity|].
  rewrite andb_false_iff, !negb_false_iff in Ha.
  assert (String.eqb (ToLower (TrimSpace (Authority g))) "human" || String.eqb (ToLower (TrimSpace (Authority g))) "delegated" = true) as ->.
  { apply orb_true_iff. tauto. }
  done.
Qed.

(** Every move keeps the needed approvals behind it. *)
Lemma move_required it gate gate' now s action log :
  move it gate gate' now s →
  required (current it) `sublist_of` log →
  required s `sublist_of` (log ++ omap (approval (Item_ID it)) [(action, gate')])%list.
Proof.
  intros Hm Hreq. destruct Hm as [_ _|_ _|act rule Hin Hf Hg]; [by apply sublist_nil_l..|].
  rewrite Hf in Hreq. destruct (decide (gateKind rule ≠ "" ∧ decision rule = DecisionApproved)) as [[Hk Hd]|Hplain].
  - assert (required (to rule) = required (from rule) ++ [gateKind rule])%list as ->.
    { apply list_elem_of_In in Hin. cbn in Hin. destruct_or? Hin; simplify_eq; try reflexivity; done. }
    apply sublist_app; [done|]. cbn [omap list_omap].
    by rewrite (validateGate_approval _ _ _ _ _ action Hg Hd Hk).
  - assert (required (to rule) `sublist_of` required (from rule)) as Hsub.
    { apply list_elem_of_In in Hin. cbn in Hin. destruct_or? Hin; simplify_eq;
        first [reflexivity | apply sublist_nil_l | exfalso; by apply Hplain | by apply (sublist_inserts_r [_] [_] [_])]. }
    etrans; [exact Hsub|]. by apply sublist_inserts_r.
Qed.
End Runs.

Section Lifecycle.
Context {unicode : GoUnicode}.

Lemma run_item it log it' : run it log it' → Item_ID it' = Item_ID it.
Proof. induction 1 as [|log it1 action gate now it2 gate' _ IH (s & _ & ->)%Advance_move]; [done|]. by rewrite <-IH. Qed.

Lemma run_required it log it' :
  required (current it) = [] → run it log it' →
  required (current it') `sublist_of` omap (approval (Item_ID it)) log.
Proof.
  intros H0 Hr. induction Hr as [|log it1 action gate now it2 gate' Hr IH (s & Hm & ->)%Advance_move].
  { rewrite H0. apply sublist_nil_l. }
  rewrite current_moveTo by (by eapply move_known). rewrite omap_app. rewrite <-(run_item _ _ _ Hr) in *.
  by eapply move_required.
Qed.

(** What a set of states that every move stays in says of runs. *)
Lemma run_stays (ok : string → Prop) it log it' :
  (∀ it gate gate' now s, move it gate gate' now s → ok (current it) → ok s) →
  run it log it' → ok (current it) → ok (current it').
Proof.
  intros Hok Hr H0. induction Hr as [|log it1 action gate now it2 gate' Hr IH (s & Hm & ->)%Advance_move]; [done|].
  rewrite current_moveTo by (by eapply move_known). by eapply Hok.
Qed.

(** ** Progress *)

Definition human_gate (id : uuid) (rule : transition) : option DeliveryGate :=
  if String.eqb (gateKind rule) "" then None
  else Some {| Gate_WorkItemID := id; Kind := gateKind rule; Decision := decision rule; Authority := "human";
               DecidedBy := "ana"; DecidedAt := 1 |}.
(** From every item in the state [s] some run is released. *)
Definition can_release (s : string) : Prop :=
  ∀ it, current it = s → ∃ log it', run it log it' ∧ current it' = StateReleased.

Lemma run_trans it1 log1 it2 log2 it3 : run it1 log1 it2 → run it2 log2 it3 → run it1 (log1 ++ log2) it3.
Proof.
  intros H1 H2. induction H2 as [|log2 it3 action gate now it4 gate' H2 IH Ha]; [by rewrite app_nil_r|].
  rewrite app_assoc. by eapply run_advance.
Qed.

Lemma human_gate_valid it action rule :
  (action, rule) ∈ transitions → validateGate it (human_gate (Item_ID it) rule) rule 1 = (human_gate (Item_ID it) rule, None).
Proof.
  intros Hin%list_elem_of_In. cbn in Hin. destruct_or? Hin; simplify_eq;
    unfold validateGate, human_gate; cbn; rewrite ?N.eqb_refl; reflexivity.
Qed.

Lemma can_release_step action rule :
  (action, rule) ∈ transitions → lookupRule transitions action = Some rule →
  String.eqb action ActionBlock = false → String.eqb action ActionCancel = false →
  can_release (to rule) → can_release (from rule).
Proof.
  intros Hin Hl Hb Hc Hto it Hit.
  assert (Advance (Some it) action (human_gate (Item_ID it) rule) 1 =
          (Some (moveTo (to rule) it), human_gate (Item_ID it) rule, None)) as Ha.
  { unfold Advance. fold (current it). rewrite Hb, Hc, Hl, Hit, String.eqb_refl. cbn [negb].
    by rewrite (human_gate_valid it action). }
  assert (to rule ∈ known_states) as Hk.
  { clear -Hin. apply list_elem_of_In in Hin. cbn in Hin. destruct_or? Hin; simplify_eq; by apply (bool_decide_unpack _). }
  destruct (Hto (moveTo (to rule) it) (current_moveTo _ _ Hk)) as (log & it' & Hr & Hs).
  exists ([(action, human_gate (Item_ID it) rule)] ++ log)%list, it'. split; [|done].
  eapply run_trans; [|exact Hr]. eapply (run_advance it []); [apply run_start|exact Ha].
Qed.

Definition working_states : list string :=
  [StatePlanning; StatePlanReview; StateImplementation; StateCodeReview; StatePreviewPending; StateQARunning;
   StateQAReview; StateReleaseReview; StateReleased].
Ltac by_rule k H :=
  let r := eval cbv in (nth_error transitions k) in
  match r with
  | Some (?a, ?rule) => apply (can_release_step a rule); [apply list_elem_of_In; cbn; tauto|reflexivity..|exact H]
  end.
Lemma working_releases s : s ∈ working_states → can_release s.
Proof.
  assert (can_release StateReleased) as H9 by (intros it Hit; exists [], it; split; [apply run_start|done]).
  assert (can_release StateReleaseReview) as H8 by by_rule 10%nat H9.
  assert (can_release StateQAReview) as H7 by by_rule 8%nat H8.
  assert (can_release StateQARunning) as H6 by by_rule 7%nat H7.
  assert (can_release StatePreviewPending) as H5 by by_rule 6%nat H6.
  assert (can_release StateCodeReview) as H4 by by_rule 4%nat H5.
  assert (can_release StateImplementation) as H3 by by_rule 3%nat H4.
  assert (can_release StatePlanReview) as H2 by by_rule 1%nat H3.
  assert (can_release StatePlanning) as H1 by by_rule 0%nat H2.
  intros Hs%list_elem_of_In. cbn in Hs. destruct_or? Hs; subst; done.
Qed.

(** The states no release follows: stopped or unknown ones. *)
Lemma stopped_stays it gate gate' now s :
  move it gate gate' now s → current it ∉ working_states → s ∉ working_states.
Proof.
  intros [_ _|_ _|action rule Hin Hf _] Hn; [by apply (bool_decide_unpack _)..|]. rewrite Hf in Hn. clear Hf.
  apply list_elem_of_In in Hin. cbn in Hin. destruct_or? Hin; simplify_eq;
    first [by apply (bool_decide_unpack _) | exfalso; apply Hn; by apply (bool_decide_unpack _)].
Qed.
End Lifecycle.

(** ** Theorems *)

(** C3: a work item that starts in planning is released only after, in this order, a plan, a
    code review, a QA and a release approval of that very item, each by a named decider with
    human or delegated authority; one that reached a preview or QA had its plan and code
    approved, and one under implementation or assessed its plan. *)
Theorem release_needs_every_gate {unicode : GoUnicode} it log it' :
  current it = StatePlanning → run it log it' →
  let approvals := omap (approval (Item_ID it)) log in
  (current it' = StateReleased → [GatePlan; GateCodeReview; GateQAReview; GateRelease] `sublist_of` approvals) ∧
  (current it' ∈ [StatePreviewPending; StateQARunning; StateQAReview] → [GatePlan; GateCodeReview] `sublist_of` approvals) ∧
  (current it' ∈ [StateImplementation; StateCodeReview; StateAssessed] → GatePlan ∈ approvals).
Proof.
  intros H0 Hr. pose proof (run_required it log it') as Hreq. rewrite H0 in Hreq. specialize (Hreq eq_refl Hr).
  cbv zeta. split; [|split].
  - intros Hs. by rewrite Hs in Hreq.
  - intros Hs%list_elem_of_In. cbn in Hs. destruct_or? Hs; rewrite <-Hs in Hreq; done.
  - intros Hs%list_elem_of_In. cbn in Hs. destruct_or? Hs; rewrite <-Hs in Hreq; by apply singleton_sublist_l.
Qed.

(** C40: a released, assessed or cancelled item refuses every action and keeps its state; a
    release stays reachable from exactly the working states, so a blocked item can only be
    blocked again or cancelled. *)
Theorem lifecycle_progress {unicode : GoUnicode} it :
  (current it ∈ [StateReleased; StateAssessed; StateCancelled] → ∀ action gate now, ∃ gate' e, Advance (Some it) action gate now = (Some it, gate', Some e)) ∧
  ((∃ log it', run it log it' ∧ current it' = StateReleased) ↔ current it ∈ working_states) ∧
  (current it = StateBlocked → ∀ action gate now it2 gate',
     Advance (Some it) action gate now = (Some it2, gate', None) → current it2 = StateBlocked ∨ current it2 = StateCancelled).
Proof.
  split; [|split].
  - intros Hin action gate now. unfold Advance. fold (current it).
    assert (isTerminal (current it) = true) as Ht
      by (apply list_elem_of_In in Hin; cbn in Hin; by destruct_or? Hin; rewrite <-Hin).
    rewrite Ht.
    destruct (String.eqb action ActionBlock); [by eexists _, _|].
    destruct (String.eqb action ActionCancel); [by eexists _, _|].
    destruct (lookupRule transitions action) as [rule|] eqn:Hr; [|by eexists _, _].
    destruct (String.eqb_spec (current it) (from rule)) as [Hf|]; [exfalso|by eexists _, _].
    rewrite Hf in Ht. apply lookupRule_elem, list_elem_of_In in Hr. cbn in Hr. by destruct_or? Hr; simplify_eq.
  - split; [|intros Hw; by apply (working_releases (current it) Hw it)]. intros (log & it' & Hr & Hs).
    destruct (decide (current it ∈ working_states)) as [|Hn]; [done|exfalso].
    apply (run_stays (λ s, s ∉ working_states) _ _ _ stopped_stays Hr Hn). rewrite Hs. by apply (bool_decide_unpack _).
  - intros Hb action gate now it2 gate' (s & Hm & ->)%Advance_move.
    rewrite current_moveTo by (by eapply move_known). destruct Hm as [_ _|_ _|act rule Hin Hf _]; [auto..|].
    rewrite Hb in Hf. apply list_elem_of_In in Hin. cbn in Hin. by destruct_or? Hin; simplify_eq.
Qed.

(** A concrete release. *)
Definition demo_item : DeliveryWorkItem := {| Item_ID := 9%N; State := "" |}.
Definition demo_gate (kind authority : string) : option DeliveryGate :=
  Some {| Gate_WorkItemID := 9%N; Kind := kind; Decision := DecisionApproved; Authority := authority; DecidedBy := "ana"; DecidedAt := 5 |}.
Lemma demo_run : run (unicode := ascii_only) demo_item
  [(ActionSubmitPlan, None); (ActionApprovePlan, demo_gate GatePlan "human"); (ActionSubmitAssessment, None)]
  {| Item_ID := 9%N; State := StateAssessed |}.
Proof.
  change [(ActionSubmitPlan, None); (ActionApprovePlan, demo_gate GatePlan "human"); (ActionSubmitAssessment, None)]
    with ((([] ++ [(ActionSubmitPlan, None)]) ++ [(ActionApprovePlan, demo_gate GatePlan "human")]) ++ [(ActionSubmitAssessment, @None DeliveryGate)])%list.
  eapply (run_advance _ _ {| Item_ID := 9%N; State := StateImplementation |} _ None 7); [|reflexivity].
  eapply (run_advance _ _ {| Item_ID := 9%N; State := StatePlanReview |} _ (demo_gate GatePlan "human") 7); [|reflexivity].
  eapply (run_advance _ _ demo_item _ None 7); [apply run_start|reflexivity].
Qed.
Example release_needs_every_gate_witness :
  current {| Item_ID := 9%N; State := StateAssessed |} = StateAssessed ∧
  GatePlan ∈ omap (approval (unicode := ascii_only) 9%N)
    [(ActionSubmitPlan, None); (ActionApprovePlan, demo_gate GatePlan "human"); (ActionSubmitAssessment, None)].
Proof.
  split; [reflexivity|].
  apply (release_needs_every_gate (unicode := ascii_only) demo_item _ _ eq_refl demo_run).
  apply (bool_decide_unpack _). reflexivity.
Defined.
Example lifecycle_progress_witness :
  ∃ gate' e, Advance (unicode := ascii_only) (Some {| Item_ID := 9%N; State := " released " |}) ActionCancel None 3 =
    (Some {| Item_ID := 9%N; State := " released " |}, gate', Some e).
Proof.
  apply (lifecycle_progress (unicode := ascii_only) {| Item_ID := 9%N; State := " released " |}). apply (bool_decide_unpack _). reflexivity.
Defined.
