(* ===== verification/PlanStore.v ===== *)
(** * The rows the plan executor works on, and its transactions

    The database is third-party code: a table is a finite map (rows by primary key) or, where
    order and duplicates matter, a list.  A transaction is a function from the tables to a
    result and the tables it leaves; an error rolls it back, so it leaves none.  Failures of
    the connection are outside the model: the only database error is a missing row.

    What a transaction reads besides the tables is [Tx]: the clock at each of its readings,
    the rows other transactions hold locked ([SKIP LOCKED] passes over them, every other lock
    waits), the identities [uuid.NewV4] gives it and the verified callback identity its
    context carries. *)
From stdpp Require Import base tactics list strings gmap.
From Stdlib Require Import Ascii.
From S2P Require Import Prelude GoStrings GoSort PlanGraph Workflow.
Open Scope string_scope.

(** ** Rows *)

(** [models.AutomationTask]: the fields the package selects. *)
Record AutomationTask := {
  Task_ID : uuid;
  DeliveryWorkItemID : option uuid;
  Task_Status : string;
  Task_RunID : string;
  Task_WorkerID : string;
  Task_AgentKey : string;
  Task_MachineID : string;
  Task_LeaseExpiresAt : option Z;
}.

Definition DeliveryPlanStepEventReady : string := "step_ready".
Definition DeliveryPlanStepEventClaimed : string := "step_claimed".
Definition DeliveryPlanStepEventLeaseReclaimed : string := "lease_reclaimed".
Definition DeliveryPlanStepEventLeaseRenewed : string := "lease_renewed".
Definition DeliveryPlanStepEventTransitioned : string := "status_transitioned".

(** [models.DeliveryPlanStepEvent] *)
Record DeliveryPlanStepEvent := {
  Event_ID : uuid;
  Event_PlanID : uuid;
  Event_StepID : uuid;
  EventType : string;
  FromStatus : string;
  ToStatus : string;
  Event_AutomationTaskID : uuid;
  Event_RunID : string;
  Event_WorkerID : string;
  Event_AgentKey : string;
  Event_MachineID : string;
  AgentInstanceID : option uuid;
  Event_LeaseFence : Z;
  Summary : string;
  OccurredAt : Z;
  Event_CreatedAt : Z;
}.

Definition DeliveryPlanExecutionPending : string := "pending".
Definition DeliveryPlanExecutionDispatching : string := "dispatching".
Definition DeliveryPlanExecutionRunning : string := "running".
Definition DeliveryPlanExecutionMaxConcurrency : Z := 64.

(** [models.DeliveryPlanExecution] *)
Record DeliveryPlanExecution := {
  Execution_ID : uuid;
  Execution_AutomationTaskID : uuid;
  Execution_IdempotencyKey : string;
  Execution_PlanID : uuid;
  PlanVersion : Z;
  Execution_ApprovedGateID : uuid;
  PlanHash : string;
  MaxConcurrency : Z;
  Execution_Status : string;
  Execution_DispatchedAt : option Z;
  Execution_StartedAt : option Z;
  Execution_CompletedAt : option Z;
  Execution_CreatedAt : Z;
  Execution_UpdatedAt : Z;
}.

Definition DeliveryPlanStepAssignmentPending : string := "pending".
Definition DeliveryPlanStepAssignmentQueued : string := "queued".
Definition DeliveryPlanStepAssignmentDispatched : string := "dispatched".
Definition DeliveryPlanStepAssignmentRunning : string := "running".
Definition DeliveryPlanStepAssignmentBlocked : string := "blocked".
Definition DeliveryPlanStepAssignmentCompleted : string := "completed".
Definition DeliveryPlanStepAssignmentFailed : string := "failed".
Definition DeliveryPlanStepAssignmentCancelled : string := "cancelled".

(** [models.DeliveryPlanStepAssignment] *)
Record DeliveryPlanStepAssignment := {
  Assignment_ID : uuid;
  ExecutionID : uuid;
  DeliveryPlanStepID : uuid;
  ChildAutomationTaskID : uuid;
  TargetMachineID : string;
  TargetAgentKey : string;
  Assignment_Status : string;
  Assignment_QueuedAt : option Z;
  Assignment_DispatchedAt : option Z;
  Assignment_StartedAt : option Z;
  Assignment_CompletedAt : option Z;
  Assignment_CreatedAt : Z;
  Assignment_UpdatedAt : Z;
}.

(** [models.AutomationAgentHeartbeat], [models.AutomationAgentProfile] and
    [models.DeliveryContextSnapshot]: the columns the package selects. *)
Record AutomationAgentHeartbeat := {
  Heartbeat_WorkerID : string;
  Heartbeat_AgentKey : string;
  Heartbeat_MachineID : string;
  Heartbeat_AgentInstanceID : option uuid;
  Concurrency : Z;
  Draining : bool;
  CapabilitiesJSON : string;
  ProtocolsJSON : string;
  WorkspaceReadiness : string;
  LastSeenAt : Z;
}.
Record AutomationAgentProfile := {
  Profile_AgentKey : string;
  OperationsJSON : string;
  Active : bool;
}.
Record DeliveryContextSnapshot := {
  Snapshot_WorkItemID : uuid;
  Snapshot_Kind : string;
  Reference : string;
}.

(** The tables dispatch works on.  [work_items] gives the project of a work item and
    [projects] the organization of a project. *)
Record Dispatch := {
  executions : gmap uuid DeliveryPlanExecution;
  assignments : gmap uuid DeliveryPlanStepAssignment;
  heartbeats : list AutomationAgentHeartbeat;
  profiles : list AutomationAgentProfile;
  snapshots : list DeliveryContextSnapshot;
  gates : gmap uuid DeliveryGate;
  work_items : gmap uuid uuid;
  projects : gmap uuid uuid;
}.
#[export] Instance dispatch_empty : Empty Dispatch :=
  {| executions := ∅; assignments := ∅; heartbeats := []; profiles := []; snapshots := []; gates := ∅; work_items := ∅;
     projects := ∅ |}.

(** The tables; [drawn] counts the identities drawn so far (it is not stored). *)
Record DB := {
  plans : gmap uuid DeliveryPlan;
  tasks : gmap uuid AutomationTask;
  steps : gmap uuid DeliveryPlanStep;
  edges : list DeliveryPlanStepDependency;
  events : list DeliveryPlanStepEvent;
  drawn : nat;
  dispatch : Dispatch;
}.
Definition set_steps (t : gmap uuid DeliveryPlanStep) (db : DB) : DB :=
  {| plans := plans db; tasks := tasks db; steps := t; edges := edges db; events := events db; drawn := drawn db;
     dispatch := dispatch db |}.

(** ** Transactions *)

Inductive StoreError :=
| ErrRecordNotFound
| ErrStepLeaseConflict
| ErrStepInputInvalid (message : string)
| TransitionNotAllowed (from to : string)
| EventIdentity
| PlanGraphInvalid (cause : PlanError)
| PlanRejected (cause : PlanError)
| ErrPlanStepsConflict
| UniqueViolation
| ErrPlanExecutionConflict
| ErrPlanExecutionParentMismatch
| ErrPlanExecutionApproval
| ErrPlanExecutionCapacity
| ErrNoEligibleAgentMachine
| IdentityGenerationFailed.

(** What one transaction reads of the world: [tick n] is the time of its n-th clock reading,
    [locked] the rows held by other transactions, [fresh n] the n-th identity, [instance] the
    callback identity of its context. *)
Record Tx := {
  tick : nat → Z;
  locked : uuid → bool;
  fresh : nat → option uuid;
  instance : option uuid;
}.

Definition T (A : Type) : Type := DB → Result StoreError (A * DB).
#[export] Instance T_ret : MRet T := λ A a db, Ok (a, db).
#[export] Instance T_bind : MBind T := λ A B f m db,
  match m db with
  | Ok (a, db') => f a db'
  | Err e => Err e
  end.
Definition raise {A} (e : StoreError) : T A := λ _, Err e.
Definition check (ok : bool) (e : StoreError) : T unit := if ok then mret tt else raise e.
Definition lift {A} (r : Result StoreError A) : T A := λ db, match r with Ok a => Ok (a, db) | Err e => Err e end.
Definition read {A} (f : DB → A) : T A := λ db, Ok (f db, db).
Definition write (f : DB → DB) : T unit := λ db, Ok (tt, f db).
(** [First(&row, "id = ?", id)] *)
Definition first {A} (table : DB → gmap uuid A) (id : uuid) : T A := λ db,
  match table db !! id with
  | Some row => Ok (row, db)
  | None => Err ErrRecordNotFound
  end.

Lemma T_bind_ok {A B} (m : T A) (f : A → T B) db b db' :
  (m ≫= f) db = Ok (b, db') ↔ ∃ a db1, m db = Ok (a, db1) ∧ f a db1 = Ok (b, db').
Proof.
  unfold mbind, T_bind. destruct (m db) as [[a db1]|e]; split; [eauto| |done|by intros (? & ? & ? & ?)].
  by intros (? & ? & [= <- <-] & ?).
Qed.
Lemma check_ok c e db u db' : check c e db = Ok (u, db') ↔ c = true ∧ db' = db.
Proof. unfold check, raise, mret, T_ret. destruct c, u; split; intros; destruct_and?; simplify_eq; auto. Qed.
Lemma check_pass c e db : c = true → check c e db = Ok (tt, db).
Proof. by intros ->. Qed.
Lemma first_ok {A} (table : DB → gmap uuid A) id db row db' :
  first table id db = Ok (row, db') ↔ table db !! id = Some row ∧ db' = db.
Proof. unfold first. destruct (table db !! id); split; intros; destruct_and?; simplify_eq; auto. Qed.
Lemma lift_ok {A} (r : Result StoreError A) db a db' : lift r db = Ok (a, db') ↔ r = Ok a ∧ db' = db.
Proof. unfold lift. destruct r; split; intros; destruct_and?; simplify_eq; auto. Qed.

(** ** Queries on the steps *)

(** [ORDER BY display_order ASC, id ASC] *)
Definition step_before (a b : DeliveryPlanStep) : bool :=
  Z.ltb (DisplayOrder a) (DisplayOrder b) ||
  Z.eqb (DisplayOrder a) (DisplayOrder b) && N.ltb (Step_ID a) (Step_ID b).
Definition select_steps (p : DeliveryPlanStep → bool) (db : DB) : list DeliveryPlanStep :=
  sort_by step_before (filter (λ s, p s = true) (map_to_list (steps db)).*2).

(** The [NOT EXISTS] subquery: no stored dependency of the step on a row of another plan or a
    row that is not completed. *)
Definition dependencies_completed (db : DB) (step : DeliveryPlanStep) : bool :=
  forallb (λ edge,
    negb (N.eqb (StepID edge) (Step_ID step)) ||
    match steps db !! DependsOnStepID edge with
    | None => true
    | Some dependency =>
        N.eqb (Dependency_PlanID edge) (Step_PlanID step) && N.eqb (Step_PlanID dependency) (Step_PlanID step) &&
        String.eqb (Status dependency) DeliveryPlanStepCompleted
    end) (edges db).

(** A nullable time column compared with an instant: null is never true. *)
Definition after_opt (t : option Z) (now : Z) : bool := match t with Some t => Z.ltb now t | None => false end.
Definition until_opt (t : option Z) (now : Z) : bool := match t with Some t => Z.leb t now | None => false end.

(** ** Textual identities of github.com/gofrs/uuid *)

Class UuidText := {
  FromString : string → option uuid;
  uuid_text : uuid → string;
  FromString_text id : FromString (uuid_text id) = Some id;
  uuid_text_ascii id : is_ascii (uuid_text id) = true;
}.
(** A concrete instance for evaluation: the value in unary. *)
Definition unary_text (id : uuid) : string := of_bytes (replicate (N.to_nat id) "1"%char).
Lemma unary_text_back id : Some (N.of_nat (String.length (unary_text id))) = Some id.
Proof. unfold unary_text. by rewrite <-length_bytes, bytes_of_bytes, length_replicate, N2Nat.id. Qed.
Lemma unary_text_ascii id : is_ascii (unary_text id) = true.
Proof. unfold is_ascii, all_bytes, unary_text. rewrite bytes_of_bytes. by induction (N.to_nat id). Qed.
Definition unary : UuidText :=
  {| FromString s := Some (N.of_nat (String.length s)); uuid_text := unary_text; FromString_text := unary_text_back;
     uuid_text_ascii := unary_text_ascii |}.

Lemma uuid_text_inj {text : UuidText} a b : uuid_text a = uuid_text b → a = b.
Proof. intros H. apply Some_inj. by rewrite <-!FromString_text, H. Qed.
