(* ===== verification/PlanStored.v ===== *)
(** * Stored plans: the rest of [services/deliveryplansteps/steps.go] and plan_hash.go

    The rows [Normalize] builds are stored, read back, compared with a retried request
    ([EnsureInTransaction]), projected for the API ([DTOs]) and hashed when their execution is
    frozen ([ApprovedPlanContentHash]).  The criteria and evidence columns are PostgreSQL
    [jsonb]: what a query returns for them is the database's own text of the value, the
    parameter [jsonb_text]. *)
From stdpp Require Import base tactics list strings gmap sorting.
From Stdlib Require Import Ascii.
From S2P Require Import Prelude GoStrings GoSort Json JsonTypes Sha256 PlanGraph PlanStore.
Open Scope string_scope.

(** ** Decoding into Go values *)

(** Elements of a slice are decoded over the elements its array already holds. *)
Fixpoint decode_elements (array : list string) (vs : list jvalue) : option (list string) :=
  match vs with
  | [] => Some []
  | v :: vs =>
      x ← decode_string (hd "" array) v;
      xs ← decode_elements (tl array) vs;
      Some (x :: xs)
  end.
(** A [[]string]: the slice ([None] when nil) and the array behind it. *)
Definition decode_strings (array : list string) (v : jvalue) : option (option (list string) * list string) :=
  match v with
  | VNull => Some (None, [])
  | VArray [] => Some (Some [], [])
  | VArray vs => xs ← decode_elements array vs; Some (Some xs, xs ++ drop (length xs) array)%list
  | _ => None
  end.

(** [json.Unmarshal] into a nil [[]string]; [None] is an error. *)
Definition UnmarshalStrings (raw : string) : option (option (list string)) :=
  v ← read_json raw; '(slice, _) ← decode_strings [] v; Some slice.

(** An [EvidenceRequirement] being decoded, with the array behind its content types. *)
Definition zeroRequirement : EvidenceRequirement :=
  {| Requirement_Key := ""; Requirement_Title := ""; Requirement_Description := ""; Requirement_Required := false;
     ContentTypes := []; MaxBytes := 0 |}.
Definition decode_field (draft : EvidenceRequirement * list string) (field : string * jvalue) :
    option (EvidenceRequirement * list string) :=
  let '(r, array) := draft in
  let '(key, v) := field in
  let put k t d q c m :=
    {| Requirement_Key := k; Requirement_Title := t; Requirement_Description := d; Requirement_Required := q;
       ContentTypes := c; MaxBytes := m |} in
  let '(k, t, d, q, c, m) := (Requirement_Key r, Requirement_Title r, Requirement_Description r,
                              Requirement_Required r, ContentTypes r, MaxBytes r) in
  if field_is "key" key then k ← decode_string k v; Some (put k t d q c m, array)
  else if field_is "title" key then t ← decode_string t v; Some (put k t d q c m, array)
  else if field_is "description" key then d ← decode_string d v; Some (put k t d q c m, array)
  else if field_is "required" key then q ← decode_bool q v; Some (put k t d q c m, array)
  else if field_is "content_types" key then
    '(slice, array) ← decode_strings array v; Some (put k t d q (default [] slice) m, array)
  else if field_is "max_bytes" key then m ← decode_int64 m v; Some (put k t d q c m, array)
  else None.
Fixpoint decode_fields (draft : EvidenceRequirement * list string) (fields : list (string * jvalue)) :
    option (EvidenceRequirement * list string) :=
  match fields with
  | [] => Some draft
  | field :: rest => draft ← decode_field draft field; decode_fields draft rest
  end.
Definition decode_requirement (v : jvalue) : option EvidenceRequirement :=
  match v with
  | VNull => Some zeroRequirement
  | VObject fields => fst <$> decode_fields (zeroRequirement, []) fields
  | _ => None
  end.
Definition decode_requirements (v : jvalue) : option (list EvidenceRequirement) :=
  match v with
  | VNull => Some []
  | VArray vs => mapM decode_requirement vs
  | _ => None
  end.

Section Stored.
Context {unicode : GoUnicode} {text : UuidText}.

(** [None]: the error of the decoder or of [normalizeEvidenceRequirements]. *)
Definition parseStoredEvidenceRequirements (raw : string) : option (list EvidenceRequirement) :=
  if String.eqb (TrimSpace raw) "" || String.eqb (TrimSpace raw) "null" then Some []
  else
    v ← read_json raw;
    requirements ← decode_requirements v;
    match normalizeEvidenceRequirements requirements with Ok r => Some r | Err _ => None end.
Definition EvidenceRequirementsFromJSON (raw : string) : option (list EvidenceRequirement) :=
  parseStoredEvidenceRequirements raw.
Definition requirements_json (requirements : list EvidenceRequirement) : json :=
  JArray (EvidenceRequirement_json <$> requirements).
Definition canonicalStoredEvidenceRequirements (raw : string) : string :=
  match parseStoredEvidenceRequirements raw with
  | Some requirements => Marshal (requirements_json requirements)
  | None => "<invalid>"
  end.

(** ** [ApprovedPlanContentHash] *)

Record canonicalStep := {
  canonical_ID : uuid;
  canonical_StepKey : string;
  canonical_Role : string;
  canonical_DisplayOrder : Z;
  canonical_Title : string;
  canonical_Objective : string;
  canonical_Criteria : list string;
  canonical_Evidence : list EvidenceRequirement;
}.
Definition canonicalStep_json (s : canonicalStep) : json :=
  JObject ([("id", JString (uuid_text (canonical_ID s))); ("step_key", JString (canonical_StepKey s));
            ("role", JString (canonical_Role s)); ("display_order", JInt (canonical_DisplayOrder s));
            ("title", JString (canonical_Title s)); ("objective", JString (canonical_Objective s));
            ("acceptance_criteria", JArray (JString <$> canonical_Criteria s))] ++
           match canonical_Evidence s with
           | [] => []
           | evidence => [("evidence_requirements", requirements_json evidence)]
           end)%list.
Definition canonicalDependency_json (d : uuid * uuid) : json :=
  JObject [("step_id", JString (uuid_text d.1)); ("depends_on_step_id", JString (uuid_text d.2))].
Definition canonicalPlan_json (plan : DeliveryPlan) (gate : uuid) (steps : list canonicalStep) (dependencies : list (uuid * uuid)) : json :=
  JObject [("schema_version", JInt 2); ("plan_id", JString (uuid_text (Plan_ID plan))); ("version", JInt (Version plan));
           ("approved_gate_id", JString (uuid_text gate)); ("steps", JArray (canonicalStep_json <$> steps));
           ("dependencies", JArray (canonicalDependency_json <$> dependencies))].

(** What the loop over the steps collects. *)
Record HashSeen := {
  hash_keyByID : gmap uuid string;
  hash_stepKeys : gset string;
  hash_inputByKey : gmap string StepInput;
  hash_steps : list canonicalStep;
}.
Definition invalidHashInput {A} (message : string) : Result StoreError A := Err (ErrStepInputInvalid message).
Definition invalid_when (c : bool) (message : string) : Result StoreError unit := fail_if c (ErrStepInputInvalid message).

Definition hashStep (plan : DeliveryPlan) (s : HashSeen) (step : DeliveryPlanStep) : Result StoreError HashSeen :=
  _ ← invalid_when (N.eqb (Step_ID step) Nil || negb (N.eqb (Step_PlanID step) (Plan_ID plan)) ||
                    String.eqb (TrimSpace (StepKey step)) "" || Z.ltb (DisplayOrder step) 0 ||
                    negb (String.eqb (Step_Role step) StepRoleImplementation || String.eqb (Step_Role step) StepRoleIntegration))
        "approved plan contains an invalid step identity";
  _ ← invalid_when (bool_decide (is_Some (hash_keyByID s !! Step_ID step))) "approved plan contains duplicate step identities";
  _ ← invalid_when (bool_decide (StepKey step ∈ hash_stepKeys s)) "approved plan contains duplicate step keys";
  criteria ← match UnmarshalStrings (AcceptanceCriteriaJSON step) with
             | Some (Some criteria) =>
                 if Nat.ltb 32 (length criteria) then invalidHashInput "approved plan acceptance criteria are invalid"
                 else Ok criteria
             | _ => invalidHashInput "approved plan acceptance criteria are invalid"
             end;
  evidence ← match parseStoredEvidenceRequirements (EvidenceRequirementsJSON step) with
             | Some evidence => Ok evidence
             | None => invalidHashInput "approved plan evidence requirements are invalid"
             end;
  Ok {| hash_keyByID := <[Step_ID step := StepKey step]> (hash_keyByID s);
        hash_stepKeys := {[StepKey step]} ∪ hash_stepKeys s;
        hash_inputByKey :=
          <[StepKey step := {| Key := StepKey step; Role := Step_Role step; Order := DisplayOrder step;
                               Title := Step_Title step; Objective := Step_Objective step; AcceptanceCriteria := criteria;
                               EvidenceRequirements := []; DependsOn := []; IdempotencyKey := "" |}]> (hash_inputByKey s);
        hash_steps := (hash_steps s ++
          [{| canonical_ID := Step_ID step; canonical_StepKey := StepKey step; canonical_Role := Step_Role step;
              canonical_DisplayOrder := DisplayOrder step; canonical_Title := Step_Title step;
              canonical_Objective := Step_Objective step; canonical_Criteria := criteria;
              canonical_Evidence := evidence |}])%list |}.
Fixpoint hashSteps (plan : DeliveryPlan) (s : HashSeen) (steps : list DeliveryPlanStep) : Result StoreError HashSeen :=
  match steps with
  | [] => Ok s
  | step :: rest => s ← hashStep plan s step; hashSteps plan s rest
  end.

Definition with_dependency (dependency : string) (input : StepInput) : StepInput :=
  {| Key := Key input; Role := Role input; Order := Order input; Title := Title input; Objective := Objective input;
     AcceptanceCriteria := AcceptanceCriteria input; EvidenceRequirements := EvidenceRequirements input;
     DependsOn := (DependsOn input ++ [dependency])%list; IdempotencyKey := IdempotencyKey input |}.
(** The loop over the dependencies: the edges seen so far and the rebuilt inputs. *)
Fixpoint hashDependencies (plan : DeliveryPlan) (keyByID : gmap uuid string) (inputByKey : gmap string StepInput)
    (seen : list (uuid * uuid)) (edges : list DeliveryPlanStepDependency) :
    Result StoreError (gmap string StepInput * list (uuid * uuid)) :=
  match edges with
  | [] => Ok (inputByKey, seen)
  | edge :: rest =>
      let pair := (StepID edge, DependsOnStepID edge) in
      _ ← invalid_when (negb (N.eqb (Dependency_PlanID edge) (Plan_ID plan)) || N.eqb (StepID edge) Nil ||
                        N.eqb (DependsOnStepID edge) Nil || N.eqb (StepID edge) (DependsOnStepID edge))
            "approved plan contains an invalid dependency";
      dependentKey ← match keyByID !! StepID edge with
                     | Some key => Ok key
                     | None => invalidHashInput "approved plan dependency references a missing step"
                     end;
      dependencyKey ← match keyByID !! DependsOnStepID edge with
                      | Some key => Ok key
                      | None => invalidHashInput "approved plan dependency references a missing prerequisite"
                      end;
      _ ← invalid_when (bool_decide (pair ∈ seen)) "approved plan contains a duplicate dependency";
      _ ← invalid_when (String.eqb dependentKey "" || String.eqb dependencyKey "")
            "approved plan dependency references a missing step";
      let dependent := default zeroStep (inputByKey !! dependentKey) in
      hashDependencies plan keyByID (<[dependentKey := with_dependency dependencyKey dependent]> inputByKey)
        (seen ++ [pair])%list rest
  end.

Definition canonical_before (a b : canonicalStep) : bool :=
  Z.ltb (canonical_DisplayOrder a) (canonical_DisplayOrder b) ||
  Z.eqb (canonical_DisplayOrder a) (canonical_DisplayOrder b) &&
  String.ltb (uuid_text (canonical_ID a)) (uuid_text (canonical_ID b)).
Definition edge_before (a b : uuid * uuid) : bool :=
  String.ltb (uuid_text a.1) (uuid_text b.1) ||
  String.eqb (uuid_text a.1) (uuid_text b.1) && String.ltb (uuid_text a.2) (uuid_text b.2).

Context {map_range : GoMapRange}.

Definition ApprovedPlanContentHash (plan : DeliveryPlan) (steps : list DeliveryPlanStep)
    (dependencies : list DeliveryPlanStepDependency) : Result StoreError string :=
  let unapproved := invalidHashInput "an approved, gated plan is required to compute its execution hash" in
  match ApprovedGateID plan with
  | None => unapproved
  | Some gate =>
      if N.eqb (Plan_ID plan) Nil || Z.ltb (Version plan) 1 || negb (String.eqb (Plan_Status plan) "approved") || N.eqb gate Nil
      then unapproved
      else
        _ ← invalid_when (Nat.eqb (length steps) 0 || Nat.ltb 512 (length steps) || Nat.ltb 4096 (length dependencies))
              "approved plan graph exceeds supported bounds";
        s ← hashSteps plan {| hash_keyByID := ∅; hash_stepKeys := ∅; hash_inputByKey := ∅; hash_steps := [] |} steps;
        '(inputByKey, edges) ← hashDependencies plan (hash_keyByID s) (hash_inputByKey s) [] dependencies;
        _ ← match validateIntegrationGraph inputByKey with
            | Ok _ => Ok tt
            | Err cause => Err (PlanGraphInvalid cause)
            end;
        Ok (hexSum256 (Marshal (canonicalPlan_json plan gate (sort_by canonical_before (hash_steps s))
                                  (sort_by edge_before edges))))
  end.
End Stored.
