(* ===== verification/PlanEnsure.v ===== *)
(** * Storing a plan's steps once, and showing them: [EnsureInTransaction] and [DTOs]

    [Ensure] runs [EnsureInTransaction] in a transaction of its own, which is what a function
    of type [T] is here. *)
From stdpp Require Import base tactics list strings gmap sorting.
From Stdlib Require Import Ascii.
From S2P Require Import Prelude GoStrings GoSort Json PlanGraph PlanStore PlanStored.
Open Scope string_scope.

(** [m := make(map); for _, x := range l { m[key(x)] = value(x) }] *)
Definition map_of `{Countable K} {A B} (key : A → K) (value : A → B) (l : list A) : gmap K B :=
  foldl (λ m x, <[key x := value x]> m) ∅ l.

(** The database's text of a [jsonb] value, as a query returns it. *)
Class Jsonb := { jsonb_text : string → string }.

Section Ensure.
Context {unicode : GoUnicode} {jsonb : Jsonb}.

(** A step row as it is read back. *)
Definition stored_row (s : DeliveryPlanStep) : DeliveryPlanStep :=
  {| Step_ID := Step_ID s; Step_PlanID := Step_PlanID s; StepKey := StepKey s; Step_IdempotencyKey := Step_IdempotencyKey s;
     Step_Role := Step_Role s; DisplayOrder := DisplayOrder s; Step_Title := Step_Title s; Step_Objective := Step_Objective s;
     AcceptanceCriteriaJSON := jsonb_text (AcceptanceCriteriaJSON s);
     EvidenceRequirementsJSON := jsonb_text (EvidenceRequirementsJSON s);
     Status := Status s; AgentKey := AgentKey s; WorkerID := WorkerID s; MachineID := MachineID s;
     AutomationTaskID := AutomationTaskID s; AutomationExecutionID := AutomationExecutionID s; RunID := RunID s;
     LeaseFence := LeaseFence s; LeaseExpiresAt := LeaseExpiresAt s; CreatedBy := CreatedBy s; StartedAt := StartedAt s;
     CompletedAt := CompletedAt s; CreatedAt := CreatedAt s; UpdatedAt := UpdatedAt s |}.

(** ** [samePlanContent] *)

Definition same_step (requested existing : DeliveryPlanStep) : bool :=
  String.eqb (Step_IdempotencyKey requested) (Step_IdempotencyKey existing) &&
  String.eqb (Step_Role requested) (Step_Role existing) &&
  Z.eqb (DisplayOrder requested) (DisplayOrder existing) &&
  String.eqb (Step_Title requested) (Step_Title existing) &&
  String.eqb (Step_Objective requested) (Step_Objective existing) &&
  String.eqb (AcceptanceCriteriaJSON requested) (AcceptanceCriteriaJSON existing) &&
  String.eqb (EvidenceRequirementsJSON requested) (canonicalStoredEvidenceRequirements (EvidenceRequirementsJSON existing)).
(** [stepKey + "\x00" + dependsOnKey] *)
Definition edge_text (key dependency : string) : string := key +:+ String zero dependency.
Definition requested_edges (requested : NormalizedPlan) : list string :=
  let keyByID := map_of Step_ID StepKey (Steps requested) in
  (λ edge, edge_text (default "" (keyByID !! StepID edge)) (default "" (keyByID !! DependsOnStepID edge))) <$> Dependencies requested.
Definition existing_edges (planID : uuid) (existing : list DeliveryPlanStep) (dependencies : list DeliveryPlanStepDependency) :
    option (list string) :=
  let keyByID := map_of Step_ID StepKey existing in
  mapM (λ edge,
    key ← keyByID !! StepID edge;
    dependency ← keyByID !! DependsOnStepID edge;
    if N.eqb (Dependency_PlanID edge) planID then Some (edge_text key dependency) else None) dependencies.
Definition samePlanContent (requested : NormalizedPlan) (existing : list DeliveryPlanStep)
    (existingDependencies : list DeliveryPlanStepDependency) : bool :=
  Nat.eqb (length (Steps requested)) (length existing) &&
  Nat.eqb (length (Dependencies requested)) (length existingDependencies) &&
  (let existingByKey := map_of StepKey (λ s, s) existing in
   forallb (λ '(key, step), match existingByKey !! key with Some found => same_step step found | None => false end)
     (map_to_list (map_of StepKey (λ s, s) (Steps requested)))) &&
  match existing_edges (match Steps requested with step :: _ => Step_PlanID step | [] => Nil end) existing existingDependencies with
  | None => false
  | Some edges => bool_decide (sort_strings (requested_edges requested) = sort_strings edges)
  end.

(** ** [EnsureInTransaction] *)

Definition plan_steps (planID : uuid) (db : DB) : list DeliveryPlanStep :=
  sort_by (λ a b, Z.ltb (DisplayOrder a) (DisplayOrder b))
    (filter (λ s, Step_PlanID s = planID) (map_to_list (steps db)).*2).
Definition plan_edges (planID : uuid) (db : DB) : list DeliveryPlanStepDependency :=
  filter (λ d, Dependency_PlanID d = planID) (edges db).

(** [tx.Create] of rows; the primary keys must be new. *)
Fixpoint create_steps (rows : list DeliveryPlanStep) : T unit :=
  match rows with
  | [] => mret tt
  | row :: rest =>
      db ← read (λ db, db);
      _ ← check (bool_decide (steps db !! Step_ID row = None)) UniqueViolation;
      _ ← write (λ db, set_steps (<[Step_ID row := row]> (steps db)) db);
      create_steps rest
  end.
Definition set_edges (l : list DeliveryPlanStepDependency) (db : DB) : DB :=
  {| plans := plans db; tasks := tasks db; steps := steps db; edges := l; events := events db; drawn := drawn db;
     dispatch := dispatch db |}.
Fixpoint create_edges (rows : list DeliveryPlanStepDependency) : T unit :=
  match rows with
  | [] => mret tt
  | row :: rest =>
      db ← read (λ db, db);
      _ ← check (bool_decide (Dependency_ID row ∉ Dependency_ID <$> edges db)) UniqueViolation;
      _ ← write (λ db, set_edges (edges db ++ [row])%list db);
      create_edges rest
  end.

Context {runtime : GoRuntime} {map_range : GoMapRange}.

Definition EnsureInTransaction (planID : uuid) (actor : string) (inputs : list StepInput) (now : Z) :
    T (list DeliveryPlanStep * bool) :=
  plan ← first plans planID;
  normalized ← lift (match Normalize plan actor inputs now with Ok n => Ok n | Err cause => Err (PlanRejected cause) end);
  existing ← read (λ db, stored_row <$> plan_steps (Plan_ID plan) db);
  match existing with
  | _ :: _ =>
      existingDependencies ← read (plan_edges (Plan_ID plan));
      _ ← check (samePlanContent normalized existing existingDependencies) ErrPlanStepsConflict;
      mret (existing, false)
  | [] =>
      match Steps normalized with
      | [] => mret ([], false)
      | rows =>
          _ ← create_steps rows;
          _ ← create_edges (Dependencies normalized);
          mret (rows, true)
      end
  end.
End Ensure.

(** ** [DTOs] *)

Record StepDTO := {
  DTO_ID : string;
  DTO_PlanID : string;
  DTO_PlanVersion : Z;
  DTO_StepKey : string;
  DTO_Role : string;
  DTO_Order : Z;
  DTO_Title : string;
  DTO_Objective : string;
  DTO_AcceptanceCriteria : list string;
  DTO_EvidenceRequirements : list EvidenceRequirement;
  DTO_DependsOn : list string;
  DTO_Status : string;
  DTO_AgentKey : string;
  DTO_AutomationTaskID : string;
  DTO_AutomationExecutionID : string;
  DTO_StartedAt : option Z;
  DTO_CompletedAt : option Z;
  DTO_CreatedAt : Z;
  DTO_UpdatedAt : Z;
}.
Inductive DTOError := VersionRequired | StepsOfSeveralPlans | CriteriaInvalid (key : string) | EvidenceInvalid (key : string) | ForeignDependency.

Definition stepsPlanID (steps : list DeliveryPlanStep) : uuid := match steps with [] => Nil | step :: _ => Step_PlanID step end.

Section DTOs.
Context {unicode : GoUnicode} {text : UuidText}.

Definition uuidPointerString (value : option uuid) : string :=
  match value with Some id => if N.eqb id Nil then "" else uuid_text id | None => "" end.
Definition set_depends_on (depends_on : list string) (d : StepDTO) : StepDTO :=
  {| DTO_ID := DTO_ID d; DTO_PlanID := DTO_PlanID d; DTO_PlanVersion := DTO_PlanVersion d; DTO_StepKey := DTO_StepKey d;
     DTO_Role := DTO_Role d; DTO_Order := DTO_Order d; DTO_Title := DTO_Title d; DTO_Objective := DTO_Objective d;
     DTO_AcceptanceCriteria := DTO_AcceptanceCriteria d; DTO_EvidenceRequirements := DTO_EvidenceRequirements d;
     DTO_DependsOn := depends_on; DTO_Status := DTO_Status d; DTO_AgentKey := DTO_AgentKey d;
     DTO_AutomationTaskID := DTO_AutomationTaskID d; DTO_AutomationExecutionID := DTO_AutomationExecutionID d;
     DTO_StartedAt := DTO_StartedAt d; DTO_CompletedAt := DTO_CompletedAt d; DTO_CreatedAt := DTO_CreatedAt d;
     DTO_UpdatedAt := DTO_UpdatedAt d |}.
Definition stepDTO (planID : uuid) (planVersion : Z) (step : DeliveryPlanStep) : Result DTOError StepDTO :=
  _ ← fail_if (N.eqb (Step_ID step) Nil || N.eqb (Step_PlanID step) Nil ||
               negb (N.eqb planID Nil) && negb (N.eqb (Step_PlanID step) planID)) StepsOfSeveralPlans;
  criteria ← match UnmarshalStrings (AcceptanceCriteriaJSON step) with
             | Some (Some criteria) => Ok criteria
             | _ => Err (CriteriaInvalid (StepKey step))
             end;
  evidence ← match parseStoredEvidenceRequirements (EvidenceRequirementsJSON step) with
             | Some evidence => Ok evidence
             | None => Err (EvidenceInvalid (StepKey step))
             end;
  Ok {| DTO_ID := uuid_text (Step_ID step); DTO_PlanID := uuid_text (Step_PlanID step); DTO_PlanVersion := planVersion;
        DTO_StepKey := StepKey step; DTO_Role := Step_Role step; DTO_Order := DisplayOrder step; DTO_Title := Step_Title step;
        DTO_Objective := Step_Objective step; DTO_AcceptanceCriteria := criteria; DTO_EvidenceRequirements := evidence;
        DTO_DependsOn := []; DTO_Status := Status step; DTO_AgentKey := TrimSpace (AgentKey step);
        DTO_AutomationTaskID := uuidPointerString (AutomationTaskID step);
        DTO_AutomationExecutionID := uuidPointerString (AutomationExecutionID step);
        DTO_StartedAt := StartedAt step; DTO_CompletedAt := CompletedAt step; DTO_CreatedAt := CreatedAt step;
        DTO_UpdatedAt := UpdatedAt step |}.
Fixpoint stepDTOs (planID : uuid) (planVersion : Z) (steps : list DeliveryPlanStep) : Result DTOError (list StepDTO) :=
  match steps with
  | [] => Ok []
  | step :: rest => dto ← stepDTO planID planVersion step; dtos ← stepDTOs planID planVersion rest; Ok (dto :: dtos)
  end.
(** The loop over the dependencies; [stepIndex] and [keyByID] are filled by the loop over the
    steps. *)
Fixpoint addDependencies (planID : uuid) (stepIndex : gmap uuid nat) (keyByID : gmap uuid string)
    (dependencies : list DeliveryPlanStepDependency) (result : list StepDTO) : Result DTOError (list StepDTO) :=
  match dependencies with
  | [] => Ok result
  | dependency :: rest =>
      match stepIndex !! StepID dependency, keyByID !! DependsOnStepID dependency with
      | Some index, Some key =>
          if N.eqb planID Nil || negb (N.eqb (Dependency_PlanID dependency) planID) then Err ForeignDependency
          else addDependencies planID stepIndex keyByID rest
                 (alter (λ d, set_depends_on (DTO_DependsOn d ++ [key])%list d) index result)
      | _, _ => Err ForeignDependency
      end
  end.
Definition DTOs (steps : list DeliveryPlanStep) (dependencies : list DeliveryPlanStepDependency) (planVersion : Z) :
    Result DTOError (list StepDTO) :=
  _ ← fail_if (Z.ltb planVersion 1) VersionRequired;
  let planID := stepsPlanID steps in
  result ← stepDTOs planID planVersion steps;
  let stepIndex := map_of (λ p, Step_ID p.2) fst (imap pair steps) in
  result ← addDependencies planID stepIndex (map_of Step_ID StepKey steps) dependencies result;
  Ok ((λ d, set_depends_on (sort_strings (DTO_DependsOn d)) d) <$>
        sort_by (λ a b, Z.ltb (DTO_Order a) (DTO_Order b)) result).
End DTOs.
