(* ===== verification/PlanHashFacts.v ===== *)
(** * What [Normalize] stores can be read back and hashed

    Evidence requirements and criteria survive the JSON of their columns, and the loops of
    [ApprovedPlanContentHash] are described by relations on the rows: [canonical_of] for the
    steps, [valid_edge] for the dependencies. *)
From stdpp Require Import base tactics list strings gmap sorting.
From Stdlib Require Import Ascii.
From S2P Require Import Prelude GoStrings GoSort Json JsonTypes PlanGraph PlanGraphFacts PlanGraphSpec PlanNormalizeFacts PlanStore PlanStored Sha256.
Open Scope string_scope.

(** ** Decoding what was marshalled *)

Lemma decode_elements_strings l : ∀ array, decode_elements array (map to_value (JString <$> l)) = Some l.
Proof. induction l as [|x l IH]; intros array; [done|]. cbn. by rewrite IH. Qed.
Lemma decode_strings_array array l :
  ∃ slice array', decode_strings array (to_value (nil_or_array (JString <$> l))) = Some (slice, array') ∧ default [] slice = l ∧
    (l ≠ [] → slice = Some l).
Proof.
  destruct l as [|x l]; [by eexists _, _|]. cbn. rewrite decode_elements_strings. cbn. by eexists _, _.
Qed.
(** Decide the field comparisons on concrete keys and run the decoders. *)
Ltac decide_fields :=
  repeat (match goal with |- context [field_is ?a ?b] => let v := eval vm_compute in (field_is a b) in change (field_is a b) with v end;
          cbn -[field_is decode_strings ParseInt itoa to_value]).
Lemma decode_requirement_json r : (- 2 ^ 63 ≤ MaxBytes r < 2 ^ 63)%Z →
  decode_requirement (to_value (EvidenceRequirement_json r)) = Some r.
Proof.
  destruct r as [k t d q c m]. cbn [MaxBytes]. intros Hm%ParseInt_itoa.
  destruct (decode_strings_array [] c) as (slice & array & Hc & Hs & _).
  unfold EvidenceRequirement_json, decode_requirement. cbn [Requirement_Key Requirement_Title Requirement_Description Requirement_Required ContentTypes MaxBytes].
  remember (nil_or_array (JString <$> c)) as types eqn:Ht. clear Ht.
  destruct (String.eqb_spec d "") as [->|Hd]; cbn [app map to_value decode_fields]; unfold decode_field; decide_fields;
    rewrite Hc; cbn [mbind option_bind]; decide_fields; by rewrite Hm; cbn; rewrite Hs.
Qed.
Lemma decode_requirements_json rs : Forall (λ r, (- 2 ^ 63 ≤ MaxBytes r < 2 ^ 63)%Z) rs →
  decode_requirements (to_value (requirements_json rs)) = Some rs.
Proof.
  intros Hall. unfold requirements_json, decode_requirements. cbn [to_value]. induction Hall as [|r rs Hr _ IH]; [done|].
  cbn [fmap list_fmap map mapM]. by rewrite decode_requirement_json, IH.
Qed.
Lemma strings_depth (l : list string) : (json_depth (nil_or_array (JString <$> l)) ≤ 1)%N.
Proof.
  assert (∀ l : list string, foldr (λ j n, N.max (json_depth j) n) 0%N (JString <$> l) = 0%N) as Hz.
  { clear. intros l. induction l as [|x l IH]; [done|]. cbn [fmap list_fmap foldr]. by rewrite IH. }
  destruct l as [|x l]; [done|].
  change (1 + foldr (λ j n, N.max (json_depth j) n) 0 (JString <$> (x :: l)) ≤ 1)%N. by rewrite Hz.
Qed.
Lemma UnmarshalStrings_array cs : cs ≠ [] → forallb utf8_valid cs = true →
  UnmarshalStrings (Marshal (nil_or_array (JString <$> cs))) = Some (Some cs).
Proof.
  intros Hne Hu. destruct (decode_strings_array [] cs) as (slice & array & Hc & _ & Hs). rewrite (Hs Hne) in Hc.
  unfold UnmarshalStrings, read_json. rewrite parse_text_Marshal.
  - cbn [mbind option_bind]. by rewrite Hc.
  - destruct cs as [|c cs]; [done|]. clear Hc Hs Hne. cbn in *. apply andb_true_iff in Hu as [-> Hu]. cbn.
    induction cs as [|x cs IH]; [done|]. cbn in *. apply andb_true_iff in Hu as [-> Hu]. by apply IH.
  - pose proof (strings_depth cs). unfold maxNestingDepth. lia.
Qed.

(** The text of an array is no blank and not [null]. *)
Lemma trim_right_close l : trim_right (l ++ ["]"%char]) = (l ++ ["]"%char])%list.
Proof.
  unfold trim_right. rewrite rev_app_distr. cbn [rev app]. rewrite trim_front_id; [cbn; by rewrite rev_involutive|].
  destruct (rev l) as [|b [|c r]]; [done|..]; cbn; unfold space2, space3; cbn; by rewrite ?andb_false_r.
Qed.
Lemma trim_array l : TrimSpace (Marshal (JArray l)) ≠ "" ∧ TrimSpace (Marshal (JArray l)) ≠ "null".
Proof.
  unfold Marshal, TrimSpace. rewrite bytes_of_bytes. cbn [render].
  assert (trim_left ("["%char :: join (map render l) ++ ["]"%char]) = "["%char :: join (map render l) ++ ["]"%char])%list as ->.
  { apply trim_front_id. cbn. by destruct (_ ++ _)%list as [|b [|c r]]. }
  rewrite app_comm_cons, trim_right_close. split; discriminate.
Qed.

Section Stored.
Context {unicode : GoUnicode}.

Definition requirements_utf8 (rs : list EvidenceRequirement) : Prop := json_utf8 (requirements_json rs) = true.
Lemma requirements_depth rs : (json_depth (requirements_json rs) ≤ 3)%N.
Proof.
  unfold requirements_json. cbn [json_depth]. change 3%N with (1 + 2)%N. apply N.add_le_mono_l.
  induction rs as [|r rs IH]; [done|]. cbn [fmap list_fmap foldr]. apply N.max_lub; [|exact IH].
  pose proof (strings_depth (ContentTypes r)) as Hc. unfold EvidenceRequirement_json. cbn [json_depth].
  destruct (String.eqb _ ""); cbn [app foldr];
    repeat match goal with
    | |- context [json_depth (JString ?s)] => change (json_depth (JString s)) with 0%N
    | |- context [json_depth (JBool ?b)] => change (json_depth (JBool b)) with 0%N
    | |- context [json_depth (JInt ?z)] => change (json_depth (JInt z)) with 0%N
    end; lia.
Qed.

(** Requirements in normal form: what [normalizeEvidenceRequirements] returns. *)
Lemma normalized_requirements rs rs' : normalizeEvidenceRequirements rs = Ok rs' →
  normalizeEvidenceRequirements rs' = Ok rs' ∧ Forall (λ r, (- 2 ^ 63 ≤ MaxBytes r < 2 ^ 63)%Z) rs'.
Proof.
  unfold normalizeEvidenceRequirements. destruct (Nat.ltb _ (length rs)) eqn:Hlen; [done|].
  intros Hrun. apply normalizeRequirements_run in Hrun as (Hl & Hall & Hnd & _). split.
  - rewrite Hl, Hlen. apply normalizeRequirements_ok; [done..|]. intros k _. apply not_elem_of_empty.
  - eapply Forall_impl; [exact Hall|]. intros r Hr. pose proof (requirement_bytes _ Hr). lia.
Qed.
Lemma parse_stored rs rs' : normalizeEvidenceRequirements rs = Ok rs' → requirements_utf8 rs' →
  parseStoredEvidenceRequirements (Marshal (requirements_json rs')) = Some rs'.
Proof.
  intros [Hn Hm]%normalized_requirements Hu. unfold parseStoredEvidenceRequirements.
  destruct (trim_array (EvidenceRequirement_json <$> rs')) as [H1%String.eqb_neq H2%String.eqb_neq].
  unfold requirements_json at 1 2. rewrite H1, H2. cbn [orb]. unfold read_json.
  rewrite parse_text_Marshal; [|exact Hu|pose proof (requirements_depth rs'); unfold maxNestingDepth; lia].
  cbn [mbind option_bind]. rewrite decode_requirements_json by done. cbn. by rewrite Hn.
Qed.
End Stored.

(** ** The loops of [ApprovedPlanContentHash] *)

Lemma invalid_when_ok c m u : invalid_when c m = Ok u ↔ c = false.
Proof. apply fail_if_ok. Qed.

(** ** Maps of inputs that the integration check cannot tell apart *)

Record alike (m1 m2 : gmap string StepInput) : Prop := {
  alike_known : ∀ k, known m1 k ↔ known m2 k;
  alike_step : ∀ k, Role (stepAt m1 k) = Role (stepAt m2 k) ∧ Order (stepAt m1 k) = Order (stepAt m2 k) ∧
    AcceptanceCriteria (stepAt m1 k) = AcceptanceCriteria (stepAt m2 k);
  alike_edge : ∀ k d, edge m1 k d ↔ edge m2 k d;
}.
Lemma alike_sym m1 m2 : alike m1 m2 → alike m2 m1.
Proof.
  intros [H1 H2 H3]. split; [intros k; by rewrite H1| |intros k d; by rewrite H3].
  intros k. destruct (H2 k) as (? & ? & ?). by split_and!.
Qed.
Lemma alike_producer m1 m2 k : alike m1 m2 → producer m1 k ↔ producer m2 k.
Proof. intros [H1 H2 _]. unfold producer. by rewrite H1, (proj1 (H2 k)). Qed.
Lemma integration_alike m1 m2 : alike m1 m2 → integration_ok m1 → integration_ok m2.
Proof.
  intros Ha. pose proof Ha as [H1 H2 H3]. pose proof (alike_producer m1 m2) as Hp.
  intros [->|[ik [C1 C2 C3 C4 C5 C6 C7 C8 C9 C10]]].
  - left. apply map_eq. intros k. rewrite lookup_empty. destruct (m2 !! k) eqn:Hk; [|done].
    assert (known ∅ k) as [? Hb] by (rewrite H1; by eexists). by rewrite lookup_empty in Hb.
  - right. exists ik. assert (∀ k, AcceptanceCriteria (stepAt m1 k) = AcceptanceCriteria (stepAt m2 k)) as Hc by apply H2.
    assert (∀ k, Order (stepAt m1 k) = Order (stepAt m2 k)) as Ho by apply H2.
    assert (∀ k, producer m1 k ↔ producer m2 k) as Hq by (intros k; by apply Hp).
    setoid_rewrite Hc in C4. setoid_rewrite Hc in C5. setoid_rewrite Hc in C6. setoid_rewrite Hc in C7.
    setoid_rewrite Ho in C3. setoid_rewrite Hq in C2. setoid_rewrite Hq in C3. setoid_rewrite Hq in C4. setoid_rewrite Hq in C5.
    setoid_rewrite Hq in C6. setoid_rewrite Hq in C7. setoid_rewrite Hq in C8. setoid_rewrite Hq in C9. setoid_rewrite Hq in C10.
    setoid_rewrite H3 in C8. setoid_rewrite H3 in C9. setoid_rewrite H3 in C10. rewrite H1, (proj1 (H2 ik)) in C1. setoid_rewrite H1 in C2.
    by split.
Qed.

Section Hash.
Context {unicode : GoUnicode} {text : UuidText} (plan : DeliveryPlan).

(** ** The steps *)

(** [c] is what the loop makes of a valid row. *)
Record canonical_of (row : DeliveryPlanStep) (c : canonicalStep) : Prop := {
  can_identity : Step_ID row ≠ Nil ∧ Step_PlanID row = Plan_ID plan;
  can_key : TrimSpace (StepKey row) ≠ "";
  can_order : (0 ≤ DisplayOrder row)%Z;
  can_role : Step_Role row = StepRoleImplementation ∨ Step_Role row = StepRoleIntegration;
  can_criteria : UnmarshalStrings (AcceptanceCriteriaJSON row) = Some (Some (canonical_Criteria c)) ∧
    (length (canonical_Criteria c) ≤ 32)%nat;
  can_evidence : parseStoredEvidenceRequirements (EvidenceRequirementsJSON row) = Some (canonical_Evidence c);
  can_fields : c = {| canonical_ID := Step_ID row; canonical_StepKey := StepKey row; canonical_Role := Step_Role row;
    canonical_DisplayOrder := DisplayOrder row; canonical_Title := Step_Title row; canonical_Objective := Step_Objective row;
    canonical_Criteria := canonical_Criteria c; canonical_Evidence := canonical_Evidence c |};
}.
Definition rebuilt (c : canonicalStep) : StepInput :=
  {| Key := canonical_StepKey c; Role := canonical_Role c; Order := canonical_DisplayOrder c; Title := canonical_Title c;
     Objective := canonical_Objective c; AcceptanceCriteria := canonical_Criteria c; EvidenceRequirements := [];
     DependsOn := []; IdempotencyKey := "" |}.
Definition extend (s : HashSeen) (c : canonicalStep) : HashSeen :=
  {| hash_keyByID := <[canonical_ID c := canonical_StepKey c]> (hash_keyByID s);
     hash_stepKeys := {[canonical_StepKey c]} ∪ hash_stepKeys s;
     hash_inputByKey := <[canonical_StepKey c := rebuilt c]> (hash_inputByKey s);
     hash_steps := (hash_steps s ++ [c])%list |}.

Lemma hashStep_iff s row s' : hashStep plan s row = Ok s' ↔
  ∃ c, canonical_of row c ∧ hash_keyByID s !! canonical_ID c = None ∧ canonical_StepKey c ∉ hash_stepKeys s ∧ s' = extend s c.
Proof.
  unfold hashStep. split.
  - intros H. apply bind_ok in H as ([] & H1 & H). apply bind_ok in H as ([] & H2 & H). apply bind_ok in H as ([] & H3 & H).
    apply bind_ok in H as (cr & H4 & H). apply bind_ok in H as (ev & H5 & H). injection H as <-.
    rewrite invalid_when_ok in H1, H2, H3. rewrite !orb_false_iff, !negb_false_iff, orb_true_iff in H1.
    rewrite !N.eqb_neq, N.eqb_eq, String.eqb_neq, Z.ltb_ge, !String.eqb_eq in H1.
    apply bool_decide_eq_false in H2, H3.
    destruct (UnmarshalStrings _) as [[cr'|]|] eqn:Hcr; [|done..]. destruct (Nat.ltb_spec 32 (length cr')) as [|Hl]; [done|].
    injection H4 as <-. destruct (parseStoredEvidenceRequirements _) as [ev'|] eqn:Hev; [|done]. injection H5 as <-.
    exists {| canonical_ID := Step_ID row; canonical_StepKey := StepKey row; canonical_Role := Step_Role row;
      canonical_DisplayOrder := DisplayOrder row; canonical_Title := Step_Title row; canonical_Objective := Step_Objective row;
      canonical_Criteria := cr'; canonical_Evidence := ev' |}.
    split; [by split; cbn; tauto|]. cbn. split; [by apply eq_None_not_Some|done].
  - intros (c & [[C1 C2] C3 C4 C5 [C6 C6'] C7 C8] & Hid & Hkey & ->). rewrite C8 in Hid, Hkey. cbn in Hid, Hkey.
    apply bind_ok. exists tt. split.
    { apply invalid_when_ok. rewrite !orb_false_iff, !negb_false_iff, orb_true_iff.
      rewrite !N.eqb_neq, N.eqb_eq, String.eqb_neq, Z.ltb_ge, !String.eqb_eq. tauto. }
    apply bind_ok. exists tt. split; [apply invalid_when_ok, bool_decide_eq_false; by rewrite Hid; intros [? ?]|].
    apply bind_ok. exists tt. split; [by apply invalid_when_ok, bool_decide_eq_false|].
    rewrite C6, C7. destruct (Nat.ltb_spec 32 (length (canonical_Criteria c))); [lia|]. cbn. rewrite C8 at 1 2. cbn.
    unfold extend, rebuilt. rewrite C8. cbn. done.
Qed.

Lemma hashSteps_iff rows : ∀ s s', hashSteps plan s rows = Ok s' ↔
  ∃ cs, Forall2 canonical_of rows cs ∧ NoDup (canonical_ID <$> cs) ∧ NoDup (canonical_StepKey <$> cs) ∧
    (∀ c, c ∈ cs → hash_keyByID s !! canonical_ID c = None ∧ canonical_StepKey c ∉ hash_stepKeys s) ∧ s' = foldl extend s cs.
Proof.
  induction rows as [|row rows IH]; intros s s'; cbn [hashSteps].
  - split.
    + intros [= <-]. exists []. split; [constructor|]. split; [constructor|]. split; [constructor|]. split; [by intros c ?%not_elem_of_nil|done].
    + intros (cs & ->%Forall2_nil_inv_l & _ & _ & _ & ->). done.
  - rewrite bind_ok. setoid_rewrite hashStep_iff. setoid_rewrite IH. split.
    + intros (s1 & (c & Hc & Hid & Hkey & ->) & cs & Hcs & Hn1 & Hn2 & Hnew & ->).
      exists (c :: cs). split; [by constructor|]. rewrite !fmap_cons, !NoDup_cons. split; [|split; [|split]].
      * split; [|done]. intros (c' & Heq & Hin)%list_elem_of_fmap. destruct (Hnew c' Hin) as [Hl _]. cbn in Hl.
        by rewrite <-Heq, lookup_insert_eq in Hl.
      * split; [|done]. intros (c' & Heq & Hin)%list_elem_of_fmap. destruct (Hnew c' Hin) as [_ Hl]. cbn in Hl.
        rewrite <-Heq in Hl. set_solver.
      * intros c' [->|Hin]%elem_of_cons; [done|]. destruct (Hnew c' Hin) as [H1 H2]. cbn in H1, H2. split.
        -- destruct (decide (canonical_ID c = canonical_ID c')) as [He|He]; [by rewrite He, lookup_insert_eq in H1|].
           by rewrite lookup_insert_ne in H1.
        -- set_solver.
      * done.
    + intros (cs' & Hall & Hn1 & Hn2 & Hnew & ->). apply Forall2_cons_inv_l in Hall as (c & cs & Hc & Hcs & ->).
      apply NoDup_cons in Hn1 as [Hx1 Hn1], Hn2 as [Hx2 Hn2].
      exists (extend s c). split; [exists c; split; [done|]; split; [apply Hnew; by left|]; split; [apply Hnew; by left|done]|].
      exists cs. repeat (split; [done|]). split; [|done]. intros c' Hin. destruct (Hnew c') as [H1 H2]; [by right|].
      cbn. split.
      * rewrite lookup_insert_ne; [done|]. intros He. apply Hx1. rewrite He. by apply list_elem_of_fmap_2.
      * intros Hu. apply elem_of_union in Hu as [Hu%elem_of_singleton|Hu]; [|done].
        apply Hx2. rewrite <-Hu. by apply list_elem_of_fmap_2.
Qed.

(** ** The dependencies *)

(** The keys of the ends of a valid edge. *)
Definition edge_keys (keyByID : gmap uuid string) (e : DeliveryPlanStepDependency) (ends : string * string) : Prop :=
  Dependency_PlanID e = Plan_ID plan ∧ StepID e ≠ Nil ∧ DependsOnStepID e ≠ Nil ∧ StepID e ≠ DependsOnStepID e ∧
  keyByID !! StepID e = Some ends.1 ∧ keyByID !! DependsOnStepID e = Some ends.2 ∧ ends.1 ≠ "" ∧ ends.2 ≠ "".
Definition ends_of (e : DeliveryPlanStepDependency) : uuid * uuid := (StepID e, DependsOnStepID e).
Definition add_edge (m : gmap string StepInput) (ends : string * string) : gmap string StepInput :=
  <[ends.1 := with_dependency ends.2 (stepAt m ends.1)]> m.

Lemma hashDependencies_iff keyByID es : ∀ m seen m' seen',
  hashDependencies plan keyByID m seen es = Ok (m', seen') ↔
  ∃ ks, Forall2 (edge_keys keyByID) es ks ∧ NoDup (ends_of <$> es) ∧ (∀ e, e ∈ es → ends_of e ∉ seen) ∧
    seen' = (seen ++ (ends_of <$> es))%list ∧ m' = foldl add_edge m ks.
Proof.
  induction es as [|e es IH]; intros m seen m' seen'; cbn [hashDependencies].
  - split.
    + intros [= <- <-]. exists []. split; [constructor|]. split; [constructor|]. split; [by intros c ?%not_elem_of_nil|].
      by rewrite app_nil_r.
    + intros (ks & ->%Forall2_nil_inv_l & _ & _ & -> & ->). by rewrite app_nil_r.
  - fold (ends_of e). rewrite bind_ok. setoid_rewrite bind_ok. setoid_rewrite bind_ok. setoid_rewrite bind_ok. setoid_rewrite bind_ok.
    setoid_rewrite invalid_when_ok. setoid_rewrite IH. split.
    + intros ([] & H1 & k & Hk & d & Hd & [] & H2 & [] & H3 & ks & Hks & Hnd & Hnew & -> & ->).
      rewrite !orb_false_iff, negb_false_iff, !N.eqb_neq, N.eqb_eq in H1. apply bool_decide_eq_false in H2.
      rewrite orb_false_iff, !String.eqb_neq in H3.
      destruct (keyByID !! StepID e) as [k'|] eqn:Hk'; [|done]. injection Hk as ->.
      destruct (keyByID !! DependsOnStepID e) as [d'|] eqn:Hd'; [|done]. injection Hd as ->.
      exists ((k, d) :: ks). split; [constructor; [|done]|].
      { unfold edge_keys. cbn. tauto. }
      rewrite fmap_cons, NoDup_cons. split; [split; [|done]|split; [|split; [|done]]].
      * intros (e' & Heq & Hin)%list_elem_of_fmap. apply (Hnew e' Hin). rewrite <-Heq. set_solver.
      * intros e' [->|Hin]%elem_of_cons; [done|]. intros Hs. apply (Hnew e' Hin). set_solver.
      * by rewrite <-app_assoc.
    + intros (ks' & Hall & Hnd & Hnew & -> & ->). apply Forall2_cons_inv_l in Hall as ([k d] & ks & He & Hks & ->).
      destruct He as (E1 & E2 & E3 & E4 & E5 & E6 & E7 & E8). cbn in E5, E6, E7, E8. apply NoDup_cons in Hnd as [Hx Hnd].
      exists tt. split. { rewrite !orb_false_iff, negb_false_iff, !N.eqb_neq, N.eqb_eq. tauto. }
      exists k. rewrite E5. split; [done|]. exists d. rewrite E6. split; [done|].
      exists tt. split; [apply bool_decide_eq_false, Hnew; by left|].
      exists tt. split; [rewrite orb_false_iff, !String.eqb_neq; tauto|].
      exists ks. split; [done|]. split; [done|]. split; [|by rewrite fmap_cons, <-app_assoc].
      intros e' Hin [Hs|Hs%list_elem_of_singleton]%elem_of_app; [by apply (Hnew e'); [right|]|].
      apply Hx. rewrite <-Hs. by apply list_elem_of_fmap_2.
Qed.

(** What adding the edges does to the map. *)
Lemma add_edges ks : ∀ m, (∀ p, p ∈ ks → known m p.1) →
  let m' := foldl add_edge m ks in ∀ k,
  (known m' k ↔ known m k) ∧ Role (stepAt m' k) = Role (stepAt m k) ∧ Order (stepAt m' k) = Order (stepAt m k) ∧
  AcceptanceCriteria (stepAt m' k) = AcceptanceCriteria (stepAt m k) ∧
  DependsOn (stepAt m' k) = (DependsOn (stepAt m k) ++ (snd <$> filter (λ p, p.1 = k) ks))%list.
Proof.
  induction ks as [|[a d] ks IH]; intros m Hm m' k.
  { subst m'. cbn. by rewrite app_nil_r. }
  assert (known m a) as Ha by (apply (Hm (a, d)); by left).
  assert (∀ k, known (add_edge m (a, d)) k ↔ known m k) as Hk.
  { intros k'. unfold known, add_edge. cbn. destruct (decide (a = k')) as [->|]; [|by rewrite lookup_insert_ne].
    rewrite lookup_insert_eq. split; [done|by eexists]. }
  destruct (IH (add_edge m (a, d))) with (k := k) as (H1 & H2 & H3 & H4 & H5).
  { intros p Hp. apply Hk, Hm. by right. }
  subst m'. cbn [foldl]. rewrite H1, H2, H3, H4, H5, Hk. unfold add_edge, stepAt. cbn [fst snd].
  destruct (decide (a = k)) as [->|Hne].
  - rewrite lookup_insert_eq, filter_cons_True by done. cbn. rewrite <-app_assoc. done.
  - rewrite lookup_insert_ne, filter_cons_False by done. done.
Qed.

(** ** The hash *)

Context {map_range : GoMapRange}.

Definition hash_start : HashSeen := {| hash_keyByID := ∅; hash_stepKeys := ∅; hash_inputByKey := ∅; hash_steps := [] |}.
(** The rows and edges are those of an approved plan, and [cs] its canonical steps. *)
Record hashable (gate : uuid) (rows : list DeliveryPlanStep) (es : list DeliveryPlanStepDependency) (cs : list canonicalStep)
    (ks : list (string * string)) : Prop := {
  hashable_plan : ApprovedGateID plan = Some gate ∧ gate ≠ Nil ∧ Plan_ID plan ≠ Nil ∧ (1 ≤ Version plan)%Z ∧ Plan_Status plan = "approved";
  hashable_size : (1 ≤ length rows ≤ 512)%nat ∧ (length es ≤ 4096)%nat;
  hashable_steps : Forall2 canonical_of rows cs ∧ NoDup (canonical_ID <$> cs) ∧ NoDup (canonical_StepKey <$> cs);
  hashable_edges : Forall2 (edge_keys (hash_keyByID (foldl extend hash_start cs))) es ks ∧ NoDup (ends_of <$> es);
  hashable_graph : integration_ok (foldl add_edge (hash_inputByKey (foldl extend hash_start cs)) ks);
}.
Definition canonical_text (gate : uuid) (cs : list canonicalStep) (es : list DeliveryPlanStepDependency) : json :=
  canonicalPlan_json plan gate (sort_by canonical_before cs) (sort_by edge_before (ends_of <$> es)).

Lemma extend_steps cs : ∀ s, hash_steps (foldl extend s cs) = (hash_steps s ++ cs)%list.
Proof. induction cs as [|c cs IH]; intros s; cbn; [by rewrite app_nil_r|]. rewrite IH. cbn. by rewrite <-app_assoc. Qed.

Lemma ApprovedPlanContentHash_iff rows es h : ApprovedPlanContentHash plan rows es = Ok h ↔
  ∃ gate cs ks, hashable gate rows es cs ks ∧ h = hexSum256 (Marshal (canonical_text gate cs es)).
Proof.
  unfold ApprovedPlanContentHash. split.
  - destruct (ApprovedGateID plan) as [gate|] eqn:Hg; [|done]. destruct (_ || _ || _ || _) eqn:Hbad; [done|].
    rewrite !orb_false_iff, negb_false_iff, !N.eqb_neq, String.eqb_eq, Z.ltb_ge in Hbad. destruct Hbad as [[[Hb1 Hb2] Hb3] Hb4].
    intros Hrun. apply bind_ok in Hrun as ([] & Hsize & Hrun). apply bind_ok in Hrun as (s & Hs & Hrun).
    apply bind_ok in Hrun as ([m seen] & He & Hrun). apply bind_ok in Hrun as ([] & Hi & [= <-]).
    rewrite invalid_when_ok, !orb_false_iff, Nat.eqb_neq, !Nat.ltb_ge in Hsize.
    apply hashSteps_iff in Hs as (cs & Hcs & Hn1 & Hn2 & _ & ->). apply hashDependencies_iff in He as (ks & Hks & Hnd & _ & -> & ->).
    exists gate, cs, ks. split; [split; try done; [split; lia|]|by rewrite extend_steps].
    destruct (validateIntegrationGraph _) as [[]|] eqn:Hv; [|done]. by apply validateIntegrationGraph_iff in Hv.
  - intros (gate & cs & ks & [(-> & H1 & H2 & H3 & ->) H4 (H5 & H6 & H7) (H8 & H9) H10] & ->).
    rewrite (proj2 (N.eqb_neq _ _) H2), (proj2 (N.eqb_neq _ _) H1), (proj2 (Z.ltb_ge _ _)) by lia. cbn [orb negb String.eqb].
    change (String.eqb "approved" "approved") with true. cbn [negb orb].
    apply bind_ok. exists tt. split.
    { rewrite invalid_when_ok, !orb_false_iff, Nat.eqb_neq, !Nat.ltb_ge. lia. }
    apply bind_ok. exists (foldl extend hash_start cs). split.
    { apply hashSteps_iff. exists cs. split; [done|]. split; [done|]. split; [done|]. split; [|done].
      intros c _. cbn. split; [done|apply not_elem_of_empty]. }
    apply bind_ok. eexists (_, _). split.
    { apply hashDependencies_iff. exists ks. split; [exact H8|]. split; [exact H9|]. split; [by intros e _ ?%not_elem_of_nil|]. by split. }
    apply validateIntegrationGraph_iff in H10. rewrite H10. cbn [mbind result_mbind result_bind].
    by rewrite extend_steps.
Qed.
End Hash.

(** ** The hash depends on content only *)

(** The rows of one step, whatever its lifecycle. *)
Record same_content (r1 r2 : DeliveryPlanStep) : Prop := {
  same_identity : Step_ID r1 = Step_ID r2 ∧ Step_PlanID r1 = Step_PlanID r2 ∧ StepKey r1 = StepKey r2 ∧ Step_Role r1 = Step_Role r2;
  same_text : DisplayOrder r1 = DisplayOrder r2 ∧ Step_Title r1 = Step_Title r2 ∧ Step_Objective r1 = Step_Objective r2;
  same_columns : AcceptanceCriteriaJSON r1 = AcceptanceCriteriaJSON r2 ∧ EvidenceRequirementsJSON r1 = EvidenceRequirementsJSON r2;
  same_idempotency : Step_IdempotencyKey r1 = Step_IdempotencyKey r2;
}.
Lemma same_content_refl r : same_content r r.
Proof. by split. Qed.
Lemma same_content_trans r1 r2 r3 : same_content r1 r2 → same_content r2 r3 → same_content r1 r3.
Proof.
  intros [(?&?&?&?) (?&?&?) (?&?) ?] [(?&?&?&?) (?&?&?) (?&?) ?]. split; try split_and!; congruence.
Qed.
(** The same steps, in any order and state. *)
Definition same_steps (rows1 rows2 : list DeliveryPlanStep) : Prop := ∃ rows, rows1 ≡ₚ rows ∧ Forall2 same_content rows rows2.

Section Content.
Context {unicode : GoUnicode} {text : UuidText} (plan : DeliveryPlan).

Lemma canonical_same r1 r2 c : same_content r1 r2 → canonical_of plan r1 c → canonical_of plan r2 c.
Proof.
  intros [(H1 & H2 & H3 & H4) (H5 & H6 & H7) (H8 & H9) _] [C1 C2 C3 C4 C5 C6 C7].
  split; by rewrite <-?H1, <-?H2, <-?H3, <-?H4, <-?H5, <-?H6, <-?H7, <-?H8, <-?H9.
Qed.

Lemma extend_keyByID cs : hash_keyByID (foldl extend hash_start cs) = foldl (λ m c, <[canonical_ID c := canonical_StepKey c]> m) ∅ cs.
Proof.
  change ∅ with (hash_keyByID hash_start). generalize hash_start. induction cs as [|c cs IH]; intros s; [done|]. cbn [foldl]. by rewrite IH.
Qed.
Lemma extend_inputs cs : hash_inputByKey (foldl extend hash_start cs) = foldl (λ m c, <[canonical_StepKey c := rebuilt c]> m) ∅ cs.
Proof.
  change ∅ with (hash_inputByKey hash_start). generalize hash_start. induction cs as [|c cs IH]; intros s; [done|]. cbn [foldl]. by rewrite IH.
Qed.
Lemma keyByID_lookup cs id k : NoDup (canonical_ID <$> cs) →
  hash_keyByID (foldl extend hash_start cs) !! id = Some k ↔ ∃ c, c ∈ cs ∧ canonical_ID c = id ∧ canonical_StepKey c = k.
Proof.
  intros Hnd. rewrite extend_keyByID, foldl_insert_Some by done. rewrite lookup_empty. split; [intros [?|[? _]]; [done..]|by left].
Qed.
Lemma inputs_lookup cs k x : NoDup (canonical_StepKey <$> cs) →
  hash_inputByKey (foldl extend hash_start cs) !! k = Some x ↔ ∃ c, c ∈ cs ∧ canonical_StepKey c = k ∧ rebuilt c = x.
Proof.
  intros Hnd. rewrite extend_inputs, foldl_insert_Some by done. rewrite lookup_empty. split; [intros [?|[? _]]; [done..]|by left].
Qed.

(** The ends of the edges are steps. *)
Lemma edge_known cs es ks p : NoDup (canonical_ID <$> cs) → NoDup (canonical_StepKey <$> cs) →
  Forall2 (edge_keys plan (hash_keyByID (foldl extend hash_start cs))) es ks → p ∈ ks →
  known (hash_inputByKey (foldl extend hash_start cs)) p.1.
Proof.
  intros Hi Hk Hall [i Hp]%list_elem_of_lookup. destruct (Forall2_lookup_r _ _ _ _ _ Hall Hp) as (e & _ & He).
  destruct He as (_ & _ & _ & _ & Hd & _). apply (keyByID_lookup cs _ _ Hi) in Hd as (c & Hc & _ & Hkey).
  exists (rebuilt c). apply inputs_lookup; [done|]. by exists c.
Qed.

Lemma canonical_before_total cs x y : NoDup (canonical_ID <$> cs) → x ∈ cs → y ∈ cs →
  canonical_before x y = false → canonical_before y x = false → x = y.
Proof.
  intros Hnd [i Hi]%list_elem_of_lookup [j Hj]%list_elem_of_lookup.
  unfold canonical_before. rewrite !orb_false_iff, !andb_false_iff, !Z.ltb_ge, !Z.eqb_neq. intros [H1 H2] [H3 H4].
  assert (canonical_ID x = canonical_ID y) as Hid.
  { apply uuid_text_inj, (key_less_false_eq uuid_text); unfold key_less; destruct H2, H4; try lia; done. }
  assert (i = j) as ->; [|congruence]. eapply (NoDup_lookup (canonical_ID <$> cs)); [done|..]; rewrite list_lookup_fmap.
  - by rewrite Hi.
  - by rewrite Hj, Hid.
Qed.
Lemma edge_before_total (x y : uuid * uuid) : edge_before x y = false → edge_before y x = false → x = y.
Proof.
  destruct x as [a b], y as [a' b']. unfold edge_before. cbn. rewrite !orb_false_iff, !andb_false_iff. intros [H1 H2] [H3 H4].
  assert (a = a') as <- by (apply uuid_text_inj, (key_less_false_eq uuid_text); done). rewrite String.eqb_refl in *.
  destruct H2 as [|H2], H4 as [|H4]; try done. f_equal. by apply uuid_text_inj, (key_less_false_eq uuid_text).
Qed.

#[local] Instance canonical_trans : Transitive (not_less canonical_before).
Proof.
  intros x y z. unfold not_less, canonical_before. rewrite !orb_false_iff, !andb_false_iff, !Z.ltb_ge, !Z.eqb_neq, !ltb_false_le.
  intros [H1 H2] [H3 H4]. split; [lia|].
  destruct (decide (canonical_DisplayOrder z = canonical_DisplayOrder x)) as [Heq|]; [right|by left].
  destruct H2, H4; try lia. by etrans.
Qed.
Lemma canonical_before_asym x y : canonical_before x y = true → canonical_before y x = false.
Proof.
  unfold canonical_before. rewrite !orb_true_iff, !andb_true_iff, orb_false_iff, andb_false_iff, !Z.ltb_lt, !Z.eqb_eq, Z.ltb_ge, Z.eqb_neq.
  intros [H|[H1 H2]]; [split; [lia|left; lia]|]. split; [lia|right]. by apply (key_less_asym uuid_text).
Qed.
#[local] Instance edge_trans : Transitive (not_less edge_before).
Proof.
  intros [a1 b1] [a2 b2] [a3 b3]. unfold not_less, edge_before. cbn. rewrite !orb_false_iff, !andb_false_iff, !ltb_false_le.
  intros [H1 H2] [H3 H4]. split; [by etrans|].
  destruct (String.eqb_spec (uuid_text a3) (uuid_text a1)) as [Heq|]; [right|by left]. rewrite Heq in H3, H4.
  assert (uuid_text a2 = uuid_text a1) as Hab by (by apply (anti_symm String.le)). rewrite Hab, String.eqb_refl in H2, H4.
  destruct H2, H4; try done. by etrans.
Qed.
Lemma ltb_irrefl s : String.ltb s s = false.
Proof. destruct (String.ltb s s) eqn:H; [|done]. rewrite <-H. by apply (key_less_asym id). Qed.
Lemma edge_before_asym x y : edge_before x y = true → edge_before y x = false.
Proof.
  unfold edge_before. rewrite orb_true_iff, andb_true_iff, orb_false_iff, andb_false_iff. intros [H|[H1%String.eqb_eq H2]].
  - split; [by apply (key_less_asym uuid_text)|left]. apply String.eqb_neq. intros Heq. by rewrite Heq, ltb_irrefl in H.
  - rewrite H1, ltb_irrefl. split; [done|right; by apply (key_less_asym uuid_text)].
Qed.

Context {map_range : GoMapRange}.

(** Reordering rows and edges, or changing the lifecycle of the rows, keeps the hash. *)
Lemma hash_same_steps rows1 rows2 es1 es2 h : same_steps rows1 rows2 → es1 ≡ₚ es2 →
  ApprovedPlanContentHash plan rows1 es1 = Ok h → ApprovedPlanContentHash plan rows2 es2 = Ok h.
Proof.
  intros (rows & Hperm & Hsame) Hes. rewrite !ApprovedPlanContentHash_iff.
  intros (gate & cs & ks & [H1 [H2 H3] (H4 & H5 & H6) (H7 & H8) H9] & ->).
  destruct (Permutation_Forall2 Hperm H4) as (cs2 & Hcs & Hall). destruct (Permutation_Forall2 Hes H7) as (ks2 & Hks & Hall2).
  assert (NoDup (canonical_ID <$> cs2)) as Hn1 by by rewrite <-Hcs.
  assert (NoDup (canonical_StepKey <$> cs2)) as Hn2 by by rewrite <-Hcs.
  assert (hash_keyByID (foldl extend hash_start cs2) = hash_keyByID (foldl extend hash_start cs)) as Hids.
  { apply map_eq. intros id. apply option_eq. intros k. rewrite !keyByID_lookup by done. by setoid_rewrite Hcs. }
  assert (hash_inputByKey (foldl extend hash_start cs2) = hash_inputByKey (foldl extend hash_start cs)) as Hin.
  { apply map_eq. intros id. apply option_eq. intros k. rewrite !inputs_lookup by done. by setoid_rewrite Hcs. }
  exists gate, cs2, ks2. split; [split|].
  - done.
  - rewrite <-(Forall2_length _ _ _ Hsame), <-Hperm, <-Hes. done.
  - split; [|done]. clear -Hall Hsame. revert cs2 Hall. induction Hsame as [|r1 r2 l1 l2 Hr _ IH]; intros cs2 Hall.
    + by apply Forall2_nil_inv_l in Hall as ->.
    + apply Forall2_cons_inv_l in Hall as (c & cs & Hc & Hcs & ->). constructor; [by eapply canonical_same|by apply IH].
  - rewrite Hids. split; [done|]. by rewrite <-Hes.
  - rewrite Hin. revert H9. apply integration_alike.
    assert (∀ p, p ∈ ks → known (hash_inputByKey (foldl extend hash_start cs)) p.1) as Hkn by (intros p; by eapply edge_known).
    pose proof (add_edges ks _ Hkn) as A1.
    assert (∀ p, p ∈ ks2 → known (hash_inputByKey (foldl extend hash_start cs)) p.1) as Hkn2 by (intros p Hp; apply Hkn; by rewrite Hks).
    pose proof (add_edges ks2 _ Hkn2) as A2. cbn zeta in *. split.
    + intros k. destruct (A1 k) as (-> & _), (A2 k) as (-> & _). done.
    + intros k. destruct (A1 k) as (_ & -> & -> & -> & _), (A2 k) as (_ & -> & -> & -> & _). done.
    + intros k d. unfold edge. destruct (A1 k) as (_ & _ & _ & _ & ->), (A2 k) as (_ & _ & _ & _ & ->). by rewrite Hks.
  - unfold canonical_text. do 3 f_equal.
    + apply sort_by_unique; [apply _|apply canonical_before_asym| |done]. intros x y. by apply canonical_before_total.
    + apply sort_by_unique; [apply _|apply edge_before_asym| |by rewrite Hes]. intros x y _ _. apply edge_before_total.
Qed.
End Content.
