(* ===== verification/PlanLease.v ===== *)
(** * Step leases: [services/deliveryplansteps/claim.go]

    A worker that holds a running automation task claims a step of the approved plan, renews
    its lease and reports its outcome.  Each claim raises the step's fence by one; renewals and
    transitions must present the fence and the identity of the claim.  The operations run in
    the caller's transaction ([T]); [input.Now], a clock override for tests, is kept. *)
From stdpp Require Import base tactics list strings gmap.
From Stdlib Require Import Ascii.
From S2P Require Import Prelude GoStrings GoSort PlanGraph PlanStore.
Open Scope string_scope.

Definition Second : Z := 1000000000.
Definition MinStepLeaseTTL : Z := 15 * Second.
Definition MaxStepLeaseTTL : Z := 15 * 60 * Second.
Definition MaxInt64 : Z := 2 ^ 63 - 1.
Definition stepAgentKeyPattern : string → bool := re_ident is_lower is_slug 1 63.

Record ClaimInput := {
  Claim_PlanID : uuid;
  Claim_AutomationTaskID : uuid;
  Claim_RunID : string;
  Claim_WorkerID : string;
  Claim_AgentKey : string;
  Claim_MachineID : string;
  Claim_LeaseTTL : Z;
  Claim_Now : Z;
}.
Record ClaimResult := { Available : bool; ClaimedStep : option DeliveryPlanStep; Fence : Z; Result_LeaseExpiresAt : option Z }.
Definition noClaim : ClaimResult := {| Available := false; ClaimedStep := None; Fence := 0; Result_LeaseExpiresAt := None |}.
Record LeaseInput := {
  Lease_StepID : uuid;
  Lease_AutomationTaskID : uuid;
  Lease_RunID : string;
  Lease_WorkerID : string;
  Lease_AgentKey : string;
  Lease_MachineID : string;
  Lease_Fence : Z;
  LeaseTTL : Z;
  Lease_Now : Z;
}.
Record TransitionInput := {
  Transition_StepID : uuid;
  Transition_AutomationTaskID : uuid;
  Transition_RunID : string;
  Transition_WorkerID : string;
  Transition_AgentKey : string;
  Transition_MachineID : string;
  Transition_Fence : Z;
  Transition_Status : string;
  Transition_Now : Z;
}.
Record leaseIdentity := {
  Identity_AutomationTaskID : uuid;
  Identity_RunID : string;
  Identity_WorkerID : string;
  Identity_AgentKey : string;
  Identity_MachineID : string;
}.
Record normalizedClaim := { Normalized_PlanID : uuid; Identity : leaseIdentity }.

Definition invalidStepInput {A} (message : string) : Result StoreError A := Err (ErrStepInputInvalid message).

(** ** Input checks *)

Definition validateStepLeaseTTL (ttl : Z) : Result StoreError Z :=
  if Z.ltb ttl MinStepLeaseTTL || Z.ltb MaxStepLeaseTTL ttl
  then invalidStepInput "lease_ttl must be between 15s and 15m0s" else Ok ttl.
Definition validStepStatus (status : string) : bool :=
  existsb (String.eqb status)
    [DeliveryPlanStepPlanned; DeliveryPlanStepReady; DeliveryPlanStepRunning; DeliveryPlanStepBlocked;
     DeliveryPlanStepCompleted; DeliveryPlanStepFailed; DeliveryPlanStepSkipped].
Definition summaryForStatus (status : string) : string :=
  if String.eqb status DeliveryPlanStepReady then "Step made ready"
  else if String.eqb status DeliveryPlanStepRunning then "Step started"
  else if String.eqb status DeliveryPlanStepBlocked then "Step blocked"
  else if String.eqb status DeliveryPlanStepCompleted then "Step completed"
  else if String.eqb status DeliveryPlanStepFailed then "Step failed"
  else if String.eqb status DeliveryPlanStepSkipped then "Step skipped"
  else "Step status changed".

Section Inputs.
Context {unicode : GoUnicode} {text : UuidText}.

Definition canonicalUUID (raw field : string) : Result StoreError string :=
  match FromString (TrimSpace raw) with
  | Some parsed => if N.eqb parsed Nil then invalidStepInput (field +:+ " must be a non-zero UUID") else Ok (uuid_text parsed)
  | None => invalidStepInput (field +:+ " must be a non-zero UUID")
  end.
Definition optionalCanonicalUUID (raw field : string) : Result StoreError string :=
  if String.eqb (TrimSpace raw) "" then Ok "" else canonicalUUID raw field.

Definition normalizeClaimInput (input : ClaimInput) : Result StoreError (normalizedClaim * Z) :=
  _ ← (if N.eqb (Claim_PlanID input) Nil || N.eqb (Claim_AutomationTaskID input) Nil
       then invalidStepInput "plan_id and automation_task_id are required" else Ok tt);
  runID ← canonicalUUID (Claim_RunID input) "run_id";
  workerID ← canonicalUUID (Claim_WorkerID input) "worker_id";
  let trimmed := TrimSpace (Claim_AgentKey input) in
  let agentKey := if String.eqb trimmed "" then "generalist" else trimmed in
  _ ← (if negb (stepAgentKeyPattern agentKey) then invalidStepInput "agent_key has an invalid format" else Ok tt);
  machineID ← optionalCanonicalUUID (Claim_MachineID input) "machine_id";
  ttl ← validateStepLeaseTTL (Claim_LeaseTTL input);
  Ok ({| Normalized_PlanID := Claim_PlanID input;
         Identity := {| Identity_AutomationTaskID := Claim_AutomationTaskID input; Identity_RunID := runID;
                        Identity_WorkerID := workerID; Identity_AgentKey := agentKey; Identity_MachineID := machineID |} |}, ttl).

Definition normalizeLeaseIdentity (taskID : uuid) (runID workerID agentKey machineID : string) : Result StoreError leaseIdentity :=
  canonicalRunID ← canonicalUUID runID "run_id";
  canonicalWorkerID ← canonicalUUID workerID "worker_id";
  let agentKey := TrimSpace agentKey in
  _ ← (if negb (stepAgentKeyPattern agentKey) then invalidStepInput "agent_key has an invalid format" else Ok tt);
  canonicalMachineID ← optionalCanonicalUUID machineID "machine_id";
  Ok {| Identity_AutomationTaskID := taskID; Identity_RunID := canonicalRunID; Identity_WorkerID := canonicalWorkerID;
        Identity_AgentKey := agentKey; Identity_MachineID := canonicalMachineID |}.

Definition requiredLease (stepID taskID : uuid) (fence : Z) : Result StoreError unit :=
  if N.eqb stepID Nil || N.eqb taskID Nil || Z.ltb fence 1
  then invalidStepInput "step_id, automation_task_id, and positive fence are required" else Ok tt.
Definition normalizeLeaseInput (input : LeaseInput) : Result StoreError (leaseIdentity * Z) :=
  _ ← requiredLease (Lease_StepID input) (Lease_AutomationTaskID input) (Lease_Fence input);
  identity ← normalizeLeaseIdentity (Lease_AutomationTaskID input) (Lease_RunID input) (Lease_WorkerID input)
               (Lease_AgentKey input) (Lease_MachineID input);
  ttl ← validateStepLeaseTTL (LeaseTTL input);
  Ok (identity, ttl).
Definition normalizeTransitionInput (input : TransitionInput) : Result StoreError (leaseIdentity * string) :=
  _ ← requiredLease (Transition_StepID input) (Transition_AutomationTaskID input) (Transition_Fence input);
  identity ← normalizeLeaseIdentity (Transition_AutomationTaskID input) (Transition_RunID input)
               (Transition_WorkerID input) (Transition_AgentKey input) (Transition_MachineID input);
  let status := ToLower (TrimSpace (Transition_Status input)) in
  _ ← (if negb (validStepStatus status)
       then invalidStepInput "status is not a supported delivery plan step state" else Ok tt);
  Ok (identity, status).
End Inputs.

(** ** Reading under lock *)

Section Lease.
Context {unicode : GoUnicode} {text : UuidText} (tx : Tx).

Definition leaseValidationTime (reading : nat) (clockOverride : Z) : Z :=
  if Z.eqb clockOverride 0 then tick tx reading else clockOverride.

Definition task_matches (task : AutomationTask) (identity : leaseIdentity) (now : Z) : bool :=
  String.eqb (ToLower (TrimSpace (Task_Status task))) "running" &&
  String.eqb (TrimSpace (Task_RunID task)) (Identity_RunID identity) &&
  String.eqb (TrimSpace (Task_WorkerID task)) (Identity_WorkerID identity) &&
  String.eqb (TrimSpace (Task_AgentKey task)) (Identity_AgentKey identity) &&
  String.eqb (TrimSpace (Task_MachineID task)) (Identity_MachineID identity) &&
  after_opt (Task_LeaseExpiresAt task) now.
Definition loadLeasedTask (identity : leaseIdentity) (clockOverride : Z) : T (AutomationTask * Z) :=
  task ← first tasks (Identity_AutomationTaskID identity);
  let now := leaseValidationTime 0 clockOverride in
  _ ← check (task_matches task identity now) ErrStepLeaseConflict;
  mret (task, now).

Definition plan_approved (plan : DeliveryPlan) (workItem : uuid) : bool :=
  N.eqb (WorkItemID plan) workItem && String.eqb (Plan_Status plan) "approved" &&
  match ApprovedGateID plan with Some gate => negb (N.eqb gate Nil) | None => false end.
Definition holds_lease (step : DeliveryPlanStep) (identity : leaseIdentity) : bool :=
  bool_decide (AutomationTaskID step = Some (Identity_AutomationTaskID identity)) &&
  String.eqb (RunID step) (Identity_RunID identity) && String.eqb (WorkerID step) (Identity_WorkerID identity) &&
  String.eqb (AgentKey step) (Identity_AgentKey identity) && String.eqb (MachineID step) (Identity_MachineID identity).
Definition loadFencedStep (stepID : uuid) (identity : leaseIdentity) (fence : Z) (task : AutomationTask)
    (clockOverride : Z) (requireRunning : bool) : T (DeliveryPlanStep * Z) :=
  step ← first steps stepID;
  let now := leaseValidationTime 1 clockOverride in
  _ ← check (holds_lease step identity && Z.eqb (LeaseFence step) fence && after_opt (LeaseExpiresAt step) now &&
             negb (requireRunning && negb (String.eqb (Status step) DeliveryPlanStepRunning)) &&
             after_opt (Task_LeaseExpiresAt task) now) ErrStepLeaseConflict;
  match DeliveryWorkItemID task with
  | None => raise ErrStepLeaseConflict
  | Some workItem =>
      plan ← first plans (Step_PlanID step);
      _ ← check (plan_approved plan workItem) ErrStepLeaseConflict;
      mret (step, now)
  end.

(** ** Writing *)

Definition updatePlanStep (stepID : uuid) (updates : DeliveryPlanStep → DeliveryPlanStep) : T unit :=
  row ← first steps stepID;
  write (λ db, set_steps (<[stepID := updates row]> (steps db)) db).

Definition createStepEvent (step : DeliveryPlanStep) (eventType fromStatus toStatus summary : string)
    (task : AutomationTask) (fence now : Z) : T unit :=
  n ← read drawn;
  match fresh tx n with
  | None => raise EventIdentity
  | Some id =>
      _ ← check (Nat.leb (String.length summary) 160)
            (ErrStepInputInvalid "step event summary exceeds 160 characters");
      let event :=
        {| Event_ID := id; Event_PlanID := Step_PlanID step; Event_StepID := Step_ID step; EventType := eventType;
           FromStatus := fromStatus; ToStatus := toStatus; Event_AutomationTaskID := Task_ID task;
           Event_RunID := Task_RunID task; Event_WorkerID := Task_WorkerID task; Event_AgentKey := Task_AgentKey task;
           Event_MachineID := Task_MachineID task; AgentInstanceID := instance tx; Event_LeaseFence := fence;
           Summary := summary; OccurredAt := now; Event_CreatedAt := now |} in
      write (λ db, {| plans := plans db; tasks := tasks db; steps := steps db; edges := edges db;
                      events := (events db ++ [event])%list; drawn := S (drawn db); dispatch := dispatch db |})
  end.

(** [Updates] of a few columns of a step row. *)
Definition with_status (status : string) (now : Z) (s : DeliveryPlanStep) : DeliveryPlanStep :=
  {| Step_ID := Step_ID s; Step_PlanID := Step_PlanID s; StepKey := StepKey s; Step_IdempotencyKey := Step_IdempotencyKey s;
     Step_Role := Step_Role s; DisplayOrder := DisplayOrder s; Step_Title := Step_Title s; Step_Objective := Step_Objective s;
     AcceptanceCriteriaJSON := AcceptanceCriteriaJSON s; EvidenceRequirementsJSON := EvidenceRequirementsJSON s;
     Status := status; AgentKey := AgentKey s; WorkerID := WorkerID s; MachineID := MachineID s;
     AutomationTaskID := AutomationTaskID s; AutomationExecutionID := AutomationExecutionID s; RunID := RunID s;
     LeaseFence := LeaseFence s; LeaseExpiresAt := LeaseExpiresAt s; CreatedBy := CreatedBy s; StartedAt := StartedAt s;
     CompletedAt := CompletedAt s; CreatedAt := CreatedAt s; UpdatedAt := now |}.
Definition with_expiry (expiry now : Z) (s : DeliveryPlanStep) : DeliveryPlanStep :=
  {| Step_ID := Step_ID s; Step_PlanID := Step_PlanID s; StepKey := StepKey s; Step_IdempotencyKey := Step_IdempotencyKey s;
     Step_Role := Step_Role s; DisplayOrder := DisplayOrder s; Step_Title := Step_Title s; Step_Objective := Step_Objective s;
     AcceptanceCriteriaJSON := AcceptanceCriteriaJSON s; EvidenceRequirementsJSON := EvidenceRequirementsJSON s;
     Status := Status s; AgentKey := AgentKey s; WorkerID := WorkerID s; MachineID := MachineID s;
     AutomationTaskID := AutomationTaskID s; AutomationExecutionID := AutomationExecutionID s; RunID := RunID s;
     LeaseFence := LeaseFence s; LeaseExpiresAt := Some expiry; CreatedBy := CreatedBy s; StartedAt := StartedAt s;
     CompletedAt := CompletedAt s; CreatedAt := CreatedAt s; UpdatedAt := now |}.
Definition with_outcome (status : string) (now : Z) (s : DeliveryPlanStep) : DeliveryPlanStep :=
  let finished := String.eqb status DeliveryPlanStepCompleted || String.eqb status DeliveryPlanStepSkipped in
  {| Step_ID := Step_ID s; Step_PlanID := Step_PlanID s; StepKey := StepKey s; Step_IdempotencyKey := Step_IdempotencyKey s;
     Step_Role := Step_Role s; DisplayOrder := DisplayOrder s; Step_Title := Step_Title s; Step_Objective := Step_Objective s;
     AcceptanceCriteriaJSON := AcceptanceCriteriaJSON s; EvidenceRequirementsJSON := EvidenceRequirementsJSON s;
     Status := status; AgentKey := AgentKey s; WorkerID := WorkerID s; MachineID := MachineID s;
     AutomationTaskID := AutomationTaskID s; AutomationExecutionID := AutomationExecutionID s; RunID := RunID s;
     LeaseFence := LeaseFence s; LeaseExpiresAt := LeaseExpiresAt s; CreatedBy := CreatedBy s; StartedAt := StartedAt s;
     CompletedAt := if finished then Some now else CompletedAt s; CreatedAt := CreatedAt s; UpdatedAt := now |}.
(** The step as its new holder runs it. *)
Definition claimed_by (task : AutomationTask) (fence expiry now : Z) (s : DeliveryPlanStep) : DeliveryPlanStep :=
  {| Step_ID := Step_ID s; Step_PlanID := Step_PlanID s; StepKey := StepKey s; Step_IdempotencyKey := Step_IdempotencyKey s;
     Step_Role := Step_Role s; DisplayOrder := DisplayOrder s; Step_Title := Step_Title s; Step_Objective := Step_Objective s;
     AcceptanceCriteriaJSON := AcceptanceCriteriaJSON s; EvidenceRequirementsJSON := EvidenceRequirementsJSON s;
     Status := DeliveryPlanStepRunning; AgentKey := Task_AgentKey task; WorkerID := Task_WorkerID task;
     MachineID := Task_MachineID task; AutomationTaskID := Some (Task_ID task); AutomationExecutionID := None;
     RunID := Task_RunID task; LeaseFence := fence; LeaseExpiresAt := Some expiry; CreatedBy := CreatedBy s;
     StartedAt := match StartedAt s with Some t => Some t | None => Some now end;
     CompletedAt := CompletedAt s; CreatedAt := CreatedAt s; UpdatedAt := now |}.

Definition resultFor (step : DeliveryPlanStep) : ClaimResult :=
  {| Available := true; ClaimedStep := Some step; Fence := LeaseFence step; Result_LeaseExpiresAt := LeaseExpiresAt step |}.

(** ** Claims *)

(** The step this task and run already hold, for a retried claim. *)
Definition is_active (planID : uuid) (task : AutomationTask) (identity : leaseIdentity) (now : Z)
    (s : DeliveryPlanStep) : bool :=
  N.eqb (Step_PlanID s) planID && bool_decide (AutomationTaskID s = Some (Task_ID task)) &&
  String.eqb (RunID s) (Identity_RunID identity) && String.eqb (WorkerID s) (Identity_WorkerID identity) &&
  String.eqb (AgentKey s) (Identity_AgentKey identity) && String.eqb (MachineID s) (Identity_MachineID identity) &&
  String.eqb (Status s) DeliveryPlanStepRunning && after_opt (LeaseExpiresAt s) now && negb (locked tx (Step_ID s)).

(** The step's status and lease let a new holder in. *)
Definition lease_free (now : Z) (s : DeliveryPlanStep) : bool :=
  (String.eqb (Status s) DeliveryPlanStepPlanned || String.eqb (Status s) DeliveryPlanStepReady) &&
    match LeaseExpiresAt s with None => true | Some t => Z.leb t now end ||
  String.eqb (Status s) DeliveryPlanStepRunning && until_opt (LeaseExpiresAt s) now.
Definition is_eligible (db : DB) (planID : uuid) (agentKey : string) (targetStepID : option uuid) (now : Z)
    (s : DeliveryPlanStep) : bool :=
  N.eqb (Step_PlanID s) planID && (String.eqb (AgentKey s) "" || String.eqb (AgentKey s) agentKey) &&
  lease_free now s && dependencies_completed db s &&
  match targetStepID with Some id => N.eqb (Step_ID s) id | None => true end &&
  negb (locked tx (Step_ID s)).

(** The part of the claim after a free step is selected. *)
Definition takeStep (task : AutomationTask) (step : DeliveryPlanStep) (ttl now : Z) : T ClaimResult :=
  _ ← check (negb (Z.ltb (LeaseFence step) 0 || Z.eqb (LeaseFence step) MaxInt64))
        (ErrStepInputInvalid "step lease fencing counter is exhausted");
  let newFence := (LeaseFence step + 1)%Z in
  let wanted := (now + ttl)%Z in
  let leaseExpiresAt := match Task_LeaseExpiresAt task with
                        | Some t => if Z.ltb t wanted then t else wanted
                        | None => wanted
                        end in
  _ ← check (Z.ltb now leaseExpiresAt) ErrStepLeaseConflict;
  let planned := String.eqb (Status step) DeliveryPlanStepPlanned in
  _ ← (if planned then
         _ ← updatePlanStep (Step_ID step) (with_status DeliveryPlanStepReady now);
         createStepEvent step DeliveryPlanStepEventReady (Status step) DeliveryPlanStepReady "Step ready" task newFence now
       else mret tt);
  let previousStatus := if planned then DeliveryPlanStepReady else Status step in
  let step' := claimed_by task newFence leaseExpiresAt now step in
  _ ← updatePlanStep (Step_ID step) (claimed_by task newFence leaseExpiresAt now);
  let reclaimed := String.eqb previousStatus DeliveryPlanStepRunning in
  _ ← createStepEvent step'
        (if reclaimed then DeliveryPlanStepEventLeaseReclaimed else DeliveryPlanStepEventClaimed)
        previousStatus (Status step') (if reclaimed then "Expired step lease reclaimed" else "Step claimed") task newFence now;
  mret (resultFor step').

Definition claimReadyStepInTransaction (input : ClaimInput) (targetStepID : option uuid) : T ClaimResult :=
  '(claim, ttl) ← lift (normalizeClaimInput input);
  let identity := Identity claim in
  plan ← first plans (Normalized_PlanID claim);
  _ ← check (EqualFold (TrimSpace (Plan_Status plan)) "approved" &&
             match ApprovedGateID plan with Some gate => negb (N.eqb gate Nil) | None => false end)
        (ErrStepInputInvalid "delivery plan must have a human-approved version");
  '(task, now) ← loadLeasedTask identity (Claim_Now input);
  _ ← check (bool_decide (DeliveryWorkItemID task = Some (WorkItemID plan))) ErrStepLeaseConflict;
  active ← read (select_steps (is_active (Plan_ID plan) task identity now));
  match active with
  | held :: _ =>
      _ ← check (match targetStepID with Some id => N.eqb (Step_ID held) id | None => true end) ErrStepLeaseConflict;
      mret (resultFor held)
  | [] =>
      eligible ← read (λ db, select_steps (is_eligible db (Plan_ID plan) (Identity_AgentKey identity) targetStepID now) db);
      match eligible with
      | [] => mret noClaim
      | step :: _ => takeStep task step ttl now
      end
  end.

Definition ClaimNextReadyInTransaction (input : ClaimInput) : T ClaimResult :=
  claimReadyStepInTransaction input None.
Definition ClaimSpecificReadyInTransaction (input : ClaimInput) (stepID : uuid) : T ClaimResult :=
  if N.eqb stepID Nil then raise (ErrStepInputInvalid "step_id is required for a targeted claim")
  else claimReadyStepInTransaction input (Some stepID).

(** ** Renewal and transition *)

Definition RenewStepLeaseInTransaction (input : LeaseInput) : T unit :=
  '(identity, ttl) ← lift (normalizeLeaseInput input);
  '(task, _) ← loadLeasedTask identity (Lease_Now input);
  '(step, now) ← loadFencedStep (Lease_StepID input) identity (Lease_Fence input) task (Lease_Now input) true;
  _ ← check (after_opt (Task_LeaseExpiresAt task) now) ErrStepLeaseConflict;
  let wanted := (now + ttl)%Z in
  let newExpiry := match Task_LeaseExpiresAt task with
                   | Some t => if Z.ltb t wanted then t else wanted
                   | None => wanted
                   end in
  _ ← check (match LeaseExpiresAt step with Some t => Z.ltb t newExpiry | None => false end) ErrStepLeaseConflict;
  _ ← updatePlanStep (Step_ID step) (with_expiry newExpiry now);
  createStepEvent step DeliveryPlanStepEventLeaseRenewed (Status step) (Status step) "Step lease renewed" task
    (LeaseFence step) now.

Definition TransitionStepInTransaction (input : TransitionInput) : T unit :=
  '(identity, nextStatus) ← lift (normalizeTransitionInput input);
  '(task, _) ← loadLeasedTask identity (Transition_Now input);
  '(step, now) ← loadFencedStep (Transition_StepID input) identity (Transition_Fence input) task (Transition_Now input) false;
  _ ← check (after_opt (Task_LeaseExpiresAt task) now) ErrStepLeaseConflict;
  if String.eqb (Status step) nextStatus then mret tt
  else
    _ ← check (CanTransitionStatus (Status step) nextStatus) (TransitionNotAllowed (Status step) nextStatus);
    _ ← check (EqualFold (Status step) DeliveryPlanStepRunning) ErrStepLeaseConflict;
    _ ← updatePlanStep (Step_ID step) (with_outcome nextStatus now);
    createStepEvent (with_outcome nextStatus now step) DeliveryPlanStepEventTransitioned (Status step) nextStatus
      (summaryForStatus nextStatus) task (LeaseFence step) now.
End Lease.
