(* ===== verification/PlanLeaseFacts.v ===== *)
(** * Lemmas on the step leases, and the invariant of a run

    What each of the three operations does to the tables when it succeeds: [takeStep_run] and
    [claim_run] for a claim, [renew_run], [transition_run]; and the order of the step queries.
    [ledger] is what every run of the step executor keeps. *)
From stdpp Require Import base tactics list strings gmap sorting relations.
From S2P Require Import Prelude GoStrings GoSort PlanGraph PlanStore PlanLease.
Open Scope string_scope.

(** Runs through a transaction that succeeded: one hypothesis for each step. *)
Ltac tx_step H :=
  lazymatch type of H with
  | (_ ≫= _) _ = Ok _ =>
      let a := fresh "v" in let db := fresh "db" in let Ha := fresh "Hs" in
      apply T_bind_ok in H as (a & db & Ha & H)
  end.
Ltac tx_facts :=
  repeat match goal with
  | H : check _ _ _ = Ok _ |- _ => apply check_ok in H as [H ->]
  | H : first _ _ _ = Ok _ |- _ => apply first_ok in H as [H ->]
  | H : lift _ _ = Ok _ |- _ => apply lift_ok in H as [H ->]
  | H : read _ _ = Ok _ |- _ => unfold read in H; injection H as <- <-
  | H : write _ _ = Ok _ |- _ => unfold write in H; injection H as <- <-
  | H : mret _ _ = Ok _ |- _ => unfold mret, T_ret in H; injection H; clear H; intros; subst
  end.

(** ** The order of the queries *)

#[local] Instance step_before_trans : Transitive (not_less step_before).
Proof.
  intros x y z. unfold not_less, step_before. rewrite !orb_false_iff, !andb_false_iff, !Z.ltb_ge, !Z.eqb_neq, !N.ltb_ge. lia.
Qed.
Lemma step_before_asym x y : step_before x y = true → step_before y x = false.
Proof.
  unfold step_before. rewrite orb_true_iff, andb_true_iff, orb_false_iff, andb_false_iff, Z.ltb_lt, Z.ltb_ge, Z.eqb_eq, Z.eqb_neq, N.ltb_lt, N.ltb_ge. lia.
Qed.

(** Rows are stored under their own identity. *)
Record well_keyed (db : DB) : Prop := {
  keyed_steps : ∀ id s, steps db !! id = Some s → Step_ID s = id;
  keyed_tasks : ∀ id t, tasks db !! id = Some t → Task_ID t = id;
  keyed_plans : ∀ id p, plans db !! id = Some p → Plan_ID p = id;
  (** [lease_fence] is a 64-bit column *)
  keyed_fence : ∀ id s, steps db !! id = Some s → (LeaseFence s ≤ MaxInt64)%Z;
}.

Lemma elem_of_rows (db : DB) s : well_keyed db → s ∈ (map_to_list (steps db)).*2 ↔ steps db !! Step_ID s = Some s.
Proof.
  intros Hk. rewrite list_elem_of_fmap. split.
  - intros ([id s'] & -> & Hin%elem_of_map_to_list). cbn. by rewrite (keyed_steps _ Hk id s').
  - intros Hs. exists (Step_ID s, s). by rewrite elem_of_map_to_list.
Qed.
Lemma elem_of_select p db s : well_keyed db → s ∈ select_steps p db ↔ steps db !! Step_ID s = Some s ∧ p s = true.
Proof. intros Hk. unfold select_steps. rewrite sort_by_elem, list_elem_of_filter, elem_of_rows by done. tauto. Qed.
Lemma select_nil p db : well_keyed db → select_steps p db = [] ↔ ∀ id s, steps db !! id = Some s → p s = false.
Proof.
  intros Hk. split.
  - intros He id s Hs. destruct (p s) eqn:Hp; [|done]. pose proof (keyed_steps _ Hk id s Hs) as <-.
    assert (s ∈ select_steps p db) as Hin by (by apply elem_of_select). rewrite He in Hin. by apply not_elem_of_nil in Hin.
  - intros Hall. destruct (select_steps p db) as [|s l] eqn:He; [done|].
    assert (s ∈ select_steps p db) as [Hs Hp]%elem_of_select by (rewrite ?He; try left; done); [|done].
    by rewrite (Hall _ _ Hs) in Hp.
Qed.
(** The first selected row is a selected row, and no selected row comes before it. *)
Lemma select_first p db s l : well_keyed db → select_steps p db = s :: l →
  steps db !! Step_ID s = Some s ∧ p s = true ∧
  ∀ id s', steps db !! id = Some s' → p s' = true → step_before s' s = false.
Proof.
  intros Hk He. assert (s ∈ select_steps p db) as Hin by (rewrite He; by left).
  apply elem_of_select in Hin as [Hs Hp]; [|done]. split; [done|]. split; [done|]. intros id s' Hs' Hp'.
  pose proof (keyed_steps _ Hk id s' Hs') as <-.
  assert (s' ∈ select_steps p db) as Hin' by (by apply elem_of_select).
  pose proof (sort_by_sorted step_before _ step_before_asym (filter (λ x, p x = true) (map_to_list (steps db)).*2)) as Hsort.
  fold (select_steps p db) in Hsort. rewrite He in Hsort, Hin'.
  apply elem_of_cons in Hin' as [->|Hin'].
  - unfold step_before. by rewrite Z.ltb_irrefl, Z.eqb_refl, N.ltb_irrefl.
  - apply StronglySorted_inv in Hsort as [_ Hall]. rewrite Forall_forall in Hall. by apply (Hall s' Hin').
Qed.

Section Lease.
Context {unicode : GoUnicode} {text : UuidText} (tx : Tx).

Lemma updatePlanStep_run id f db u db' :
  updatePlanStep id f db = Ok (u, db') → ∃ row, steps db !! id = Some row ∧ db' = set_steps (<[id := f row]> (steps db)) db.
Proof. unfold updatePlanStep. intros H. tx_step H. tx_facts. eauto. Qed.

(** An event of the log, with the holder it names. *)
Definition event_of (step : DeliveryPlanStep) (task : AutomationTask) (fence now : Z) (e : DeliveryPlanStepEvent) : Prop :=
  Event_StepID e = Step_ID step ∧ Event_PlanID e = Step_PlanID step ∧ Event_LeaseFence e = fence ∧
  Event_AutomationTaskID e = Task_ID task ∧ Event_RunID e = Task_RunID task ∧ Event_WorkerID e = Task_WorkerID task ∧
  Event_AgentKey e = Task_AgentKey task ∧ Event_MachineID e = Task_MachineID task ∧ OccurredAt e = now ∧
  AgentInstanceID e = instance tx.

Lemma createStepEvent_run step ty fs ts sm task fence now db u db' :
  createStepEvent tx step ty fs ts sm task fence now db = Ok (u, db') →
  ∃ e, event_of step task fence now e ∧ EventType e = ty ∧ FromStatus e = fs ∧ ToStatus e = ts ∧
       plans db' = plans db ∧ tasks db' = tasks db ∧ steps db' = steps db ∧ edges db' = edges db ∧
       events db' = (events db ++ [e])%list.
Proof.
  unfold createStepEvent. intros H. tx_step H. tx_facts. destruct (fresh tx (drawn db)) as [id|]; [|done].
  tx_step H. tx_facts. cbn. eexists. split; [|split; [|split; [|split; [|split; [done|split; [done|split; [done|split; [done|reflexivity]]]]]]]];
    unfold event_of; done.
Qed.

(** The lease a claim or renewal at [now] asks for, cut to the task's own lease. *)
Definition capped (task : AutomationTask) (now ttl : Z) : Z :=
  match Task_LeaseExpiresAt task with
  | Some t => if Z.ltb t (now + ttl) then t else now + ttl
  | None => now + ttl
  end.
Lemma capped_bound task now ttl :
  (capped task now ttl ≤ now + ttl)%Z ∧ ∀ t, Task_LeaseExpiresAt task = Some t → (capped task now ttl ≤ t)%Z.
Proof.
  unfold capped. destruct (Task_LeaseExpiresAt task) as [t|]; [|split; [lia|done]].
  destruct (Z.ltb_spec t (now + ttl)); (split; [lia|]); intros ? [= <-]; lia.
Qed.

(** The events of a claim: the step becomes ready if it was planned, then is claimed. *)
Definition is_claim (e : DeliveryPlanStepEvent) : Prop :=
  EventType e = DeliveryPlanStepEventClaimed ∨ EventType e = DeliveryPlanStepEventLeaseReclaimed.
Record taken (db db' : DB) (task : AutomationTask) (step : DeliveryPlanStep) (expiry now : Z) : Prop := {
  taken_fence : (0 ≤ LeaseFence step < MaxInt64)%Z;
  taken_steps : steps db' = <[Step_ID step := claimed_by task (LeaseFence step + 1) expiry now step]> (steps db);
  taken_rest : plans db' = plans db ∧ tasks db' = tasks db ∧ edges db' = edges db;
  taken_events : ∃ ready e, events db' = (events db ++ ready ++ [e])%list ∧ is_claim e ∧
    event_of step task (LeaseFence step + 1) now e ∧
    (Status step ≠ DeliveryPlanStepPlanned → ready = []) ∧
    ∀ e', e' ∈ ready → EventType e' = DeliveryPlanStepEventReady ∧ event_of step task (LeaseFence step + 1) now e';
}.

Lemma takeStep_run task step ttl now db r db' :
  takeStep tx task step ttl now db = Ok (r, db') → steps db !! Step_ID step = Some step → (LeaseFence step ≤ MaxInt64)%Z →
  let expiry := capped task now ttl in
  (now < expiry)%Z ∧ taken db db' task step expiry now ∧ r = resultFor (claimed_by task (LeaseFence step + 1) expiry now step).
Proof.
  unfold takeStep. intros H Hrow Hmax. fold (capped task now ttl) in H. cbv zeta.
  apply T_bind_ok in H as (u1 & d1 & Hf & H). apply T_bind_ok in H as (u2 & d2 & Hx & H).
  apply T_bind_ok in H as (u3 & db2 & Hr & H). apply T_bind_ok in H as (u4 & db3 & Hu & H).
  apply T_bind_ok in H as (u5 & db4 & Hc & H). tx_facts. subst.
  apply negb_true_iff, orb_false_iff in Hf as [Hf1%Z.ltb_ge Hf2%Z.eqb_neq]. apply Z.ltb_lt in Hx.
  assert (∃ ready row, steps db2 !! Step_ID step = Some row ∧
            (∀ f e n, claimed_by task f e n row = claimed_by task f e n step) ∧
            (∀ row', <[Step_ID step := row']> (steps db2) = <[Step_ID step := row']> (steps db)) ∧
            plans db2 = plans db ∧ tasks db2 = tasks db ∧ edges db2 = edges db ∧ events db2 = (events db ++ ready)%list ∧
            (Status step ≠ DeliveryPlanStepPlanned → ready = []) ∧
            ∀ e', e' ∈ ready → EventType e' = DeliveryPlanStepEventReady ∧ event_of step task (LeaseFence step + 1) now e')
    as (ready & row & Hst & Hsame & Hins & Hp & Ht & He & Hev & Hnone & Hready).
  { destruct (String.eqb_spec (Status step) DeliveryPlanStepPlanned) as [Heq|Hne].
    - apply T_bind_ok in Hr as (u6 & db5 & Hs & Hr). apply updatePlanStep_run in Hs as (row & Hrow' & ->).
      rewrite Hrow in Hrow'. injection Hrow' as <-.
      apply createStepEvent_run in Hr as (e & Hof & Hty & _ & _ & ? & ? & Hse & ? & ?). cbn in *.
      exists [e], (with_status DeliveryPlanStepReady now step). rewrite Hse. split; [by rewrite lookup_insert_eq|].
      split; [done|]. split; [intros row'; by rewrite insert_insert_eq|]. repeat (split; [done|]).
      by intros e' ->%list_elem_of_singleton.
    - tx_facts. exists [], step. rewrite app_nil_r. repeat (split; [done|]). by intros e' ?%not_elem_of_nil. }
  apply updatePlanStep_run in Hu as (row2 & Hrow2 & ->). rewrite Hst in Hrow2. injection Hrow2 as <-.
  apply createStepEvent_run in Hc as (e & Hof & Hty & _ & _ & Hp' & Ht' & Hst' & He' & Hev'). cbn in Hp', Ht', Hst', He', Hev'.
  split; [done|]. split; [|done]. split.
  - unfold MaxInt64 in *. lia.
  - by rewrite Hst', Hsame, Hins.
  - by rewrite Hp', Ht', He'.
  - exists ready, e. rewrite Hev', Hev, <-app_assoc. split; [done|].
    split; [unfold is_claim; rewrite Hty; destruct (String.eqb _ DeliveryPlanStepRunning); auto|]. done.
Qed.

(** ** The whole claim *)

(** What a claim has checked before it looks at the steps. *)
Record claiming (input : ClaimInput) (db : DB) (identity : leaseIdentity) (ttl : Z) (plan : DeliveryPlan)
    (task : AutomationTask) (now : Z) : Prop := {
  claiming_input : normalizeClaimInput input = Ok ({| Normalized_PlanID := Claim_PlanID input; Identity := identity |}, ttl);
  claiming_plan : plans db !! Claim_PlanID input = Some plan;
  claiming_approved : EqualFold (TrimSpace (Plan_Status plan)) "approved" = true ∧
    ∃ gate, ApprovedGateID plan = Some gate ∧ gate ≠ Nil;
  claiming_task : tasks db !! Identity_AutomationTaskID identity = Some task;
  claiming_matches : task_matches task identity now = true;
  claiming_now : now = leaseValidationTime tx 0 (Claim_Now input);
  claiming_item : DeliveryWorkItemID task = Some (WorkItemID plan);
}.

Section Claim.
Context (input : ClaimInput) (target : option uuid) (db : DB).
Context (identity : leaseIdentity) (ttl : Z) (plan : DeliveryPlan) (task : AutomationTask) (now : Z).

Definition held_now (s : DeliveryPlanStep) : bool := is_active tx (Plan_ID plan) task identity now s.
Definition claimable (s : DeliveryPlanStep) : bool :=
  is_eligible tx db (Plan_ID plan) (Identity_AgentKey identity) target now s.

Inductive claim_outcome (r : ClaimResult) (db' : DB) : Prop :=
| claim_retried held : db' = db → r = resultFor held → steps db !! Step_ID held = Some held → held_now held = true →
    (∀ id, target = Some id → Step_ID held = id) →
    (∀ id s, steps db !! id = Some s → held_now s = true → step_before s held = false) → claim_outcome r db'
| claim_empty : db' = db → r = noClaim →
    (∀ id s, steps db !! id = Some s → held_now s = false ∧ claimable s = false) → claim_outcome r db'
| claim_taken step : steps db !! Step_ID step = Some step → claimable step = true →
    (∀ id s, steps db !! id = Some s → held_now s = false) →
    (∀ id s, steps db !! id = Some s → claimable s = true → step_before s step = false) →
    (now < capped task now ttl)%Z → taken db db' task step (capped task now ttl) now →
    r = resultFor (claimed_by task (LeaseFence step + 1) (capped task now ttl) now step) → claim_outcome r db'.
End Claim.

Lemma normalizeClaimInput_plan input claim ttl :
  normalizeClaimInput input = Ok (claim, ttl) → claim = {| Normalized_PlanID := Claim_PlanID input; Identity := Identity claim |}.
Proof.
  unfold normalizeClaimInput. intros H. repeat (apply bind_ok in H as (? & _ & H)). by injection H as <- <-.
Qed.

Lemma loadLeasedTask_run identity override db task now db' :
  loadLeasedTask tx identity override db = Ok ((task, now), db') →
  db' = db ∧ tasks db !! Identity_AutomationTaskID identity = Some task ∧ task_matches task identity now = true ∧
  now = leaseValidationTime tx 0 override.
Proof.
  unfold loadLeasedTask. intros H. apply T_bind_ok in H as (t & d1 & Hf & H). apply T_bind_ok in H as (u & d2 & Hc & H).
  by tx_facts.
Qed.

Lemma claim_run input target db r db' :
  well_keyed db → claimReadyStepInTransaction tx input target db = Ok (r, db') →
  ∃ identity ttl plan task now, claiming input db identity ttl plan task now ∧
    claim_outcome target db identity ttl plan task now r db'.
Proof.
  intros Hk H. unfold claimReadyStepInTransaction in H.
  apply T_bind_ok in H as ([claim ttl] & d1 & Hin & H). apply T_bind_ok in H as (plan & d2 & Hp & H).
  apply T_bind_ok in H as (u1 & d3 & Ha & H). apply T_bind_ok in H as ([task now] & d4 & Ht & H).
  apply T_bind_ok in H as (u2 & d5 & Hi & H). apply T_bind_ok in H as (active & d6 & Hact & H).
  apply loadLeasedTask_run in Ht as (-> & Ht & Hm & Hnow). tx_facts.
  apply andb_true_iff in Ha as [Ha Hgate]. apply bool_decide_eq_true in Hi.
  pose proof (normalizeClaimInput_plan _ _ _ Hin) as Hcl. rewrite Hcl in Hin, Hp. cbn [Normalized_PlanID] in Hp.
  exists (Identity claim), ttl, plan, task, now. split.
  { split; try done. split; [done|]. destruct (ApprovedGateID plan) as [gate|]; [|done]. exists gate. split; [done|].
    by apply negb_true_iff, N.eqb_neq in Hgate. }
  destruct (select_steps (is_active tx (Plan_ID plan) task (Identity claim) now) db) as [|held rest] eqn:Hsel.
  - rewrite (select_nil _ _ Hk) in Hsel. apply T_bind_ok in H as (el & d7 & Hel & H). tx_facts.
    destruct (select_steps _ db) as [|step rest] eqn:Hel in H.
    + tx_facts. apply claim_empty; [done|done|]. rewrite (select_nil _ _ Hk) in Hel. intros id s Hs. by split; [apply (Hsel id)|apply (Hel id)].
    + apply (select_first _ _ _ _ Hk) in Hel as (Hrow & Hp' & Hfirst).
      apply takeStep_run in H as (Hx & Htk & Hr); [|done|by eapply keyed_fence].
      by apply (claim_taken _ _ _ _ _ _ _ _ _ step).
  - apply T_bind_ok in H as (u3 & d7 & Hc & H). tx_facts. apply (select_first _ _ _ _ Hk) in Hsel as (Hrow & Hp' & Hmin).
    apply (claim_retried _ _ _ _ _ _ _ _ _ held); try done. intros id ->. by apply N.eqb_eq in Hc.
Qed.

(** ** Renewal and transition *)

Lemma loadFencedStep_run stepID identity fence task override running db step now db' :
  loadFencedStep tx stepID identity fence task override running db = Ok ((step, now), db') →
  db' = db ∧ steps db !! stepID = Some step ∧ holds_lease step identity = true ∧ LeaseFence step = fence ∧
  after_opt (LeaseExpiresAt step) now = true ∧ (running = true → Status step = DeliveryPlanStepRunning) ∧
  now = leaseValidationTime tx 1 override ∧
  ∃ item plan, DeliveryWorkItemID task = Some item ∧ plans db !! Step_PlanID step = Some plan ∧ plan_approved plan item = true.
Proof.
  unfold loadFencedStep. intros H. apply T_bind_ok in H as (s & d1 & Hf & H). apply T_bind_ok in H as (u & d2 & Hc & H).
  tx_facts. rewrite !andb_true_iff in Hc. destruct Hc as [[[[Hh Hfe%Z.eqb_eq] Hl] Hr] _].
  destruct (DeliveryWorkItemID task) as [item|] eqn:Hitem; [|done].
  apply T_bind_ok in H as (plan & d3 & Hp & H). apply T_bind_ok in H as (u2 & d4 & Ha & H). tx_facts.
  repeat (split; [done|]). split.
  { intros ->. apply negb_true_iff, andb_false_iff in Hr as [|Hr]; [done|]. by apply negb_false_iff, String.eqb_eq in Hr. }
  split; [done|]. by exists item, plan.
Qed.

(** What renewals and transitions have checked. *)
Record fenced (stepID : uuid) (identity : leaseIdentity) (fence : Z) (override : Z) (db : DB) (task : AutomationTask)
    (step : DeliveryPlanStep) (now : Z) : Prop := {
  fenced_task : tasks db !! Identity_AutomationTaskID identity = Some task ∧
    task_matches task identity (leaseValidationTime tx 0 override) = true;
  fenced_step : steps db !! stepID = Some step;
  fenced_holder : holds_lease step identity = true ∧ LeaseFence step = fence ∧ (1 ≤ fence)%Z;
  fenced_live : after_opt (LeaseExpiresAt step) now = true ∧ after_opt (Task_LeaseExpiresAt task) now = true;
  fenced_now : now = leaseValidationTime tx 1 override;
  fenced_plan : ∃ item plan, DeliveryWorkItemID task = Some item ∧ plans db !! Step_PlanID step = Some plan ∧
    plan_approved plan item = true;
}.

(** Only the row [id] and the log change, and the log by the entry [e]. *)
Definition wrote (db db' : DB) (id : uuid) (row : DeliveryPlanStep) (e : DeliveryPlanStepEvent) : Prop :=
  steps db' = <[id := row]> (steps db) ∧ plans db' = plans db ∧ tasks db' = tasks db ∧ edges db' = edges db ∧
  events db' = (events db ++ [e])%list.

Lemma requiredLease_ok id task fence u : requiredLease id task fence = Ok u → (1 ≤ fence)%Z.
Proof. unfold requiredLease. destruct (_ || _ || _) eqn:Hc; [done|]. apply orb_false_iff in Hc as [_ Hc%Z.ltb_ge]. done. Qed.

Lemma renew_run input db u db' :
  well_keyed db → RenewStepLeaseInTransaction tx input db = Ok (u, db') →
  ∃ identity ttl task step now old e, normalizeLeaseInput input = Ok (identity, ttl) ∧
    fenced (Lease_StepID input) identity (Lease_Fence input) (Lease_Now input) db task step now ∧
    Status step = DeliveryPlanStepRunning ∧ LeaseExpiresAt step = Some old ∧ (old < capped task now ttl)%Z ∧
    wrote db db' (Step_ID step) (with_expiry (capped task now ttl) now step) e ∧
    event_of step task (LeaseFence step) now e ∧ EventType e = DeliveryPlanStepEventLeaseRenewed.
Proof.
  intros Hk H. unfold RenewStepLeaseInTransaction in H.
  apply T_bind_ok in H as ([identity ttl] & d1 & Hin & H). apply T_bind_ok in H as ([task now0] & d2 & Ht & H).
  apply T_bind_ok in H as ([step now] & d3 & Hs & H). apply T_bind_ok in H as (u1 & d4 & Hl & H).
  apply T_bind_ok in H as (u2 & d5 & He & H). apply T_bind_ok in H as (u3 & d6 & Hu & H). tx_facts.
  apply loadLeasedTask_run in Ht as (-> & Ht & Hm & ->).
  apply loadFencedStep_run in Hs as (-> & Hrow & Hh & Hf & Hlive & Hrun & Hnow & Hplan).
  fold (capped task now ttl) in He, Hu. destruct (LeaseExpiresAt step) as [old|] eqn:Hold; [|done]. apply Z.ltb_lt in He.
  apply updatePlanStep_run in Hu as (row & Hrow' & ->). pose proof (keyed_steps _ Hk _ _ Hrow) as Hid.
  rewrite Hid, Hrow in Hrow'. injection Hrow' as <-.
  apply createStepEvent_run in H as (e & Hof & Hty & _ & _ & Hp' & Ht' & Hst' & He' & Hev'). cbn in Hp', Ht', Hst', He', Hev'.
  exists identity, ttl, task, step, now, old, e. split; [done|]. split.
  { split; try done; [|by rewrite Hold]. split; [done|]. split; [done|].
    unfold normalizeLeaseInput in Hin. apply bind_ok in Hin as (? & Hq & _). by eapply requiredLease_ok. }
  split; [by apply Hrun|]. split; [done|]. split; [done|]. split; [by unfold wrote|done].
Qed.

Lemma transition_run input db u db' :
  well_keyed db → TransitionStepInTransaction tx input db = Ok (u, db') →
  ∃ identity next task step now, normalizeTransitionInput input = Ok (identity, next) ∧
    fenced (Transition_StepID input) identity (Transition_Fence input) (Transition_Now input) db task step now ∧
    (Status step = next ∧ db' = db ∨
     Status step ≠ next ∧ CanTransitionStatus (Status step) next = true ∧ EqualFold (Status step) DeliveryPlanStepRunning = true ∧
     ∃ e, wrote db db' (Step_ID step) (with_outcome next now step) e ∧
          event_of step task (LeaseFence step) now e ∧ EventType e = DeliveryPlanStepEventTransitioned).
Proof.
  intros Hk H. unfold TransitionStepInTransaction in H.
  apply T_bind_ok in H as ([identity next] & d1 & Hin & H). apply T_bind_ok in H as ([task now0] & d2 & Ht & H).
  apply T_bind_ok in H as ([step now] & d3 & Hs & H). apply T_bind_ok in H as (u1 & d4 & Hl & H). tx_facts.
  apply loadLeasedTask_run in Ht as (-> & Ht & Hm & ->).
  apply loadFencedStep_run in Hs as (-> & Hrow & Hh & Hf & Hlive & Hrun & Hnow & Hplan).
  exists identity, next, task, step, now. split; [done|]. split.
  { split; try done. split; [done|]. split; [done|].
    unfold normalizeTransitionInput in Hin. apply bind_ok in Hin as (? & Hq & _). by eapply requiredLease_ok. }
  destruct (String.eqb_spec (Status step) next) as [Heq|Hne].
  { left. unfold mret, T_ret in H. by injection H as <- <-. }
  right. apply T_bind_ok in H as (u2 & d5 & Hc & H). apply T_bind_ok in H as (u3 & d6 & Hr & H).
  apply T_bind_ok in H as (u4 & d7 & Hu & H). tx_facts.
  apply updatePlanStep_run in Hu as (row & Hrow' & ->). pose proof (keyed_steps _ Hk _ _ Hrow) as Hid.
  rewrite Hid, Hrow in Hrow'. injection Hrow' as <-.
  apply createStepEvent_run in H as (e & Hof & Hty & _ & _ & Hp' & Ht' & Hst' & He' & Hev'). cbn in Hp', Ht', Hst', He', Hev'.
  repeat (split; [done|]). exists e. split; [by unfold wrote|]. by split.
Qed.
End Lease.

(** ** Runs of the step executor and their invariant

    A run interleaves claims, renewals and transitions of any workers with changes other
    services make to the plans and tasks.  [ledger] is what every run from a fresh plan keeps:
    each fence of a step is issued by one claim, the step's current fence by the claim of its
    current holder, and every other event of the log was written under a fence issued to the
    same holder. *)

#[export] Instance is_claim_dec e : Decision (is_claim e).
Proof. unfold is_claim. apply _. Defined.

(** ** Holders *)

Definition holder := (option uuid * string * string * string * string)%type.
Definition holder_of_step (s : DeliveryPlanStep) : holder :=
  (AutomationTaskID s, TrimSpace (RunID s), TrimSpace (WorkerID s), TrimSpace (AgentKey s), TrimSpace (MachineID s)).
Definition holder_of_event (e : DeliveryPlanStepEvent) : holder :=
  (Some (Event_AutomationTaskID e), TrimSpace (Event_RunID e), TrimSpace (Event_WorkerID e),
   TrimSpace (Event_AgentKey e), TrimSpace (Event_MachineID e)).
Definition holder_of_identity (i : leaseIdentity) : holder :=
  (Some (Identity_AutomationTaskID i), Identity_RunID i, Identity_WorkerID i, Identity_AgentKey i, Identity_MachineID i).

Section Runs.
Context {unicode : GoUnicode} {text : UuidText}.

(** One step of a run, with the clock reading its lease checks used. *)
Inductive executes (db : DB) : Z → DB → Prop :=
| executes_claim tx input target r db' :
    claimReadyStepInTransaction tx input target db = Ok (r, db') →
    executes db (leaseValidationTime tx 0 (Claim_Now input)) db'
| executes_renew tx input u db' :
    RenewStepLeaseInTransaction tx input db = Ok (u, db') →
    executes db (leaseValidationTime tx 1 (Lease_Now input)) db'
| executes_transition tx input u db' :
    TransitionStepInTransaction tx input db = Ok (u, db') →
    executes db (leaseValidationTime tx 1 (Transition_Now input)) db'
| executes_world t db' :
    steps db' = steps db → edges db' = edges db → events db' = events db → well_keyed db' → executes db t db'.

(** A run with the readings of its steps, in order. *)
Inductive execution (db : DB) : list Z → DB → Prop :=
| execution_start : execution db [] db
| execution_step ts db1 t db2 : execution db ts db1 → executes db1 t db2 → execution db (ts ++ [t]) db2.

(** ** Well-formed tables *)

Lemma well_keyed_insert db db' id row :
  well_keyed db → steps db' = <[id := row]> (steps db) → plans db' = plans db → tasks db' = tasks db →
  Step_ID row = id → (LeaseFence row ≤ MaxInt64)%Z → well_keyed db'.
Proof.
  intros [Hs Ht Hp Hf] Hst Hpl Hta Hid Hmax. split; rewrite ?Hst, ?Hpl, ?Hta; try done.
  - intros i s [[<- <-]|[_ H]]%lookup_insert_Some; eauto.
  - intros i s [[<- <-]|[_ H]]%lookup_insert_Some; eauto.
Qed.

Lemma executes_keyed db t db' : well_keyed db → executes db t db' → well_keyed db'.
Proof.
  intros Hk [tx input target r db1 H|tx input u db1 H|tx input u db1 H|]; [..|done].
  - apply claim_run in H as (identity & ttl & plan & task & now & _ & Ho); [|done].
    destruct Ho as [held -> _ _ _ _ _| -> _ _|step Hrow _ _ _ _ [Hf Hst (Hp & Ht & _) _] _]; [done..|].
    eapply well_keyed_insert; [done|exact Hst|done..|]. cbn. unfold MaxInt64 in *. lia.
  - apply renew_run in H as (identity & ttl & task & step & now & old & e & _ & Hfen & _ & _ & _ & (Hst & Hp & Ht & _) & _); [|done].
    eapply well_keyed_insert; [done|exact Hst|done..|]. cbn. by eapply keyed_fence; [|apply Hfen].
  - apply transition_run in H as (identity & next & task & step & now & _ & Hfen & [[_ ->]|(_ & _ & _ & e & (Hst & Hp & Ht & _) & _)]); [done| |done].
    eapply well_keyed_insert; [done|exact Hst|done..|]. cbn. by eapply keyed_fence; [|apply Hfen].
Qed.

(** ** The ledger *)

Definition issued (db : DB) : list DeliveryPlanStepEvent := filter is_claim (events db).
Definition ticket (e : DeliveryPlanStepEvent) : uuid * Z := (Event_StepID e, Event_LeaseFence e).
Record ledger (db : DB) : Prop := {
  ledger_keyed : well_keyed db;
  ledger_once : NoDup (ticket <$> issued db);
  ledger_bounded : ∀ e, e ∈ issued db → ∃ s, steps db !! Event_StepID e = Some s ∧ (1 ≤ Event_LeaseFence e ≤ LeaseFence s)%Z;
  ledger_current : ∀ id s, steps db !! id = Some s → (1 ≤ LeaseFence s)%Z →
    ∃ e, e ∈ issued db ∧ ticket e = (id, LeaseFence s) ∧ holder_of_event e = holder_of_step s;
  ledger_acts : ∀ e, e ∈ events db → ∃ c, c ∈ issued db ∧ ticket c = ticket e ∧ holder_of_event c = holder_of_event e;
}.

(** A fresh plan: no event, no fence. *)
Definition fresh_plan (db : DB) : Prop :=
  well_keyed db ∧ events db = [] ∧ ∀ id s, steps db !! id = Some s → LeaseFence s = 0%Z.
Lemma ledger_fresh db : fresh_plan db → ledger db.
Proof.
  intros (Hk & He & Hf). split; unfold issued; rewrite ?He; [done|constructor|..].
  - by intros e ?%not_elem_of_nil.
  - intros id s Hs. rewrite (Hf id s Hs). lia.
  - by intros e ?%not_elem_of_nil.
Qed.

(** Adding events [new] of one step, whose row may change. *)
Lemma issued_app db new : filter is_claim (events db ++ new)%list = (issued db ++ filter is_claim new)%list.
Proof. apply filter_app. Qed.

(** A claim: the row takes the next fence, and the log its ticket. *)
Lemma ledger_taken db db' tx task step expiry now :
  ledger db → well_keyed db' → steps db !! Step_ID step = Some step → taken tx db db' task step expiry now → ledger db'.
Proof.
  intros Hl Hk' Hrow [Hf Hst _ (ready & e & Hev & Hcl & Hof & _ & Hready)].
  destruct Hof as (He1 & _ & He2 & He3 & He4 & He5 & He6 & He7 & _).
  assert (filter is_claim ready = []) as Hnr.
  { assert (∀ e', e' ∈ ready → ¬ is_claim e') as Hn.
    { intros e' [Hty _]%Hready. unfold is_claim. rewrite Hty. by intros [|]. }
    clear -Hn. induction ready as [|x l IH]; [done|].
    rewrite filter_cons_False by (apply Hn; by left). apply IH. intros e' He'. apply Hn. by right. }
  assert (issued db' = issued db ++ [e])%list as Hiss.
  { unfold issued. rewrite Hev, !filter_app, Hnr. cbn [app]. by rewrite filter_cons_True, filter_nil. }
  assert (holder_of_event e = holder_of_step (claimed_by task (LeaseFence step + 1) expiry now step)) as Hhe.
  { unfold holder_of_event, holder_of_step. cbn. by rewrite He3, He4, He5, He6, He7. }
  assert (∀ c, c ∈ issued db → ticket c ≠ ticket e) as Hnew.
  { intros c Hc Heq. destruct (ledger_bounded _ Hl c Hc) as (s & Hs & Hb). injection Heq as Hid Hfe.
    rewrite Hid, He1, Hrow in Hs. injection Hs as <-. rewrite Hfe, He2 in Hb. lia. }
  split; rewrite ?Hiss; [done|..].
  - rewrite fmap_app. apply NoDup_app. split; [apply Hl|]. split; [|apply NoDup_singleton].
    intros t (c & -> & Hc)%list_elem_of_fmap Hin. apply list_elem_of_singleton in Hin. by apply (Hnew c).
  - intros c [Hc| ->%list_elem_of_singleton]%elem_of_app; rewrite Hst.
    + destruct (ledger_bounded _ Hl c Hc) as (s & Hs & Hb).
      destruct (decide (Event_StepID c = Step_ID step)) as [Heq|Hne].
      * rewrite Heq, lookup_insert_eq. eexists. split; [done|]. rewrite Heq, Hrow in Hs. injection Hs as <-. cbn. lia.
      * rewrite lookup_insert_ne by done. eauto.
    + rewrite He1, lookup_insert_eq. eexists. split; [done|]. rewrite He2. cbn. lia.
  - intros id s Hs Hpos. rewrite Hst in Hs. apply lookup_insert_Some in Hs as [[<- <-]|[Hne Hs]].
    + exists e. rewrite elem_of_app, list_elem_of_singleton. split; [auto|]. split; [|done]. unfold ticket. by rewrite He1, He2.
    + destruct (ledger_current _ Hl id s Hs Hpos) as (c & Hc & Ht & Hh). exists c. rewrite elem_of_app. auto.
  - intros c Hc. rewrite Hev, !elem_of_app, list_elem_of_singleton in Hc. destruct Hc as [Hc|[Hc| ->]].
    + destruct (ledger_acts _ Hl c Hc) as (c0 & Hc0 & Ht & Hh). exists c0. rewrite elem_of_app. auto.
    + destruct (Hready c Hc) as [_ (Hc1 & _ & Hc2 & Hc3 & Hc4 & Hc5 & Hc6 & Hc7 & _)].
      exists e. rewrite elem_of_app, list_elem_of_singleton. split; [auto|]. unfold ticket, holder_of_event.
      by rewrite He1, He2, He3, He4, He5, He6, He7, Hc1, Hc2, Hc3, Hc4, Hc5, Hc6, Hc7.
    + exists e. rewrite elem_of_app, list_elem_of_singleton. auto.
Qed.

Lemma task_matches_holder task identity now : task_matches task identity now = true →
  TrimSpace (Task_RunID task) = Identity_RunID identity ∧ TrimSpace (Task_WorkerID task) = Identity_WorkerID identity ∧
  TrimSpace (Task_AgentKey task) = Identity_AgentKey identity ∧ TrimSpace (Task_MachineID task) = Identity_MachineID identity.
Proof. unfold task_matches. rewrite !andb_true_iff, !String.eqb_eq. tauto. Qed.
Lemma holds_lease_holder step identity : holds_lease step identity = true →
  AutomationTaskID step = Some (Identity_AutomationTaskID identity) ∧ RunID step = Identity_RunID identity ∧
  WorkerID step = Identity_WorkerID identity ∧ AgentKey step = Identity_AgentKey identity ∧ MachineID step = Identity_MachineID identity.
Proof. unfold holds_lease. rewrite !andb_true_iff, !String.eqb_eq, bool_decide_eq_true. tauto. Qed.

(** A renewal or transition: the row keeps fence and holder, the log gets an entry under them. *)
Lemma ledger_wrote db db' tx identity fence override stepID task step now row e :
  ledger db → well_keyed db' → fenced tx stepID identity fence override db task step now →
  wrote db db' (Step_ID step) row e → event_of tx step task (LeaseFence step) now e → ¬ is_claim e →
  LeaseFence row = LeaseFence step → holder_of_step row = holder_of_step step → ledger db'.
Proof.
  intros Hl Hk' [[Htask Hm] Hrow (Hh & Hfe & Hpos) _ _ _] (Hst & _ & _ & _ & Hev) Hof Hnc Hrf Hrh.
  destruct Hof as (He1 & _ & He2 & He3 & He4 & He5 & He6 & He7 & _).
  pose proof (keyed_steps _ (ledger_keyed _ Hl) _ _ Hrow) as Hid. rewrite <-Hid in Hrow.
  assert (issued db' = issued db) as Hiss.
  { unfold issued. rewrite Hev, filter_app, filter_cons_False, filter_nil by done. by rewrite app_nil_r. }
  split; rewrite ?Hiss; [done|apply Hl|..].
  - intros c Hc. destruct (ledger_bounded _ Hl c Hc) as (s & Hs & Hb). rewrite Hst.
    destruct (decide (Event_StepID c = Step_ID step)) as [Heq|Hne].
    + rewrite Heq, lookup_insert_eq. eexists. split; [done|]. rewrite Heq, Hrow in Hs. injection Hs as <-. by rewrite Hrf.
    + rewrite lookup_insert_ne by done. eauto.
  - intros id s Hs Hp. rewrite Hst in Hs. apply lookup_insert_Some in Hs as [[<- <-]|[Hne Hs]].
    + rewrite Hrf, Hrh in *. by apply (ledger_current _ Hl).
    + by apply (ledger_current _ Hl).
  - intros c Hc. rewrite Hev, elem_of_app, list_elem_of_singleton in Hc. destruct Hc as [Hc| ->]; [by apply (ledger_acts _ Hl)|].
    destruct (ledger_current _ Hl _ _ Hrow) as (c0 & Hc0 & Ht & Hho); [lia|]. exists c0. split; [done|].
    split; [unfold ticket; by rewrite He1, He2|]. rewrite Hho. unfold holder_of_step, holder_of_event.
    apply task_matches_holder in Hm as (Hm1 & Hm2 & Hm3 & Hm4). apply holds_lease_holder in Hh as (H1 & H2 & H3 & H4 & H5).
    pose proof (keyed_tasks _ (ledger_keyed _ Hl) _ _ Htask) as Htid.
    rewrite He3, He4, He5, He6, He7, Hm1, Hm2, Hm3, Hm4, H1, H2, H3, H4, H5, Htid.
    by rewrite <-Hm1, <-Hm2, <-Hm3, <-Hm4, !TrimSpace_idem.
Qed.

Lemma ledger_executes db t db' : ledger db → executes db t db' → ledger db'.
Proof.
  intros Hl Hx. pose proof (ledger_keyed _ Hl) as Hk. pose proof (executes_keyed _ _ _ Hk Hx) as Hk'.
  destruct Hx as [tx input target r db1 H|tx input u db1 H|tx input u db1 H|t db1 Hs He Hev _].
  - apply claim_run in H as (identity & ttl & plan & task & now & _ & Ho); [|done].
    destruct Ho as [held -> _ _ _ _ _| -> _ _|step Hrow _ _ _ _ Ht _]; [done..|]. by eapply ledger_taken.
  - apply renew_run in H as (identity & ttl & task & step & now & old & e & _ & Hfen & _ & _ & _ & Hw & Hof & Hty); [|done].
    eapply ledger_wrote; [done|done|exact Hfen|exact Hw|exact Hof| |done..]. unfold is_claim. rewrite Hty. by intros [|].
  - apply transition_run in H as (identity & next & task & step & now & _ & Hfen & [[_ ->]|(_ & _ & _ & e & Hw & Hof & Hty)]); [done| |done].
    eapply ledger_wrote; [done|done|exact Hfen|exact Hw|exact Hof| |done..]. unfold is_claim. rewrite Hty. by intros [|].
  - destruct Hl as [_ H1 H2 H3 H4]. split; unfold issued in *; rewrite ?Hs, ?Hev; done.
Qed.

Lemma ledger_execution db ts db' : fresh_plan db → execution db ts db' → ledger db'.
Proof. intros H0 Hx. induction Hx as [|ts db1 t db2 _ IH Hx]; [by apply ledger_fresh|by eapply ledger_executes]. Qed.
End Runs.
