(* ===== verification/PlanGraphTheorems.v ===== *)
(** * Theorems on the delivery plan graph

    The two graph checks decide their declarative contracts in every order Go may range over
    the step map, evidence requirements have a canonical form, a plan [Normalize] accepts is a
    sound set of rows, and the step lifecycle only moves forward. *)
From stdpp Require Import base tactics list strings gmap sorting relations.
From S2P Require Import Prelude GoStrings GoSort Json PlanGraph PlanGraphFacts PlanGraphSpec PlanNormalizeFacts.
Open Scope string_scope.

(** ** A concrete plan *)

Definition demo_step (key role : string) (order : Z) (criteria depends : list string) : StepInput :=
  {| Key := key; Role := role; Order := order; Title := key; Objective := ""; AcceptanceCriteria := criteria;
     EvidenceRequirements := []; DependsOn := depends; IdempotencyKey := "step:" +:+ key |}.
Definition demo_inputs : list StepInput :=
  [demo_step "verify" StepRoleIntegration 2 ["builds"; "ships"] ["ship"];
   demo_step "ship" StepRoleImplementation 1 ["ships"] ["build"];
   demo_step "build" StepRoleImplementation 0 ["builds"] []].
Definition demo_graph : gmap string StepInput := list_to_map ((λ step, (Key step, step)) <$> demo_inputs).
Definition demo_plan : DeliveryPlan := 
  {| Plan_ID := 7%N; WorkItemID := 8%N; Version := 1; Plan_Status := "proposed"; ApprovedGateID := None |}.
Definition demo_runtime : GoRuntime := {| NewV4 n := Some (100 + N.of_nat n)%N; Now := 5 |}.
Definition demo_rows : NormalizedPlan :=
  match Normalize (unicode := ascii_only) (runtime := demo_runtime) (map_range := tree_order)
          demo_plan " ana " demo_inputs 0 with
  | Ok np => np
  | Err _ => {| Steps := []; Dependencies := [] |}
  end.
Definition demo_requirement : EvidenceRequirement :=
  {| Requirement_Key := " shot "; Requirement_Title := "Screenshot"; Requirement_Description := "";
     Requirement_Required := true; ContentTypes := ["image/png"; "Text/Plain; charset=utf-8"; "image/jpeg"]; MaxBytes := 4096 |}.

(** ** The graph checks *)

(** C39: [validateDAG] ends on every step map, in every order Go ranges over it, and accepts
    exactly the maps whose dependencies all name steps, are listed once and form no cycle. *)
Theorem validateDAG_decides {map_range : GoMapRange} (byKey : gmap string StepInput) :
  (∀ key, is_Some (byKey !! key) → no_nul key) →
  validateDAG byKey ≠ Err OutOfFuel ∧ (validateDAG byKey = Ok tt ↔ dag_ok byKey).
Proof.
  intros Hplain. destruct (validateDAG_run byKey) as [Hfuel Hrun]. split; [done|].
  destruct (validateDAG byKey) as [[]|e]; split; auto; [done|]. intros Hok. by destruct Hrun.
Qed.
Example validateDAG_decides_witness : validateDAG (map_range := tree_order) demo_graph = Ok tt ∧ dag_ok demo_graph.
Proof.
  assert (validateDAG (map_range := tree_order) demo_graph = Ok tt) as H by (vm_compute; reflexivity).
  split; [exact H|]. apply (validateDAG_decides (map_range := tree_order) demo_graph); [|exact H].
  intros key Hk. unfold demo_graph in Hk.
  apply step_map_known in Hk; [|by apply (bool_decide_unpack _)].
  rewrite list_elem_of_In in Hk. destruct Hk as [<-|[<-|[<-|[]]]]; reflexivity.
Defined.

(** [validateIntegrationGraph] accepts exactly the empty map and the maps closed by one
    integration step that comes last, covers the union of the implementation criteria (each
    owned once) and depends on every branch no implementation step continues, whatever orders
    its two range statements take. *)
Theorem validateIntegrationGraph_decides {map_range : GoMapRange} (byKey : gmap string StepInput) :
  validateIntegrationGraph byKey = Ok tt ↔ integration_ok byKey.
Proof. apply validateIntegrationGraph_iff. Qed.

(** ** Evidence requirements *)

(** normalised evidence requirements are at most eight, uniquely keyed and within every
    bound of the source, and normalising them again gives them back. *)
Theorem normalizeEvidenceRequirements_stable {unicode : GoUnicode} requirements result :
  normalizeEvidenceRequirements requirements = Ok result →
  (length result ≤ 8)%nat ∧ NoDup (Requirement_Key <$> result) ∧ Forall bounded_requirement result ∧
  normalizeEvidenceRequirements result = Ok result.
Proof.
  unfold normalizeEvidenceRequirements. destruct (Nat.ltb_spec MaxEvidenceRequirements (length requirements)) as [|Hl]; [done|].
  intros (Hlen & Hall & Hnd & _)%normalizeRequirements_run. rewrite Hlen. split; [done|]. split; [done|]. split; [done|].
  rewrite (proj2 (Nat.ltb_ge _ _)) by done. apply normalizeRequirements_ok; [done..|]. intros k _ ?%not_elem_of_empty. done.
Qed.
Example normalizeEvidenceRequirements_stable_witness :
  ∃ r, normalizeEvidenceRequirements (unicode := ascii_only) [demo_requirement] = Ok [r] ∧
       normalizeEvidenceRequirements (unicode := ascii_only) [r] = Ok [r] ∧
       ContentTypes r = ["image/jpeg"; "image/png"; "text/plain"].
Proof.
  eexists. split; [vm_compute; reflexivity|]. split; [|reflexivity].
  apply (normalizeEvidenceRequirements_stable (unicode := ascii_only) [demo_requirement]). vm_compute; reflexivity.
Defined.

(** ** [Normalize] *)

(** C38: a plan [Normalize] accepts becomes one planned, unleased row for each input, with
    distinct keys, identities and strictly increasing orders; its dependency rows are exactly
    the listed dependencies, join steps of the plan and form no cycle; and a non-empty plan ends
    in its one integration step, on which no other step depends. *)
Theorem Normalize_sound {unicode : GoUnicode} {runtime : GoRuntime} {map_range : GoMapRange}
    plan createdBy inputs now np :
  distinct_ids → Normalize plan createdBy inputs now = Ok np → sound_plan plan inputs np.
Proof. intros Hdist (steps & ids & Hn)%Normalize_run. by eapply normalized_sound. Qed.

Lemma demo_normalizes : Normalize (unicode := ascii_only) (runtime := demo_runtime) (map_range := tree_order)
  demo_plan " ana " demo_inputs 0 = Ok demo_rows.
Proof. vm_compute. reflexivity. Qed.
Example Normalize_sound_witness :
  sound_plan (unicode := ascii_only) demo_plan demo_inputs demo_rows ∧ StepKey <$> Steps demo_rows = ["build"; "ship"; "verify"].
Proof.
  split; [|vm_compute; reflexivity].
  apply (Normalize_sound (unicode := ascii_only) (runtime := demo_runtime) (map_range := tree_order) demo_plan " ana " demo_inputs 0 demo_rows).
  - intros i j id [= <-] [= Heq]. lia.
  - exact demo_normalizes.
Defined.

(** ** The step lifecycle *)

Section Lifecycle.
Context {unicode : GoUnicode}.

(** The status a text is read as. *)
Definition status_of (s : string) : string := TrimSpace (ToLower s).
(** One allowed status change to a status other than [avoided]. *)
Definition moves_avoiding (avoided : string) (a b : string) : Prop :=
  CanTransitionStatus a b = true ∧ status_of b ≠ avoided.

Lemma transition_cases a b : CanTransitionStatus a b = true →
  ∃ targets, (status_of a, targets) ∈ validTransitions ∧ status_of b ∈ targets.
Proof.
  unfold CanTransitionStatus. fold (status_of a) (status_of b).
  intros ([from targets] & Hin%list_elem_of_In & [->%String.eqb_eq Ht]%andb_true_iff)%existsb_exists.
  exists targets. split; [done|]. apply existsb_exists in Ht as (x & Hx%list_elem_of_In & ->%String.eqb_eq). done.
Qed.

(** What holds of the starting statuses and is kept by every move holds ever after. *)
Lemma lifecycle_invariant avoided (ok : list string) :
  (∀ from targets, (from, targets) ∈ validTransitions → from ∈ ok → ∀ to, to ∈ targets → to ≠ avoided → to ∈ ok) →
  ∀ a b, rtc (moves_avoiding avoided) a b → status_of a ∈ ok → status_of b ∈ ok.
Proof.
  intros Hstep a b. induction 1 as [a|a b c [(targets & Hin & Hb)%transition_cases Hne] _ IH]; [done|].
  intros Ha. apply IH. by eapply Hstep.
Qed.
End Lifecycle.

Lemma lifecycle_check avoided (ok : list string) :
  forallb (λ '(from, targets), negb (bool_decide (from ∈ ok)) ||
    forallb (λ to, String.eqb to avoided || bool_decide (to ∈ ok)) targets) validTransitions = true →
  ∀ from targets, (from, targets) ∈ validTransitions → from ∈ ok → ∀ to, to ∈ targets → to ≠ avoided → to ∈ ok.
Proof.
  rewrite forallb_forall. intros Hall from targets Hin%list_elem_of_In Hok to Hto%list_elem_of_In Hne.
  specialize (Hall _ Hin). cbn in Hall. rewrite bool_decide_true in Hall by done. cbn in Hall.
  rewrite forallb_forall in Hall. specialize (Hall _ Hto). apply orb_true_iff in Hall as [->%String.eqb_eq|H]; [done|].
  by apply bool_decide_eq_true in H.
Qed.

(** along any sequence of allowed status changes a planned step runs only after it was
    ready, ends (completed or failed) only after it ran, and a completed or skipped step keeps
    its status for ever. *)
Theorem step_lifecycle {unicode : GoUnicode} a b :
  (status_of a = DeliveryPlanStepPlanned → rtc (moves_avoiding DeliveryPlanStepReady) a b →
     status_of b ≠ DeliveryPlanStepRunning) ∧
  (status_of a = DeliveryPlanStepPlanned → rtc (moves_avoiding DeliveryPlanStepRunning) a b →
     status_of b ≠ DeliveryPlanStepCompleted ∧ status_of b ≠ DeliveryPlanStepFailed) ∧
  (status_of a ∈ [DeliveryPlanStepCompleted; DeliveryPlanStepSkipped] →
     rtc (λ x y, CanTransitionStatus x y = true) a b → status_of b = status_of a).
Proof.
  split; [|split].
  - intros Ha Hr. pose proof (lifecycle_invariant _ _ (lifecycle_check DeliveryPlanStepReady
      [DeliveryPlanStepPlanned; DeliveryPlanStepBlocked; DeliveryPlanStepSkipped] eq_refl) a b Hr) as Hb.
    rewrite Ha in Hb. intros He. rewrite He in Hb. specialize (Hb ltac:(by left)).
    by rewrite !elem_of_cons, elem_of_nil in Hb; destruct_or! Hb.
  - intros Ha Hr. pose proof (lifecycle_invariant _ _ (lifecycle_check DeliveryPlanStepRunning
      [DeliveryPlanStepPlanned; DeliveryPlanStepReady; DeliveryPlanStepBlocked; DeliveryPlanStepSkipped] eq_refl) a b Hr) as Hb.
    rewrite Ha in Hb. specialize (Hb ltac:(by left)). split; intros He; rewrite He in Hb;
      by rewrite !elem_of_cons, elem_of_nil in Hb; destruct_or! Hb.
  - intros Ha. induction 1 as [|a b c (targets & Hin & Hb)%transition_cases _ IH]; [done|].
    assert (status_of b = status_of a) as Heq; [|rewrite <-Heq; apply IH; by rewrite Heq].
    apply list_elem_of_In in Hin. apply list_elem_of_In in Hb. apply list_elem_of_In in Ha. destruct Ha as [Ha|[Ha|[]]]; rewrite <-Ha in Hin;
      cbn in Hin; destruct_or? Hin; simplify_eq; cbn in Hb; destruct Hb as [Hb|[]]; by rewrite <-Ha, <-Hb.
Qed.
Example step_lifecycle_witness :
  status_of (unicode := ascii_only) " COMPLETED" = status_of (unicode := ascii_only) "completed" ∧
  CanTransitionStatus (unicode := ascii_only) "completed" "ready" = false.
Proof.
  split; [|reflexivity]. apply (step_lifecycle (unicode := ascii_only) "completed" " COMPLETED").
  - apply (bool_decide_unpack _). vm_compute. exact I.
  - apply rtc_once. reflexivity.
Defined.
