(* ===== verification/PlanLeaseTheorems.v ===== *)
(** * Theorems on the step leases *)
From stdpp Require Import base tactics list strings gmap sorting relations.
From S2P Require Import Prelude GoStrings GoSort PlanGraph PlanGraphTheorems PlanStore PlanLease PlanLeaseFacts.
Open Scope string_scope.

(** ** A concrete execution: the plan of [demo_rows], approved, and one leased task *)

Definition demo_task : AutomationTask :=
  {| Task_ID := 20%N; DeliveryWorkItemID := Some 8%N; Task_Status := "running"; Task_RunID := "11"; Task_WorkerID := "111";
     Task_AgentKey := "builder"; Task_MachineID := ""; Task_LeaseExpiresAt := Some (1000 * Second)%Z |}.
Definition demo_approved : DeliveryPlan :=
  {| Plan_ID := 7%N; WorkItemID := 8%N; Version := 1; Plan_Status := "approved"; ApprovedGateID := Some 5%N |}.
Definition demo_db : DB :=
  {| plans := {[7%N := demo_approved]}; tasks := {[20%N := demo_task]};
     steps := list_to_map ((λ s, (Step_ID s, s)) <$> Steps demo_rows); edges := Dependencies demo_rows;
     events := []; drawn := 0; dispatch := ∅ |}.
Definition demo_tx (now : Z) : Tx :=
  {| tick _ := now; locked _ := false; fresh n := Some (500 + N.of_nat n)%N; instance := None |}.
Definition demo_claim : ClaimInput :=
  {| Claim_PlanID := 7%N; Claim_AutomationTaskID := 20%N; Claim_RunID := " 11 "; Claim_WorkerID := "111";
     Claim_AgentKey := "builder"; Claim_MachineID := ""; Claim_LeaseTTL := (60 * Second)%Z; Claim_Now := 0 |}.
Definition demo_renewal : LeaseInput :=
  {| Lease_StepID := 100%N; Lease_AutomationTaskID := 20%N; Lease_RunID := "11"; Lease_WorkerID := "111";
     Lease_AgentKey := "builder"; Lease_MachineID := ""; Lease_Fence := 1; LeaseTTL := (60 * Second)%Z; Lease_Now := 0 |}.
Definition demo_report : TransitionInput :=
  {| Transition_StepID := 100%N; Transition_AutomationTaskID := 20%N; Transition_RunID := "11"; Transition_WorkerID := "111";
     Transition_AgentKey := "builder"; Transition_MachineID := ""; Transition_Fence := 1; Transition_Status := "Completed"; Transition_Now := 0 |}.
Abbreviation demo_claims now := (claimReadyStepInTransaction (unicode := ascii_only) (text := unary) (demo_tx now) demo_claim None).
Abbreviation demo_renews now := (RenewStepLeaseInTransaction (unicode := ascii_only) (text := unary) (demo_tx now) demo_renewal).
Abbreviation demo_reports now := (TransitionStepInTransaction (unicode := ascii_only) (text := unary) (demo_tx now) demo_report).
(** The tables a transaction leaves. *)
Definition after {A} (m : T A) (db : DB) : DB := match m db with Ok (_, db') => db' | Err _ => db end.
(** The tables after the claim at 100 s, the renewal at 130 s and the report at 150 s. *)
Definition demo_claimed : DB := after (demo_claims (100 * Second)%Z) demo_db.
Definition demo_renewed : DB := after (demo_renews (130 * Second)%Z) demo_claimed.
Definition demo_reported : DB := after (demo_reports (150 * Second)%Z) demo_renewed.

Lemma after_ok {A} (m : T A) db : is_ok (m db) = true → ∃ a, m db = Ok (a, after m db).
Proof. unfold after. destruct (m db) as [[a db']|e]; [by exists a|done]. Qed.
Lemma demo_claim_ok : ∃ r, demo_claims (100 * Second)%Z demo_db = Ok (r, demo_claimed).
Proof. apply after_ok. vm_compute. reflexivity. Qed.
Lemma demo_renew_ok : ∃ u, demo_renews (130 * Second)%Z demo_claimed = Ok (u, demo_renewed).
Proof. apply after_ok. vm_compute. reflexivity. Qed.
Lemma demo_report_ok : ∃ u, demo_reports (150 * Second)%Z demo_renewed = Ok (u, demo_reported).
Proof. apply after_ok. vm_compute. reflexivity. Qed.

Lemma demo_task_only id t : tasks demo_db !! id = Some t → demo_task = t.
Proof. change (tasks demo_db) with ({[20%N := demo_task]} : gmap uuid AutomationTask). by intros [_ ?]%lookup_singleton_Some. Qed.
Lemma demo_keyed : well_keyed demo_db.
Proof.
  assert (map_Forall (λ id s, Step_ID s = id ∧ (LeaseFence s ≤ MaxInt64)%Z) (steps demo_db)) as Hs.
  { apply (bool_decide_eq_true (map_Forall _ _)). vm_compute. reflexivity. }
  split; [intros id s H; by apply (Hs id s)|..|intros id s H; by apply (Hs id s)]; intros id row H.
  - change ((({[20%N := demo_task]} : gmap uuid AutomationTask) !! id) = Some row) in H. by apply lookup_singleton_Some in H as [<- <-].
  - change ((({[7%N := demo_approved]} : gmap uuid DeliveryPlan) !! id) = Some row) in H. by apply lookup_singleton_Some in H as [<- <-].
Qed.
Lemma demo_fresh : fresh_plan demo_db.
Proof.
  split; [exact demo_keyed|split; [reflexivity|]].
  assert (map_Forall (λ _ s, LeaseFence s = 0%Z) (steps demo_db)) as Hs; [|exact Hs].
  apply (bool_decide_eq_true (map_Forall _ _)). vm_compute. reflexivity.
Qed.
Lemma demo_lease_run :
  execution (unicode := ascii_only) (text := unary) demo_db [(100 * Second)%Z; (130 * Second)%Z; (150 * Second)%Z] demo_reported.
Proof.
  destruct demo_claim_ok as (r & Hc), demo_renew_ok as (u & Hn), demo_report_ok as (v & Hr).
  apply (execution_step demo_db [_; _] demo_renewed).
  - apply (execution_step demo_db [_] demo_claimed).
    + apply (execution_step demo_db [] demo_db); [constructor|]. exact (executes_claim _ _ _ _ _ _ Hc).
    + exact (executes_renew _ _ _ _ _ Hn).
  - exact (executes_transition _ _ _ _ _ Hr).
Qed.
Lemma demo_claimed_keyed : well_keyed demo_claimed.
Proof.
  destruct demo_claim_ok as (r & Hc). eapply executes_keyed; [exact demo_keyed|exact (executes_claim _ _ _ _ _ _ Hc)].
Qed.

(** ** Lemmas *)

Lemma normalizeTransition_status {unicode : GoUnicode} {text : UuidText} input identity next :
  normalizeTransitionInput input = Ok (identity, next) → validStepStatus next = true.
Proof.
  unfold normalizeTransitionInput. intros Hin. repeat (apply bind_ok in Hin as (? & ? & Hin)). injection Hin as <- <-.
  by destruct (validStepStatus (ToLower (TrimSpace (Transition_Status input)))).
Qed.

(** A lease that is live at the reading of a step survives the step. *)
Lemma executes_live {unicode : GoUnicode} {text : UuidText} db t db' id s e :
  well_keyed db → executes db t db' → steps db !! id = Some s → LeaseExpiresAt s = Some e → (t < e)%Z →
  ∃ s' e', steps db' !! id = Some s' ∧ LeaseFence s' = LeaseFence s ∧ holder_of_step s' = holder_of_step s ∧
    LeaseExpiresAt s' = Some e' ∧ (e ≤ e')%Z.
Proof.
  intros Hk Hx Hs He Ht.
  destruct Hx as [tx input target r db1 H|tx input u db1 H|tx input u db1 H|t db1 Hst _ _ _].
  - apply claim_run in H as (identity & ttl & plan & task & now & Hcl & Ho); [|done]. rewrite <-(claiming_now _ _ _ _ _ _ _ _ Hcl) in Ht.
    destruct Ho as [held -> _ _ _ _ _| -> _ _|step Hrow Hfree _ _ _ [_ Hst _ _] _]; [by exists s, e|by exists s, e|].
    exists s, e. rewrite Hst, lookup_insert_ne; [done|]. intros Heq. rewrite Heq, Hs in Hrow. injection Hrow as <-.
    unfold claimable, is_eligible, lease_free in Hfree. rewrite He in Hfree. cbn [until_opt] in Hfree.
    repeat rewrite ?andb_true_iff, ?orb_true_iff in Hfree. rewrite Z.leb_le in Hfree. lia.
  - apply renew_run in H as (identity & ttl & task & step & now & old & ev & _ & Hfen & _ & Hold & Hlt & (Hst & _) & _); [|done].
    destruct (decide (Step_ID step = id)) as [<-|Hne].
    + pose proof (fenced_step _ _ _ _ _ _ _ _ _ Hfen) as Hrow. pose proof (keyed_steps _ Hk _ _ Hrow) as Hid.
      rewrite <-Hid, Hs in Hrow. injection Hrow as ->.
      exists (with_expiry (capped task now ttl) now step), (capped task now ttl). rewrite Hst, lookup_insert_eq. repeat (split; [done|]).
      rewrite He in Hold. injection Hold as ->. lia.
    + exists s, e. by rewrite Hst, lookup_insert_ne.
  - apply transition_run in H as (identity & next & task & step & now & _ & Hfen & [[_ ->]|(_ & _ & _ & ev & (Hst & _) & _)]); [by exists s, e| |done].
    destruct (decide (Step_ID step = id)) as [<-|Hne].
    + pose proof (fenced_step _ _ _ _ _ _ _ _ _ Hfen) as Hrow. pose proof (keyed_steps _ Hk _ _ Hrow) as Hid.
      rewrite <-Hid, Hs in Hrow. injection Hrow as ->.
      exists (with_outcome next now step), e. rewrite Hst, lookup_insert_eq. by repeat (split; [done|]).
    + exists s, e. by rewrite Hst, lookup_insert_ne.
  - exists s, e. by rewrite Hst.
Qed.

Lemma execution_keyed {unicode : GoUnicode} {text : UuidText} db ts db' : well_keyed db → execution db ts db' → well_keyed db'.
Proof. intros Hk Hx. induction Hx as [|ts db1 t db2 _ IH Hx]; [done|by eapply executes_keyed]. Qed.

(** The subquery, declaratively. *)
Lemma dependencies_completed_spec db step : dependencies_completed db step = true ↔
  ∀ edge dependency, edge ∈ edges db → StepID edge = Step_ID step → steps db !! DependsOnStepID edge = Some dependency →
    Dependency_PlanID edge = Step_PlanID step ∧ Step_PlanID dependency = Step_PlanID step ∧
    Status dependency = DeliveryPlanStepCompleted.
Proof.
  unfold dependencies_completed. rewrite forallb_forall. setoid_rewrite <-list_elem_of_In. split.
  - intros Hall edge d Hin Hid Hd. specialize (Hall edge Hin). rewrite Hid, N.eqb_refl, Hd in Hall. cbn in Hall.
    rewrite !andb_true_iff, !N.eqb_eq, String.eqb_eq in Hall. tauto.
  - intros Hall edge Hin. destruct (N.eqb_spec (StepID edge) (Step_ID step)) as [Heq|]; [|done]. cbn [negb orb].
    destruct (steps db !! DependsOnStepID edge) as [d|] eqn:Hd; [|done].
    destruct (Hall edge d Hin Heq Hd) as (H1 & H2 & H3). by rewrite H1, H2, H3, !N.eqb_refl, String.eqb_refl.
Qed.

(** A step that a worker of this profile may claim at [now]: a planned or ready step without a
    live lease or a running one whose lease has ended, with every stored dependency in the same
    plan and completed, the wanted one if the claim names one, and not locked. *)
Record free_step (tx : Tx) (db : DB) (planID : uuid) (agentKey : string) (target : option uuid) (now : Z) (s : DeliveryPlanStep) : Prop := {
  free_plan : Step_PlanID s = planID;
  free_agent : AgentKey s = "" ∨ AgentKey s = agentKey;
  free_lease : Status s ∈ [DeliveryPlanStepPlanned; DeliveryPlanStepReady] ∧ (∀ e, LeaseExpiresAt s = Some e → (e ≤ now)%Z) ∨
    Status s = DeliveryPlanStepRunning ∧ ∃ e, LeaseExpiresAt s = Some e ∧ (e ≤ now)%Z;
  free_dependencies : ∀ edge dependency, edge ∈ edges db → StepID edge = Step_ID s → steps db !! DependsOnStepID edge = Some dependency →
    Dependency_PlanID edge = planID ∧ Step_PlanID dependency = planID ∧ Status dependency = DeliveryPlanStepCompleted;
  free_target : ∀ id, target = Some id → Step_ID s = id;
  free_unlocked : locked tx (Step_ID s) = false;
}.
Lemma lease_free_iff now s : lease_free now s = true ↔
  Status s ∈ [DeliveryPlanStepPlanned; DeliveryPlanStepReady] ∧ (∀ e, LeaseExpiresAt s = Some e → (e ≤ now)%Z) ∨
  Status s = DeliveryPlanStepRunning ∧ ∃ e, LeaseExpiresAt s = Some e ∧ (e ≤ now)%Z.
Proof.
  unfold lease_free. rewrite orb_true_iff, !andb_true_iff, orb_true_iff, !String.eqb_eq, !elem_of_cons, elem_of_nil.
  destruct (LeaseExpiresAt s) as [e|]; cbn.
  - rewrite Z.leb_le. split; [intros [[? ?]|[? ?]]|intros [[? H]|[? (t & [= <-] & ?)]]]; [left| |left|by right].
    + split; [tauto|]. by intros t [= <-].
    + right. split; [done|]. by exists e.
    + split; [tauto|]. by apply H.
  - split; [intros [[? _]|[_ ?]]; [left|done]|intros [[? _]|[_ (t & ? & _)]]; [left|done]]; (split; [tauto|done]).
Qed.
Lemma is_eligible_iff tx db planID agentKey target now s :
  is_eligible tx db planID agentKey target now s = true ↔ free_step tx db planID agentKey target now s.
Proof.
  unfold is_eligible. rewrite !andb_true_iff, orb_true_iff, negb_true_iff, N.eqb_eq, !String.eqb_eq, lease_free_iff, dependencies_completed_spec.
  assert (match target with Some id => N.eqb (Step_ID s) id | None => true end = true ↔ ∀ id, target = Some id → Step_ID s = id) as ->.
  { destruct target; [rewrite N.eqb_eq|]; naive_solver. }
  split; [intros [[[[[<- ?] ?] ?] ?] ?]; by split|intros [<- ? ? ? ? ?]; tauto].
Qed.

(** A well-formed step row, and tables of such rows. *)
Record typed_step (s : DeliveryPlanStep) : Prop := {
  typed_status : validStepStatus (Status s) = true;
  typed_fence : (0 ≤ LeaseFence s ≤ MaxInt64)%Z;
  typed_running : Status s = DeliveryPlanStepRunning →
    is_Some (AutomationTaskID s) ∧ is_Some (LeaseExpiresAt s) ∧ (1 ≤ LeaseFence s)%Z;
}.
Definition typed_steps (db : DB) : Prop := well_keyed db ∧ map_Forall (λ _, typed_step) (steps db).

Lemma typed_insert db db' id s row :
  typed_steps db → well_keyed db' → steps db !! id = Some s → steps db' = <[id := row]> (steps db) → typed_step row →
  typed_steps db' ∧ dom (steps db') = dom (steps db).
Proof.
  intros [_ Hall] Hk Hs Hst Hrow. split; [split; [done|]|]; rewrite Hst.
  - by apply map_Forall_insert_2.
  - apply dom_insert_lookup_L. by exists s.
Qed.
Lemma status_running_exact {unicode : GoUnicode} s :
  validStepStatus s = true → EqualFold s DeliveryPlanStepRunning = true → s = DeliveryPlanStepRunning.
Proof.
  unfold validStepStatus. intros (x & Hin & ->%String.eqb_eq)%existsb_exists Hf.
  assert (is_ascii x = true) as Ha by (repeat (destruct Hin as [<-|Hin]; [reflexivity|]); done).
  rewrite EqualFold_ascii in Hf by done.
  repeat (destruct Hin as [<-|Hin]; [by vm_compute in Hf|]). done.
Qed.
Lemma executes_typed {unicode : GoUnicode} {text : UuidText} db t db' :
  typed_steps db → executes db t db' → typed_steps db' ∧ dom (steps db') = dom (steps db).
Proof.
  intros Ht Hx. pose proof Ht as [Hk Hall]. assert (well_keyed db') as Hk' by by eapply executes_keyed.
  destruct Hx as [tx input target r db1 H|tx input u db1 H|tx input u db1 H|t db1 Hst _ _ _].
  - apply claim_run in H as (identity & ttl & plan & task & now & _ & Ho); [|done].
    destruct Ho as [held -> _ _ _ _ _| -> _ _|step Hrow _ _ _ _ [Hf Hst _ _] _]; [done..|].
    eapply typed_insert; [done|done|exact Hrow|exact Hst|]. split; cbn; [done|lia|].
    intros _. split; [done|]. split; [done|lia].
  - apply renew_run in H as (identity & ttl & task & step & now & old & ev & _ & Hfen & _ & _ & _ & (Hst & _) & _); [|done].
    pose proof (fenced_step _ _ _ _ _ _ _ _ _ Hfen) as Hrow. rewrite (keyed_steps _ Hk _ _ Hrow) in Hst.
    destruct (Hall _ _ Hrow) as [H1 H2 H3]. eapply typed_insert; [done|done|exact Hrow|exact Hst|].
    split; cbn; [done|done|]. intros Hr. destruct (H3 Hr) as (? & _ & ?). done.
  - apply transition_run in H as (identity & next & task & step & now & Hin & Hfen & [[_ ->]|(Hne & _ & Hr & ev & (Hst & _) & _)]); [done| |done].
    pose proof (fenced_step _ _ _ _ _ _ _ _ _ Hfen) as Hrow. rewrite (keyed_steps _ Hk _ _ Hrow) in Hst.
    destruct (Hall _ _ Hrow) as [H1 H2 H3]. eapply typed_insert; [done|done|exact Hrow|exact Hst|].
    split; cbn; [by eapply normalizeTransition_status|done|]. intros ->. by rewrite (status_running_exact _ H1 Hr) in Hne.
  - unfold typed_steps. by rewrite Hst.
Qed.

Lemma demo_typed : typed_steps demo_db.
Proof.
  split; [exact demo_keyed|].
  assert (map_Forall (λ _ s, validStepStatus (Status s) = true ∧ (0 ≤ LeaseFence s ≤ MaxInt64)%Z ∧ Status s ≠ DeliveryPlanStepRunning) (steps demo_db)) as Hs.
  { apply (bool_decide_eq_true (map_Forall _ _)). vm_compute. reflexivity. }
  intros id s H. destruct (Hs id s H) as (H1 & H2 & H3).
  split; [exact H1|exact H2|intros Hr; destruct (H3 Hr)].
Qed.

Lemma ttl_bounds {unicode : GoUnicode} {text : UuidText} input claim ttl :
  normalizeClaimInput input = Ok (claim, ttl) → (MinStepLeaseTTL ≤ ttl ≤ MaxStepLeaseTTL)%Z.
Proof.
  unfold normalizeClaimInput, validateStepLeaseTTL. intros H. repeat (apply bind_ok in H as (? & ? & H)).
  injection H as <- <-. match goal with Hv : (if _ || _ then _ else _) = Ok _ |- _ =>
    destruct (_ || _) eqn:Hc in Hv; [done|]; injection Hv as <- end.
  apply orb_false_iff in Hc as [?%Z.ltb_ge ?%Z.ltb_ge]. lia.
Qed.
Lemma lease_ttl_bounds {unicode : GoUnicode} {text : UuidText} input identity ttl :
  normalizeLeaseInput input = Ok (identity, ttl) → (MinStepLeaseTTL ≤ ttl ≤ MaxStepLeaseTTL)%Z.
Proof.
  unfold normalizeLeaseInput, validateStepLeaseTTL. intros H. repeat (apply bind_ok in H as (? & ? & H)).
  injection H as <- <-. match goal with Hv : (if _ || _ then _ else _) = Ok _ |- _ =>
    destruct (_ || _) eqn:Hc in Hv; [done|]; injection Hv as <- end.
  apply orb_false_iff in Hc as [?%Z.ltb_ge ?%Z.ltb_ge]. lia.
Qed.

(** ** Theorems *)

(** C19: from a fresh plan, whatever workers and other services do, each fence of a step is
    issued by one claim, and every event of the step - renewals and outcomes included - was
    written under a fence issued to the same task, run, worker, agent and machine. *)
Theorem fences_name_one_holder {unicode : GoUnicode} {text : UuidText} db ts db' :
  fresh_plan db → execution db ts db' →
  NoDup (ticket <$> issued db') ∧
  (∀ e, e ∈ events db' → ∃ c, c ∈ issued db' ∧ ticket c = ticket e ∧ holder_of_event c = holder_of_event e) ∧
  (∀ id s, steps db' !! id = Some s → (1 ≤ LeaseFence s)%Z →
     ∃ c, c ∈ issued db' ∧ ticket c = (id, LeaseFence s) ∧ holder_of_event c = holder_of_step s).
Proof. intros H0 Hx. pose proof (ledger_execution _ _ _ H0 Hx) as []. by split_and!. Qed.
Example fences_name_one_holder_witness :
  ticket <$> issued demo_reported = [(100%N, 1%Z)] ∧
  (∀ e, e ∈ events demo_reported → ∃ c, c ∈ issued demo_reported ∧ ticket c = ticket e ∧ holder_of_event c = holder_of_event e).
Proof.
  split; [vm_compute; reflexivity|]. by apply (fences_name_one_holder demo_db _ demo_reported demo_fresh demo_lease_run).
Defined.

(** while every lease check of a run reads a time before a step's lease expires, the step
    keeps its holder and its fence, and its lease only grows: a live lease is never stolen. *)
Theorem live_lease_keeps_holder {unicode : GoUnicode} {text : UuidText} db ts db' id s e :
  well_keyed db → execution db ts db' → steps db !! id = Some s → LeaseExpiresAt s = Some e → Forall (λ t, (t < e)%Z) ts →
  ∃ s' e', steps db' !! id = Some s' ∧ LeaseFence s' = LeaseFence s ∧ holder_of_step s' = holder_of_step s ∧
    LeaseExpiresAt s' = Some e' ∧ (e ≤ e')%Z.
Proof.
  intros Hk Hx Hs He. induction Hx as [|ts db1 t db2 Hx IH Hstep]; intros Hts; [by exists s, e|].
  apply Forall_app in Hts as [Hts Ht]. apply Forall_cons_1 in Ht as [Ht _].
  destruct (IH Hts) as (s1 & e1 & H1 & H2 & H3 & H4 & H5). pose proof (execution_keyed _ _ _ Hk Hx) as Hk1.
  destruct (executes_live db1 t db2 id s1 e1) as (s2 & e2 & G1 & G2 & G3 & G4 & G5); [done..|lia|].
  exists s2, e2. rewrite G2, G3. repeat (split; [done|]). lia.
Qed.
Example live_lease_keeps_holder_witness : ∃ s', steps demo_renewed !! 100%N = Some s' ∧ LeaseFence s' = 1%Z.
Proof.
  destruct (steps demo_claimed !! 100%N) as [s|] eqn:Hs; [|exfalso; vm_compute in Hs; discriminate].
  destruct demo_renew_ok as (u & Hn).
  assert (execution (unicode := ascii_only) (text := unary) demo_claimed [(130 * Second)%Z] demo_renewed) as Hx
    by (apply (execution_step demo_claimed [] demo_claimed); [constructor|exact (executes_renew _ _ _ _ _ Hn)]).
  destruct (live_lease_keeps_holder demo_claimed _ demo_renewed 100%N s (160 * Second)%Z demo_claimed_keyed Hx Hs) as (s' & _ & H1 & H2 & _).
  - vm_compute in Hs. injection Hs as <-. reflexivity.
  - repeat constructor.
  - exists s'. split; [exact H1|]. rewrite H2. vm_compute in Hs. injection Hs as <-. reflexivity.
Defined.

(** the step rows stay well formed along every run: none appears or disappears, each keeps
    its identity and one of the seven statuses, fences stay within 64 bits, and a running step
    always has a task, a lease and a fence that was issued. *)
Theorem steps_stay_typed {unicode : GoUnicode} {text : UuidText} db ts db' :
  typed_steps db → execution db ts db' → typed_steps db' ∧ dom (steps db') = dom (steps db).
Proof.
  intros H0 Hx. induction Hx as [|ts db1 t db2 _ IH Hx]; [done|]. destruct IH as [Ht <-]. by eapply executes_typed.
Qed.
Example steps_stay_typed_witness : typed_steps demo_reported ∧ size (steps demo_reported) = 3.
Proof.
  destruct (steps_stay_typed demo_db _ demo_reported demo_typed demo_lease_run) as [Ht Hd]. split; [exact Ht|].
  rewrite <-size_dom, Hd, size_dom. vm_compute. reflexivity.
Defined.

(** C30: a claim that changes anything took one step of the approved plan of the task's work
    item that was free for the task's profile: a planned or ready step without a live lease or a
    running one whose lease has ended, with every stored dependency completed.  No step that was
    free then comes before it in display order, ties broken by identity.  Its fence went up by
    exactly one, its lease ends after now, at most fifteen minutes on and no later than the
    task's lease, and no other row changed. *)
Theorem claim_takes_first_free_step {unicode : GoUnicode} {text : UuidText} tx input target db r db' :
  well_keyed db → claimReadyStepInTransaction tx input target db = Ok (r, db') → db' ≠ db →
  ∃ step task plan expiry now,
    steps db !! Step_ID step = Some step ∧ tasks db !! Task_ID task = Some task ∧ plans db !! Step_PlanID step = Some plan ∧
    (∃ gate, ApprovedGateID plan = Some gate ∧ gate ≠ Nil) ∧ DeliveryWorkItemID task = Some (WorkItemID plan) ∧
    now = leaseValidationTime tx 0 (Claim_Now input) ∧
    free_step tx db (Claim_PlanID input) (TrimSpace (Task_AgentKey task)) target now step ∧
    (∀ id other, steps db !! id = Some other → free_step tx db (Claim_PlanID input) (TrimSpace (Task_AgentKey task)) target now other →
       (DisplayOrder step < DisplayOrder other)%Z ∨ DisplayOrder step = DisplayOrder other ∧ (Step_ID step ≤ Step_ID other)%N) ∧
    (now < expiry ≤ now + MaxStepLeaseTTL)%Z ∧ (∀ t, Task_LeaseExpiresAt task = Some t → (expiry ≤ t)%Z) ∧
    steps db' = <[Step_ID step := claimed_by task (LeaseFence step + 1) expiry now step]> (steps db) ∧
    Available r = true ∧ Fence r = (LeaseFence step + 1)%Z ∧ Result_LeaseExpiresAt r = Some expiry.
Proof.
  intros Hk H Hne. apply claim_run in H as (identity & ttl & plan & task & now & Hcl & Ho); [|done].
  destruct Ho as [held ? _ _ _ _ _|? _ _|step Hrow Hfree _ Hfirst Hx [Hf Hst _ _] Hr]; [done..|].
  pose proof (claiming_input _ _ _ _ _ _ _ _ Hcl) as Hin%ttl_bounds. pose proof (capped_bound task now ttl) as [Hc1 Hc2].
  pose proof (claiming_plan _ _ _ _ _ _ _ _ Hcl) as Hpl. pose proof (claiming_task _ _ _ _ _ _ _ _ Hcl) as Htk.
  pose proof (keyed_plans _ Hk _ _ Hpl) as Hpid. pose proof (keyed_tasks _ Hk _ _ Htk) as Htid.
  destruct (task_matches_holder _ _ _ (claiming_matches _ _ _ _ _ _ _ _ Hcl)) as (_ & _ & Hag & _).
  unfold claimable in Hfree, Hfirst. rewrite Hpid, <-Hag in *. apply is_eligible_iff in Hfree as Hfr.
  exists step, task, plan, (capped task now ttl), now. rewrite (free_plan _ _ _ _ _ _ _ Hfr), Htid.
  split; [done|]. split; [done|]. split; [done|]. split; [apply Hcl|]. split; [by eapply claiming_item|].
  split; [by eapply claiming_now|]. split; [done|]. split.
  { intros id other Hid Ho%is_eligible_iff. specialize (Hfirst id other Hid Ho). unfold step_before in Hfirst.
    rewrite orb_false_iff, andb_false_iff, Z.ltb_ge, Z.eqb_neq, N.ltb_ge in Hfirst. lia. }
  split; [lia|]. split; [done|]. split; [done|]. subst r. done.
Qed.
Example claim_takes_first_free_step_witness : ∃ r step expiry,
  demo_claims (100 * Second)%Z demo_db = Ok (r, demo_claimed) ∧ Fence r = (LeaseFence step + 1)%Z ∧
  steps demo_claimed = <[Step_ID step := claimed_by demo_task (LeaseFence step + 1) expiry (100 * Second)%Z step]> (steps demo_db).
Proof.
  destruct demo_claim_ok as (r & Hc).
  destruct (claim_takes_first_free_step _ _ _ _ r demo_claimed demo_keyed Hc)
    as (step & task & plan & expiry & now & Hs & Ht & _ & _ & _ & Hn & _ & _ & _ & _ & Hst & _ & Hf & _).
  - intros Heq. apply (f_equal (λ db, length (events db))) in Heq. vm_compute in Heq. discriminate.
  - exists r, step, expiry. apply demo_task_only in Ht as <-. subst now. by split_and!.
Defined.

(** a renewal touches one running step that its caller holds under the fence it presents:
    it only moves the lease's end, strictly forward, at most fifteen minutes from now and no
    later than the task's lease, and logs one entry. *)
Theorem renewal_only_extends {unicode : GoUnicode} {text : UuidText} tx input db u db' :
  well_keyed db → RenewStepLeaseInTransaction tx input db = Ok (u, db') →
  ∃ step task identity old new now e,
    steps db !! Lease_StepID input = Some step ∧ tasks db !! Task_ID task = Some task ∧
    LeaseFence step = Lease_Fence input ∧ holder_of_step step = holder_of_identity identity ∧
    Status step = DeliveryPlanStepRunning ∧ LeaseExpiresAt step = Some old ∧
    now = leaseValidationTime tx 1 (Lease_Now input) ∧ (now < old < new)%Z ∧ (new ≤ now + MaxStepLeaseTTL)%Z ∧
    (∀ t, Task_LeaseExpiresAt task = Some t → (new ≤ t)%Z) ∧
    steps db' = <[Lease_StepID input := with_expiry new now step]> (steps db) ∧ events db' = (events db ++ [e])%list ∧
    ticket e = (Lease_StepID input, Lease_Fence input).
Proof.
  intros Hk H. apply renew_run in H as (identity & ttl & task & step & now & old & e & Hin & Hfen & Hrun & Hold & Hlt & (Hst & _ & _ & _ & Hev) & Hof & _); [|done].
  destruct Hfen as [[Htk Hm] Hrow (Hh & Hfe & Hpos) [Hl1 Hl2] Hnow _].
  pose proof (capped_bound task now ttl) as [Hc1 Hc2]. apply lease_ttl_bounds in Hin.
  pose proof (keyed_steps _ Hk _ _ Hrow) as Hid. pose proof (keyed_tasks _ Hk _ _ Htk) as Htid.
  rewrite Hold in Hl1. cbn in Hl1. apply Z.ltb_lt in Hl1. destruct Hof as (He1 & _ & He2 & _).
  exists step, task, identity, old, (capped task now ttl), now, e. rewrite Htid. split; [done|]. split; [done|]. split; [done|]. split.
  { apply holds_lease_holder in Hh as (H1 & H2 & H3 & H4 & H5). apply task_matches_holder in Hm as (M1 & M2 & M3 & M4).
    unfold holder_of_step, holder_of_identity. by rewrite H1, H2, H3, H4, H5, <-M1, <-M2, <-M3, <-M4, !TrimSpace_idem. }
  repeat (split; [done || lia|]). split; [by rewrite Hst, Hid|]. split; [done|]. unfold ticket. by rewrite He1, He2, Hid, Hfe.
Qed.
Example renewal_only_extends_witness : ∃ step new now, (now < 160 * Second < new)%Z ∧
  steps demo_renewed = <[100%N := with_expiry new now step]> (steps demo_claimed).
Proof.
  destruct demo_renew_ok as (u & Hn).
  destruct (renewal_only_extends _ _ _ _ _ demo_claimed_keyed Hn)
    as (step & task & identity & old & new & now & e & Hs & _ & _ & _ & _ & Ho & _ & Hlt & _ & _ & Hst & _).
  exists step, new, now. split; [|exact Hst]. replace (160 * Second)%Z with old; [exact Hlt|].
  vm_compute in Hs. injection Hs as <-. by injection Ho as <-.
Defined.

(** ** Running a transaction forward *)

Ltac tx_next := apply T_bind_ok; eexists _, _; split.

Section Forward.
Context {unicode : GoUnicode} {text : UuidText} (tx : Tx).

Lemma loadLeasedTask_ok identity override db task :
  tasks db !! Identity_AutomationTaskID identity = Some task →
  task_matches task identity (leaseValidationTime tx 0 override) = true →
  loadLeasedTask tx identity override db = Ok ((task, leaseValidationTime tx 0 override), db).
Proof.
  intros Ht Hm. unfold loadLeasedTask. tx_next; [by apply first_ok|]. tx_next; [by apply check_pass|]. done.
Qed.

(** Repeating a report when the step already has its status changes nothing. *)
Lemma transition_repeat input identity next task step now db :
  normalizeTransitionInput input = Ok (identity, next) →
  fenced tx (Transition_StepID input) identity (Transition_Fence input) (Transition_Now input) db task step now →
  Status step = next → TransitionStepInTransaction tx input db = Ok (tt, db).
Proof.
  intros Hin [[Htk Hm] Hrow (Hh & Hf & _) [Hl1 Hl2] -> (item & plan & Hit & Hpl & Hap)] Hst.
  unfold TransitionStepInTransaction. tx_next; [by apply lift_ok|]. tx_next; [by apply loadLeasedTask_ok|].
  tx_next.
  { unfold loadFencedStep. tx_next; [by apply first_ok|]. tx_next.
    - apply check_pass. by rewrite Hh, Hf, Z.eqb_refl, Hl1, Hl2.
    - rewrite Hit. tx_next; [by apply first_ok|]. tx_next; [by apply check_pass|]. done. }
  tx_next; [by apply check_pass|]. by rewrite Hst, String.eqb_refl.
Qed.

Lemma createStepEvent_ok step ty fs ts sm task fence now db :
  (∀ n, is_Some (fresh tx n)) → (String.length sm ≤ 160)%nat →
  ∃ db', createStepEvent tx step ty fs ts sm task fence now db = Ok (tt, db') ∧ steps db' = steps db.
Proof.
  intros Hfresh Hlen. destruct (Hfresh (drawn db)) as [id Hid]. eexists. split.
  - unfold createStepEvent. tx_next; [reflexivity|]. cbv beta. rewrite Hid.
    tx_next; [apply check_pass; by apply Nat.leb_le|]. reflexivity.
  - done.
Qed.

Lemma updatePlanStep_ok id f db row : steps db !! id = Some row →
  updatePlanStep id f db = Ok (tt, set_steps (<[id := f row]> (steps db)) db).
Proof. intros Hrow. unfold updatePlanStep. tx_next; [by apply first_ok|]. done. Qed.

Lemma takeStep_ok task step ttl now db :
  (∀ n, is_Some (fresh tx n)) → steps db !! Step_ID step = Some step → (0 ≤ LeaseFence step < MaxInt64)%Z →
  (now < capped task now ttl)%Z →
  ∃ db', takeStep tx task step ttl now db = Ok (resultFor (claimed_by task (LeaseFence step + 1) (capped task now ttl) now step), db').
Proof.
  intros Hfresh Hrow Hf Hx.
  assert (∃ db1 row, (if String.eqb (Status step) DeliveryPlanStepPlanned then
         _ ← updatePlanStep (Step_ID step) (with_status DeliveryPlanStepReady now);
         createStepEvent tx step DeliveryPlanStepEventReady (Status step) DeliveryPlanStepReady "Step ready" task (LeaseFence step + 1) now
       else mret tt) db = Ok (tt, db1) ∧ steps db1 !! Step_ID step = Some row) as (db1 & row & H1 & Hrow1).
  { destruct (String.eqb (Status step) DeliveryPlanStepPlanned); [|by exists db, step].
    destruct (createStepEvent_ok step DeliveryPlanStepEventReady (Status step) DeliveryPlanStepReady "Step ready" task (LeaseFence step + 1) now
      (set_steps (<[Step_ID step := with_status DeliveryPlanStepReady now step]> (steps db)) db) Hfresh) as (db1 & He & Hs); [by apply Nat.leb_le|].
    exists db1, (with_status DeliveryPlanStepReady now step). split.
    - tx_next; [by apply updatePlanStep_ok|exact He].
    - rewrite Hs. cbn. by rewrite lookup_insert_eq. }
  set (reclaimed := String.eqb (if String.eqb (Status step) DeliveryPlanStepPlanned then DeliveryPlanStepReady else Status step) DeliveryPlanStepRunning).
  destruct (createStepEvent_ok (claimed_by task (LeaseFence step + 1) (capped task now ttl) now step)
      (if reclaimed then DeliveryPlanStepEventLeaseReclaimed else DeliveryPlanStepEventClaimed)
      (if String.eqb (Status step) DeliveryPlanStepPlanned then DeliveryPlanStepReady else Status step) DeliveryPlanStepRunning
      (if reclaimed then "Expired step lease reclaimed" else "Step claimed") task (LeaseFence step + 1) now
      (set_steps (<[Step_ID step := claimed_by task (LeaseFence step + 1) (capped task now ttl) now row]> (steps db1)) db1) Hfresh)
    as (db2 & He & _); [by destruct reclaimed; apply Nat.leb_le|].
  exists db2. unfold takeStep. fold (capped task now ttl). cbv zeta.
  tx_next. { apply check_pass. apply negb_true_iff, orb_false_iff. rewrite Z.ltb_ge, Z.eqb_neq. unfold MaxInt64 in *. lia. }
  tx_next; [apply check_pass; by apply Z.ltb_lt|].
  tx_next; [exact H1|]. tx_next; [by apply updatePlanStep_ok|]. tx_next; [exact He|]. done.
Qed.
End Forward.

(** a report by the live holder either finds its status in place and changes nothing, or
    makes one allowed change of a running step and logs one entry; and repeating the report
    while the leases last succeeds and changes nothing more. *)
Theorem transition_reports_once {unicode : GoUnicode} {text : UuidText} tx input db u db' :
  well_keyed db → TransitionStepInTransaction tx input db = Ok (u, db') →
  ∃ step task next now, steps db !! Transition_StepID input = Some step ∧ tasks db !! Task_ID task = Some task ∧
    validStepStatus next = true ∧ LeaseFence step = Transition_Fence input ∧
    (Status step = next ∧ db' = db ∨
     Status step ≠ next ∧ CanTransitionStatus (Status step) next = true ∧
     EqualFold (Status step) DeliveryPlanStepRunning = true ∧
     steps db' = <[Transition_StepID input := with_outcome next now step]> (steps db) ∧
     ∃ e, events db' = (events db ++ [e])%list ∧ ticket e = (Transition_StepID input, Transition_Fence input)) ∧
    (∀ tx', (∀ n, after_opt (LeaseExpiresAt step) (leaseValidationTime tx' n (Transition_Now input)) = true ∧
                  after_opt (Task_LeaseExpiresAt task) (leaseValidationTime tx' n (Transition_Now input)) = true) →
       TransitionStepInTransaction tx' input db' = Ok (tt, db')).
Proof.
  intros Hk H. apply transition_run in H as (identity & next & task & step & now & Hin & Hfen & Hcase); [|done].
  pose proof Hfen as [[Htk Hm] Hrow (Hh & Hfe & Hpos) [Hl1 Hl2] Hnow Hplan].
  pose proof (keyed_steps _ Hk _ _ Hrow) as Hid. pose proof (keyed_tasks _ Hk _ _ Htk) as Htid.
  exists step, task, next, now. rewrite Htid. split; [done|]. split; [done|]. split.
  { by eapply normalizeTransition_status. }
  split; [done|]. split.
  { destruct Hcase as [[? ->]|(H1 & H2 & H3 & e & (Hst & _ & _ & _ & Hev) & Hof & _)]; [by left|right].
    repeat (split; [done|]). split; [by rewrite Hst, Hid|]. exists e. split; [done|].
    destruct Hof as (He1 & _ & He2 & _). unfold ticket. by rewrite He1, He2, Hid, Hfe. }
  intros tx' Hlive. destruct (Hlive 0%nat) as [_ Ht0]. destruct (Hlive 1%nat) as [Hs1 Ht1].
  assert (task_matches task identity (leaseValidationTime tx' 0 (Transition_Now input)) = true) as Hm'.
  { unfold task_matches in *. rewrite Ht0. rewrite !andb_true_iff in *. tauto. }
  destruct Hcase as [[Heq ->]|(H1 & H2 & H3 & e & (Hst & Hp & Ht & _ & _) & _)].
  - eapply transition_repeat; [exact Hin| |exact Heq]. by split.
  - eapply (transition_repeat _ _ _ _ task (with_outcome next now step)); [exact Hin| |done].
    split; rewrite ?Hst, ?Hp, ?Ht, ?Hid, ?lookup_insert_eq; done.
Qed.
Example transition_reports_once_witness : demo_reports (155 * Second)%Z demo_reported = Ok (tt, demo_reported).
Proof.
  destruct demo_report_ok as (u & Hr), demo_renew_ok as (v & Hn).
  assert (well_keyed demo_renewed) as Hk by (eapply executes_keyed; [exact demo_claimed_keyed|exact (executes_renew _ _ _ _ _ Hn)]).
  destruct (transition_reports_once _ _ _ _ _ Hk Hr) as (step & task & next & now & Hs & Ht & _ & _ & _ & Hrep).
  apply (Hrep (demo_tx (155 * Second)%Z)). intros n. vm_compute in Hs. injection Hs as <-.
  assert (demo_task = task) as <- by (apply (demo_task_only (Task_ID task)); exact Ht). by split.
Defined.

(** a claim of any step by the live holder of a task whose plan is approved succeeds with a
    step as long as the task still holds one or some unlocked step is free: work that can be
    claimed is claimed. *)
Theorem free_step_is_claimed {unicode : GoUnicode} {text : UuidText} tx input db identity ttl plan task now :
  well_keyed db → claiming tx input db identity ttl plan task now →
  (∀ n, is_Some (fresh tx n)) → (∀ id s, steps db !! id = Some s → (0 ≤ LeaseFence s < MaxInt64)%Z) →
  (∃ id s, steps db !! id = Some s ∧ (held_now tx identity plan task now s = true ∨ claimable tx None db identity plan now s = true)) →
  ∃ r db', ClaimNextReadyInTransaction tx input db = Ok (r, db') ∧ Available r = true.
Proof.
  intros Hk [Hin Hpl [Hap (gate & Hg & Hgn)] Htk Hm -> Hit] Hfresh Hfence (id & s & Hs & Hor).
  set (now := leaseValidationTime tx 0 (Claim_Now input)) in *.
  assert (∃ r db', (match select_steps (is_active tx (Plan_ID plan) task identity now) db with
     | held :: _ => _ ← check true ErrStepLeaseConflict; mret (resultFor held)
     | [] => eligible ← read (λ db, select_steps (is_eligible tx db (Plan_ID plan) (Identity_AgentKey identity) None now) db);
         match eligible with [] => mret noClaim | step :: _ => takeStep tx task step ttl now end
     end) db = Ok (r, db') ∧ Available r = true) as (r & db' & Hrun & Hav).
  { destruct (select_steps (is_active tx (Plan_ID plan) task identity now) db) as [|held rest] eqn:Hsel; [|by eexists _, _].
    destruct (select_steps (is_eligible tx db (Plan_ID plan) (Identity_AgentKey identity) None now) db) as [|step rest] eqn:Hel.
    - exfalso. rewrite select_nil in Hsel, Hel by done. specialize (Hsel id s Hs). specialize (Hel id s Hs).
      unfold held_now, claimable in Hor. destruct Hor; congruence.
    - pose proof (select_first _ _ _ _ Hk Hel) as (Hrow & _ & _).
      assert (now < capped task now ttl)%Z as Hx.
      { pose proof (ttl_bounds _ _ _ Hin) as Hb. unfold task_matches in Hm. rewrite !andb_true_iff in Hm.
        destruct Hm as [_ Hlive]. unfold capped. destruct (Task_LeaseExpiresAt task) as [t|]; [|done]. apply Z.ltb_lt in Hlive.
        change MinStepLeaseTTL with 15000000000%Z in Hb. destruct (Z.ltb_spec t (now + ttl)); lia. }
      destruct (takeStep_ok tx task step ttl now db Hfresh Hrow (Hfence _ _ Hrow) Hx) as (db' & Hrun).
      eexists _, db'. split; [tx_next; [reflexivity|]; cbv beta; rewrite Hel; exact Hrun|done]. }
  exists r, db'. split; [|exact Hav]. unfold ClaimNextReadyInTransaction, claimReadyStepInTransaction.
  tx_next; [by apply lift_ok|]. cbn [Identity Normalized_PlanID]. tx_next; [by apply first_ok|].
  tx_next. { apply check_pass. rewrite Hap, Hg. cbn [andb]. by apply negb_true_iff, N.eqb_neq. }
  tx_next; [by apply loadLeasedTask_ok|]. cbv beta iota. fold now.
  tx_next; [apply check_pass; by apply bool_decide_eq_true|]. tx_next; [reflexivity|]. exact Hrun.
Qed.
Example free_step_is_claimed_witness : ∃ r db',
  ClaimNextReadyInTransaction (unicode := ascii_only) (text := unary) (demo_tx (100 * Second)%Z) demo_claim demo_db = Ok (r, db') ∧
  Available r = true.
Proof.
  destruct (normalizeClaimInput (text := unary) demo_claim) as [[n ttl]|e] eqn:Hn; [|vm_compute in Hn; discriminate].
  destruct (steps demo_db !! 100%N) as [s|] eqn:Hs; [|exfalso; vm_compute in Hs; discriminate].
  apply (free_step_is_claimed (unicode := ascii_only) (text := unary) _ _ _ (Identity n) ttl demo_approved demo_task (100 * Second)%Z demo_keyed).
  - vm_compute in Hn. injection Hn as <- <-. split; [vm_compute; reflexivity|vm_compute; reflexivity| |vm_compute; reflexivity..].
    split; [vm_compute; reflexivity|exists 5%N; split; [reflexivity|discriminate]].
  - intros k. by exists (500 + N.of_nat k)%N.
  - intros id row Hrow. destruct demo_fresh as (_ & _ & Hf). rewrite (Hf id row Hrow). by split.
  - exists 100%N, s. split; [exact Hs|right]. vm_compute in Hn, Hs. injection Hn as <- <-. injection Hs as <-. vm_compute. reflexivity.
Defined.

(** ** Retries *)

(** Rows whose holder columns carry no surrounding white space. *)
Definition canonical_task (t : AutomationTask) : Prop :=
  TrimSpace (Task_RunID t) = Task_RunID t ∧ TrimSpace (Task_WorkerID t) = Task_WorkerID t ∧
  TrimSpace (Task_AgentKey t) = Task_AgentKey t ∧ TrimSpace (Task_MachineID t) = Task_MachineID t.

Lemma step_before_total s1 s2 : step_before s1 s2 = false → step_before s2 s1 = false → Step_ID s1 = Step_ID s2.
Proof.
  unfold step_before. rewrite !orb_false_iff, !andb_false_iff, !Z.ltb_ge, !Z.eqb_neq, !N.ltb_ge. lia.
Qed.

(** A selected row that no other selected row precedes is the first one selected. *)
Lemma select_head p db s : well_keyed db → steps db !! Step_ID s = Some s → p s = true →
  (∀ id s', steps db !! id = Some s' → p s' = true → step_before s' s = false) → ∃ rest, select_steps p db = s :: rest.
Proof.
  intros Hk Hs Hp Hmin. destruct (select_steps p db) as [|h rest] eqn:Hsel.
  { rewrite select_nil in Hsel by done. by rewrite (Hsel _ _ Hs) in Hp. }
  apply select_first in Hsel as (Hh & Hph & Hfirst); [|done].
  assert (Step_ID h = Step_ID s) as Heq by (apply step_before_total; eauto). rewrite Heq, Hs in Hh. injection Hh as <-. by exists rest.
Qed.

Lemma claim_held {unicode : GoUnicode} {text : UuidText} tx input target db identity ttl plan task now held rest :
  claiming tx input db identity ttl plan task now →
  select_steps (is_active tx (Plan_ID plan) task identity now) db = held :: rest →
  (∀ id, target = Some id → Step_ID held = id) →
  claimReadyStepInTransaction tx input target db = Ok (resultFor held, db).
Proof.
  intros [Hin Hpl [Hap (gate & Hg & Hgn)] Htk Hm -> Hit] Hsel Htarget. unfold claimReadyStepInTransaction.
  tx_next; [by apply lift_ok|]. cbn [Identity Normalized_PlanID]. tx_next; [by apply first_ok|].
  tx_next. { apply check_pass. rewrite Hap, Hg. cbn [andb]. by apply negb_true_iff, N.eqb_neq. }
  tx_next; [by apply loadLeasedTask_ok|]. cbv beta iota.
  tx_next; [apply check_pass; by apply bool_decide_eq_true|]. tx_next; [reflexivity|]. cbv beta. rewrite Hsel.
  tx_next; [apply check_pass|reflexivity]. destruct target as [id|]; [|done]. by apply N.eqb_eq, Htarget.
Qed.

Lemma is_active_earlier tx tx' planID task identity now now' s :
  (now ≤ now')%Z → locked tx (Step_ID s) = false →
  is_active tx' planID task identity now' s = true → is_active tx planID task identity now s = true.
Proof.
  unfold is_active. rewrite !andb_true_iff. intros Hle Hl [[Hrest Hx] _]. split; [split; [done|]|by rewrite Hl].
  destruct (LeaseExpiresAt s) as [e|]; [|done]. cbn in *. apply Z.ltb_lt in Hx. apply Z.ltb_lt. lia.
Qed.
Lemma is_active_later tx tx' planID task identity now now' s e :
  LeaseExpiresAt s = Some e → (now' < e)%Z → locked tx' (Step_ID s) = false →
  is_active tx planID task identity now s = true → is_active tx' planID task identity now' s = true.
Proof.
  unfold is_active. intros He Hlt Hl. rewrite He, Hl, !andb_true_iff. cbn. intros [[Hrest _] _].
  split; [split; [done|by apply Z.ltb_lt]|done].
Qed.

Lemma claim_task_id {unicode : GoUnicode} {text : UuidText} input n ttl :
  normalizeClaimInput input = Ok (n, ttl) → Identity_AutomationTaskID (Identity n) = Claim_AutomationTaskID input.
Proof.
  unfold normalizeClaimInput. intros H. repeat (apply bind_ok in H as (? & _ & H)). by injection H as <- <-.
Qed.

(** a claim retried by the same input before its lease and the task's lease end, with no
    row held by others, returns the same step, fence and expiry, and takes no further step. *)
Theorem claim_retry_is_idempotent {unicode : GoUnicode} {text : UuidText} tx tx' input target db r db' e :
  well_keyed db → (∀ id, locked tx id = false ∧ locked tx' id = false) → (∀ id t, tasks db !! id = Some t → canonical_task t) →
  claimReadyStepInTransaction tx input target db = Ok (r, db') → Result_LeaseExpiresAt r = Some e →
  (leaseValidationTime tx 0 (Claim_Now input) ≤ leaseValidationTime tx' 0 (Claim_Now input) < e)%Z →
  (∀ t, tasks db !! Claim_AutomationTaskID input = Some t →
     after_opt (Task_LeaseExpiresAt t) (leaseValidationTime tx' 0 (Claim_Now input)) = true) →
  claimReadyStepInTransaction tx' input target db' = Ok (r, db').
Proof.
  intros Hk Hlock Hcan H He Htime Hlive.
  assert (well_keyed db') as Hk' by (eapply executes_keyed; [exact Hk|by eapply executes_claim]).
  apply claim_run in H as (identity & ttl & plan & task & now & Hcl & Ho); [|done].
  pose proof Hcl as [Hin Hpl Hap Htk Hm Hnow Hit]. set (now' := leaseValidationTime tx' 0 (Claim_Now input)) in *.
  rewrite <-Hnow in Htime.
  assert (∀ db2, plans db2 = plans db → tasks db2 = tasks db → claiming tx' input db2 identity ttl plan task now') as Hcl'.
  { intros db2 Hp2 Ht2. split; rewrite ?Hp2, ?Ht2; try done. unfold task_matches in *. rewrite !andb_true_iff in *.
    destruct Hm as [Hm _]. split; [done|]. apply Hlive. pose proof (claim_task_id _ _ _ Hin) as Hti. cbn [Identity] in Hti. by rewrite Hti in Htk. }
  destruct Ho as [held -> -> Hrow Hact Htarget Hmin| -> -> _|step Hrow Hfree Hnone _ Hx [Hf Hst (Hp & Ht & _) _] ->]; [|done|].
  - cbn in He. destruct (select_head (is_active tx' (Plan_ID plan) task identity now') db held Hk Hrow) as (rest & Hsel).
    + eapply is_active_later; [exact He|lia|apply Hlock|exact Hact].
    + intros id s Hs Ha. apply (Hmin id s Hs). eapply is_active_earlier; [|apply Hlock|exact Ha]. lia.
    + by apply (claim_held tx' input target db identity ttl plan task now' held rest); [apply Hcl'| |].
  - cbn in He. injection He as He. destruct (Hcan _ _ Htk) as (C1 & C2 & C3 & C4).
    apply task_matches_holder in Hm as (M1 & M2 & M3 & M4).
    set (row := claimed_by task (LeaseFence step + 1) (capped task now ttl) now step) in *.
    assert (Step_ID row = Step_ID step) as Hid by done.
    assert (is_active tx' (Plan_ID plan) task identity now' row = true) as Hact.
    { unfold claimable, is_eligible in Hfree. rewrite !andb_true_iff in Hfree. destruct Hfree as [[[[[Hpid _] _] _] _] _].
      unfold is_active. cbn [row claimed_by Step_PlanID AutomationTaskID RunID WorkerID AgentKey MachineID Status LeaseExpiresAt Step_ID].
      unfold row. cbn. rewrite Hpid, <-M1, <-M2, <-M3, <-M4, C1, C2, C3, C4, !String.eqb_refl, (proj2 (Hlock _)).
      rewrite bool_decide_true by done. cbn. rewrite andb_true_r. apply Z.ltb_lt. lia. }
    destruct (select_head (is_active tx' (Plan_ID plan) task identity now') db' row Hk') as (rest & Hsel).
    + by rewrite Hst, Hid, lookup_insert_eq.
    + exact Hact.
    + intros id s Hs Ha. rewrite Hst in Hs. apply lookup_insert_Some in Hs as [[_ <-]|[Hne Hs]].
      * unfold step_before. by rewrite Z.ltb_irrefl, Z.eqb_refl, N.ltb_irrefl.
      * exfalso. specialize (Hnone id s Hs). unfold held_now in Hnone.
        rewrite (is_active_earlier tx tx' _ _ _ now now') in Hnone; [done|lia|apply Hlock|exact Ha].
    + apply (claim_held tx' input target db' identity ttl plan task now' row rest); [by apply Hcl'|done|].
      intros id ->. unfold claimable, is_eligible in Hfree. rewrite !andb_true_iff in Hfree.
      destruct Hfree as [[_ Htg] _]. by apply N.eqb_eq in Htg.
Qed.
Example claim_retry_is_idempotent_witness : ∃ r,
  demo_claims (100 * Second)%Z demo_db = Ok (r, demo_claimed) ∧ demo_claims (150 * Second)%Z demo_claimed = Ok (r, demo_claimed).
Proof.
  destruct demo_claim_ok as (r & Hc). exists r. split; [exact Hc|].
  apply (claim_retry_is_idempotent (demo_tx (100 * Second)%Z) (demo_tx (150 * Second)%Z) demo_claim None demo_db r demo_claimed (160 * Second)%Z demo_keyed).
  - by split.
  - intros id t <-%demo_task_only. vm_compute. repeat split.
  - exact Hc.
  - apply (f_equal (λ o, match o with Ok (a, _) => Result_LeaseExpiresAt a | Err _ => None end)) in Hc.
    etransitivity; [symmetry; exact Hc|]. vm_compute. reflexivity.
  - vm_compute. split; [discriminate|reflexivity].
  - intros t <-%demo_task_only. reflexivity.
Defined.
