(* ===== verification/PlanLeaseSpec.v ===== *)
(** * What the step leases promise

    The contract, without tables, texts or tasks: a service that keeps one lease per step.  A
    lease has an owner, a fence and an end.  The service may grant a lease whose end has come,
    under the next fence, and extend one that is live; both end at most [MaxStepLeaseTTL]
    later.  Nothing else ever changes a lease.  Every run of the operations of claim.go, with
    whatever other services do to plans and tasks in between, is a run of this service at the
    same clock readings. *)
From stdpp Require Import base tactics list strings gmap.
From S2P Require Import Prelude GoStrings GoSort PlanGraph PlanStore PlanLease PlanLeaseFacts PlanLeaseTheorems.
Open Scope string_scope.

(** ** The service *)

Record lease := { owner : holder; fence : Z; until : option Z }.

Inductive serves (now : Z) (l : lease) : lease → Prop :=
| grants h e : (∀ e0, until l = Some e0 → (e0 ≤ now)%Z) → (now < e ≤ now + MaxStepLeaseTTL)%Z →
    serves now l {| owner := h; fence := fence l + 1; until := Some e |}
| extends e0 e : until l = Some e0 → (now < e0 < e)%Z → (e ≤ now + MaxStepLeaseTTL)%Z →
    serves now l {| owner := owner l; fence := fence l; until := Some e |}.

Inductive service_step (L : gmap uuid lease) (now : Z) : gmap uuid lease → Prop :=
| service_idle : service_step L now L
| service_serves id l l' : L !! id = Some l → serves now l l' → service_step L now (<[id := l']> L).

Inductive service_run (L : gmap uuid lease) : list Z → gmap uuid lease → Prop :=
| service_start : service_run L [] L
| service_then ts L1 t L2 : service_run L ts L1 → service_step L1 t L2 → service_run L (ts ++ [t]) L2.

(** ** The leases of the tables *)

Definition lease_of (s : DeliveryPlanStep) : lease :=
  {| owner := holder_of_step s; fence := LeaseFence s; until := LeaseExpiresAt s |}.
Definition leases (db : DB) : gmap uuid lease := lease_of <$> steps db.

Lemma leases_lookup db id s : steps db !! id = Some s → leases db !! id = Some (lease_of s).
Proof. intros H. unfold leases. by rewrite lookup_fmap, H. Qed.
Lemma leases_update db db' id s row : steps db !! id = Some s → steps db' = <[id := row]> (steps db) →
  ∀ now, lease_of row = lease_of s ∨ serves now (lease_of s) (lease_of row) → service_step (leases db) now (leases db').
Proof.
  intros Hs Hst now Hor. unfold leases. rewrite Hst, fmap_insert. destruct Hor as [Heq|Hor].
  - rewrite Heq, insert_id; [constructor|by apply leases_lookup].
  - eapply service_serves; [by apply leases_lookup|done].
Qed.

Lemma executes_serves {unicode : GoUnicode} {text : UuidText} db t db' :
  well_keyed db → executes db t db' → service_step (leases db) t (leases db').
Proof.
  intros Hk [tx input target r db1 H|tx input u db1 H|tx input u db1 H|t' db1 Hst _ _ _].
  - apply claim_run in H as (identity & ttl & plan & task & now & Hcl & Ho); [|done].
    rewrite <-(claiming_now _ _ _ _ _ _ _ _ Hcl).
    destruct Ho as [held -> _ _ _ _ _| -> _ _|step Hrow Hfree _ _ Hx [_ Hst _ _] _]; [constructor..|].
    apply (leases_update db db1 _ step _ Hrow Hst). right. apply (grants _ (lease_of step) _ (capped task now ttl)).
    + intros e0 He0. cbn in He0. unfold claimable, is_eligible, lease_free in Hfree. rewrite He0 in Hfree. cbn [until_opt] in Hfree.
      repeat rewrite ?andb_true_iff, ?orb_true_iff in Hfree. rewrite Z.leb_le in Hfree. tauto.
    + pose proof (claiming_input _ _ _ _ _ _ _ _ Hcl) as Hin%ttl_bounds. pose proof (capped_bound task now ttl). lia.
  - apply renew_run in H as (identity & ttl & task & step & now & old & e & Hin & Hfen & _ & Hold & Hlt & (Hst & _) & _); [|done].
    pose proof Hfen as [_ Hrow _ [Hl _] <- _]. rewrite Hold in Hl. apply Z.ltb_lt in Hl. pose proof (keyed_steps _ Hk _ _ Hrow) as Hid.
    rewrite Hid in Hst. apply (leases_update db db1 _ step _ Hrow Hst). right.
    apply lease_ttl_bounds in Hin. pose proof (capped_bound task now ttl). apply (extends _ (lease_of step) old (capped task now ttl)); [done|lia..].
  - apply transition_run in H as (identity & next & task & step & now & _ & Hfen & [[_ ->]|(_ & _ & _ & e & (Hst & _) & _)]); [constructor| |done].
    pose proof (fenced_step _ _ _ _ _ _ _ _ _ Hfen) as Hrow. pose proof (keyed_steps _ Hk _ _ Hrow) as Hid. rewrite Hid in Hst.
    apply (leases_update db db1 _ step _ Hrow Hst). by left.
  - unfold leases. rewrite Hst. constructor.
Qed.

(** C20: every run of claims, renewals and reports, interleaved with any changes to plans and
    tasks, is a run of the abstract lease service at the same clock readings: a lease changes
    only by a grant under the next fence after its end, or by an extension of a live lease by
    its owner, and always ends within fifteen minutes. *)
Theorem leases_refine_service {unicode : GoUnicode} {text : UuidText} db ts db' :
  well_keyed db → execution db ts db' → service_run (leases db) ts (leases db').
Proof.
  intros Hk Hx. induction Hx as [|ts db1 t db2 Hx IH Hstep]; [constructor|].
  econstructor; [exact IH|]. apply executes_serves; [by eapply execution_keyed|done].
Qed.
Example leases_refine_service_witness :
  service_run (leases demo_db) [(100 * Second)%Z; (130 * Second)%Z; (150 * Second)%Z] (leases demo_reported) ∧
  until <$> leases demo_reported !! 100%N = Some (Some (190 * Second)%Z).
Proof.
  split; [exact (leases_refine_service demo_db _ demo_reported demo_keyed demo_lease_run)|vm_compute; reflexivity].
Defined.
