(* ===== verification/PlanHashTheorems.v ===== *)
(** * Theorems on the hash of an approved plan *)
From stdpp Require Import base tactics list strings gmap sorting.
From S2P Require Import Prelude GoStrings GoSort Json Sha256 PlanGraph PlanGraphFacts PlanGraphSpec PlanNormalizeFacts PlanGraphTheorems PlanStore PlanStored PlanEnsure PlanHashFacts PlanLease PlanLeaseFacts PlanLeaseTheorems.
Open Scope string_scope.

(** ** Equal hashes, equal content *)

Section Binds.
Context {unicode : GoUnicode} {text : UuidText}.

Lemma JString_inj (l1 l2 : list string) : JString <$> l1 = JString <$> l2 → l1 = l2.
Proof. apply list_fmap_eq_inj. by intros ? ? [= ->]. Qed.
Lemma nil_or_array_strings (l1 l2 : list string) : nil_or_array (JString <$> l1) = nil_or_array (JString <$> l2) → l1 = l2.
Proof. destruct l1, l2; try done. intros [= -> H]. f_equal. by apply JString_inj. Qed.
Lemma requirement_json_inj r1 r2 : EvidenceRequirement_json r1 = EvidenceRequirement_json r2 → r1 = r2.
Proof.
  destruct r1 as [k1 t1 d1 q1 c1 m1], r2 as [k2 t2 d2 q2 c2 m2]. unfold EvidenceRequirement_json. cbn.
  destruct (String.eqb_spec d1 ""), (String.eqb_spec d2 ""); subst; intros H; injection H; intros; subst; try done;
    repeat match goal with Hc : nil_or_array _ = nil_or_array _ |- _ => apply nil_or_array_strings in Hc end; congruence.
Qed.
Lemma requirements_json_inj l1 l2 : requirements_json l1 = requirements_json l2 → l1 = l2.
Proof. intros [= H]. revert H. apply list_fmap_eq_inj. exact requirement_json_inj. Qed.
Lemma canonicalStep_json_inj c1 c2 : canonicalStep_json c1 = canonicalStep_json c2 → c1 = c2.
Proof.
  destruct c1 as [i1 k1 r1 o1 t1 b1 l1 e1], c2 as [i2 k2 r2 o2 t2 b2 l2 e2]. unfold canonicalStep_json. cbn.
  intros H. injection H as Hi -> -> -> -> -> Hl He. apply uuid_text_inj in Hi as ->. apply JString_inj in Hl as ->.
  destruct e1 as [|x1 e1], e2 as [|x2 e2]; try discriminate; [reflexivity|].
  assert (requirements_json (x1 :: e1) = requirements_json (x2 :: e2)) as Hr by congruence.
  apply requirements_json_inj in Hr. by rewrite Hr.
Qed.
Lemma canonicalDependency_json_inj d1 d2 : canonicalDependency_json d1 = canonicalDependency_json d2 → d1 = d2.
Proof. destruct d1, d2. intros [= ->%uuid_text_inj ->%uuid_text_inj]. done. Qed.

(** The texts of the rows are valid UTF-8, as every text column of the database is. *)
Definition readable_rows (plan : DeliveryPlan) (rows : list DeliveryPlanStep) : Prop :=
  ∀ row c, row ∈ rows → canonical_of plan row c → json_utf8 (canonicalStep_json c) = true.
Lemma canonical_utf8 plan gate rows cs es : readable_rows plan rows → Forall2 (canonical_of plan) rows cs →
  json_utf8 (canonical_text plan gate cs es) = true.
Proof.
  intros Hu Hall. assert (∀ id, utf8_valid (uuid_text id) = true) as Hid by (intros id; apply ascii_utf8, uuid_text_ascii).
  assert (∀ c, c ∈ sort_by canonical_before cs → json_utf8 (canonicalStep_json c) = true) as Hcs.
  { intros c. rewrite sort_by_elem. intros [i Hi]%list_elem_of_lookup. destruct (Forall2_lookup_r _ _ _ _ _ Hall Hi) as (row & Hr & Hc).
    apply (Hu row c); [by apply list_elem_of_lookup_2 in Hr|done]. }
  unfold canonical_text, canonicalPlan_json. generalize dependent (sort_by canonical_before cs). intros l Hl.
  generalize (sort_by edge_before (ends_of <$> es)). intros k. cbn [json_utf8 forallb]. rewrite !Hid, !andb_true_r.
  change (utf8_valid "schema_version") with true. change (utf8_valid "plan_id") with true. change (utf8_valid "version") with true.
  change (utf8_valid "approved_gate_id") with true. change (utf8_valid "steps") with true. change (utf8_valid "dependencies") with true.
  cbn [andb]. apply andb_true_iff. split; apply forallb_forall; intros j Hj%list_elem_of_In.
  - apply list_elem_of_fmap in Hj as (c & -> & Hc). by apply Hl.
  - apply list_elem_of_fmap in Hj as (d & -> & _). cbn [canonicalDependency_json json_utf8 forallb]. by rewrite !Hid.
Qed.
End Binds.

(** C33: two approved plans with the same hash are the same plan, version, gate, steps and
    dependencies - key, role, order, title, objective, criteria and evidence of every step -
    unless SHA-256 collides on their two canonical texts. *)
Theorem hash_binds_plan {unicode : GoUnicode} {text : UuidText} {map_range : GoMapRange} plan1 plan2 rows1 rows2 es1 es2 h :
  readable_rows plan1 rows1 → readable_rows plan2 rows2 →
  ApprovedPlanContentHash plan1 rows1 es1 = Ok h → ApprovedPlanContentHash plan2 rows2 es2 = Ok h →
  ∃ gate1 gate2 cs1 cs2, ApprovedGateID plan1 = Some gate1 ∧ ApprovedGateID plan2 = Some gate2 ∧
    Forall2 (canonical_of plan1) rows1 cs1 ∧ Forall2 (canonical_of plan2) rows2 cs2 ∧
    (Plan_ID plan1 = Plan_ID plan2 ∧ Version plan1 = Version plan2 ∧ gate1 = gate2 ∧ cs1 ≡ₚ cs2 ∧
       ends_of <$> es1 ≡ₚ ends_of <$> es2 ∨
     collide (Marshal (canonical_text plan1 gate1 cs1 es1)) (Marshal (canonical_text plan2 gate2 cs2 es2))).
Proof.
  intros Hu1 Hu2 (gate1 & cs1 & ks1 & H1 & ->)%ApprovedPlanContentHash_iff (gate2 & cs2 & ks2 & H2 & Heq)%ApprovedPlanContentHash_iff.
  exists gate1, gate2, cs1, cs2. pose proof (proj1 (hashable_steps _ _ _ _ _ _ H1)) as Hc1.
  pose proof (proj1 (hashable_steps _ _ _ _ _ _ H2)) as Hc2.
  split; [apply H1|]. split; [apply H2|]. split; [done|]. split; [done|].
  apply digest_binds in Heq as [Heq|Heq]; [left|by right|by eapply canonical_utf8..].
  unfold canonical_text, canonicalPlan_json in Heq. injection Heq as Hid Hv Hg Hs He.
  apply uuid_text_inj in Hid, Hg. split; [done|]. split; [done|]. split; [done|]. split.
  - rewrite <-(sort_by_perm canonical_before cs1), <-(sort_by_perm canonical_before cs2).
    apply list_fmap_eq_inj in Hs as ->; [done|exact canonicalStep_json_inj].
  - rewrite <-(sort_by_perm edge_before (ends_of <$> es1)), <-(sort_by_perm edge_before (ends_of <$> es2)).
    apply list_fmap_eq_inj in He as ->; [done|exact canonicalDependency_json_inj].
Qed.

(** ** Normalized plans can be hashed *)

Section Normalized.
Context {unicode : GoUnicode} {text : UuidText} {runtime : GoRuntime} {map_range : GoMapRange}.

Abbreviation graph_of steps := (list_to_map ((λ step, (Key step, step)) <$> steps) : gmap string StepInput).
(** The criteria and requirements of a submitted step are valid UTF-8. *)
Definition readable_input (input : StepInput) : Prop :=
  forallb utf8_valid (TrimSpace <$> AcceptanceCriteria input) = true ∧
  ∀ rs, normalizeEvidenceRequirements (EvidenceRequirements input) = Ok rs → requirements_utf8 rs.

Context {plan createdBy inputs now steps ids np} (Hn : normalized plan createdBy inputs now steps ids np)
  (Hdist : distinct_ids) (Hnil : ∀ i id, NewV4 i = Some id → id ≠ Nil) (Hread : Forall readable_input inputs).

Definition canonical_step (id : uuid) (step : StepInput) : canonicalStep :=
  {| canonical_ID := id; canonical_StepKey := Key step; canonical_Role := Role step; canonical_DisplayOrder := Order step;
     canonical_Title := Title step; canonical_Objective := Objective step; canonical_Criteria := AcceptanceCriteria step;
     canonical_Evidence := EvidenceRequirements step |}.
Definition canonical_steps : list canonicalStep := zip_with canonical_step (Step_ID <$> Steps np) (sort_by order_less steps).

Lemma trim_key step k : Key step = TrimSpace k → stepKeyPattern (Key step) = true → TrimSpace (Key step) ≠ "".
Proof. intros Hk Hp. rewrite Hk, TrimSpace_idem, <-Hk. intros He. by rewrite He in Hp. Qed.

Lemma row_canonical plan' row step : Plan_ID plan' = Plan_ID plan → step ∈ steps →
  row = stepRow plan (TrimSpace createdBy) (if Z.eqb now 0 then Now else now) (Step_ID row) step → Step_ID row ≠ Nil →
  canonical_of plan' row (canonical_step (Step_ID row) step).
Proof.
  intros Hid Hin -> Hne. apply list_elem_of_lookup in Hin as [i Hi].
  destruct (Forall2_lookup_r _ _ _ _ _ (norm_inputs _ _ _ _ _ _ _ Hn) Hi) as (input & Hinput & Hst).
  apply (Forall_lookup_1 _ _ _ _ Hread) in Hinput as [Hcu Hru]. pose proof (step_criteria _ _ Hst) as (Hc & Hlen & _).
  split; cbn in *.
  - by rewrite Hid.
  - destruct (step_key _ _ Hst). by eapply trim_key.
  - apply (step_order _ _ Hst).
  - apply (step_role _ _ Hst).
  - split; [|lia]. apply UnmarshalStrings_array; [|by rewrite Hc]. intros Hnil'. rewrite Hnil' in Hlen. cbn in Hlen. lia.
  - pose proof (step_requirements _ _ Hst) as Hreq. eapply parse_stored; [exact Hreq|by apply Hru].
  - done.
Qed.

Lemma row_not_nil row : row ∈ Steps np → Step_ID row ≠ Nil.
Proof. intros (i & _ & Hi)%(rows_drawn _ _ _ _ _ _ _ _ (norm_rows _ _ _ _ _ _ _ Hn)). by eapply Hnil. Qed.
Lemma rows_canonical plan' : Plan_ID plan' = Plan_ID plan → Forall2 (canonical_of plan') (Steps np) canonical_steps.
Proof.
  intros Hid. unfold canonical_steps. pose proof (rows_steps _ _ _ _ _ _ _ _ (norm_rows _ _ _ _ _ _ _ Hn)) as Hall.
  assert (∀ step, step ∈ sort_by order_less steps → step ∈ steps) as Hin by (intros step; by rewrite sort_by_elem).
  pose proof row_not_nil as Hne. revert Hin Hne. induction Hall as [|row step rows l Hrow _ IH]; intros Hin Hne; [constructor|].
  cbn. constructor; [apply row_canonical; [done|apply Hin; by left|done|apply Hne; by left]|].
  apply IH; intros; [apply Hin|apply Hne]; by right.
Qed.
Lemma canonical_ids : canonical_ID <$> canonical_steps = Step_ID <$> Steps np.
Proof.
  unfold canonical_steps. pose proof (rows_steps _ _ _ _ _ _ _ _ (norm_rows _ _ _ _ _ _ _ Hn)) as Hall.
  induction Hall as [|row step rows l Hrow _ IH]; [done|]. cbn. by f_equal.
Qed.
Lemma canonical_keys : canonical_StepKey <$> canonical_steps = Key <$> sort_by order_less steps.
Proof.
  unfold canonical_steps. pose proof (rows_steps _ _ _ _ _ _ _ _ (norm_rows _ _ _ _ _ _ _ Hn)) as Hall.
  induction Hall as [|row step rows l Hrow _ IH]; [done|]. cbn. by f_equal.
Qed.
Lemma canonical_elem c : c ∈ canonical_steps ↔ ∃ step, step ∈ steps ∧ c = canonical_step (idOf ids (Key step)) step.
Proof.
  assert (∀ row, row ∈ Steps np → idOf ids (StepKey row) = Step_ID row) as Hid by (intros row; by apply (row_id Hn)).
  assert (∀ step, step ∈ steps ↔ step ∈ sort_by order_less steps) as Hord by (intros step; by rewrite sort_by_elem).
  setoid_rewrite Hord. clear Hord.
  unfold canonical_steps. pose proof (rows_steps _ _ _ _ _ _ _ _ (norm_rows _ _ _ _ _ _ _ Hn)) as Hall.
  induction Hall as [|row step rows l Hrow _ IH]; cbn [fmap list_fmap zip_with].
  { split; [by intros ?%not_elem_of_nil|by intros (? & ?%not_elem_of_nil & _)]. }
  assert (idOf ids (Key step) = Step_ID row) as Hr.
  { rewrite <-Hid by (by left). by rewrite Hrow. }
  rewrite elem_of_cons, IH by (intros r Hr'; apply Hid; by right). setoid_rewrite elem_of_cons. split.
  - intros [->|(st & Hst & ->)]; [exists step; by rewrite Hr; split; [left|]|exists st; by split; [right|]].
  - intros (st & [->|Hst] & ->); [left; by rewrite Hr|right; by exists st].
Qed.

Lemma keyByID_row step : step ∈ steps →
  hash_keyByID (foldl extend hash_start canonical_steps) !! idOf ids (Key step) = Some (Key step).
Proof.
  intros Hin. apply keyByID_lookup.
  - rewrite canonical_ids. apply (rows_distinct _ _ _ _ _ _ _ _ (norm_rows _ _ _ _ _ _ _ Hn) Hdist).
  - exists (canonical_step (idOf ids (Key step)) step). rewrite canonical_elem. split; [by exists step|done].
Qed.
Lemma idOf_inj s1 s2 : s1 ∈ steps → s2 ∈ steps → idOf ids (Key s1) = idOf ids (Key s2) → Key s1 = Key s2.
Proof. intros H1 H2 Heq. pose proof (keyByID_row s1 H1) as Hk. rewrite Heq, (keyByID_row s2 H2) in Hk. by injection Hk. Qed.
Lemma idOf_not_nil step : step ∈ steps → idOf ids (Key step) ≠ Nil.
Proof.
  intros (row & Hr & Heq)%(step_row Hn). replace (Key step) with (StepKey row) by (by rewrite Heq). rewrite (row_id Hn row Hr). by apply row_not_nil.
Qed.
Lemma edge_steps e : e ∈ orderedEdges (sort_by order_less steps) ↔
  ∃ s1 s2, s1 ∈ steps ∧ s2 ∈ steps ∧ Key s1 = e.1 ∧ Key s2 = e.2 ∧ e.2 ∈ DependsOn s1 ∧ e.1 ≠ e.2.
Proof.
  destruct e as [k d]. rewrite elem_of_orderedEdges. pose proof (norm_dag _ _ _ _ _ _ _ Hn) as [Hkn _ Hac].
  pose proof (norm_keys _ _ _ _ _ _ _ Hn) as Hkeys. cbn. split.
  - intros (s1 & Hs1 & <- & Hd). rewrite sort_by_elem in Hs1.
    assert (edge (graph_of steps) (Key s1) d) as He by (apply step_map_edge; [done|]; by exists s1).
    assert (known (graph_of steps) d) as Hd'.
    { eapply Hkn; [|exact He]. apply step_map_known; [done|]. by apply list_elem_of_fmap_2. }
    apply step_map_known in Hd' as (s2 & -> & Hs2)%list_elem_of_fmap; [|done]. exists s1, s2. repeat (split; [done|]).
    intros Heq. apply (Hac (Key s1)). rewrite Heq at 2. by apply tc_once.
  - intros (s1 & s2 & Hs1 & _ & <- & _ & Hd & _). exists s1. by rewrite sort_by_elem.
Qed.

Lemma edges_valid plan' : Plan_ID plan' = Plan_ID plan →
  Forall2 (edge_keys plan' (hash_keyByID (foldl extend hash_start canonical_steps))) (Dependencies np)
    (orderedEdges (sort_by order_less steps)).
Proof.
  intros Hid. pose proof (norm_edges _ _ _ _ _ _ _ Hn) as Hall.
  assert (∀ e, e ∈ orderedEdges (sort_by order_less steps) → ∃ s1 s2, s1 ∈ steps ∧ s2 ∈ steps ∧ Key s1 = e.1 ∧ Key s2 = e.2 ∧
    e.2 ∈ DependsOn s1 ∧ e.1 ≠ e.2) as He by (intros e; apply edge_steps).
  induction Hall as [|dep e deps es (H1 & H2 & H3) _ IH]; [constructor|]. constructor; [|apply IH; intros; apply He; by right].
  destruct (He e) as (s1 & s2 & Hs1 & Hs2 & Hk1 & Hk2 & _ & Hne); [by left|]. unfold edge_keys.
  rewrite H1, H2, H3, <-Hk1, <-Hk2, !keyByID_row by done. split; [done|].
  split; [by apply idOf_not_nil|]. split; [by apply idOf_not_nil|].
  split. { intros Heq%idOf_inj; [|done..]. apply Hne. congruence. }
  split; [done|]. split; [done|].
  assert (∀ s, s ∈ steps → Key s ≠ "") as Hek; [|split; by apply Hek].
  intros s [i Hi]%list_elem_of_lookup. destruct (Forall2_lookup_r _ _ _ _ _ (norm_inputs _ _ _ _ _ _ _ Hn) Hi) as (input & _ & Hst).
  destruct (step_key _ _ Hst) as [_ Hp]. intros Hk. by rewrite Hk in Hp.
Qed.

Lemma ends_NoDup : NoDup (ends_of <$> Dependencies np).
Proof.
  assert (ends_of <$> Dependencies np = (λ e, (idOf ids e.1, idOf ids e.2)) <$> orderedEdges (sort_by order_less steps)) as ->.
  { pose proof (norm_edges _ _ _ _ _ _ _ Hn) as Hall. induction Hall as [|dep e deps es (_ & H2 & H3) _ IH]; [done|].
    rewrite !fmap_cons, IH. unfold ends_of at 1. by rewrite H2, H3. }
  apply NoDup_fmap_2_strong.
  - intros e1 e2 (a1 & b1 & A1 & B1 & Ha1 & Hb1 & _)%edge_steps (a2 & b2 & A2 & B2 & Ha2 & Hb2 & _)%edge_steps.
    rewrite <-Ha1, <-Hb1, <-Ha2, <-Hb2. intros [= E1%idOf_inj E2%idOf_inj]; [|done..].
    destruct e1, e2. cbn in *. congruence.
  - pose proof (ordered_keys Hn) as Hkeys.
    assert (∀ step, step ∈ sort_by order_less steps → NoDup (DependsOn step)) as Hdep.
    { intros step. rewrite sort_by_elem. intros [i Hi]%list_elem_of_lookup.
      destruct (Forall2_lookup_r _ _ _ _ _ (norm_inputs _ _ _ _ _ _ _ Hn) Hi) as (input & _ & Hst). apply (step_depends _ _ Hst). }
    unfold orderedEdges. induction (sort_by order_less steps) as [|step l IH]; [constructor|].
    cbn. apply NoDup_cons in Hkeys as [Hk Hkeys]. apply NoDup_app. split; [|split].
    + apply NoDup_fmap_2; [by intros ? ? [= ->]|]. unfold sort_strings. rewrite sort_key_perm. apply Hdep. by left.
    + intros e (d & -> & _)%list_elem_of_fmap Hin. apply Hk. fold (orderedEdges l) in Hin.
      apply elem_of_orderedEdges in Hin as (s & Hs & <- & _). by apply list_elem_of_fmap_2.
    + apply IH; [done|]. intros s Hs. apply Hdep. by right.
Qed.

Lemma inputs_step step : step ∈ steps → stepAt (hash_inputByKey (foldl extend hash_start canonical_steps)) (Key step) =
  rebuilt (canonical_step (idOf ids (Key step)) step).
Proof.
  intros Hin. unfold stepAt. erewrite (proj2 (inputs_lookup canonical_steps (Key step) _ _)); [done|].
  eexists. split; [apply canonical_elem; by exists step|done].
  Unshelve. rewrite canonical_keys. apply (ordered_keys Hn).
Qed.
Lemma inputs_known k : known (hash_inputByKey (foldl extend hash_start canonical_steps)) k ↔ known (graph_of steps) k.
Proof.
  rewrite step_map_known by (by eapply norm_keys). unfold known.
  assert (NoDup (canonical_StepKey <$> canonical_steps)) as Hnd by (rewrite canonical_keys; apply (ordered_keys Hn)).
  split.
  - intros [x Hx]. apply (inputs_lookup _ _ _ Hnd) in Hx as (c & Hc & <- & _).
    apply canonical_elem in Hc as (step & Hs & ->). by apply (list_elem_of_fmap_2 Key).
  - intros (step & -> & Hs)%list_elem_of_fmap. eexists. apply (inputs_lookup _ _ _ Hnd).
    eexists. split; [apply canonical_elem; by exists step|done].
Qed.

Lemma rebuilt_graph : integration_ok (foldl add_edge (hash_inputByKey (foldl extend hash_start canonical_steps))
  (orderedEdges (sort_by order_less steps))).
Proof.
  pose proof (norm_integration _ _ _ _ _ _ _ Hn) as Hok. revert Hok. apply integration_alike.
  set (m := hash_inputByKey _). pose proof (norm_keys _ _ _ _ _ _ _ Hn) as Hkeys.
  assert (∀ p, p ∈ orderedEdges (sort_by order_less steps) → known m p.1) as Hkn.
  { intros p (s1 & _ & Hs1 & _ & <- & _)%edge_steps. apply inputs_known, step_map_known; [done|]. by apply list_elem_of_fmap_2. }
  pose proof (add_edges _ m Hkn) as A. cbn zeta in A.
  assert (∀ k, ¬ known (graph_of steps) k → stepAt (graph_of steps) k = zeroStep ∧ stepAt m k = zeroStep) as Hz.
  { intros k Hk. pose proof Hk as Hk'. rewrite <-inputs_known in Hk'. fold m in Hk'. unfold stepAt, known in *.
    apply eq_None_not_Some in Hk, Hk'. by rewrite Hk, Hk'. }
  split.
  - intros k. destruct (A k) as (-> & _). symmetry. apply inputs_known.
  - intros k. destruct (A k) as (_ & -> & -> & -> & _). destruct (decide (known (graph_of steps) k)) as [Hk|Hk].
    + apply step_map_known in Hk as (step & -> & Hs)%list_elem_of_fmap; [|done]. rewrite step_map_at by done. unfold m. by rewrite inputs_step.
    + destruct (Hz k Hk) as [-> ->]. done.
  - intros k d. unfold edge at 2. destruct (A k) as (_ & _ & _ & _ & ->).
    assert (DependsOn (stepAt m k) = []) as ->.
    { destruct (decide (known (graph_of steps) k)) as [Hk|Hk]; [|by destruct (Hz k Hk) as [_ ->]].
      apply step_map_known in Hk as (step & -> & Hs)%list_elem_of_fmap; [|done]. unfold m. by rewrite inputs_step. }
    cbn [app]. rewrite step_map_edge, list_elem_of_fmap by done. setoid_rewrite list_elem_of_filter. split.
    + intros (step & Hs & <- & Hd). exists (Key step, d). split; [done|]. split; [done|].
      apply elem_of_orderedEdges. exists step. by rewrite sort_by_elem.
    + intros ([k' d'] & -> & Hk & (step & Hs & Hks & Hd)%elem_of_orderedEdges). cbn in *. subst. exists step.
      by rewrite sort_by_elem in Hs.
Qed.

Lemma normalized_hashable plan' gate : Plan_ID plan' = Plan_ID plan → Plan_ID plan ≠ Nil →
  ApprovedGateID plan' = Some gate → gate ≠ Nil → (1 ≤ Version plan')%Z → Plan_Status plan' = "approved" → inputs ≠ [] →
  hashable plan' gate (Steps np) (Dependencies np) canonical_steps (orderedEdges (sort_by order_less steps)).
Proof.
  intros Hid Hne Hg Hgn Hv Hst Hin. split.
  - by rewrite Hid.
  - pose proof (sound_size _ _ _ (normalized_sound Hn Hdist)) as (H1 & H2 & H3). rewrite H1. destruct inputs; [done|]. cbn in *. lia.
  - split; [by apply rows_canonical|]. rewrite canonical_ids, canonical_keys. split; [|apply (ordered_keys Hn)].
    apply (rows_distinct _ _ _ _ _ _ _ _ (norm_rows _ _ _ _ _ _ _ Hn) Hdist).
  - split; [by apply edges_valid|apply ends_NoDup].
  - apply rebuilt_graph.
Qed.
End Normalized.

Lemma hex_length s : String.length (hexSum256 s) = 64%nat.
Proof. apply hexSum256_length. Qed.

(** every plan [Normalize] accepts can be executed once approved: its stored steps and
    dependencies, in whatever order they are read and whatever their lifecycle has become,
    have one and the same hash of 64 digits. *)
Theorem normalized_plan_has_hash {unicode : GoUnicode} {text : UuidText} {runtime : GoRuntime} {map_range : GoMapRange}
    plan createdBy inputs now np approved gate :
  distinct_ids → (∀ i id, NewV4 i = Some id → id ≠ Nil) → Forall readable_input inputs → inputs ≠ [] →
  Normalize plan createdBy inputs now = Ok np →
  Plan_ID approved = Plan_ID plan → ApprovedGateID approved = Some gate → gate ≠ Nil → (1 ≤ Version approved)%Z →
  Plan_Status approved = "approved" →
  ∃ h, String.length h = 64%nat ∧ ∀ rows es, same_steps (Steps np) rows → Dependencies np ≡ₚ es →
    ApprovedPlanContentHash approved rows es = Ok h.
Proof.
  intros Hdist Hnil Hread Hin Hnorm Hid Hg Hgn Hv Hst. pose proof Hnorm as (steps & ids & Hn)%Normalize_run.
  assert (Plan_ID plan ≠ Nil) as Hpid.
  { unfold Normalize in Hnorm. apply bind_ok in Hnorm as ([] & Hc%fail_if_ok & _).
    rewrite !orb_false_iff, N.eqb_neq in Hc. tauto. }
  pose proof (normalized_hashable Hn Hdist Hnil Hread approved gate Hid Hpid Hg Hgn Hv Hst Hin) as Hh.
  eexists. split; [|intros rows es Hrows Hes; eapply hash_same_steps; [exact Hrows|exact Hes|]].
  2:{ apply ApprovedPlanContentHash_iff. eexists gate, _, _. split; [exact Hh|reflexivity]. }
  apply hex_length.
Qed.

(** ** Executing a plan keeps its hash *)

Lemma same_steps_intro rows1 l1 l2 rows2 : rows1 ≡ₚ l1 → Forall2 same_content l1 l2 → l2 ≡ₚ rows2 → same_steps rows1 rows2.
Proof.
  intros H1 Hall H2. apply Forall2_flip in Hall. destruct (Permutation_Forall2 H2 Hall) as (l & Hl & Hall2).
  exists l. split; [by rewrite H1|]. by apply Forall2_flip.
Qed.
Lemma same_steps_refl rows : same_steps rows rows.
Proof. exists rows. split; [done|]. apply Forall_Forall2_diag, Forall_forall. intros r _. apply same_content_refl. Qed.
Lemma same_steps_trans l1 l2 l3 : same_steps l1 l2 → same_steps l2 l3 → same_steps l1 l3.
Proof.
  intros (k1 & P1 & F1) (k2 & P2 & F2). apply Forall2_flip in F1. destruct (Permutation_Forall2 P2 F1) as (k3 & P3 & F3).
  exists k3. split; [by rewrite P1|]. apply Forall2_flip in F3. eapply Forall2_trans; [|exact F3|exact F2].
  intros r1 r2 r3. apply same_content_trans.
Qed.

Section Rows.
Context {jsonb : Jsonb}.

Lemma stored_same r1 r2 : same_content r1 r2 → same_content (stored_row r1) (stored_row r2).
Proof. intros [? ? [H1 H2] ?]. split; cbn; [done..| |done]. by rewrite H1, H2. Qed.
Lemma stored_same_steps l1 l2 : same_steps l1 l2 → same_steps (stored_row <$> l1) (stored_row <$> l2).
Proof.
  intros (l & Hp & Hall). exists (stored_row <$> l). split; [by rewrite Hp|].
  apply Forall2_fmap_2. eapply Forall2_impl; [exact Hall|]. apply stored_same.
Qed.

(** Replacing one row by a row of the same content. *)
Lemma plan_steps_insert planID db db' s row :
  steps db !! Step_ID s = Some s → steps db' = <[Step_ID s := row]> (steps db) → same_content s row →
  same_steps (plan_steps planID db) (plan_steps planID db').
Proof.
  intros Hs Hst Hc. set (rest := filter (λ s, Step_PlanID s = planID) (map_to_list (delete (Step_ID s) (steps db))).*2).
  set (own := λ r : DeliveryPlanStep, if decide (Step_PlanID r = planID) then [r] else []).
  assert (∀ r, filter (λ s, Step_PlanID s = planID) (map_to_list (<[Step_ID s := r]> (steps db))).*2 ≡ₚ own r ++ rest) as Hp.
  { intros r. rewrite <-insert_delete_eq, map_to_list_insert by (by rewrite lookup_delete_eq). rewrite fmap_cons. cbn [snd].
    unfold own. destruct (decide _); [by rewrite filter_cons_True|by rewrite filter_cons_False]. }
  apply (same_steps_intro _ (own s ++ rest) (own row ++ rest)).
  - unfold plan_steps. rewrite sort_by_perm, <-Hp. by rewrite insert_id.
  - apply Forall2_app; [|apply Forall_Forall2_diag, Forall_forall; intros r _; apply same_content_refl].
    unfold own. rewrite (proj1 (proj2 (same_identity _ _ Hc))). destruct (decide _); [constructor; [exact Hc|constructor]|constructor].
  - unfold plan_steps. by rewrite sort_by_perm, Hst, Hp.
Qed.
End Rows.

Lemma executes_content {unicode : GoUnicode} {text : UuidText} planID db t db' : well_keyed db → executes db t db' →
  same_steps (plan_steps planID db) (plan_steps planID db') ∧ edges db' = edges db.
Proof.
  intros Hk [tx input target r db1 H|tx input u db1 H|tx input u db1 H|t' db1 Hst He _ _].
  - apply claim_run in H as (identity & ttl & plan & task & now & _ & Ho); [|done].
    destruct Ho as [held -> _ _ _ _ _| -> _ _|step Hrow _ _ _ _ [_ Hst (_ & _ & He) _] _]; [by split; [apply same_steps_refl|]..|].
    split; [by eapply plan_steps_insert|done].
  - apply renew_run in H as (identity & ttl & task & step & now & old & e & _ & Hfen & _ & _ & _ & (Hst & _ & _ & He & _) & _); [|done].
    pose proof (fenced_step _ _ _ _ _ _ _ _ _ Hfen) as Hrow. rewrite <-(keyed_steps _ Hk _ _ Hrow) in Hrow.
    split; [by eapply plan_steps_insert|done].
  - apply transition_run in H as (identity & next & task & step & now & _ & Hfen & [[_ ->]|(_ & _ & _ & e & (Hst & _ & _ & He & _) & _)]);
      [by split; [apply same_steps_refl|]| |done].
    pose proof (fenced_step _ _ _ _ _ _ _ _ _ Hfen) as Hrow. rewrite <-(keyed_steps _ Hk _ _ Hrow) in Hrow.
    split; [by eapply plan_steps_insert|done].
  - split; [|done]. unfold plan_steps. rewrite Hst. apply same_steps_refl.
Qed.

(** claims, renewals and reports of any workers, whatever other services do to plans and
    tasks in between, leave the hash of every approved plan as it was: the content frozen when
    an execution was created is still the content being executed. *)
Theorem execution_keeps_plan_hash {unicode : GoUnicode} {text : UuidText} {jsonb : Jsonb} {map_range : GoMapRange}
    db ts db' planID approved h :
  well_keyed db → execution db ts db' →
  ApprovedPlanContentHash approved (stored_row <$> plan_steps planID db) (plan_edges planID db) = Ok h →
  ApprovedPlanContentHash approved (stored_row <$> plan_steps planID db') (plan_edges planID db') = Ok h.
Proof.
  intros Hk Hx. revert h. induction Hx as [|ts db1 t db2 Hx IH Hstep]; intros h Hh; [done|].
  destruct (executes_content planID db1 t db2) as [Hs He]; [by eapply execution_keyed|done|].
  eapply hash_same_steps; [by apply stored_same_steps| |by apply IH]. unfold plan_edges. by rewrite He.
Qed.

(** ** Witnesses *)

Abbreviation demo_hash rows es :=
  (ApprovedPlanContentHash (unicode := ascii_only) (text := unary) (map_range := tree_order) demo_approved rows es).
Lemma demo_distinct : distinct_ids (H := demo_runtime).
Proof. intros i j id [= <-] [= Heq]. lia. Qed.
Lemma demo_ids_not_nil i id : NewV4 (GoRuntime := demo_runtime) i = Some id → id ≠ Nil.
Proof. intros [= <-]. unfold Nil. lia. Qed.
Lemma demo_readable : Forall (readable_input (unicode := ascii_only)) demo_inputs.
Proof.
  repeat constructor; intros rs H; vm_compute in H; injection H as <-; reflexivity.
Qed.
Lemma demo_hashed : ∃ h, demo_hash (Steps demo_rows) (Dependencies demo_rows) = Ok h.
Proof.
  destruct (Normalize_run _ _ _ _ _ demo_normalizes) as (steps & ids & Hn). eexists. apply ApprovedPlanContentHash_iff.
  eexists 5%N, _, _. split; [|reflexivity].
  apply (normalized_hashable Hn demo_distinct demo_ids_not_nil demo_readable); done.
Qed.
Example hash_binds_plan_witness : ∃ cs1 cs2,
  Forall2 (canonical_of (unicode := ascii_only) demo_approved) (Steps demo_rows) cs1 ∧
  Forall2 (canonical_of (unicode := ascii_only) demo_approved) (reverse (Steps demo_rows)) cs2.
Proof.
  destruct demo_hashed as [h Hh].
  assert (∀ rows, rows ≡ₚ Steps demo_rows → readable_rows (unicode := ascii_only) (text := unary) demo_approved rows) as Hread.
  { intros rows Hp row c Hin [_ _ _ _ [Hc _] He Hf]. rewrite Hp in Hin. clear Hh.
    destruct c as [ci ck cr co ct cb cc ce]. cbn in Hf, Hc, He. injection Hf as -> -> -> -> -> ->.
    apply list_elem_of_In in Hin. vm_compute in Hin.
    destruct Hin as [<-|[<-|[<-|[]]]]; vm_compute in Hc, He; injection Hc as <-; injection He as <-; vm_compute; reflexivity. }
  destruct (hash_binds_plan (unicode := ascii_only) (text := unary) (map_range := tree_order) demo_approved demo_approved
    (Steps demo_rows) (reverse (Steps demo_rows)) (Dependencies demo_rows) (Dependencies demo_rows) h)
    as (_ & _ & cs1 & cs2 & _ & _ & H1 & H2 & _).
  - by apply Hread.
  - apply Hread. apply reverse_Permutation.
  - exact Hh.
  - eapply hash_same_steps; [|reflexivity|exact Hh]. exists (reverse (Steps demo_rows)). split; [by rewrite reverse_Permutation|].
    apply Forall_Forall2_diag, Forall_forall. intros r _. apply same_content_refl.
  - exists cs1, cs2. split; [exact H1|exact H2].
Defined.
Example normalized_plan_has_hash_witness : ∃ h, String.length h = 64%nat ∧
  demo_hash (reverse (Steps demo_rows)) (Dependencies demo_rows) = Ok h.
Proof.
  destruct (normalized_plan_has_hash (unicode := ascii_only) (text := unary) (runtime := demo_runtime) (map_range := tree_order)
    demo_plan " ana " demo_inputs 0 demo_rows demo_approved 5%N) as (h & Hl & Hh);
    [exact demo_distinct|exact demo_ids_not_nil|exact demo_readable|discriminate|exact demo_normalizes|reflexivity|reflexivity|
     discriminate|discriminate|reflexivity|].
  exists h. split; [exact Hl|]. apply Hh; [|reflexivity]. exists (reverse (Steps demo_rows)).
  split; [by rewrite reverse_Permutation|]. apply Forall_Forall2_diag, Forall_forall. intros r _. apply same_content_refl.
Defined.
(** The database of the example returns the texts it was given. *)
Definition same_jsonb : Jsonb := {| jsonb_text s := s |}.
Example execution_keeps_plan_hash_witness : ∃ h,
  demo_hash (stored_row (jsonb := same_jsonb) <$> plan_steps 7%N demo_reported) (plan_edges 7%N demo_reported) = Ok h.
Proof.
  destruct demo_hashed as [h Hh]. exists h.
  apply (execution_keeps_plan_hash (jsonb := same_jsonb) demo_db _ demo_reported 7%N demo_approved h demo_keyed demo_lease_run).
  replace (stored_row (jsonb := same_jsonb) <$> plan_steps 7%N demo_db) with (Steps demo_rows) by (vm_compute; reflexivity).
  exact Hh.
Defined.
