(* ===== verification/PlanEnsureTheorems.v ===== *)
(** * Theorems on [EnsureInTransaction] and [DTOs] *)
From stdpp Require Import base tactics list strings gmap sorting.
From Stdlib Require Import Ascii.
From S2P Require Import Prelude GoStrings GoSort Json PlanGraph PlanGraphFacts PlanNormalizeFacts PlanGraphTheorems PlanStore PlanStored PlanEnsure PlanHashFacts PlanLease PlanLeaseFacts PlanLeaseTheorems PlanHashTheorems.
Open Scope string_scope.

Lemma map_of_lookup `{Countable K} {A B} (key : A → K) (value : A → B) l k v : NoDup (key <$> l) →
  map_of key value l !! k = Some v ↔ ∃ x, x ∈ l ∧ key x = k ∧ value x = v.
Proof.
  intros Hnd. unfold map_of. rewrite foldl_insert_Some by done. rewrite lookup_empty. split; [intros [?|[? _]]; [done..]|by left].
Qed.

(** ** Creating rows *)

Lemma create_steps_ok rows : ∀ db, NoDup (Step_ID <$> rows) → (∀ row, row ∈ rows → steps db !! Step_ID row = None) →
  create_steps rows db = Ok (tt, set_steps (foldl (λ m row, <[Step_ID row := row]> m) (steps db) rows) db).
Proof.
  induction rows as [|row rows IH]; intros db Hnd Hnew; cbn [create_steps foldl]; [by destruct db|].
  apply NoDup_cons in Hnd as [Hx Hnd]. tx_next; [reflexivity|]. cbv beta.
  tx_next; [apply check_pass, bool_decide_eq_true, Hnew; by left|]. tx_next; [reflexivity|]. cbv beta.
  rewrite IH; [by destruct db|done|]. intros r Hr. cbn. rewrite lookup_insert_ne; [apply Hnew; by right|].
  intros Heq. apply Hx. rewrite Heq. by apply list_elem_of_fmap_2.
Qed.
Lemma create_edges_ok rows : ∀ db, NoDup (Dependency_ID <$> rows) →
  (∀ row, row ∈ rows → Dependency_ID row ∉ Dependency_ID <$> edges db) →
  create_edges rows db = Ok (tt, set_edges (edges db ++ rows) db).
Proof.
  induction rows as [|row rows IH]; intros db Hnd Hnew; cbn [create_edges].
  { rewrite app_nil_r. by destruct db. }
  apply NoDup_cons in Hnd as [Hx Hnd]. tx_next; [reflexivity|]. cbv beta.
  tx_next; [apply check_pass, bool_decide_eq_true, Hnew; by left|]. tx_next; [reflexivity|]. cbv beta.
  rewrite IH; [cbn; by rewrite <-app_assoc|done|]. intros r Hr. cbn. rewrite fmap_app, elem_of_app. intros [H|H%list_elem_of_singleton].
  - by apply (Hnew r); [right|].
  - apply Hx. rewrite <-H. by apply list_elem_of_fmap_2.
Qed.
Lemma create_steps_run rows : ∀ db u db', create_steps rows db = Ok (u, db') →
  NoDup (Step_ID <$> rows) ∧ (∀ row, row ∈ rows → steps db !! Step_ID row = None) ∧
  db' = set_steps (foldl (λ m row, <[Step_ID row := row]> m) (steps db) rows) db.
Proof.
  induction rows as [|row rows IH]; intros db u db' H; cbn [create_steps foldl] in *.
  { injection H as _ <-. split; [constructor|]. split; [by intros ? ?%not_elem_of_nil|by destruct db]. }
  apply T_bind_ok in H as (d1 & db1 & [= <- <-] & H). apply T_bind_ok in H as (? & db2 & [Hc%bool_decide_eq_true ->]%check_ok & H).
  apply T_bind_ok in H as (? & db3 & [= _ <-] & H). apply IH in H as (Hnd & Hnew & ->). cbn in Hnew.
  split; [|split; [|by destruct db]].
  - constructor; [|done]. intros (r & Heq & Hr)%list_elem_of_fmap. specialize (Hnew r Hr). by rewrite <-Heq, lookup_insert_eq in Hnew.
  - intros r [->|Hr]%elem_of_cons; [done|]. specialize (Hnew r Hr). destruct (decide (Step_ID row = Step_ID r)) as [Heq|Hne].
    + by rewrite Heq, lookup_insert_eq in Hnew.
    + by rewrite lookup_insert_ne in Hnew.
Qed.
Lemma create_edges_run rows : ∀ db u db', create_edges rows db = Ok (u, db') → db' = set_edges (edges db ++ rows) db.
Proof.
  induction rows as [|row rows IH]; intros db u db' H; cbn [create_edges] in *.
  { injection H as _ <-. rewrite app_nil_r. by destruct db. }
  apply T_bind_ok in H as (d1 & db1 & [= <- <-] & H). apply T_bind_ok in H as (? & db2 & [_ ->]%check_ok & H).
  apply T_bind_ok in H as (? & db3 & [= _ <-] & H). apply IH in H as ->. cbn. by rewrite <-app_assoc.
Qed.

Lemma same_steps_map {A} (f : DeliveryPlanStep → A) l1 l2 : same_steps l1 l2 →
  (∀ r1 r2, same_content r1 r2 → f r1 = f r2) → f <$> l1 ≡ₚ f <$> l2.
Proof.
  intros (l & -> & Hall) Hf. apply Permutation_refl', list_eq_Forall2, Forall2_fmap_2. eapply Forall2_impl; [exact Hall|exact Hf].
Qed.
Lemma same_steps_elem l1 l2 r1 : same_steps l1 l2 → r1 ∈ l1 → ∃ r2, r2 ∈ l2 ∧ same_content r1 r2.
Proof.
  intros (l & -> & Hall) [i Hi]%list_elem_of_lookup. destruct (Forall2_lookup_l _ _ _ _ _ Hall Hi) as (r2 & H2 & Hc).
  exists r2. split; [by apply list_elem_of_lookup_2 in H2|done].
Qed.

Section Edges.
Context {unicode : GoUnicode} {jsonb : Jsonb} {runtime : GoRuntime} {map_range : GoMapRange}.
Context {plan actor inputs now steps ids np} (Hn : normalized plan actor inputs now steps ids np) (Hdist : distinct_ids).

Definition edge_texts : list string := (λ e, edge_text e.1 e.2) <$> orderedEdges (sort_by order_less steps).

Lemma key_of_id (rows : list DeliveryPlanStep) step : same_steps (Steps np) rows → step ∈ steps →
  map_of Step_ID StepKey rows !! idOf ids (Key step) = Some (Key step).
Proof.
  intros Hsame Hs. destruct (step_row Hn step Hs) as (r1 & Hr1 & Heq).
  destruct (same_steps_elem _ _ _ Hsame Hr1) as (row & Hrow & Hc). apply map_of_lookup.
  - rewrite <-(same_steps_map Step_ID _ _ Hsame) by (intros ? ? [(? & _) _ _ _]; done).
    by apply (rows_distinct _ _ _ _ _ _ _ _ (norm_rows _ _ _ _ _ _ _ Hn)).
  - exists row. destruct Hc as [(Hi & _ & Hk & _) _ _ _]. split; [done|]. rewrite <-Hi, <-Hk.
    replace (Key step) with (StepKey r1) by (by rewrite Heq). split; [|done]. by rewrite (row_id Hn).
Qed.
Lemma edge_text_requested : requested_edges np = edge_texts.
Proof.
  unfold requested_edges, edge_texts. pose proof (norm_edges _ _ _ _ _ _ _ Hn) as Hall.
  assert (∀ e, e ∈ orderedEdges (sort_by order_less steps) → ∃ s1 s2, s1 ∈ steps ∧ s2 ∈ steps ∧ Key s1 = e.1 ∧ Key s2 = e.2) as He.
  { intros e (s1 & s2 & ? & ? & ? & ? & _)%(edge_steps Hn). by exists s1, s2. }
  induction Hall as [|dep e deps es (_ & H2 & H3) _ IH]; [done|]. cbn zeta in *. rewrite !fmap_cons, IH by (intros; apply He; by right).
  destruct (He e) as (s1 & s2 & Hs1 & Hs2 & Hk1 & Hk2); [by left|].
  rewrite H2, H3, <-Hk1, <-Hk2. by rewrite !(key_of_id (Steps np)) by (done || apply same_steps_refl).
Qed.
Lemma edge_text_existing rows es : same_steps (Steps np) rows → Dependencies np ≡ₚ es →
  ∃ l, existing_edges (Plan_ID plan) rows es = Some l ∧ edge_texts ≡ₚ l.
Proof.
  intros Hsame Hes. pose proof (norm_edges _ _ _ _ _ _ _ Hn) as Hall.
  set (f := λ edge : DeliveryPlanStepDependency,
    key ← map_of Step_ID StepKey rows !! StepID edge; dependency ← map_of Step_ID StepKey rows !! DependsOnStepID edge;
    if N.eqb (Dependency_PlanID edge) (Plan_ID plan) then Some (edge_text key dependency) else None).
  assert (Forall2 (λ d t, f d = Some t) (Dependencies np) edge_texts) as Hf.
  { unfold edge_texts. apply Forall2_fmap_r.
    assert (∀ e, e ∈ orderedEdges (sort_by order_less steps) → ∃ s1 s2, s1 ∈ steps ∧ s2 ∈ steps ∧ Key s1 = e.1 ∧ Key s2 = e.2) as He.
    { intros e (s1 & s2 & ? & ? & ? & ? & _)%(edge_steps Hn). by exists s1, s2. }
    clear Hes. induction Hall as [|dep e deps l (H1 & H2 & H3) _ IH]; [constructor|]. constructor; [|apply IH; intros; apply He; by right].
    destruct (He e) as (s1 & s2 & Hs1 & Hs2 & Hk1 & Hk2); [by left|].
    unfold f. cbn [compose]. rewrite H2, H3, <-Hk1, <-Hk2, !key_of_id by done. cbn. by rewrite H1, N.eqb_refl. }
  destruct (Permutation_Forall2 Hes Hf) as (l & Hl & Hf'). exists l. split; [|done]. by apply mapM_Some.
Qed.
End Edges.

(** ** [samePlanContent] on two normalizations of one graph *)

Section Same.
Context {unicode : GoUnicode} {jsonb : Jsonb}.

(** The database keeps the text of a row's criteria. *)
Definition criteria_kept (row : DeliveryPlanStep) : bool :=
  String.eqb (AcceptanceCriteriaJSON row) (jsonb_text (AcceptanceCriteriaJSON row)).
(** The database keeps the value of a row's requirements. *)
Definition evidence_kept (row : DeliveryPlanStep) : Prop :=
  canonicalStoredEvidenceRequirements (jsonb_text (EvidenceRequirementsJSON row)) =
  canonicalStoredEvidenceRequirements (EvidenceRequirementsJSON row).

Lemma rows_by_key (requested existing : list DeliveryPlanStep) :
  NoDup (StepKey <$> requested) → NoDup (StepKey <$> existing) →
  forallb (λ '(key, step), match map_of StepKey (λ s, s) existing !! key with Some found => same_step step found | None => false end)
    (map_to_list (map_of StepKey (λ s, s) requested)) = true ↔
  ∀ r, r ∈ requested → ∃ r', r' ∈ existing ∧ StepKey r' = StepKey r ∧ same_step r r' = true.
Proof.
  intros Hr He. rewrite forallb_forall. split.
  - intros Hall r Hin. specialize (Hall (StepKey r, r)). cbv beta iota in Hall.
    destruct (map_of StepKey _ existing !! StepKey r) as [r'|] eqn:Hl.
    + apply (map_of_lookup _ _ _ _ _ He) in Hl as (x & Hx & Hk & ->). exists r'. split; [done|]. split; [done|].
      apply Hall, list_elem_of_In, elem_of_map_to_list. apply map_of_lookup; [done|]. by exists r.
    + assert (false = true); [|done]. apply Hall, list_elem_of_In, elem_of_map_to_list. apply map_of_lookup; [done|]. by exists r.
  - intros Hall [key r] Hin%list_elem_of_In%elem_of_map_to_list.
    apply (map_of_lookup _ _ _ _ _ Hr) in Hin as (x & Hx & <- & ->). destruct (Hall r Hx) as (r' & Hr' & Hk & Hs).
    assert (map_of StepKey (λ s, s) existing !! StepKey r = Some r') as ->; [|done]. apply map_of_lookup; [done|]. by exists r'.
Qed.

Context {run1 run2 : GoRuntime} {range1 range2 : GoMapRange}.
Context {plan actor1 actor2 inputs now1 now2 steps ids1 ids2 np1 np2}
  (Hn1 : normalized (runtime := run1) plan actor1 inputs now1 steps ids1 np1)
  (Hn2 : normalized (runtime := run2) plan actor2 inputs now2 steps ids2 np2)
  (Hd1 : distinct_ids (H := run1)) (Hd2 : distinct_ids (H := run2)) (Hread : Forall readable_input inputs).

Lemma normal_evidence step : step ∈ steps →
  canonicalStoredEvidenceRequirements (Marshal (requirements_json (EvidenceRequirements step))) =
  Marshal (requirements_json (EvidenceRequirements step)).
Proof.
  intros [i Hi]%list_elem_of_lookup. destruct (Forall2_lookup_r _ _ _ _ _ (norm_inputs _ _ _ _ _ _ _ Hn1) Hi) as (input & Hin & Hst).
  apply (Forall_lookup_1 _ _ _ _ Hread) in Hin as [_ Hru]. pose proof (step_requirements _ _ Hst) as Hreq.
  unfold canonicalStoredEvidenceRequirements. by rewrite (parse_stored _ _ Hreq (Hru _ Hreq)).
Qed.

Lemma same_step_kept r1 r2 step row : step ∈ steps →
  r1 = stepRow plan (TrimSpace actor1) (if Z.eqb now1 0 then Now (GoRuntime := run1) else now1) (Step_ID r1) step →
  r2 = stepRow plan (TrimSpace actor2) (if Z.eqb now2 0 then Now (GoRuntime := run2) else now2) (Step_ID r2) step →
  same_content r1 row → evidence_kept r1 → same_step r2 (stored_row row) = criteria_kept r1.
Proof.
  intros Hs H1 H2 [(_ & _ & Hk & Hr) (Ho & Ht & Hb) (Hc & He) Hi] Hev. unfold evidence_kept in Hev. unfold same_step, criteria_kept.
  cbn [stored_row Step_IdempotencyKey Step_Role DisplayOrder Step_Title Step_Objective AcceptanceCriteriaJSON EvidenceRequirementsJSON].
  rewrite <-Hi, <-Hr, <-Ho, <-Ht, <-Hb, <-Hc, <-He, Hev, H2. clear Hev Hi Hr Ho Ht Hb Hc He Hk. rewrite H1.
  cbn [stepRow Step_IdempotencyKey Step_Role DisplayOrder Step_Title Step_Objective AcceptanceCriteriaJSON EvidenceRequirementsJSON].
  change (JArray (EvidenceRequirement_json <$> EvidenceRequirements step)) with (requirements_json (EvidenceRequirements step)).
  rewrite normal_evidence by done. by rewrite !String.eqb_refl, Z.eqb_refl, andb_true_r.
Qed.

Lemma normalized_length : length (Steps np1) = length (Steps np2) ∧ length (Dependencies np1) = length (Dependencies np2).
Proof.
  rewrite (Forall2_length _ _ _ (norm_edges _ _ _ _ _ _ _ Hn1)), (Forall2_length _ _ _ (norm_edges _ _ _ _ _ _ _ Hn2)).
  by rewrite (Forall2_length _ _ _ (rows_steps _ _ _ _ _ _ _ _ (norm_rows _ _ _ _ _ _ _ Hn1))),
    (Forall2_length _ _ _ (rows_steps _ _ _ _ _ _ _ _ (norm_rows _ _ _ _ _ _ _ Hn2))).
Qed.
Lemma normalized_keys : NoDup (StepKey <$> Steps np1) ∧ NoDup (StepKey <$> Steps np2).
Proof. rewrite (rows_field Hn1 StepKey Key), (rows_field Hn2 StepKey Key) by done. split; apply (ordered_keys Hn1). Qed.

(** Requested rows agree with the stored ones of the same keys. *)
Lemma same_rows rows : same_steps (Steps np1) rows → Forall evidence_kept (Steps np1) →
  forallb (λ '(key, step), match map_of StepKey (λ s, s) (stored_row <$> rows) !! key with
                           | Some found => same_step step found | None => false end)
    (map_to_list (map_of StepKey (λ s, s) (Steps np2))) = forallb criteria_kept (Steps np1).
Proof.
  intros Hsame Hev. assert (StepKey <$> (stored_row <$> rows) ≡ₚ StepKey <$> Steps np1) as Hkeys.
  { rewrite <-list_fmap_compose. symmetry. by apply (same_steps_map (λ r, StepKey r)); [|intros ? ? [(_ & _ & ? & _) _ _ _]]. }
  assert (NoDup (StepKey <$> (stored_row <$> rows))) as Hnd by (rewrite Hkeys; apply normalized_keys).
  apply eq_true_iff_eq. rewrite (rows_by_key _ _ (proj2 normalized_keys) Hnd), forallb_forall. split.
  - intros Hall r1 Hr1%list_elem_of_In. destruct (row_step Hn1 r1 Hr1) as (step & Hs & H1).
    destruct (step_row Hn2 step Hs) as (r2 & Hr2 & H2). destruct (Hall r2 Hr2) as (found & Hf & Hk & Hok).
    destruct (same_steps_elem _ _ _ Hsame Hr1) as (row & Hrow & Hc). rewrite Forall_forall in Hev. specialize (Hev r1 Hr1).
    rewrite <-(same_step_kept r1 r2 step row Hs H1 H2 Hc Hev). replace (stored_row row) with found; [done|].
    assert (map_of StepKey (λ s, s) (stored_row <$> rows) !! StepKey r2 = Some found) as Hl1 by (apply map_of_lookup; [done|by exists found]).
    assert (map_of StepKey (λ s, s) (stored_row <$> rows) !! StepKey r2 = Some (stored_row row)) as Hl2.
    { apply map_of_lookup; [done|]. exists (stored_row row). split; [by apply list_elem_of_fmap_2|]. split; [|done].
      destruct Hc as [(_ & _ & Hk' & _) _ _ _]. cbn. by rewrite <-Hk', H1, H2. }
    congruence.
  - intros Hall r2 Hr2. destruct (row_step Hn2 r2 Hr2) as (step & Hs & H2). destruct (step_row Hn1 step Hs) as (r1 & Hr1 & H1).
    destruct (same_steps_elem _ _ _ Hsame Hr1) as (row & Hrow & Hc). exists (stored_row row). split; [by apply list_elem_of_fmap_2|].
    rewrite Forall_forall in Hev. rewrite (same_step_kept r1 r2 step row Hs H1 H2 Hc (Hev r1 Hr1)).
    split; [|by apply Hall, list_elem_of_In]. destruct Hc as [(_ & _ & Hk' & _) _ _ _]. cbn. by rewrite <-Hk', H1, H2.
Qed.

Lemma stored_edges planID rows es : existing_edges planID (stored_row <$> rows) es = existing_edges planID rows es.
Proof. unfold existing_edges, map_of. cbn zeta. by rewrite foldl_fmap. Qed.

Lemma same_plan rows es : same_steps (Steps np1) rows → Dependencies np1 ≡ₚ es → Forall evidence_kept (Steps np1) →
  Steps np2 ≠ [] → samePlanContent np2 (stored_row <$> rows) es = forallb criteria_kept (Steps np1).
Proof.
  intros Hsame Hes Hev Hne. unfold samePlanContent. destruct normalized_length as [Hl1 Hl2].
  assert (length (stored_row <$> rows) = length (Steps np2)) as ->.
  { rewrite length_fmap. destruct Hsame as (l & Hp & Hall). by rewrite <-(Forall2_length _ _ _ Hall), <-Hp. }
  rewrite <-(Permutation_length Hes), <-Hl2, !Nat.eqb_refl. cbn [andb]. rewrite same_rows by done. rewrite stored_edges, (edge_text_requested Hn2 Hd2).
  assert (match Steps np2 with step :: _ => Step_PlanID step | [] => Nil end = Plan_ID plan) as ->.
  { destruct (Steps np2) as [|r2 l] eqn:Hs; [done|]. destruct (row_step Hn2 r2) as (step & _ & ->); [rewrite Hs; by left|done]. }
  destruct (edge_text_existing Hn1 Hd1 rows es Hsame Hes) as (l & -> & Hp).
  rewrite bool_decide_eq_true_2 by (by apply sort_strings_unique). apply andb_true_r.
Qed.
End Same.

(** ** Creating a plan's rows *)

Lemma filter_all {A} (P : A → Prop) `{∀ x, Decision (P x)} (l : list A) : Forall P l → filter P l = l.
Proof. induction 1; [done|]. by rewrite filter_cons_True, IHForall. Qed.

Lemma map_to_list_rows (rows : list DeliveryPlanStep) : ∀ m : gmap uuid DeliveryPlanStep,
  NoDup (Step_ID <$> rows) → (∀ row, row ∈ rows → m !! Step_ID row = None) →
  (map_to_list (foldl (λ m row, <[Step_ID row := row]> m) m rows)).*2 ≡ₚ rows ++ (map_to_list m).*2.
Proof.
  induction rows as [|row rows IH]; intros m Hnd Hnew; [done|]. cbn [foldl]. apply NoDup_cons in Hnd as [Hx Hnd].
  rewrite IH; [|done|].
  - rewrite map_to_list_insert by (apply Hnew; by left). rewrite fmap_cons. cbn. by rewrite <-Permutation_middle.
  - intros r Hr. rewrite lookup_insert_ne; [apply Hnew; by right|]. intros Heq. apply Hx. rewrite Heq. by apply list_elem_of_fmap_2.
Qed.
Lemma normalized_same_plan {unicode : GoUnicode} {runtime : GoRuntime} {map_range : GoMapRange} plan plan' actor inputs now steps ids np :
  Plan_ID plan' = Plan_ID plan → normalized plan' actor inputs now steps ids np → normalized plan actor inputs now steps ids np.
Proof.
  intros Hid [H1 H2 H3 H4 H5 H6 [H7 H8 H9 H10 H11] H12]. split; try done.
  - split; try done. eapply Forall2_impl; [exact H7|]. intros row step ->. unfold stepRow at 1. by rewrite Hid.
  - by rewrite <-Hid.
Qed.

Section Created.
Context {unicode : GoUnicode} {jsonb : Jsonb} {runtime : GoRuntime} {map_range : GoMapRange}.

Record created (planID : uuid) (actor : string) (inputs : list StepInput) (now : Z) (db : DB) (rows : list DeliveryPlanStep)
    (db' : DB) (plan : DeliveryPlan) (np : NormalizedPlan) : Prop := {
  created_plan : plans db !! planID = Some plan ∧ Plan_ID plan = planID;
  created_np : Normalize plan actor inputs now = Ok np ∧ Steps np = rows ∧ rows ≠ [];
  created_steps : plan_steps planID db' ≡ₚ rows;
  created_edges : edges db' = (edges db ++ Dependencies np)%list;
  created_rest : plans db' = plans db ∧ tasks db' = tasks db ∧ events db' = events db;
  created_keyed : well_keyed db';
}.
Lemma ensure_created planID actor inputs now db rows db' : well_keyed db →
  EnsureInTransaction planID actor inputs now db = Ok ((rows, true), db') →
  ∃ plan np, created planID actor inputs now db rows db' plan np.
Proof.
  intros Hk H. unfold EnsureInTransaction in H.
  apply T_bind_ok in H as (plan & d1 & [Hp ->]%first_ok & H). apply T_bind_ok in H as (np & d2 & [Hn ->]%lift_ok & H).
  destruct (Normalize plan actor inputs now) as [np'|] eqn:Hnorm; [injection Hn as ->|done].
  apply T_bind_ok in H as (existing & d3 & [= Hex <-] & H).
  destruct existing as [|x l]; [|apply T_bind_ok in H as (? & d4 & _ & H); by apply T_bind_ok in H as (? & ? & _ & [=])].
  pose proof (keyed_plans _ Hk _ _ Hp) as Hid. rewrite Hid in Hex. apply fmap_nil_inv in Hex.
  destruct (Steps np) as [|r rest] eqn:Hrows; [done|]. apply T_bind_ok in H as (u & d4 & Hs & H).
  apply T_bind_ok in H as (u' & d5 & He%create_edges_run & H). injection H as <- ->.
  apply create_steps_run in Hs as (Hnd & Hnew & ->). subst db'.
  apply Normalize_run in Hnorm as Hn. destruct Hn as (steps & ids & Hn). rewrite <-Hrows in Hnd, Hnew.
  assert (∀ row, row ∈ Steps np → Step_PlanID row = planID ∧ LeaseFence row = 0%Z) as Hrow.
  { intros row (step & _ & ->)%(row_step Hn). by rewrite <-Hid. }
  exists plan, np. split; [done|by rewrite Hrows| |done|done|].
  - unfold plan_steps in *. rewrite sort_by_perm. cbn [PlanStore.steps set_edges set_steps]. rewrite <-Hrows, map_to_list_rows by done.
    rewrite filter_app. apply sort_by_nil in Hex. rewrite Hex, app_nil_r, filter_all; [done|].
    apply Forall_forall. intros row Hr. by apply Hrow.
  - split; try apply Hk; cbn [PlanStore.steps set_edges set_steps]; rewrite <-Hrows;
      intros id s [(x & Hx & <- & ->)|[Hs _]]%foldl_insert_Some; try done; try by eapply Hk.
    by rewrite (proj2 (Hrow s Hx)).
Qed.
End Created.

(** C34: [Ensure] is idempotent: after it created the rows of a plan and workers executed some
    of them, asking again for the same inputs - by anyone, at any time - changes nothing and
    returns the stored rows, provided the database returns the criteria as they were written.
    Where it re-renders them ([jsonb] does), the same request is a conflict. *)
Theorem ensure_is_idempotent {unicode : GoUnicode} {text : UuidText} {jsonb : Jsonb} {run1 run2 : GoRuntime} {range1 range2 : GoMapRange}
    planID actor1 actor2 inputs now1 now2 db rows db1 ts db2 plan np :
  distinct_ids (H := run1) → distinct_ids (H := run2) → Forall readable_input inputs →
  well_keyed db → plan_edges planID db = [] →
  EnsureInTransaction (runtime := run1) (map_range := range1) planID actor1 inputs now1 db = Ok ((rows, true), db1) →
  execution db1 ts db2 → plans db2 !! planID = Some plan → Forall evidence_kept rows →
  Normalize (runtime := run2) (map_range := range2) plan actor2 inputs now2 = Ok np →
  same_steps rows (plan_steps planID db2) ∧
  EnsureInTransaction (runtime := run2) (map_range := range2) planID actor2 inputs now2 db2 =
    if forallb criteria_kept rows then Ok ((stored_row <$> plan_steps planID db2, false), db2) else Err ErrPlanStepsConflict.
Proof.
  intros Hd1 Hd2 Hread Hk Hnoedges Hens Hx Hplan Hev Hnorm.
  apply (ensure_created _ _ _ _ _ _ _ Hk) in Hens as (plan1 & np1 & [[Hp1 Hid1] (Hn1 & <- & Hne) Hsteps Hedges _ Hk1]).
  pose proof (keyed_plans _ (execution_keyed _ _ _ Hk1 Hx) _ _ Hplan) as Hid.
  assert (same_steps (Steps np1) (plan_steps planID db2) ∧ edges db2 = edges db1) as [Hsame Hes].
  { clear Hplan. induction Hx as [|ts db1' t db2' Hx IH Hstep].
    - split; [|done]. apply (same_steps_intro _ (plan_steps planID db1) (plan_steps planID db1)); [by rewrite Hsteps| |done].
      apply Forall_Forall2_diag, Forall_forall. intros r _. apply same_content_refl.
    - destruct IH as [H1 H2]. destruct (executes_content planID db1' t db2') as [H3 H4]; [by eapply execution_keyed|done|].
      split; [by eapply same_steps_trans|congruence]. }
  split; [done|]. apply Normalize_inputs in Hn1 as (steps1 & ids1 & [seen1 Hin1] & Hn1).
  pose proof Hnorm as (steps2 & ids2 & [seen2 Hin2] & Hn2)%Normalize_inputs.
  assert (steps2 = steps1) as -> by congruence. apply (normalized_same_plan plan1) in Hn2; [|congruence].
  assert (Steps np ≠ []) as Hne2 by (destruct (normalized_length Hn1 Hn2) as [Hl _]; destruct (Steps np), (Steps np1); done).
  assert (Dependencies np1 ≡ₚ plan_edges planID db2) as Hdeps.
  { unfold plan_edges in *. rewrite Hes, Hedges, filter_app, Hnoedges. cbn [app]. rewrite filter_all; [done|].
    apply Forall_forall. intros dep [i Hi]%list_elem_of_lookup.
    destruct (Forall2_lookup_l _ _ _ _ _ (norm_edges _ _ _ _ _ _ _ Hn1) Hi) as (e & _ & -> & _). done. }
  unfold EnsureInTransaction. rewrite <-(same_plan Hn1 Hn2 Hd1 Hd2 Hread _ _ Hsame Hdeps Hev Hne2).
  unfold mbind, T_bind, first. rewrite Hplan. unfold lift. rewrite Hnorm. unfold read. rewrite Hid.
  destruct (stored_row <$> plan_steps planID db2) as [|x l] eqn:Hex.
  - apply fmap_nil_inv in Hex. destruct Hsame as (l & Hp & Hall). rewrite Hex in Hall. apply Forall2_nil_inv_r in Hall as ->.
    by apply Permutation_nil_r in Hp.
  - unfold check. by destruct (samePlanContent _ _ _).
Qed.

(** ** The example: [demo_inputs], asked for by [ana] and again by [eva] *)

(** PostgreSQL prints a [jsonb] array with a space after each comma and each colon. *)
Fixpoint spaced (inside escaped : bool) (l : list ascii) : list ascii :=
  match l with
  | [] => []
  | c :: l =>
      if inside then c :: spaced (escaped || negb (Ascii.eqb c "034")) (negb escaped && Ascii.eqb c "\") l
      else if Ascii.eqb c "," || Ascii.eqb c ":" then c :: " "%char :: spaced false false l
      else c :: spaced (Ascii.eqb c "034") false l
  end.
Definition spaced_jsonb : Jsonb := {| jsonb_text s := of_bytes (spaced false false (bytes s)) |}.
Definition other_runtime : GoRuntime := {| NewV4 n := Some (900 + N.of_nat n)%N; Now := 77 |}.
Definition demo_before : DB :=
  {| plans := {[7%N := demo_plan]}; tasks := ∅; PlanStore.steps := ∅; edges := []; events := []; drawn := 0; dispatch := ∅ |}.
Abbreviation demo_ensure jsonb run actor :=
  (EnsureInTransaction (unicode := ascii_only) (jsonb := jsonb) (runtime := run) (map_range := tree_order) 7%N actor demo_inputs 0).
Definition demo_stored : DB := after (demo_ensure same_jsonb demo_runtime " ana ") demo_before.
Definition demo_again : NormalizedPlan :=
  match Normalize (unicode := ascii_only) (runtime := other_runtime) (map_range := tree_order) demo_plan "eva" demo_inputs 0 with
  | Ok np => np
  | Err _ => {| Steps := []; Dependencies := [] |}
  end.
Lemma demo_again_ok :
  Normalize (unicode := ascii_only) (runtime := other_runtime) (map_range := tree_order) demo_plan "eva" demo_inputs 0 = Ok demo_again.
Proof. vm_compute. reflexivity. Qed.
Lemma demo_before_keyed : well_keyed demo_before.
Proof.
  split; intros id row H; cbn in H; try (by rewrite lookup_empty in H).
  change ((({[7%N := demo_plan]} : gmap uuid DeliveryPlan) !! id) = Some row) in H. by apply lookup_singleton_Some in H as [<- <-].
Qed.
Lemma other_distinct : distinct_ids (H := other_runtime).
Proof. intros i j id [= <-] [= Heq]. lia. Qed.
Lemma demo_created (jsonb : Jsonb) : demo_ensure jsonb demo_runtime " ana " demo_before = Ok ((Steps demo_rows, true), demo_stored).
Proof. vm_compute. reflexivity. Qed.
(** A database that returns what was written finds the plan; one that prints [jsonb] as
    PostgreSQL does reports a conflict: one step of the example has two criteria. *)
Example ensure_is_idempotent_witness :
  demo_ensure same_jsonb other_runtime "eva" demo_stored = Ok ((Steps demo_rows, false), demo_stored) ∧
  demo_ensure spaced_jsonb other_runtime "eva" demo_stored = Err ErrPlanStepsConflict.
Proof.
  assert (∀ jsonb, Forall (evidence_kept (unicode := ascii_only) (jsonb := jsonb)) (Steps demo_rows) →
    demo_ensure jsonb other_runtime "eva" demo_stored =
      if forallb (criteria_kept (jsonb := jsonb)) (Steps demo_rows)
      then Ok ((stored_row (jsonb := jsonb) <$> plan_steps 7%N demo_stored, false), demo_stored) else Err ErrPlanStepsConflict) as Hboth.
  { intros jsonb Hev.
    apply (ensure_is_idempotent (unicode := ascii_only) (text := unary) (jsonb := jsonb) (run1 := demo_runtime) (run2 := other_runtime)
      (range1 := tree_order) (range2 := tree_order) 7%N " ana " "eva" demo_inputs 0 0 demo_before (Steps demo_rows) demo_stored []
      demo_stored demo_plan demo_again demo_distinct other_distinct demo_readable demo_before_keyed eq_refl (demo_created jsonb)
      (execution_start _) eq_refl Hev demo_again_ok). }
  split; (rewrite Hboth; [vm_compute; reflexivity|]); repeat constructor; vm_compute; reflexivity.
Defined.
