(* ===== verification/PlanAssign.v ===== *)
(** * Choosing machines for plan steps: the pure part of [services/deliveryplansteps/orchestration.go]

    Which worker heartbeats may run plan steps ([assignmentHeartbeatEligible], with
    [internal/agentprotocol]), how ready steps are spread over machines
    ([allocateAssignmentTargets]) and what the children of an execution mean for their parent
    ([AssessFanIn] of fan_in.go).  Instants and durations are nanoseconds. *)
From stdpp Require Import base tactics list strings gmap.
From Stdlib Require Import Ascii.
From S2P Require Import Prelude GoStrings GoSort Json JsonTypes PlanGraph PlanStore PlanStored PlanEnsure PlanLease.
Open Scope string_scope.

(** The order of Go's range over the mapping from steps to child tasks. *)
Class GoMappingRange := {
  range_mapping : gmap uuid uuid → list (uuid * uuid);
  range_mapping_perm m : range_mapping m ≡ₚ map_to_list m;
}.
Definition tree_mapping : GoMappingRange := {| range_mapping m := map_to_list m; range_mapping_perm m := reflexivity _ |}.

(** A machine and a profile ([assignmentTarget] and [assignmentTargetKey]). *)
Record assignmentTarget := { MachineTarget : string; AgentTarget : string }.
#[export] Instance target_eq : EqDecision assignmentTarget.
Proof. solve_decision. Defined.
#[export] Instance target_countable : Countable assignmentTarget.
Proof.
  apply (inj_countable' (λ t, (MachineTarget t, AgentTarget t)) (λ p, {| MachineTarget := p.1; AgentTarget := p.2 |})). by intros [].
Defined.

(** ** [agentprotocol.Supports] *)

Definition ProtocolDeliveryPlanStepsV1 : string := "delivery.plan_steps.v1".
Definition known_protocols : gset string := {[ProtocolDeliveryPlanStepsV1]}.

Section Assign.
Context {unicode : GoUnicode} {text : UuidText}.

(** The loop over the advertised protocols: [None] is [return false]. *)
Fixpoint supports_all (required : string) (seen : gset string) (supported : bool) (protocols : list string) : option bool :=
  match protocols with
  | [] => Some supported
  | raw :: rest =>
      let protocol := TrimSpace raw in
      if negb (bool_decide (protocol ∈ known_protocols)) || String.eqb protocol "" then None
      else if bool_decide (protocol ∈ seen) then None
      else supports_all required ({[protocol]} ∪ seen) (supported || String.eqb protocol required) rest
  end.
Definition Supports (protocols : list string) (required : string) : bool :=
  if Nat.eqb (length protocols) 0 || negb (String.eqb (TrimSpace required) required) then false
  else if negb (bool_decide (required ∈ known_protocols)) then false
  else default false (supports_all required ∅ false protocols).
Definition supportsDeliveryPlanStepsProtocol (protocols : list string) : bool :=
  Supports protocols ProtocolDeliveryPlanStepsV1.

(** ** Heartbeats *)

Definition assignmentHeartbeatMaxAge : Z := 90 * Second.
Definition heartbeat_future : Z := 5 * 60 * Second.
Definition is_workspace_byte (c : ascii) : bool := is_alnum c || one_of "_.-" c.
Definition frozenWorkspaceIDPattern : string → bool := re_ident is_alnum is_workspace_byte 0 95.

(** A heartbeat joined with the operations of its profile. *)
Record assignmentHeartbeatRow := { row_heartbeat : AutomationAgentHeartbeat; ProfileOperationsJSON : string }.

Record assignmentWorkspaceReadiness := { Workspace_ID : string; Ready : bool; SandboxReady : bool; IsolationMode : string }.
Definition zeroReadiness : assignmentWorkspaceReadiness := {| Workspace_ID := ""; Ready := false; SandboxReady := false; IsolationMode := "" |}.
Definition decode_readiness_field (w : assignmentWorkspaceReadiness) (field : string * jvalue) : option assignmentWorkspaceReadiness :=
  let '(key, v) := field in
  let '(id, ready, sandbox, mode) := (Workspace_ID w, Ready w, SandboxReady w, IsolationMode w) in
  let put id ready sandbox mode := {| Workspace_ID := id; Ready := ready; SandboxReady := sandbox; IsolationMode := mode |} in
  if field_is "id" key then id ← decode_string id v; Some (put id ready sandbox mode)
  else if field_is "ready" key then ready ← decode_bool ready v; Some (put id ready sandbox mode)
  else if field_is "sandbox_ready" key then sandbox ← decode_bool sandbox v; Some (put id ready sandbox mode)
  else if field_is "isolation_mode" key then mode ← decode_string mode v; Some (put id ready sandbox mode)
  else Some w.
Fixpoint decode_readiness_fields (w : assignmentWorkspaceReadiness) (fields : list (string * jvalue)) : option assignmentWorkspaceReadiness :=
  match fields with
  | [] => Some w
  | field :: rest => w ← decode_readiness_field w field; decode_readiness_fields w rest
  end.
Definition decode_readiness (v : jvalue) : option assignmentWorkspaceReadiness :=
  match v with
  | VNull => Some zeroReadiness
  | VObject fields => decode_readiness_fields zeroReadiness fields
  | _ => None
  end.
(** [json.Unmarshal] into a nil [[]assignmentWorkspaceReadiness]. *)
Definition UnmarshalReadiness (raw : string) : option (list assignmentWorkspaceReadiness) :=
  v ← read_json raw;
  match v with
  | VNull => Some []
  | VArray vs => mapM decode_readiness vs
  | _ => None
  end.

Definition containsAssignmentOperation (operations : list string) : bool :=
  existsb (λ operation, String.eqb (TrimSpace operation) "delivery.implementation") operations.
Definition planStepAgentKeyValid (agentKey : string) : bool :=
  String.eqb agentKey (TrimSpace agentKey) && stepAgentKeyPattern agentKey.

Definition workspace_ready (w : assignmentWorkspaceReadiness) : bool :=
  Ready w && SandboxReady w && EqualFold (TrimSpace (IsolationMode w)) "docker_container".
(** The loop that fills [readyByID]: [None] is [return false]. *)
Fixpoint ready_workspaces (readyByID : gmap string bool) (readiness : list assignmentWorkspaceReadiness) : option (gmap string bool) :=
  match readiness with
  | [] => Some readyByID
  | w :: rest =>
      if negb (frozenWorkspaceIDPattern (Workspace_ID w)) then None
      else if bool_decide (is_Some (readyByID !! Workspace_ID w)) then None
      else ready_workspaces (<[Workspace_ID w := workspace_ready w]> readyByID) rest
  end.
Definition unmarshalled (raw : string) : option (list string) := default [] <$> UnmarshalStrings raw.
Definition heartbeat_fresh (h : AutomationAgentHeartbeat) (now : Z) : bool :=
  Z.leb (now - assignmentHeartbeatMaxAge) (LastSeenAt h) && Z.leb (LastSeenAt h) (now + heartbeat_future).
Definition assignmentHeartbeatEligible (row : assignmentHeartbeatRow) (workspaceIDs : list string) (requiredAgentKey : string) (now : Z) : bool :=
  let h := row_heartbeat row in
  negb (String.eqb (Heartbeat_WorkerID h) "" || String.eqb (Heartbeat_AgentKey h) "" || Z.ltb (Concurrency h) 1 ||
        Z.ltb 8 (Concurrency h) || Draining h || negb (heartbeat_fresh h now)) &&
  bool_decide (is_Some (FromString (Heartbeat_WorkerID h))) &&
  match FromString (TrimSpace (Heartbeat_MachineID h)) with Some id => negb (N.eqb id Nil) | None => false end &&
  planStepAgentKeyValid (Heartbeat_AgentKey h) &&
  (String.eqb requiredAgentKey "" || String.eqb (Heartbeat_AgentKey h) requiredAgentKey) &&
  match unmarshalled (ProfileOperationsJSON row) with Some operations => containsAssignmentOperation operations | None => false end &&
  match unmarshalled (CapabilitiesJSON h) with
  | Some capabilities => Nat.eqb (length capabilities) 0 || containsAssignmentOperation capabilities
  | None => false
  end &&
  match unmarshalled (ProtocolsJSON h) with Some protocols => supportsDeliveryPlanStepsProtocol protocols | None => false end &&
  match readiness ← UnmarshalReadiness (WorkspaceReadiness h); ready_workspaces ∅ readiness with
  | Some readyByID => forallb (λ id, default false (readyByID !! id)) workspaceIDs
  | None => false
  end.

(** ** [allocateAssignmentTargets] *)

Definition zeroTarget : assignmentTarget := {| MachineTarget := ""; AgentTarget := "" |}.
Record assignmentTargetCandidate := { Candidate_Key : assignmentTarget; Capacity : Z; Reserved : Z }.
Definition reserve (c : assignmentTargetCandidate) : assignmentTargetCandidate :=
  {| Candidate_Key := Candidate_Key c; Capacity := Capacity c; Reserved := (Reserved c + 1)%Z |}.

Definition requiredAgent (step : DeliveryPlanStep) : string := TrimSpace (AgentKey step).
Definition constrained_before (left right : DeliveryPlanStep) : bool :=
  let leftAgent := requiredAgent left in
  let rightAgent := requiredAgent right in
  if negb (Bool.eqb (String.eqb leftAgent "") (String.eqb rightAgent "")) then negb (String.eqb leftAgent "")
  else if negb (String.eqb leftAgent rightAgent) then String.ltb leftAgent rightAgent
  else if negb (Z.eqb (DisplayOrder left) (DisplayOrder right)) then Z.ltb (DisplayOrder left) (DisplayOrder right)
  else String.ltb (uuid_text (Step_ID left)) (uuid_text (Step_ID right)).

(** The candidate has a free slot for a step that requires [agent]; candidates are shared by
    pointer in the code, here they are named by their position. *)
Definition can_take (agent : string) (c : assignmentTargetCandidate) : bool :=
  (String.eqb agent "" || String.eqb (AgentTarget (Candidate_Key c)) agent) && Z.ltb 0 (Capacity c - Reserved c).
Definition matching (agent : string) (candidates : list assignmentTargetCandidate) : list nat :=
  fst <$> filter (λ p, can_take agent p.2 = true) (imap pair candidates).
Fixpoint allocate (ordered : list DeliveryPlanStep) (candidates : list assignmentTargetCandidate) (cursors : gmap string nat)
    (targets : gmap uuid assignmentTarget) : Result StoreError (gmap uuid assignmentTarget * list assignmentTargetCandidate) :=
  match ordered with
  | [] => Ok (targets, candidates)
  | step :: rest =>
      let agent := requiredAgent step in
      let free := matching agent candidates in
      match free with
      | [] => Err ErrNoEligibleAgentMachine
      | _ =>
          let cursor := Nat.modulo (default O (cursors !! agent)) (length free) in
          let chosen := default O (free !! cursor) in
          let target := match candidates !! chosen with Some c => Candidate_Key c | None => zeroTarget end in
          allocate rest (alter reserve chosen candidates) (<[agent := S cursor]> cursors) (<[Step_ID step := target]> targets)
      end
  end.
Definition allocateAssignmentTargets (steps : list DeliveryPlanStep) (candidates : list assignmentTargetCandidate) :
    Result StoreError (gmap uuid assignmentTarget) :=
  if Nat.eqb (length steps) 0 then Ok ∅
  else '(targets, _) ← allocate (sort_by constrained_before steps) candidates ∅ ∅; Ok targets.

(** ** [normalizeStepTaskMapping] *)

(** The loop over the map, in the order it is ranged over. *)
Fixpoint mapping_steps (seenChildren : gset uuid) (mapping : list (uuid * uuid)) : Result StoreError (list uuid) :=
  match mapping with
  | [] => Ok []
  | (stepID, childTaskID) :: rest =>
      _ ← fail_if (N.eqb stepID Nil || N.eqb childTaskID Nil)
            (ErrStepInputInvalid "child task mapping contains an empty step or task id");
      _ ← fail_if (bool_decide (childTaskID ∈ seenChildren))
            (ErrStepInputInvalid "one child automation task cannot be assigned to multiple steps");
      ids ← mapping_steps ({[childTaskID]} ∪ seenChildren) rest;
      Ok (stepID :: ids)
  end.
Definition id_before (a b : uuid) : bool := String.ltb (uuid_text a) (uuid_text b).
Definition normalizeStepTaskMapping {ranged : GoMappingRange} (mapping : gmap uuid uuid) : Result StoreError (list uuid) :=
  ids ← mapping_steps ∅ (range_mapping mapping); Ok (sort_by id_before ids).

(** ** [AssessFanIn] *)

Definition AggregationPendingReason : string :=
  "aggregation_pending: child worktrees have not been merged into a verified parent artifact and full-plan acceptance evidence".
Record FanInDecision := { WaitingForChildren : bool; HasChildFailure : bool; AggregationPending : bool; Reason : string }.
Definition pending_because (failed : bool) (reason : string) : FanInDecision :=
  {| WaitingForChildren := false; HasChildFailure := failed; AggregationPending := true; Reason := AggregationPendingReason +:+ reason |}.
Definition child_failure : string := ": one or more child assignments did not complete successfully".

Definition activePlanStepAssignmentStatuses : list string :=
  [DeliveryPlanStepAssignmentPending; DeliveryPlanStepAssignmentQueued; DeliveryPlanStepAssignmentDispatched;
   DeliveryPlanStepAssignmentRunning].
Definition isActiveAssignmentStatus (status : string) : bool := existsb (String.eqb status) activePlanStepAssignmentStatuses.
Definition failed_status (status : string) : bool :=
  existsb (String.eqb status)
    [DeliveryPlanStepAssignmentFailed; DeliveryPlanStepAssignmentBlocked; DeliveryPlanStepAssignmentCancelled].

(** The two loops: [inl] is an early return. *)
Fixpoint required_steps (required : gset uuid) (ids : list uuid) : FanInDecision + gset uuid :=
  match ids with
  | [] => inr required
  | id :: rest =>
      if N.eqb id Nil then inl (pending_because false ": invalid plan step identity")
      else required_steps ({[id]} ∪ required) rest
  end.
Fixpoint fan_in (required seen : gset uuid) (active failed : bool) (assignments : list DeliveryPlanStepAssignment) :
    FanInDecision + (gset uuid * bool * bool) :=
  match assignments with
  | [] => inr (seen, active, failed)
  | a :: rest =>
      let id := DeliveryPlanStepID a in
      if negb (bool_decide (id ∈ required)) || N.eqb (Assignment_ID a) Nil || N.eqb (ChildAutomationTaskID a) Nil
      then inl (pending_because false ": assignment does not match the frozen plan")
      else if bool_decide (id ∈ seen) then inl (pending_because false ": duplicate step assignment")
      else if isActiveAssignmentStatus (Assignment_Status a) then fan_in required ({[id]} ∪ seen) true failed rest
      else if failed_status (Assignment_Status a) then fan_in required ({[id]} ∪ seen) active true rest
      else if String.eqb (Assignment_Status a) DeliveryPlanStepAssignmentCompleted then fan_in required ({[id]} ∪ seen) active failed rest
      else inl (pending_because false ": assignment has an unsupported state")
  end.
Definition AssessFanIn (requiredStepIDs : list uuid) (assignments : list DeliveryPlanStepAssignment) : FanInDecision :=
  match required_steps ∅ requiredStepIDs with
  | inl decision => decision
  | inr required =>
      match fan_in required ∅ false false assignments with
      | inl decision => decision
      | inr (seen, active, failed) =>
          if active
          then {| WaitingForChildren := true; HasChildFailure := failed; AggregationPending := false;
                  Reason := if failed then AggregationPendingReason +:+ child_failure else "" |}
          else if failed then pending_because true child_failure
          else if negb (Nat.eqb (size seen) (size required))
          then pending_because false ": ready dependent plan steps have not yet been assigned"
          else pending_because false ""
      end
  end.
End Assign.
