(* ===== verification/PlanAssignFacts.v ===== *)
(** * Lemmas on the choice of machines

    [placed] describes one way to place steps on candidates; the slots a step may use are
    counted by [supply], the steps that need them by [need]. *)
From stdpp Require Import base tactics list strings gmap sorting.
From Stdlib Require Import Ascii.
From S2P Require Import Prelude GoStrings GoSort PlanGraph PlanStore PlanAssign.
Open Scope string_scope.

Section Allocate.
Context {unicode : GoUnicode} {text : UuidText}.

(** The steps go one after another, each to a free slot of a candidate it may use: the i-th
    step to the candidate at the i-th position of the third argument. *)
Inductive placed : list DeliveryPlanStep → list assignmentTargetCandidate → list nat → list assignmentTargetCandidate → Prop :=
| placed_nil cs : placed [] cs [] cs
| placed_cons s ss cs i c g cs' : cs !! i = Some c → can_take (requiredAgent s) c = true →
    placed ss (alter reserve i cs) g cs' → placed (s :: ss) cs (i :: g) cs'.

(** ** Counting slots *)

Definition fits (agent : string) (c : assignmentTargetCandidate) : bool :=
  String.eqb agent "" || String.eqb (AgentTarget (Candidate_Key c)) agent.
Definition free (c : assignmentTargetCandidate) : nat := Z.to_nat (Capacity c - Reserved c).
Definition slots (agent : string) (c : assignmentTargetCandidate) : nat := if fits agent c then free c else 0.
Definition supply (agent : string) (cs : list assignmentTargetCandidate) : nat := sum_list (slots agent <$> cs).
Definition wants (agent : string) (s : DeliveryPlanStep) : bool := String.eqb agent "" || String.eqb (requiredAgent s) agent.
Definition need (agent : string) (ss : list DeliveryPlanStep) : nat := length (filter (λ s, wants agent s = true) ss).
Definition enough (ss : list DeliveryPlanStep) (cs : list assignmentTargetCandidate) : Prop := ∀ agent, (need agent ss ≤ supply agent cs)%nat.

Lemma can_take_iff agent c : can_take agent c = true ↔ fits agent c = true ∧ (0 < free c)%nat.
Proof. unfold can_take, fits, free. rewrite andb_true_iff, Z.ltb_lt. split; intros []; split; try done; lia. Qed.
Lemma free_reserve c : (0 < free c)%nat → free c = S (free (reserve c)).
Proof. unfold free, reserve. cbn. lia. Qed.
Lemma slots_reserve agent c : (0 < free c)%nat → slots agent c = ((if fits agent c then 1 else 0) + slots agent (reserve c))%nat.
Proof. intros H. unfold slots. change (fits agent (reserve c)) with (fits agent c). destruct (fits agent c); [by rewrite free_reserve|done]. Qed.
Lemma supply_reserve agent cs : ∀ i c, cs !! i = Some c → (0 < free c)%nat →
  supply agent cs = ((if fits agent c then 1 else 0) + supply agent (alter reserve i cs))%nat.
Proof.
  unfold supply. induction cs as [|x cs IH]; intros [|i] c Hi Hf; try done; cbn in *.
  - injection Hi as ->. rewrite slots_reserve by done. lia.
  - rewrite (IH i c) by done. change (list_alter reserve i cs) with (alter reserve i cs). lia.
Qed.

Lemma elem_of_matching agent cs i : i ∈ matching agent cs ↔ ∃ c, cs !! i = Some c ∧ can_take agent c = true.
Proof.
  unfold matching. rewrite list_elem_of_fmap. setoid_rewrite list_elem_of_filter. setoid_rewrite elem_of_lookup_imap. split.
  - intros ([j c] & -> & Hc & (k & x & [= -> ->] & Hk)). by exists x.
  - intros (c & Hi & Hc). exists (i, c). split; [done|]. split; [done|]. by exists i, c.
Qed.
Lemma supply_matching agent cs : (0 < supply agent cs)%nat → matching agent cs ≠ [].
Proof.
  intros H Hm. assert (∃ i c, cs !! i = Some c ∧ can_take agent c = true) as (i & c & Hi & Hc).
  { clear Hm. unfold supply in H. induction cs as [|c cs IH]; cbn in H; [lia|]. destruct (can_take agent c) eqn:Hc.
    - by exists 0%nat, c.
    - destruct IH as (i & c' & Hi & Hc'); [|by exists (S i), c'].
      apply not_true_iff_false in Hc. rewrite can_take_iff in Hc. unfold slots at 1 in H.
      destruct (fits agent c); [assert (¬ (0 < free c)%nat) by tauto|]; lia. }
  assert (i ∈ matching agent cs) as Hin by (apply elem_of_matching; by exists c). rewrite Hm in Hin. by apply not_elem_of_nil in Hin.
Qed.

Lemma need_cons agent s ss : need agent (s :: ss) = ((if wants agent s then 1 else 0) + need agent ss)%nat.
Proof. unfold need. destruct (wants agent s) eqn:Hw; [by rewrite filter_cons_True|by rewrite filter_cons_False by (by rewrite Hw)]. Qed.
Lemma need_perm agent l1 l2 : l1 ≡ₚ l2 → need agent l1 = need agent l2.
Proof. intros H. unfold need. by rewrite H. Qed.
Lemma enough_perm l1 l2 cs : l1 ≡ₚ l2 → enough l1 cs → enough l2 cs.
Proof. intros Hp H agent. rewrite <-(need_perm agent _ _ Hp). apply H. Qed.
(** A candidate a step may use is counted for every profile that counts the step. *)
Lemma wants_fits agent s c : wants agent s = true → fits (requiredAgent s) c = true → fits agent c = true.
Proof.
  unfold wants, fits. rewrite !orb_true_iff, !String.eqb_eq. intros [->|Heq] H; [by left|]. subst agent. tauto.
Qed.

Lemma placed_enough ss cs g cs' : placed ss cs g cs' → enough ss cs.
Proof.
  induction 1 as [cs|s ss cs i c g cs' Hi Hc _ IH]; intros agent; [cbn; lia|].
  apply can_take_iff in Hc as [Hf Hfree]. rewrite need_cons, (supply_reserve agent cs i c) by done. specialize (IH agent).
  destruct (wants agent s) eqn:Hw; [rewrite (wants_fits _ _ _ Hw Hf)|]; lia.
Qed.

(** ** The allocation *)

(** Constrained steps come before flexible ones. *)
Definition constrained_first (ss : list DeliveryPlanStep) : Prop :=
  StronglySorted (λ a b, requiredAgent a = "" → requiredAgent b = "") ss.

Definition put (targets : gmap uuid assignmentTarget) (p : DeliveryPlanStep * assignmentTarget) : gmap uuid assignmentTarget :=
  <[Step_ID p.1 := p.2]> targets.
Definition key_at (cs : list assignmentTargetCandidate) (i : nat) : assignmentTarget :=
  match cs !! i with Some c => Candidate_Key c | None => zeroTarget end.
Lemma key_at_reserve cs i j : key_at (alter reserve i cs) j = key_at cs j.
Proof. unfold key_at. rewrite list_lookup_alter. destruct (decide (i = j)) as [->|]; [by destruct (cs !! j)|done]. Qed.

Lemma allocate_run ss : ∀ cs cursors targets targets' cs', allocate ss cs cursors targets = Ok (targets', cs') →
  ∃ g, placed ss cs g cs' ∧ targets' = foldl put targets (zip ss (key_at cs <$> g)).
Proof.
  induction ss as [|s ss IH]; intros cs cursors targets targets' cs' H; cbn [allocate] in H.
  { injection H as <- <-. exists []. split; [constructor|done]. }
  remember (matching (requiredAgent s) cs) as free eqn:Hfree. destruct free as [|i0 free0]; [done|].
  set (cursor := (default 0%nat (cursors !! requiredAgent s) `mod` length (i0 :: free0))%nat) in *.
  destruct (lookup_lt_is_Some_2 (i0 :: free0) cursor) as [i Hi]; [apply Nat.mod_upper_bound; cbn; lia|].
  change (default 0%nat (cursors !! requiredAgent s) `mod` length (i0 :: free0))%nat with cursor in H.
  rewrite Hi in H. cbn [default from_option] in H. pose proof (list_elem_of_lookup_2 _ _ _ Hi) as Hin.
  rewrite Hfree in Hin. apply elem_of_matching in Hin as (c & Hc & Htake).
  apply IH in H as (g & Hg & ->). exists (i :: g). split; [by econstructor|].
  assert (key_at (alter reserve i cs) <$> g = key_at cs <$> g) as Heq by (apply list_fmap_ext; intros _ j _; apply key_at_reserve).
  change (id i) with i. rewrite Heq. reflexivity.
Qed.

Lemma allocate_enough ss : ∀ cs cursors targets, constrained_first ss → enough ss cs →
  ∃ r, allocate ss cs cursors targets = Ok r.
Proof.
  induction ss as [|s ss IH]; intros cs cursors targets Hsort Hen; cbn [allocate]; [by eexists|].
  apply StronglySorted_inv in Hsort as [Hsort Hall].
  assert (matching (requiredAgent s) cs ≠ []) as Hne.
  { apply supply_matching. specialize (Hen (requiredAgent s)). rewrite need_cons in Hen.
    assert (wants (requiredAgent s) s = true) as Hw by (unfold wants; by rewrite String.eqb_refl, orb_true_r). rewrite Hw in Hen. lia. }
  remember (matching (requiredAgent s) cs) as free eqn:Hfree. destruct free as [|i0 free0]; [done|].
  set (cursor := (default 0%nat (cursors !! requiredAgent s) `mod` length (i0 :: free0))%nat).
  destruct (lookup_lt_is_Some_2 (i0 :: free0) cursor) as [i Hi]; [apply Nat.mod_upper_bound; cbn; lia|].
  rewrite Hi. cbn [default from_option]. pose proof (list_elem_of_lookup_2 _ _ _ Hi) as Hin.
  rewrite Hfree in Hin. apply elem_of_matching in Hin as (c & Hc & [Hfit Hpos]%can_take_iff). apply IH; [done|].
  intros agent. change (id i) with i. specialize (Hen agent). rewrite need_cons, (supply_reserve agent cs i c) in Hen by done.
  destruct (wants agent s) eqn:Hw; [rewrite (wants_fits _ _ _ Hw Hfit) in Hen; lia|].
  destruct (fits agent c) eqn:Hfa; [|lia]. unfold wants in Hw. apply orb_false_iff in Hw as [Hw1%String.eqb_neq Hw2%String.eqb_neq].
  unfold fits in Hfa, Hfit. rewrite orb_true_iff, !String.eqb_eq in Hfa, Hfit.
  destruct Hfit as [Hany|Hag]; [|destruct Hfa; congruence].
  assert (need agent ss = 0%nat) as ->; [|lia]. clear -Hall Hany Hw1. unfold need.
  induction Hall as [|s' ss Hs' _ IH]; [done|]. rewrite filter_cons_False; [done|].
  unfold wants. rewrite orb_true_iff, !String.eqb_eq, (Hs' Hany). intros []; congruence.
Qed.

(** ** [allocateAssignmentTargets] *)

(** A sort whose comparison agrees with a preorder sorts by it. *)
Lemma sort_by_coarse {A} (less : A → A → bool) (R : relation A) `{!Transitive R} l :
  (∀ x y, less y x = true → R y x) → (∀ x y, less y x = false → R x y) → StronglySorted R (sort_by less l).
Proof.
  intros H1 H2. induction l as [|x l IH]; [constructor|]. cbn [sort_by foldr]. fold (sort_by less l). revert IH.
  generalize (sort_by less l). clear l. induction 1 as [|y l Hs IH Hall]; cbn [insert_by]; [repeat constructor|].
  destruct (less y x) eqn:Hyx.
  - constructor; [done|]. rewrite insert_by_perm. constructor; [by apply H1|done].
  - constructor; [by constructor|]. apply H2 in Hyx. constructor; [done|]. eapply Forall_impl; [exact Hall|]. intros z Hz. by etrans.
Qed.
Lemma sorted_constrained ss : constrained_first (sort_by constrained_before ss).
Proof.
  apply sort_by_coarse; [intros a b c H1 H2 H; auto|..]; intros x y; unfold constrained_before.
  - destruct (String.eqb_spec (requiredAgent y) "") as [Hy|]; [|done]. destruct (String.eqb_spec (requiredAgent x) ""); [done|].
    cbn. done.
  - destruct (String.eqb_spec (requiredAgent x) "") as [Hx|]; [|done]. by destruct (String.eqb_spec (requiredAgent y) "").
Qed.

(** The slots a placement takes. *)
Lemma placed_slots ss cs g cs' : placed ss cs g cs' → ∀ i c, cs !! i = Some c →
  cs' !! i = Some {| Candidate_Key := Candidate_Key c; Capacity := Capacity c;
                     Reserved := Reserved c + Z.of_nat (length (filter (λ j, j = i) g)) |} ∧
  (length (filter (λ j, j = i) g) ≤ free c)%nat.
Proof.
  induction 1 as [cs|s ss cs i c g cs' Hi Hc _ IH]; intros j x Hj.
  { rewrite Hj. split; [destruct x; cbn; by rewrite Z.add_0_r|apply Nat.le_0_l]. }
  apply can_take_iff in Hc as [_ Hpos]. destruct (decide (i = j)) as [->|Hne].
  - assert (x = c) as -> by congruence. rewrite filter_cons_True by done. cbn [length].
    destruct (IH j (reserve c)) as [H1 H2]; [by rewrite list_lookup_alter_eq, Hi|].
    pose proof (free_reserve c Hpos) as Hfr. rewrite H1. split; [|lia]. unfold reserve. cbn. do 2 f_equal. lia.
  - rewrite filter_cons_False by done. apply (IH j x). by rewrite list_lookup_alter_ne.
Qed.
Lemma placed_length ss cs g cs' : placed ss cs g cs' → length g = length ss.
Proof. induction 1; cbn; congruence. Qed.
Lemma placed_lookup ss cs g cs' : placed ss cs g cs' → ∀ n s i, ss !! n = Some s → g !! n = Some i →
  ∃ c, cs !! i = Some c ∧ fits (requiredAgent s) c = true.
Proof.
  induction 1 as [cs|s ss cs i c g cs' Hi Hc _ IH]; intros [|n] s' j Hs Hj; try done; cbn in *.
  - injection Hs as ->. injection Hj as ->. exists c. by apply can_take_iff in Hc as [? _].
  - destruct (IH n s' j Hs Hj) as (c' & Hc' & Hf). rewrite list_lookup_alter in Hc'.
    destruct (decide (i = j)) as [->|]; [|by exists c']. rewrite Hi in Hc'. injection Hc' as <-. by exists c.
Qed.

Lemma lookup_put ss ts : ∀ targets, length ss = length ts → NoDup (Step_ID <$> ss) → ∀ id t,
  foldl put targets (zip ss ts) !! id = Some t ↔
  (∃ n s, ss !! n = Some s ∧ ts !! n = Some t ∧ Step_ID s = id) ∨ (id ∉ Step_ID <$> ss ∧ targets !! id = Some t).
Proof.
  revert ts. induction ss as [|s ss IH]; intros [|t0 ts] targets Hlen Hnd id t; try done; cbn [zip zip_with foldl].
  { split; [intros H; right; split; [apply not_elem_of_nil|done]|]. intros [(? & ? & ? & _)|[_ ?]]; [by rewrite lookup_nil in *|done]. }
  rewrite fmap_cons in Hnd. apply NoDup_cons in Hnd as [Hx Hnd]. rewrite IH by (done || (cbn in Hlen; lia)). unfold put. cbn [fst snd].
  rewrite fmap_cons, not_elem_of_cons. split.
  - intros [(n & s' & H1 & H2 & H3)|[Hid Ht]]; [left; by exists (S n), s'|].
    rewrite lookup_insert in Ht. destruct (decide (Step_ID s = id)) as [Heq|Hne]; [left; by exists 0%nat, s|right; by repeat split; auto].
  - intros [(n & s' & H1 & H2 & H3)|[[Hne Hid] Ht]]; [destruct n as [|n]; cbn in H1, H2|].
    + right. injection H1 as ->. injection H2 as ->. subst id. split; [done|apply lookup_insert_eq].
    + left. by exists n, s'.
    + right. split; [done|]. by rewrite lookup_insert_ne.
Qed.

(** What an allocation is: every step has a target its profile allows, and no candidate gets
    more steps than it has free slots. *)
Record allocation (ss : list DeliveryPlanStep) (cs : list assignmentTargetCandidate) (targets : gmap uuid assignmentTarget) : Prop := {
  allocation_total : ∀ s, s ∈ ss → ∃ c, c ∈ cs ∧ targets !! Step_ID s = Some (Candidate_Key c) ∧ fits (requiredAgent s) c = true;
  allocation_only : ∀ id t, targets !! id = Some t → id ∈ Step_ID <$> ss;
  allocation_slots : ∀ c, c ∈ cs → (length (filter (λ s, targets !! Step_ID s = Some (Candidate_Key c)) ss) ≤ free c)%nat;
}.

Lemma zip_count {A B C} `{EqDecision C} (f : A → C) (h : B → C) (l : list A) (k : list B) x :
  Forall2 (λ a b, f a = h b) l k → length (filter (λ a, f a = x) l) = length (filter (λ b, h b = x) k).
Proof.
  induction 1 as [|a b l k Hab _ IH]; [done|]. destruct (decide (f a = x)) as [Heq|Hne].
  - rewrite !filter_cons_True by congruence. cbn. by rewrite IH.
  - rewrite !filter_cons_False by congruence. done.
Qed.

Lemma allocate_allocation ss cs targets cs' : NoDup (Step_ID <$> ss) → NoDup (Candidate_Key <$> cs) →
  allocate ss cs ∅ ∅ = Ok (targets, cs') → allocation ss cs targets.
Proof.
  intros Hnd Hkeys (g & Hg & ->)%allocate_run. pose proof (placed_length _ _ _ _ Hg) as Hlen.
  assert (∀ n s i, ss !! n = Some s → g !! n = Some i → foldl put ∅ (zip ss (key_at cs <$> g)) !! Step_ID s = Some (key_at cs i)) as Hlook.
  { intros n s i Hs Hi. apply lookup_put; [by rewrite length_fmap|done|]. left. exists n, s. by rewrite list_lookup_fmap, Hi. }
  split.
  - intros s [n Hn]%list_elem_of_lookup. destruct (lookup_lt_is_Some_2 g n) as [i Hi].
    { rewrite Hlen. by eapply lookup_lt_Some. }
    destruct (placed_lookup _ _ _ _ Hg n s i Hn Hi) as (c & Hc & Hf). exists c. split; [by apply list_elem_of_lookup_2 in Hc|].
    split; [|done]. rewrite (Hlook n s i Hn Hi). unfold key_at. by rewrite Hc.
  - intros id t [(n & s & Hs & _ & <-)|[_ H]]%lookup_put; [|by rewrite lookup_empty in H|by rewrite length_fmap|done].
    apply list_elem_of_lookup_2 in Hs. by apply list_elem_of_fmap_2.
  - intros c [i Hi]%list_elem_of_lookup. destruct (placed_slots _ _ _ _ Hg i c Hi) as [_ Hslots]. etrans; [|exact Hslots].
    rewrite (zip_count (λ s, foldl put ∅ (zip ss (key_at cs <$> g)) !! Step_ID s) (λ j, Some (key_at cs j)) ss g).
    + assert (∀ j, j ∈ g → Some (key_at cs j) = Some (Candidate_Key c) → j = i) as Hj.
      { intros j [n Hn]%list_elem_of_lookup [= Heq]. destruct (lookup_lt_is_Some_2 ss n) as [s Hs]; [rewrite <-Hlen; by eapply lookup_lt_Some|].
        destruct (placed_lookup _ _ _ _ Hg n s j Hs Hn) as (x & Hx & _). unfold key_at in Heq. rewrite Hx in Heq.
        eapply (NoDup_lookup (Candidate_Key <$> cs)); [done|rewrite list_lookup_fmap, Hx; cbn; by rewrite Heq|by rewrite list_lookup_fmap, Hi]. }
      clear -Hj. induction g as [|j g IH]; [done|].
      assert (length (filter (λ b, Some (key_at cs b) = Some (Candidate_Key c)) g) ≤ length (filter (λ j, j = i) g))%nat
        by (apply IH; intros; apply Hj; [by right|done]).
      destruct (decide (Some (key_at cs j) = Some (Candidate_Key c))) as [Heq|Hne].
      * rewrite filter_cons_True by done. rewrite filter_cons_True by (apply Hj; [by left|done]). cbn. lia.
      * rewrite filter_cons_False by done. rewrite filter_cons. destruct (decide (j = i)); cbn; lia.
    + apply Forall2_same_length_lookup. split; [done|]. intros n s j Hs Hj. by apply (Hlook n).
Qed.

(** A placement in one order gives one in any order. *)
Lemma placed_swap x y ss cs i j g left : placed (x :: y :: ss) cs (i :: j :: g) left → placed (y :: x :: ss) cs (j :: i :: g) left.
Proof.
  intros H. inversion H as [|? ? ? ? c ? ? Hi Hc H1]; subst. inversion H1 as [|? ? ? ? d ? ? Hj Hd H2]; subst.
  destruct (decide (i = j)) as [->|Hne].
  - rewrite list_lookup_alter_eq, Hi in Hj. injection Hj as <-. apply can_take_iff in Hc as [Hfx Hx], Hd as [Hfy Hy].
    change (fits (requiredAgent y) (reserve c)) with (fits (requiredAgent y) c) in Hfy.
    econstructor; [exact Hi|by apply can_take_iff|]. econstructor; [by rewrite list_lookup_alter_eq, Hi|by apply can_take_iff|done].
  - rewrite list_lookup_alter_ne in Hj by done. econstructor; [exact Hj|done|].
    econstructor; [by rewrite list_lookup_alter_ne by done|done|].
    replace (alter reserve i (alter reserve j cs)) with (alter reserve j (alter reserve i cs)); [done|].
    apply list_eq. intros k. destruct (decide (i = k)) as [->|Hik], (decide (j = k)) as [->|Hjk]; try done.
    + by rewrite list_lookup_alter_ne, !list_lookup_alter_eq, list_lookup_alter_ne by done.
    + by rewrite list_lookup_alter_eq, !list_lookup_alter_ne, list_lookup_alter_eq by done.
    + by rewrite !list_lookup_alter_ne by done.
Qed.
Lemma placed_any_order ss ss' : ss ≡ₚ ss' → ∀ cs, (∃ g left, placed ss cs g left) → ∃ g left, placed ss' cs g left.
Proof.
  induction 1 as [|s ss ss' _ IH|x y ss|l1 l2 l3 _ IH1 _ IH2]; intros cs (g & left & H); [by eauto|..|by eauto].
  - inversion H as [|? ? ? i c g' ? Hi Hc H1]; subst. destruct (IH (alter reserve i cs)) as (g2 & left2 & H2); [eauto|].
    exists (i :: g2), left2. by econstructor.
  - inversion H as [|? ? ? i c g' ? Hi Hc H1]; subst. inversion H1; subst. eexists _, _. by apply placed_swap.
Qed.
End Allocate.
