(* ===== verification/PlanDispatch.v ===== *)
(** * Dispatching an approved plan: the transactions of [services/deliveryplansteps/orchestration.go]
    and fan_in.go

    [CreateExecutionInTransaction] freezes the approved plan for a parent task,
    [ReadyPlanStepsInTransaction] lists the steps that can be handed out,
    [ReserveReadyAssignmentsInTransaction] binds steps to child tasks and machines, and
    [ValidateAssignmentWorker] admits a worker to a bound step, moving it to another machine
    when the first is gone.  A wrapped error keeps its sentinel only.  The order of the clauses
    without an effect on the result (rows that are only counted or summed) is left out. *)
From stdpp Require Import base tactics list strings gmap.
From Stdlib Require Import Ascii.
From S2P Require Import Prelude GoStrings GoSort Json PlanGraph Workflow PlanStore PlanStored PlanEnsure PlanLease PlanAssign.
Open Scope string_scope.

Definition set_dispatch (f : Dispatch → Dispatch) (db : DB) : DB :=
  {| plans := plans db; tasks := tasks db; steps := steps db; edges := edges db; events := events db; drawn := drawn db;
     dispatch := f (dispatch db) |}.
Definition set_executions (t : gmap uuid DeliveryPlanExecution) (d : Dispatch) : Dispatch :=
  {| executions := t; assignments := assignments d; heartbeats := heartbeats d; profiles := profiles d; snapshots := snapshots d;
     gates := gates d; work_items := work_items d; projects := projects d |}.
Definition set_assignments (t : gmap uuid DeliveryPlanStepAssignment) (d : Dispatch) : Dispatch :=
  {| executions := executions d; assignments := t; heartbeats := heartbeats d; profiles := profiles d; snapshots := snapshots d;
     gates := gates d; work_items := work_items d; projects := projects d |}.
Definition values {A} (t : gmap uuid A) : list A := (map_to_list t).*2.

Section Queries.
Context (db : DB).

Definition assignments_where (p : DeliveryPlanStepAssignment → bool) : list DeliveryPlanStepAssignment :=
  filter (λ a, p a = true) (values (assignments (dispatch db))).
Definition is_active_for (executionID : uuid) (a : DeliveryPlanStepAssignment) : bool :=
  N.eqb (ExecutionID a) executionID && isActiveAssignmentStatus (Assignment_Status a).
Definition activeCount (executionID : uuid) : Z := Z.of_nat (length (assignments_where (is_active_for executionID))).
Definition assigned (executionID stepID : uuid) : bool :=
  existsb (λ a, N.eqb (ExecutionID a) executionID && N.eqb (DeliveryPlanStepID a) stepID) (values (assignments (dispatch db))).
(** The active reservations of a machine and profile, of any execution. *)
Definition reserves (key : assignmentTarget) (a : DeliveryPlanStepAssignment) : bool :=
  String.eqb (TargetMachineID a) (MachineTarget key) && String.eqb (TargetAgentKey a) (AgentTarget key) &&
  isActiveAssignmentStatus (Assignment_Status a).
Definition reservations (key : assignmentTarget) : Z := Z.of_nat (length (assignments_where (reserves key))).

(** Steps of the plan that wait, have all dependencies completed and are not assigned. *)
Definition step_ready (executionID planID : uuid) (s : DeliveryPlanStep) : bool :=
  N.eqb (Step_PlanID s) planID &&
  (String.eqb (Status s) DeliveryPlanStepPlanned || String.eqb (Status s) DeliveryPlanStepReady) &&
  dependencies_completed db s && negb (assigned executionID (Step_ID s)).
Definition execution_of (taskID : uuid) : option DeliveryPlanExecution :=
  head (filter (λ e, Execution_AutomationTaskID e = taskID) (values (executions (dispatch db)))).

(** The rows of [loadTaskOrganizationScope]: work item, project and organization. *)
Definition organization_scope (taskID : uuid) : option (uuid * uuid * uuid) :=
  task ← tasks db !! taskID;
  workItem ← DeliveryWorkItemID task;
  project ← work_items (dispatch db) !! workItem;
  client ← projects (dispatch db) !! project;
  Some (workItem, project, client).
End Queries.

Section Dispatch.
Context {unicode : GoUnicode} {text : UuidText} {jsonb : Jsonb} {map_range : GoMapRange} {ranged : GoMappingRange} (tx : Tx).

Definition normalizeNow (now : Z) : Z := if Z.eqb now 0 then tick tx 0 else now.
Definition draw : T uuid :=
  n ← read drawn;
  match fresh tx n with
  | None => raise IdentityGenerationFailed
  | Some id =>
      _ ← write (λ db, {| plans := plans db; tasks := tasks db; steps := steps db; edges := edges db; events := events db;
                          drawn := S (drawn db); dispatch := dispatch db |});
      mret id
  end.
Definition invalid_input (ok : bool) (message : string) : T unit := check ok (ErrStepInputInvalid message).
(** [query.Take(&row)] of a query with at most one row. *)
Definition take_row {A} (query : DB → option A) : T A :=
  found ← read query;
  match found with Some row => mret row | None => raise ErrRecordNotFound end.
Definition loadTaskOrganizationScope (taskID : uuid) : T (uuid * uuid * uuid) := take_row (λ db, organization_scope db taskID).

(** ** [loadApprovedExecutionSnapshot] *)

Definition dependency_before (a b : DeliveryPlanStepDependency) : bool :=
  N.ltb (StepID a) (StepID b) || N.eqb (StepID a) (StepID b) && N.ltb (DependsOnStepID a) (DependsOnStepID b).
Definition loadApprovedExecutionSnapshot (parent : AutomationTask) (planID : uuid) :
    T (DeliveryPlan * uuid * list DeliveryPlanStep * list DeliveryPlanStepDependency) :=
  plan ← first plans planID;
  _ ← check (bool_decide (DeliveryWorkItemID parent = Some (WorkItemID plan))) ErrPlanExecutionParentMismatch;
  match ApprovedGateID plan with
  | None => raise ErrPlanExecutionApproval
  | Some gateID =>
      _ ← check (EqualFold (TrimSpace (Plan_Status plan)) "approved" && negb (Z.ltb (Version plan) 1) && negb (N.eqb gateID Nil))
            ErrPlanExecutionApproval;
      gate ← first (λ db, gates (dispatch db)) gateID;
      _ ← check (N.eqb (Gate_WorkItemID gate) (WorkItemID plan) && String.eqb (Kind gate) GatePlan &&
                 String.eqb (Decision gate) DecisionApproved) ErrPlanExecutionApproval;
      rows ← read (λ db, stored_row <$> select_steps (λ s, N.eqb (Step_PlanID s) (Plan_ID plan)) db);
      dependencies ← read (λ db, sort_by dependency_before (plan_edges (Plan_ID plan) db));
      mret (plan, gateID, rows, dependencies)
  end.

(** ** [CreateExecutionInTransaction] *)

Definition hasLiveUnassignedPlanStepLease (planID : uuid) (now : Z) : T bool :=
  _ ← invalid_input (negb (N.eqb planID Nil)) "transaction and plan_id are required";
  read (λ db, existsb (λ s,
    N.eqb (Step_PlanID s) planID && String.eqb (Status s) DeliveryPlanStepRunning && after_opt (LeaseExpiresAt s) now &&
    negb (existsb (λ a, N.eqb (DeliveryPlanStepID a) (Step_ID s)) (values (assignments (dispatch db))))) (values (steps db))).
Definition create_execution (execution : DeliveryPlanExecution) : T unit :=
  taken ← read (λ db, bool_decide (is_Some (executions (dispatch db) !! Execution_ID execution)) ||
                      bool_decide (is_Some (execution_of db (Execution_AutomationTaskID execution))));
  _ ← check (negb taken) UniqueViolation;
  write (λ db, set_dispatch (λ d, set_executions (<[Execution_ID execution := execution]> (executions d)) d) db).

Definition CreateExecutionInTransaction (parentTaskID planID : uuid) (maxConcurrency : Z) (idempotencyKey : string) (now : Z) :
    T (DeliveryPlanExecution * bool) :=
  _ ← invalid_input (negb (N.eqb parentTaskID Nil || N.eqb planID Nil)) "parent_task_id and plan_id are required";
  _ ← invalid_input (negb (Z.ltb maxConcurrency 1 || Z.ltb DeliveryPlanExecutionMaxConcurrency maxConcurrency))
        "max_concurrency must be between 1 and 64";
  let key := TrimSpace idempotencyKey in
  _ ← invalid_input (negb (String.eqb key "" || Nat.ltb 128 (String.length key))) "idempotency_key must contain 1 to 128 characters";
  let now := normalizeNow now in
  parent ← first tasks parentTaskID;
  match DeliveryWorkItemID parent with
  | None => raise ErrPlanExecutionParentMismatch
  | Some workItem =>
      existing ← read (λ db, execution_of db parentTaskID);
      match existing with
      | Some execution =>
          _ ← check (N.eqb (Execution_PlanID execution) planID && String.eqb (Execution_IdempotencyKey execution) key &&
                     Z.eqb (MaxConcurrency execution) maxConcurrency) ErrPlanExecutionConflict;
          plan ← first plans (Execution_PlanID execution);
          _ ← check (N.eqb (WorkItemID plan) workItem) ErrPlanExecutionParentMismatch;
          mret (execution, false)
      | None =>
          '(plan, gateID, rows, dependencies) ← loadApprovedExecutionSnapshot parent planID;
          live ← hasLiveUnassignedPlanStepLease (Plan_ID plan) (tick tx 1);
          _ ← check (negb live) ErrPlanExecutionConflict;
          hash ← lift (ApprovedPlanContentHash plan rows dependencies);
          id ← draw;
          let execution :=
            {| Execution_ID := id; Execution_AutomationTaskID := Task_ID parent; Execution_IdempotencyKey := key;
               Execution_PlanID := Plan_ID plan; PlanVersion := Version plan; Execution_ApprovedGateID := gateID;
               PlanHash := hash; MaxConcurrency := maxConcurrency; Execution_Status := DeliveryPlanExecutionPending;
               Execution_DispatchedAt := None; Execution_StartedAt := None; Execution_CompletedAt := None;
               Execution_CreatedAt := now; Execution_UpdatedAt := now |} in
          _ ← create_execution execution;
          mret (execution, true)
      end
  end.

(** ** Machines for steps *)

(** One snapshot of the loop; [None] skips it. *)
Definition frozen_workspace (s : DeliveryContextSnapshot) : option string :=
  let reference := TrimSpace (Reference s) in
  if negb (EqualFold (TrimSpace (Snapshot_Kind s)) "repository") || negb (HasPrefix reference "workspace://") then None
  else Some (TrimPrefix reference "workspace://").
Fixpoint frozen_ids (seen : gset string) (snapshots : list DeliveryContextSnapshot) : Result StoreError (list string) :=
  match snapshots with
  | [] => Ok []
  | s :: rest =>
      match frozen_workspace s with
      | None => frozen_ids seen rest
      | Some id =>
          if negb (frozenWorkspaceIDPattern id) then Err ErrNoEligibleAgentMachine
          else if bool_decide (id ∈ seen) then frozen_ids seen rest
          else ids ← frozen_ids ({[id]} ∪ seen) rest; Ok (id :: ids)
      end
  end.
Definition frozenLocalWorkspaceIDs (workItemID : uuid) : T (list string) :=
  rows ← read (λ db, filter (λ s, Snapshot_WorkItemID s = workItemID) (snapshots (dispatch db)));
  ids ← lift (frozen_ids ∅ rows);
  mret (sort_strings ids).

Definition stored_heartbeat (h : AutomationAgentHeartbeat) : AutomationAgentHeartbeat :=
  {| Heartbeat_WorkerID := Heartbeat_WorkerID h; Heartbeat_AgentKey := Heartbeat_AgentKey h; Heartbeat_MachineID := Heartbeat_MachineID h;
     Heartbeat_AgentInstanceID := Heartbeat_AgentInstanceID h; Concurrency := Concurrency h; Draining := Draining h;
     CapabilitiesJSON := jsonb_text (CapabilitiesJSON h); ProtocolsJSON := jsonb_text (ProtocolsJSON h);
     WorkspaceReadiness := jsonb_text (WorkspaceReadiness h); LastSeenAt := LastSeenAt h |}.
(** Heartbeats that satisfy [p], joined with the active profile of their agent. *)
Definition heartbeat_rows (p : AutomationAgentHeartbeat → bool) (db : DB) : list assignmentHeartbeatRow :=
  h ← filter (λ h, p h = true) (heartbeats (dispatch db));
  profile ← filter (λ profile, Active profile && String.eqb (Profile_AgentKey profile) (Heartbeat_AgentKey h) = true) (profiles (dispatch db));
  [{| row_heartbeat := stored_heartbeat h; ProfileOperationsJSON := jsonb_text (OperationsJSON profile) |}].
Definition heartbeat_key (row : assignmentHeartbeatRow) : assignmentTarget :=
  {| MachineTarget := Heartbeat_MachineID (row_heartbeat row); AgentTarget := Heartbeat_AgentKey (row_heartbeat row) |}.
(** The concurrency of the rows, summed by machine and profile. *)
Definition add_capacity (m : gmap assignmentTarget Z) (row : assignmentHeartbeatRow) : gmap assignmentTarget Z :=
  <[heartbeat_key row := (default 0 (m !! heartbeat_key row) + Concurrency (row_heartbeat row))%Z]> m.
Definition target_before (a b : assignmentTargetCandidate) : bool :=
  let '(ka, kb) := (Candidate_Key a, Candidate_Key b) in
  if negb (String.eqb (MachineTarget ka) (MachineTarget kb)) then String.ltb (MachineTarget ka) (MachineTarget kb)
  else String.ltb (AgentTarget ka) (AgentTarget kb).
(** The grouped count leaves out rows without a target. *)
Definition reserved_count (key : assignmentTarget) (db : DB) : Z :=
  if String.eqb (MachineTarget key) "" || String.eqb (AgentTarget key) "" then 0%Z else reservations db key.
Definition candidates_of (capacities : gmap assignmentTarget Z) (db : DB) : list assignmentTargetCandidate :=
  sort_by target_before
    ((λ p, {| Candidate_Key := p.1; Capacity := p.2; Reserved := reserved_count p.1 db |}) <$> map_to_list capacities).

Definition resolveAssignmentTargets (workItemID : uuid) (rows : list DeliveryPlanStep) (now : Z) : T (gmap uuid assignmentTarget) :=
  _ ← invalid_input (negb (N.eqb workItemID Nil || Nat.eqb (length rows) 0))
        "work item and ready plan steps are required to select a machine target";
  workspaceIDs ← frozenLocalWorkspaceIDs workItemID;
  _ ← check (negb (Nat.eqb (length workspaceIDs) 0)) ErrNoEligibleAgentMachine;
  let now := if Z.eqb now 0 then tick tx 1 else now in
  beats ← read (heartbeat_rows (λ h, Z.leb (now - assignmentHeartbeatMaxAge) (LastSeenAt h) && negb (Draining h) &&
                                     negb (String.eqb (Heartbeat_MachineID h) "")));
  let eligible := filter (λ row, assignmentHeartbeatEligible row workspaceIDs "" now = true) beats in
  let capacities := foldl add_capacity ∅ eligible in
  _ ← check (negb (Nat.eqb (size capacities) 0)) ErrNoEligibleAgentMachine;
  candidates ← read (candidates_of capacities);
  lift (allocateAssignmentTargets rows candidates).

(** ** [ReserveReadyAssignmentsInTransaction] *)

Definition execution_open (execution : DeliveryPlanExecution) : bool :=
  existsb (String.eqb (Execution_Status execution))
    [DeliveryPlanExecutionPending; DeliveryPlanExecutionDispatching; DeliveryPlanExecutionRunning].
Definition concurrency_valid (execution : DeliveryPlanExecution) : bool :=
  negb (Z.ltb (MaxConcurrency execution) 1 || Z.ltb DeliveryPlanExecutionMaxConcurrency (MaxConcurrency execution)).
Fixpoint validateChildTaskScopes (childTaskIDs : list uuid) (parent : uuid * uuid * uuid) : T unit :=
  match childTaskIDs with
  | [] => mret tt
  | childTaskID :: rest =>
      child ← read (λ db, organization_scope db childTaskID);
      _ ← check (bool_decide (child = Some parent)) ErrPlanExecutionParentMismatch;
      validateChildTaskScopes rest parent
  end.
Definition assignment_before (a b : DeliveryPlanStepAssignment) : bool :=
  N.ltb (DeliveryPlanStepID a) (DeliveryPlanStepID b) ||
  N.eqb (DeliveryPlanStepID a) (DeliveryPlanStepID b) && N.ltb (Assignment_ID a) (Assignment_ID b).
(** The loop over the existing rows: a row of another task or without a target is an error. *)
Fixpoint check_existing (childTaskIDs : gmap uuid uuid) (existing : list DeliveryPlanStepAssignment) : Result StoreError unit :=
  match existing with
  | [] => Ok tt
  | a :: rest =>
      _ ← fail_if (negb (N.eqb (default Nil (childTaskIDs !! DeliveryPlanStepID a)) (ChildAutomationTaskID a))) ErrPlanExecutionConflict;
      _ ← fail_if (String.eqb (TrimSpace (TargetMachineID a)) "" || String.eqb (TrimSpace (TargetAgentKey a)) "") ErrNoEligibleAgentMachine;
      check_existing childTaskIDs rest
  end.
Definition by_step (a b : DeliveryPlanStepAssignment) : bool := id_before (DeliveryPlanStepID a) (DeliveryPlanStepID b).

(** [tx.Create] of an assignment: its identity, its step in the execution and its child task
    must be new. *)
Definition create_assignment (a : DeliveryPlanStepAssignment) : T unit :=
  taken ← read (λ db, bool_decide (is_Some (assignments (dispatch db) !! Assignment_ID a)) || assigned db (ExecutionID a) (DeliveryPlanStepID a) ||
                      existsb (λ b, N.eqb (ChildAutomationTaskID b) (ChildAutomationTaskID a)) (values (assignments (dispatch db))));
  _ ← check (negb taken) UniqueViolation;
  write (λ db, set_dispatch (λ d, set_assignments (<[Assignment_ID a := a]> (assignments d)) d) db).
Definition new_assignment (id : uuid) (execution : DeliveryPlanExecution) (stepID childTaskID : uuid) (target : assignmentTarget) (now : Z) :
    DeliveryPlanStepAssignment :=
  {| Assignment_ID := id; ExecutionID := Execution_ID execution; DeliveryPlanStepID := stepID; ChildAutomationTaskID := childTaskID;
     TargetMachineID := MachineTarget target; TargetAgentKey := AgentTarget target;
     Assignment_Status := DeliveryPlanStepAssignmentPending; Assignment_QueuedAt := None; Assignment_DispatchedAt := None;
     Assignment_StartedAt := None; Assignment_CompletedAt := None; Assignment_CreatedAt := now; Assignment_UpdatedAt := now |}.
Fixpoint create_assignments (execution : DeliveryPlanExecution) (childTaskIDs : gmap uuid uuid) (targets : gmap uuid assignmentTarget)
    (now : Z) (rows : list DeliveryPlanStep) : T (list DeliveryPlanStepAssignment) :=
  match rows with
  | [] => mret []
  | step :: rest =>
      id ← draw;
      let a := new_assignment id execution (Step_ID step) (default Nil (childTaskIDs !! Step_ID step))
                 (default zeroTarget (targets !! Step_ID step)) now in
      _ ← create_assignment a;
      created ← create_assignments execution childTaskIDs targets now rest;
      mret (a :: created)
  end.

(** The part after the existing rows of the mapping are known. *)
Definition reserve_new (execution : DeliveryPlanExecution) (workItem : uuid) (limit : Z) (childTaskIDs : gmap uuid uuid)
    (existing : list DeliveryPlanStepAssignment) (newStepIDs : list uuid) (now : Z) : T (list DeliveryPlanStepAssignment) :=
  active ← read (λ db, activeCount db (Execution_ID execution));
  let available := (MaxConcurrency execution - active)%Z in
  let newLimit := Z.min (limit - Z.of_nat (length existing)) available in
  _ ← check (negb (Z.ltb newLimit (Z.of_nat (length newStepIDs)))) ErrPlanExecutionCapacity;
  readySteps ← read (λ db, stored_row <$> take (Z.to_nat newLimit) (select_steps (λ s,
      step_ready db (Execution_ID execution) (Execution_PlanID execution) s && bool_decide (Step_ID s ∈ newStepIDs) &&
      negb (locked tx (Step_ID s))) db));
  _ ← check (Nat.eqb (length readySteps) (length newStepIDs)) ErrPlanExecutionConflict;
  targets ← resolveAssignmentTargets workItem readySteps now;
  created ← create_assignments execution childTaskIDs targets now readySteps;
  mret (sort_by by_step (existing ++ created)%list).

Definition ReserveReadyAssignmentsInTransaction (executionID : uuid) (limit : Z) (childTaskIDs : gmap uuid uuid) (now : Z) :
    T (list DeliveryPlanStepAssignment) :=
  _ ← invalid_input (negb (N.eqb executionID Nil)) "execution_id is required";
  _ ← invalid_input (negb (Z.ltb limit 1 || Z.ltb DeliveryPlanExecutionMaxConcurrency limit)) "limit must be between 1 and 64";
  if Nat.eqb (size childTaskIDs) 0 then mret []
  else
    _ ← invalid_input (negb (Z.ltb limit (Z.of_nat (size childTaskIDs)) ||
                             Z.ltb DeliveryPlanExecutionMaxConcurrency (Z.of_nat (size childTaskIDs))))
          "child task mapping exceeds the requested reservation limit";
    let now := normalizeNow now in
    executionIdentity ← first (λ db, executions (dispatch db)) executionID;
    parent ← first tasks (Execution_AutomationTaskID executionIdentity);
    match DeliveryWorkItemID parent with
    | None => raise ErrPlanExecutionParentMismatch
    | Some workItem =>
        execution ← first (λ db, executions (dispatch db)) executionID;
        _ ← check (N.eqb (Execution_AutomationTaskID execution) (Task_ID parent) &&
                   N.eqb (Execution_ID execution) (Execution_ID executionIdentity)) ErrPlanExecutionConflict;
        _ ← invalid_input (concurrency_valid execution) "persisted execution max_concurrency is invalid";
        _ ← check (execution_open execution) ErrPlanExecutionConflict;
        found ← read (λ db, organization_scope db (Task_ID parent));
        match found with
        | None => raise ErrPlanExecutionParentMismatch
        | Some parentScope =>
            _ ← check (N.eqb parentScope.1.1 workItem) ErrPlanExecutionParentMismatch;
            '(plan, gateID, rows, dependencies) ← loadApprovedExecutionSnapshot parent (Execution_PlanID execution);
            _ ← check (Z.eqb (Version plan) (PlanVersion execution) && N.eqb gateID (Execution_ApprovedGateID execution))
                  ErrPlanExecutionApproval;
            hash ← lift (ApprovedPlanContentHash plan rows dependencies);
            _ ← check (String.eqb hash (PlanHash execution)) ErrPlanExecutionConflict;
            stepIDs ← lift (normalizeStepTaskMapping childTaskIDs);
            _ ← validateChildTaskScopes ((λ id, default Nil (childTaskIDs !! id)) <$> stepIDs) parentScope;
            existing ← read (λ db, sort_by assignment_before
              (assignments_where db (λ a, N.eqb (ExecutionID a) (Execution_ID execution) && bool_decide (DeliveryPlanStepID a ∈ stepIDs))));
            _ ← lift (check_existing childTaskIDs existing);
            let newStepIDs := filter (λ id, id ∉ DeliveryPlanStepID <$> existing) stepIDs in
            if Nat.eqb (length newStepIDs) 0 then mret (sort_by by_step existing)
            else reserve_new execution workItem limit childTaskIDs existing newStepIDs now
        end
    end.

(** ** [ReadyPlanStepsInTransaction] *)

Definition display_before (a b : DeliveryPlanStep) : bool :=
  if negb (Z.eqb (DisplayOrder a) (DisplayOrder b)) then Z.ltb (DisplayOrder a) (DisplayOrder b)
  else id_before (Step_ID a) (Step_ID b).
Definition ReadyPlanStepsInTransaction (executionID : uuid) : T (DeliveryPlanExecution * list DeliveryPlanStep) :=
  _ ← invalid_input (negb (N.eqb executionID Nil)) "transaction and execution_id are required";
  identity ← first (λ db, executions (dispatch db)) executionID;
  parent ← first tasks (Execution_AutomationTaskID identity);
  execution ← first (λ db, executions (dispatch db)) executionID;
  _ ← check (N.eqb (Execution_AutomationTaskID execution) (Task_ID parent) && bool_decide (is_Some (DeliveryWorkItemID parent)))
        ErrPlanExecutionParentMismatch;
  _ ← check (execution_open execution) ErrPlanExecutionConflict;
  _ ← invalid_input (concurrency_valid execution) "persisted execution max_concurrency is invalid";
  active ← read (λ db, activeCount db (Execution_ID execution));
  let capacity := (MaxConcurrency execution - active)%Z in
  if Z.leb capacity 0 then mret (execution, [])
  else
    rows ← read (λ db, stored_row <$> take (Z.to_nat capacity) (select_steps (λ s,
        step_ready db (Execution_ID execution) (Execution_PlanID execution) s && negb (locked tx (Step_ID s))) db));
    let rows := sort_by display_before rows in
    _ ← check (Z.leb (Z.of_nat (length rows)) capacity) ErrPlanExecutionCapacity;
    mret (execution, rows).
Definition ReadyRootStepsInTransaction (executionID : uuid) : T (DeliveryPlanExecution * list DeliveryPlanStep) :=
  ReadyPlanStepsInTransaction executionID.

(** ** [ValidateAssignmentWorker] *)

Definition is_live (lease : option Z) (now : Z) : bool := after_opt lease now.
Definition validateAssignmentClaimLeaseState (task : AutomationTask) (step : DeliveryPlanStep) (now : Z) : Result StoreError unit :=
  _ ← fail_if (is_live (Task_LeaseExpiresAt task) now) ErrNoEligibleAgentMachine;
  _ ← fail_if (is_live (LeaseExpiresAt step) now) ErrNoEligibleAgentMachine;
  _ ← fail_if (negb (String.eqb (Task_Status task) "pending" || String.eqb (Task_Status task) "queued" ||
                     String.eqb (Task_Status task) "running" && bool_decide (is_Some (Task_LeaseExpiresAt task)))) ErrNoEligibleAgentMachine;
  fail_if (negb (String.eqb (Status step) DeliveryPlanStepPlanned || String.eqb (Status step) DeliveryPlanStepReady ||
                 String.eqb (Status step) DeliveryPlanStepRunning && bool_decide (is_Some (LeaseExpiresAt step)))) ErrNoEligibleAgentMachine.
Definition validateAssignmentFailoverLease (task : AutomationTask) (step : DeliveryPlanStep) (now : Z) : Result StoreError unit :=
  _ ← validateAssignmentClaimLeaseState task step now;
  fail_if (String.eqb (Status step) DeliveryPlanStepRunning && negb (bool_decide (is_Some (LeaseExpiresAt step)))) ErrNoEligibleAgentMachine.
Definition beats_for (machineID agentKey : string) (h : AutomationAgentHeartbeat) : bool :=
  String.eqb (Heartbeat_MachineID h) machineID && String.eqb (Heartbeat_AgentKey h) agentKey.
Definition requireAssignmentTargetHeartbeatExpired (machineID agentKey : string) (now : Z) : T unit :=
  rows ← read (λ db, filter (λ h, beats_for machineID agentKey h = true) (heartbeats (dispatch db)));
  check (forallb (λ h, Z.ltb (LastSeenAt h) (now - assignmentHeartbeatMaxAge)) rows) ErrNoEligibleAgentMachine.
Definition lockAssignmentFailoverTarget (workerID machineID agentKey : string) (workspaceIDs : list string) (requiredAgentKey : string)
    (now : Z) : T (Z * bool) :=
  rows ← read (heartbeat_rows (λ h, beats_for machineID agentKey h && Z.leb (now - assignmentHeartbeatMaxAge) (LastSeenAt h) &&
                                    negb (Draining h)));
  let eligible := filter (λ row, assignmentHeartbeatEligible row workspaceIDs requiredAgentKey now = true) rows in
  mret (foldl (λ n row, n + Concurrency (row_heartbeat row))%Z 0%Z eligible,
        existsb (λ row, String.eqb (Heartbeat_WorkerID (row_heartbeat row)) workerID) eligible).
Definition validateCurrentAssignmentHeartbeat (workerID machineID agentKey : string) (workspaceIDs : list string)
    (requiredAgentKey : string) (now : Z) : T unit :=
  '(capacity, workerReady) ← lockAssignmentFailoverTarget workerID machineID agentKey workspaceIDs requiredAgentKey now;
  check (workerReady && negb (Z.ltb capacity 1)) ErrNoEligibleAgentMachine.

Definition moved_to (machineID : string) (now : Z) (a : DeliveryPlanStepAssignment) : DeliveryPlanStepAssignment :=
  {| Assignment_ID := Assignment_ID a; ExecutionID := ExecutionID a; DeliveryPlanStepID := DeliveryPlanStepID a;
     ChildAutomationTaskID := ChildAutomationTaskID a; TargetMachineID := machineID; TargetAgentKey := TargetAgentKey a;
     Assignment_Status := DeliveryPlanStepAssignmentQueued; Assignment_QueuedAt := Assignment_QueuedAt a;
     Assignment_DispatchedAt := Assignment_DispatchedAt a; Assignment_StartedAt := Assignment_StartedAt a;
     Assignment_CompletedAt := Assignment_CompletedAt a; Assignment_CreatedAt := Assignment_CreatedAt a; Assignment_UpdatedAt := now |}.
(** The failover branch: the row as it is after it. *)
Definition fail_over (task : AutomationTask) (step : DeliveryPlanStep) (current : DeliveryPlanStepAssignment)
    (workerID machineID : string) (workspaceIDs : list string) (now : Z) : T DeliveryPlanStepAssignment :=
  _ ← lift (validateAssignmentFailoverLease task step now);
  _ ← requireAssignmentTargetHeartbeatExpired (TargetMachineID current) (TargetAgentKey current) now;
  '(capacity, candidateReady) ←
    lockAssignmentFailoverTarget workerID machineID (TargetAgentKey current) workspaceIDs (AgentKey step) now;
  _ ← check candidateReady ErrNoEligibleAgentMachine;
  reserved ← read (λ db, reservations db {| MachineTarget := machineID; AgentTarget := TargetAgentKey current |});
  _ ← check (negb (Z.leb capacity reserved)) ErrNoEligibleAgentMachine;
  row ← read (λ db, assignments (dispatch db) !! Assignment_ID current);
  _ ← check (match row with
             | Some row =>
                 N.eqb (ChildAutomationTaskID row) (Task_ID task) && String.eqb (TargetMachineID row) (TargetMachineID current) &&
                 String.eqb (TargetAgentKey row) (TargetAgentKey current) && isActiveAssignmentStatus (Assignment_Status row)
             | None => false
             end) ErrNoEligibleAgentMachine;
  _ ← write (λ db, set_dispatch (λ d, set_assignments (alter (moved_to machineID now) (Assignment_ID current) (assignments d)) d) db);
  mret (moved_to machineID now current).

(** The clock reading and the row written back through [assignment]. *)
Definition ValidateAssignmentWorker (assignment : DeliveryPlanStepAssignment) (workItemID : uuid) (workerID agentKey machineID : string) :
    T (Z * DeliveryPlanStepAssignment) :=
  _ ← check (negb (N.eqb (Assignment_ID assignment) Nil || N.eqb (ChildAutomationTaskID assignment) Nil ||
                   N.eqb (DeliveryPlanStepID assignment) Nil || N.eqb workItemID Nil ||
                   String.eqb (TrimSpace (TargetMachineID assignment)) "" || String.eqb (TrimSpace (TargetAgentKey assignment)) "" ||
                   String.eqb (TrimSpace workerID) "" ||
                   negb (String.eqb (TrimSpace agentKey) (TrimSpace (TargetAgentKey assignment))) ||
                   String.eqb (TrimSpace machineID) "")) ErrNoEligibleAgentMachine;
  task ← first tasks (ChildAutomationTaskID assignment);
  let now := tick tx 0 in
  _ ← check (bool_decide (DeliveryWorkItemID task = Some workItemID)) ErrNoEligibleAgentMachine;
  current ← take_row (λ db, row ← assignments (dispatch db) !! Assignment_ID assignment;
                            if N.eqb (ChildAutomationTaskID row) (Task_ID task) then Some row else None);
  _ ← check (N.eqb (ExecutionID current) (ExecutionID assignment) && N.eqb (DeliveryPlanStepID current) (DeliveryPlanStepID assignment) &&
             String.eqb (TargetAgentKey current) (TargetAgentKey assignment)) ErrNoEligibleAgentMachine;
  _ ← check (isActiveAssignmentStatus (Assignment_Status current)) ErrNoEligibleAgentMachine;
  step ← first steps (DeliveryPlanStepID current);
  workspaceIDs ← frozenLocalWorkspaceIDs workItemID;
  _ ← check (negb (Nat.eqb (length workspaceIDs) 0)) ErrNoEligibleAgentMachine;
  current ← (if String.eqb (TargetMachineID current) machineID then mret current
             else fail_over task step current workerID machineID workspaceIDs now);
  _ ← check (String.eqb (TargetAgentKey current) agentKey && String.eqb (TargetMachineID current) machineID) ErrNoEligibleAgentMachine;
  _ ← validateCurrentAssignmentHeartbeat workerID machineID (TargetAgentKey current) workspaceIDs (AgentKey step) now;
  mret (now, current).

(** ** [ValidateStepProtocolWorker] *)

Definition ValidateStepProtocolWorker (workerID agentKey machineID : string) (instanceID : uuid) (now : Z) : T unit :=
  _ ← check (negb (String.eqb (TrimSpace workerID) "" || String.eqb (TrimSpace agentKey) "" || String.eqb (TrimSpace machineID) "" ||
                   N.eqb instanceID Nil)) ErrNoEligibleAgentMachine;
  let now := normalizeNow now in
  found ← read (λ db, head (filter (λ h,
    String.eqb (Heartbeat_WorkerID h) workerID && beats_for machineID agentKey h &&
    bool_decide (Heartbeat_AgentInstanceID h = Some instanceID) && heartbeat_fresh h now = true) (heartbeats (dispatch db))));
  match stored_heartbeat <$> found with
  | None => raise ErrNoEligibleAgentMachine
  | Some h =>
      _ ← check (negb (Draining h || negb (heartbeat_fresh h now))) ErrNoEligibleAgentMachine;
      check (match unmarshalled (ProtocolsJSON h) with
             | Some protocols => supportsDeliveryPlanStepsProtocol protocols
             | None => false
             end) ErrNoEligibleAgentMachine
  end.
End Dispatch.
