(* ===== verification/PlanDispatchFacts.v ===== *)
(** * Lemmas on the dispatch of a plan

    Which tables each transaction leaves alone ([keeps]), the invariant of the dispatch tables
    ([bindings]) and the counts of active assignments. *)
From stdpp Require Import base tactics list strings gmap.
From Stdlib Require Import Ascii.
From S2P Require Import Prelude GoStrings GoSort Json PlanGraph Workflow PlanStore PlanStored PlanEnsure PlanLease PlanLeaseFacts PlanAssign PlanAssignFacts PlanDispatch.
Open Scope string_scope.

(** ** What a transaction may change *)

Definition keeps {A} (R : relation DB) (m : T A) : Prop := ∀ db a db', m db = Ok (a, db') → R db db'.

Section Keeps.
Context (R : relation DB) `{!PreOrder R}.

Lemma leaves_ret {A} (a : A) : keeps R (mret a : T A).
Proof. by intros db x db' [= _ <-]. Qed.
Lemma keeps_raise {A} e : keeps R (raise e : T A).
Proof. by intros db x db'. Qed.
Lemma keeps_check ok e : keeps R (check ok e).
Proof. by intros db x db' [_ ->]%check_ok. Qed.
Lemma keeps_lift {A} (r : Result StoreError A) : keeps R (lift r).
Proof. by intros db x db' [_ ->]%lift_ok. Qed.
Lemma keeps_read {A} (f : DB → A) : keeps R (read f).
Proof. by intros db x db' [= _ <-]. Qed.
Lemma keeps_first {A} (table : DB → gmap uuid A) id : keeps R (first table id).
Proof. by intros db x db' [_ ->]%first_ok. Qed.
Lemma leaves_bind {A B} (m : T A) (f : A → T B) : keeps R m → (∀ a, keeps R (f a)) → keeps R (m ≫= f).
Proof. intros Hm Hf db b db' (a & db1 & H1 & H2)%T_bind_ok. etrans; [by eapply Hm|by eapply Hf]. Qed.
Lemma keeps_write f : (∀ db, R db (f db)) → keeps R (write f).
Proof. intros H db u db' [= _ <-]. apply H. Qed.
End Keeps.

(** The transactions known to keep a relation. *)
Create HintDb keeps.
(** Goes through the code; what is left are the writes. *)
Ltac keeps_through :=
  repeat lazymatch goal with
    | |- keeps _ (mret _) => apply leaves_ret; typeclasses eauto
    | |- keeps _ (raise _) => apply keeps_raise; typeclasses eauto
    | |- keeps _ (check _ _) => apply keeps_check; typeclasses eauto
    | |- keeps _ (lift _) => apply keeps_lift; typeclasses eauto
    | |- keeps _ (read _) => apply keeps_read; typeclasses eauto
    | |- keeps _ (first _ _) => apply keeps_first; typeclasses eauto
    | |- keeps _ (write _) => apply keeps_write; intros ?
    | |- keeps _ (_ ≫= _) => apply leaves_bind; [typeclasses eauto| |intros ?; cbv beta]
    | |- keeps _ (match ?x with _ => _ end) => destruct x
    | |- keeps _ _ => solve [eauto with keeps nocore]
    end.

(** Everything but the dispatch tables is as before. *)
Record same_plans (db db' : DB) : Prop := {
  same_rows : plans db' = plans db ∧ tasks db' = tasks db ∧ steps db' = steps db;
  same_log : edges db' = edges db ∧ events db' = events db;
}.
#[export] Instance same_plans_pre : PreOrder same_plans.
Proof. split; [by intros []|]. intros d1 d2 d3 [(?&?&?) (?&?)] [(?&?&?) (?&?)]. split; split_and!; congruence. Qed.
Definition same_dispatch (db db' : DB) : Prop := dispatch db' = dispatch db.
#[export] Instance same_dispatch_pre : PreOrder same_dispatch.
Proof. split; [by intros ?|]. unfold same_dispatch. intros d1 d2 d3 ? ?. congruence. Qed.
Definition unchanged (db db' : DB) : Prop := db' = db.
#[export] Instance unchanged_pre : PreOrder unchanged.
Proof. split; [by intros ?|]. unfold unchanged. intros d1 d2 d3 ? ?. congruence. Qed.

Section Lease.
Context {unicode : GoUnicode} {text : UuidText} (tx : Tx).

Lemma lease_keeps_dispatch : (∀ input target, keeps same_dispatch (claimReadyStepInTransaction tx input target)) ∧
  (∀ input, keeps same_dispatch (RenewStepLeaseInTransaction tx input)) ∧
  (∀ input, keeps same_dispatch (TransitionStepInTransaction tx input)).
Proof.
  assert (∀ id f, keeps same_dispatch (updatePlanStep id f)) as Hu by (intros; unfold updatePlanStep; keeps_through; unfold same_dispatch; done).
  assert (∀ s ty f t sm task fence now, keeps same_dispatch (createStepEvent tx s ty f t sm task fence now)) as He
    by (intros; unfold createStepEvent; keeps_through; unfold same_dispatch; done).
  assert (∀ i o, keeps same_dispatch (loadLeasedTask tx i o)) as Hl by (intros; unfold loadLeasedTask; keeps_through).
  assert (∀ id i f t o r, keeps same_dispatch (loadFencedStep tx id i f t o r)) as Hf by (intros; unfold loadFencedStep; keeps_through).
  split; [|split].
  - intros. unfold claimReadyStepInTransaction, takeStep. keeps_through.
  - intros. unfold RenewStepLeaseInTransaction. keeps_through.
  - intros. unfold TransitionStepInTransaction. keeps_through.
Qed.
End Lease.

(** ** Counting rows *)

Section Count.
Context {A : Type}.
Definition count (p : A → bool) (t : gmap uuid A) : nat := length (filter (λ a, p a = true) (values t)).
Definition one (b : bool) : nat := if b then 1 else 0.
Lemma count_fresh p (t : gmap uuid A) id a : t !! id = None → count p (<[id := a]> t) = (one (p a) + count p t)%nat.
Proof.
  intros H. unfold count, values, one. rewrite map_to_list_insert by done. rewrite fmap_cons. cbn [snd].
  destruct (p a) eqn:Hp; [by rewrite filter_cons_True|by rewrite filter_cons_False by (by rewrite Hp)].
Qed.
Lemma count_replace p (t : gmap uuid A) id a b : t !! id = Some a → (one (p a) + count p (<[id := b]> t) = one (p b) + count p t)%nat.
Proof.
  intros H. pose proof (lookup_delete_eq t id) as Hd. pose proof (count_fresh p _ _ a Hd) as Ha. pose proof (count_fresh p _ _ b Hd) as Hb.
  rewrite insert_delete_eq in Ha, Hb. rewrite (insert_id t id a H) in Ha. lia.
Qed.
Lemma elem_of_values (t : gmap uuid A) a : a ∈ values t ↔ ∃ id, t !! id = Some a.
Proof.
  unfold values. rewrite list_elem_of_fmap. split.
  - intros ([id x] & -> & H%elem_of_map_to_list). by exists id.
  - intros [id H]. exists (id, a). by rewrite elem_of_map_to_list.
Qed.
Lemma count_none p (t : gmap uuid A) : (∀ id a, t !! id = Some a → p a = false) → count p t = 0%nat.
Proof.
  intros H. unfold count. apply length_zero_iff_nil. destruct (filter _ _) as [|a l] eqn:Hf; [done|].
  assert (a ∈ filter (λ a, p a = true) (values t)) as [Hp [id Hid]%elem_of_values]%list_elem_of_filter by (rewrite Hf; by left).
  by rewrite (H id a Hid) in Hp.
Qed.
End Count.

Lemma activeCount_count db id : activeCount db id = Z.of_nat (count (is_active_for id) (assignments (dispatch db))).
Proof. done. Qed.
Lemma reservations_count db key : reservations db key = Z.of_nat (count (reserves key) (assignments (dispatch db))).
Proof. done. Qed.
Lemma assigned_iff db executionID stepID : assigned db executionID stepID = true ↔
  ∃ id a, assignments (dispatch db) !! id = Some a ∧ ExecutionID a = executionID ∧ DeliveryPlanStepID a = stepID.
Proof.
  unfold assigned. rewrite existsb_exists. split.
  - intros (a & [id Ha]%list_elem_of_In%elem_of_values & [H1%N.eqb_eq H2%N.eqb_eq]%andb_true_iff). by exists id, a.
  - intros (id & a & Ha & <- & <-). exists a. split; [apply list_elem_of_In, elem_of_values; by exists id|]. by rewrite !N.eqb_refl.
Qed.

(** ** The invariant of the dispatch tables *)

(** One execution for a task, one assignment for a step of an execution and for a child task. *)
Record bindings (db : DB) : Prop := {
  executions_keyed : ∀ id e, executions (dispatch db) !! id = Some e → Execution_ID e = id;
  execution_limits : ∀ id e, executions (dispatch db) !! id = Some e → (1 ≤ MaxConcurrency e ≤ DeliveryPlanExecutionMaxConcurrency)%Z;
  execution_once : ∀ id1 e1 id2 e2, executions (dispatch db) !! id1 = Some e1 → executions (dispatch db) !! id2 = Some e2 →
    Execution_AutomationTaskID e1 = Execution_AutomationTaskID e2 → id1 = id2;
  assignment_keyed : ∀ id a, assignments (dispatch db) !! id = Some a → Assignment_ID a = id;
  assignment_execution : ∀ id a, assignments (dispatch db) !! id = Some a → is_Some (executions (dispatch db) !! ExecutionID a);
  assignment_once : ∀ id1 a1 id2 a2, assignments (dispatch db) !! id1 = Some a1 → assignments (dispatch db) !! id2 = Some a2 →
    ExecutionID a1 = ExecutionID a2 ∧ DeliveryPlanStepID a1 = DeliveryPlanStepID a2 ∨
    ChildAutomationTaskID a1 = ChildAutomationTaskID a2 → id1 = id2;
}.
(** No execution has more active assignments than it allows. *)
Definition within_limits (db : DB) : Prop := ∀ id e, executions (dispatch db) !! id = Some e → (activeCount db id ≤ MaxConcurrency e)%Z.

Lemma execution_of_Some db taskID e : execution_of db taskID = Some e →
  Execution_AutomationTaskID e = taskID ∧ ∃ id, executions (dispatch db) !! id = Some e.
Proof.
  unfold execution_of. intros H. assert (e ∈ filter (λ e, Execution_AutomationTaskID e = taskID) (values (executions (dispatch db)))) as Hin.
  { destruct (filter _ _); [done|]. injection H as ->. by left. }
  by apply list_elem_of_filter in Hin as [? ?%elem_of_values].
Qed.
Lemma execution_of_None db taskID : execution_of db taskID = None →
  ∀ id e, executions (dispatch db) !! id = Some e → Execution_AutomationTaskID e ≠ taskID.
Proof.
  unfold execution_of. intros H id e He Heq.
  assert (e ∈ filter (λ e, Execution_AutomationTaskID e = taskID) (values (executions (dispatch db)))) as Hin.
  { apply list_elem_of_filter. split; [done|]. apply elem_of_values. by exists id. }
  destruct (filter _ _); [by apply not_elem_of_nil in Hin|done].
Qed.
Lemma execution_of_row db id e : bindings db → executions (dispatch db) !! id = Some e →
  execution_of db (Execution_AutomationTaskID e) = Some e.
Proof.
  intros Hb He. destruct (execution_of db (Execution_AutomationTaskID e)) as [e'|] eqn:Hx.
  - apply execution_of_Some in Hx as (Heq & id' & He'). pose proof (execution_once _ Hb _ _ _ _ He' He Heq) as ->. congruence.
  - by apply execution_of_None with (id := id) (e := e) in Hx.
Qed.

(** ** Reading transactions *)

Section Transactions.
Context {unicode : GoUnicode} {text : UuidText} {jsonb : Jsonb} {map_range : GoMapRange} {ranged : GoMappingRange} (tx : Tx).

Lemma keeps_validateChildTaskScopes ids parent : keeps unchanged (validateChildTaskScopes ids parent).
Proof. induction ids; cbn [validateChildTaskScopes]; keeps_through. Qed.
Lemma keeps_take_row {A} (query : DB → option A) : keeps unchanged (take_row query).
Proof. unfold take_row. keeps_through. Qed.
Lemma keeps_snapshot parent planID : keeps unchanged (loadApprovedExecutionSnapshot parent planID).
Proof. unfold loadApprovedExecutionSnapshot. keeps_through. Qed.
Lemma keeps_live planID now : keeps unchanged (hasLiveUnassignedPlanStepLease planID now).
Proof. unfold hasLiveUnassignedPlanStepLease, invalid_input. keeps_through. Qed.
Lemma keeps_frozen id : keeps unchanged (frozenLocalWorkspaceIDs id).
Proof. unfold frozenLocalWorkspaceIDs. keeps_through. Qed.
Lemma keeps_expired machine agent now : keeps unchanged (requireAssignmentTargetHeartbeatExpired machine agent now).
Proof. unfold requireAssignmentTargetHeartbeatExpired. keeps_through. Qed.
Lemma keeps_target worker machine agent ids required now : keeps unchanged (lockAssignmentFailoverTarget worker machine agent ids required now).
Proof. unfold lockAssignmentFailoverTarget. keeps_through. Qed.
Hint Resolve keeps_validateChildTaskScopes keeps_take_row keeps_snapshot keeps_live keeps_frozen keeps_expired keeps_target : keeps.
Lemma keeps_resolve item rows now : keeps unchanged (resolveAssignmentTargets tx item rows now).
Proof. unfold resolveAssignmentTargets, invalid_input. keeps_through. Qed.
Lemma keeps_current worker machine agent ids required now : keeps unchanged (validateCurrentAssignmentHeartbeat worker machine agent ids required now).
Proof. unfold validateCurrentAssignmentHeartbeat. keeps_through. Qed.
Lemma keeps_ready id : keeps unchanged (ReadyPlanStepsInTransaction tx id).
Proof. unfold ReadyPlanStepsInTransaction, invalid_input. keeps_through. Qed.

(** [draw] only counts. *)
Definition drew (db db' : DB) : Prop := same_plans db db' ∧ dispatch db' = dispatch db.
Lemma draw_run db id db' : draw tx db = Ok (id, db') → drew db db'.
Proof.
  unfold draw. intros (n & d1 & [= <- <-] & H)%T_bind_ok. destruct (fresh tx (drawn db)) as [x|]; [|done].
  apply T_bind_ok in H as (u & d2 & [= _ <-] & [= _ <-]). by split.
Qed.

(** ** Writing transactions *)

Lemma create_execution_run e db u db' : create_execution e db = Ok (u, db') →
  same_plans db db' ∧ executions (dispatch db) !! Execution_ID e = None ∧ execution_of db (Execution_AutomationTaskID e) = None ∧
  dispatch db' = set_executions (<[Execution_ID e := e]> (executions (dispatch db))) (dispatch db).
Proof.
  unfold create_execution. intros (taken & d1 & Hr & H)%T_bind_ok. apply T_bind_ok in H as (u1 & d2 & Hc & H). tx_facts.
  apply negb_true_iff, orb_false_iff in Hc as [H1%bool_decide_eq_false H2%bool_decide_eq_false].
  split; [done|]. split; [by apply eq_None_not_Some|]. split; [by apply eq_None_not_Some|done].
Qed.
Lemma create_assignment_run a db u db' : create_assignment a db = Ok (u, db') →
  same_plans db db' ∧ assignments (dispatch db) !! Assignment_ID a = None ∧ assigned db (ExecutionID a) (DeliveryPlanStepID a) = false ∧
  (∀ id b, assignments (dispatch db) !! id = Some b → ChildAutomationTaskID b ≠ ChildAutomationTaskID a) ∧
  dispatch db' = set_assignments (<[Assignment_ID a := a]> (assignments (dispatch db))) (dispatch db).
Proof.
  unfold create_assignment. intros (taken & d1 & Hr & H)%T_bind_ok. apply T_bind_ok in H as (u1 & d2 & Hc & H). tx_facts.
  rewrite negb_true_iff, !orb_false_iff in Hc. destruct Hc as [[H1%bool_decide_eq_false H2] H3].
  split; [done|]. split; [by apply eq_None_not_Some|]. split; [done|]. split; [|done].
  intros id b Hb Heq. apply not_true_iff_false in H3. apply H3, existsb_exists. exists b. split; [|by apply N.eqb_eq].
  apply list_elem_of_In, elem_of_values. by exists id.
Qed.

(** The rows [create_assignments] adds, in the order of the steps. *)
Definition row_for (execution : DeliveryPlanExecution) (childTaskIDs : gmap uuid uuid) (targets : gmap uuid assignmentTarget) (now : Z)
    (a : DeliveryPlanStepAssignment) (step : DeliveryPlanStep) : Prop :=
  a = new_assignment (Assignment_ID a) execution (Step_ID step) (default Nil (childTaskIDs !! Step_ID step))
        (default zeroTarget (targets !! Step_ID step)) now.
Lemma create_assignments_run execution children targets now rows : ∀ db created db',
  create_assignments tx execution children targets now rows db = Ok (created, db') →
  Forall2 (row_for execution children targets now) created rows ∧ same_plans db db' ∧
  executions (dispatch db') = executions (dispatch db) ∧
  (∀ p, count p (assignments (dispatch db')) = (length (filter (λ a, p a = true) created) + count p (assignments (dispatch db)))%nat) ∧
  (∀ id a, assignments (dispatch db') !! id = Some a ↔ a ∈ created ∧ Assignment_ID a = id ∨ assignments (dispatch db) !! id = Some a) ∧
  (is_Some (executions (dispatch db) !! Execution_ID execution) → bindings db → bindings db').
Proof.
  induction rows as [|step rows IH]; intros db created db' H; cbn [create_assignments] in H.
  { injection H as <- <-. split; [constructor|]. split; [done|]. split; [done|]. split; [done|]. split; [|done].
    intros id a. split; [by right|intros [[?%not_elem_of_nil _]|]; done]. }
  apply T_bind_ok in H as (id & d1 & [Hs1 Hd1]%draw_run & H). cbv zeta in H.
  set (a := new_assignment _ _ _ _ _ _) in H. apply T_bind_ok in H as (u & d2 & Hc & H).
  apply create_assignment_run in Hc as (Hs2 & Hnew & Hfree & Hchild & Hd2). rewrite Hd1 in Hnew, Hchild, Hd2.
  apply T_bind_ok in H as (rest & d3 & Hr & H). injection H as <- <-.
  apply IH in Hr as (Hrows & Hs3 & Hex & Hcount & Hlook & Hb). rewrite Hd2 in Hex, Hcount, Hlook, Hb. cbn in Hex, Hcount, Hlook, Hb.
  split; [constructor; [done|exact Hrows]|]. split; [etrans; [exact Hs1|]; etrans; [exact Hs2|exact Hs3]|]. split; [done|]. split; [|split].
  - intros p. rewrite Hcount, count_fresh by done. unfold one.
    destruct (p a) eqn:Hp; [rewrite filter_cons_True by done; cbn; lia|rewrite filter_cons_False by (by rewrite Hp); lia].
  - intros i x. rewrite Hlook, elem_of_cons, lookup_insert_Some. split.
    + intros [[Hin <-]|[[<- <-]|[_ Hx]]]; auto.
    + intros [[[->|Hin] <-]|Hx]; [by right; left|by left|]. right. right. split; [|done]. intros <-. change (Assignment_ID a) with id in Hnew. congruence.
  - intros Hexe [B1 B2 B3 B4 B5 B6]. apply Hb; [done|].
    assert (∀ i x, assignments (dispatch db) !! i = Some x → ¬ (ExecutionID a = ExecutionID x ∧ DeliveryPlanStepID a = DeliveryPlanStepID x)) as Hnot.
    { intros i x Hx [H1 H2]. assert (assigned d1 (ExecutionID a) (DeliveryPlanStepID a) = true) as Ht; [|by rewrite Ht in Hfree].
      apply assigned_iff. exists i, x. by rewrite Hd1. }
    split; rewrite ?Hd2; cbn; try done.
    + intros i x [[<- <-]|[_ Hx]]%lookup_insert_Some; [done|by apply B4].
    + intros i x [[<- <-]|[_ Hx]]%lookup_insert_Some; [done|by eapply B5].
    + intros i1 a1 i2 a2 [[<- <-]|[Hn1 H1]]%lookup_insert_Some [[<- <-]|[Hn2 H2]]%lookup_insert_Some Heq; [done|..|by eapply B6].
      * destruct Heq as [[E1 E2]|E]; [by destruct (Hnot _ _ H2)|]. by destruct (Hchild _ _ H2).
      * destruct Heq as [[E1 E2]|E]; [by destruct (Hnot _ _ H1)|]. by destruct (Hchild _ _ H1).
Qed.

(** ** Machines *)

(** The concurrency eligible heartbeats report for a machine and profile. *)
Definition concurrency_of (key : assignmentTarget) (rows : list assignmentHeartbeatRow) : Z :=
  foldr Z.add 0%Z ((λ row, Concurrency (row_heartbeat row)) <$> filter (λ row, heartbeat_key row = key) rows).
Lemma concurrency_cons key row rows : concurrency_of key (row :: rows) =
  ((if decide (heartbeat_key row = key) then Concurrency (row_heartbeat row) else 0) + concurrency_of key rows)%Z.
Proof. unfold concurrency_of. rewrite filter_cons. by destruct (decide _). Qed.
Lemma capacities_lookup rows : ∀ m key c, foldl add_capacity m rows !! key = Some c →
  c = (default 0 (m !! key) + concurrency_of key rows)%Z ∧ (is_Some (m !! key) ∨ ∃ row, row ∈ rows ∧ heartbeat_key row = key).
Proof.
  induction rows as [|row rows IH]; intros m key c H; cbn [foldl] in H.
  { rewrite H. unfold concurrency_of. cbn. split; [lia|]. left. by eexists. }
  apply IH in H as [-> Hin]. rewrite concurrency_cons. unfold add_capacity in *. destruct (decide (heartbeat_key row = key)) as [<-|Hne].
  - rewrite lookup_insert_eq. cbn. split; [lia|]. right. exists row. split; [by left|done].
  - rewrite lookup_insert_ne by done. split; [lia|]. rewrite lookup_insert_ne in Hin by done.
    destruct Hin as [|(r & Hr & <-)]; [by left|]. right. exists r. split; [by right|done].
Qed.

(** The heartbeats a reservation at [now] may use. *)
Definition eligible_rows (workspaceIDs : list string) (now : Z) (db : DB) : list assignmentHeartbeatRow :=
  filter (λ row, assignmentHeartbeatEligible row workspaceIDs "" now = true)
    (heartbeat_rows (λ h, Z.leb (now - assignmentHeartbeatMaxAge) (LastSeenAt h) && negb (Draining h) &&
                          negb (String.eqb (Heartbeat_MachineID h) "")) db).
Lemma elem_of_heartbeat_rows p db row : row ∈ heartbeat_rows p db ↔
  ∃ h profile, h ∈ heartbeats (dispatch db) ∧ p h = true ∧ profile ∈ profiles (dispatch db) ∧ Active profile = true ∧
    Profile_AgentKey profile = Heartbeat_AgentKey h ∧
    row = {| row_heartbeat := stored_heartbeat h; ProfileOperationsJSON := jsonb_text (OperationsJSON profile) |}.
Proof.
  unfold heartbeat_rows. rewrite list_elem_of_bind. split.
  - intros (h & Hrow & [Hp Hh]%list_elem_of_filter). apply list_elem_of_bind in Hrow as (profile & ->%list_elem_of_singleton & [Ha Hpr]%list_elem_of_filter).
    apply andb_true_iff in Ha as [Ha ?%String.eqb_eq]. by exists h, profile.
  - intros (h & profile & Hh & Hp & Hpr & Ha & Hk & ->). exists h. split; [|by apply list_elem_of_filter].
    apply list_elem_of_bind. exists profile. split; [by apply list_elem_of_singleton|]. apply list_elem_of_filter. rewrite Ha, Hk, String.eqb_refl. done.
Qed.
Lemma eligible_key ids now db row : row ∈ eligible_rows ids now db →
  MachineTarget (heartbeat_key row) ≠ "" ∧ AgentTarget (heartbeat_key row) ≠ "".
Proof.
  intros [He (h & profile & _ & Hp & _ & _ & _ & ->)%elem_of_heartbeat_rows]%list_elem_of_filter. cbn.
  apply andb_true_iff in Hp as [_ Hp]. apply negb_true_iff, String.eqb_neq in Hp. split; [done|].
  unfold assignmentHeartbeatEligible in He. cbn in He. rewrite !andb_true_iff, !negb_true_iff, !orb_false_iff, !String.eqb_neq in He. tauto.
Qed.

(** The machine of a heartbeat may run plan steps on these workspaces: it reported in time,
    accepts work and speaks the protocol, its profile implements deliveries, and it has each
    workspace ready in a container sandbox. *)
Record accepts_work (row : assignmentHeartbeatRow) (workspaceIDs : list string) (now : Z) : Prop := {
  accepts_fresh : Draining (row_heartbeat row) = false ∧ (1 ≤ Concurrency (row_heartbeat row) ≤ 8)%Z ∧
    (now - assignmentHeartbeatMaxAge ≤ LastSeenAt (row_heartbeat row) ≤ now + heartbeat_future)%Z;
  accepts_deliveries : ∃ operations protocols, unmarshalled (ProfileOperationsJSON row) = Some operations ∧
    containsAssignmentOperation operations = true ∧
    unmarshalled (ProtocolsJSON (row_heartbeat row)) = Some protocols ∧ supportsDeliveryPlanStepsProtocol protocols = true;
  accepts_workspaces : ∃ readiness, UnmarshalReadiness (WorkspaceReadiness (row_heartbeat row)) = Some readiness ∧
    ∀ id, id ∈ workspaceIDs → ∃ w, w ∈ readiness ∧ Workspace_ID w = id ∧ Ready w = true ∧ SandboxReady w = true ∧
      EqualFold (TrimSpace (IsolationMode w)) "docker_container" = true;
}.
Lemma ready_workspaces_entry readiness : ∀ m m' id, ready_workspaces m readiness = Some m' → m' !! id = Some true →
  m !! id = Some true ∨ ∃ w, w ∈ readiness ∧ Workspace_ID w = id ∧ workspace_ready w = true.
Proof.
  induction readiness as [|w readiness IH]; intros m m' id H Hid; cbn [ready_workspaces] in H; [left; congruence|].
  destruct (negb _); [done|]. destruct (bool_decide _); [done|].
  destruct (IH _ _ _ H Hid) as [[[<- Hw]|[_ Hm]]%lookup_insert_Some|(x & Hx & ?)]; [right|by left|right].
  - exists w. split; [by left|done].
  - exists x. split; [by right|done].
Qed.
Lemma eligible_accepts ids required now row : assignmentHeartbeatEligible row ids required now = true → accepts_work row ids now.
Proof.
  unfold assignmentHeartbeatEligible. rewrite !andb_true_iff, negb_true_iff, !orb_false_iff, negb_false_iff, !Z.ltb_ge.
  intros [[[[[[[[[[[[[_ _] H1] H2] H3] H4] _] _] _] _] Hops] _] Hpro] Hws].
  unfold heartbeat_fresh in H4. rewrite andb_true_iff, !Z.leb_le in H4. split; [done| |].
  - destruct (unmarshalled (ProfileOperationsJSON row)) as [operations|]; [|done].
    destruct (unmarshalled (ProtocolsJSON (row_heartbeat row))) as [protocols|]; [|done]. by exists operations, protocols.
  - destruct (UnmarshalReadiness _) as [readiness|]; [|done]. cbn in Hws. exists readiness. split; [done|].
    destruct (ready_workspaces ∅ readiness) as [m|] eqn:Hm; [|done]. rewrite forallb_forall in Hws. intros id Hid%list_elem_of_In%Hws.
    destruct (m !! id) as [b|] eqn:Hb; cbn in Hid; [|done]. subst b.
    destruct (ready_workspaces_entry _ _ _ _ Hm Hb) as [He|(w & Hw & <- & Hr)]; [by rewrite lookup_empty in He|].
    unfold workspace_ready in Hr. rewrite !andb_true_iff in Hr. exists w. tauto.
Qed.

(** The workspaces a work item's context snapshots freeze. *)
Definition frozen_for (item : uuid) (db : DB) (ids : list string) : Prop :=
  frozenLocalWorkspaceIDs item db = Ok (ids, db) ∧ ids ≠ [] ∧
  ∀ id, id ∈ ids ↔ ∃ s, s ∈ snapshots (dispatch db) ∧ Snapshot_WorkItemID s = item ∧ frozen_workspace s = Some id.
Lemma frozen_ids_elem l : ∀ seen ids id, frozen_ids seen l = Ok ids →
  id ∈ ids ↔ id ∉ seen ∧ ∃ s, s ∈ l ∧ frozen_workspace s = Some id.
Proof.
  induction l as [|s l IH]; intros seen ids id H; cbn [frozen_ids] in H.
  { injection H as <-. split; [by intros ?%not_elem_of_nil|by intros (_ & ? & ?%not_elem_of_nil & _)]. }
  setoid_rewrite elem_of_cons. destruct (frozen_workspace s) as [x|] eqn:Hs; [|rewrite (IH _ _ _ H); naive_solver].
  destruct (negb _); [done|]. case_bool_decide as Hx.
  - rewrite (IH _ _ _ H). naive_solver.
  - apply bind_ok in H as (ids' & H & [= <-]). rewrite elem_of_cons, (IH _ _ _ H), not_elem_of_union, elem_of_singleton.
    destruct (decide (id = x)) as [->|]; naive_solver.
Qed.
Lemma frozen_run item db ids db' : frozenLocalWorkspaceIDs item db = Ok (ids, db') →
  db' = db ∧ ∃ l, frozen_ids ∅ (filter (λ s, Snapshot_WorkItemID s = item) (snapshots (dispatch db))) = Ok l ∧ ids = sort_strings l.
Proof.
  unfold frozenLocalWorkspaceIDs. intros (rows & d1 & [= <- <-] & H)%T_bind_ok. apply T_bind_ok in H as (l & d2 & [Hl ->]%lift_ok & [= <- <-]).
  split; [done|]. by exists l.
Qed.
Lemma frozen_spec item db ids : frozenLocalWorkspaceIDs item db = Ok (ids, db) → ids ≠ [] → frozen_for item db ids.
Proof.
  intros H Hne. split; [done|]. split; [done|]. apply frozen_run in H as [_ (l & Hl & ->)]. intros id.
  unfold sort_strings, sort_key. rewrite sort_by_elem, (frozen_ids_elem _ _ _ id Hl). setoid_rewrite list_elem_of_filter. set_solver.
Qed.

(** What the chosen targets are, for the frozen workspaces [ids] of the work item. *)
Record chosen (item : uuid) (rows : list DeliveryPlanStep) (now : Z) (db : DB) (targets : gmap uuid assignmentTarget) (ids : list string) : Prop := {
  chosen_ids : frozenLocalWorkspaceIDs item db = Ok (ids, db) ∧ ids ≠ [];
  chosen_total : ∀ s, s ∈ rows → ∃ row, row ∈ eligible_rows ids now db ∧ targets !! Step_ID s = Some (heartbeat_key row) ∧
    (requiredAgent s = "" ∨ AgentTarget (heartbeat_key row) = requiredAgent s);
  chosen_slots : ∀ key, (0 < length (filter (λ s, targets !! Step_ID s = Some key) rows))%nat →
    (reservations db key + Z.of_nat (length (filter (λ s, targets !! Step_ID s = Some key) rows)) ≤ concurrency_of key (eligible_rows ids now db))%Z;
}.
Lemma candidates_keys m db : NoDup (Candidate_Key <$> candidates_of m db).
Proof.
  unfold candidates_of. rewrite sort_by_perm, <-list_fmap_compose.
  apply NoDup_fst_map_to_list.
Qed.
(** The instant heartbeats are compared with. *)
Definition beat_time (now : Z) : Z := if Z.eqb now 0 then tick tx 1 else now.
Lemma resolve_run item rows now db targets db' : NoDup (Step_ID <$> rows) →
  resolveAssignmentTargets tx item rows now db = Ok (targets, db') → db' = db ∧ ∃ ids, chosen item rows (beat_time now) db targets ids.
Proof.
  intros Hnd H. pose proof (keeps_resolve item rows now db targets db' H) as Hk. split; [done|]. unfold resolveAssignmentTargets in H.
  apply T_bind_ok in H as (u1 & d1 & Hc1 & H). apply T_bind_ok in H as (ids & d2 & Hids & H).
  apply T_bind_ok in H as (u2 & d3 & Hc2 & H). cbv zeta in H. fold (beat_time now) in H. generalize dependent (beat_time now). clear now. intros now H.
  apply T_bind_ok in H as (beats & d4 & Hb & H). apply T_bind_ok in H as (u3 & d5 & Hc3 & H).
  apply T_bind_ok in H as (cands & d6 & Hca & H). unfold invalid_input in Hc1. tx_facts.
  pose proof (frozen_run _ _ _ _ Hids) as [-> _]. fold (eligible_rows ids now db) in H, Hc3. exists ids.
  apply negb_true_iff, Nat.eqb_neq in Hc2. apply negb_true_iff, orb_false_iff in Hc1 as [_ Hc1%Nat.eqb_neq].
  unfold allocateAssignmentTargets in H. rewrite (proj2 (Nat.eqb_neq _ _) Hc1) in H.
  apply bind_ok in H as ([targets' cs'] & H & [= ->]). set (cs := candidates_of _ _) in H.
  assert (Step_ID <$> sort_by constrained_before rows ≡ₚ Step_ID <$> rows) as Hperm by (by rewrite sort_by_perm).
  apply allocate_allocation in H as [Htot _ Hslots]; [|by rewrite Hperm|apply candidates_keys].
  assert (∀ c, c ∈ cs → Reserved c = reservations db (Candidate_Key c) ∧ Capacity c = concurrency_of (Candidate_Key c) (eligible_rows ids now db) ∧
            ∃ row, row ∈ eligible_rows ids now db ∧ heartbeat_key row = Candidate_Key c) as Hcs.
  { intros c. unfold cs, candidates_of. rewrite sort_by_elem. intros ([key n] & -> & Hin%elem_of_map_to_list)%list_elem_of_fmap.
    cbn. apply capacities_lookup in Hin as [-> [[x Hx]|(row & Hrow & <-)]]; [by rewrite lookup_empty in Hx|].
    rewrite lookup_empty. split; [|split; [cbn; lia|by exists row]]. unfold reserved_count.
    destruct (eligible_key _ _ _ _ Hrow) as [H1%String.eqb_neq H2%String.eqb_neq]. by rewrite H1, H2. }
  split.
  - split; [done|]. by intros ->.
  - intros s Hs. destruct (Htot s) as (c & Hc & Ht & Hf); [by rewrite sort_by_elem|].
    destruct (Hcs c Hc) as (_ & _ & row & Hrow & Hkey). exists row. rewrite Hkey. split; [done|]. split; [done|].
    unfold fits in Hf. apply orb_true_iff in Hf as [?%String.eqb_eq|?%String.eqb_eq]; auto.
  - intros key Hpos. assert (∃ s, s ∈ rows ∧ targets !! Step_ID s = Some key) as (s & Hs & Hkey).
    { destruct (filter (λ s, targets !! Step_ID s = Some key) rows) as [|s l] eqn:Hfl; [cbn in Hpos; lia|].
      assert (s ∈ filter (λ s, targets !! Step_ID s = Some key) rows) as [? ?]%list_elem_of_filter by (rewrite Hfl; by left). by exists s. }
    destruct (Htot s) as (c & Hc & Ht & _); [by rewrite sort_by_elem|]. assert (key = Candidate_Key c) as -> by congruence.
    specialize (Hslots c Hc). destruct (Hcs c Hc) as (Hr & Hcap & _). rewrite <-Hr, <-Hcap. rewrite sort_by_perm in Hslots.
    unfold free in Hslots. lia.
Qed.
End Transactions.
