(* ===== verification/PlanDispatchRuns.v ===== *)
(** * Successful dispatch transactions

    What [CreateExecutionInTransaction], [ReserveReadyAssignmentsInTransaction] and
    [ValidateAssignmentWorker] have checked and written when they succeed. *)
From stdpp Require Import base tactics list strings gmap.
From Stdlib Require Import Ascii.
From S2P Require Import Prelude GoStrings GoSort Json PlanGraph Workflow PlanStore PlanStored PlanEnsure PlanLease PlanLeaseFacts PlanAssign PlanAssignFacts PlanDispatch PlanDispatchFacts.
Open Scope string_scope.

Section Runs.
Context {unicode : GoUnicode} {text : UuidText} {jsonb : Jsonb} {map_range : GoMapRange} {ranged : GoMappingRange} (tx : Tx).

(** ** The approved snapshot *)

Record snapshot_of (parent : AutomationTask) (planID : uuid) (db : DB) (plan : DeliveryPlan) (gateID : uuid)
    (rows : list DeliveryPlanStep) (dependencies : list DeliveryPlanStepDependency) : Prop := {
  snapshot_plan : plans db !! planID = Some plan ∧ DeliveryWorkItemID parent = Some (WorkItemID plan);
  snapshot_approved : EqualFold (TrimSpace (Plan_Status plan)) "approved" = true ∧ (1 ≤ Version plan)%Z ∧
    ApprovedGateID plan = Some gateID ∧ gateID ≠ Nil;
  snapshot_gate : ∃ gate, gates (dispatch db) !! gateID = Some gate ∧ Gate_WorkItemID gate = WorkItemID plan ∧
    Kind gate = GatePlan ∧ Decision gate = DecisionApproved;
  snapshot_rows : rows = stored_row <$> select_steps (λ s, N.eqb (Step_PlanID s) (Plan_ID plan)) db ∧
    dependencies = sort_by dependency_before (plan_edges (Plan_ID plan) db);
}.
Lemma snapshot_run parent planID db plan gateID rows dependencies db' :
  loadApprovedExecutionSnapshot parent planID db = Ok ((plan, gateID, rows, dependencies), db') ↔
  db' = db ∧ snapshot_of parent planID db plan gateID rows dependencies.
Proof.
  split.
  - intros H. pose proof (keeps_snapshot _ _ _ _ _ H) as ->. split; [done|]. unfold loadApprovedExecutionSnapshot in H.
    apply T_bind_ok in H as (p & d1 & Hp & H). apply T_bind_ok in H as (u1 & d2 & Hi & H). tx_facts.
    destruct (ApprovedGateID p) as [g|] eqn:Hg; [|done].
    apply T_bind_ok in H as (u2 & d3 & Ha & H). apply T_bind_ok in H as (gate & d4 & Hgate & H).
    apply T_bind_ok in H as (u3 & d5 & Hk & H). apply T_bind_ok in H as (r & d6 & Hr & H). apply T_bind_ok in H as (ds & d7 & Hd & H). tx_facts.
    rewrite !andb_true_iff, !negb_true_iff, Z.ltb_ge, N.eqb_neq in Ha. rewrite !andb_true_iff, N.eqb_eq, !String.eqb_eq in Hk.
    apply bool_decide_eq_true in Hi. destruct_and!. split; try done. by exists gate.
  - intros [-> [[Hp Hi] (Ha & Hv & Hg & Hn) (gate & Hgate & G1 & G2 & G3) [-> ->]]]. unfold loadApprovedExecutionSnapshot.
    apply T_bind_ok. exists plan, db. split; [by apply first_ok|]. apply T_bind_ok. exists tt, db.
    split; [by apply check_pass, bool_decide_eq_true|]. rewrite Hg. apply T_bind_ok. exists tt, db. split.
    { apply check_pass. rewrite Ha. apply Z.ltb_ge in Hv. apply N.eqb_neq in Hn. by rewrite Hv, Hn. }
    apply T_bind_ok. exists gate, db. split; [by apply first_ok|]. apply T_bind_ok. exists tt, db.
    split; [apply check_pass; by rewrite G1, G2, G3, N.eqb_refl|]. done.
Qed.

(** ** Creating an execution *)

Definition key_of (idempotencyKey : string) : string := TrimSpace idempotencyKey.
(** The execution frozen for [parent]. *)
Record frozen (parent : AutomationTask) (planID : uuid) (limit : Z) (key : string) (db : DB) (execution : DeliveryPlanExecution)
    (plan : DeliveryPlan) (rows : list DeliveryPlanStep) (dependencies : list DeliveryPlanStepDependency) : Prop := {
  frozen_snapshot : snapshot_of parent planID db plan (Execution_ApprovedGateID execution) rows dependencies;
  frozen_hash : ApprovedPlanContentHash plan rows dependencies = Ok (PlanHash execution);
  frozen_identity : Execution_AutomationTaskID execution = Task_ID parent ∧ Execution_PlanID execution = Plan_ID plan ∧
    PlanVersion execution = Version plan ∧ MaxConcurrency execution = limit ∧ Execution_IdempotencyKey execution = key_of key;
  frozen_status : Execution_Status execution = DeliveryPlanExecutionPending;
  frozen_legacy : ∀ id s, steps db !! id = Some s → Step_PlanID s = Plan_ID plan → Status s = DeliveryPlanStepRunning →
    after_opt (LeaseExpiresAt s) (tick tx 1) = true → ∃ i a, assignments (dispatch db) !! i = Some a ∧ DeliveryPlanStepID a = Step_ID s;
}.
Record creating (parentID planID : uuid) (limit : Z) (key : string) (db : DB) (parent : AutomationTask) : Prop := {
  creating_input : parentID ≠ Nil ∧ planID ≠ Nil ∧ (1 ≤ limit ≤ DeliveryPlanExecutionMaxConcurrency)%Z ∧
    key_of key ≠ "" ∧ (String.length (key_of key) ≤ 128)%nat;
  creating_parent : tasks db !! parentID = Some parent ∧ is_Some (DeliveryWorkItemID parent);
}.

Lemma live_run planID now db live db' : hasLiveUnassignedPlanStepLease planID now db = Ok (live, db') →
  db' = db ∧ (live = false → ∀ id s, steps db !! id = Some s → Step_PlanID s = planID → Status s = DeliveryPlanStepRunning →
    after_opt (LeaseExpiresAt s) now = true → ∃ i a, assignments (dispatch db) !! i = Some a ∧ DeliveryPlanStepID a = Step_ID s).
Proof.
  unfold hasLiveUnassignedPlanStepLease, invalid_input. intros (u & d1 & Hc & H)%T_bind_ok. tx_facts. split; [done|].
  intros Hl id s Hs Hp Hst Hlive. apply not_true_iff_false in Hl. rewrite existsb_exists in Hl.
  destruct (existsb (λ a, N.eqb (DeliveryPlanStepID a) (Step_ID s)) (values (assignments (dispatch db)))) eqn:Ha.
  - apply existsb_exists in Ha as (a & [i Hi]%list_elem_of_In%elem_of_values & Heq%N.eqb_eq). by exists i, a.
  - destruct Hl. exists s. split; [apply list_elem_of_In, elem_of_values; by exists id|]. by rewrite Hp, Hst, Hlive, Ha, N.eqb_refl.
Qed.

Lemma create_run parentID planID limit key now db execution new db' :
  CreateExecutionInTransaction tx parentID planID limit key now db = Ok ((execution, new), db') →
  ∃ parent, creating parentID planID limit key db parent ∧
  (new = false ∧ db' = db ∧ execution_of db parentID = Some execution ∧ Execution_PlanID execution = planID ∧
     Execution_IdempotencyKey execution = key_of key ∧ MaxConcurrency execution = limit ∧
     (∃ plan, plans db !! planID = Some plan ∧ DeliveryWorkItemID parent = Some (WorkItemID plan)) ∨
   new = true ∧ execution_of db parentID = None ∧ execution_of db (Task_ID parent) = None ∧
     executions (dispatch db) !! Execution_ID execution = None ∧ same_plans db db' ∧
     dispatch db' = set_executions (<[Execution_ID execution := execution]> (executions (dispatch db))) (dispatch db) ∧
     ∃ plan rows dependencies, frozen parent planID limit key db execution plan rows dependencies).
Proof.
  unfold CreateExecutionInTransaction, invalid_input. intros H.
  apply T_bind_ok in H as (u1 & d1 & H1 & H). apply T_bind_ok in H as (u2 & d2 & H2 & H). cbv zeta in H.
  apply T_bind_ok in H as (u3 & d3 & H3 & H). apply T_bind_ok in H as (parent & d4 & Hp & H). tx_facts.
  rewrite negb_true_iff, orb_false_iff, !N.eqb_neq in H1. rewrite negb_true_iff, orb_false_iff, !Z.ltb_ge in H2.
  rewrite negb_true_iff, orb_false_iff, String.eqb_neq, Nat.ltb_ge in H3.
  destruct (DeliveryWorkItemID parent) as [item|] eqn:Hitem; [|done].
  exists parent. split; [unfold key_of; split; [split_and!; try tauto; lia|by rewrite Hitem]|].
  apply T_bind_ok in H as (existing & d5 & He & H). tx_facts. destruct (execution_of db parentID) as [found|] eqn:Hx.
  - left. apply T_bind_ok in H as (u4 & d6 & H4 & H). apply T_bind_ok in H as (plan & d7 & Hpl & H).
    apply T_bind_ok in H as (u5 & d8 & H5 & H). tx_facts. subst. rewrite !andb_true_iff, N.eqb_eq, String.eqb_eq, Z.eqb_eq in H4. apply N.eqb_eq in H5.
    destruct H4 as [[<- ?] ?]. split_and!; try done. exists plan. by rewrite Hitem, H5.
  - right. apply T_bind_ok in H as ([[[plan gateID] rows] deps] & d6 & [-> Hs]%snapshot_run & H).
    apply T_bind_ok in H as (live & d7 & [-> Hl]%live_run & H). apply T_bind_ok in H as (u4 & d8 & H4 & H).
    apply T_bind_ok in H as (hash & d9 & Hh & H). apply T_bind_ok in H as (id & d10 & [Hs1 Hd1]%draw_run & H). cbv zeta in H.
    apply T_bind_ok in H as (u5 & d11 & (Hs2 & Hn & Hone & Hd2)%create_execution_run & H). tx_facts. subst.
    apply negb_true_iff in H4. specialize (Hl H4). rewrite Hd1 in Hd2, Hn. unfold execution_of in Hone. rewrite Hd1 in Hone.
    split_and!; try done. { etrans; [exact Hs1|exact Hs2]. }
    exists plan, rows, deps. by split.
Qed.

(** ** Reserving steps *)

Lemma mapping_run l : ∀ seen ids, mapping_steps seen l = Ok ids →
  ids = l.*1 ∧ Forall (λ p, p.1 ≠ Nil ∧ p.2 ≠ Nil ∧ p.2 ∉ seen) l ∧ NoDup l.*2.
Proof.
  induction l as [|[step child] l IH]; intros seen ids H; cbn [mapping_steps] in H.
  { injection H as <-. split; [done|]. split; [constructor|constructor]. }
  apply bind_ok in H as ([] & H1%fail_if_ok & H). apply bind_ok in H as ([] & H2%fail_if_ok & H).
  apply bind_ok in H as (ids' & Hr & [= <-]). apply IH in Hr as (-> & Hall & Hnd). apply orb_false_iff in H1 as [H1%N.eqb_neq H1'%N.eqb_neq].
  apply bool_decide_eq_false in H2. split; [done|]. rewrite fmap_cons. split.
  - constructor; [done|]. eapply Forall_impl; [exact Hall|]. intros [s c] (? & ? & Hc). split_and!; [done..|]. set_solver.
  - constructor; [|done]. intros ([s c] & Heq & Hin)%list_elem_of_fmap. cbn in Heq. subst c.
    rewrite Forall_forall in Hall. destruct (Hall _ Hin) as (_ & _ & Hc). set_solver.
Qed.
Lemma normalize_mapping children ids : normalizeStepTaskMapping children = Ok ids →
  NoDup ids ∧ (∀ id, id ∈ ids ↔ is_Some (children !! id)) ∧ length ids = size children ∧
  (∀ id child, children !! id = Some child → id ≠ Nil ∧ child ≠ Nil) ∧
  (∀ id1 id2 child, children !! id1 = Some child → children !! id2 = Some child → id1 = id2).
Proof.
  unfold normalizeStepTaskMapping. intros (l & Hl & [= <-])%bind_ok. apply mapping_run in Hl as (-> & Hall & Hnd).
  rewrite range_mapping_perm in Hnd. assert ((range_mapping children).*1 ≡ₚ (map_to_list children).*1) as Hp by (by rewrite range_mapping_perm).
  split; [|split; [|split; [|split]]].
  - rewrite sort_by_perm, Hp. apply NoDup_fst_map_to_list.
  - intros id. rewrite sort_by_elem, Hp, list_elem_of_fmap. split.
    + intros ([i c] & -> & H%elem_of_map_to_list). by eexists.
    + intros [c Hc]. exists (id, c). by rewrite elem_of_map_to_list.
  - rewrite sort_by_length, Hp, length_fmap. apply length_map_to_list.
  - intros id child Hc. rewrite Forall_forall in Hall. destruct (Hall (id, child)) as (? & ? & _); [|done].
    rewrite range_mapping_perm. by apply elem_of_map_to_list.
  - intros id1 id2 child H1%elem_of_map_to_list H2%elem_of_map_to_list. apply list_elem_of_lookup in H1 as [i Hi], H2 as [j Hj].
    assert (i = j) as ->; [|congruence]. eapply (NoDup_lookup (map_to_list children).*2); [done|..]; by rewrite list_lookup_fmap, ?Hi, ?Hj.
Qed.

(** What a reservation has checked before it looks at the assignments. *)
Record reserving (executionID : uuid) (children : gmap uuid uuid) (db : DB) (execution : DeliveryPlanExecution) (parent : AutomationTask)
    (workItem : uuid) (stepIDs : list uuid) : Prop := {
  reserving_execution : executions (dispatch db) !! executionID = Some execution ∧ execution_open execution = true ∧
    concurrency_valid execution = true;
  reserving_parent : tasks db !! Execution_AutomationTaskID execution = Some parent ∧ DeliveryWorkItemID parent = Some workItem ∧
    Execution_AutomationTaskID execution = Task_ID parent;
  reserving_scope : ∃ scope, organization_scope db (Task_ID parent) = Some scope ∧ scope.1.1 = workItem ∧
    ∀ step child, children !! step = Some child → organization_scope db child = Some scope;
  reserving_frozen : ∃ plan rows dependencies,
    snapshot_of parent (Execution_PlanID execution) db plan (Execution_ApprovedGateID execution) rows dependencies ∧
    Version plan = PlanVersion execution ∧ ApprovedPlanContentHash plan rows dependencies = Ok (PlanHash execution);
  reserving_steps : normalizeStepTaskMapping children = Ok stepIDs;
}.
Definition existing_rows (db : DB) (executionID : uuid) (stepIDs : list uuid) : list DeliveryPlanStepAssignment :=
  sort_by assignment_before
    (assignments_where db (λ a, N.eqb (ExecutionID a) executionID && bool_decide (DeliveryPlanStepID a ∈ stepIDs))).
Definition new_steps (existing : list DeliveryPlanStepAssignment) (stepIDs : list uuid) : list uuid :=
  filter (λ id, id ∉ DeliveryPlanStepID <$> existing) stepIDs.

Lemma scopes_run ids parent : ∀ db u db', validateChildTaskScopes ids parent db = Ok (u, db') ↔
  db' = db ∧ u = tt ∧ ∀ id, id ∈ ids → organization_scope db id = Some parent.
Proof.
  induction ids as [|id ids IH]; intros db u db'; cbn [validateChildTaskScopes].
  { unfold mret, T_ret. split; [intros [= <- <-]; split_and!; try done; by intros id ?%not_elem_of_nil|by intros (-> & -> & _)]. }
  rewrite T_bind_ok. split.
  - intros (child & d1 & [= <- <-] & H). apply T_bind_ok in H as (u1 & d2 & [Hc%bool_decide_eq_true ->]%check_ok & H).
    apply IH in H as (-> & -> & Hall). split_and!; try done. intros x [->|Hx]%elem_of_cons; auto.
  - intros (-> & -> & Hall). eexists _, db. split; [reflexivity|]. apply T_bind_ok. exists tt, db.
    split; [apply check_pass, bool_decide_eq_true, Hall; by left|]. apply IH. split_and!; try done. intros x Hx. apply Hall. by right.
Qed.
Lemma check_existing_ok children existing u : check_existing children existing = Ok u → ∀ a, a ∈ existing →
  default Nil (children !! DeliveryPlanStepID a) = ChildAutomationTaskID a ∧ TrimSpace (TargetMachineID a) ≠ "" ∧ TrimSpace (TargetAgentKey a) ≠ "".
Proof.
  induction existing as [|b existing IH]; cbn [check_existing]; [by intros _ a ?%not_elem_of_nil|].
  intros (u1 & H1%fail_if_ok & H)%bind_ok. apply bind_ok in H as (u2 & H2%fail_if_ok & H).
  apply negb_false_iff, N.eqb_eq in H1. rewrite orb_false_iff, !String.eqb_neq in H2. intros a [->|Ha]%elem_of_cons; [tauto|by apply IH].
Qed.

Lemma reserve_run executionID limit children now db result db' :
  ReserveReadyAssignmentsInTransaction tx executionID limit children now db = Ok (result, db') →
  children = ∅ ∧ result = [] ∧ db' = db ∨
  (1 ≤ limit ≤ DeliveryPlanExecutionMaxConcurrency)%Z ∧ (Z.of_nat (size children) ≤ limit)%Z ∧
  ∃ execution parent workItem stepIDs, reserving executionID children db execution parent workItem stepIDs ∧
    let existing := existing_rows db (Execution_ID execution) stepIDs in
    check_existing children existing = Ok tt ∧
    (new_steps existing stepIDs = [] ∧ result = sort_by by_step existing ∧ db' = db ∨
     new_steps existing stepIDs ≠ [] ∧
     reserve_new tx execution workItem limit children existing (new_steps existing stepIDs) (normalizeNow tx now) db = Ok (result, db')).
Proof.
  unfold ReserveReadyAssignmentsInTransaction, invalid_input. intros H.
  apply T_bind_ok in H as (u1 & d1 & H1 & H). apply T_bind_ok in H as (u2 & d2 & H2 & H). tx_facts.
  rewrite negb_true_iff, orb_false_iff, !Z.ltb_ge in H2.
  destruct (Nat.eqb_spec (size children) 0) as [Hz|Hz].
  { left. tx_facts. split; [by apply map_size_empty_inv|done]. }
  right. apply T_bind_ok in H as (u3 & d3 & H3 & H). cbv zeta in H. apply T_bind_ok in H as (identity & d4 & Hi & H).
  apply T_bind_ok in H as (parent & d5 & Hp & H). tx_facts.
  destruct (DeliveryWorkItemID parent) as [item|] eqn:Hitem; [|done].
  apply T_bind_ok in H as (execution & d6 & He & H). apply T_bind_ok in H as (u4 & d7 & H4 & H).
  apply T_bind_ok in H as (u5 & d8 & H5 & H). apply T_bind_ok in H as (u6 & d9 & H6 & H).
  apply T_bind_ok in H as (found & d10 & Hf & H). tx_facts. assert (identity = execution) as -> by congruence. clear He.
  destruct (organization_scope db (Task_ID parent)) as [scope|] eqn:Hscope; [|done].
  apply T_bind_ok in H as (u7 & d11 & H7 & H). apply T_bind_ok in H as ([[[plan gateID] rows] deps] & d12 & [-> Hs]%snapshot_run & H).
  apply T_bind_ok in H as (u8 & d13 & H8 & H). apply T_bind_ok in H as (hash & d14 & Hh & H).
  apply T_bind_ok in H as (u9 & d15 & H9 & H). apply T_bind_ok in H as (stepIDs & d16 & Hst & H).
  apply T_bind_ok in H as (u10 & d17 & (-> & _ & Hchild)%scopes_run & H). tx_facts.
  apply T_bind_ok in H as (existing & d18 & Hx & H). tx_facts. apply T_bind_ok in H as (u11 & d19 & Hce & H). cbv zeta in H. tx_facts. destruct u11.
  rewrite negb_true_iff, orb_false_iff, !Z.ltb_ge in H3. apply andb_true_iff in H4 as [H4%N.eqb_eq _].
  apply andb_true_iff in H8 as [H8%Z.eqb_eq H8'%N.eqb_eq]. apply String.eqb_eq in H9 as ->. apply N.eqb_eq in H7.
  split; [done|]. split; [tauto|]. exists execution, parent, item, stepIDs. split.
  - split; try done.
    + exists scope. split; [done|]. split; [done|]. intros step child Hc. apply Hchild, list_elem_of_fmap. exists step. rewrite Hc. split; [done|].
      apply (normalize_mapping _ _ Hst). by eexists.
    + exists plan, rows, deps. by rewrite <-H8'.
  - cbv zeta. split; [done|]. fold (existing_rows db (Execution_ID execution) stepIDs) in *.
    fold (new_steps (existing_rows db (Execution_ID execution) stepIDs) stepIDs) in H.
    destruct (Nat.eqb_spec (length (new_steps (existing_rows db (Execution_ID execution) stepIDs) stepIDs)) 0) as [Hl|Hl].
    + left. tx_facts. by apply length_zero_iff_nil in Hl.
    + right. split; [|done]. intros Heq. by rewrite Heq in Hl.
Qed.

(** The steps a query selects are different rows. *)
Lemma select_ids (p : DeliveryPlanStep → bool) db : well_keyed db → NoDup (Step_ID <$> select_steps p db).
Proof.
  intros Hk. unfold select_steps. rewrite sort_by_perm.
  assert (Step_ID <$> (map_to_list (steps db)).*2 = (map_to_list (steps db)).*1) as Heq.
  { rewrite <-list_fmap_compose. apply list_fmap_ext. intros i [id s] Hi%list_elem_of_lookup_2%elem_of_map_to_list.
    cbn. by apply (keyed_steps _ Hk). }
  eapply sublist_NoDup; [|apply fmap_sublist, sublist_filter]. rewrite Heq. apply NoDup_fst_map_to_list.
Qed.

(** A new reservation. *)
Record reserved (execution : DeliveryPlanExecution) (workItem : uuid) (limit : Z) (children : gmap uuid uuid)
    (existing : list DeliveryPlanStepAssignment) (newIDs : list uuid) (now : Z) (db db' : DB) (rows : list DeliveryPlanStep)
    (targets : gmap uuid assignmentTarget) (created : list DeliveryPlanStepAssignment) (ids : list string) : Prop := {
  reserved_limit : (activeCount db (Execution_ID execution) + Z.of_nat (length created) ≤ MaxConcurrency execution)%Z ∧
    (Z.of_nat (length existing) + Z.of_nat (length created) ≤ limit)%Z;
  reserved_ids : Step_ID <$> rows ≡ₚ newIDs;
  reserved_ready : ∀ r, r ∈ rows → ∃ s, r = stored_row s ∧ steps db !! Step_ID s = Some s ∧
    step_ready db (Execution_ID execution) (Execution_PlanID execution) s = true ∧ locked tx (Step_ID s) = false;
  reserved_targets : chosen workItem rows (beat_time tx now) db targets ids;
  reserved_rows : Forall2 (row_for execution children targets now) created rows;
  reserved_frame : same_plans db db' ∧ executions (dispatch db') = executions (dispatch db);
  reserved_count : ∀ p, count p (assignments (dispatch db')) =
    (length (filter (λ a, p a = true) created) + count p (assignments (dispatch db)))%nat;
  reserved_table : ∀ id a, assignments (dispatch db') !! id = Some a ↔
    a ∈ created ∧ Assignment_ID a = id ∨ assignments (dispatch db) !! id = Some a;
  reserved_bindings : is_Some (executions (dispatch db) !! Execution_ID execution) → bindings db → bindings db';
}.
Lemma reserve_new_run execution item limit children existing newIDs now db result db' : well_keyed db → NoDup newIDs →
  reserve_new tx execution item limit children existing newIDs now db = Ok (result, db') →
  ∃ rows targets created ids, reserved execution item limit children existing newIDs now db db' rows targets created ids ∧
    result = sort_by by_step (existing ++ created).
Proof.
  intros Hk Hnd H. unfold reserve_new in H. apply T_bind_ok in H as (active & d1 & Ha & H). cbv zeta in H.
  apply T_bind_ok in H as (u1 & d2 & H1 & H). apply T_bind_ok in H as (rows & d3 & Hr & H).
  apply T_bind_ok in H as (u2 & d4 & H2 & H). apply T_bind_ok in H as (targets & d5 & Ht & H).
  apply T_bind_ok in H as (created & d6 & Hc & H). tx_facts. apply negb_true_iff, Z.ltb_ge in H1. apply Nat.eqb_eq in H2.
  set (p := λ s, step_ready db (Execution_ID execution) (Execution_PlanID execution) s && bool_decide (Step_ID s ∈ newIDs) &&
                 negb (locked tx (Step_ID s))) in *. set (n := Z.to_nat _) in *. set (rows := stored_row <$> take n (select_steps p db)) in *.
  assert (Step_ID <$> rows = Step_ID <$> take n (select_steps p db)) as Hids by (unfold rows; by rewrite <-list_fmap_compose).
  assert (NoDup (Step_ID <$> rows)) as Hnr.
  { rewrite Hids. eapply sublist_NoDup; [|apply fmap_sublist, sublist_take]. by apply select_ids. }
  assert (∀ r, r ∈ rows → ∃ s, r = stored_row s ∧ steps db !! Step_ID s = Some s ∧ p s = true) as Hrows.
  { intros r (s & -> & [i Hi]%list_elem_of_lookup)%list_elem_of_fmap. exists s. split; [done|].
    apply elem_of_select; [done|]. apply lookup_take_Some in Hi as [Hi _]. by apply list_elem_of_lookup_2 in Hi. }
  apply (resolve_run tx item rows now db targets _ Hnr) in Ht as (-> & ids & Hch).
  apply create_assignments_run in Hc as (Hall & Hs & He & Hcount & Htab & Hb).
  pose proof (Forall2_length _ _ _ Hall) as Hlen. exists rows, targets, created, ids. split; [|done]. split; try done.
  - lia.
  - apply submseteq_length_Permutation; [|by rewrite length_fmap, H2]. apply NoDup_submseteq; [done|].
    intros id (r & -> & Hr')%list_elem_of_fmap. destruct (Hrows r Hr') as (s & -> & _ & Hp).
    unfold p in Hp. rewrite !andb_true_iff in Hp. destruct Hp as [[_ ?%bool_decide_eq_true] _]. done.
  - intros r Hr'. destruct (Hrows r Hr') as (s & -> & Hst & Hp). exists s. unfold p in Hp. rewrite !andb_true_iff, negb_true_iff in Hp.
    split; [done|]. split; [done|]. tauto.
Qed.

(** ** Admitting a worker *)

(** The eligible heartbeats of a profile on a machine. *)
Definition machine_rows (machineID agentKey : string) (ids : list string) (required : string) (now : Z) (db : DB) : list assignmentHeartbeatRow :=
  filter (λ row, assignmentHeartbeatEligible row ids required now = true)
    (heartbeat_rows (λ h, beats_for machineID agentKey h && Z.leb (now - assignmentHeartbeatMaxAge) (LastSeenAt h) && negb (Draining h)) db).
Definition total_concurrency (rows : list assignmentHeartbeatRow) : Z := foldl (λ n row, n + Concurrency (row_heartbeat row))%Z 0%Z rows.
Definition serves (workerID machineID agentKey : string) (ids : list string) (required : string) (now : Z) (db : DB) : Prop :=
  ∃ row, row ∈ machine_rows machineID agentKey ids required now db ∧ Heartbeat_WorkerID (row_heartbeat row) = workerID.
Lemma target_run workerID machineID agentKey ids required now db n ready db' :
  lockAssignmentFailoverTarget workerID machineID agentKey ids required now db = Ok ((n, ready), db') →
  db' = db ∧ n = total_concurrency (machine_rows machineID agentKey ids required now db) ∧
  (ready = true → serves workerID machineID agentKey ids required now db).
Proof.
  unfold lockAssignmentFailoverTarget. intros (rows & d1 & Hr & H)%T_bind_ok. tx_facts.
  split; [done|]. split; [done|]. intros (row & Hin%list_elem_of_In & Heq%String.eqb_eq)%existsb_exists. by exists row.
Qed.

(** The leases of the task and the step are over and both can be taken up again. *)
Record released (task : AutomationTask) (step : DeliveryPlanStep) (now : Z) : Prop := {
  released_task : after_opt (Task_LeaseExpiresAt task) now = false ∧ Task_Status task ∈ ["pending"; "queued"; "running"] ∧
    (Task_Status task = "running" → is_Some (Task_LeaseExpiresAt task));
  released_step : after_opt (LeaseExpiresAt step) now = false ∧
    Status step ∈ [DeliveryPlanStepPlanned; DeliveryPlanStepReady; DeliveryPlanStepRunning] ∧
    (Status step = DeliveryPlanStepRunning → is_Some (LeaseExpiresAt step));
}.
Lemma failover_lease_ok task step now u : validateAssignmentFailoverLease task step now = Ok u → released task step now.
Proof.
  unfold validateAssignmentFailoverLease, validateAssignmentClaimLeaseState, is_live.
  intros (u0 & (u1 & H1%fail_if_ok & (u2 & H2%fail_if_ok & (u3 & H3%fail_if_ok & H4%fail_if_ok)%bind_ok)%bind_ok)%bind_ok & H5%fail_if_ok)%bind_ok.
  rewrite negb_false_iff, !orb_true_iff, andb_true_iff, !String.eqb_eq, bool_decide_eq_true in H3, H4.
  rewrite andb_false_iff, String.eqb_neq, negb_false_iff, bool_decide_eq_true in H5.
  split; (split; [done|]); split; [set_solver| |set_solver|].
  - intros Heq. destruct H3 as [[H3|H3]|[_ H3]]; [by rewrite Heq in H3..|done].
  - intros Heq. destruct H5; [congruence|done].
Qed.

(** The move of an assignment to another machine. *)
Record moved (task : AutomationTask) (step : DeliveryPlanStep) (current : DeliveryPlanStepAssignment) (workerID machineID : string)
    (ids : list string) (now : Z) (db db' : DB) : Prop := {
  moved_released : released task step now;
  moved_silent : ∀ h, h ∈ heartbeats (dispatch db) → Heartbeat_MachineID h = TargetMachineID current →
    Heartbeat_AgentKey h = TargetAgentKey current → (LastSeenAt h < now - assignmentHeartbeatMaxAge)%Z;
  moved_free : (reservations db {| MachineTarget := machineID; AgentTarget := TargetAgentKey current |} <
    total_concurrency (machine_rows machineID (TargetAgentKey current) ids (AgentKey step) now db))%Z;
  moved_ready : serves workerID machineID (TargetAgentKey current) ids (AgentKey step) now db;
  moved_frame : same_plans db db';
  moved_tables : dispatch db' =
    set_assignments (<[Assignment_ID current := moved_to machineID now current]> (assignments (dispatch db))) (dispatch db);
}.
Lemma fail_over_run task step current workerID machineID ids now db current' db' :
  assignments (dispatch db) !! Assignment_ID current = Some current →
  fail_over task step current workerID machineID ids now db = Ok (current', db') →
  current' = moved_to machineID now current ∧ moved task step current workerID machineID ids now db db'.
Proof.
  intros Hrow H. unfold fail_over, requireAssignmentTargetHeartbeatExpired in H.
  apply T_bind_ok in H as (u1 & d1 & H1 & H). apply T_bind_ok in H as (u2 & d2 & H2 & H). apply T_bind_ok in H2 as (beats & d3 & Hb & H2).
  apply T_bind_ok in H as ([capacity ready] & d4 & Ht & H). apply T_bind_ok in H as (u3 & d5 & H3 & H).
  apply T_bind_ok in H as (n & d6 & Hn & H). apply T_bind_ok in H as (u4 & d7 & H4 & H). apply T_bind_ok in H as (row & d8 & Hr & H).
  apply T_bind_ok in H as (u5 & d9 & H5 & H). apply T_bind_ok in H as (u6 & d10 & Hw & H). tx_facts. destruct u1.
  apply target_run in Ht as (-> & -> & Hserves). tx_facts. subst. split; [done|]. split.
  - by eapply failover_lease_ok.
  - intros h Hh Hm Ha. rewrite forallb_forall in H2. apply Z.ltb_lt, H2, list_elem_of_In, list_elem_of_filter.
    split; [|done]. unfold beats_for. by rewrite Hm, Ha, !String.eqb_refl.
  - apply negb_true_iff, Z.leb_gt in H4. done.
  - by apply Hserves.
  - done.
  - cbn. unfold set_dispatch. cbn. f_equal. apply map_eq. intros i. destruct (decide (i = Assignment_ID current)) as [->|Hne].
    + by rewrite lookup_alter_eq, lookup_insert_eq, Hrow.
    + by rewrite lookup_alter_ne, lookup_insert_ne.
Qed.

Record admitted (a : DeliveryPlanStepAssignment) (workItem : uuid) (workerID agentKey machineID : string) (db db' : DB) (now : Z)
    (task : AutomationTask) (step : DeliveryPlanStep) (current : DeliveryPlanStepAssignment) (ids : list string)
    (result : DeliveryPlanStepAssignment) : Prop := {
  admitted_task : tasks db !! ChildAutomationTaskID a = Some task ∧ DeliveryWorkItemID task = Some workItem;
  admitted_row : assignments (dispatch db) !! Assignment_ID a = Some current ∧ ChildAutomationTaskID current = Task_ID task ∧
    ExecutionID current = ExecutionID a ∧ DeliveryPlanStepID current = DeliveryPlanStepID a ∧
    isActiveAssignmentStatus (Assignment_Status current) = true ∧ TargetAgentKey current = agentKey;
  admitted_step : steps db !! DeliveryPlanStepID a = Some step;
  admitted_ids : frozenLocalWorkspaceIDs workItem db = Ok (ids, db) ∧ ids ≠ [];
  admitted_now : now = tick tx 0;
  admitted_worker : serves workerID machineID agentKey ids (AgentKey step) now db;
  admitted_result : TargetMachineID current = machineID ∧ result = current ∧ db' = db ∨
    TargetMachineID current ≠ machineID ∧ result = moved_to machineID now current ∧
      moved task step current workerID machineID ids now db db';
}.
Lemma validate_run a workItem workerID agentKey machineID db now result db' : bindings db →
  ValidateAssignmentWorker tx a workItem workerID agentKey machineID db = Ok ((now, result), db') →
  ∃ task step current ids, admitted a workItem workerID agentKey machineID db db' now task step current ids result.
Proof.
  intros Hb H. unfold ValidateAssignmentWorker, take_row in H.
  apply T_bind_ok in H as (u1 & d1 & H1 & H). apply T_bind_ok in H as (task & d2 & Htask & H). cbv zeta in H.
  apply T_bind_ok in H as (u2 & d3 & H2 & H). apply T_bind_ok in H as (current & d4 & Hc & H). apply T_bind_ok in Hc as (found & d5 & Hf & Hc).
  apply T_bind_ok in H as (u3 & d6 & H3 & H). apply T_bind_ok in H as (u4 & d7 & H4 & H). apply T_bind_ok in H as (step & d8 & Hs & H).
  apply T_bind_ok in H as (ids & d9 & Hids & H). apply T_bind_ok in H as (u5 & d10 & H5 & H). tx_facts.
  destruct (assignments (dispatch db) !! Assignment_ID a) as [row|] eqn:Hrow; [|done]. cbn in Hc.
  destruct (N.eqb_spec (ChildAutomationTaskID row) (Task_ID task)) as [Hchild|]; [|done]. tx_facts. subst.
  pose proof (frozen_run _ _ _ _ Hids) as [-> _]. apply T_bind_ok in H as (current' & d11 & Hmove & H).
  apply T_bind_ok in H as (u6 & d12 & H6 & H). apply T_bind_ok in H as (u7 & d13 & H7 & H). tx_facts.
  pose proof (keeps_current _ _ _ _ _ _ _ _ _ H7) as ->. unfold validateCurrentAssignmentHeartbeat in H7.
  apply T_bind_ok in H7 as ([n ready] & d14 & (-> & -> & Hserves)%target_run & [H7 _]%check_ok).
  rewrite !andb_true_iff, !N.eqb_eq, String.eqb_eq in H3. destruct H3 as [[E1 E2] E3].
  apply andb_true_iff in H6 as [H6%String.eqb_eq H6'%String.eqb_eq]. apply andb_true_iff in H7 as [H7 _]. apply bool_decide_eq_true in H2.
  assert (Assignment_ID current = Assignment_ID a) as Hid by (by eapply assignment_keyed).
  exists task, step, current, ids. specialize (Hserves H7).
  destruct (String.eqb_spec (TargetMachineID current) machineID) as [Heq|Hne].
  - tx_facts. subst. split; try done; [by rewrite <-E2|split; [done|by intros ->]|by left].
  - apply fail_over_run in Hmove as [-> Hmv]; [|by rewrite Hid]. cbn in H6, H6'. subst.
    split; try done; [by rewrite <-E2|split; [done|by intros ->]|apply Hmv|by right].
Qed.
End Runs.

(** The projections take the record only. *)
#[global] Arguments reserved_limit {_ _ _ _ _ _ _ _ _ _ _ _ _ _ _ _ _} _.
#[global] Arguments reserved_ids {_ _ _ _ _ _ _ _ _ _ _ _ _ _ _ _ _} _.
#[global] Arguments reserved_ready {_ _ _ _ _ _ _ _ _ _ _ _ _ _ _ _ _} _.
#[global] Arguments reserved_targets {_ _ _ _ _ _ _ _ _ _ _ _ _ _ _ _ _} _.
#[global] Arguments reserved_rows {_ _ _ _ _ _ _ _ _ _ _ _ _ _ _ _ _} _.
#[global] Arguments reserved_frame {_ _ _ _ _ _ _ _ _ _ _ _ _ _ _ _ _} _.
#[global] Arguments reserved_count {_ _ _ _ _ _ _ _ _ _ _ _ _ _ _ _ _} _.
#[global] Arguments reserved_table {_ _ _ _ _ _ _ _ _ _ _ _ _ _ _ _ _} _.
#[global] Arguments reserved_bindings {_ _ _ _ _ _ _ _ _ _ _ _ _ _ _ _ _} _.
#[global] Arguments reserving_execution {_ _ _ _ _ _ _ _ _ _ _ _} _.
#[global] Arguments reserving_parent {_ _ _ _ _ _ _ _ _ _ _ _} _.
#[global] Arguments reserving_scope {_ _ _ _ _ _ _ _ _ _ _ _} _.
#[global] Arguments reserving_frozen {_ _ _ _ _ _ _ _ _ _ _ _} _.
#[global] Arguments reserving_steps {_ _ _ _ _ _ _ _ _ _ _ _} _.
#[global] Arguments chosen_ids {_ _ _ _ _ _ _ _ _} _.
#[global] Arguments chosen_total {_ _ _ _ _ _ _ _ _} _.
#[global] Arguments chosen_slots {_ _ _ _ _ _ _ _ _} _.
