(* ===== verification/PlanAssignTheorems.v ===== *)
(** * Theorems on the choice of machines and the fan-in of an execution *)
From stdpp Require Import base tactics list strings gmap.
From S2P Require Import Prelude GoStrings GoSort PlanGraph PlanGraphTheorems PlanStore PlanAssign PlanAssignFacts.
Open Scope string_scope.

(** C36: [allocateAssignmentTargets] finds targets for all steps whenever the steps can be placed
    on the free slots of the machines at all, and only then; the targets respect the profile a
    step requires and no machine gets more steps than it has free slots. *)
Theorem allocation_is_optimal {text : UuidText} steps candidates :
  NoDup (Step_ID <$> steps) → NoDup (Candidate_Key <$> candidates) →
  ((∃ targets, allocateAssignmentTargets steps candidates = Ok targets) ↔ ∃ g left, placed steps candidates g left) ∧
  ∀ targets, allocateAssignmentTargets steps candidates = Ok targets → allocation steps candidates targets.
Proof.
  intros Hids Hkeys. unfold allocateAssignmentTargets. destruct (Nat.eqb_spec (length steps) 0) as [Hz|Hz].
  { apply length_zero_iff_nil in Hz as ->. split.
    - split; intros _; [by exists [], candidates; constructor|by eexists].
    - intros targets [= <-]. split; [by intros s ?%not_elem_of_nil|by intros id t; rewrite lookup_empty|intros; apply Nat.le_0_l]. }
  assert (Step_ID <$> sort_by constrained_before steps ≡ₚ Step_ID <$> steps) as Hp by (by rewrite sort_by_perm). split.
  - split.
    + intros [targets H]. apply bind_ok in H as ([targets' left] & H & [= ->]). apply allocate_run in H as (g & Hg & _).
      apply (placed_any_order (sort_by constrained_before steps)); [by rewrite sort_by_perm|eauto].
    + intros (g & left & Hg). apply placed_enough in Hg.
      destruct (allocate_enough (sort_by constrained_before steps) candidates ∅ ∅) as [[targets left'] H].
      * apply sorted_constrained.
      * eapply enough_perm; [|exact Hg]. by rewrite sort_by_perm.
      * exists targets. by rewrite H.
  - intros targets H. apply bind_ok in H as ([targets' left] & H & [= ->]).
    apply allocate_allocation in H as [H1 H2 H3]; [|by rewrite Hp|done]. split.
    + intros s Hs. apply H1. by rewrite sort_by_elem.
    + intros id t Ht. rewrite <-Hp. by eapply H2.
    + intros c Hc. specialize (H3 c Hc). by rewrite sort_by_perm in H3.
Qed.

(** The example: two machines, one slot each for [builder] and [tester], and two steps of which
    the first needs [builder]. *)
Definition demo_wants (id : uuid) (agent : string) : DeliveryPlanStep :=
  match Steps demo_rows with
  | s :: _ =>
      {| Step_ID := id; Step_PlanID := Step_PlanID s; StepKey := StepKey s; Step_IdempotencyKey := Step_IdempotencyKey s;
         Step_Role := Step_Role s; DisplayOrder := 0; Step_Title := Step_Title s; Step_Objective := Step_Objective s;
         AcceptanceCriteriaJSON := AcceptanceCriteriaJSON s; EvidenceRequirementsJSON := EvidenceRequirementsJSON s;
         Status := Status s; AgentKey := agent; WorkerID := ""; MachineID := ""; AutomationTaskID := None;
         AutomationExecutionID := None; RunID := ""; LeaseFence := 0; LeaseExpiresAt := None; CreatedBy := ""; StartedAt := None;
         CompletedAt := None; CreatedAt := 0; UpdatedAt := 0 |}
  | [] => {| Step_ID := id; Step_PlanID := Nil; StepKey := ""; Step_IdempotencyKey := ""; Step_Role := ""; DisplayOrder := 0;
             Step_Title := ""; Step_Objective := ""; AcceptanceCriteriaJSON := ""; EvidenceRequirementsJSON := ""; Status := "";
             AgentKey := agent; WorkerID := ""; MachineID := ""; AutomationTaskID := None; AutomationExecutionID := None;
             RunID := ""; LeaseFence := 0; LeaseExpiresAt := None; CreatedBy := ""; StartedAt := None; CompletedAt := None;
             CreatedAt := 0; UpdatedAt := 0 |}
  end.
Definition demo_candidates : list assignmentTargetCandidate :=
  [{| Candidate_Key := {| MachineTarget := "m1"; AgentTarget := "builder" |}; Capacity := 2; Reserved := 1 |};
   {| Candidate_Key := {| MachineTarget := "m2"; AgentTarget := "tester" |}; Capacity := 1; Reserved := 0 |}].
Example allocation_is_optimal_witness :
  (∃ g left, placed [demo_wants 1%N ""; demo_wants 2%N " builder "] demo_candidates g left) ∧
  ¬ ∃ targets, allocateAssignmentTargets (text := unary)
      [demo_wants 1%N "builder"; demo_wants 2%N "builder"] demo_candidates = Ok targets.
Proof.
  split.
  - apply (allocation_is_optimal (text := unary)).
    + vm_compute. repeat constructor; set_solver.
    + vm_compute. repeat constructor; set_solver.
    + eexists. vm_compute. reflexivity.
  - intros [targets H]. vm_compute in H. discriminate.
Defined.

(** ** [AssessFanIn] *)

(** Every required step has its one assignment, which is completed, and nothing else is assigned. *)
Record all_completed (requiredStepIDs : list uuid) (assignments : list DeliveryPlanStepAssignment) : Prop := {
  completed_ids : Nil ∉ requiredStepIDs;
  completed_once : NoDup (DeliveryPlanStepID <$> assignments);
  completed_exactly : ∀ id, id ∈ requiredStepIDs ↔ id ∈ DeliveryPlanStepID <$> assignments;
  completed_rows : ∀ a, a ∈ assignments → Assignment_ID a ≠ Nil ∧ ChildAutomationTaskID a ≠ Nil ∧
    Assignment_Status a = DeliveryPlanStepAssignmentCompleted;
}.

Lemma required_run ids : ∀ required,
  (Nil ∈ ids → required_steps required ids = inl (pending_because false ": invalid plan step identity")) ∧
  (Nil ∉ ids → required_steps required ids = inr (list_to_set ids ∪ required)).
Proof.
  induction ids as [|id ids IH]; intros required; cbn [required_steps].
  { split; [by intros ?%not_elem_of_nil|]. intros _. f_equal. set_solver. }
  destruct (N.eqb_spec id Nil) as [->|Hne]; split; intros H; [done|by destruct H; left|..].
  - apply IH. by apply elem_of_cons in H as [H|H]; [congruence|].
  - rewrite (proj2 (IH _)) by (intros ?; apply H; by right). f_equal. rewrite list_to_set_cons. set_solver.
Qed.
Lemma active_not_completed status : isActiveAssignmentStatus status = true → status ≠ DeliveryPlanStepAssignmentCompleted.
Proof. intros H ->. vm_compute in H. discriminate. Qed.
Lemma failed_not_completed status : failed_status status = true → status ≠ DeliveryPlanStepAssignmentCompleted.
Proof. intros H ->. vm_compute in H. discriminate. Qed.

(** The loop over the assignments: an early return does not wait and reports a defect, without
    one the loop has seen all of them. *)
Definition fitting (required seen : gset uuid) (a : DeliveryPlanStepAssignment) : Prop :=
  DeliveryPlanStepID a ∈ required ∧ DeliveryPlanStepID a ∉ seen ∧ Assignment_ID a ≠ Nil ∧ ChildAutomationTaskID a ≠ Nil.
Definition scanned (required seen : gset uuid) (active failed : bool) (l : list DeliveryPlanStepAssignment)
    (r : FanInDecision + (gset uuid * bool * bool)) : Prop :=
  match r with
  | inl d => ∃ reason, d = pending_because false reason ∧ reason ≠ "" ∧
      ¬ (NoDup (DeliveryPlanStepID <$> l) ∧
         ∀ a, a ∈ l → fitting required seen a ∧ Assignment_Status a = DeliveryPlanStepAssignmentCompleted)
  | inr (seen', active', failed') =>
      seen' = list_to_set (DeliveryPlanStepID <$> l) ∪ seen ∧ NoDup (DeliveryPlanStepID <$> l) ∧
      (∀ a, a ∈ l → fitting required seen a) ∧
      active' = active || existsb (λ a, isActiveAssignmentStatus (Assignment_Status a)) l ∧
      failed' = failed || existsb (λ a, failed_status (Assignment_Status a)) l ∧
      (active' = false → failed' = false → ∀ a, a ∈ l → Assignment_Status a = DeliveryPlanStepAssignmentCompleted)
  end.
Lemma scanned_cons required seen active failed a l r :
  fitting required seen a →
  isActiveAssignmentStatus (Assignment_Status a) = true ∨ failed_status (Assignment_Status a) = true ∨
    Assignment_Status a = DeliveryPlanStepAssignmentCompleted →
  scanned required ({[DeliveryPlanStepID a]} ∪ seen) (isActiveAssignmentStatus (Assignment_Status a) || active)
    (failed_status (Assignment_Status a) || failed) l r →
  scanned required seen active failed (a :: l) r.
Proof.
  intros Hfit Hcase. destruct r as [d|[[seen' active'] failed']]; cbn [scanned].
  - intros (reason & -> & Hne & Hno). exists reason. split; [done|]. split; [done|]. intros [Hnd Hall]. apply Hno.
    rewrite fmap_cons in Hnd. apply NoDup_cons in Hnd as [Hx Hnd]. split; [done|]. intros b Hb.
    destruct (Hall b) as [(? & ? & ? & ?) ?]; [by right|]. split; [|done]. split_and!; try done.
    intros [Heq%elem_of_singleton|]%elem_of_union; [|done]. apply Hx. rewrite <-Heq. by apply list_elem_of_fmap_2.
  - intros (-> & Hnd & Hall & -> & -> & Hcomp). split; [rewrite fmap_cons, list_to_set_cons; set_solver|].
    split. { rewrite fmap_cons. constructor; [|done]. intros (b & Heq & Hb)%list_elem_of_fmap. destruct (Hall b Hb) as (_ & Hn & _). set_solver. }
    split. { intros b [->|Hb]%elem_of_cons; [done|]. destruct (Hall b Hb) as (? & ? & ? & ?). split_and!; try done. set_solver. }
    cbn [existsb]. split; [by destruct active, (isActiveAssignmentStatus (Assignment_Status a))|].
    split; [by destruct failed, (failed_status (Assignment_Status a))|].
    intros Ha Hf b [->|Hb]%elem_of_cons; [|by apply Hcomp]. apply orb_false_iff in Ha as [Ha _], Hf as [Hf _].
    apply orb_false_iff in Ha as [Ha _], Hf as [Hf _]. destruct Hcase as [Hk|[Hk|Hk]]; [congruence..|done].
Qed.
Lemma active_not_failed status : isActiveAssignmentStatus status = true → failed_status status = false.
Proof.
  unfold isActiveAssignmentStatus, activePlanStepAssignmentStatuses. rewrite existsb_exists.
  intros (x & Hx%list_elem_of_In & ->%String.eqb_eq). repeat (apply elem_of_cons in Hx as [->|Hx]; [reflexivity|]). by apply not_elem_of_nil in Hx.
Qed.
Lemma fan_in_run l : ∀ required seen active failed, scanned required seen active failed l (fan_in required seen active failed l).
Proof.
  induction l as [|a l IH]; intros required seen active failed; cbn [fan_in].
  { cbn. split; [set_solver|]. split; [constructor|]. split; [by intros ? ?%not_elem_of_nil|]. rewrite !orb_false_r.
    split_and!; try done. by intros _ _ ? ?%not_elem_of_nil. }
  destruct (negb (bool_decide (DeliveryPlanStepID a ∈ required)) || N.eqb (Assignment_ID a) Nil || N.eqb (ChildAutomationTaskID a) Nil) eqn:H1.
  { eexists. split; [done|]. split; [done|]. intros [_ Hall]. destruct (Hall a) as [(Hr & _ & Hi & Hc) _]; [by left|].
    rewrite (bool_decide_eq_true_2 _ Hr), (proj2 (N.eqb_neq _ _) Hi), (proj2 (N.eqb_neq _ _) Hc) in H1. done. }
  rewrite !orb_false_iff, negb_false_iff, bool_decide_eq_true, !N.eqb_neq in H1. destruct H1 as [[Hr Hi] Hc].
  destruct (bool_decide (DeliveryPlanStepID a ∈ seen)) eqn:H2.
  { eexists. split; [done|]. split; [done|]. intros [_ Hall]. destruct (Hall a) as [(_ & Hs & _) _]; [by left|].
    by apply bool_decide_eq_true in H2. }
  apply bool_decide_eq_false in H2. assert (fitting required seen a) as Hfit by done.
  destruct (isActiveAssignmentStatus (Assignment_Status a)) eqn:Ha.
  { apply scanned_cons; [done|by left|]. by rewrite (active_not_failed _ Ha), Ha. }
  destruct (failed_status (Assignment_Status a)) eqn:Hf; [apply scanned_cons; [done|by right; left|]; by rewrite Ha, Hf|].
  destruct (String.eqb_spec (Assignment_Status a) DeliveryPlanStepAssignmentCompleted) as [Hs|Hs];
    [apply scanned_cons; [done|by right; right|]; by rewrite Ha, Hf|].
  eexists. split; [done|]. split; [done|]. intros [_ Hall]. destruct (Hall a) as [_ ?]; [by left|done].
Qed.

(** the children of an execution never make it succeed: the decision waits for a child or
    leaves the aggregation pending, never neither nor both; it reports nothing but the missing
    aggregate exactly when every required step has one completed assignment and there is no
    other; and it waits only while an assignment is active. *)
Theorem fan_in_never_succeeds requiredStepIDs assignments :
  let decision := AssessFanIn requiredStepIDs assignments in
  WaitingForChildren decision = negb (AggregationPending decision) ∧
  (decision = pending_because false "" ↔ all_completed requiredStepIDs assignments) ∧
  (WaitingForChildren decision = true → ∃ a, a ∈ assignments ∧ isActiveAssignmentStatus (Assignment_Status a) = true).
Proof.
  cbv zeta. unfold AssessFanIn. destruct (required_run requiredStepIDs ∅) as [Hbad Hgood].
  destruct (decide (Nil ∈ requiredStepIDs)) as [Hin|Hin].
  { rewrite Hbad by done. split; [done|]. split; [|done]. split; [done|]. by intros [? _ _ _]. }
  rewrite Hgood by done. pose proof (fan_in_run assignments (list_to_set requiredStepIDs ∪ ∅) ∅ false false) as Hrun.
  unfold scanned in Hrun. destruct (fan_in _ _ _ _ _) as [d|[[seen active] failed]].
  { destruct Hrun as (reason & -> & Hne & Hno). split; [done|]. split; [|done]. split.
    - intros H. exfalso. revert H Hne. clear. unfold pending_because. intros [= H]%(f_equal Reason). cbn in H. done.
    - intros [_ Hnd Hex Hall]. destruct Hno. split; [done|]. intros a Ha. destruct (Hall a Ha) as (? & ? & ?). split; [split_and!|]; try done.
      apply elem_of_union_l, elem_of_list_to_set, Hex. by apply list_elem_of_fmap_2. }
  destruct Hrun as (Hseen & Hnd & Hall & Hact & Hfail & Hcomp). cbn [orb] in Hact, Hfail.
  destruct active.
  { split; [done|]. split.
    - split; [by destruct failed|]. intros [_ _ _ Hc]. symmetry in Hact. apply existsb_exists in Hact as (a & Ha%list_elem_of_In & Hac).
      destruct (Hc a Ha) as (_ & _ & Hst). by apply active_not_completed in Hac.
    - intros _. symmetry in Hact. apply existsb_exists in Hact as (a & Ha%list_elem_of_In & Hac). by exists a. }
  destruct failed.
  { split; [done|]. split; [|done]. split; [done|]. intros [_ _ _ Hc]. symmetry in Hfail. apply existsb_exists in Hfail as (a & Ha%list_elem_of_In & Hf).
    destruct (Hc a Ha) as (_ & _ & Hst). by apply failed_not_completed in Hf. }
  assert (seen ⊆ list_to_set requiredStepIDs ∪ ∅) as Hsub.
  { rewrite Hseen. intros id. rewrite elem_of_union, elem_of_list_to_set. intros [(a & -> & Ha)%list_elem_of_fmap|]; [|set_solver]. by apply Hall. }
  destruct (Nat.eqb_spec (size seen) (size (list_to_set requiredStepIDs ∪ ∅ : gset uuid))) as [Hsz|Hsz]; cbn [negb].
  - split; [done|]. split; [|done]. split; [intros _|done]. split; [done|done|..].
    + assert (seen = list_to_set requiredStepIDs ∪ ∅) as Heq by (apply set_subseteq_size_eq; [done|lia]).
      intros id. rewrite Hseen in Heq. set_solver.
    + intros a Ha. destruct (Hall a Ha) as (_ & _ & ? & ?). split_and!; try done. by apply Hcomp.
  - split; [done|]. split; [|done]. split; [done|]. intros [_ _ Hex _]. destruct Hsz. f_equal. rewrite Hseen. set_solver.
Qed.
