(* ===== verification/PlanDispatchTheorems.v ===== *)
(** * Theorems on the dispatch of a plan, and an example

    The plan of [demo_rows], approved at gate 5 for work item 8: the task 20 dispatches it, the
    task 21 is to run its step 100, the machine [mac] serves the frozen workspace [repo] and the
    machine [old] did so 200 seconds before.  The hash of the plan stays a variable. *)
From stdpp Require Import base tactics list strings gmap relations.
From Stdlib Require Import Ascii.
From S2P Require Import Prelude GoStrings GoSort Json PlanGraph PlanGraphTheorems PlanStore PlanStored PlanEnsure PlanLease PlanLeaseFacts PlanLeaseTheorems PlanHashTheorems PlanAssign PlanDispatch PlanDispatchFacts PlanHashFacts PlanAssignFacts PlanDispatchRuns.
Open Scope string_scope.

Definition demo_child : AutomationTask :=
  {| Task_ID := 21%N; DeliveryWorkItemID := Some 8%N; Task_Status := "queued"; Task_RunID := ""; Task_WorkerID := "";
     Task_AgentKey := ""; Task_MachineID := ""; Task_LeaseExpiresAt := None |}.
Definition demo_gate : Workflow.DeliveryGate :=
  {| Workflow.Gate_WorkItemID := 8%N; Workflow.Kind := Workflow.GatePlan; Workflow.Decision := Workflow.DecisionApproved;
     Workflow.Authority := "human"; Workflow.DecidedBy := "eva"; Workflow.DecidedAt := 1 |}.
Definition demo_readiness : json :=
  JArray [JObject [("id", JString "repo"); ("ready", JBool true); ("sandbox_ready", JBool true);
                   ("isolation_mode", JString "docker_container")]].
Definition demo_beat (workerID machineID : string) (seen : Z) : AutomationAgentHeartbeat :=
  {| Heartbeat_WorkerID := workerID; Heartbeat_AgentKey := "builder"; Heartbeat_MachineID := machineID; Heartbeat_AgentInstanceID := None;
     Concurrency := 2; Draining := false; CapabilitiesJSON := "[]"; ProtocolsJSON := Marshal (JArray [JString "delivery.plan_steps.v1"]);
     WorkspaceReadiness := Marshal demo_readiness; LastSeenAt := seen |}.
Definition demo_tables : Dispatch :=
  {| executions := ∅; assignments := ∅; heartbeats := [demo_beat "w1" "mac" (290 * Second)%Z; demo_beat "w2" "old" (100 * Second)%Z];
     profiles := [{| Profile_AgentKey := "builder"; OperationsJSON := Marshal (JArray [JString "delivery.implementation"]); Active := true |}];
     snapshots := [{| Snapshot_WorkItemID := 8%N; Snapshot_Kind := "repository"; Reference := "workspace://repo" |}];
     gates := {[5%N := demo_gate]}; work_items := {[8%N := 30%N]}; projects := {[30%N := 40%N]} |}.
Definition demo_approved_db : DB :=
  {| plans := {[7%N := demo_approved]}; tasks := {[20%N := demo_task; 21%N := demo_child]};
     steps := list_to_map ((λ s, (Step_ID s, s)) <$> Steps demo_rows); edges := Dependencies demo_rows;
     events := []; drawn := 0; dispatch := demo_tables |}.

(** ** The transactions of the example *)

Abbreviation demo_create now key :=
  (CreateExecutionInTransaction (unicode := ascii_only) (text := unary) (jsonb := same_jsonb) (map_range := tree_order)
     (demo_tx now) 20%N 7%N 2 key 0).
Abbreviation demo_reserve now :=
  (ReserveReadyAssignmentsInTransaction (unicode := ascii_only) (text := unary) (jsonb := same_jsonb) (map_range := tree_order)
     (ranged := tree_mapping) (demo_tx now) 500%N 1 {[100%N := 21%N]} 0).
Abbreviation demo_admit now a :=
  (ValidateAssignmentWorker (unicode := ascii_only) (text := unary) (jsonb := same_jsonb) (demo_tx now) a 8%N "w1" "builder" "mac").

Definition demo_execution (hash : string) : DeliveryPlanExecution :=
  {| Execution_ID := 500%N; Execution_AutomationTaskID := 20%N; Execution_IdempotencyKey := "once"; Execution_PlanID := 7%N;
     PlanVersion := 1; Execution_ApprovedGateID := 5%N; PlanHash := hash; MaxConcurrency := 2;
     Execution_Status := DeliveryPlanExecutionPending; Execution_DispatchedAt := None; Execution_StartedAt := None;
     Execution_CompletedAt := None; Execution_CreatedAt := (300 * Second)%Z; Execution_UpdatedAt := (300 * Second)%Z |}.
Definition demo_bound (machineID : string) : DeliveryPlanStepAssignment :=
  {| Assignment_ID := 501%N; ExecutionID := 500%N; DeliveryPlanStepID := 100%N; ChildAutomationTaskID := 21%N;
     TargetMachineID := machineID; TargetAgentKey := "builder"; Assignment_Status := DeliveryPlanStepAssignmentPending;
     Assignment_QueuedAt := None; Assignment_DispatchedAt := None; Assignment_StartedAt := None; Assignment_CompletedAt := None;
     Assignment_CreatedAt := (300 * Second)%Z; Assignment_UpdatedAt := (300 * Second)%Z |}.
(** The tables with the execution and these assignments, after [n] identities. *)
Definition demo_dispatched (hash : string) (rows : gmap uuid DeliveryPlanStepAssignment) (n : nat) : DB :=
  {| plans := plans demo_approved_db; tasks := tasks demo_approved_db; steps := steps demo_approved_db; edges := edges demo_approved_db;
     events := []; drawn := n;
     dispatch := set_assignments rows (set_executions {[500%N := demo_execution hash]} demo_tables) |}.

(** One statement of a transaction, evaluated. *)
Lemma run_bind {A B} (m : T A) (f : A → T B) db a db1 r : m db = Ok (a, db1) → f a db1 = r → (m ≫= f) db = r.
Proof. intros H <-. unfold mbind, T_bind. by rewrite H. Qed.
Ltac run_statement :=
  lazymatch goal with
  | |- (lift (ApprovedPlanContentHash _ _ _) ≫= _) _ = _ => fail
  | |- (if ?c then _ else _) _ = _ =>
      let v := eval vm_compute in c in replace c with v by (vm_compute; reflexivity); cbv iota
  | |- (match ?x with _ => _ end) _ = _ =>
      let v := eval vm_compute in x in replace x with v by (vm_compute; reflexivity); cbv iota beta
  | |- (?m ≫= ?f) ?db = ?r =>
      let v := eval vm_compute in (m db) in
      match v with Ok (?a, ?db1) => refine (run_bind m f db a db1 r _ _); [vm_compute; reflexivity|cbv beta zeta] end
  end.
(** The statement that hashes the plan, when its rows are those of [H]. *)
Ltac run_hash H :=
  lazymatch goal with
  | |- (lift ?m ≫= ?f) ?db = ?r =>
      lazymatch type of H with _ = Ok ?h => refine (run_bind (lift m) f db h db r _ _); [|cbv beta zeta] end;
      [apply lift_ok; split; [|reflexivity]; etrans; [|exact H]; f_equal; vm_compute; reflexivity|]
  end.

Lemma demo_creates h : demo_hash (Steps demo_rows) (Dependencies demo_rows) = Ok h →
  demo_create (300 * Second)%Z " once " demo_approved_db = Ok ((demo_execution h, true), demo_dispatched h ∅ 1).
Proof.
  intros Hf. unfold CreateExecutionInTransaction. repeat run_statement. run_hash Hf. vm_compute. reflexivity.
Qed.
Lemma demo_reserves h : demo_hash (Steps demo_rows) (Dependencies demo_rows) = Ok h →
  demo_reserve (300 * Second)%Z (demo_dispatched h ∅ 1) =
    Ok ([demo_bound "mac"], demo_dispatched h {[501%N := demo_bound "mac"]} 2).
Proof.
  intros Hf. unfold ReserveReadyAssignmentsInTransaction. repeat run_statement. run_hash Hf. cbn [PlanHash]. rewrite String.eqb_refl.
  repeat run_statement. vm_compute. reflexivity.
Qed.
(** The worker [w1] on [mac] takes over what is bound to [old]. *)
Lemma demo_moves h : demo_admit (300 * Second)%Z (demo_bound "old") (demo_dispatched h {[501%N := demo_bound "old"]} 2) =
  Ok (((300 * Second)%Z, moved_to "mac" (300 * Second) (demo_bound "old")),
      demo_dispatched h {[501%N := moved_to "mac" (300 * Second) (demo_bound "old")]} 2).
Proof. vm_compute. reflexivity. Qed.

(** The invariants of the example. *)
Lemma demo_approved_keyed : well_keyed demo_approved_db.
Proof.
  split; intros id row H.
  - by apply (keyed_steps demo_db demo_keyed).
  - change ((({[20%N := demo_task; 21%N := demo_child]} : gmap uuid AutomationTask) !! id) = Some row) in H.
    apply lookup_insert_Some in H as [[<- <-]|[_ H]]; [done|]. by apply lookup_singleton_Some in H as [<- <-].
  - by apply (keyed_plans demo_db demo_keyed).
  - by apply (keyed_fence demo_db demo_keyed id).
Qed.
Lemma demo_approved_bindings : bindings demo_approved_db.
Proof. split; intros; simplify_map_eq. Qed.
Lemma demo_dispatched_keyed h rows n : well_keyed (demo_dispatched h rows n).
Proof. destruct demo_approved_keyed as [H1 H2 H3 H4]. by split. Qed.
Lemma demo_dispatched_bindings h a n : Assignment_ID a = 501%N → ExecutionID a = 500%N → bindings (demo_dispatched h {[501%N := a]} n).
Proof.
  intros Ha He. split; cbn; setoid_rewrite lookup_singleton_Some.
  - by intros id e [<- <-].
  - intros id e [<- <-]. cbn. unfold DeliveryPlanExecutionMaxConcurrency. lia.
  - by intros ? ? ? ? [<- _] [<- _].
  - by intros id b [<- <-].
  - intros id b [<- <-]. rewrite He. by eexists.
  - by intros ? ? ? ? [<- _] [<- _].
Qed.
Lemma demo_dispatched_none h : bindings (demo_dispatched h ∅ 1).
Proof.
  destruct (demo_dispatched_bindings h (demo_bound "mac") 1 eq_refl eq_refl) as [H1 H2 H3 _ _ _]. split; try done.
  all: cbn; intros; simplify_map_eq.
Qed.

(** * Theorems on the dispatch of a plan *)

(** ** Rows of a table *)

Lemma values_NoDup {A B} (f : A → B) (P : A → Prop) `{∀ x, Decision (P x)} (t : gmap uuid A) :
  (∀ i j x y, t !! i = Some x → t !! j = Some y → P x → P y → f x = f y → i = j) → NoDup (f <$> filter P (values t)).
Proof.
  intros Hinj. unfold values. assert (∀ i x, (i, x) ∈ map_to_list t → t !! i = Some x) as Hin by (intros i x; apply elem_of_map_to_list).
  pose proof (NoDup_fst_map_to_list t) as Hnd. revert Hin Hnd. generalize (map_to_list t). intros l Hin Hnd.
  induction l as [|[i x] l IH]; [constructor|]. rewrite fmap_cons in Hnd. apply NoDup_cons in Hnd as [Hi Hnd]. rewrite fmap_cons. cbn [snd].
  assert (NoDup (f <$> filter P l.*2)) as Hl by (apply IH; [intros; apply Hin; by right|done]).
  destruct (decide (P x)) as [Hp|Hp]; [rewrite filter_cons_True by done|by rewrite filter_cons_False].
  rewrite fmap_cons. constructor; [|done]. intros (y & Heq & [Hpy ([j y'] & -> & Hj)%list_elem_of_fmap]%list_elem_of_filter)%list_elem_of_fmap.
  apply Hi. rewrite (Hinj i j x y'); [by apply (list_elem_of_fmap_2 fst _ (j, y'))|apply Hin; by left|apply Hin; by right|done..].
Qed.
Lemma count_le {A} (p : A → bool) (t t' : gmap uuid A) :
  (∀ id a', t' !! id = Some a' → p a' = true → ∃ a, t !! id = Some a ∧ p a = true) → (count p t' ≤ count p t)%nat.
Proof.
  revert t. induction t' as [|id a' t' Hid IH] using map_ind; intros t H.
  { rewrite count_none; [apply Nat.le_0_l|]. by intros id a; rewrite lookup_empty. }
  rewrite count_fresh by done. destruct (p a') eqn:Hp; cbn [one].
  - destruct (H id a') as (a & Ha & Hpa); [by rewrite lookup_insert_eq|done|].
    rewrite <-(insert_delete_id t id a Ha), count_fresh by apply lookup_delete_eq. rewrite Hpa. cbn [one].
    apply le_n_S, IH. intros i x Hx Hpx. assert (i ≠ id) as Hne by (intros ->; congruence).
    destruct (H i x) as (y & Hy & Hpy); [by rewrite lookup_insert_ne|done|]. exists y. by rewrite lookup_delete_ne.
  - apply IH. intros i x Hx Hpx. assert (i ≠ id) as Hne by (intros ->; congruence). apply (H i x); [by rewrite lookup_insert_ne|done].
Qed.

Section Dispatched.
Context {unicode : GoUnicode} {text : UuidText} {jsonb : Jsonb} {map_range : GoMapRange} {ranged : GoMappingRange}.

(** ** A reservation *)

Definition target_of (a : DeliveryPlanStepAssignment) : assignmentTarget :=
  {| MachineTarget := TargetMachineID a; AgentTarget := TargetAgentKey a |}.
(** Why a new assignment is right: its step was ready, its machine accepts work on every
    workspace frozen for the work item of the execution's parent task, and neither the execution
    nor the machine has more than it allows. *)
Record justified (tx : Tx) (executionID : uuid) (now : Z) (db db' : DB) (a : DeliveryPlanStepAssignment) : Prop := {
  justified_step : ∃ execution s, executions (dispatch db) !! executionID = Some execution ∧ steps db !! DeliveryPlanStepID a = Some s ∧
    step_ready db executionID (Execution_PlanID execution) s = true ∧ (requiredAgent s = "" ∨ TargetAgentKey a = requiredAgent s) ∧
    (activeCount db' executionID ≤ MaxConcurrency execution)%Z;
  justified_machine : ∃ execution parent item ids row, executions (dispatch db) !! executionID = Some execution ∧
    tasks db !! Execution_AutomationTaskID execution = Some parent ∧ DeliveryWorkItemID parent = Some item ∧ frozen_for item db ids ∧
    accepts_work row ids (beat_time tx (normalizeNow tx now)) ∧ row ∈ eligible_rows ids (beat_time tx (normalizeNow tx now)) db ∧ heartbeat_key row = target_of a ∧
    (reservations db' (target_of a) ≤ concurrency_of (target_of a) (eligible_rows ids (beat_time tx (normalizeNow tx now)) db))%Z;
}.
Record sound_reservation (tx : Tx) (executionID : uuid) (children : gmap uuid uuid) (now : Z) (db : DB)
    (result : list DeliveryPlanStepAssignment) (db' : DB) : Prop := {
  reservation_result : (λ a, (DeliveryPlanStepID a, ChildAutomationTaskID a)) <$> result ≡ₚ map_to_list children;
  reservation_stored : ∀ a, a ∈ result → ExecutionID a = executionID ∧ assignments (dispatch db') !! Assignment_ID a = Some a;
  reservation_frame : same_plans db db' ∧ executions (dispatch db') = executions (dispatch db) ∧
    ∀ id a, assignments (dispatch db) !! id = Some a → assignments (dispatch db') !! id = Some a;
  reservation_new : ∀ id a, assignments (dispatch db') !! id = Some a → assignments (dispatch db) !! id = None →
    a ∈ result ∧ justified tx executionID now db db' a;
}.

Lemma elem_of_existing db executionID stepIDs a : bindings db → a ∈ existing_rows db executionID stepIDs ↔
  assignments (dispatch db) !! Assignment_ID a = Some a ∧ ExecutionID a = executionID ∧ DeliveryPlanStepID a ∈ stepIDs.
Proof.
  intros Hb. unfold existing_rows, assignments_where. rewrite sort_by_elem, list_elem_of_filter, elem_of_values, andb_true_iff, N.eqb_eq, bool_decide_eq_true.
  split; [intros [[? ?] [id Hid]]|intros (H1 & H2 & H3); split; [done|by eexists]]. by rewrite (assignment_keyed _ Hb _ _ Hid).
Qed.
Lemma existing_ids db executionID stepIDs : bindings db → NoDup (DeliveryPlanStepID <$> existing_rows db executionID stepIDs).
Proof.
  intros Hb. unfold existing_rows, assignments_where. rewrite sort_by_perm. apply values_NoDup.
  intros i j x y Hx Hy [Hp%N.eqb_eq _]%andb_true_iff [Hq%N.eqb_eq _]%andb_true_iff Heq.
  eapply (assignment_once _ Hb); [exact Hx|exact Hy|]. left. split; [congruence|done].
Qed.
Lemma created_reserves execution children targets now created rows key :
  Forall2 (row_for execution children targets now) created rows → (∀ r, r ∈ rows → is_Some (targets !! Step_ID r)) →
  length (filter (λ a, reserves key a = true) created) = length (filter (λ r, targets !! Step_ID r = Some key) rows).
Proof.
  induction 1 as [|a r created rows Ha _ IH]; intros Hall; [done|].
  specialize (IH (λ x Hx, Hall x (proj2 (elem_of_cons _ _ _) (or_intror Hx)))). destruct (Hall r) as [t Ht]; [by left|].
  assert (reserves key a = true ↔ targets !! Step_ID r = Some key) as Hiff.
  { rewrite Ha, Ht. unfold reserves. cbn. change (isActiveAssignmentStatus DeliveryPlanStepAssignmentPending) with true.
    rewrite andb_true_r, andb_true_iff, !String.eqb_eq. destruct t, key. cbn. split; [by intros [-> ->]|by intros [= -> ->]]. }
  destruct (decide (targets !! Step_ID r = Some key)) as [Hk|Hk].
  - rewrite !filter_cons_True by tauto. cbn. by rewrite IH.
  - rewrite !filter_cons_False by tauto. done.
Qed.

(** The pairs of a result that covers the mapping. *)
Lemma covers_mapping (children : gmap uuid uuid) (result : list DeliveryPlanStepAssignment) : NoDup (DeliveryPlanStepID <$> result) →
  (∀ a, a ∈ result → children !! DeliveryPlanStepID a = Some (ChildAutomationTaskID a)) →
  (∀ id, is_Some (children !! id) → id ∈ DeliveryPlanStepID <$> result) →
  (λ a, (DeliveryPlanStepID a, ChildAutomationTaskID a)) <$> result ≡ₚ map_to_list children.
Proof.
  intros Hnd H1 H2. apply NoDup_Permutation.
  - apply (NoDup_fmap_1 fst). by rewrite <-list_fmap_compose.
  - apply NoDup_map_to_list.
  - intros [id child]. rewrite list_elem_of_fmap, elem_of_map_to_list. split.
    + intros (a & [= -> ->] & Ha). by apply H1.
    + intros Hc. assert (is_Some (children !! id)) as (a & -> & Ha)%H2%list_elem_of_fmap by (by eexists). exists a. split; [|done].
      pose proof (H1 a Ha) as Ha'. congruence.
Qed.

(** What the rows of a new reservation are. *)
Lemma new_row {tx execution item limit children existing newIDs now db db' rows targets created ids a} :
  reserved tx execution item limit children existing newIDs now db db' rows targets created ids → a ∈ created →
  ∃ s row, stored_row s ∈ rows ∧ steps db !! Step_ID s = Some s ∧ step_ready db (Execution_ID execution) (Execution_PlanID execution) s = true ∧
    DeliveryPlanStepID a = Step_ID s ∧ ExecutionID a = Execution_ID execution ∧ ChildAutomationTaskID a = default Nil (children !! Step_ID s) ∧
    row ∈ eligible_rows ids (beat_time tx now) db ∧ heartbeat_key row = target_of a ∧ targets !! Step_ID s = Some (target_of a) ∧
    (requiredAgent s = "" ∨ TargetAgentKey a = requiredAgent s).
Proof.
  intros R [i Hi]%list_elem_of_lookup. destruct (Forall2_lookup_l _ _ _ _ _ (reserved_rows R) Hi) as (r & Hr & Ha).
  apply list_elem_of_lookup_2 in Hr. destruct (reserved_ready R r Hr) as (s & -> & Hs & Hready & _).
  destruct (chosen_total (reserved_targets R) _ Hr) as (row & Hrow & Ht & Hreq).
  assert (target_of a = heartbeat_key row) as Hk.
  { rewrite Ha. unfold target_of. cbn [new_assignment TargetMachineID TargetAgentKey]. rewrite Ht. by destruct (heartbeat_key row). }
  exists s, row. split; [done|]. split; [done|]. split; [done|]. rewrite Hk. split; [by rewrite Ha|]. split; [by rewrite Ha|]. split; [by rewrite Ha|].
  split; [done|]. split; [done|]. split; [done|]. change (requiredAgent (stored_row s)) with (requiredAgent s) in Hreq.
  destruct Hreq as [|Hreq]; [by left|right]. by rewrite <-Hreq, <-Hk.
Qed.
Lemma created_active {tx execution item limit children existing newIDs now db db' rows targets created ids} : bindings db →
  reserved tx execution item limit children existing newIDs now db db' rows targets created ids →
  ∀ id, activeCount db' id = (activeCount db id + if N.eqb id (Execution_ID execution) then Z.of_nat (length created) else 0)%Z.
Proof.
  intros Hb R id. rewrite !activeCount_count, (reserved_count R). pose proof (reserved_rows R) as Hall.
  assert (length (filter (λ a, is_active_for id a = true) created) = if N.eqb id (Execution_ID execution) then length created else 0%nat) as ->;
    [|destruct (N.eqb id (Execution_ID execution)); lia].
  clear R. induction Hall as [|a r created rows Ha _ IH]; [by destruct (N.eqb _ _)|].
  assert (is_active_for id a = N.eqb id (Execution_ID execution)) as Heq.
  { rewrite Ha. unfold is_active_for. cbn [new_assignment ExecutionID Assignment_Status].
    change (isActiveAssignmentStatus DeliveryPlanStepAssignmentPending) with true. rewrite andb_true_r. apply N.eqb_sym. }
  destruct (N.eqb id (Execution_ID execution)); [rewrite filter_cons_True by done; cbn; by rewrite IH|by rewrite filter_cons_False by (by rewrite Heq)].
Qed.

Section Sound.
Context {tx : Tx} {executionID : uuid} {children : gmap uuid uuid} {db : DB} {stepIDs : list uuid}.
Context (Hk : well_keyed db) (Hb : bindings db) (Hst : normalizeStepTaskMapping children = Ok stepIDs).
#[local] Abbreviation existing := (existing_rows db executionID stepIDs).
#[local] Abbreviation newIDs := (new_steps existing stepIDs).
Context (Hce : check_existing children existing = Ok tt).

Lemma existing_bound a : a ∈ existing → assignments (dispatch db) !! Assignment_ID a = Some a ∧ ExecutionID a = executionID ∧
  children !! DeliveryPlanStepID a = Some (ChildAutomationTaskID a).
Proof.
  intros Ha. destruct (normalize_mapping _ _ Hst) as (_ & Hdom & _). pose proof Ha as (H1 & H2 & [c Hc]%Hdom)%elem_of_existing; [|done].
  split; [done|]. split; [done|]. destruct (check_existing_ok _ _ _ Hce a Ha) as [Heq _]. rewrite Hc in *. cbn in Heq. by subst.
Qed.
Lemma again_sound now : newIDs = [] → sound_reservation tx executionID children now db (sort_by by_step existing) db.
Proof.
  intros Hnone. destruct (normalize_mapping _ _ Hst) as (_ & Hdom & _).
  split; [|intros a; rewrite sort_by_elem; intros Ha; by destruct (existing_bound a Ha) as (? & ? & _)|done|congruence].
  apply covers_mapping; [rewrite sort_by_perm; by apply existing_ids|intros a; rewrite sort_by_elem; intros Ha; by apply existing_bound|].
  intros id Hc%Hdom. rewrite sort_by_perm. destruct (decide (id ∈ DeliveryPlanStepID <$> existing)) as [|Hno]; [done|].
  assert (id ∈ newIDs) as Hin by (by apply list_elem_of_filter). rewrite Hnone in Hin. by apply not_elem_of_nil in Hin.
Qed.

Context {execution : DeliveryPlanExecution} {item : uuid} {limit now : Z} {db' : DB} {rows : list DeliveryPlanStep}
  {targets : gmap uuid assignmentTarget} {created : list DeliveryPlanStepAssignment} {ids : list string}.
Context {parent : AutomationTask} (Hparent : tasks db !! Execution_AutomationTaskID execution = Some parent)
  (Hitem : DeliveryWorkItemID parent = Some item).
Context (Hex : executions (dispatch db) !! executionID = Some execution)
  (R : reserved tx execution item limit children existing newIDs (normalizeNow tx now) db db' rows targets created ids).

Lemma new_execution_id : Execution_ID execution = executionID.
Proof. by apply (executions_keyed _ Hb). Qed.
Lemma created_bound a : a ∈ created → DeliveryPlanStepID a ∈ newIDs ∧ ExecutionID a = executionID ∧
  children !! DeliveryPlanStepID a = Some (ChildAutomationTaskID a).
Proof.
  intros Ha. destruct (normalize_mapping _ _ Hst) as (_ & Hdom & _). destruct (new_row R Ha) as (s & row & Hrow & _ & _ & H1 & H2 & H3 & _).
  assert (DeliveryPlanStepID a ∈ newIDs) as Hin.
  { rewrite <-(reserved_ids R), H1. by apply (list_elem_of_fmap_2 Step_ID _ (stored_row s)). }
  split; [done|]. split; [by rewrite H2, new_execution_id|]. apply list_elem_of_filter in Hin as [_ [c Hc]%Hdom]. rewrite H3, H1 in *. by rewrite Hc.
Qed.
Lemma created_ids : DeliveryPlanStepID <$> created ≡ₚ newIDs.
Proof.
  rewrite <-(reserved_ids R). assert (DeliveryPlanStepID <$> created = Step_ID <$> rows) as ->; [|done].
  pose proof (reserved_rows R) as Hall. clear -Hall.
  induction Hall as [|a r created rows Ha _ IH]; [done|]. rewrite !fmap_cons, IH. f_equal. by rewrite Ha.
Qed.
Lemma new_justified a : a ∈ created → justified tx executionID now db db' a.
Proof.
  intros Ha. destruct (new_row R Ha) as (s & row & Hrow & Hs & Hready & H1 & H2 & _ & Hel & Hkey & Ht & Hreq). rewrite new_execution_id in Hready. split.
  - exists execution, s. rewrite H1. split_and!; try done. rewrite (created_active Hb R), new_execution_id, N.eqb_refl.
    pose proof (reserved_limit R) as [Hmax _]. by rewrite new_execution_id in Hmax.
  - destruct (chosen_ids (reserved_targets R)) as [Hids Hne]. pose proof Hel as [Hacc%eligible_accepts _]%list_elem_of_filter.
    exists execution, parent, item, ids, row. split; [done|]. split; [done|]. split; [done|]. split; [by apply frozen_spec|].
    split; [done|]. split; [done|]. split; [done|]. rewrite reservations_count, (reserved_count R), (created_reserves _ _ _ _ _ _ _ (reserved_rows R)).
    2:{ intros r Hr. destruct (chosen_total (reserved_targets R) r Hr) as (? & _ & -> & _). by eexists. }
    pose proof (chosen_slots (reserved_targets R) (target_of a)) as Hsl. rewrite reservations_count in Hsl.
    assert (0 < length (filter (λ r, targets !! Step_ID r = Some (target_of a)) rows))%nat as Hpos; [|specialize (Hsl Hpos); lia].
    assert (stored_row s ∈ filter (λ r, targets !! Step_ID r = Some (target_of a)) rows) as Hin by (by apply list_elem_of_filter).
    destruct (filter _ rows); [by apply not_elem_of_nil in Hin|cbn; lia].
Qed.
Lemma new_sound : sound_reservation tx executionID children now db (sort_by by_step (existing ++ created)) db'.
Proof.
  destruct (normalize_mapping _ _ Hst) as (Hnd & Hdom & _). split.
  - apply covers_mapping.
    + rewrite sort_by_perm, fmap_app, created_ids. apply NoDup_app. split; [by apply existing_ids|]. split; [|by apply NoDup_filter].
      by intros id Hin [Hno _]%list_elem_of_filter.
    + intros a. rewrite sort_by_elem, elem_of_app. intros [Ha|Ha]; [by apply existing_bound|by apply created_bound].
    + intros id Hc%Hdom. rewrite sort_by_perm, fmap_app, elem_of_app, created_ids.
      destruct (decide (id ∈ DeliveryPlanStepID <$> existing)); [by left|right]. by apply list_elem_of_filter.
  - intros a. rewrite sort_by_elem, elem_of_app, (reserved_table R).
    intros [Ha|Ha]; [destruct (existing_bound a Ha) as (? & ? & _)|destruct (created_bound a Ha) as (_ & ? & _)]; auto.
  - destruct (reserved_frame R) as [H1 H2]. split; [done|]. split; [done|]. intros id a Ha. apply (reserved_table R). by right.
  - intros id a Ha Hno. apply (reserved_table R) in Ha as [[Ha <-]|Ha]; [|congruence].
    split; [rewrite sort_by_elem, elem_of_app; by right|by apply new_justified].
Qed.
Lemma new_within : within_limits db → within_limits db'.
Proof.
  intros Hw id e He. destruct (reserved_frame R) as [_ Hexs]. rewrite Hexs in He.
  rewrite (created_active Hb R), new_execution_id. destruct (N.eqb_spec id executionID) as [->|]; [|specialize (Hw _ _ He); lia].
  assert (e = execution) as -> by congruence. pose proof (reserved_limit R) as [Hmax _]. by rewrite new_execution_id in Hmax.
Qed.
End Sound.

Lemma reserve_sound tx executionID limit children now db result db' : well_keyed db → bindings db →
  ReserveReadyAssignmentsInTransaction tx executionID limit children now db = Ok (result, db') →
  sound_reservation tx executionID children now db result db' ∧ bindings db' ∧ (within_limits db → within_limits db').
Proof.
  intros Hk Hb [(-> & -> & ->)|(_ & _ & execution & parent & item & stepIDs & Hrv & Hce & Hout)]%reserve_run.
  { split; [|done]. split; [by rewrite map_to_list_empty|by intros a ?%not_elem_of_nil|done|congruence]. }
  destruct (reserving_execution Hrv) as (Hex & _). pose proof (executions_keyed _ Hb _ _ Hex) as Hid. rewrite Hid in Hce, Hout.
  pose proof (reserving_steps Hrv) as Hst. destruct (reserving_parent Hrv) as (Hparent & Hitem & _). destruct Hout as [(Hnone & -> & ->)|(_ & Hnew)]; [by split; [eapply again_sound|]|].
  apply reserve_new_run in Hnew as (rows & targets & created & ids & R & ->); [|done|apply NoDup_filter, (normalize_mapping _ _ Hst)].
  split; [by eapply new_sound|]. split; [|by eapply new_within]. apply (reserved_bindings R); [|done]. rewrite Hid. by eexists.
Qed.

(** ** Runs of the dispatcher *)

(** What the rest of the system does to the dispatch tables: executions keep what they froze,
    assignments are not created or moved, and none becomes active again. *)
Record same_freeze (e e' : DeliveryPlanExecution) : Prop := {
  freeze_identity : Execution_ID e' = Execution_ID e ∧ Execution_AutomationTaskID e' = Execution_AutomationTaskID e ∧
    Execution_IdempotencyKey e' = Execution_IdempotencyKey e;
  freeze_plan : Execution_PlanID e' = Execution_PlanID e ∧ PlanVersion e' = PlanVersion e ∧
    Execution_ApprovedGateID e' = Execution_ApprovedGateID e ∧ PlanHash e' = PlanHash e ∧ MaxConcurrency e' = MaxConcurrency e;
}.
Record same_binding (a a' : DeliveryPlanStepAssignment) : Prop := {
  binding_identity : Assignment_ID a' = Assignment_ID a ∧ ExecutionID a' = ExecutionID a ∧ DeliveryPlanStepID a' = DeliveryPlanStepID a ∧
    ChildAutomationTaskID a' = ChildAutomationTaskID a;
  binding_target : target_of a' = target_of a;
  binding_active : isActiveAssignmentStatus (Assignment_Status a') = true → isActiveAssignmentStatus (Assignment_Status a) = true;
}.
Record settles (d d' : Dispatch) : Prop := {
  settles_executions : ∀ id, match executions d !! id, executions d' !! id with
    | Some e, Some e' => same_freeze e e' | None, None => True | _, _ => False end;
  settles_assignments : ∀ id a', assignments d' !! id = Some a' → ∃ a, assignments d !! id = Some a ∧ same_binding a a';
}.
Inductive dispatches (db : DB) : DB → Prop :=
| dispatches_create tx parentID planID limit key now r db' :
    CreateExecutionInTransaction tx parentID planID limit key now db = Ok (r, db') → dispatches db db'
| dispatches_reserve tx executionID limit children now result db' :
    ReserveReadyAssignmentsInTransaction tx executionID limit children now db = Ok (result, db') → dispatches db db'
| dispatches_admit tx a workItem workerID agentKey machineID r db' :
    ValidateAssignmentWorker tx a workItem workerID agentKey machineID db = Ok (r, db') → dispatches db db'
| dispatches_claim tx input target r db' : claimReadyStepInTransaction tx input target db = Ok (r, db') → dispatches db db'
| dispatches_renew tx input u db' : RenewStepLeaseInTransaction tx input db = Ok (u, db') → dispatches db db'
| dispatches_transition tx input u db' : TransitionStepInTransaction tx input db = Ok (u, db') → dispatches db db'
| dispatches_other db' : well_keyed db' → settles (dispatch db) (dispatch db') → dispatches db db'.
Definition dispatching : relation DB := rtc dispatches.

(** The tables are keyed, bindings are unique and no execution exceeds its limit. *)
Definition dispatch_ok (db : DB) : Prop := well_keyed db ∧ bindings db ∧ within_limits db.

Lemma same_plans_keyed db db' : same_plans db db' → well_keyed db → well_keyed db'.
Proof. intros [(Hp & Ht & Hs) _] [K1 K2 K3 K4]. split; rewrite ?Hp, ?Ht, ?Hs; done. Qed.
Lemma settles_ok db db' : dispatch_ok db → well_keyed db' → settles (dispatch db) (dispatch db') → dispatch_ok db'.
Proof.
  intros (_ & [B1 B2 B3 B4 B5 B6] & Hw) Hk [He Ha].
  assert (∀ id e', executions (dispatch db') !! id = Some e' → ∃ e, executions (dispatch db) !! id = Some e ∧ same_freeze e e') as Hex.
  { intros id e' H. specialize (He id). rewrite H in He. destruct (executions (dispatch db) !! id) as [e|]; [by exists e|done]. }
  split; [done|]. split; [split|].
  - intros id e' (e & H & [(E1 & _) _])%Hex. rewrite E1. by apply B1.
  - intros id e' (e & H & [_ (_ & _ & _ & _ & E)])%Hex. rewrite E. by eapply B2.
  - intros i1 e1 i2 e2 (x1 & H1 & [(_ & E1 & _) _])%Hex (x2 & H2 & [(_ & E2 & _) _])%Hex Heq. eapply B3; [exact H1|exact H2|congruence].
  - intros id a' (a & H & [(E1 & _) _ _])%Ha. rewrite E1. by apply B4.
  - intros id a' (a & H & [(_ & E2 & _) _ _])%Ha. rewrite E2. destruct (B5 _ _ H) as [e Hx]. specialize (He (ExecutionID a)). rewrite Hx in He.
    destruct (executions (dispatch db') !! ExecutionID a); [by eexists|done].
  - intros i1 a1 i2 a2 (x1 & H1 & [(_ & E1 & E2 & E3) _ _])%Ha (x2 & H2 & [(_ & F1 & F2 & F3) _ _])%Ha Heq.
    eapply B6; [exact H1|exact H2|]. rewrite <-E1, <-E2, <-E3, <-F1, <-F2, <-F3. done.
  - intros id e' (e & H & [_ (_ & _ & _ & _ & E)])%Hex. rewrite E. specialize (Hw id e H). rewrite !activeCount_count in *.
    enough (count (is_active_for id) (assignments (dispatch db')) ≤ count (is_active_for id) (assignments (dispatch db)))%nat by lia.
    apply count_le. intros i a' (a & Hi & [(_ & E2 & _) _ E4])%Ha. unfold is_active_for. rewrite E2. intros [? ?%E4]%andb_true_iff. exists a. split; [done|]. by apply andb_true_iff.
Qed.
Lemma create_ok tx parentID planID limit key now db r db' : dispatch_ok db →
  CreateExecutionInTransaction tx parentID planID limit key now db = Ok (r, db') → dispatch_ok db'.
Proof.
  intros (Hk & [B1 B2 B3 B4 B5 B6] & Hw) H. destruct r as [e new].
  apply create_run in H as (parent & [(_ & _ & Hlim & _) _] & [(_ & -> & _)|(_ & _ & Hone & Hnew & Hs & Hd & plan & rows & deps & Hfr)]); [done|].
  destruct (frozen_identity _ _ _ _ _ _ _ _ _ _ Hfr) as (E1 & _ & _ & E2 & _).
  assert (∀ i a, assignments (dispatch db) !! i = Some a → ExecutionID a ≠ Execution_ID e) as Hno.
  { intros i a Ha Heq. destruct (B5 i a Ha) as [x Hx]. rewrite Heq in Hx. congruence. }
  split; [by eapply same_plans_keyed|]. split; [split|]; rewrite ?Hd; cbn.
  - intros id x [[<- <-]|[_ H]]%lookup_insert_Some; [done|by apply B1].
  - intros id x [[<- <-]|[_ H]]%lookup_insert_Some; [by rewrite E2|by eapply B2].
  - pose proof (execution_of_None _ _ Hone) as Hfree.
    intros i1 e1 i2 e2 [[<- <-]|[_ H1]]%lookup_insert_Some [[<- <-]|[_ H2]]%lookup_insert_Some Heq; [done|..|by eapply B3].
    + destruct (Hfree i2 e2 H2). congruence.
    + destruct (Hfree i1 e1 H1). congruence.
  - done.
  - intros id a Ha. destruct (B5 id a Ha) as [x Hx]. destruct (decide (Execution_ID e = ExecutionID a)) as [->|Hne];
      [rewrite lookup_insert_eq; by eexists|rewrite lookup_insert_ne by done; by eexists].
  - done.
  - intros id x Hx. rewrite Hd in Hx. cbn in Hx. rewrite activeCount_count, Hd. cbn. apply lookup_insert_Some in Hx as [[<- <-]|[_ Hx]]; [|by apply Hw].
    rewrite count_none; [rewrite E2; lia|]. intros i a Ha. unfold is_active_for. specialize (Hno i a Ha). by apply N.eqb_neq in Hno as ->.
Qed.
Lemma admit_ok tx a workItem workerID agentKey machineID db r db' : dispatch_ok db →
  ValidateAssignmentWorker tx a workItem workerID agentKey machineID db = Ok (r, db') → dispatch_ok db'.
Proof.
  intros (Hk & Hb & Hw) H. destruct r as [now result].
  destruct (validate_run _ _ _ _ _ _ _ _ _ _ Hb H) as (task & step & current & ids & [_ (Hrow & _ & _ & _ & Hact & _) _ _ _ _ Hres]).
  destruct Hres as [(_ & _ & ->)|(_ & -> & [_ _ _ _ Hs Hd])]; [done|].
  pose proof (assignment_keyed _ Hb _ _ Hrow) as Hid. destruct Hb as [B1 B2 B3 B4 B5 B6]. rewrite Hid in Hd.
  assert (∀ i x, <[Assignment_ID a := moved_to machineID now current]> (assignments (dispatch db)) !! i = Some x →
    ∃ y, assignments (dispatch db) !! i = Some y ∧ Assignment_ID x = Assignment_ID y ∧ ExecutionID x = ExecutionID y ∧
      DeliveryPlanStepID x = DeliveryPlanStepID y ∧ ChildAutomationTaskID x = ChildAutomationTaskID y) as Hrows.
  { intros i x [[<- <-]|[_ Hx]]%lookup_insert_Some; [by exists current|by exists x]. }
  split; [by eapply same_plans_keyed|]. split; [split|]; rewrite ?Hd; cbn; try done.
  - intros i x (y & Hy & -> & _)%Hrows. by apply B4.
  - intros i x (y & Hy & _ & -> & _)%Hrows. by eapply B5.
  - intros i1 x1 i2 x2 (y1 & H1 & _ & E1 & E2 & E3)%Hrows (y2 & H2 & _ & F1 & F2 & F3)%Hrows Heq.
    eapply B6; [exact H1|exact H2|]. by rewrite <-E1, <-E2, <-E3, <-F1, <-F2, <-F3.
  - intros id x Hx. rewrite Hd in Hx. cbn in Hx. specialize (Hw id x Hx). rewrite activeCount_count in *. rewrite Hd. cbn.
    pose proof (count_replace (is_active_for id) _ _ _ (moved_to machineID now current) Hrow) as Hc.
    assert (is_active_for id (moved_to machineID now current) = is_active_for id current) as Hsame.
    { unfold is_active_for. cbn [moved_to ExecutionID Assignment_Status]. by rewrite Hact. }
    rewrite Hsame in Hc. lia.
Qed.
Lemma leases_ok db t db' : dispatch_ok db → executes db t db' → same_dispatch db db' → dispatch_ok db'.
Proof.
  intros (Hk & [B1 B2 B3 B4 B5 B6] & Hw) Hx Hd. unfold same_dispatch in Hd. split; [by eapply executes_keyed|].
  split; [split; by rewrite Hd|]. intros id e. unfold activeCount, assignments_where. rewrite Hd. apply Hw.
Qed.
Lemma dispatches_ok db db' : dispatch_ok db → dispatches db db' → dispatch_ok db'.
Proof.
  intros Hok [tx p1 p2 limit key now r db1 H|tx e limit children now result db1 H|tx a i w g m r db1 H|tx input target r db1 H|tx input u db1 H|
              tx input u db1 H|db1 Hk H].
  - by eapply create_ok.
  - destruct Hok as (Hk & Hb & Hw). pose proof (reserve_sound _ _ _ _ _ _ _ _ Hk Hb H) as ([_ _ (Hs & _) _] & Hb' & Hw').
    split; [by eapply same_plans_keyed|]. by split; [|apply Hw'].
  - by eapply admit_ok.
  - eapply leases_ok; [done|by eapply executes_claim|]. by eapply (proj1 (lease_keeps_dispatch tx)).
  - eapply leases_ok; [done|by eapply executes_renew|]. by eapply (proj1 (proj2 (lease_keeps_dispatch tx))).
  - eapply leases_ok; [done|by eapply executes_transition|]. by eapply (proj2 (proj2 (lease_keeps_dispatch tx))).
  - by eapply settles_ok.
Qed.
Lemma dispatch_stays_ok db db' : dispatch_ok db → dispatching db db' → dispatch_ok db'.
Proof. intros Hok Hx. induction Hx as [db|db db1 db2 H _ IH]; [done|]. by apply IH, (dispatches_ok db). Qed.
End Dispatched.

(** C15: whatever the dispatcher, the workers and the rest of the system do, and in whatever
    order, a parent task has one execution, each execution binds a step at most once, a child
    task serves one step over all executions, and no execution has more active assignments than
    its limit.  Two executions of one plan may each bind the same step: which of their workers
    runs it is decided by the step's lease. *)
Theorem dispatch_stays_bounded {unicode : GoUnicode} {text : UuidText} {jsonb : Jsonb} {map_range : GoMapRange} {ranged : GoMappingRange} db db' :
  dispatch_ok db → dispatching db db' → dispatch_ok db'.
Proof. apply dispatch_stays_ok. Qed.
Lemma demo_approved_ok : dispatch_ok demo_approved_db.
Proof.
  split; [exact demo_approved_keyed|]. split; [exact demo_approved_bindings|]. intros id e He.
  change (executions (dispatch demo_approved_db)) with (∅ : gmap uuid DeliveryPlanExecution) in He. by rewrite lookup_empty in He.
Qed.
Lemma demo_dispatching : ∃ h, dispatching (unicode := ascii_only) (text := unary) (jsonb := same_jsonb) (map_range := tree_order)
  (ranged := tree_mapping) demo_approved_db (demo_dispatched h {[501%N := demo_bound "mac"]} 2).
Proof.
  destruct demo_hashed as [h Hh]. exists h. eapply rtc_l; [eapply dispatches_create, (demo_creates h Hh)|].
  eapply rtc_once, dispatches_reserve, (demo_reserves h Hh).
Qed.
Example dispatch_stays_bounded_witness : ∃ h, dispatch_ok (demo_dispatched h {[501%N := demo_bound "mac"]} 2) ∧
  activeCount (demo_dispatched h {[501%N := demo_bound "mac"]} 2) 500%N = 1%Z.
Proof.
  destruct demo_dispatching as [h Hx]. exists h. split; [|vm_compute; reflexivity].
  exact (dispatch_stays_bounded demo_approved_db _ demo_approved_ok Hx).
Defined.

(** C16: a reservation that succeeds returns exactly one assignment for each pair of the mapping,
    keeps every row that was stored, and adds an assignment only for a step whose dependencies
    are completed.  The machine it names has a heartbeat that is fresh, accepts work and has
    every workspace frozen for the parent task's work item, at least one, ready in a container
    sandbox.  Neither the limit of the execution nor, over all executions, the concurrency the
    machine reports for the profile is exceeded. *)
Theorem reservation_is_sound {unicode : GoUnicode} {text : UuidText} {jsonb : Jsonb} {map_range : GoMapRange} {ranged : GoMappingRange}
    tx executionID limit children now db result db' :
  well_keyed db → bindings db →
  ReserveReadyAssignmentsInTransaction tx executionID limit children now db = Ok (result, db') →
  sound_reservation tx executionID children now db result db'.
Proof. intros Hk Hb H. by apply (reserve_sound tx executionID limit children now db result db'). Qed.
Example reservation_is_sound_witness : ∃ h,
  sound_reservation (text := unary) (unicode := ascii_only) (jsonb := same_jsonb) (demo_tx (300 * Second)) 500%N {[100%N := 21%N]} 0
    (demo_dispatched h ∅ 1) [demo_bound "mac"] (demo_dispatched h {[501%N := demo_bound "mac"]} 2).
Proof.
  destruct demo_hashed as [h Hh]. exists h.
  apply (reservation_is_sound (map_range := tree_order) (ranged := tree_mapping) _ _ 1 _ _ _ _ _ (demo_dispatched_keyed h ∅ 1)).
  - exact (demo_dispatched_none h).
  - exact (demo_reserves h Hh).
Defined.
