(* ===== verification/PlanExecutionTheorems.v ===== *)
(** * Theorems on executions over time

    An execution is created once and keeps what it froze, and a bound step changes machines
    only when its machine is gone. *)
From stdpp Require Import base tactics list strings gmap relations.
From Stdlib Require Import Ascii.
From S2P Require Import Prelude GoStrings GoSort Json PlanGraph PlanStore PlanStored PlanEnsure PlanHashFacts PlanLease PlanLeaseFacts PlanLeaseTheorems PlanHashTheorems PlanAssign PlanAssignFacts PlanDispatch PlanDispatchFacts PlanDispatchRuns PlanDispatchTheorems.
Open Scope string_scope.

Section Executions.
Context {unicode : GoUnicode} {text : UuidText} {jsonb : Jsonb} {map_range : GoMapRange} {ranged : GoMappingRange}.

(** ** Executions stay as created *)

Lemma same_freeze_refl e : same_freeze e e.
Proof. by split. Qed.
Lemma same_freeze_trans e1 e2 e3 : same_freeze e1 e2 → same_freeze e2 e3 → same_freeze e1 e3.
Proof. intros [(?&?&?) (?&?&?&?&?)] [(?&?&?) (?&?&?&?&?)]. split; split_and!; congruence. Qed.
Lemma execution_stays db db' id e : dispatch_ok db → dispatches db db' → executions (dispatch db) !! id = Some e →
  ∃ e', executions (dispatch db') !! id = Some e' ∧ same_freeze e e'.
Proof.
  intros Hok Hx He. pose proof Hok as (Hk & Hb & _).
  assert (∀ d, executions d = executions (dispatch db) → ∃ e', executions d !! id = Some e' ∧ same_freeze e e') as Hsame.
  { intros d ->. exists e. split; [done|apply same_freeze_refl]. }
  destruct Hx as [tx p1 p2 limit key now [x new] db1 H|tx x limit children now result db1 H|tx a i w g m [now r] db1 H|tx input target r db1 H|
    tx input u db1 H|tx input u db1 H|db1 _ [H _]].
  - apply create_run in H as (parent & _ & [(_ & -> & _)|(_ & _ & _ & Hnew & _ & -> & _)]); [by apply Hsame|]. cbn.
    exists e. split; [|apply same_freeze_refl]. rewrite lookup_insert_ne by congruence. done.
  - apply reserve_sound in H as ([_ _ (_ & Hex & _) _] & _); [by apply Hsame|done..].
  - apply validate_run in H as (task & step & current & ids & [_ _ _ _ _ _ [(_ & _ & ->)|(_ & _ & [_ _ _ _ _ ->])]]); [by apply Hsame..|done].
  - apply Hsame. f_equal. by eapply (proj1 (lease_keeps_dispatch tx)).
  - apply Hsame. f_equal. by eapply (proj1 (proj2 (lease_keeps_dispatch tx))).
  - apply Hsame. f_equal. by eapply (proj2 (proj2 (lease_keeps_dispatch tx))).
  - specialize (H id). rewrite He in H. destruct (executions (dispatch db1) !! id) as [e'|]; [by exists e'|done].
Qed.
Lemma execution_persists db db' id e : dispatch_ok db → dispatching db db' → executions (dispatch db) !! id = Some e →
  ∃ e', executions (dispatch db') !! id = Some e' ∧ same_freeze e e'.
Proof.
  intros Hok Hx. revert e. induction Hx as [db|db db1 db2 H _ IH]; intros e He; [exists e; split; [done|apply same_freeze_refl]|].
  destruct (execution_stays db db1 id e Hok H He) as (e1 & He1 & Hs1).
  destruct (IH (dispatches_ok _ _ Hok H) e1 He1) as (e2 & He2 & Hs2). exists e2. split; [done|by eapply same_freeze_trans].
Qed.

(** A request for a task that has an execution. *)
Lemma create_again tx parentID planID limit key now db parent e : creating parentID planID limit key db parent →
  execution_of db parentID = Some e →
  CreateExecutionInTransaction tx parentID planID limit key now db =
    if N.eqb (Execution_PlanID e) planID && String.eqb (Execution_IdempotencyKey e) (key_of key) && Z.eqb (MaxConcurrency e) limit then
      match plans db !! Execution_PlanID e with
      | None => Err ErrRecordNotFound
      | Some plan => if bool_decide (DeliveryWorkItemID parent = Some (WorkItemID plan)) then Ok ((e, false), db) else Err ErrPlanExecutionParentMismatch
      end
    else Err ErrPlanExecutionConflict.
Proof.
  intros [(H1 & H2 & H3 & H4 & H5) [Hp [item Hitem]]] He. unfold CreateExecutionInTransaction, invalid_input, key_of in *.
  apply N.eqb_neq in H1, H2. apply String.eqb_neq in H4. rewrite H1, H2. destruct (Z.ltb_spec limit 1) as [|_]; [lia|].
  destruct (Z.ltb_spec DeliveryPlanExecutionMaxConcurrency limit) as [|_]; [lia|]. rewrite H4. destruct (Nat.ltb_spec 128 (String.length (TrimSpace key))) as [|_]; [lia|].
  unfold mbind, T_bind, check, mret, T_ret, first, read, raise. cbn [orb negb]. rewrite Hp, Hitem, He.
  destruct (N.eqb _ planID && _ && _); [|done]. destruct (plans db !! Execution_PlanID e) as [plan|]; [|done].
  destruct (N.eqb_spec (WorkItemID plan) item) as [->|Hne]; [by rewrite bool_decide_eq_true_2|]. rewrite bool_decide_eq_false_2; [done|congruence].
Qed.
End Executions.

(** C35: creating an execution is idempotent for its parent task: however the dispatcher and the
    workers have gone on, if the rows of the parent task and of the plan are again what they were
    at the creation, the same request returns the execution that was created, with all it froze,
    and writes nothing; a request with another plan, key or limit is a conflict. *)
Theorem execution_is_created_once {unicode : GoUnicode} {text : UuidText} {jsonb : Jsonb} {map_range : GoMapRange} {ranged : GoMappingRange}
    tx tx' parentID planID limit key now now' db e new db1 db2 :
  dispatch_ok db → CreateExecutionInTransaction tx parentID planID limit key now db = Ok ((e, new), db1) →
  dispatching db1 db2 → tasks db2 !! parentID = tasks db !! parentID → plans db2 !! planID = plans db !! planID →
  ∃ e', same_freeze e e' ∧ CreateExecutionInTransaction tx' parentID planID limit key now' db2 = Ok ((e', false), db2) ∧
    ∀ planID' limit' key', planID' ≠ Nil → (1 ≤ limit' ≤ DeliveryPlanExecutionMaxConcurrency)%Z → key_of key' ≠ "" →
      (String.length (key_of key') ≤ 128)%nat → planID' ≠ planID ∨ limit' ≠ limit ∨ key_of key' ≠ key_of key →
      CreateExecutionInTransaction tx' parentID planID' limit' key' now' db2 = Err ErrPlanExecutionConflict.
Proof.
  intros Hok H Hx Htask Hplan. pose proof (create_ok _ _ _ _ _ _ _ _ _ Hok H) as Hok1. pose proof Hok as (Hk & Hb & _).
  apply create_run in H as (parent & Hc & Hcase). pose proof Hc as [(Hp1 & Hp2 & Hl & Hk1 & Hk2) [Hpar Hitem]].
  assert (∃ plan, plans db !! planID = Some plan ∧ DeliveryWorkItemID parent = Some (WorkItemID plan)) as (plan & Hpl & Hwi).
  { destruct Hcase as [(_ & _ & _ & _ & _ & _ & Hpl)|(_ & _ & _ & _ & _ & _ & plan & rows & deps & [[Hpl _ _ _] _ _ _ _])]; [done|by exists plan]. }
  assert (∃ id, executions (dispatch db1) !! id = Some e ∧ Execution_AutomationTaskID e = parentID ∧ Execution_PlanID e = planID ∧
            Execution_IdempotencyKey e = key_of key ∧ MaxConcurrency e = limit) as (id & He & E1 & E2 & E3 & E4).
  { destruct Hcase as [(_ & -> & [Hid [id He]]%execution_of_Some & ? & ? & ? & _)|(_ & _ & _ & _ & _ & -> & pl & rows & deps & Hf)]; [by exists id|].
    destruct (frozen_identity _ _ _ _ _ _ _ _ _ _ Hf) as (F1 & F2 & _ & F3 & F4). destruct (frozen_snapshot _ _ _ _ _ _ _ _ _ _ Hf) as [[Hpl' _] _ _ _].
    exists (Execution_ID e). cbn. rewrite lookup_insert_eq, F1, F2. rewrite (keyed_tasks _ Hk _ _ Hpar), (keyed_plans _ Hk _ _ Hpl'). done. }
  destruct (execution_persists _ _ _ _ Hok1 Hx He) as (e' & He' & Hs). pose proof Hs as [(_ & S1 & S2) (S3 & _ & _ & _ & S4)].
  pose proof (dispatch_stays_ok _ _ Hok1 Hx) as (_ & Hb2 & _). pose proof (execution_of_row _ _ _ Hb2 He') as Hof. rewrite S1, E1 in Hof.
  exists e'. split; [done|]. split.
  - rewrite (create_again _ _ _ _ _ _ _ parent e'); [|split; [done|by rewrite Htask]|done].
    rewrite S3, S2, S4, E2, E3, E4, N.eqb_refl, String.eqb_refl, Z.eqb_refl, Hplan, Hpl. cbn [andb]. by rewrite bool_decide_eq_true_2.
  - intros planID' limit' key' G1 G2 G3 G4 Hne. rewrite (create_again _ _ _ _ _ _ _ parent e'); [|split; [done|by rewrite Htask]|done].
    rewrite S3, S2, S4, E2, E3, E4. destruct (N.eqb_spec planID planID') as [->|], (String.eqb_spec (key_of key) (key_of key')) as [Heq|],
      (Z.eqb_spec limit limit') as [->|]; cbn [andb]; try done. destruct Hne as [|[|]]; congruence.
Qed.

Example execution_is_created_once_witness : ∃ h, ∃ e',
  same_freeze (demo_execution h) e' ∧
  demo_create (350 * Second)%Z "once" (demo_dispatched h {[501%N := demo_bound "mac"]} 2) =
    Ok ((e', false), demo_dispatched h {[501%N := demo_bound "mac"]} 2) ∧
  demo_create (350 * Second)%Z "other" (demo_dispatched h {[501%N := demo_bound "mac"]} 2) = Err ErrPlanExecutionConflict.
Proof.
  destruct demo_hashed as [h Hh]. exists h.
  destruct (execution_is_created_once (ranged := tree_mapping) (demo_tx (300 * Second)) (demo_tx (350 * Second)) _ _ _ _ _ 0 _ _ _ _
    (demo_dispatched h {[501%N := demo_bound "mac"]} 2) demo_approved_ok (demo_creates h Hh)) as (e' & Hs & Hagain & Hother).
  - eapply rtc_once, dispatches_reserve, (demo_reserves h Hh).
  - reflexivity.
  - reflexivity.
  - exists e'. split; [exact Hs|]. split; [|apply Hother].
    + exact Hagain.
    + discriminate.
    + vm_compute. split; discriminate.
    + discriminate.
    + vm_compute. lia.
    + right. right. discriminate.
Defined.

(** ** The frozen content *)

Section Frozen.
Context {unicode : GoUnicode} {text : UuidText} {jsonb : Jsonb} {map_range : GoMapRange} {ranged : GoMappingRange}.

Lemma plan_rows_perm planID db : select_steps (λ s, N.eqb (Step_PlanID s) planID) db ≡ₚ plan_steps planID db.
Proof.
  unfold select_steps, plan_steps. rewrite !sort_by_perm. apply Permutation_refl', list_filter_iff. intros s. apply N.eqb_eq.
Qed.
Lemma executions_content planID db ts db' : well_keyed db → execution db ts db' →
  same_steps (plan_steps planID db) (plan_steps planID db') ∧ edges db' = edges db.
Proof.
  intros Hk Hx. induction Hx as [|ts db1 t db2 Hx [H1 H2] Hstep]; [by split; [apply same_steps_refl|]|].
  destruct (executes_content planID db1 t db2) as [H3 H4]; [by eapply execution_keyed|done|]. split; [by eapply same_steps_trans|congruence].
Qed.
(** The hash of a plan read for an execution, after a run of the workers. *)
Lemma snapshot_keeps_hash parent parent' planID db ts db' plan gate gate' rows rows' deps deps' h : well_keyed db → execution db ts db' →
  plans db' !! planID = plans db !! planID → snapshot_of parent planID db plan gate rows deps →
  snapshot_of parent' planID db' plan gate' rows' deps' → ApprovedPlanContentHash plan rows deps = Ok h →
  ApprovedPlanContentHash plan rows' deps' = Ok h.
Proof.
  intros Hk Hx Hp [[Hpl _] _ _ [-> ->]] [_ _ _ [-> ->]]. pose proof (executions_content (Plan_ID plan) _ _ _ Hk Hx) as [(l & Hl & Hall) He].
  apply hash_same_steps.
  - apply stored_same_steps. rewrite <-(plan_rows_perm (Plan_ID plan) db) in Hl. pose proof (plan_rows_perm (Plan_ID plan) db') as Hp2.
    symmetry in Hp2. apply Forall2_flip in Hall. destruct (Permutation_Forall2 Hp2 Hall) as (l2 & Hl2 & Hall2).
    exists l2. split; [by rewrite Hl|by apply Forall2_flip].
  - rewrite !sort_by_perm. unfold plan_edges. by rewrite He.
Qed.
End Frozen.

(** C17: the plan an execution froze stays the plan it executes: after any claims, renewals and
    reports of workers and any dispatch, as long as the plan's own row is not edited, the
    content hash a reservation compares is the one recorded at creation. *)
Theorem execution_stays_frozen {unicode : GoUnicode} {text : UuidText} {jsonb : Jsonb} {map_range : GoMapRange} {ranged : GoMappingRange}
    tx parentID planID limit key now db e db1 ts db2 parent plan gate rows deps :
  dispatch_ok db → CreateExecutionInTransaction tx parentID planID limit key now db = Ok ((e, true), db1) →
  execution db1 ts db2 → plans db2 !! planID = plans db !! planID →
  snapshot_of parent (Execution_PlanID e) db2 plan gate rows deps →
  Version plan = PlanVersion e ∧ gate = Execution_ApprovedGateID e ∧ ApprovedPlanContentHash plan rows deps = Ok (PlanHash e).
Proof.
  intros Hok H Hx Hplan Hsnap. pose proof Hok as (Hk & _ & _).
  apply create_run in H as (par & _ & [(? & _)|(_ & _ & _ & _ & Hs & Hd & plan0 & rows0 & deps0 & Hf)]); [done|].
  destruct (frozen_identity _ _ _ _ _ _ _ _ _ _ Hf) as (_ & E2 & E3 & _). pose proof (frozen_snapshot _ _ _ _ _ _ _ _ _ _ Hf) as Hsnap0.
  pose proof Hsnap0 as [[Hp0 _] (_ & _ & Hg0 & _) _ _]. pose proof (keyed_plans _ Hk _ _ Hp0) as Hid. rewrite E2, Hid in Hsnap.
  pose proof Hsnap as [[Hp _] (_ & _ & Hg & _) _ _]. assert (plan = plan0) as -> by congruence. split; [done|]. split; [congruence|].
  assert (snapshot_of par planID db1 plan0 (Execution_ApprovedGateID e) rows0 deps0) as Hsnap1.
  { destruct Hsnap0 as [[A1 A2] A3 A4 [A5 A6]]. destruct Hs as [(S1 & S2 & S3) (S4 & S5)]. split; [by rewrite S1|done|by rewrite Hd|].
    unfold select_steps, plan_edges in *. by rewrite S3, S4. }
  eapply (snapshot_keeps_hash par parent planID db1 ts db2); [by eapply same_plans_keyed|exact Hx| |exact Hsnap1|exact Hsnap|].
  - rewrite Hplan. by destruct Hs as [(-> & _) _].
  - by apply (frozen_hash _ _ _ _ _ _ _ _ _ _ Hf).
Qed.

(** The step 100 is claimed after the execution was created. *)
Definition demo_working (h : string) : DB := after (demo_claims (310 * Second)%Z) (demo_dispatched h ∅ 1).
Lemma demo_works h : execution (unicode := ascii_only) (text := unary) (demo_dispatched h ∅ 1) [(310 * Second)%Z] (demo_working h).
Proof.
  apply (execution_step _ [] (demo_dispatched h ∅ 1)); [constructor|]. destruct (after_ok (demo_claims (310 * Second)%Z) (demo_dispatched h ∅ 1)) as [r Hr].
  - vm_compute. reflexivity.
  - exact (executes_claim _ _ _ _ _ _ Hr).
Qed.
Example execution_stays_frozen_witness : ∃ h,
  (Status <$> steps (demo_working h) !! 100%N = Some DeliveryPlanStepRunning) ∧
  ApprovedPlanContentHash (unicode := ascii_only) (text := unary) (map_range := tree_order) demo_approved
    (stored_row (jsonb := same_jsonb) <$> select_steps (λ s, N.eqb (Step_PlanID s) 7) (demo_working h))
    (sort_by dependency_before (plan_edges 7%N (demo_working h))) = Ok h.
Proof.
  destruct demo_hashed as [h Hh]. exists h. split; [vm_compute; reflexivity|].
  apply (execution_stays_frozen (ranged := tree_mapping) (jsonb := same_jsonb) (demo_tx (300 * Second)) 20%N 7%N 2 " once " 0
    demo_approved_db (demo_execution h) (demo_dispatched h ∅ 1) [(310 * Second)%Z] (demo_working h) demo_task demo_approved 5%N).
  - exact demo_approved_ok.
  - exact (demo_creates h Hh).
  - exact (demo_works h).
  - reflexivity.
  - split; [by split|by split_and!|exists demo_gate; by split_and!|by split].
Defined.

(** ** Failover *)

(** The same child task runs the same step of the same execution, and still runs it. *)
Record same_work (a a' : DeliveryPlanStepAssignment) : Prop := {
  work_identity : Assignment_ID a' = Assignment_ID a ∧ ExecutionID a' = ExecutionID a ∧ DeliveryPlanStepID a' = DeliveryPlanStepID a ∧
    ChildAutomationTaskID a' = ChildAutomationTaskID a ∧ TargetAgentKey a' = TargetAgentKey a;
  work_active : isActiveAssignmentStatus (Assignment_Status a) = true ∧ isActiveAssignmentStatus (Assignment_Status a') = true;
}.
Lemma moved_reservations {text : UuidText} {jsonb : Jsonb} {unicode : GoUnicode} task step current workerID machineID ids now db db' :
  moved task step current workerID machineID ids now db db' → assignments (dispatch db) !! Assignment_ID current = Some current →
  TargetMachineID current ≠ machineID →
  (reservations db' (target_of (moved_to machineID now current)) ≤
   total_concurrency (machine_rows machineID (TargetAgentKey current) ids (AgentKey step) now db))%Z.
Proof.
  intros [_ _ Hfree _ _ Hd] Hrow Hne. rewrite reservations_count, Hd. rewrite reservations_count in Hfree.
  change (target_of (moved_to machineID now current)) with {| MachineTarget := machineID; AgentTarget := TargetAgentKey current |}.
  set (key := {| MachineTarget := machineID; AgentTarget := TargetAgentKey current |}) in *. cbn [assignments set_assignments].
  pose proof (count_replace (reserves key) _ _ _ (moved_to machineID now current) Hrow) as Hc.
  assert (one (reserves key (moved_to machineID now current)) ≤ 1)%nat by (unfold one; destruct (reserves key (moved_to machineID now current)); lia). lia.
Qed.

(** C18: a worker is admitted to a bound step only with a fresh heartbeat of its own that is
    eligible for every frozen workspace, on the machine the row names afterwards; the row moves
    to another machine only when the leases of task and step and every heartbeat of the old
    machine and profile have ended, keeps its execution, step, child task and profile, and does
    not exceed the concurrency of the new machine. *)
Theorem failover_is_safe {unicode : GoUnicode} {text : UuidText} {jsonb : Jsonb} tx a workItem workerID agentKey machineID db now result db' :
  well_keyed db → bindings db → ValidateAssignmentWorker tx a workItem workerID agentKey machineID db = Ok ((now, result), db') →
  ∃ old task step ids, assignments (dispatch db) !! Assignment_ID a = Some old ∧ steps db !! DeliveryPlanStepID old = Some step ∧
    tasks db !! ChildAutomationTaskID old = Some task ∧
    serves workerID machineID agentKey ids (AgentKey step) now db ∧ frozenLocalWorkspaceIDs workItem db = Ok (ids, db) ∧ ids ≠ [] ∧
    TargetMachineID result = machineID ∧ TargetAgentKey result = agentKey ∧ same_work old result ∧
    (result = old ∧ db' = db ∨
     TargetMachineID old ≠ machineID ∧ released task step now ∧
     (∀ h, h ∈ heartbeats (dispatch db) → beats_for (TargetMachineID old) agentKey h = true → (LastSeenAt h < now - assignmentHeartbeatMaxAge)%Z) ∧
     dispatch db' = set_assignments (<[Assignment_ID a := result]> (assignments (dispatch db))) (dispatch db) ∧ same_plans db db' ∧
     (reservations db' (target_of result) ≤ total_concurrency (machine_rows machineID agentKey ids (AgentKey step) now db))%Z).
Proof.
  intros Hk Hb H. destruct (validate_run _ _ _ _ _ _ _ _ _ _ Hb H) as (task & step & old & ids &
    [[Htask _] (Hrow & Hchild & _ & Hst & Hact & Hagent) Hs [Hids Hne] _ Hserves Hres]).
  exists old, task, step, ids. rewrite Hchild, Hst, (keyed_tasks _ Hk _ _ Htask). do 6 (split; [done|]).
  destruct Hres as [(Hm & -> & ->)|(Hm & -> & Hmv)]; [do 2 (split; [done|]); split; [by split|by left]|].
  do 2 (split; [done|]). split; [by split|]. right. pose proof (assignment_keyed _ Hb _ _ Hrow) as Hid. rewrite <-Hid in *.
  split; [done|]. split; [apply Hmv|]. split; [|split; [apply Hmv|split; [apply Hmv|]]].
  - intros h Hh [H1%String.eqb_eq H2%String.eqb_eq]%andb_true_iff. apply (moved_silent _ _ _ _ _ _ _ _ _ Hmv); congruence.
  - rewrite <-Hagent. by eapply moved_reservations.
Qed.
Example failover_is_safe_witness : ∃ h, ∃ old task step ids,
  assignments (dispatch (demo_dispatched h {[501%N := demo_bound "old"]} 2)) !! 501%N = Some old ∧ TargetMachineID old = "old" ∧
  released task step (300 * Second) ∧
  serves (text := unary) (unicode := ascii_only) (jsonb := same_jsonb) "w1" "mac" "builder" ids (AgentKey step) (300 * Second)
    (demo_dispatched h {[501%N := demo_bound "old"]} 2).
Proof.
  destruct demo_hashed as [h _]. exists h.
  destruct (failover_is_safe _ _ _ _ _ _ _ _ _ _ (demo_dispatched_keyed h _ 2) (demo_dispatched_bindings h (demo_bound "old") 2 eq_refl eq_refl)
    (demo_moves h)) as (old & task & step & ids & Hold & _ & _ & Hserves & _ & _ & _ & _ & _ & Hmove).
  exists old, task, step, ids. split; [exact Hold|]. cbn in Hold. injection Hold as <-. split; [reflexivity|].
  destruct Hmove as [[Heq _]|(_ & Hrel & _)]; [discriminate|]. split; [exact Hrel|exact Hserves].
Defined.
