(* ===== verification/JsonRaw.v ===== *)
(** * The text of a value inside a text ([json.RawMessage])

    [parse_span]: what the reader takes for a value is a value on its own. *)
From stdpp Require Import base tactics list strings gmap.
From Stdlib Require Import Ascii.
From S2P Require Import Prelude GoStrings Sha256 Json.
Open Scope list_scope.
Open Scope nat_scope.

(** ** Strings *)

Lemma prepend_Some p o s rest : prepend p o = Some (s, rest) ↔ ∃ s', o = Some (s', rest) ∧ s = (p ++ s')%list.
Proof.
  destruct o as [[s' r]|]; cbn; [|split; [done|by intros (? & ? & _)]].
  split; [intros [= <- <-]; by exists s'|intros (x & [= <- <-] & ->); done].
Qed.
(** The rest of a surrogate pair, where the reader looks for it. *)
Definition pair_of (r2 : list ascii) : option (N * list ascii) :=
  match r2 with
  | b :: u :: k1 :: k2 :: k3 :: k4 :: r3 =>
      match hex4 k1 k2 k3 k4 with
      | Some m => if byte_is 92 b && Ascii.eqb u "u" && low_surrogate m then Some (m, r3) else None
      | None => None
      end
  | _ => None
  end.
Lemma hex_quote : hex_digit QUOTE = None.
Proof. reflexivity. Qed.
Lemma hex4_quote a b c d : QUOTE ∈ [a; b; c; d] → hex4 a b c d = None.
Proof.
  unfold hex4. rewrite !elem_of_cons. pose proof hex_quote as Hq.
  intros [<-|[<-|[<-|[<-|[]%not_elem_of_nil]]]]; rewrite Hq; repeat (destruct (hex_digit _); try done).
Qed.
Lemma pair_of_quote q r r' : pair_of (q ++ QUOTE :: r) = None → pair_of (q ++ QUOTE :: r') = None.
Proof.
  assert (∀ x y, pair_of (QUOTE :: x) = None ∧ pair_of (y :: QUOTE :: x) = None) as H12.
  { intros x y. split; [destruct x as [|? [|? [|? [|? [|? ?]]]]]; try done; cbn; by destruct (hex4 _ _ _ _)|].
    destruct x as [|? [|? [|? [|? ?]]]]; try done. cbn. destruct (hex4 _ _ _ _); [|done]. by rewrite andb_false_r. }
  destruct q as [|b [|u [|k1 [|k2 [|k3 [|k4 q]]]]]]; cbn [app].
  - intros _. by apply (H12 r' QUOTE).
  - intros _. apply H12.
  - intros _. by destruct r' as [|? [|? [|? ?]]].
  - intros _. destruct r' as [|? [|? ?]]; try done. cbn [pair_of]. rewrite hex4_quote; [done|set_solver].
  - intros _. destruct r' as [|? ?]; try done. cbn [pair_of]. rewrite hex4_quote; [done|set_solver].
  - intros _. cbn [pair_of]. rewrite hex4_quote; [done|set_solver].
  - cbn [pair_of]. destruct (hex4 k1 k2 k3 k4); [|done]. destruct (_ && _ && _); done.
Qed.
(** The bytes of one rune of two or more bytes. *)
Definition rune_of (l : list ascii) : option (list ascii * list ascii) :=
  match l with
  | c :: c2 :: r2 =>
      if rune2 c c2 then Some ([c; c2], r2)
      else match r2 with
           | c3 :: r3 =>
               if rune3 c c2 c3 then Some ([c; c2; c3], r3)
               else match r3 with
                    | c4 :: r4 => if rune4 c c2 c3 c4 then Some ([c; c2; c3; c4], r4) else None
                    | [] => None
                    end
           | [] => None
           end
  | _ => None
  end.
(** [unquote], one step at a time. *)
Lemma unquote_step c r : unquote (c :: r) =
  if byte_is 34 c then Some ([], r)
  else if byte_is 92 c then
    match r with
    | [] => None
    | e :: r1 =>
        if Ascii.eqb e "u" then
          match r1 with
          | h1 :: h2 :: h3 :: h4 :: r2 =>
              match hex4 h1 h2 h3 h4 with
              | None => None
              | Some n =>
                  if high_surrogate n then
                    match pair_of r2 with
                    | Some (m, r3) => prepend (EncodeRune (65536 + (n - 55296) * 1024 + (m - 56320))%N) (unquote r3)
                    | None => prepend replacement_char (unquote r2)
                    end
                  else if low_surrogate n then prepend replacement_char (unquote r2)
                  else prepend (EncodeRune n) (unquote r2)
              end
          | _ => None
          end
        else if one_of "bfnrt\/" e || byte_is 34 e then prepend [unescape e] (unquote r1)
        else None
    end
  else if N.ltb (N_of_ascii c) 32 then None
  else if is_ascii_byte c then prepend [c] (unquote r)
  else match rune_of (c :: r) with
       | Some (p, r') => prepend p (unquote r')
       | None => prepend replacement_char (unquote r)
       end.
Proof.
  cbn [unquote]. destruct (byte_is 34 c); [done|]. destruct (byte_is 92 c).
  - destruct r as [|e r1]; [done|]. destruct (Ascii.eqb e "u"); [|done].
    destruct r1 as [|h1 [|h2 [|h3 [|h4 r2]]]]; try done. destruct (hex4 h1 h2 h3 h4); [|done]. destruct (high_surrogate n); [|done].
    destruct r2 as [|b [|u [|k1 [|k2 [|k3 [|k4 r3]]]]]]; try done. cbn [pair_of]. destruct (hex4 k1 k2 k3 k4); [|done].
    by destruct (byte_is 92 b && Ascii.eqb u "u" && low_surrogate n0).
  - destruct (N.ltb _ 32); [done|]. destruct (is_ascii_byte c); [done|].
    destruct r as [|c2 r2]; [done|]. cbn [rune_of]. destruct (rune2 c c2); [done|].
    destruct r2 as [|c3 r3]; [done|]. destruct (rune3 c c2 c3); [done|]. destruct r3 as [|c4 r4]; [done|]. by destruct (rune4 c c2 c3 c4).
Qed.
Lemma rune_of_quote q r r' : rune_of (q ++ QUOTE :: r) = None → rune_of (q ++ QUOTE :: r') = None.
Proof.
  assert (∀ a b, rune2 a QUOTE = false ∧ rune3 a QUOTE b = false ∧ rune3 a b QUOTE = false) as H23.
  { intros a b. unfold rune2, rune3. change (cont QUOTE) with false. change (in_range 160 191 QUOTE) with false.
    change (in_range 128 159 QUOTE) with false. by rewrite !andb_false_r. }
  assert (∀ a b c, rune4 a QUOTE b c = false ∧ rune4 a b QUOTE c = false ∧ rune4 a b c QUOTE = false) as H4.
  { intros a b c. unfold rune4. change (cont QUOTE) with false. change (in_range 144 191 QUOTE) with false.
    change (in_range 128 143 QUOTE) with false. by rewrite !andb_false_r. }
  destruct q as [|a [|b [|c [|d q]]]]; cbn [app]; intros Hn.
  - destruct r' as [|x r']; [done|]. cbn [rune_of]. change (rune2 QUOTE x) with false. destruct r' as [|y r']; [done|].
    change (rune3 QUOTE x y) with false. by destruct r'.
  - cbn [rune_of]. rewrite (proj1 (H23 a a)). destruct r' as [|y r']; [done|]. rewrite (proj1 (proj2 (H23 a y))). destruct r' as [|z r']; [done|].
    by rewrite (proj1 (H4 a y z)).
  - cbn [rune_of] in *. destruct (rune2 a b); [done|]. rewrite (proj2 (proj2 (H23 a b))). destruct r' as [|z r']; [done|].
    by rewrite (proj1 (proj2 (H4 a b z))).
  - cbn [rune_of] in *. destruct (rune2 a b); [done|]. destruct (rune3 a b c); [done|]. by rewrite (proj2 (proj2 (H4 a b c))).
  - cbn [rune_of] in *. destruct (rune2 a b); [done|]. destruct (rune3 a b c); [done|]. by destruct (rune4 a b c d).
Qed.

(** A rune is taken from the bytes before a closing quote, or a lookahead that fails stays so. *)
Lemma rune_of_span c q r p r1 : rune_of (c :: q ++ QUOTE :: r) = Some (p, r1) → is_ascii_byte c = false →
  ∃ q', q = (tl p ++ q')%list ∧ r1 = (q' ++ QUOTE :: r)%list ∧ p ≠ [] ∧ ∀ r', rune_of (c :: q ++ QUOTE :: r') = Some (p, q' ++ QUOTE :: r')%list.
Proof.
  intros H Hc. assert (∀ a b, rune2 a QUOTE = false ∧ rune3 a QUOTE b = false ∧ rune3 a b QUOTE = false) as H23.
  { intros a b. unfold rune2, rune3. change (cont QUOTE) with false. change (in_range 160 191 QUOTE) with false.
    change (in_range 128 159 QUOTE) with false. by rewrite !andb_false_r. }
  assert (∀ a b d, rune4 a QUOTE b d = false ∧ rune4 a b QUOTE d = false ∧ rune4 a b d QUOTE = false) as H4.
  { intros a b d. unfold rune4. change (cont QUOTE) with false. change (in_range 144 191 QUOTE) with false.
    change (in_range 128 143 QUOTE) with false. by rewrite !andb_false_r. }
  destruct q as [|b q]; cbn [app rune_of] in H |- *.
  { rewrite (proj1 (H23 c c)) in H. destruct r as [|y r]; [done|]. rewrite (proj1 (proj2 (H23 c y))) in H. destruct r as [|z r]; [done|].
    by rewrite (proj1 (H4 c y z)) in H. }
  destruct (rune2 c b); [injection H as <- <-; by exists q|].
  destruct q as [|d q]; cbn [app] in H |- *.
  { rewrite (proj2 (proj2 (H23 c b))) in H. destruct r as [|z r]; [done|]. by rewrite (proj1 (proj2 (H4 c b z))) in H. }
  destruct (rune3 c b d); [injection H as <- <-; by exists q|].
  destruct q as [|e q]; cbn [app] in H |- *; [by rewrite (proj2 (proj2 (H4 c b d))) in H|].
  destruct (rune4 c b d e); [injection H as <- <-; by exists q|done].
Qed.
Lemma pair_of_span q r m r3 : pair_of (q ++ QUOTE :: r) = Some (m, r3) →
  ∃ b u k1 k2 k3 k4 q', q = (b :: u :: k1 :: k2 :: k3 :: k4 :: q') ∧ r3 = (q' ++ QUOTE :: r)%list ∧
    ∀ r', pair_of (q ++ QUOTE :: r') = Some (m, q' ++ QUOTE :: r')%list.
Proof.
  intros H. destruct q as [|b [|u [|k1 [|k2 [|k3 [|k4 q']]]]]]; cbn [app pair_of] in H |- *.
  - destruct r as [|? [|? [|? [|? [|? r]]]]]; try done. by destruct (hex4 _ _ _ _).
  - destruct r as [|? [|? [|? [|? r]]]]; try done. destruct (hex4 _ _ _ _); [|done]. by rewrite andb_false_r in H.
  - by destruct r as [|? [|? [|? ?]]].
  - destruct r as [|? [|? ?]]; try done. rewrite hex4_quote in H; [done|set_solver].
  - destruct r as [|? ?]; try done. rewrite hex4_quote in H; [done|set_solver].
  - rewrite hex4_quote in H; [done|set_solver].
  - exists b, u, k1, k2, k3, k4, q'. split; [done|]. destruct (hex4 k1 k2 k3 k4); [|done].
    destruct (_ && _ && _); [|done]. by injection H as <- <-.
Qed.

(** A string ends at a quote; what follows is not looked at. *)
Lemma unquote_span n : ∀ l s rest, length l ≤ n → unquote l = Some (s, rest) →
  ∃ p, l = (p ++ QUOTE :: rest)%list ∧ ∀ rest', unquote (p ++ QUOTE :: rest') = Some (s, rest').
Proof.
  induction n as [|n IH]; intros [|c r] s rest Hn H; try (cbn in Hn; lia); try done. cbn in Hn. rewrite unquote_step in H.
  destruct (byte_is 34 c) eqn:H34.
  { injection H as <- <-. apply byte_is_eq in H34 as ->. by exists []. }
  destruct (byte_is 92 c) eqn:H92.
  - destruct r as [|e r1]; [done|]. cbn in Hn. destruct (Ascii.eqb e "u") eqn:He.
    + destruct r1 as [|h1 [|h2 [|h3 [|h4 r2]]]]; try done. cbn in Hn. destruct (hex4 h1 h2 h3 h4) as [n0|] eqn:Hh; [|done].
      assert (∀ o, prepend o (unquote r2) = Some (s, rest) → (∀ q r', r2 = (q ++ QUOTE :: rest)%list →
        unquote (c :: e :: h1 :: h2 :: h3 :: h4 :: q ++ QUOTE :: r') = prepend o (unquote (q ++ QUOTE :: r'))) →
        ∃ p, c :: e :: h1 :: h2 :: h3 :: h4 :: r2 = (p ++ QUOTE :: rest)%list ∧ ∀ rest', unquote (p ++ QUOTE :: rest') = Some (s, rest')) as Hplain.
      { intros o Ho Hq. apply prepend_Some in Ho as (s' & Hs & ->). apply IH in Hs as (p & -> & Hp); [|lia].
        exists (c :: e :: h1 :: h2 :: h3 :: h4 :: p). split; [done|]. intros rest'. cbn [app]. rewrite Hq by done. by rewrite Hp. }
      assert (∀ q r', unquote (c :: e :: h1 :: h2 :: h3 :: h4 :: q ++ QUOTE :: r') =
        if high_surrogate n0 then
          match pair_of (q ++ QUOTE :: r') with
          | Some (m, r3) => prepend (EncodeRune (65536 + (n0 - 55296) * 1024 + (m - 56320))%N) (unquote r3)
          | None => prepend replacement_char (unquote (q ++ QUOTE :: r'))
          end
        else if low_surrogate n0 then prepend replacement_char (unquote (q ++ QUOTE :: r'))
        else prepend (EncodeRune n0) (unquote (q ++ QUOTE :: r'))) as Hstep by (intros; by rewrite unquote_step, H34, H92, He, Hh).
      destruct (high_surrogate n0) eqn:Hhs.
      * destruct (pair_of r2) as [[m r3]|] eqn:Hpair.
        -- assert (∃ b u k1 k2 k3 k4, r2 = b :: u :: k1 :: k2 :: k3 :: k4 :: r3) as (b & u & k1 & k2 & k3 & k4 & ->).
           { destruct r2 as [|b [|u [|k1 [|k2 [|k3 [|k4 r4]]]]]]; try done. cbn in Hpair. destruct (hex4 k1 k2 k3 k4); [|done].
             destruct (_ && _ && _); [|done]. injection Hpair as _ ->. by do 6 eexists. }
           apply prepend_Some in H as (s' & Hs & ->). cbn in Hn. apply IH in Hs as (p & -> & Hp); [|lia].
           exists (c :: e :: h1 :: h2 :: h3 :: h4 :: b :: u :: k1 :: k2 :: k3 :: k4 :: p). split; [done|]. intros rest'. cbn [app].
           change (b :: u :: k1 :: k2 :: k3 :: k4 :: p ++ QUOTE :: rest)%list with ((b :: u :: k1 :: k2 :: k3 :: k4 :: p) ++ QUOTE :: rest)%list in Hpair.
           destruct (pair_of_span _ _ _ _ Hpair) as (b' & u' & k1' & k2' & k3' & k4' & q' & [= <- <- <- <- <- <- <-] & _ & Hp').
           change (b :: u :: k1 :: k2 :: k3 :: k4 :: p ++ QUOTE :: rest')%list with ((b :: u :: k1 :: k2 :: k3 :: k4 :: p) ++ QUOTE :: rest')%list.
           rewrite Hstep, Hp'. by rewrite Hp.
        -- apply (Hplain _ H). intros q r' ->. rewrite Hstep. by rewrite (pair_of_quote _ _ r' Hpair).
      * destruct (low_surrogate n0); apply (Hplain _ H); intros q r' _; apply Hstep.
    + destruct (one_of "bfnrt\/" e || byte_is 34 e) eqn:Hone; [|done].
      apply prepend_Some in H as (s' & Hs & ->). apply IH in Hs as (p & -> & Hp); [|lia].
      exists (c :: e :: p). split; [done|]. intros rest'. cbn [app]. by rewrite unquote_step, H34, H92, He, Hone, Hp.
  - destruct (N.ltb (N_of_ascii c) 32) eqn:H32; [done|]. destruct (is_ascii_byte c) eqn:Ha.
    + apply prepend_Some in H as (s' & Hs & ->). apply IH in Hs as (p & -> & Hp); [|lia].
      exists (c :: p). split; [done|]. intros rest'. cbn [app]. by rewrite unquote_step, H34, H92, H32, Ha, Hp.
    + destruct (rune_of (c :: r)) as [[o r1]|] eqn:Hr.
      * apply prepend_Some in H as (s' & Hs & ->).
        assert (length r1 ≤ n ∧ ∃ q, c :: r = (o ++ q)%list ∧ r1 = q) as [Hl1 (q & Hq & ->)].
        { destruct r as [|c2 r2]; [done|]. cbn in Hr, Hn |- *. destruct (rune2 c c2); [injection Hr as <- <-; split; [lia|by exists r2]|].
          destruct r2 as [|c3 r3]; [done|]. cbn in Hn. destruct (rune3 c c2 c3); [injection Hr as <- <-; split; [lia|by exists r3]|].
          destruct r3 as [|c4 r4]; [done|]. cbn in Hn. destruct (rune4 c c2 c3 c4); [injection Hr as <- <-; split; [lia|by exists r4]|done]. }
        apply IH in Hs as (p & -> & Hp); [|done]. destruct o as [|c' o].
        { exfalso. destruct r as [|c2 r2]; [done|]. cbn in Hr. destruct (rune2 c c2); [done|]. destruct r2 as [|c3 r3]; [done|].
          destruct (rune3 c c2 c3); [done|]. destruct r3 as [|c4 r4]; [done|]. by destruct (rune4 c c2 c3 c4). }
        injection Hq as <- ->. rewrite app_assoc in Hr. pose proof (rune_of_span _ _ _ _ _ Hr Ha) as (q' & H1 & H2 & _ & H3). cbn [tl] in H1.
        apply app_inj_1 in H1 as [_ <-]; [|done]. exists (c :: o ++ p). rewrite <-app_assoc in *. cbn [app]. split; [by rewrite <-app_assoc|].
        intros rest'. rewrite unquote_step, H34, H92, H32, Ha, H3. by rewrite Hp.
      * apply prepend_Some in H as (s' & Hs & ->). apply IH in Hs as (p & -> & Hp); [|lia].
        exists (c :: p). split; [done|]. intros rest'. cbn [app]. rewrite unquote_step, H34, H92, H32, Ha.
        change (c :: p ++ QUOTE :: rest)%list with ((c :: p) ++ QUOTE :: rest)%list in Hr. pose proof (rune_of_quote _ _ rest' Hr) as Hr'.
        cbn [app] in Hr'. rewrite Hr'. by rewrite Hp.
Qed.

(** ** Numbers and literals *)

(** Another rest that starts alike, or nothing. *)
Definition alike (rest rest' : list ascii) : Prop := rest' = [] ∨ ∃ c r r', rest = c :: r ∧ rest' = c :: r'.
Lemma alike_app p rest rest' : alike rest rest' → alike (p ++ rest) (p ++ rest').
Proof. destruct p as [|c p]; [done|]. intros _. right. by exists c, (p ++ rest)%list, (p ++ rest')%list. Qed.
Lemma alike_nil rest : alike rest [].
Proof. by left. Qed.
Lemma alike_same c r r' : alike (c :: r) (c :: r').
Proof. right. by exists c, r, r'. Qed.

(** [scan l = Some (d, rest)] takes [d] from the front of [l], and would before any rest alike. *)
Definition spans (scan : list ascii → option (list ascii * list ascii)) : Prop :=
  ∀ l d rest, scan l = Some (d, rest) → l = (d ++ rest)%list ∧ ∀ rest', alike rest rest' → scan (d ++ rest') = Some (d, rest').
Lemma digits_of_span l : ∀ d rest, digits_of l = (d, rest) → l = (d ++ rest)%list ∧ ∀ rest', alike rest rest' → digits_of (d ++ rest') = (d, rest').
Proof.
  induction l as [|c l IH]; intros d rest H; cbn in H.
  - injection H as <- <-. split; [done|]. by intros rest' [->|(? & ? & ? & ? & _)].
  - destruct (is_digit c) eqn:Hc.
    + destruct (digits_of l) as [d0 r0] eqn:Hd. injection H as <- <-. destruct (IH d0 r0 eq_refl) as [-> Hr]. split; [done|].
      intros rest' Ha. cbn. by rewrite Hc, Hr.
    + injection H as <- <-. split; [done|]. intros rest' [->|(? & ? & r' & [= <- <-] & ->)]; [done|]. cbn. by rewrite Hc.
Qed.
Lemma some_digits_span : spans some_digits.
Proof.
  intros l d rest H. unfold some_digits in *. destruct (digits_of l) as [[|c d0] r0] eqn:Hd; [done|]. injection H as <- <-.
  apply digits_of_span in Hd as [-> Hr]. split; [done|]. intros rest' Ha. by rewrite (Hr _ Ha).
Qed.
Lemma scan_integer_span : spans scan_integer.
Proof.
  intros [|c l] d rest H; [done|]. unfold scan_integer in H. destruct (byte_is 48 c) eqn:Hc.
  - injection H as <- <-. split; [done|]. intros rest' _. cbn. by rewrite Hc.
  - apply some_digits_span in H as [Heq Hr]. split; [done|]. intros rest' Ha. specialize (Hr rest' Ha). unfold some_digits in Hr.
    destruct d as [|c' d]; [cbn in Hr; by destruct (digits_of rest') as [[|? ?] ?]|]. injection Heq as <- _. cbn. by rewrite Hc.
Qed.
Lemma scan_fraction_span : spans scan_fraction.
Proof.
  intros [|c l] d rest H; unfold scan_fraction in H.
  - injection H as <- <-. split; [done|]. by intros rest' [->|(? & ? & ? & ? & _)].
  - destruct (byte_is 46 c) eqn:Hc.
    + apply prepend_Some in H as (d0 & Hd & ->). apply some_digits_span in Hd as [-> Hr]. split; [done|]. intros rest' Ha.
      cbn. by rewrite Hc, Hr.
    + injection H as <- <-. split; [done|]. intros rest' [->|(? & ? & r' & [= <- <-] & ->)]; [done|]. cbn. by rewrite Hc.
Qed.
Lemma scan_exponent_span : spans scan_exponent.
Proof.
  intros [|c l] d rest H; unfold scan_exponent in H.
  - injection H as <- <-. split; [done|]. by intros rest' [->|(? & ? & ? & ? & _)].
  - destruct (is_exponent c) eqn:Hc.
    + destruct l as [|s l]; [done|]. destruct (one_of "+-" s) eqn:Hs; apply prepend_Some in H as (d0 & Hd & ->).
      * apply some_digits_span in Hd as [-> Hr]. split; [done|]. intros rest' Ha. cbn [app]. unfold scan_exponent. by rewrite Hc, Hs, Hr.
      * apply some_digits_span in Hd as [Heq Hr]. split; [cbn; by rewrite Heq|]. intros rest' Ha. specialize (Hr rest' Ha). cbn [app]. unfold scan_exponent. rewrite Hc.
        destruct d0 as [|s0 d0]; [unfold some_digits in Hr; cbn in Hr; by destruct (digits_of rest') as [[|? ?] ?]|].
        injection Heq as <- _. cbn [app] in *. rewrite Hs. by rewrite Hr.
    + injection H as <- <-. split; [done|]. intros rest' [->|(? & ? & r' & [= <- <-] & ->)]; [done|]. cbn. by rewrite Hc.
Qed.
Lemma scan_integer_nonempty l d rest : scan_integer l = Some (d, rest) → d ≠ [].
Proof.
  intros H%scan_integer_span. destruct H as [_ H]. specialize (H [] (alike_nil _)). intros ->. done.
Qed.
Lemma scan_number_span : spans scan_number.
Proof.
  intros l d rest H. unfold scan_number in H.
  set (sl := match l with c :: r => if byte_is 45 c then ([c], r) else ([], l) | [] => ([], []) end) in *.
  assert (l = (sl.1 ++ sl.2)%list) as Hl by (destruct l as [|c l]; [done|]; unfold sl; by destruct (byte_is 45 c)).
  destruct sl as [sign l1] eqn:Hsl. cbn in Hl.
  apply bind_Some in H as ([i l2] & Hi & H). apply bind_Some in H as ([f l3] & Hf & H). apply bind_Some in H as ([e l4] & He & H). injection H as <- <-.
  pose proof (scan_integer_nonempty _ _ _ Hi) as Hne. apply scan_integer_span in Hi as [-> Hi]. apply scan_fraction_span in Hf as [-> Hf].
  apply scan_exponent_span in He as [-> He]. split; [rewrite Hl; by rewrite <-!app_assoc|].
  intros rest' Ha. unfold scan_number.
  assert (∀ x, match (sign ++ i ++ x)%list with c :: r => if byte_is 45 c then ([c], r) else ([], (sign ++ i ++ x)%list) | [] => ([], []) end = (sign, i ++ x)%list) as Hs.
  { intros x. unfold sl in Hsl. rewrite Hl in Hsl. destruct i as [|c i]; [done|]. destruct sign as [|s sign]; cbn in Hsl |- *.
    - destruct (byte_is 45 c); [done|done].
    - destruct (byte_is 45 s); [by injection Hsl as <-|done]. }
  rewrite <-!app_assoc. rewrite Hs. rewrite Hi by (by apply alike_app, alike_app). cbn [mbind option_bind].
  rewrite Hf by (by apply alike_app). cbn [mbind option_bind]. by rewrite He.
Qed.
Lemma literal_span w v l v' rest : literal w v l = Some (v', rest) →
  l = (bytes w ++ rest)%list ∧ ∀ rest', literal w v (bytes w ++ rest') = Some (v', rest').
Proof.
  unfold literal. case_bool_decide as Ht; [|done]. intros [= <- <-]. split; [by rewrite <-Ht, take_drop|].
  intros rest'. rewrite <-length_bytes, take_app_length, drop_app_length. by rewrite bool_decide_eq_true_2.
Qed.

(** ** Values *)

Lemma skip_span l : ∃ b, l = (b ++ skip_blank l)%list ∧ forallb is_blank b = true.
Proof.
  induction l as [|c l (b & Hb & Hf)]; [by exists []|]. cbn. destruct (is_blank c) eqn:Hc; [|by exists []].
  exists (c :: b). cbn. rewrite Hc. split; [by rewrite <-Hb|done].
Qed.
Lemma skip_app b l : forallb is_blank b = true → skip_blank (b ++ l) = skip_blank l.
Proof. induction b as [|c b IH]; cbn; [done|]. intros [-> H]%andb_true_iff. by apply IH. Qed.
Lemma skip_head l c r : skip_blank l = c :: r → ∃ b, l = (b ++ c :: r)%list ∧ ∀ r', skip_blank (b ++ c :: r') = c :: r'.
Proof.
  intros H. destruct (skip_span l) as (b & Hl & Hb). rewrite H in Hl. exists b. split; [done|]. intros r'. rewrite skip_app by done.
  assert (is_blank c = false) as Hc; [|by apply skip_nonblank]. clear -H. induction l as [|d l IH]; [done|]. cbn in H.
  destruct (is_blank d) eqn:Hd; [by apply IH|by injection H as -> _].
Qed.

Lemma skip_app_some p c p' x : skip_blank p = c :: p' → skip_blank (p ++ x) = c :: p' ++ x.
Proof.
  intros H. destruct (skip_head _ _ _ H) as (b & -> & Hb). rewrite <-app_assoc. apply Hb.
Qed.
Definition value_spans (n : nat) : Prop := ∀ room l v rest, parse_value n room l = Some (v, rest) →
  ∃ p, l = p ++ rest ∧ skip_blank p ≠ [] ∧
    ∀ room' rest', (room ≤ room')%N → alike rest rest' → parse_value n room' (p ++ rest') = Some (v, rest').
(** Members and elements end with a bracket: what follows is not looked at. *)
Definition list_spans {A} (parse : N → list ascii → option (A * list ascii)) : Prop := ∀ room l a rest, parse room l = Some (a, rest) →
  ∃ p, l = p ++ rest ∧ skip_blank p ≠ [] ∧ ∀ room' rest', (room ≤ room')%N → parse room' (p ++ rest') = Some (a, rest').

(** What follows the opening bracket of a container. *)
Definition container {A} (close : N) (parse : N → list ascii → option (A * list ascii)) (wrap : A → jvalue) (empty : jvalue)
    (room : N) (r : list ascii) : option (jvalue * list ascii) :=
  if N.eqb room 0 then None
  else match skip_blank r with
       | d :: r' => if byte_is close d then Some (empty, r') else '(a, rest) ← parse (room - 1)%N r; Some (wrap a, rest)
       | [] => None
       end.
Lemma container_span {A} close (parse : N → list ascii → option (A * list ascii)) wrap empty room r v rest :
  list_spans parse → container close parse wrap empty room r = Some (v, rest) →
  ∃ p, r = p ++ rest ∧ ∀ room' rest', (room ≤ room')%N → container close parse wrap empty room' (p ++ rest') = Some (v, rest').
Proof.
  intros Hs H. unfold container in *. destruct (N.eqb_spec room 0) as [|Hr]; [done|].
  assert (∀ room', (room ≤ room')%N → N.eqb room' 0 = false) as Hr' by (intros; apply N.eqb_neq; lia).
  destruct (skip_blank r) as [|d r'] eqn:Hskip; [done|]. destruct (byte_is close d) eqn:Hd.
  - injection H as <- <-. destruct (skip_head _ _ _ Hskip) as (b & -> & Hb). exists (b ++ [d]). split; [by rewrite <-app_assoc|].
    intros room' rest' Hle. rewrite Hr', <-app_assoc by done. cbn [app]. by rewrite Hb, Hd.
  - apply bind_Some in H as ([a r1] & Ha & [= <- <-]). apply Hs in Ha as (p & -> & Hne & Hp). exists p. split; [done|].
    intros room' rest' Hle. rewrite Hr' by done. destruct (skip_blank p) as [|d' p'] eqn:Hsp; [done|].
    rewrite (skip_app_some _ _ _ rest' Hsp). rewrite (skip_app_some _ _ _ _ Hsp) in Hskip. injection Hskip as -> _. rewrite Hd. by rewrite Hp by lia.
Qed.
Lemma parse_value_step n room l : parse_value (S n) room l =
  match skip_blank l with
  | [] => None
  | c :: r =>
      if byte_is 34 c then '(s, rest) ← unquote r; Some (VString (of_bytes s), rest)
      else if byte_is 91 c then container 93 (parse_elements n) VArray (VArray []) room r
      else if byte_is 123 c then container 125 (parse_members n) VObject (VObject []) room r
      else if byte_is 110 c then literal "null" VNull (c :: r)
      else if byte_is 116 c then literal "true" (VBool true) (c :: r)
      else if byte_is 102 c then literal "false" (VBool false) (c :: r)
      else '(text, rest) ← scan_number (c :: r); Some (VNumber text, rest)
  end.
Proof. reflexivity. Qed.

Lemma skip_skip l : skip_blank (skip_blank l) = skip_blank l.
Proof. induction l as [|c l IH]; [done|]. cbn. destruct (is_blank c) eqn:Hc; [done|]. cbn. by rewrite Hc. Qed.
Lemma parse_skip n room l : parse_value n room (skip_blank l) = parse_value n room l.
Proof. destruct n; [done|]. by rewrite !parse_value_step, skip_skip. Qed.

Lemma value_step n : list_spans (parse_elements n) → list_spans (parse_members n) → value_spans (S n).
Proof.
  intros He Hm room l v rest H. rewrite parse_value_step in H. destruct (skip_blank l) as [|c r] eqn:Hl; [done|].
  destruct (skip_head _ _ _ Hl) as (b & -> & Hb).
  assert (∀ x, skip_blank (c :: x) = c :: x) as Hc by (intros x; by rewrite <-(Hb x), skip_skip).
  assert (∀ p, c :: r = p ++ rest → skip_blank p ≠ [] → (∀ room' rest', (room ≤ room')%N → alike rest rest' →
      parse_value (S n) room' (p ++ rest') = Some (v, rest')) → ∃ p, b ++ c :: r = p ++ rest ∧ skip_blank p ≠ [] ∧
    ∀ room' rest', (room ≤ room')%N → alike rest rest' → parse_value (S n) room' (p ++ rest') = Some (v, rest')) as Hwrap.
  { intros p Hp Hne Hr. destruct p as [|c' p]; [done|]. injection Hp as <- ->. exists (b ++ c :: p). split; [by rewrite <-app_assoc|].
    split; [by rewrite Hb|]. intros room' rest' Hle Ha. rewrite <-app_assoc. cbn [app]. rewrite <-parse_skip, Hb. by apply Hr. }
  assert (∀ p, skip_blank (c :: p) ≠ []) as Hne by (intros p; by rewrite Hc).
  destruct (byte_is 34 c) eqn:H34.
  { apply bind_Some in H as ([s r1] & Hs & [= <- <-]). apply (unquote_span (length r)) in Hs as (p & -> & Hp); [|done].
    apply (Hwrap (c :: p ++ [QUOTE])); [cbn; by rewrite <-app_assoc|done|]. intros room' rest' _ _. rewrite parse_value_step. cbn [app].
    rewrite Hc, H34, <-app_assoc. cbn [app]. by rewrite Hp. }
  destruct (byte_is 91 c) eqn:H91.
  { apply container_span in H as (p & -> & Hp); [|done]. apply (Hwrap (c :: p)); [done..|]. intros room' rest' Hle _.
    rewrite parse_value_step. cbn [app]. rewrite Hc, H34, H91. by apply Hp. }
  destruct (byte_is 123 c) eqn:H123.
  { apply container_span in H as (p & -> & Hp); [|done]. apply (Hwrap (c :: p)); [done..|]. intros room' rest' Hle _.
    rewrite parse_value_step. cbn [app]. rewrite Hc, H34, H91, H123. by apply Hp. }
  destruct (byte_is 110 c) eqn:H110.
  { apply literal_span in H as [Hp H]. apply (Hwrap (bytes "null")); [done..|]. intros room' rest' _ _. rewrite <-(H rest').
    cbn [bytes app]. injection Hp as -> _. by rewrite parse_value_step. }
  destruct (byte_is 116 c) eqn:H116.
  { apply literal_span in H as [Hp H]. apply (Hwrap (bytes "true")); [done..|]. intros room' rest' _ _. rewrite <-(H rest').
    cbn [bytes app]. injection Hp as -> _. by rewrite parse_value_step. }
  destruct (byte_is 102 c) eqn:H102.
  { apply literal_span in H as [Hp H]. apply (Hwrap (bytes "false")); [done..|]. intros room' rest' _ _. rewrite <-(H rest').
    cbn [bytes app]. injection Hp as -> _. by rewrite parse_value_step. }
  apply bind_Some in H as ([t r1] & Ht & [= <- <-]). pose proof Ht as [Heq Hs]%scan_number_span.
  destruct t as [|c' t].
  { specialize (Hs [] (alike_nil _)). done. }
  apply (Hwrap (c' :: t)); [done| |].
  { injection Heq as <- _. apply Hne. }
  injection Heq as <- _. intros room' rest' _ Ha. rewrite parse_value_step. cbn [app]. rewrite Hc, H34, H91, H123, H110, H116, H102.
  cbn [app] in Hs. by rewrite Hs.
Qed.
Lemma elements_step n : value_spans n → list_spans (parse_elements n) → list_spans (parse_elements (S n)).
Proof.
  intros Hv He room l vs rest H. cbn [parse_elements] in H. apply bind_Some in H as ([v r1] & H1 & H).
  apply Hv in H1 as (p1 & -> & Hn1 & H1). destruct (skip_blank r1) as [|c r] eqn:Hsk; [done|].
  destruct (skip_head _ _ _ Hsk) as (b & -> & Hb).
  assert (∀ x, alike (b ++ c :: r) (b ++ c :: x)) as Hal by (intros x; apply alike_app, alike_same).
  assert (∀ x, skip_blank (p1 ++ x) ≠ []) as Hne.
  { intros x. destruct (skip_blank p1) eqn:Hp; [done|]. by rewrite (skip_app_some _ _ _ x Hp). }
  destruct (byte_is 44 c) eqn:H44.
  - apply bind_Some in H as ([ws r2] & H2 & [= <- <-]). apply He in H2 as (p2 & -> & _ & H2).
    exists (p1 ++ b ++ c :: p2). split; [by rewrite <-!app_assoc|]. split; [done|]. intros room' rest' Hle. cbn [parse_elements].
    rewrite <-!app_assoc. cbn [app]. rewrite H1 by done. cbn [mbind option_bind]. rewrite Hb, H44, H2 by done. done.
  - destruct (byte_is 93 c) eqn:H93; [|done]. injection H as <- <-. exists (p1 ++ b ++ [c]).
    split; [by rewrite <-!app_assoc|]. split; [done|]. intros room' rest' Hle. cbn [parse_elements].
    rewrite <-!app_assoc. cbn [app]. rewrite H1 by done. cbn [mbind option_bind]. by rewrite Hb, H44, H93.
Qed.
Lemma members_step n : value_spans n → list_spans (parse_members n) → list_spans (parse_members (S n)).
Proof.
  intros Hv He room l ms rest H. cbn [parse_members] in H. destruct (skip_blank l) as [|c r] eqn:Hl; [done|].
  destruct (skip_head _ _ _ Hl) as (b & -> & Hb). destruct (negb (byte_is 34 c)) eqn:H34; [done|].
  apply bind_Some in H as ([key r0] & Hk & H). apply (unquote_span (length r)) in Hk as (k & -> & Hk); [|done].
  destruct (skip_blank r0) as [|c1 r1] eqn:Hsk1; [done|]. destruct (skip_head _ _ _ Hsk1) as (b1 & -> & Hb1).
  destruct (negb (byte_is 58 c1)) eqn:H58; [done|]. apply bind_Some in H as ([v r2] & H1 & H). apply Hv in H1 as (p1 & -> & _ & H1).
  destruct (skip_blank r2) as [|c2 r3] eqn:Hsk2; [done|]. destruct (skip_head _ _ _ Hsk2) as (b2 & -> & Hb2).
  assert (∀ x, alike (b2 ++ c2 :: r3) (b2 ++ c2 :: x)) as Hal by (intros x; apply alike_app, alike_same).
  assert (∀ x, skip_blank (b ++ c :: x) ≠ []) as Hne by (intros x; by rewrite Hb).
  destruct (byte_is 44 c2) eqn:H44.
  - apply bind_Some in H as ([ws r4] & H2 & [= <- <-]). apply He in H2 as (p2 & -> & _ & H2).
    exists (b ++ c :: k ++ QUOTE :: b1 ++ c1 :: p1 ++ b2 ++ c2 :: p2). split; [by repeat (rewrite <-app_assoc; cbn [app])|]. split; [done|].
    intros room' rest' Hle. cbn [parse_members]. repeat (rewrite <-app_assoc; cbn [app]). rewrite Hb, H34, Hk. cbn [mbind option_bind].
    rewrite Hb1, H58, H1 by done. cbn [mbind option_bind]. rewrite Hb2, H44, H2 by done. done.
  - destruct (byte_is 125 c2) eqn:H125; [|done]. injection H as <- <-.
    exists (b ++ c :: k ++ QUOTE :: b1 ++ c1 :: p1 ++ b2 ++ [c2]). split; [by repeat (rewrite <-app_assoc; cbn [app])|]. split; [done|].
    intros room' rest' Hle. cbn [parse_members]. repeat (rewrite <-app_assoc; cbn [app]). rewrite Hb, H34, Hk. cbn [mbind option_bind].
    rewrite Hb1, H58, H1 by done. cbn [mbind option_bind]. by rewrite Hb2, H44, H125.
Qed.
Lemma parse_span n : value_spans n ∧ list_spans (parse_elements n) ∧ list_spans (parse_members n).
Proof.
  induction n as [|n (IHv & IHe & IHm)]; [by split; [|split]|].
  split; [by apply value_step|]. split; [by apply elements_step|by apply members_step].
Qed.

(** ** The members of an object with their texts *)

Definition raw_value (room : N) (l : list ascii) : option (string * jvalue * list ascii) :=
  '(v, rest) ← parse_value (2 * length l + 1) room l;
  Some (of_bytes (take (length (skip_blank l) - length rest) (skip_blank l)), v, rest).
Fixpoint raw_members (fuel : nat) (room : N) (l : list ascii) : option (list (string * (string * jvalue)) * list ascii) :=
  match fuel with
  | 0 => None
  | S fuel =>
      match skip_blank l with
      | c :: r =>
          if negb (byte_is 34 c) then None
          else
            '(key, rest) ← unquote r;
            match skip_blank rest with
            | c :: r =>
                if negb (byte_is 58 c) then None
                else
                  '(raw, v, rest) ← raw_value room r;
                  match skip_blank rest with
                  | c :: r =>
                      if byte_is 44 c then '(fs, rest) ← raw_members fuel room r; Some ((of_bytes key, (raw, v)) :: fs, rest)
                      else if byte_is 125 c then Some ([(of_bytes key, (raw, v))], r)
                      else None
                  | [] => None
                  end
            | [] => None
            end
      | [] => None
      end
  end.
(** The members of a document that is an object. *)
Definition raw_object (s : string) : option (list (string * (string * jvalue))) :=
  match read_json s with
  | Some (VObject []) => Some []
  | Some (VObject _) => fst <$> raw_members (2 * String.length s + 1) (maxNestingDepth - 1) (tl (skip_blank (bytes s)))
  | _ => None
  end.

(** A member with its text: the text, on its own, is read as the value. *)
Definition member_read (bound : nat) (m : string * (string * jvalue)) : Prop :=
  read_json m.2.1 = Some m.2.2 ∧ String.length m.2.1 ≤ bound.
Definition without_text (m : string * (string * jvalue)) : string * jvalue := (m.1, m.2.2).

Lemma raw_value_read n room l v rest : (room ≤ maxNestingDepth)%N → 2 * length l + 1 ≤ n → parse_value n room l = Some (v, rest) →
  ∃ raw, raw_value room l = Some (raw, v, rest) ∧ read_json raw = Some v ∧ String.length raw ≤ length l.
Proof.
  intros Hroom Hn H. destruct (parse_fuel (2 * length l + 1) n) as (Hf & _); [done|]. rewrite <-Hf in H by done.
  unfold raw_value. rewrite H. cbn [mbind option_bind]. eexists. split; [done|].
  apply (proj1 (parse_span _)) in H as (p & -> & Hne & Hp). destruct (skip_blank p) as [|c q] eqn:Hsk; [done|].
  rewrite (skip_app_some _ _ _ _ Hsk). change (c :: q ++ rest) with ((c :: q) ++ rest). rewrite length_app, Nat.add_sub, take_app_length.
  pose proof (skip_length p) as Hl. rewrite Hsk in Hl. rewrite <-length_bytes, bytes_of_bytes. split; [|rewrite length_app; lia].
  unfold read_json, parse_text. rewrite <-length_bytes, bytes_of_bytes. specialize (Hp maxNestingDepth [] Hroom (alike_nil _)).
  rewrite app_nil_r, <-parse_skip, Hsk in Hp. destruct (parse_fuel (2 * length (c :: q) + 1) (2 * length (p ++ rest) + 1)) as (Hf' & _).
  { rewrite length_app. lia. }
  by rewrite Hf', Hp by done.
Qed.
Lemma raw_members_read n : ∀ room l fs rest, (room ≤ maxNestingDepth)%N → 2 * length l + 2 ≤ n → parse_members n room l = Some (fs, rest) →
  ∃ ms, raw_members n room l = Some (ms, rest) ∧ fs = map without_text ms ∧ Forall (member_read (length l)) ms.
Proof.
  induction n as [|n IH]; intros room l fs rest Hroom Hn H; [done|]. cbn [parse_members] in H. cbn [raw_members]. pose proof (skip_length l) as Hl.
  destruct (skip_blank l) as [|c r]; [done|]. destruct (negb (byte_is 34 c)); [done|]. cbn [length] in Hl.
  apply bind_Some in H as ([key r0] & Hk & H). rewrite Hk. apply unquote_length in Hk. cbn [mbind option_bind]. pose proof (skip_length r0) as Hl0.
  destruct (skip_blank r0) as [|c1 r1]; [done|]. destruct (negb (byte_is 58 c1)); [done|]. cbn [length] in Hl0.
  apply bind_Some in H as ([v r2] & H1 & H). pose proof H1 as Hlt%(proj1 (parse_length _)).
  destruct (raw_value_read n _ r1 _ _ Hroom ltac:(lia) H1) as (raw & -> & Hr & Hlr). cbn [mbind option_bind]. pose proof (skip_length r2) as Hl2.
  destruct (skip_blank r2) as [|c2 r3]; [done|]. cbn [length] in Hl2. assert (member_read (length l) (of_bytes key, (raw, v))) as Hm by (split; cbn; [done|lia]).
  destruct (byte_is 44 c2).
  - apply bind_Some in H as ([ws r4] & H2 & [= <- <-]). destruct (IH _ r3 _ _ Hroom ltac:(lia) H2) as (ms & -> & -> & Hms). cbn [mbind option_bind].
    exists ((of_bytes key, (raw, v)) :: ms). split; [done|]. split; [done|]. constructor; [done|]. eapply Forall_impl; [done|].
    intros m [? ?]. split; [done|lia].
  - destruct (byte_is 125 c2); [|done]. injection H as <- <-. exists [(of_bytes key, (raw, v))]. split; [done|]. split; [done|by constructor].
Qed.
Lemma raw_object_read s fs : read_json s = Some (VObject fs) →
  ∃ ms, raw_object s = Some ms ∧ fs = map without_text ms ∧ Forall (member_read (String.length s)) ms.
Proof.
  intros H. unfold raw_object. rewrite H. destruct fs as [|f fs]; [by exists []|].
  unfold read_json, parse_text in H. destruct (parse_value _ _ _) as [[v rest]|] eqn:Hp; [|done].
  destruct (skip_blank rest); [|done]. injection H as ->. rewrite Nat.add_1_r, parse_value_step in Hp. pose proof (skip_length (bytes s)) as Hl.
  rewrite length_bytes in Hl. destruct (skip_blank (bytes s)) as [|c r]; [done|]. cbn [length tl] in *.
  destruct (byte_is 34 c); [by apply bind_Some in Hp as ([? ?] & _ & ?)|].
  destruct (byte_is 91 c).
  { unfold container in Hp. destruct (N.eqb _ _); [done|]. destruct (skip_blank r); [done|]. destruct (byte_is 93 _); [done|].
    by apply bind_Some in Hp as ([? ?] & _ & ?). }
  destruct (byte_is 123 c).
  - unfold container in Hp. destruct (N.eqb maxNestingDepth 0); [done|]. destruct (skip_blank r); [done|]. destruct (byte_is 125 _); [done|].
    apply bind_Some in Hp as ([fs' r'] & Hp & [= -> ->]).
    destruct (parse_fuel (2 * String.length s) (2 * String.length s + 1)) as (_ & _ & Hf); [lia|]. rewrite Hf in Hp by lia.
    apply raw_members_read in Hp as (ms & -> & Hms & Hall); [|done|lia]. exists ms. split; [done|]. split; [done|].
    eapply Forall_impl; [done|]. intros m [? ?]. split; [done|lia].
  - unfold literal in Hp. destruct (byte_is 110 c); [by case_bool_decide|]. destruct (byte_is 116 c); [by case_bool_decide|].
    destruct (byte_is 102 c); [by case_bool_decide|]. by apply bind_Some in Hp as ([? ?] & _ & ?).
Qed.
