(* ===== verification/GoJson.v ===== *)
(** * Go values of the program as JSON

    [GoJson A]: how the values of the record type [A] are Go values of a [gotype].  [MarshalGo]
    and [UnmarshalGo] are [json.Marshal] and the decoder at that type; [Unmarshal_same] is
    their round trip.  A Go slice is an [option (list A)] where the code distinguishes nil from
    empty and a [list] (nil when empty) where it does not. *)
From stdpp Require Import base tactics list strings gmap.
From Stdlib Require Import Ascii.
From S2P Require Import Prelude GoStrings Sha256 Json JsonTypes.
Open Scope string_scope.

Class GoJson (A : Type) := {
  go_type : gotype;
  to_go : A → govalue;
  of_go : govalue → A;
  of_to_go a : of_go (to_go a) = a;
}.
Arguments go_type A {_}.

#[export] Program Instance string_json : GoJson string :=
  {| go_type := TString; to_go := GString; of_go g := match g with GString s => s | _ => "" end |}.
Solve All Obligations with done.
#[export] Program Instance bool_json : GoJson bool :=
  {| go_type := TBool; to_go := GBool; of_go g := match g with GBool b => b | _ => false end |}.
Solve All Obligations with done.
#[export] Program Instance int_json : GoJson Z :=
  {| go_type := TInt; to_go := GInt; of_go g := match g with GInt z => z | _ => 0%Z end |}.
Solve All Obligations with done.

Definition slice_items (g : govalue) : option (list govalue) := match g with GSlice items _ => items | _ => None end.
Lemma map_of_to `{GoJson A} (l : list A) : map of_go (map to_go l) = l.
Proof. rewrite map_map. rewrite (map_ext _ id) by apply of_to_go. apply map_id. Qed.
(** A slice, nil when it is [None]. *)
#[export] Program Instance slice_json `{GoJson A} : GoJson (option (list A)) :=
  {| go_type := TSlice (go_type A); to_go o := GSlice (map to_go <$> o) []; of_go g := map of_go <$> slice_items g |}.
Next Obligation. intros A ? [l|]; [|done]. cbn. by rewrite map_of_to. Qed.
(** A slice, nil when it is empty. *)
Definition nil_when_empty {A} (l : list A) : option (list A) := match l with [] => None | _ => Some l end.
#[export] Program Instance list_json `{GoJson A} : GoJson (list A) :=
  {| go_type := TSlice (go_type A); to_go l := to_go (nil_when_empty l); of_go g := default [] (of_go g) |}.
Next Obligation. intros A ? [|x l]; [done|]. cbn. by rewrite of_to_go, map_of_to. Qed.
Definition pointee (g : govalue) : option govalue := match g with GPointer p => p | _ => None end.
#[export] Program Instance pointer_json `{GoJson A} : GoJson (option A) | 10 :=
  {| go_type := TPointer (go_type A); to_go o := GPointer (to_go <$> o);
     of_go g := of_go <$> pointee g |}.
Next Obligation. intros A ? [a|]; [|done]. cbn. by rewrite of_to_go. Qed.

(** The fields of a struct, by position. *)
Definition field (i : nat) (g : govalue) : govalue := nth i (struct_values g) (GBool false).
Notation "x .[ i ]" := (of_go (field i x)) (at level 2, left associativity, format "x .[ i ]").
Ltac solve_record := intros []; cbn; rewrite ?of_to_go; reflexivity.

Section Text.
Context `{GoJson A}.

Definition MarshalGo (a : A) : string := Marshal (encode (go_type A) (to_go a)).
Definition UnmarshalGo (strict : bool) (text : string) : option A := of_go <$> Unmarshal strict (go_type A) text.
(** A value Go can hold, with valid UTF-8 strings. *)
Definition go_valid (a : A) : Prop := typed (go_type A) (to_go a) = true.
(** A type the round trip is about. *)
Definition json_type (t : gotype) : bool := type_ok t && N.leb (type_depth t) maxNestingDepth.

Lemma read_MarshalGo a : json_type (go_type A) = true → go_valid a → read_json (MarshalGo a) = Some (to_value (encode (go_type A) (to_go a))).
Proof. intros [Hok Hd%N.leb_le]%andb_true_iff Ha. by apply read_encoded. Qed.
Lemma Unmarshal_value strict a text v : json_type (go_type A) = true → go_valid a → read_json text = Some v →
  same_json (to_value (encode (go_type A) (to_go a))) v → UnmarshalGo strict text = Some a.
Proof.
  intros [Hok _]%andb_true_iff Ha Hr Hs. unfold UnmarshalGo, Unmarshal. rewrite Hr. cbn [mbind option_bind].
  rewrite (decode_encode strict _ (to_go a)) by done. cbn. by rewrite of_to_go.
Qed.
Lemma Unmarshal_same strict a text : json_type (go_type A) = true → go_valid a → same_document (MarshalGo a) text →
  UnmarshalGo strict text = Some a.
Proof.
  intros Hok Ha (v & w & Hv & Hw & Hs). rewrite read_MarshalGo in Hv by done. injection Hv as <-. by eapply Unmarshal_value.
Qed.
Lemma Unmarshal_go strict a text : json_type (go_type A) = true → go_valid a → same_document (MarshalGo a) text →
  Unmarshal strict (go_type A) text = Some (to_go a).
Proof.
  intros Hok Ha (v & w & Hv & Hw & Hs). rewrite read_MarshalGo in Hv by done. injection Hv as <-. apply andb_true_iff in Hok as [Hok _].
  unfold Unmarshal. rewrite Hw. by apply decode_encode.
Qed.
Lemma encode_inj a b : json_type (go_type A) = true → go_valid a → go_valid b →
  encode (go_type A) (to_go a) = encode (go_type A) (to_go b) → a = b.
Proof.
  intros [Hok _]%andb_true_iff Ha Hb Heq. rewrite <-(of_to_go a), <-(of_to_go b). f_equal. apply (inj Some).
  rewrite <-(decode_encode true _ (to_go a) (to_value (encode (go_type A) (to_go a)))) by (done || apply same_json_refl).
  by rewrite <-(decode_encode true _ (to_go b) (to_value (encode (go_type A) (to_go b)))), Heq by (done || apply same_json_refl).
Qed.
Lemma MarshalGo_utf8 a : json_type (go_type A) = true → go_valid a → json_utf8 (encode (go_type A) (to_go a)) = true.
Proof. intros [Hok _]%andb_true_iff Ha. by apply encode_utf8. Qed.
End Text.

(** Reading part of the fields of a document that was written at another type. *)
Definition view_go `{GoJson A, GoJson B} (a : A) : B := of_go (viewed (go_type B) (go_type A) (to_go a)).
Lemma Unmarshal_view `{GoJson A, GoJson B} (a : A) text v : json_type (go_type A) = true → go_valid a → views (go_type B) (go_type A) = true →
  read_json text = Some v → same_json (to_value (encode (go_type A) (to_go a))) v → UnmarshalGo (A:=B) false text = Some (view_go a).
Proof.
  intros [Hok _]%andb_true_iff Ha Hw Hr Hs. unfold UnmarshalGo, Unmarshal. rewrite Hr. cbn [mbind option_bind].
  by rewrite (decode_view _ (go_type A) (to_go a)).
Qed.
Lemma view_list `{GoJson A, GoJson B} (l : list A) :
  of_go (viewed (TSlice (go_type B)) (TSlice (go_type A)) (to_go l)) = view_go (B:=B) <$> l.
Proof. destruct l as [|a l]; [done|]. cbn. f_equal. rewrite !map_map. done. Qed.

Lemma go_valid_slice `{GoJson A} (l : list A) : go_valid (Some l) ↔ Forall go_valid l.
Proof.
  unfold go_valid. cbn. rewrite forallb_forall, Forall_forall. setoid_rewrite in_map_iff. setoid_rewrite <-list_elem_of_In. split.
  - intros Hl x Hx. apply Hl. by exists x.
  - intros Hl g (x & <- & Hx). by apply Hl.
Qed.
Lemma go_valid_list `{GoJson A} (l : list A) : go_valid l ↔ Forall go_valid l.
Proof. destruct l as [|x l]; [done|]. apply (go_valid_slice (x :: l)). Qed.
(** The fields of a struct, one by one. *)
Lemma go_valid_struct `{GoJson A} fs vals (a : A) : go_type A = TStruct fs → to_go a = GStruct vals →
  go_valid a ↔ Forall2 (λ f x, typed f.2 x = true) fs vals.
Proof. unfold go_valid. intros -> ->. apply typed_struct. Qed.

(** [reflect.DeepEqual] of two values of one type: a nil and an empty slice differ, what is
    behind a slice does not count. *)
Fixpoint DeepEqual (g h : govalue) : bool :=
  match g, h with
  | GString s, GString t => String.eqb s t
  | GBool a, GBool b => Bool.eqb a b
  | GInt x, GInt y => Z.eqb x y
  | GSlice None _, GSlice None _ => true
  | GSlice (Some xs) _, GSlice (Some ys) _ =>
      (fix all (xs ys : list govalue) : bool :=
        match xs, ys with [], [] => true | x :: xs, y :: ys => DeepEqual x y && all xs ys | _, _ => false end) xs ys
  | GPointer None, GPointer None => true
  | GPointer (Some p), GPointer (Some q) => DeepEqual p q
  | GStruct xs, GStruct ys =>
      (fix all (xs ys : list govalue) : bool :=
        match xs, ys with [], [] => true | x :: xs, y :: ys => DeepEqual x y && all xs ys | _, _ => false end) xs ys
  | _, _ => false
  end.
Section ValueInduction.
Context (P : govalue → Prop) (Hstring : ∀ s, P (GString s)) (Hbool : ∀ b, P (GBool b)) (Hint : ∀ z, P (GInt z))
  (Hnil : ∀ spare, P (GSlice None spare)) (Hslice : ∀ xs spare, Forall P xs → P (GSlice (Some xs) spare))
  (Hnull : P (GPointer None)) (Hpointer : ∀ p, P p → P (GPointer (Some p))) (Hstruct : ∀ xs, Forall P xs → P (GStruct xs)).
Fixpoint govalue_nested_ind (g : govalue) : P g :=
  let all := fix all (xs : list govalue) : Forall P xs :=
    match xs with [] => @List.Forall_nil _ _ | x :: xs => @List.Forall_cons _ _ x xs (govalue_nested_ind x) (all xs) end in
  match g with
  | GString s => Hstring s | GBool b => Hbool b | GInt z => Hint z
  | GSlice None spare => Hnil spare
  | GSlice (Some xs) spare => Hslice xs spare (all xs)
  | GPointer None => Hnull
  | GPointer (Some p) => Hpointer p (govalue_nested_ind p)
  | GStruct xs => Hstruct xs (all xs)
  end.
End ValueInduction.
(** The loop of [DeepEqual]. *)
Fixpoint deep_all (xs ys : list govalue) : bool :=
  match xs, ys with [], [] => true | x :: xs, y :: ys => DeepEqual x y && deep_all xs ys | _, _ => false end.
Lemma deep_all_refl xs : Forall (λ g, DeepEqual g g = true) xs → deep_all xs xs = true.
Proof. induction 1 as [|x xs Hx _ IH]; [done|]. cbn. by rewrite Hx, IH. Qed.
Lemma DeepEqual_refl g : DeepEqual g g = true.
Proof.
  induction g as [s|b|z|spare|xs spare IH| |p IH|xs IH] using govalue_nested_ind; cbn; try done.
  - apply String.eqb_refl.
  - by destruct b.
  - apply Z.eqb_refl.
  - by apply (deep_all_refl xs).
  - by apply (deep_all_refl xs).
Qed.
