(* ===== verification/Evidence.v ===== *)
(** * What the delivery ledger asks of an evidence package

    The packages [internal/qaevidence], [internal/environmentevidence] and
    [internal/securityevidence] each define an observation of one task about one revision
    matrix, with a decoder and a canonical form.  [Evidence] is what the ledger uses of them,
    [EvidenceLaws] what it may rely on; each package's file proves its instance. *)
From stdpp Require Import base tactics list strings gmap.
From Stdlib Require Import Ascii.
From S2P Require Import Prelude GoStrings GoSort Json JsonTypes GoJson.
Open Scope string_scope.

(** ** Patterns the packages share *)

Definition is_hex_lower (c : ascii) : bool := in_range 97 102 c || is_digit c.
(** A regular expression of fixed length: a class for each byte. *)
Fixpoint match_bytes (classes : list (ascii → bool)) (l : list ascii) : bool :=
  match classes, l with
  | [], [] => true
  | p :: classes, c :: l => p c && match_bytes classes l
  | _, _ => false
  end.
Definition uuid_classes : list (ascii → bool) :=
  (replicate 8 is_hex_lower ++ [byte_is 45] ++ replicate 4 is_hex_lower ++ [byte_is 45] ++
   [in_range 49 53] ++ replicate 3 is_hex_lower ++ [byte_is 45] ++
   [one_of "89ab"] ++ replicate 3 is_hex_lower ++ [byte_is 45] ++ replicate 12 is_hex_lower)%list.
Definition uuidPattern (s : string) : bool := match_bytes uuid_classes (bytes s).
Definition digestPattern : string → bool := re_exact is_hex_lower 64.
(** [^prefix] and then a pattern. *)
Definition after_prefix (prefix : string) (rest : string → bool) (s : string) : bool :=
  HasPrefix s prefix && rest (TrimPrefix s prefix).
Definition workspacePattern : string → bool :=
  after_prefix "workspace://" (re_ident is_alnum (λ c, is_alnum c || one_of "_.-" c) 0 127).
Definition branchPattern : string → bool := after_prefix "itbem-agent/" (re_exact (λ c, is_hex_lower c || byte_is 45 c) 36).

Lemma match_bytes_all p classes l : Forall (λ q : ascii → bool, ∀ c, q c = true → p c = true) classes →
  match_bytes classes l = true → forallb p l = true.
Proof.
  intros Hall. revert l. induction Hall as [|q classes Hq _ IH]; intros [|c l]; try done. cbn.
  intros [Hc Hl]%andb_true_iff. by rewrite (Hq c Hc), IH.
Qed.
Lemma uuid_visible s : uuidPattern s = true → all_bytes is_visible s = true.
Proof.
  apply match_bytes_all. unfold uuid_classes.
  assert (∀ n, Forall (λ q : ascii → bool, ∀ c, q c = true → is_visible c = true) (replicate n is_hex_lower)) as Hr.
  { intros n. apply Forall_replicate. by intros [[] [] [] [] [] [] [] []]. }
  repeat (apply Forall_app; split); try apply Hr; repeat constructor; by intros [[] [] [] [] [] [] [] []].
Qed.
Lemma digest_visible s : digestPattern s = true → all_bytes is_visible s = true.
Proof.
  unfold digestPattern, re_exact. intros [_ Hs]%andb_true_iff. revert Hs. apply all_bytes_impl. by intros [[] [] [] [] [] [] [] []].
Qed.

(** ** Loops that check each element and its key *)

Section Checked.
Context {A K : Type} `{Countable K} (key : A → K) (valid : A → bool).
(** [seen] holds the keys of the elements before. *)
Fixpoint all_checked (seen : gset K) (l : list A) : bool :=
  match l with
  | [] => true
  | x :: rest => valid x && negb (bool_decide (key x ∈ seen)) && all_checked ({[key x]} ∪ seen) rest
  end.
Lemma all_checked_spec seen l : all_checked seen l = true ↔
  (∀ x, x ∈ l → valid x = true) ∧ NoDup (key <$> l) ∧ ∀ x, x ∈ l → key x ∉ seen.
Proof.
  revert seen. induction l as [|x l IH]; intros seen; cbn [all_checked].
  { split; [|done]. intros _. split; [by intros ? ?%not_elem_of_nil|]. split; [constructor|by intros ? ?%not_elem_of_nil]. }
  rewrite !andb_true_iff, IH, negb_true_iff, bool_decide_eq_false, fmap_cons, NoDup_cons. split.
  - intros [[Hv Hx] (H1 & H2 & H3)]. repeat split.
    + by intros y [->|Hy]%elem_of_cons; [|apply H1].
    + intros (y & Heq & Hy)%list_elem_of_fmap. specialize (H3 y Hy). set_solver.
    + done.
    + intros y [->|Hy]%elem_of_cons; [done|]. specialize (H3 y Hy). set_solver.
  - intros (H1 & [H2 H3] & H4). repeat split.
    + apply H1. by left.
    + apply H4. by left.
    + intros y Hy. apply H1. by right.
    + done.
    + intros y Hy [Heq%elem_of_singleton|Hin]%elem_of_union.
      * apply H2. rewrite <-Heq. by apply list_elem_of_fmap_2.
      * eapply H4; [by right|done].
Qed.
(** Nothing depends on the order. *)
Lemma all_checked_perm l l' : l ≡ₚ l' → all_checked ∅ l = all_checked ∅ l'.
Proof.
  intros Hp. apply eq_true_iff_eq. rewrite !all_checked_spec. by setoid_rewrite Hp.
Qed.
End Checked.

(** ** Canonical identities *)

Section Identity.
Context `{GoUnicode}.

(** [strings.ToLower(strings.TrimSpace(value))] *)
Definition lower_trimmed (s : string) : string := ToLower (TrimSpace s).
Lemma lower_trimmed_idem s : lower_trimmed (lower_trimmed s) = lower_trimmed s.
Proof. unfold lower_trimmed. by rewrite ToLower_trimmed, ToLower_twice. Qed.
Lemma visible_utf8 s : all_bytes is_visible s = true → utf8_valid s = true.
Proof. intros Hv. by apply ascii_utf8, visible_string_ascii. Qed.
End Identity.

(** ** The interface *)

(** [len(payload)] *)
Definition byte_length (payload : string) : N := N.of_nat (String.length payload).
(** [len(payload) == 0 || len(payload) > limit] *)
Definition bad_size (limit : N) (payload : string) : bool := N.eqb (byte_length payload) 0 || N.ltb limit (byte_length payload).
Lemma bad_size_document limit payload v : read_json payload = Some v → (byte_length payload ≤ limit)%N → bad_size limit payload = false.
Proof.
  intros Hr Hl. unfold bad_size. apply orb_false_iff. split; [|by apply N.ltb_ge].
  apply N.eqb_neq. intros H0. destruct payload; [done|]. unfold byte_length in H0. cbn in H0. lia.
Qed.

Lemma bad_size_bound {A} limit payload (m : option A) a : (if bad_size limit payload then None else m) = Some a → (byte_length payload ≤ limit)%N.
Proof. destruct (bad_size limit payload) eqn:Hb; [done|]. intros _. by apply orb_false_iff in Hb as [_ ?%N.ltb_ge]. Qed.

Class Evidence (A : Type) `{GoJson A} := {
  EventType : string;
  EvidenceVersion : Z;
  dedupe_infix : string;
  evidence_actor : string;
  max_bytes : N;
  Decode : string → option A;
  Canonical : A → option A;
  TaskID : A → string;
  MatrixDigest : A → string;
  (** texts [Decode] can make sense of, besides the document they hold *)
  clean_text : string → Prop;
}.
Arguments EventType A {_ _}.
Arguments EvidenceVersion A {_ _}.
Arguments dedupe_infix A {_ _}.
Arguments evidence_actor A {_ _}.
Arguments max_bytes A {_ _}.
Arguments clean_text A {_ _}.
Class EvidenceLaws (A : Type) `{GoUnicode} `{Evidence A} : Prop := {
  evidence_type : json_type (go_type A) = true;
  evidence_depth : N.leb (type_depth (go_type A)) 64 = true;
  evidence_version : go_valid (EvidenceVersion A);
  Canonical_idem o c : Canonical o = Some c → Canonical c = Some c;
  Canonical_go_valid o c : Canonical o = Some c → go_valid o → go_valid c;
  Canonical_digest o c : Canonical o = Some c → digestPattern (MatrixDigest c) = true;
  Canonical_task o c : Canonical o = Some c → uuidPattern (TaskID c) = true;
  Decode_canonical o c text v : Canonical o = Some c → go_valid c → clean_text A text → (byte_length text ≤ max_bytes A)%N →
    read_json text = Some v → same_json (to_value (encode (go_type A) (to_go c))) v → Decode text = Some c;
  Decode_size text c : Decode text = Some c → (byte_length text ≤ max_bytes A)%N;
}.
