(* ===== verification/EvidenceJson.v ===== *)
(** * internal/evidencejson/integrity.go: documents that can be read in one way only

    [Validate] rejects invalid UTF-8, lone surrogate escapes, nesting beyond 64, numbers that
    are no [float64] and objects whose keys agree up to case.  [encoded_integrity]: a document
    the program wrote passes, whatever the order of its members. *)
From stdpp Require Import base tactics list strings gmap.
From Stdlib Require Import Ascii.
From S2P Require Import Prelude GoStrings Sha256 Json JsonTypes.
Open Scope string_scope.

(** [unicode.SimpleFold]: the least rune of the cycle of a rune that is not ASCII, the long s
    and the Kelvin sign apart (their cycles hold an ASCII letter). *)
Class GoFold := { fold_rune : list ascii → list ascii }.
Definition no_folds : GoFold := {| fold_rune rune := rune |}.

Section Integrity.
Context `{GoFold}.

(** ** Escapes *)

(** [validateUnicodeEscapes], from a position inside or outside a string. *)
Fixpoint validateUnicodeEscapes (inString : bool) (payload : list ascii) : bool :=
  match payload with
  | [] => true
  | c :: r =>
      if byte_is 34 c then validateUnicodeEscapes (negb inString) r
      else if negb inString || negb (byte_is 92 c) then validateUnicodeEscapes inString r
      else match r with
           | [] => false
           | e :: r1 =>
               if negb (Ascii.eqb e "u") then validateUnicodeEscapes inString r1
               else match r1 with
                    | h1 :: h2 :: h3 :: h4 :: r2 =>
                        match hex4 h1 h2 h3 h4 with
                        | None => false
                        | Some code =>
                            if low_surrogate code then false
                            else if high_surrogate code then
                              match r2 with
                              | b :: u :: k1 :: k2 :: k3 :: k4 :: r3 =>
                                  byte_is 92 b && Ascii.eqb u "u" &&
                                  match hex4 k1 k2 k3 k4 with
                                  | Some low => low_surrogate low && validateUnicodeEscapes inString r3
                                  | None => false
                                  end
                              | _ => false
                              end
                            else validateUnicodeEscapes inString r2
                        end
                    | _ => false
                    end
           end
  end.

(** ** Numbers *)

(** The least number that rounds to infinity: half a unit above the largest [float64]. *)
Definition float64_limit : Z := (2 ^ 54 - 1) * 2 ^ 970.
(** [mantissa * 10 ^ exponent], written in [width] bytes, is below the limit. *)
Definition in_float64 (mantissa exponent : Z) (width : nat) : bool :=
  if Z.leb 0 exponent then
    if Z.ltb 308 exponent then Z.eqb mantissa 0 else Z.ltb (mantissa * 10 ^ exponent) float64_limit
  else Z.leb (Z.of_nat width) (- exponent) || Z.ltb mantissa (float64_limit * 10 ^ (- exponent)).
Definition unsigned (l : list ascii) : Z := default 0%Z ((λ u, Z.of_N (N.of_uint u)) <$> uint_of l).
(** [strconv.ParseFloat] does not fail on the text of a JSON number. *)
Definition float64_text (text : list ascii) : bool :=
  let magnitude := match text with c :: r => if byte_is 45 c then r else text | [] => [] end in
  let '(whole, rest) := digits_of magnitude in
  let '(fraction, rest) :=
    match rest with c :: r => if byte_is 46 c then digits_of r else ([], rest) | [] => ([], []) end in
  let exponent :=
    match rest with
    | _ :: c :: r => if byte_is 45 c then (- unsigned r)%Z else if byte_is 43 c then unsigned r else unsigned (c :: r)
    | _ => 0%Z
    end in
  in_float64 (unsigned (whole ++ fraction)) (exponent - Z.of_nat (length fraction)) (length text).

(** ** Keys *)

Definition fold_minimum (rune : list ascii) : list ascii :=
  if bool_decide (rune = ascii_of_N <$> [197; 191]%N) then ["S"%char]
  else if bool_decide (rune = ascii_of_N <$> [226; 132; 170]%N) then ["K"%char]
  else fold_rune rune.
Fixpoint normalized_bytes (l : list ascii) : list ascii :=
  match l with
  | [] => []
  | c :: r =>
      if is_ascii_byte c then upper_byte c :: normalized_bytes r
      else match r with
           | c2 :: r2 =>
               if rune2 c c2 then fold_minimum [c; c2] ++ normalized_bytes r2
               else match r2 with
                    | c3 :: r3 =>
                        if rune3 c c2 c3 then fold_minimum [c; c2; c3] ++ normalized_bytes r3
                        else match r3 with
                             | c4 :: r4 => fold_minimum [c; c2; c3; c4] ++ normalized_bytes r4
                             | [] => []
                             end
                    | [] => []
                    end
           | [] => []
           end
  end%list.
Definition normalized (key : string) : string := of_bytes (normalized_bytes (bytes key)).

(** ** The walk over the tokens *)

Fixpoint token_value (depth : nat) (v : jvalue) : bool :=
  Nat.leb depth 64 &&
  match v with
  | VNumber text => float64_text text
  | VArray vs => forallb (token_value (S depth)) vs
  | VObject fields =>
      bool_decide (NoDup (map (λ '(key, _), normalized key) fields)) && forallb (λ '(_, v), token_value (S depth) v) fields
  | _ => true
  end.
Definition Validate (payload : string) : bool :=
  utf8_valid payload && validateUnicodeEscapes false (bytes payload) &&
  match read_json payload with Some v => token_value 0 v | None => false end.

(** ** What the program writes *)

(** No object of the type has two keys that agree up to case. *)
Fixpoint names_apart (t : gotype) : bool :=
  match t with
  | TString | TBool | TInt => true
  | TSlice t | TPointer t => names_apart t
  | TStruct fs => bool_decide (NoDup (map (λ f, normalized f.1.1) fs)) && forallb (λ f, names_apart f.2) fs
  end.
Lemma digits_float64 p width : (Zpos p ≤ 2 ^ 63)%Z →
  let '(whole, rest) := digits_of (digits (Pos.to_uint p)) in
  rest = [] ∧ in_float64 (unsigned (whole ++ []))%list (0 - Z.of_nat 0) width = true.
Proof.
  intros Hp. pose proof (digits_of_digits (Pos.to_uint p) [] I) as Hd. rewrite app_nil_r in Hd. rewrite Hd, app_nil_r. split; [done|].
  unfold unsigned. rewrite uint_of_digits. cbn [fmap option_fmap option_map default from_option id].
  change (N.of_uint (Pos.to_uint p)) with (N.of_uint (N.to_uint (Npos p))). rewrite DecimalN.Unsigned.of_to.
  change (in_float64 (Zpos p) 0 width = true). unfold in_float64. cbn [Z.leb Z.ltb Z.compare]. apply Z.ltb_lt.
  assert (2 ^ 63 < float64_limit)%Z by (vm_compute; reflexivity). rewrite Z.pow_0_r. lia.
Qed.
Lemma itoa_float64 z : (- 2 ^ 63 ≤ z < 2 ^ 63)%Z → float64_text (itoa z) = true.
Proof.
  intros Hz. destruct z as [|p|p]; [by vm_compute|..]; cbn [itoa N.to_uint]; unfold float64_text.
  - destruct (positive_digits p) as (c & r & Hc & Hr). rewrite Hc. assert (byte_is 45 c = false) as ->.
    { unfold byte_is, in_range in *. apply andb_true_iff in Hr as [?%N.leb_le _]. apply N.eqb_neq. lia. }
    rewrite <-Hc. pose proof (digits_float64 p (length (digits (Pos.to_uint p))) ltac:(lia)) as Hd.
    destruct (digits_of _) as [whole rest]. by destruct Hd as [-> ?].
  - change (byte_is 45 "-") with true. cbn iota. pose proof (digits_float64 p (length ("-"%char :: digits (Pos.to_uint p))) ltac:(lia)) as Hd.
    destruct (digits_of _) as [whole rest]. by destruct Hd as [-> ?].
Qed.
Lemma encoded_tokens t : ∀ g v depth, names_apart t = true → typed t g = true → same_json (to_value (encode t g)) v →
  (N.of_nat depth + type_depth t ≤ 64)%N → token_value depth v = true.
Proof.
  assert (∀ depth n, (N.of_nat depth + n ≤ 64)%N → Nat.leb depth 64 = true) as Hd by (intros; apply Nat.leb_le; lia).
  induction t as [| | |t IH|t IH|fs IH] using gotype_nested_ind; intros g v depth Hn Ht Hs Hdep; pose proof (Hd _ _ Hdep) as Hleb.
  - destruct g; try done. inversion Hs; subst. cbn. by rewrite Hleb.
  - destruct g; try done. inversion Hs; subst. cbn. by rewrite Hleb.
  - destruct g; try done. inversion Hs; subst. cbn [token_value to_value encode]. rewrite Hleb. cbn in Ht.
    apply andb_true_iff in Ht as [?%Z.leb_le ?%Z.ltb_lt]. by apply itoa_float64.
  - destruct g as [| | |[xs|] [|]| |]; try done; [|by inversion Hs; subst; cbn; rewrite Hleb].
    apply same_slice in Hs as (ws & -> & Hall). cbn [token_value]. rewrite Hleb. cbn in Ht |- *.
    rewrite forallb_forall in Ht |- *. intros w Hw%list_elem_of_In. apply list_elem_of_lookup in Hw as [i Hi].
    destruct (Forall2_lookup_r _ _ _ _ _ Hall Hi) as (x & Hx & Hxw).
    eapply (IH x); [done|by eapply Ht, list_elem_of_In, list_elem_of_lookup_2|done|cbn in Hdep; lia].
  - destruct g as [| | | |[p|]|]; try done; [|by apply same_null in Hs as ->; cbn; rewrite Hleb]. by apply (IH p).
  - destruct g as [| | | | |vals]; try done. apply typed_struct in Ht. cbn in Hn. apply andb_true_iff in Hn as [Hnd Hn].
    apply bool_decide_eq_true in Hnd. rewrite forallb_forall in Hn. apply same_struct in Hs as (hs & -> & Hkeys & Hm).
    cbn [token_value]. rewrite Hleb. cbn [andb]. apply andb_true_iff. split.
    + apply bool_decide_eq_true. change (NoDup ((λ '(key, _), normalized key) <$> hs)).
      assert ((λ '(key, _), normalized key) <$> hs = normalized <$> hs.*1) as -> by (rewrite <-list_fmap_compose; by apply list_fmap_ext; intros ? [] _).
      rewrite Hkeys. eapply sublist_NoDup; [exact Hnd|]. rewrite <-(map_map (λ f : string * bool * gotype, f.1.1) normalized).
      apply (fmap_sublist normalized), encode_fields_names.
    + rewrite forallb_forall. intros [key w] (i & f & x & Hi & Hx & _ & Hw)%list_elem_of_In%Hm. cbn in Hw.
      rewrite Forall_forall in IH. assert (f ∈ fs) as Hf by (by eapply list_elem_of_lookup_2).
      apply (IH f Hf x); [by apply Hn, list_elem_of_In|by eapply (Forall2_lookup_lr _ _ _ _ _ _ Ht)|done|].
      assert (type_depth f.2 ≤ foldr (λ f n, N.max (type_depth f.2) n) 0 fs)%N as Hmax; [|cbn in Hdep; lia].
      clear -Hf. induction fs as [|g fs IH]; [by apply not_elem_of_nil in Hf|]. cbn. apply elem_of_cons in Hf as [->|Hf]; [lia|]. specialize (IH Hf). lia.
Qed.
(** A text that holds what the program wrote is accepted if its bytes are clean. *)
Lemma encoded_integrity t g payload v : names_apart t = true → typed t g = true → (type_depth t ≤ 64)%N → read_json payload = Some v →
  same_json (to_value (encode t g)) v → utf8_valid payload && validateUnicodeEscapes false (bytes payload) = true → Validate payload = true.
Proof.
  intros Hn Ht Hd Hr Hs Hc. unfold Validate. rewrite Hc, Hr. by apply (encoded_tokens t g).
Qed.
End Integrity.
