(* ===== verification/EvidenceSecurity.v ===== *)
(** * internal/securityevidence/evidence.go: the security observation of one task *)
From stdpp Require Import base tactics list strings gmap.
From Stdlib Require Import Ascii.
From S2P Require Import Prelude GoStrings GoSort Json JsonTypes GoJson Evidence.
Open Scope string_scope.

Definition SchemaVersion : Z := 1.
Definition maxInputBytes : N := 65536.
Definition MaxFindings : Z := 100.

Record Repository := {
  Reference : string; Branch : string; SecretScanPassed : bool; HighFindings : Z; CriticalFindings : Z;
}.
#[export] Program Instance Repository_json : GoJson Repository := {|
  go_type := TStruct [(("reference", false), TString); (("branch", false), TString); (("secret_scan_passed", false), TBool);
                      (("high_findings", false), TInt); (("critical_findings", false), TInt)];
  to_go r := GStruct [to_go (Reference r); to_go (Branch r); to_go (SecretScanPassed r); to_go (HighFindings r); to_go (CriticalFindings r)];
  of_go g := {| Reference := of_go (field 0 g); Branch := of_go (field 1 g); SecretScanPassed := of_go (field 2 g);
                HighFindings := of_go (field 3 g); CriticalFindings := of_go (field 4 g) |};
|}.
Next Obligation. by intros []. Qed.

Record Observation := {
  Observation_SchemaVersion : Z; Observation_TaskID : string; Observation_MatrixDigest : string; Repositories : list Repository;
}.
#[export] Program Instance Observation_json : GoJson Observation := {|
  go_type := TStruct [(("schema_version", false), TInt); (("task_id", false), TString); (("matrix_digest", false), TString);
                      (("repositories", false), go_type (list Repository))];
  to_go o := GStruct [to_go (Observation_SchemaVersion o); to_go (Observation_TaskID o); to_go (Observation_MatrixDigest o); to_go (Repositories o)];
  of_go g := {| Observation_SchemaVersion := of_go (field 0 g); Observation_TaskID := of_go (field 1 g);
                Observation_MatrixDigest := of_go (field 2 g); Repositories := of_go (field 3 g) |};
|}.
Next Obligation. intros [? ? ? rs]. cbn -[of_go to_go]. by rewrite !of_to_go. Qed.

Section Security.
Context `{GoUnicode}.

Definition valid_repository (repository : Repository) : bool :=
  let identity := TrimSpace (Reference repository) in
  let branch := TrimSpace (Branch repository) in
  String.eqb identity (Reference repository) && String.eqb branch (Branch repository) && String.eqb branch (ToLower branch) &&
  workspacePattern identity && branchPattern branch &&
  Z.leb 0 (HighFindings repository) && Z.leb 0 (CriticalFindings repository) &&
  Z.leb (HighFindings repository) MaxFindings && Z.leb (CriticalFindings repository) MaxFindings &&
  Z.leb (HighFindings repository + CriticalFindings repository) MaxFindings.
Definition valid_repositories : list Repository → bool := all_checked (λ repository, TrimSpace (Reference repository)) valid_repository ∅.
Definition Validate (observation : Observation) : bool :=
  Z.eqb (Observation_SchemaVersion observation) SchemaVersion &&
  uuidPattern (lower_trimmed (Observation_TaskID observation)) &&
  digestPattern (lower_trimmed (Observation_MatrixDigest observation)) &&
  negb (Nat.eqb (length (Repositories observation)) 0) && Nat.leb (length (Repositories observation)) 64 &&
  valid_repositories (Repositories observation).

Definition Decode (payload : string) : option Observation :=
  if bad_size maxInputBytes payload then None
  else
    observation ← UnmarshalGo true payload;
    if Validate observation then Some observation else None.

Definition Canonical (observation : Observation) : option Observation :=
  if Validate observation then
    Some {| Observation_SchemaVersion := Observation_SchemaVersion observation;
            Observation_TaskID := lower_trimmed (Observation_TaskID observation);
            Observation_MatrixDigest := lower_trimmed (Observation_MatrixDigest observation);
            Repositories := sort_key Reference (Repositories observation) |}
  else None.
End Security.

(** ** The ledger's interface *)

#[export] Instance Observation_evidence `{GoUnicode} : Evidence Observation := {|
  EventType := "delivery.security.observed.v1"; EvidenceVersion := SchemaVersion; dedupe_infix := ":security-observation-v1:";
  evidence_actor := "qa-runner/local-security/v1"; max_bytes := maxInputBytes;
  Evidence.Decode := Decode; Evidence.Canonical := Canonical; TaskID := Observation_TaskID; MatrixDigest := Observation_MatrixDigest;
  clean_text _ := True;
|}.

Section Laws.
Context `{GoUnicode}.

Lemma security_canonical o c : Canonical o = Some c ↔ Validate o = true ∧
  c = {| Observation_SchemaVersion := Observation_SchemaVersion o; Observation_TaskID := lower_trimmed (Observation_TaskID o);
         Observation_MatrixDigest := lower_trimmed (Observation_MatrixDigest o); Repositories := sort_key Reference (Repositories o) |}.
Proof. unfold Canonical. destruct (Validate o); split; [by intros [= <-]|by intros [_ ->]|done|by intros []]. Qed.
Lemma security_canonical_valid o c : Canonical o = Some c → Validate c = true.
Proof.
  intros [Hv ->]%security_canonical. unfold Validate in *. cbn [Observation_SchemaVersion Observation_TaskID Observation_MatrixDigest Repositories]. rewrite !andb_true_iff in Hv. destruct Hv as (((((Hs & Ht) & Hm) & Hl) & Hl') & Hr).
  rewrite !lower_trimmed_idem. rewrite Hs, Ht, Hm. unfold valid_repositories in *.
  rewrite (all_checked_perm _ _ _ _ (sort_key_perm _ _)), Hr. unfold sort_key. by rewrite sort_by_length, Hl, Hl'.
Qed.
#[export] Instance Observation_laws : EvidenceLaws Observation.
Proof.
  constructor.
  - by vm_compute.
  - by vm_compute.
  - done.
  - intros o c Hc. pose proof (security_canonical_valid o c Hc) as Hv. apply security_canonical. split; [done|].
    apply security_canonical in Hc as [Hv0 ->]. unfold Validate in Hv0. cbn [Observation_SchemaVersion Observation_TaskID Observation_MatrixDigest Repositories]. rewrite !andb_true_iff in Hv0. destruct Hv0 as (((((Hs & Ht) & Hm) & _) & _) & _).
    rewrite !lower_trimmed_idem. by rewrite (sort_key_id _ (sort_key _ _)) by apply sort_key_sorted.
  - intros o c [Hv ->]%security_canonical Ho. unfold Validate in Hv. rewrite !andb_true_iff in Hv. destruct Hv as (((((Hs & Ht) & Hm) & _) & _) & _).
    rewrite go_valid_struct in Ho |- * by done. rewrite !Forall2_cons in Ho |- *. destruct Ho as (? & _ & _ & Hr & _).
    split; [done|]. split; [by apply visible_utf8, uuid_visible|]. split; [by apply visible_utf8, digest_visible|]. split; [|done].
    apply go_valid_list in Hr. apply go_valid_list. cbn [Repositories]. by rewrite sort_key_perm.
  - intros o c [Hv ->]%security_canonical. unfold Validate in Hv. rewrite !andb_true_iff in Hv. tauto.
  - intros o c [Hv ->]%security_canonical. unfold Validate in Hv. rewrite !andb_true_iff in Hv. tauto.
  - intros o c text v Hc Hg _ Hl Hr Hs. cbn. unfold Decode. rewrite (bad_size_document _ _ v) by done.
    rewrite (Unmarshal_value true c _ v) by (done || by vm_compute). cbn. by rewrite (security_canonical_valid o).
  - intros text c Hd. exact (bad_size_bound _ _ _ _ Hd).
Qed.
End Laws.
