(* ===== verification/EvidenceEnvironment.v ===== *)
(** * internal/environmentevidence/evidence.go: the release environment observed for one task *)
From stdpp Require Import base tactics list strings gmap sorting.
From Stdlib Require Import Ascii.
From S2P Require Import Prelude GoStrings GoSort Json JsonTypes GoJson Evidence.
Open Scope string_scope.

Definition SchemaVersion : Z := 1.
Definition maxInputBytes : N := 131072.
Definition maxReferences : nat := 64.

(** A nil slice of references is an error, an empty one is not. *)
Record Repository := {
  Repository_Repository : string; HeadSHA : string; Workflow : string; Environment : string;
  RequiredSecretReferences : option (list string); RequiredVariableReferences : option (list string);
  WorkflowExists : bool; EnvironmentExists : bool;
  MissingSecretReferences : option (list string); MissingVariableReferences : option (list string);
}.
#[export] Program Instance Repository_json : GoJson Repository := {|
  go_type := TStruct [(("repository", false), TString); (("head_sha", false), TString); (("workflow", false), TString);
    (("environment", false), TString); (("required_secret_references", false), TSlice TString);
    (("required_variable_references", false), TSlice TString); (("workflow_exists", false), TBool);
    (("environment_exists", false), TBool); (("missing_secret_references", false), TSlice TString);
    (("missing_variable_references", false), TSlice TString)];
  to_go r := GStruct [to_go (Repository_Repository r); to_go (HeadSHA r); to_go (Workflow r); to_go (Environment r);
    to_go (RequiredSecretReferences r); to_go (RequiredVariableReferences r); to_go (WorkflowExists r);
    to_go (EnvironmentExists r); to_go (MissingSecretReferences r); to_go (MissingVariableReferences r)];
  of_go g := {| Repository_Repository := of_go (field 0 g); HeadSHA := of_go (field 1 g); Workflow := of_go (field 2 g);
    Environment := of_go (field 3 g); RequiredSecretReferences := of_go (field 4 g); RequiredVariableReferences := of_go (field 5 g);
    WorkflowExists := of_go (field 6 g); EnvironmentExists := of_go (field 7 g); MissingSecretReferences := of_go (field 8 g);
    MissingVariableReferences := of_go (field 9 g) |};
|}.
Next Obligation. intros []. cbn -[of_go to_go]. by rewrite !of_to_go. Qed.

Definition items {A} (slice : option (list A)) : list A := default [] slice.
Definition Ready (repository : Repository) : bool :=
  WorkflowExists repository && EnvironmentExists repository &&
  Nat.eqb (length (items (MissingSecretReferences repository))) 0 && Nat.eqb (length (items (MissingVariableReferences repository))) 0.

Record Observation := {
  Observation_SchemaVersion : Z; Observation_TaskID : string; Observation_MatrixDigest : string; Repositories : list Repository;
}.
#[export] Program Instance Observation_json : GoJson Observation := {|
  go_type := TStruct [(("schema_version", false), TInt); (("task_id", false), TString); (("matrix_digest", false), TString);
                      (("repositories", false), go_type (list Repository))];
  to_go o := GStruct [to_go (Observation_SchemaVersion o); to_go (Observation_TaskID o); to_go (Observation_MatrixDigest o); to_go (Repositories o)];
  of_go g := {| Observation_SchemaVersion := of_go (field 0 g); Observation_TaskID := of_go (field 1 g);
                Observation_MatrixDigest := of_go (field 2 g); Repositories := of_go (field 3 g) |};
|}.
Next Obligation. intros [? ? ? rs]. cbn -[of_go to_go]. by rewrite !of_to_go. Qed.

Definition is_low (c : ascii) : bool := is_lower c || is_digit c.
Definition is_up (c : ascii) : bool := is_upper c || byte_is 95 c.
(** [^[first][rest]*$] *)
Definition re_word (first rest : ascii → bool) (s : string) : bool :=
  match s with EmptyString => false | String c r => first c && all_bytes rest r end.
Definition repositoryPattern (s : string) : bool :=
  match Split s "/" with
  | [owner; name] => re_word is_low (λ c, is_low c || one_of "_.-" c) owner && re_word is_low (λ c, is_low c || one_of "_.-" c) name
  | _ => false
  end.
Definition shaPattern : string → bool := re_exact is_hex_lower 40.
Definition workflowPattern : string → bool :=
  after_prefix ".github/workflows/" (λ file,
    let named extension := HasSuffix file extension &&
      re_ident is_alnum (λ c, is_alnum c || one_of "_.-" c) 0 119 (TrimSuffix file extension) in
    named ".yml" || named ".yaml").
Definition referencePattern : string → bool := re_ident is_up (λ c, is_up c || is_digit c) 0 127.

Section Environment.
Context `{GoUnicode}.

Fixpoint references_in_order (values : list string) : bool :=
  match values with
  | v :: ((w :: _) as rest) => String.ltb v w && references_in_order rest
  | _ => true
  end.
Definition valid_reference (value : string) : bool :=
  String.eqb value (ToUpper (TrimSpace value)) && referencePattern value && negb (HasPrefix value "GITHUB_").
Definition validReferences (values : option (list string)) : bool :=
  match values with
  | None => false
  | Some values => Nat.leb (length values) maxReferences && forallb valid_reference values && references_in_order values
  end.
Definition subset (values allowed : option (list string)) : bool :=
  forallb (λ value, bool_decide (value ∈ items allowed)) (items values).

Definition validateRepository (repository : Repository) : bool :=
  String.eqb (Repository_Repository repository) (lower_trimmed (Repository_Repository repository)) &&
  repositoryPattern (Repository_Repository repository) &&
  String.eqb (HeadSHA repository) (lower_trimmed (HeadSHA repository)) && shaPattern (HeadSHA repository) &&
  String.eqb (Workflow repository) (TrimSpace (Workflow repository)) && workflowPattern (Workflow repository) &&
  String.eqb (Environment repository) (TrimSpace (Environment repository)) && negb (String.eqb (Environment repository) "") &&
  Nat.leb (String.length (Environment repository)) 128 && negb (some_byte is_control (Environment repository)) &&
  forallb validReferences [RequiredSecretReferences repository; RequiredVariableReferences repository;
                           MissingSecretReferences repository; MissingVariableReferences repository] &&
  subset (MissingSecretReferences repository) (RequiredSecretReferences repository) &&
  subset (MissingVariableReferences repository) (RequiredVariableReferences repository) &&
  WorkflowExists repository && EnvironmentExists repository.
Definition Validate (observation : Observation) : bool :=
  Z.eqb (Observation_SchemaVersion observation) SchemaVersion &&
  uuidPattern (lower_trimmed (Observation_TaskID observation)) &&
  digestPattern (lower_trimmed (Observation_MatrixDigest observation)) &&
  negb (Nat.eqb (length (Repositories observation)) 0) && Nat.leb (length (Repositories observation)) 64 &&
  all_checked Repository_Repository validateRepository ∅ (Repositories observation).

Definition Decode (payload : string) : option Observation :=
  if bad_size maxInputBytes payload then None
  else
    observation ← UnmarshalGo true payload;
    if Validate observation then Some observation else None.

Definition canonicalReferences (values : option (list string)) : option (list string) :=
  Some (sort_strings ((λ value, ToUpper (TrimSpace value)) <$> items values)).
Definition explicit (repository : Repository) : bool :=
  bool_decide (is_Some (RequiredSecretReferences repository)) && bool_decide (is_Some (RequiredVariableReferences repository)) &&
  bool_decide (is_Some (MissingSecretReferences repository)) && bool_decide (is_Some (MissingVariableReferences repository)).
Definition canonicalRepository (r : Repository) : Repository := {|
  Repository_Repository := Repository_Repository r; HeadSHA := HeadSHA r; Workflow := Workflow r; Environment := Environment r;
  RequiredSecretReferences := canonicalReferences (RequiredSecretReferences r);
  RequiredVariableReferences := canonicalReferences (RequiredVariableReferences r);
  WorkflowExists := WorkflowExists r; EnvironmentExists := EnvironmentExists r;
  MissingSecretReferences := canonicalReferences (MissingSecretReferences r);
  MissingVariableReferences := canonicalReferences (MissingVariableReferences r) |}.
Definition Canonical (observation : Observation) : option Observation :=
  if negb (forallb explicit (Repositories observation)) then None
  else
    let clone := {| Observation_SchemaVersion := Observation_SchemaVersion observation;
                    Observation_TaskID := lower_trimmed (Observation_TaskID observation);
                    Observation_MatrixDigest := lower_trimmed (Observation_MatrixDigest observation);
                    Repositories := canonicalRepository <$> Repositories observation |} in
    if Validate clone then
      Some {| Observation_SchemaVersion := Observation_SchemaVersion clone; Observation_TaskID := Observation_TaskID clone;
              Observation_MatrixDigest := Observation_MatrixDigest clone;
              Repositories := sort_key Repository_Repository (Repositories clone) |}
    else None.
End Environment.

(** ** The ledger's interface *)

#[export] Instance Observation_evidence `{GoUnicode} : Evidence Observation := {|
  EventType := "delivery.environment.observed.v1"; EvidenceVersion := SchemaVersion; dedupe_infix := ":environment-observation-v1:";
  evidence_actor := "release-runner/github-environment/v1"; max_bytes := maxInputBytes;
  Evidence.Decode := Decode; Evidence.Canonical := Canonical; TaskID := Observation_TaskID; MatrixDigest := Observation_MatrixDigest;
  clean_text _ := True;
|}.

Section Laws.
Context `{GoUnicode}.

(** References that pass the check are in canonical form. *)
Lemma references_sorted l : references_in_order l = true → key_sorted id l.
Proof.
  intros Hl. apply Sorted_StronglySorted; [apply key_not_less_trans|]. revert Hl. induction l as [|v l IH]; [constructor|].
  destruct l as [|w l]; [by repeat constructor|]. cbn [references_in_order]. intros [Hlt Hl]%andb_true_iff. constructor; [by apply IH|].
  constructor. by apply (key_less_asym id).
Qed.
Lemma canonical_references values : validReferences values = true → canonicalReferences values = values.
Proof.
  destruct values as [values|]; [|done]. cbn. intros [[_ Hv]%andb_true_iff Ho]%andb_true_iff. unfold canonicalReferences. cbn. f_equal.
  assert ((λ value, ToUpper (TrimSpace value)) <$> values = values) as ->; [|by apply sort_key_id, references_sorted].
  rewrite forallb_forall in Hv. rewrite <-(list_fmap_id values) at 2. apply list_fmap_ext. intros i v Hi.
  apply list_elem_of_lookup_2, list_elem_of_In, Hv in Hi. unfold valid_reference in Hi. rewrite !andb_true_iff in Hi.
  destruct Hi as [[Heq%String.eqb_eq _] _]. symmetry. exact Heq.
Qed.
Lemma references_go_valid values : validReferences values = true → go_valid values.
Proof.
  destruct values as [values|]; [|done]. cbn [validReferences]. intros [[_ Hv]%andb_true_iff _]%andb_true_iff. apply go_valid_slice.
  rewrite forallb_forall in Hv. apply Forall_forall. intros v Hi%list_elem_of_In%Hv. unfold valid_reference in Hi. rewrite !andb_true_iff in Hi.
  destruct Hi as [[_ Hp] _]. apply ascii_utf8. unfold referencePattern in Hp. apply re_ident_all in Hp.
  - revert Hp. apply all_bytes_impl. by intros [[] [] [] [] [] [] [] []].
  - by intros [[] [] [] [] [] [] [] []].
Qed.
Lemma validated_references r : validateRepository r = true → validReferences (RequiredSecretReferences r) = true ∧
  validReferences (RequiredVariableReferences r) = true ∧ validReferences (MissingSecretReferences r) = true ∧
  validReferences (MissingVariableReferences r) = true.
Proof. unfold validateRepository. cbn [forallb]. rewrite !andb_true_iff. tauto. Qed.
Lemma environment_repository_canonical r : validateRepository r = true → canonicalRepository r = r.
Proof.
  intros (H1 & H2 & H3 & H4)%validated_references. unfold canonicalRepository. rewrite !canonical_references by done. by destruct r.
Qed.
Lemma explicit_canonical r : explicit (canonicalRepository r) = true.
Proof. done. Qed.

(** What [Canonical] returns, and from what. *)
Definition clone_of (o : Observation) : Observation := {| Observation_SchemaVersion := Observation_SchemaVersion o;
  Observation_TaskID := lower_trimmed (Observation_TaskID o); Observation_MatrixDigest := lower_trimmed (Observation_MatrixDigest o);
  Repositories := sort_key Repository_Repository (canonicalRepository <$> Repositories o) |}.
Lemma environment_canonical o c : Canonical o = Some c → c = clone_of o ∧ Validate c = true.
Proof.
  unfold Canonical. destruct (negb _); [done|]. destruct (Validate _) eqn:Hv; [|done]. intros [= <-]. split; [done|]. unfold Validate in Hv |- *.
  cbn [Observation_SchemaVersion Observation_TaskID Observation_MatrixDigest Repositories] in *.
  rewrite (all_checked_perm _ _ _ _ (sort_key_perm _ _)). unfold sort_key. by rewrite sort_by_length.
Qed.
Lemma environment_valid_parts o : Validate o = true → uuidPattern (lower_trimmed (Observation_TaskID o)) = true ∧
  digestPattern (lower_trimmed (Observation_MatrixDigest o)) = true ∧ ∀ r, r ∈ Repositories o → validateRepository r = true.
Proof.
  unfold Validate. rewrite !andb_true_iff. intros (((((_ & Ht) & Hm) & _) & _) & Hr). split; [done|]. split; [done|].
  by apply all_checked_spec in Hr as [Hr _].
Qed.
#[export] Instance Observation_laws : EvidenceLaws Observation.
Proof.
  constructor.
  - by vm_compute.
  - by vm_compute.
  - done.
  - intros o c [Hc Hv]%environment_canonical. pose proof (environment_valid_parts c Hv) as (_ & _ & Hr).
    assert (canonicalRepository <$> Repositories c = Repositories c) as Hm.
    { rewrite <-(list_fmap_id (Repositories c)) at 2. apply list_fmap_ext. intros i r Hi%list_elem_of_lookup_2. by apply environment_repository_canonical, Hr. }
    assert (forallb explicit (Repositories c) = true) as He.
    { apply forallb_forall. intros r Hin%list_elem_of_In. rewrite <-(environment_repository_canonical r) by by apply Hr. apply explicit_canonical. }
    assert ({| Observation_SchemaVersion := Observation_SchemaVersion c; Observation_TaskID := lower_trimmed (Observation_TaskID c);
               Observation_MatrixDigest := lower_trimmed (Observation_MatrixDigest c); Repositories := Repositories c |} = c) as Hid.
    { subst c. cbn [clone_of Observation_TaskID Observation_MatrixDigest]. by rewrite !lower_trimmed_idem. }
    change (Canonical c = Some c). unfold Canonical. rewrite He. cbn [negb]. rewrite Hm, Hid, Hv. f_equal. rewrite Hc at 4.
    cbn [clone_of Repositories]. rewrite (sort_key_id _ (sort_key _ _)) by apply sort_key_sorted. by rewrite Hc.
  - intros o c [Hc Hv]%environment_canonical Ho. pose proof (environment_valid_parts c Hv) as (Ht & Hm & Hr). subst c.
    rewrite go_valid_struct in Ho |- * by done. rewrite !Forall2_cons in Ho |- *. destruct Ho as (? & _ & _ & Hl & _).
    cbn [clone_of Observation_TaskID Observation_MatrixDigest] in Ht, Hm. rewrite lower_trimmed_idem in Ht, Hm.
    split; [done|]. split; [by apply visible_utf8, uuid_visible|]. split; [by apply visible_utf8, digest_visible|]. split; [|done].
    apply go_valid_list in Hl. apply go_valid_list. rewrite Forall_forall in Hl |- *. intros r Hin. specialize (Hr r Hin).
    cbn [clone_of Repositories] in Hin. rewrite sort_key_perm in Hin. apply list_elem_of_fmap in Hin as (r0 & -> & Hin). specialize (Hl r0 Hin).
    apply validated_references in Hr as (H1%references_go_valid & H2%references_go_valid & H3%references_go_valid & H4%references_go_valid).
    rewrite go_valid_struct in Hl |- * by done. rewrite !Forall2_cons in Hl |- *. tauto.
  - intros o c [-> (_ & Hm & _)%environment_valid_parts]%environment_canonical. cbn [clone_of Observation_MatrixDigest] in Hm. by rewrite lower_trimmed_idem in Hm.
  - intros o c [-> (Ht & _)%environment_valid_parts]%environment_canonical. cbn [clone_of Observation_TaskID] in Ht. by rewrite lower_trimmed_idem in Ht.
  - intros o c text v [_ Hv]%environment_canonical Hg _ Hl Hr Hs. cbn. unfold Decode. rewrite (bad_size_document _ _ v) by done.
    rewrite (Unmarshal_value true c _ v) by (done || by vm_compute). cbn. by rewrite Hv.
  - intros text c Hd. exact (bad_size_bound _ _ _ _ Hd).
Qed.
End Laws.
