(* ===== verification/EvidenceQA.v ===== *)
(** * internal/qaevidence: the observation of one QA task and the claims made about it

    evidence.go ([Decode], [Validate], [Canonical]) and grounding.go ([DecodeReportClaims],
    [DecodeClaims], [ValidateGrounding]). *)
From stdpp Require Import base tactics list strings gmap sorting.
From Stdlib Require Import Ascii.
From S2P Require Import Prelude GoStrings GoSort Json JsonTypes JsonRaw GoJson Evidence EvidenceJson.
Open Scope string_scope.
Open Scope nat_scope.

Definition SchemaVersion : Z := 2.
Definition maxInputBytes : N := 65536.

Record Command := { Index : Z; Phase : string; Kind : string; Passed : bool }.
#[export] Program Instance Command_json : GoJson Command := {|
  go_type := TStruct [(("index", false), TInt); (("phase", false), TString); (("kind", false), TString); (("passed", false), TBool)];
  to_go c := GStruct [to_go (Index c); to_go (Phase c); to_go (Kind c); to_go (Passed c)];
  of_go g := {| Index := of_go (field 0 g); Phase := of_go (field 1 g); Kind := of_go (field 2 g); Passed := of_go (field 3 g) |};
|}.
Next Obligation. by intros []. Qed.
Record Repository := { Reference : string; Branch : string; Commands : list Command }.
#[export] Program Instance Repository_json : GoJson Repository := {|
  go_type := TStruct [(("reference", false), TString); (("branch", false), TString); (("commands", false), go_type (list Command))];
  to_go r := GStruct [to_go (Reference r); to_go (Branch r); to_go (Commands r)];
  of_go g := {| Reference := of_go (field 0 g); Branch := of_go (field 1 g); Commands := of_go (field 2 g) |};
|}.
Next Obligation. intros []. cbn -[of_go to_go]. by rewrite !of_to_go. Qed.
Record Observation := {
  Observation_SchemaVersion : Z; Observation_TaskID : string; Observation_MatrixDigest : string; PreviewPassed : bool;
  RepositoryExecutionOrder : list string; Repositories : list Repository;
}.
#[export] Program Instance Observation_json : GoJson Observation := {|
  go_type := TStruct [(("schema_version", false), TInt); (("task_id", false), TString); (("matrix_digest", false), TString);
    (("preview_passed", false), TBool); (("repository_execution_order", false), TSlice TString);
    (("repositories", false), go_type (list Repository))];
  to_go o := GStruct [to_go (Observation_SchemaVersion o); to_go (Observation_TaskID o); to_go (Observation_MatrixDigest o);
    to_go (PreviewPassed o); to_go (RepositoryExecutionOrder o); to_go (Repositories o)];
  of_go g := {| Observation_SchemaVersion := of_go (field 0 g); Observation_TaskID := of_go (field 1 g);
    Observation_MatrixDigest := of_go (field 2 g); PreviewPassed := of_go (field 3 g);
    RepositoryExecutionOrder := of_go (field 4 g); Repositories := of_go (field 5 g) |};
|}.
Next Obligation. intros []. cbn -[of_go to_go]. by rewrite !of_to_go. Qed.

(** The [presence] structs of [Decode]. *)
Record command_presence := { present_Index : option Z; present_Passed : option bool }.
#[export] Program Instance command_presence_json : GoJson command_presence := {|
  go_type := TStruct [(("index", false), TPointer TInt); (("passed", false), TPointer TBool)];
  to_go c := GStruct [to_go (present_Index c); to_go (present_Passed c)];
  of_go g := {| present_Index := of_go (field 0 g); present_Passed := of_go (field 1 g) |};
|}.
Next Obligation. intros []. cbn -[of_go to_go]. by rewrite !of_to_go. Qed.
Record repository_presence := { present_Commands : list command_presence }.
#[export] Program Instance repository_presence_json : GoJson repository_presence := {|
  go_type := TStruct [(("commands", false), go_type (list command_presence))];
  to_go r := GStruct [to_go (present_Commands r)];
  of_go g := {| present_Commands := of_go (field 0 g) |};
|}.
Next Obligation. intros []. cbn -[of_go to_go]. by rewrite !of_to_go. Qed.
Record presence := { present_PreviewPassed : option bool; present_Repositories : list repository_presence }.
#[export] Program Instance presence_json : GoJson presence := {|
  go_type := TStruct [(("preview_passed", false), TPointer TBool); (("repositories", false), go_type (list repository_presence))];
  to_go p := GStruct [to_go (present_PreviewPassed p); to_go (present_Repositories p)];
  of_go g := {| present_PreviewPassed := of_go (field 0 g); present_Repositories := of_go (field 1 g) |};
|}.
Next Obligation. intros []. cbn -[of_go to_go]. by rewrite !of_to_go. Qed.

Definition testKindPattern : string → bool := re_ident is_alnum (λ c, is_alnum c || one_of "_.:/+-" c) 0 127.

Section QA.
Context `{GoUnicode} `{GoFold}.

Definition valid_command (command : Command) : bool :=
  Z.leb 0 (Index command) && Z.ltb (Index command) 12 &&
  (String.eqb (Phase command) "validation" || String.eqb (Phase command) "qa") &&
  String.eqb (Kind command) (TrimSpace (Kind command)) && (String.eqb (Kind command) "" || testKindPattern (Kind command)).
Fixpoint valid_commands (seenCommands : gset Z) (seenKinds : gset string) (commands : list Command) : bool :=
  match commands with
  | [] => true
  | command :: rest =>
      if negb (valid_command command) then false
      else if bool_decide (Index command ∈ seenCommands) then false
      else
        let seenCommands := {[Index command]} ∪ seenCommands in
        if negb (String.eqb (Kind command) "") then
          let key := ToLower (Kind command) in
          if bool_decide (key ∈ seenKinds) then false else valid_commands seenCommands ({[key]} ∪ seenKinds) rest
        else valid_commands seenCommands seenKinds rest
  end.
Definition valid_repository (repository : Repository) : bool :=
  String.eqb (TrimSpace (Reference repository)) (Reference repository) &&
  String.eqb (TrimSpace (Branch repository)) (Branch repository) &&
  workspacePattern (TrimSpace (Reference repository)) && branchPattern (ToLower (TrimSpace (Branch repository))) &&
  Nat.leb (length (Commands repository)) 12 && valid_commands ∅ ∅ (Commands repository).
Definition Validate (observation : Observation) : bool :=
  Z.eqb (Observation_SchemaVersion observation) SchemaVersion &&
  uuidPattern (lower_trimmed (Observation_TaskID observation)) &&
  digestPattern (lower_trimmed (Observation_MatrixDigest observation)) &&
  negb (Nat.eqb (length (Repositories observation)) 0) && Nat.leb (length (Repositories observation)) 64 &&
  Nat.eqb (length (RepositoryExecutionOrder observation)) (length (Repositories observation)) &&
  all_checked (λ repository, TrimSpace (Reference repository)) valid_repository ∅ (Repositories observation) &&
  all_checked id (λ reference, bool_decide (reference ∈ (TrimSpace ∘ Reference) <$> Repositories observation)) ∅
    (RepositoryExecutionOrder observation).

Definition all_present (p : presence) : bool :=
  bool_decide (is_Some (present_PreviewPassed p)) &&
  forallb (λ repository, forallb (λ command, bool_decide (is_Some (present_Index command)) && bool_decide (is_Some (present_Passed command)))
    (present_Commands repository)) (present_Repositories p).
Definition Decode (payload : string) : option Observation :=
  if bad_size maxInputBytes payload then None
  else if negb (EvidenceJson.Validate payload) then None
  else
    observation ← UnmarshalGo true payload;
    p ← UnmarshalGo (A:=presence) false payload;
    if negb (all_present p) then None
    else if Validate observation then Some observation else None.

Definition sort_commands : list Command → list Command := sort_by (λ left right, Z.ltb (Index left) (Index right)).
Definition canonical_repository (r : Repository) : Repository :=
  {| Reference := Reference r; Branch := Branch r; Commands := sort_commands (Commands r) |}.
Definition Canonical (observation : Observation) : option Observation :=
  if Validate observation then
    Some {| Observation_SchemaVersion := Observation_SchemaVersion observation;
            Observation_TaskID := lower_trimmed (Observation_TaskID observation);
            Observation_MatrixDigest := lower_trimmed (Observation_MatrixDigest observation);
            PreviewPassed := PreviewPassed observation;
            RepositoryExecutionOrder := RepositoryExecutionOrder observation;
            Repositories := sort_key Reference (canonical_repository <$> Repositories observation) |}
  else None.
End QA.

(** ** The ledger's interface *)

#[export] Instance Observation_evidence `{GoUnicode} `{GoFold} : Evidence Observation := {|
  EventType := "delivery.qa.observed.v2"; EvidenceVersion := SchemaVersion; dedupe_infix := ":qa-observation-v2:";
  evidence_actor := "qa-runner/v2"; max_bytes := maxInputBytes;
  Evidence.Decode := Decode; Evidence.Canonical := Canonical; TaskID := Observation_TaskID; MatrixDigest := Observation_MatrixDigest;
  clean_text text := utf8_valid text && validateUnicodeEscapes false (bytes text) = true;
|}.

Section Laws.
Context `{GoUnicode} `{GoFold}.

Definition named (command : Command) : Prop := Kind command ≠ "".
Definition kinds (commands : list Command) : list string := (ToLower ∘ Kind) <$> filter named commands.
Lemma kinds_cons c cs : kinds (c :: cs) = if decide (named c) then ToLower (Kind c) :: kinds cs else kinds cs.
Proof. unfold kinds. rewrite filter_cons. by destruct (decide (named c)). Qed.
Lemma valid_commands_spec seenC seenK commands : valid_commands seenC seenK commands = true ↔
  (∀ c, c ∈ commands → valid_command c = true ∧ Index c ∉ seenC) ∧ NoDup (Index <$> commands) ∧
  NoDup (kinds commands) ∧ ∀ k, k ∈ kinds commands → k ∉ seenK.
Proof.
  revert seenC seenK. induction commands as [|c cs IH]; intros seenC seenK.
  { split; [intros _|done]. split; [by intros ? ?%not_elem_of_nil|]. split; [constructor|]. split; [constructor|by intros ? ?%not_elem_of_nil]. }
  cbn [valid_commands]. rewrite fmap_cons, NoDup_cons, kinds_cons. destruct (valid_command c) eqn:Hv; cbn [negb].
  2:{ split; [done|]. intros [Hc _]. destruct (Hc c) as [? _]; [by left|congruence]. }
  case_bool_decide as Hi.
  { split; [done|]. intros [Hc _]. destruct (Hc c) as [_ ?]; [by left|done]. }
  assert (∀ seenK, (valid_commands ({[Index c]} ∪ seenC) seenK cs = true ↔
      (∀ c', c' ∈ cs → valid_command c' = true ∧ Index c' ∉ seenC) ∧ (Index c ∉ Index <$> cs) ∧ NoDup (Index <$> cs) ∧ NoDup (kinds cs) ∧
      ∀ k, k ∈ kinds cs → k ∉ seenK)) as Hstep.
  { intros seenK'. rewrite IH. rewrite list_elem_of_fmap. split.
    - intros (H1 & H2 & H3 & H4). split_and!; try done.
      + intros c' Hc. destruct (H1 c' Hc) as [? Hn]. split; [done|set_solver].
      + intros (c' & Heq & Hin). destruct (H1 c' Hin) as [_ Hn]. set_solver.
    - intros (H1 & H2 & H3 & H4 & H5). split_and!; try done. intros c' Hc. destruct (H1 c' Hc) as [? Hn]. split; [done|].
      intros [Heq%elem_of_singleton|Hin]%elem_of_union; [|done]. apply H2. by exists c'. }
  assert ((∀ c', c' ∈ c :: cs → valid_command c' = true ∧ Index c' ∉ seenC) ↔
     ∀ c', c' ∈ cs → valid_command c' = true ∧ Index c' ∉ seenC) as Hcons.
  { split; intros Hall c' Hin; [apply Hall; by right|]. by apply elem_of_cons in Hin as [->|Hin]; [|apply Hall]. }
  rewrite Hcons. destruct (String.eqb_spec (Kind c) "") as [He|He]; cbn [negb].
  - rewrite decide_False by (by intros ?). rewrite (Hstep seenK). tauto.
  - rewrite decide_True by done. case_bool_decide as Hk.
    { split; [done|]. intros (_ & _ & _ & H4). destruct (H4 (ToLower (Kind c))); [by left|done]. }
    rewrite Hstep, NoDup_cons. split.
    + intros (H1 & H2 & H3 & H4 & H5). split_and!; try done; [intros Hin; apply (H5 _ Hin); set_solver|].
      intros k [->|Hin]%elem_of_cons; [done|]. specialize (H5 k Hin). set_solver.
    + intros (H1 & [H2 H3] & [H4 H5] & H6). split_and!; try done. intros k Hin [->%elem_of_singleton|Hs]%elem_of_union; [done|].
      apply (H6 k); [by right|done].
Qed.
Lemma valid_commands_perm cs cs' : cs ≡ₚ cs' → valid_commands ∅ ∅ cs = valid_commands ∅ ∅ cs'.
Proof.
  intros Hp. apply eq_true_iff_eq. rewrite !valid_commands_spec.
  assert (kinds cs ≡ₚ kinds cs') as Hk by (unfold kinds; by rewrite Hp). setoid_rewrite Hk. by setoid_rewrite Hp.
Qed.

(** The canonical form is valid and its own canonical form. *)
Lemma sort_commands_idem cs : sort_commands (sort_commands cs) = sort_commands cs.
Proof.
  apply sort_by_id, sort_by_sorted.
  - intros x y z. unfold not_less. rewrite !Z.ltb_ge. lia.
  - intros x y. rewrite Z.ltb_lt, Z.ltb_ge. lia.
Qed.
Lemma canonical_repository_idem r : canonical_repository (canonical_repository r) = canonical_repository r.
Proof. unfold canonical_repository. cbn. by rewrite sort_commands_idem. Qed.
Lemma canonical_repository_valid r : valid_repository (canonical_repository r) = valid_repository r.
Proof.
  unfold valid_repository. cbn [canonical_repository Reference Branch Commands]. unfold sort_commands. rewrite sort_by_length.
  by rewrite (valid_commands_perm _ _ (sort_by_perm _ _)).
Qed.
Definition canonical_of (o : Observation) : Observation := {|
  Observation_SchemaVersion := Observation_SchemaVersion o; Observation_TaskID := lower_trimmed (Observation_TaskID o);
  Observation_MatrixDigest := lower_trimmed (Observation_MatrixDigest o); PreviewPassed := PreviewPassed o;
  RepositoryExecutionOrder := RepositoryExecutionOrder o; Repositories := sort_key Reference (canonical_repository <$> Repositories o) |}.
Lemma qa_canonical o c : Canonical o = Some c ↔ Validate o = true ∧ c = canonical_of o.
Proof. unfold Canonical. destruct (Validate o); split; [by intros [= <-]|by intros [_ ->]|done|by intros []]. Qed.
Lemma canonical_of_idem o : canonical_of (canonical_of o) = canonical_of o.
Proof.
  unfold canonical_of. cbn. rewrite !lower_trimmed_idem. f_equal.
  assert (∀ l : list Repository, (∀ r, r ∈ l → canonical_repository r = r) → canonical_repository <$> l = l) as Hfix.
  { intros l Hl. rewrite <-(list_fmap_id l) at 2. apply list_fmap_ext. intros i r Hi%list_elem_of_lookup_2. by apply Hl. }
  rewrite Hfix; [by apply sort_key_id, sort_key_sorted|]. intros r Hr. rewrite sort_key_perm in Hr.
  apply list_elem_of_fmap in Hr as (r0 & -> & _). apply canonical_repository_idem.
Qed.
Lemma qa_canonical_valid o : Validate o = true → Validate (canonical_of o) = true.
Proof.
  unfold Validate. cbn [canonical_of Observation_SchemaVersion Observation_TaskID Observation_MatrixDigest RepositoryExecutionOrder Repositories].
  rewrite !lower_trimmed_idem. unfold sort_key at 1 2 3. rewrite !sort_by_length, !length_fmap, !andb_true_iff.
  intros (((((((H1 & H2) & H3) & H4) & H5) & H6) & H7) & H8). rewrite (all_checked_perm _ _ _ _ (sort_key_perm _ _)).
  apply all_checked_spec in H7 as (Hv & Hnd & _), H8 as (Ho & Hnd' & _). split_and!; try done.
  - apply all_checked_spec. split_and!; [| |done].
    + intros r (r0 & -> & Hr)%list_elem_of_fmap. rewrite canonical_repository_valid. by apply Hv.
    + rewrite <-list_fmap_compose. exact Hnd.
  - apply all_checked_spec. split_and!; [|done|done]. intros x Hx. specialize (Ho x Hx). rewrite bool_decide_eq_true in Ho |- *.
    rewrite sort_key_perm, <-list_fmap_compose. exact Ho.
Qed.
Lemma qa_valid_parts o : Validate o = true → uuidPattern (lower_trimmed (Observation_TaskID o)) = true ∧
  digestPattern (lower_trimmed (Observation_MatrixDigest o)) = true.
Proof. unfold Validate. rewrite !andb_true_iff. tauto. Qed.
Lemma canonical_present (o : Observation) : all_present (view_go (B:=presence) o) = true.
Proof.
  assert (∀ rs : list Repository, forallb (λ repository, forallb (λ command, bool_decide (is_Some (present_Index command)) &&
    bool_decide (is_Some (present_Passed command))) (present_Commands repository)) (view_go (B:=repository_presence) <$> rs) = true) as Hr.
  { intros rs. apply forallb_forall. intros p (r & -> & _)%list_elem_of_In%list_elem_of_fmap.
    change (present_Commands (view_go r)) with (of_go (A:=list command_presence) (viewed (TSlice (go_type command_presence)) (TSlice (go_type Command)) (to_go (Commands r)))).
    rewrite view_list. apply forallb_forall. by intros q (c & -> & _)%list_elem_of_In%list_elem_of_fmap. }
  unfold all_present. change (present_PreviewPassed (view_go o)) with (Some (PreviewPassed o)). rewrite bool_decide_eq_true_2 by done.
  change (present_Repositories (view_go o)) with (of_go (A:=list repository_presence) (viewed (TSlice (go_type repository_presence)) (TSlice (go_type Repository)) (to_go (Repositories o)))).
  rewrite view_list. apply Hr.
Qed.
#[export] Instance Observation_laws : EvidenceLaws Observation.
Proof.
  constructor.
  - by vm_compute.
  - by vm_compute.
  - done.
  - intros o c [Hv ->]%qa_canonical. apply qa_canonical. split; [by apply qa_canonical_valid|]. by rewrite canonical_of_idem.
  - intros o c [(Ht & Hm)%qa_valid_parts ->]%qa_canonical Ho.
    rewrite go_valid_struct in Ho |- * by done. rewrite !Forall2_cons in Ho |- *. destruct Ho as (H1 & _ & _ & H4 & H5 & Hr & _).
    split_and!; [done|by apply visible_utf8, uuid_visible|by apply visible_utf8, digest_visible|done|done| |done].
    apply go_valid_list in Hr. apply go_valid_list. cbn [canonical_of Repositories]. rewrite sort_key_perm. apply Forall_fmap.
    eapply Forall_impl; [exact Hr|]. intros r Hg. cbn. rewrite go_valid_struct in Hg |- * by done. rewrite !Forall2_cons in Hg |- *.
    destruct Hg as (? & ? & Hc & _). split_and!; [done|done| |done]. apply go_valid_list in Hc. apply go_valid_list. cbn [canonical_repository Commands].
    unfold sort_commands. by rewrite sort_by_perm.
  - intros o c [[_ Hm]%qa_valid_parts ->]%qa_canonical. exact Hm.
  - intros o c [[Ht _]%qa_valid_parts ->]%qa_canonical. exact Ht.
  - intros o c text v [Hv ->]%qa_canonical Hg Hc Hl Hr Hs. cbn. unfold Decode. rewrite (bad_size_document _ _ v) by done.
    rewrite (encoded_integrity (go_type Observation) (to_go (canonical_of o)) _ v) by (done || by vm_compute).
    rewrite (Unmarshal_value true (canonical_of o) _ v) by (done || by vm_compute).
    rewrite (Unmarshal_view (canonical_of o) _ v) by (done || by vm_compute). cbn -[all_present Validate canonical_of view_go].
    by rewrite canonical_present, qa_canonical_valid.
  - intros text c Hd. exact (bad_size_bound _ _ _ _ Hd).
Qed.
End Laws.
