(* ===== verification/EvidenceGrounding.v ===== *)
(** * internal/qaevidence/grounding.go: a model's claims against the observation

    [grounding_decides] is the property of the comparison: claims are accepted exactly when
    they list the observed commands, each once, with the observed results. *)
From stdpp Require Import base tactics list strings gmap.
From Stdlib Require Import Ascii.
From S2P Require Import Prelude GoStrings GoSort Json JsonTypes JsonRaw GoJson Evidence EvidenceJson EvidenceQA.
Open Scope string_scope.

Record CommandClaim := {
  Claim_Reference : string; Claim_Index : option Z; Claim_Phase : string; Claim_Kind : string; Claim_Passed : option bool;
}.
#[export] Program Instance CommandClaim_json : GoJson CommandClaim := {|
  go_type := TStruct [(("reference", false), TString); (("index", false), TPointer TInt); (("phase", false), TString);
    (("kind", false), TString); (("passed", false), TPointer TBool)];
  to_go c := GStruct [to_go (Claim_Reference c); to_go (Claim_Index c); to_go (Claim_Phase c); to_go (Claim_Kind c); to_go (Claim_Passed c)];
  of_go g := {| Claim_Reference := of_go (field 0 g); Claim_Index := of_go (field 1 g); Claim_Phase := of_go (field 2 g);
    Claim_Kind := of_go (field 3 g); Claim_Passed := of_go (field 4 g) |};
|}.
Next Obligation. intros []. cbn -[of_go to_go]. by rewrite !of_to_go. Qed.
(** No commands (nil) and an empty list of commands differ. *)
Record Claims := {
  Claims_SchemaVersion : Z; Claims_TaskID : string; Claims_MatrixDigest : string; Claims_PreviewPassed : option bool;
  Verdict : string; Claims_Commands : option (list CommandClaim);
}.
#[export] Program Instance Claims_json : GoJson Claims := {|
  go_type := TStruct [(("schema_version", false), TInt); (("task_id", false), TString); (("matrix_digest", false), TString);
    (("preview_passed", false), TPointer TBool); (("verdict", false), TString); (("commands", false), TSlice (go_type CommandClaim))];
  to_go c := GStruct [to_go (Claims_SchemaVersion c); to_go (Claims_TaskID c); to_go (Claims_MatrixDigest c);
    to_go (Claims_PreviewPassed c); to_go (Verdict c); to_go (Claims_Commands c)];
  of_go g := {| Claims_SchemaVersion := of_go (field 0 g); Claims_TaskID := of_go (field 1 g); Claims_MatrixDigest := of_go (field 2 g);
    Claims_PreviewPassed := of_go (field 3 g); Verdict := of_go (field 4 g); Claims_Commands := of_go (field 5 g) |};
|}.
Next Obligation. intros []. cbn -[of_go to_go]. by rewrite !of_to_go. Qed.

Section Grounding.
Context `{GoUnicode} `{GoFold}.

Definition DecodeClaims (payload : string) : option Claims :=
  if bad_size maxInputBytes payload then None
  else if negb (EvidenceJson.Validate payload) then None
  else UnmarshalGo true payload.
(** The text of the last member that names the field. *)
Definition claims_text (members : list (string * (string * jvalue))) : string :=
  foldl (λ old m, if field_is "claims" m.1 then m.2.1 else old) "" members.
Definition DecodeReportClaims (payload : string) : option Claims :=
  if bad_size maxInputBytes payload then None
  else if negb (EvidenceJson.Validate payload) then None
  else
    members ← raw_object payload;
    let raw := claims_text members in
    if String.eqb raw "" || String.eqb (TrimSpace raw) "null" then None else DecodeClaims raw.

(** ** [ValidateGrounding] *)

Notation key := (string * Z)%type.
Definition command_key (repository : Repository) (command : Command) : key := (Reference repository, Index command).
(** The commands of all repositories, in the order of the loops. *)
Definition observed (o : Observation) : list (key * Command) :=
  Repositories o ≫= λ repository, (λ command, (command_key repository command, command)) <$> Commands repository.
Definition expected (o : Observation) : gmap key Command := foldl (λ m '(k, command), <[k := command]> m) ∅ (observed o).
Definition failed (o : Observation) : bool :=
  foldl (λ failed '(_, command), failed || negb (Passed command)) (negb (PreviewPassed o)) (observed o).
Fixpoint check_claims (expected : gmap key Command) (seen : gset key) (claims : list CommandClaim) : bool :=
  match claims with
  | [] => true
  | claim :: rest =>
      match Claim_Index claim, Claim_Passed claim with
      | Some index, Some passed =>
          let identity := (Claim_Reference claim, index) in
          match expected !! identity with
          | Some command =>
              if bool_decide (identity ∈ seen) then false
              else if negb (String.eqb (Claim_Phase claim) (Phase command)) || negb (String.eqb (Claim_Kind claim) (Kind command)) ||
                      negb (Bool.eqb passed (Passed command)) then false
              else check_claims expected ({[identity]} ∪ seen) rest
          | None => false
          end
      | _, _ => false
      end
  end.
Definition ValidateGrounding (observation : Observation) (claims : Claims) : bool :=
  if negb (Validate observation) then false
  else if negb (Z.eqb (Claims_SchemaVersion claims) 1) || negb (String.eqb (Claims_TaskID claims) (Observation_TaskID observation)) ||
          negb (String.eqb (Claims_MatrixDigest claims) (Observation_MatrixDigest observation)) then false
  else if negb (bool_decide (Claims_PreviewPassed claims = Some (PreviewPassed observation))) then false
  else if negb (String.eqb (Verdict claims) (if failed observation then "failed" else "passed")) then false
  else match Claims_Commands claims with
       | None => false
       | Some commands =>
           if negb (Nat.eqb (length commands) (size (expected observation))) then false
           else check_claims (expected observation) ∅ commands
       end.

(** ** What it decides *)

(** The claim that states what was observed of a command. *)
Definition claim_of (k : key) (command : Command) : CommandClaim := {|
  Claim_Reference := k.1; Claim_Index := Some k.2; Claim_Phase := Phase command; Claim_Kind := Kind command;
  Claim_Passed := Some (Passed command) |}.
(** The claims that state what was observed, in some order. *)
Definition grounded (o : Observation) (c : Claims) : Prop :=
  Claims_SchemaVersion c = 1%Z ∧ Claims_TaskID c = Observation_TaskID o ∧ Claims_MatrixDigest c = Observation_MatrixDigest o ∧
  Claims_PreviewPassed c = Some (PreviewPassed o) ∧
  (Verdict c = "passed" ↔ PreviewPassed o = true ∧ ∀ k command, (k, command) ∈ observed o → Passed command = true) ∧
  (Verdict c = "passed" ∨ Verdict c = "failed") ∧
  ∃ commands, Claims_Commands c = Some commands ∧ commands ≡ₚ (λ '(k, command), claim_of k command) <$> observed o.

Lemma claim_matches claim k command : (∃ index passed, Claim_Index claim = Some index ∧ Claim_Passed claim = Some passed ∧
    (Claim_Reference claim, index) = k ∧ Claim_Phase claim = Phase command ∧ Claim_Kind claim = Kind command ∧ passed = Passed command) ↔
  claim = claim_of k command.
Proof.
  split; [|intros ->; destruct k; by do 2 eexists]. destruct claim. cbn. by intros (index & passed & -> & -> & <- & -> & -> & ->).
Qed.
Definition claims_of : list (key * Command) → list CommandClaim := fmap (λ '(k, command), claim_of k command).
Lemma check_claims_spec expected seen claims : check_claims expected seen claims = true ↔
  ∃ ps, claims = claims_of ps ∧ (∀ k command, (k, command) ∈ ps → expected !! k = Some command) ∧ NoDup ps.*1 ∧ ∀ k, k ∈ ps.*1 → k ∉ seen.
Proof.
  revert seen. induction claims as [|claim claims IH]; intros seen.
  { split; [|done]. intros _. exists []. split_and!; [done|by intros ? ? ?%not_elem_of_nil|constructor|by intros ? ?%not_elem_of_nil]. }
  cbn [check_claims]. split.
  - destruct (Claim_Index claim) as [index|] eqn:Hi; [|done]. destruct (Claim_Passed claim) as [passed|] eqn:Hp; [|done].
    destruct (expected !! _) as [command|] eqn:He; [|done]. case_bool_decide as Hs; [done|]. destruct (_ || _ || _) eqn:Hm; [done|].
    rewrite !orb_false_iff, !negb_false_iff, !String.eqb_eq, eqb_true_iff in Hm. destruct Hm as [[Hph Hk] Hpa].
    intros (ps & -> & Hall & Hnd & Hks)%IH. exists (((Claim_Reference claim, index), command) :: ps). split_and!.
    + unfold claims_of. rewrite fmap_cons. f_equal. apply claim_matches. by exists index, passed.
    + intros k command' [[= -> ->]|Hin]%elem_of_cons; [done|by apply Hall].
    + rewrite fmap_cons. constructor; [|done]. intros Hin%Hks. set_solver.
    + intros k [->|Hin]%elem_of_cons; [done|]. specialize (Hks k Hin). set_solver.
  - intros ([|[[reference index] command] ps] & Hc & Hall & Hnd & Hks); [done|]. injection Hc as -> ->. rewrite fmap_cons in Hnd, Hks.
    apply NoDup_cons in Hnd as [Hk Hnd]. cbn [claim_of Claim_Index Claim_Passed Claim_Reference Claim_Phase Claim_Kind fst snd].
    rewrite (Hall (reference, index) command) by (by left). rewrite bool_decide_eq_false_2 by (apply Hks; by left).
    rewrite !String.eqb_refl, eqb_reflx. cbn [negb orb]. apply IH. exists ps. split_and!; [done|intros; apply Hall; by right|done|].
    intros k Hin [->%elem_of_singleton|Hs]%elem_of_union; [done|]. apply (Hks k); [by right|done].
Qed.
Lemma observed_keys o : Validate o = true → NoDup (observed o).*1.
Proof.
  unfold Validate. rewrite !andb_true_iff. intros [[_ (Hv & Hnd & _)%all_checked_spec] _]. unfold observed.
  induction (Repositories o) as [|r rs IH]; [constructor|]. rewrite fmap_cons, NoDup_cons in Hnd. destruct Hnd as [Hr Hnd].
  assert (∀ r', r' ∈ r :: rs → TrimSpace (Reference r') = Reference r') as Ht.
  { intros r' Hr'%Hv. unfold valid_repository in Hr'. rewrite !andb_true_iff in Hr'. apply String.eqb_eq. tauto. }
  rewrite bind_cons, fmap_app. apply NoDup_app. split_and!.
  - rewrite <-list_fmap_compose. assert (valid_repository r = true) as Hvr by (apply Hv; by left). unfold valid_repository in Hvr.
    rewrite !andb_true_iff in Hvr. destruct Hvr as [_ (_ & Hi & _)%valid_commands_spec].
    apply (NoDup_fmap_1 snd). rewrite <-list_fmap_compose. exact Hi.
  - intros k ([k1 c] & -> & (c' & [= -> ->] & _)%list_elem_of_fmap)%list_elem_of_fmap
      ([k2 c2] & Heq & (r' & (c3 & [= -> ->] & _)%list_elem_of_fmap & Hr')%list_elem_of_bind)%list_elem_of_fmap.
    apply Hr. apply list_elem_of_fmap. exists r'. split; [|done]. cbn in Heq. injection Heq as Heq _. rewrite !Ht; [done|by right|by left].
  - apply IH; [intros x Hx; apply Hv; by right|done].
Qed.
Lemma expected_map o : Validate o = true → expected o = list_to_map (observed o).
Proof.
  intros Hv%observed_keys. apply map_eq. intros k. apply option_eq. intros command. rewrite <-elem_of_list_to_map by done. unfold expected.
  assert (∀ l (m : gmap key Command), foldl (λ m '(k, command), <[k := command]> m) m l = foldl (λ m x, <[x.1 := x.2]> m) m l) as Hext.
  { induction l as [|[k' c] l IH]; intros m; [done|]. apply IH. }
  rewrite Hext, (foldl_insert_Some fst snd) by done. split.
  - intros [([k' c] & Hin & <- & <-)|[Hno _]]; [done|]. by rewrite lookup_empty in Hno.
  - intros Hin. left. by exists (k, command).
Qed.
Lemma expected_lookup o k command : Validate o = true → expected o !! k = Some command ↔ (k, command) ∈ observed o.
Proof. intros Hv. rewrite expected_map by done. by rewrite <-elem_of_list_to_map by by apply observed_keys. Qed.
Lemma expected_size o : Validate o = true → size (expected o) = length (observed o).
Proof. intros Hv. rewrite expected_map by done. by apply map_size_list_to_map, observed_keys. Qed.
Lemma failed_iff o : failed o = false ↔ PreviewPassed o = true ∧ ∀ k command, (k, command) ∈ observed o → Passed command = true.
Proof.
  unfold failed. transitivity (negb (PreviewPassed o) = false ∧ ∀ k command, (k, command) ∈ observed o → Passed command = true).
  2:{ by rewrite negb_false_iff. }
  generalize (negb (PreviewPassed o)). induction (observed o) as [|[k c] l IH]; intros b; cbn [foldl].
  { split; [intros ->; split; [done|by intros ? ? ?%not_elem_of_nil]|by intros []]. }
  rewrite IH, orb_false_iff, negb_false_iff. split.
  - intros [[Hb Hc] Hl]. split; [done|]. intros k' c' [[= -> ->]|Hin]%elem_of_cons; [done|by eapply Hl].
  - intros [Hb Hl]. split_and!; [done|eapply Hl; by left|intros k' c' Hin; eapply Hl; by right].
Qed.
Lemma checked_claims o claims : Validate o = true →
  length claims = size (expected o) ∧ check_claims (expected o) ∅ claims = true ↔ claims ≡ₚ claims_of (observed o).
Proof.
  intros Hv. rewrite expected_size, check_claims_spec by done. split.
  - intros [Hlen (ps & -> & Hall & Hnd & _)]. unfold claims_of in *. rewrite length_fmap in Hlen. apply fmap_Permutation.
    apply submseteq_length_Permutation; [|by rewrite Hlen]. apply NoDup_submseteq; [by eapply NoDup_fmap_1|].
    intros [k command] Hin. by apply expected_lookup, Hall.
  - intros Hp. split; [by rewrite Hp; unfold claims_of; rewrite length_fmap|]. apply Permutation_map_inv in Hp as (ps & -> & Hp). exists ps.
    split_and!; [done| | |done].
    + intros k command Hin. rewrite expected_lookup by done. by rewrite Hp.
    + rewrite <-Hp. by apply observed_keys.
Qed.
Lemma verdict_iff o verdict : verdict = (if failed o then "failed" else "passed") ↔
  (verdict = "passed" ↔ PreviewPassed o = true ∧ ∀ k command, (k, command) ∈ observed o → Passed command = true) ∧
  (verdict = "passed" ∨ verdict = "failed").
Proof.
  rewrite <-failed_iff. destruct (failed o).
  - split; [intros ->|]; [split; [by split|by right]|]. by intros [Hiff [Hp|]]; [apply Hiff in Hp|].
  - split; [intros ->|]; [split; [by split|by left]|]. intros [Hiff _]. by apply Hiff.
Qed.

(** C29: the comparison accepts exactly the claims that state the observation: same task, matrix and preview result, the
    verdict that follows, and one claim per observed command with its phase, kind and result, in any order. *)
Theorem grounding_decides o c : ValidateGrounding o c = true ↔ Validate o = true ∧ grounded o c.
Proof.
  unfold ValidateGrounding, grounded. destruct (Validate o) eqn:Hv; [|by split; [|intros []]]. cbn [negb].
  assert (∀ (b : bool) (P : Prop), (b = true ↔ P) → ∀ (x : bool) (Q : Prop), (x = true ↔ Q) → (if negb b then false else x) = true ↔ P ∧ Q) as Hstep.
  { intros b P Hb x Q Hx. rewrite <-Hb, <-Hx. destruct b; cbn; [tauto|]. by split; [|intros []]. }
  destruct (Z.eqb_spec (Claims_SchemaVersion c) 1) as [Hs|Hs]; [|split; [done|tauto]].
  destruct (String.eqb_spec (Claims_TaskID c) (Observation_TaskID o)) as [Ht|Ht]; [|split; [done|tauto]].
  destruct (String.eqb_spec (Claims_MatrixDigest c) (Observation_MatrixDigest o)) as [Hm|Hm]; [|split; [done|tauto]]. cbn [negb orb].
  assert (match Claims_Commands c with
    | None => false
    | Some commands => if negb (Nat.eqb (length commands) (size (expected o))) then false else check_claims (expected o) ∅ commands
    end = true ↔ ∃ commands, Claims_Commands c = Some commands ∧ commands ≡ₚ claims_of (observed o)) as Hc.
  { destruct (Claims_Commands c) as [commands|]; [|by split; [|intros (? & ? & _)]].
    rewrite (Hstep _ _ (Nat.eqb_eq _ _) _ _ (iff_refl _)), checked_claims by done. split; [by exists commands|by intros (? & [= <-] & ?)]. }
  rewrite (Hstep _ _ (bool_decide_eq_true _) _ _ (Hstep _ _ (String.eqb_eq _ _) _ _ Hc)), verdict_iff. unfold claims_of. tauto.
Qed.
End Grounding.
