(* ===== verification/GateJson.v ===== *)
(** * internal/releasegate as JSON

    The types of gate.go with their JSON tags, and [DecodeInput].  A nil and an empty slice of
    an [Input] are the same list: the gate does not tell them apart.  The reasons of a
    [Decision] are never nil. *)
From stdpp Require Import base tactics list strings gmap.
From Stdlib Require Import Ascii.
From S2P Require Import Prelude GoStrings GoSort Json JsonTypes GoJson Evidence ReleaseGate.
Open Scope string_scope.

#[export] Program Instance Revision_json : GoJson Revision := {|
  go_type := TStruct [
    (("repository", false), TString); (("branch", false), TString); (("sha", false), TString)];
  to_go x := GStruct [
    to_go (Revision_Repository x); to_go (Revision_Branch x); to_go (Revision_SHA x)];
  of_go g := {|
    Revision_Repository := of_go (field 0 g); Revision_Branch := of_go (field 1 g); Revision_SHA := of_go (field 2 g) |};
|}.
Next Obligation. intros []. cbn -[of_go to_go]. by rewrite !of_to_go. Qed.
#[export] Program Instance RepositoryPolicyEvidence_json : GoJson RepositoryPolicyEvidence := {|
  go_type := TStruct [
    (("repository", false), TString); (("digest", false), TString); (("resolved", false), TBool); (("action_allowed", false), TBool);
    (("branch_allowed", false), TBool)];
  to_go x := GStruct [
    to_go (RPE_Repository x); to_go (RPE_Digest x); to_go (RPE_Resolved x); to_go (RPE_ActionAllowed x); to_go (RPE_BranchAllowed x)];
  of_go g := {|
    RPE_Repository := of_go (field 0 g); RPE_Digest := of_go (field 1 g); RPE_Resolved := of_go (field 2 g); RPE_ActionAllowed := of_go (field 3 g);
    RPE_BranchAllowed := of_go (field 4 g) |};
|}.
Next Obligation. intros []. cbn -[of_go to_go]. by rewrite !of_to_go. Qed.
#[export] Program Instance Policy_json : GoJson Policy := {|
  go_type := TStruct [
    (("resolved", false), TBool); (("digest", false), TString); (("required_test_kinds", false), go_type (list string));
    (("repositories", false), go_type (list RepositoryPolicyEvidence))];
  to_go x := GStruct [
    to_go (Policy_Resolved x); to_go (Policy_Digest x); to_go (RequiredTestKinds x); to_go (Policy_Repositories x)];
  of_go g := {|
    Policy_Resolved := of_go (field 0 g); Policy_Digest := of_go (field 1 g); RequiredTestKinds := of_go (field 2 g);
    Policy_Repositories := of_go (field 3 g) |};
|}.
Next Obligation. intros []. cbn -[of_go to_go]. by rewrite !of_to_go. Qed.
#[export] Program Instance RequiredCheck_json : GoJson RequiredCheck := {|
  go_type := TStruct [
    (("name", false), TString); (("integration_id", true), TInt)];
  to_go x := GStruct [
    to_go (RequiredCheck_Name x); to_go (RequiredCheck_IntegrationID x)];
  of_go g := {|
    RequiredCheck_Name := of_go (field 0 g); RequiredCheck_IntegrationID := of_go (field 1 g) |};
|}.
Next Obligation. intros []. cbn -[of_go to_go]. by rewrite !of_to_go. Qed.
#[export] Program Instance BranchEvidence_json : GoJson BranchEvidence := {|
  go_type := TStruct [
    (("repository", false), TString); (("head_sha", false), TString); (("mergeable", false), TBool); (("conflict_free", false), TBool);
    (("protection_evaluated", false), TBool); (("protected", false), TBool); (("required_checks", false), go_type (list RequiredCheck))];
  to_go x := GStruct [
    to_go (Branch_Repository x); to_go (Branch_HeadSHA x); to_go (Mergeable x); to_go (ConflictFree x); to_go (ProtectionEvaluated x);
    to_go (Protected x); to_go (RequiredChecks x)];
  of_go g := {|
    Branch_Repository := of_go (field 0 g); Branch_HeadSHA := of_go (field 1 g); Mergeable := of_go (field 2 g); ConflictFree := of_go (field 3 g);
    ProtectionEvaluated := of_go (field 4 g); Protected := of_go (field 5 g); RequiredChecks := of_go (field 6 g) |};
|}.
Next Obligation. intros []. cbn -[of_go to_go]. by rewrite !of_to_go. Qed.
#[export] Program Instance CheckEvidence_json : GoJson CheckEvidence := {|
  go_type := TStruct [
    (("repository", false), TString); (("name", false), TString); (("integration_id", true), TInt); (("head_sha", false), TString);
    (("status", false), TString)];
  to_go x := GStruct [
    to_go (Check_Repository x); to_go (Check_Name x); to_go (Check_IntegrationID x); to_go (Check_HeadSHA x); to_go (Check_Status x)];
  of_go g := {|
    Check_Repository := of_go (field 0 g); Check_Name := of_go (field 1 g); Check_IntegrationID := of_go (field 2 g);
    Check_HeadSHA := of_go (field 3 g); Check_Status := of_go (field 4 g) |};
|}.
Next Obligation. intros []. cbn -[of_go to_go]. by rewrite !of_to_go. Qed.
#[export] Program Instance ReviewEvidence_json : GoJson ReviewEvidence := {|
  go_type := TStruct [
    (("repository", false), TString); (("head_sha", false), TString); (("author_actor", false), TString); (("reviewer_actor", false), TString);
    (("approved", false), TBool); (("blocking_change_requests", false), TInt)];
  to_go x := GStruct [
    to_go (Review_Repository x); to_go (Review_HeadSHA x); to_go (AuthorActor x); to_go (ReviewerActor x); to_go (Review_Approved x);
    to_go (BlockingChangeRequests x)];
  of_go g := {|
    Review_Repository := of_go (field 0 g); Review_HeadSHA := of_go (field 1 g); AuthorActor := of_go (field 2 g);
    ReviewerActor := of_go (field 3 g); Review_Approved := of_go (field 4 g); BlockingChangeRequests := of_go (field 5 g) |};
|}.
Next Obligation. intros []. cbn -[of_go to_go]. by rewrite !of_to_go. Qed.
#[export] Program Instance VaultEvidence_json : GoJson VaultEvidence := {|
  go_type := TStruct [
    (("repository", false), TString); (("head_sha", false), TString); (("revision_id", false), TString); (("reconciled", false), TBool)];
  to_go x := GStruct [
    to_go (Vault_Repository x); to_go (Vault_HeadSHA x); to_go (RevisionID x); to_go (Reconciled x)];
  of_go g := {|
    Vault_Repository := of_go (field 0 g); Vault_HeadSHA := of_go (field 1 g); RevisionID := of_go (field 2 g); Reconciled := of_go (field 3 g) |};
|}.
Next Obligation. intros []. cbn -[of_go to_go]. by rewrite !of_to_go. Qed.
#[export] Program Instance TestEvidence_json : GoJson TestEvidence := {|
  go_type := TStruct [
    (("kind", false), TString); (("matrix_digest", false), TString); (("status", false), TString)];
  to_go x := GStruct [
    to_go (Test_Kind x); to_go (Test_MatrixDigest x); to_go (Test_Status x)];
  of_go g := {|
    Test_Kind := of_go (field 0 g); Test_MatrixDigest := of_go (field 1 g); Test_Status := of_go (field 2 g) |};
|}.
Next Obligation. intros []. cbn -[of_go to_go]. by rewrite !of_to_go. Qed.
#[export] Program Instance SecurityEvidence_json : GoJson SecurityEvidence := {|
  go_type := TStruct [
    (("repository", false), TString); (("head_sha", false), TString); (("secret_scan_passed", false), TBool); (("high_findings", false), TInt);
    (("critical_findings", false), TInt)];
  to_go x := GStruct [
    to_go (Security_Repository x); to_go (Security_HeadSHA x); to_go (SecretScanPassed x); to_go (HighFindings x); to_go (CriticalFindings x)];
  of_go g := {|
    Security_Repository := of_go (field 0 g); Security_HeadSHA := of_go (field 1 g); SecretScanPassed := of_go (field 2 g);
    HighFindings := of_go (field 3 g); CriticalFindings := of_go (field 4 g) |};
|}.
Next Obligation. intros []. cbn -[of_go to_go]. by rewrite !of_to_go. Qed.
#[export] Program Instance MatrixEvidence_json : GoJson MatrixEvidence := {|
  go_type := TStruct [
    (("matrix_digest", false), TString); (("status", false), TString)];
  to_go x := GStruct [
    to_go (Matrix_MatrixDigest x); to_go (Matrix_Status x)];
  of_go g := {|
    Matrix_MatrixDigest := of_go (field 0 g); Matrix_Status := of_go (field 1 g) |};
|}.
Next Obligation. intros []. cbn -[of_go to_go]. by rewrite !of_to_go. Qed.
#[export] Program Instance RecoveryEvidence_json : GoJson RecoveryEvidence := {|
  go_type := TStruct [
    (("matrix_digest", false), TString); (("classification", false), TString); (("evaluated", false), TBool); (("human_approved", false), TBool)];
  to_go x := GStruct [
    to_go (Recovery_MatrixDigest x); to_go (Classification x); to_go (Evaluated x); to_go (HumanApproved x)];
  of_go g := {|
    Recovery_MatrixDigest := of_go (field 0 g); Classification := of_go (field 1 g); Evaluated := of_go (field 2 g);
    HumanApproved := of_go (field 3 g) |};
|}.
Next Obligation. intros []. cbn -[of_go to_go]. by rewrite !of_to_go. Qed.
#[export] Program Instance HumanApproval_json : GoJson HumanApproval := {|
  go_type := TStruct [
    (("actor", false), TString); (("actor_type", false), TString); (("subject_digest", false), TString); (("approved", false), TBool)];
  to_go x := GStruct [
    to_go (Actor x); to_go (ActorType x); to_go (Approval_SubjectDigest x); to_go (Approval_Approved x)];
  of_go g := {|
    Actor := of_go (field 0 g); ActorType := of_go (field 1 g); Approval_SubjectDigest := of_go (field 2 g); Approval_Approved := of_go (field 3 g) |};
|}.
Next Obligation. intros []. cbn -[of_go to_go]. by rewrite !of_to_go. Qed.
#[export] Program Instance Input_json : GoJson Input := {|
  go_type := TStruct [
    (("schema_version", false), TInt); (("action", false), TString); (("change_set_id", false), TString);
    (("revisions", false), go_type (list Revision)); (("policy", false), go_type Policy); (("branches", false), go_type (list BranchEvidence));
    (("checks", false), go_type (list CheckEvidence)); (("reviews", false), go_type (list ReviewEvidence));
    (("vault", false), go_type (list VaultEvidence)); (("tests", false), go_type (list TestEvidence));
    (("security", false), go_type (list SecurityEvidence)); (("compatibility", false), go_type MatrixEvidence);
    (("migrations", false), go_type MatrixEvidence); (("dependencies", false), go_type MatrixEvidence);
    (("environment", false), go_type MatrixEvidence); (("recovery", false), go_type RecoveryEvidence);
    (("human_approval", true), TPointer (go_type HumanApproval))];
  to_go x := GStruct [
    to_go (Input_SchemaVersion x); to_go (Input_Action x); to_go (ChangeSetID x); to_go (Revisions x); to_go (Input_Policy x); to_go (Branches x);
    to_go (Checks x); to_go (Reviews x); to_go (Vault x); to_go (Tests x); to_go (Security x); to_go (Compatibility x); to_go (Migrations x);
    to_go (Dependencies x); to_go (Environment x); to_go (Recovery x); to_go (Input_HumanApproval x)];
  of_go g := {|
    Input_SchemaVersion := of_go (field 0 g); Input_Action := of_go (field 1 g); ChangeSetID := of_go (field 2 g); Revisions := of_go (field 3 g);
    Input_Policy := of_go (field 4 g); Branches := of_go (field 5 g); Checks := of_go (field 6 g); Reviews := of_go (field 7 g);
    Vault := of_go (field 8 g); Tests := of_go (field 9 g); Security := of_go (field 10 g); Compatibility := of_go (field 11 g);
    Migrations := of_go (field 12 g); Dependencies := of_go (field 13 g); Environment := of_go (field 14 g); Recovery := of_go (field 15 g);
    Input_HumanApproval := of_go (field 16 g) |};
|}.
Next Obligation. intros []. cbn -[of_go to_go]. by rewrite !of_to_go. Qed.
#[export] Program Instance Reason_json : GoJson Reason := {|
  go_type := TStruct [
    (("code", false), TString); (("repository", true), TString); (("evidence", true), TString)];
  to_go x := GStruct [
    to_go (Code x); to_go (Reason_Repository x); to_go (Evidence x)];
  of_go g := {|
    Code := of_go (field 0 g); Reason_Repository := of_go (field 1 g); Evidence := of_go (field 2 g) |};
|}.
Next Obligation. intros []. cbn -[of_go to_go]. by rewrite !of_to_go. Qed.
#[export] Program Instance Decision_json : GoJson Decision := {|
  go_type := TStruct [
    (("schema_version", false), TInt); (("action", false), TString); (("change_set_id", false), TString); (("matrix_digest", true), TString);
    (("policy_digest", true), TString); (("vault_digest", true), TString); (("requirements_digest", true), TString);
    (("subject_digest", true), TString); (("state", false), TString); (("reasons", false), TSlice (go_type Reason))];
  to_go x := GStruct [
    to_go (Decision_SchemaVersion x); to_go (Decision_Action x); to_go (Decision_ChangeSetID x); to_go (MatrixDigest x); to_go (PolicyDigest x);
    to_go (VaultDigest x); to_go (RequirementsDigest x); to_go (SubjectDigest x); to_go (State x); to_go (Some (Reasons x))];
  of_go g := {|
    Decision_SchemaVersion := of_go (field 0 g); Decision_Action := of_go (field 1 g); Decision_ChangeSetID := of_go (field 2 g);
    MatrixDigest := of_go (field 3 g); PolicyDigest := of_go (field 4 g); VaultDigest := of_go (field 5 g); RequirementsDigest := of_go (field 6 g);
    SubjectDigest := of_go (field 7 g); State := of_go (field 8 g); Reasons := default [] (of_go (field 9 g)) |};
|}.
Next Obligation. intros []. cbn -[of_go to_go]. by rewrite !of_to_go. Qed.

Definition maxInputBytes : N := 1048576.
Definition DecodeInput (payload : string) : option Input :=
  if bad_size maxInputBytes payload then None else UnmarshalGo true payload.
