(* ===== verification/DeliveryLedger.v ===== *)
(** * internal/deliveryledger: the append-only ledger of delivery evidence

    security_observation.go, environment_observation.go and qa_observation.go are the same
    program over three evidence packages: here it is written once, over [Evidence].
    gate_evaluation.go is LedgerGate.v. The database is third-party code: [Database] is how it gives
    back the columns of a row.  The end names the three uses of that program. *)
From stdpp Require Import base tactics list strings gmap.
From Stdlib Require Import Ascii.
From S2P Require Import Prelude GoStrings GoSort Sha256 PlanStore Json JsonTypes JsonRaw GoJson Evidence EvidenceJson.
From S2P Require EvidenceQA EvidenceEnvironment EvidenceSecurity.
Open Scope string_scope.

(** PostgreSQL: the text a [jsonb] column gives back for a text written to it ([None] when it
    refuses it) holds the same document; a [timestamptz] column keeps microseconds. *)
Class Database := {
  jsonb : string → option string;
  timestamptz : Z → Z;
  jsonb_document j s : json_utf8 j = true → jsonb (Marshal j) = Some s → same_document (Marshal j) s;
  timestamptz_close t : (timestamptz t ≤ t < timestamptz t + 1000)%Z;
}.

(** [models.DeliveryEvent]; instants are nanoseconds and 0 is the zero [time.Time]. *)
Record DeliveryEvent := {
  Event_ID : uuid; WorkItemID : uuid; Sequence : Z; Event_EventType : string; DedupeKey : string; Event_SubjectDigest : string;
  PayloadJSON : string; PayloadDigest : string; Event_ActorType : string; Event_ActorID : string; OccurredAt : Z; CreatedAt : Z;
}.
Definition IsZero (t : Z) : bool := Z.eqb t 0.
(** The tables the package uses, events in the order they were inserted. *)
Record Ledger := { work_items : gset uuid; events : list DeliveryEvent }.

Section Ledger.
Context {unicode : GoUnicode} {text : UuidText} {database : Database}.

(** ** Rows *)

Definition with_sequence (e : DeliveryEvent) (n : Z) : DeliveryEvent := {|
  Event_ID := Event_ID e; WorkItemID := WorkItemID e; Sequence := n; Event_EventType := Event_EventType e; DedupeKey := DedupeKey e;
  Event_SubjectDigest := Event_SubjectDigest e; PayloadJSON := PayloadJSON e; PayloadDigest := PayloadDigest e;
  Event_ActorType := Event_ActorType e; Event_ActorID := Event_ActorID e; OccurredAt := OccurredAt e; CreatedAt := CreatedAt e |}.
Definition with_id (e : DeliveryEvent) (id : uuid) : DeliveryEvent := {|
  Event_ID := id; WorkItemID := WorkItemID e; Sequence := Sequence e; Event_EventType := Event_EventType e; DedupeKey := DedupeKey e;
  Event_SubjectDigest := Event_SubjectDigest e; PayloadJSON := PayloadJSON e; PayloadDigest := PayloadDigest e;
  Event_ActorType := Event_ActorType e; Event_ActorID := Event_ActorID e; OccurredAt := OccurredAt e; CreatedAt := CreatedAt e |}.
(** The row a query gives back for an inserted event. *)
Definition row_of (e : DeliveryEvent) : option DeliveryEvent :=
  payload ← jsonb (PayloadJSON e);
  Some {| Event_ID := Event_ID e; WorkItemID := WorkItemID e; Sequence := Sequence e; Event_EventType := Event_EventType e; DedupeKey := DedupeKey e;
    Event_SubjectDigest := Event_SubjectDigest e; PayloadJSON := payload; PayloadDigest := PayloadDigest e;
    Event_ActorType := Event_ActorType e; Event_ActorID := Event_ActorID e; OccurredAt := timestamptz (OccurredAt e);
    CreatedAt := timestamptz (CreatedAt e) |}.
(** The unique indexes of the model, and the widths of its columns. *)
Definition collides (e f : DeliveryEvent) : bool :=
  N.eqb (Event_ID e) (Event_ID f) || (N.eqb (WorkItemID e) (WorkItemID f) && Z.eqb (Sequence e) (Sequence f)) ||
  String.eqb (DedupeKey e) (DedupeKey f).
Definition fits (e : DeliveryEvent) : bool :=
  Nat.leb (String.length (Event_EventType e)) 96 && Nat.leb (String.length (DedupeKey e)) 256 &&
  Nat.leb (String.length (Event_SubjectDigest e)) 64 && Nat.leb (String.length (PayloadDigest e)) 64 &&
  Nat.leb (String.length (Event_ActorType e)) 24 && Nat.leb (String.length (Event_ActorID e)) 128.
(** [tx.Create(&event)]: the database draws the identity [id]. *)
Definition Create (id : uuid) (event : DeliveryEvent) (l : Ledger) : option (DeliveryEvent * Ledger) :=
  let event := with_id event id in
  row ← row_of event;
  if existsb (collides event) (events l) || negb (fits event) then None
  else Some (event, {| work_items := work_items l; events := events l ++ [row] |}).
(** [COALESCE(MAX(sequence), 0)] *)
Definition lastSequence (workItemID : uuid) (l : Ledger) : Z :=
  match filter (λ e, WorkItemID e = workItemID) (events l) with
  | [] => 0
  | e :: rest => foldl (λ n e, Z.max n (Sequence e)) (Sequence e) rest
  end.
Definition find_dedupe (k : string) (l : Ledger) : option DeliveryEvent := List.find (λ e, String.eqb (DedupeKey e) k) (events l).

(** The transaction of the [Record] functions: the row of the work item is locked, an event
    with the key is returned if it is the [same], else the event is appended. *)
Definition append_event (same : DeliveryEvent → DeliveryEvent → bool) (id workItemID : uuid) (event : DeliveryEvent) (l : Ledger) :
    option (DeliveryEvent * bool * Ledger) :=
  if negb (bool_decide (workItemID ∈ work_items l)) then None
  else match find_dedupe (DedupeKey event) l with
       | Some existing => if same existing event then Some (existing, false, l) else None
       | None => '(event, l) ← Create id (with_sequence event (lastSequence workItemID l + 1)) l; Some (event, true, l)
       end.

(** ** Observations *)

Definition same_evidence (existing event : DeliveryEvent) : bool :=
  EqualFold (PayloadDigest existing) (PayloadDigest event) && EqualFold (Event_SubjectDigest existing) (Event_SubjectDigest event) &&
  String.eqb (Event_EventType existing) (Event_EventType event).

Record observationPayload (A : Type) := { Payload_SchemaVersion : Z; Payload_Observation : A }.
Arguments Payload_SchemaVersion {A}.
Arguments Payload_Observation {A}.
#[export] Program Instance observationPayload_json `{GoJson A} : GoJson (observationPayload A) := {|
  go_type := TStruct [(("schema_version", false), TInt); (("observation", false), go_type A)];
  to_go p := GStruct [to_go (Payload_SchemaVersion p); to_go (Payload_Observation p)];
  of_go g := {| Payload_SchemaVersion := of_go (field 0 g); Payload_Observation := of_go (field 1 g) |};
|}.
Next Obligation. intros A ? []. cbn -[of_go to_go]. by rewrite !of_to_go. Qed.

Definition payload_text `{Evidence A} (observation : A) : string :=
  MarshalGo {| Payload_SchemaVersion := EvidenceVersion A; Payload_Observation := observation |}.
Definition dedupe_key `{Evidence A} (workItemID : uuid) (canonical : A) : string :=
  uuid_text workItemID +:+ dedupe_infix A +:+ TaskID canonical.

Definition newObservationEvent `{Evidence A} (workItemID : uuid) (observation : A) (occurredAt : Z) : option DeliveryEvent :=
  if N.eqb workItemID Nil || IsZero occurredAt then None
  else
    canonical ← Canonical observation;
    let payload := payload_text canonical in
    Some {| Event_ID := Nil; WorkItemID := workItemID; Sequence := 0; Event_EventType := EventType A;
            DedupeKey := dedupe_key workItemID canonical; Event_SubjectDigest := MatrixDigest canonical; PayloadJSON := payload;
            PayloadDigest := hexSum256 payload; Event_ActorType := "system"; Event_ActorID := evidence_actor A;
            OccurredAt := occurredAt; CreatedAt := occurredAt |}.
Definition RecordObservation `{Evidence A} (id workItemID : uuid) (observation : A) (occurredAt : Z) (l : Ledger) :
    option (DeliveryEvent * bool * Ledger) :=
  if N.eqb workItemID Nil || IsZero occurredAt then None
  else
    event ← newObservationEvent workItemID observation occurredAt;
    append_event same_evidence id workItemID event l.

(** The envelope with its [json.RawMessage], decoded strictly; members are read in order. *)
Fixpoint envelope_members (version : Z) (raw : string) (members : list (string * (string * jvalue))) : option (Z * string) :=
  match members with
  | [] => Some (version, raw)
  | (key, (value_text, v)) :: rest =>
      if field_is "schema_version" key then
        version ← decode true v TInt (GInt version);
        envelope_members (of_go version) raw rest
      else if field_is "observation" key then envelope_members version value_text rest
      else None
  end.
Definition decode_envelope (payload : string) : option (Z * string) :=
  members ← raw_object payload;
  envelope_members 0 "" members.

Record Projection (A : Type) := { EventID : uuid; Projection_Sequence : Z; Projection_Observation : A; Projection_OccurredAt : Z }.
Arguments Build_Projection {A}.
Definition ProjectObservation `{Evidence A} (event : DeliveryEvent) : option (Projection A) :=
  if N.eqb (Event_ID event) Nil || N.eqb (WorkItemID event) Nil || Z.ltb (Sequence event) 1 ||
     negb (String.eqb (Event_EventType event) (EventType A)) || IsZero (OccurredAt event) then None
  else
    '(version, raw) ← decode_envelope (PayloadJSON event);
    if negb (Z.eqb version (EvidenceVersion A)) then None
    else
      observation ← Decode raw;
      if negb (EqualFold (MatrixDigest observation) (Event_SubjectDigest event)) then None
      else
        observation ← Canonical observation;
        if negb (EqualFold (PayloadDigest event) (hexSum256 (payload_text observation))) then None
        else Some (Build_Projection (Event_ID event) (Sequence event) observation (OccurredAt event)).

End Ledger.
Arguments Build_Projection {A}.
Arguments EventID {A}.
Arguments Projection_Sequence {A}.
Arguments Projection_Observation {A}.
Arguments Projection_OccurredAt {A}.
Arguments Payload_SchemaVersion {A}.
Arguments Payload_Observation {A}.

(** ** The observations of the three evidence packages *)

#[local] Existing Instances EvidenceQA.Observation_json EvidenceQA.Observation_evidence EvidenceEnvironment.Observation_json
  EvidenceEnvironment.Observation_evidence EvidenceSecurity.Observation_json EvidenceSecurity.Observation_evidence.

Section Observations.
Context {unicode : GoUnicode} {fold : GoFold} {text : UuidText} {database : Database}.

(** ** qa_observation.go *)

Definition EventTypeQAObserved : string := EventType EvidenceQA.Observation.
Definition QAObservation : Type := Projection EvidenceQA.Observation.
Definition newQAObservationEvent : uuid → EvidenceQA.Observation → Z → option DeliveryEvent := newObservationEvent.
Definition RecordQAObservation : uuid → uuid → EvidenceQA.Observation → Z → Ledger → option (DeliveryEvent * bool * Ledger) := RecordObservation.
Definition ProjectQAObservation : DeliveryEvent → option QAObservation := ProjectObservation.

(** ** environment_observation.go *)

Definition EventTypeEnvironmentObserved : string := EventType EvidenceEnvironment.Observation.
Definition EnvironmentObservation : Type := Projection EvidenceEnvironment.Observation.
Definition newEnvironmentObservationEvent : uuid → EvidenceEnvironment.Observation → Z → option DeliveryEvent := newObservationEvent.
Definition RecordEnvironmentObservation : uuid → uuid → EvidenceEnvironment.Observation → Z → Ledger →
  option (DeliveryEvent * bool * Ledger) := RecordObservation.
Definition ProjectEnvironmentObservation : DeliveryEvent → option EnvironmentObservation := ProjectObservation.

(** ** security_observation.go *)

Definition EventTypeSecurityObserved : string := EventType EvidenceSecurity.Observation.
Definition SecurityObservation : Type := Projection EvidenceSecurity.Observation.
Definition newSecurityObservationEvent : uuid → EvidenceSecurity.Observation → Z → option DeliveryEvent := newObservationEvent.
Definition RecordSecurityObservation : uuid → uuid → EvidenceSecurity.Observation → Z → Ledger → option (DeliveryEvent * bool * Ledger) :=
  RecordObservation.
Definition ProjectSecurityObservation : DeliveryEvent → option SecurityObservation := ProjectObservation.
End Observations.
