(* ===== verification/LedgerGate.v ===== *)
(** * internal/deliveryledger/gate_evaluation.go: release gate decisions in the ledger

    A decision is recorded with the input it was computed from, read back
    ([ProjectGateEvaluation]) and, before a merge or release, recomputed and matched with the
    acting human ([AuthorizeGateEvaluation]). *)
From stdpp Require Import base tactics list strings gmap.
From Stdlib Require Import Ascii.
From S2P Require Import Prelude GoStrings GoSort Sha256 PlanStore Json JsonTypes JsonRaw GoJson Evidence DeliveryLedger ReleaseGate GateJson.
Open Scope string_scope.

Definition EventTypeReleaseGateEvaluated : string := "delivery.release_gate.evaluated.v3".

Record gateEvaluationPayload := { Gate_SchemaVersion : Z; Gate_Input : Input; Gate_Decision : Decision }.
#[export] Program Instance gateEvaluationPayload_json : GoJson gateEvaluationPayload := {|
  go_type := TStruct [(("schema_version", false), TInt); (("input", false), go_type Input); (("decision", false), go_type Decision)];
  to_go p := GStruct [to_go (Gate_SchemaVersion p); to_go (Gate_Input p); to_go (Gate_Decision p)];
  of_go g := {| Gate_SchemaVersion := of_go (field 0 g); Gate_Input := of_go (field 1 g); Gate_Decision := of_go (field 2 g) |};
|}.
Next Obligation. intros []. cbn -[of_go to_go]. by rewrite !of_to_go. Qed.

Record GateEvaluation := {
  Gate_EventID : uuid; Gate_Sequence : Z; Gate_Action : Action; Gate_ChangeSetID : string; Gate_MatrixDigest : string;
  Gate_PolicyDigest : string; Gate_VaultDigest : string; Gate_RequirementsDigest : string; Gate_SubjectDigest : string;
  Gate_State : string; Gate_Reasons : list Reason; Gate_OccurredAt : Z;
}.

Section Gate.
Context {unicode : GoUnicode} {text : UuidText} {database : Database}.

(** [canonicalGateInput]: sorted slices ([sort.Slice] leaves elements with equal keys in some
    order: here, in the order they had). *)
Definition requiredCheck_before (left right : RequiredCheck) : bool :=
  if negb (EqualFold (RequiredCheck_Name left) (RequiredCheck_Name right))
  then String.ltb (ToLower (RequiredCheck_Name left)) (ToLower (RequiredCheck_Name right))
  else Z.ltb (RequiredCheck_IntegrationID left) (RequiredCheck_IntegrationID right).
Definition check_before (left right : CheckEvidence) : bool :=
  let leftKey := ToLower (Check_Repository left +:+ NUL +:+ Check_Name left) in
  let rightKey := ToLower (Check_Repository right +:+ NUL +:+ Check_Name right) in
  if negb (String.eqb leftKey rightKey) then String.ltb leftKey rightKey
  else Z.ltb (Check_IntegrationID left) (Check_IntegrationID right).
Definition canonicalBranch (b : BranchEvidence) : BranchEvidence := {|
  Branch_Repository := Branch_Repository b; Branch_HeadSHA := Branch_HeadSHA b; Mergeable := Mergeable b; ConflictFree := ConflictFree b;
  ProtectionEvaluated := ProtectionEvaluated b; Protected := Protected b; RequiredChecks := sort_by requiredCheck_before (RequiredChecks b) |}.
Definition canonicalGateInput (i : Input) : Input := {|
  Input_SchemaVersion := Input_SchemaVersion i; Input_Action := Input_Action i; ChangeSetID := ChangeSetID i;
  Revisions := sort_key (λ r, ToLower (Revision_Repository r)) (Revisions i);
  Input_Policy := {|
    Policy_Resolved := Policy_Resolved (Input_Policy i); Policy_Digest := Policy_Digest (Input_Policy i);
    RequiredTestKinds := sort_key ToLower (RequiredTestKinds (Input_Policy i));
    Policy_Repositories := sort_key (λ r, ToLower (RPE_Repository r)) (Policy_Repositories (Input_Policy i)) |};
  Branches := sort_key (λ b, ToLower (Branch_Repository b)) (canonicalBranch <$> Branches i);
  Checks := sort_by check_before (Checks i);
  Reviews := sort_key (λ r, ToLower (Review_Repository r +:+ NUL +:+ ReviewerActor r)) (Reviews i);
  Vault := sort_key (λ v, ToLower (Vault_Repository v)) (Vault i);
  Tests := sort_key (λ t, ToLower (Test_Kind t)) (Tests i);
  Security := sort_key (λ s, ToLower (Security_Repository s)) (Security i);
  Compatibility := Compatibility i; Migrations := Migrations i; Dependencies := Dependencies i; Environment := Environment i;
  Recovery := Recovery i; Input_HumanApproval := Input_HumanApproval i |}.

Definition gate_payload (input : Input) : gateEvaluationPayload :=
  {| Gate_SchemaVersion := SchemaVersion; Gate_Input := input; Gate_Decision := Evaluate input |}.
Definition newGateEvaluationEvent (workItemID : uuid) (input : Input) (occurredAt : Z) : option DeliveryEvent :=
  if N.eqb workItemID Nil || IsZero occurredAt then None
  else
    let input := canonicalGateInput input in
    let decision := Evaluate input in
    let payload := MarshalGo {| Gate_SchemaVersion := SchemaVersion; Gate_Input := input; Gate_Decision := decision |} in
    let payloadDigest := hexSum256 payload in
    Some {| Event_ID := Nil; WorkItemID := workItemID; Sequence := 0; Event_EventType := EventTypeReleaseGateEvaluated;
            DedupeKey := uuid_text workItemID +:+ ":release-gate-v3:" +:+ payloadDigest; Event_SubjectDigest := SubjectDigest decision;
            PayloadJSON := payload; PayloadDigest := payloadDigest; Event_ActorType := "system"; Event_ActorID := "release-gate/v3";
            OccurredAt := occurredAt; CreatedAt := occurredAt |}.
Definition RecordGateEvaluation (id workItemID : uuid) (input : Input) (occurredAt : Z) (l : Ledger) : option (DeliveryEvent * bool * Ledger) :=
  if N.eqb workItemID Nil || IsZero occurredAt then None
  else
    event ← newGateEvaluationEvent workItemID input occurredAt;
    append_event (λ _ _, true) id workItemID event l.

Definition ProjectGateEvaluation (event : DeliveryEvent) : option GateEvaluation :=
  if N.eqb (Event_ID event) Nil || N.eqb (WorkItemID event) Nil || Z.ltb (Sequence event) 1 ||
     negb (String.eqb (Event_EventType event) EventTypeReleaseGateEvaluated) || IsZero (OccurredAt event) then None
  else
    decoded ← Unmarshal true (go_type gateEvaluationPayload) (PayloadJSON event);
    if negb (Z.eqb (Gate_SchemaVersion (of_go decoded)) SchemaVersion) then None
    else
      let canonicalPayload := Marshal (encode (go_type gateEvaluationPayload) decoded) in
      if negb (EqualFold (PayloadDigest event) (hexSum256 canonicalPayload)) then None
      else
        let decision := Gate_Decision (of_go decoded) in
        if negb (Z.eqb (Decision_SchemaVersion decision) SchemaVersion) || negb (String.eqb (SubjectDigest decision) (Event_SubjectDigest event))
        then None
        else Some {|
          Gate_EventID := Event_ID event; Gate_Sequence := Sequence event; Gate_Action := Decision_Action decision;
          Gate_ChangeSetID := Decision_ChangeSetID decision; Gate_MatrixDigest := MatrixDigest decision;
          Gate_PolicyDigest := PolicyDigest decision; Gate_VaultDigest := VaultDigest decision;
          Gate_RequirementsDigest := RequirementsDigest decision; Gate_SubjectDigest := SubjectDigest decision; Gate_State := State decision;
          Gate_Reasons := Reasons decision; Gate_OccurredAt := OccurredAt event |}.

Definition Minute : Z := 60000000000.
(** [now.Sub(occurredAt)]: a [time.Duration], which saturates. *)
Definition Sub (t u : Z) : Z := Z.min (2 ^ 63 - 1) (Z.max (- 2 ^ 63) (t - u)).
Definition approval_matches (approval : option HumanApproval) (actor subject : string) : bool :=
  match approval with
  | Some a => Approval_Approved a && String.eqb (ActorType a) "human" && String.eqb (Actor a) actor && EqualFold (Approval_SubjectDigest a) subject
  | None => false
  end.
Definition AuthorizeGateEvaluation (event : DeliveryEvent) (workItemID : uuid) (action : Action) (humanActor : string) (now maxAge : Z) :
    option GateEvaluation :=
  let actor := TrimSpace humanActor in
  if N.eqb workItemID Nil || (negb (String.eqb action ActionMerge) && negb (String.eqb action ActionRelease)) || String.eqb actor "" ||
     IsZero now || Z.leb maxAge 0 then None
  else if negb (N.eqb (WorkItemID event) workItemID) then None
  else
    projection ← ProjectGateEvaluation event;
    decoded ← Unmarshal false (go_type gateEvaluationPayload) (PayloadJSON event);
    if negb (Z.eqb (Gate_SchemaVersion (of_go decoded)) SchemaVersion) then None
    else
      let recomputed := Evaluate (Gate_Input (of_go decoded)) in
      if negb (DeepEqual (to_go recomputed) (field 2 decoded)) then None
      else if negb (String.eqb (Gate_Action projection) action) || negb (String.eqb (Gate_State projection) "allowed") ||
              negb (Nat.eqb (length (Gate_Reasons projection)) 0) then None
      else if negb (String.eqb (ChangeSetID (Gate_Input (of_go decoded))) (uuid_text workItemID)) ||
              negb (String.eqb (Gate_ChangeSetID projection) (uuid_text workItemID)) then None
      else if negb (approval_matches (Input_HumanApproval (Gate_Input (of_go decoded))) actor (Gate_SubjectDigest projection)) then None
      else if Z.ltb (now + Minute) (OccurredAt event) || Z.ltb maxAge (Sub now (OccurredAt event)) then None
      else Some projection.
End Gate.
