(* ===== verification/LedgerFacts.v ===== *)
(** * Facts about the delivery ledger: appending, sealed rows, reading an envelope *)
From stdpp Require Import base tactics list strings gmap.
From Stdlib Require Import Ascii.
From S2P Require Import Prelude GoStrings GoSort Sha256 PlanStore Json JsonTypes JsonRaw GoJson Evidence DeliveryLedger.
Open Scope string_scope.

Section Facts.
Context {unicode : GoUnicode} {text : UuidText} {database : Database}.

(** ** Digests and case *)

Lemma digest_lower s : digestPattern s = true → all_bytes is_lower_hex s = true.
Proof. unfold digestPattern, re_exact. intros [_ Hs]%andb_true_iff. revert Hs. apply all_bytes_impl. by intros [[] [] [] [] [] [] [] []]. Qed.

(** ** Appending *)

Definition inserted (id : uuid) (event : DeliveryEvent) (l : Ledger) : DeliveryEvent :=
  with_id (with_sequence event (lastSequence (WorkItemID event) l + 1)) id.
Lemma append_cases same id w event l e created l' : WorkItemID event = w → append_event same id w event l = Some (e, created, l') →
  (created = false ∧ l' = l ∧ find_dedupe (DedupeKey event) l = Some e ∧ same e event = true) ∨
  (created = true ∧ ∃ row, row_of (inserted id event l) = Some row ∧ e = inserted id event l ∧
    l' = {| work_items := work_items l; events := events l ++ [row] |} ∧ find_dedupe (DedupeKey event) l = None ∧
    ∀ f, f ∈ events l → collides e f = false).
Proof.
  intros Hw. unfold append_event. case_bool_decide; [|done]. cbn [negb]. destruct (find_dedupe _ l) as [existing|] eqn:Hf.
  - destruct (same existing event) eqn:Hs; [|done]. intros [= <- <- <-]. by left.
  - unfold Create. rewrite <-Hw. fold (inserted id event l). destruct (row_of (inserted id event l)) as [row|] eqn:Hr; [|done].
    cbn [mbind option_bind]. destruct (existsb _ _ || _) eqn:Hc; [done|]. intros [= <- <- <-]. right. split; [done|]. exists row.
    split_and!; [done..|]. apply orb_false_iff in Hc as [Hc _]. intros f Hin. destruct (collides _ f) eqn:Hcf; [|done].
    rewrite <-not_true_iff_false in Hc. destruct Hc. apply existsb_exists. exists f. by rewrite <-list_elem_of_In.
Qed.
Lemma row_fields e row : row_of e = Some row → Event_ID row = Event_ID e ∧ WorkItemID row = WorkItemID e ∧ Sequence row = Sequence e ∧
  Event_EventType row = Event_EventType e ∧ DedupeKey row = DedupeKey e ∧ Event_SubjectDigest row = Event_SubjectDigest e ∧
  PayloadDigest row = PayloadDigest e ∧ OccurredAt row = timestamptz (OccurredAt e) ∧ jsonb (PayloadJSON e) = Some (PayloadJSON row).
Proof. unfold row_of. intros (payload & Hp & [= <-])%bind_Some. by split_and!. Qed.
Lemma find_dedupe_Some k l e : find_dedupe k l = Some e → e ∈ events l ∧ DedupeKey e = k.
Proof. intros [Hin Hk]%List.find_some. split; [by apply list_elem_of_In|by apply String.eqb_eq]. Qed.
Lemma find_dedupe_appended k l row : find_dedupe k l = None → DedupeKey row = k →
  find_dedupe k {| work_items := work_items l; events := events l ++ [row] |} = Some row.
Proof.
  unfold find_dedupe. cbn [events]. intros Hn Hk. induction (events l) as [|e es IH]; cbn in *.
  - by rewrite Hk, String.eqb_refl.
  - destruct (String.eqb (DedupeKey e) k); [done|]. by apply IH.
Qed.

(** ** Rows as they were written *)

(** The payload is a document whose text has the digest of the row; the subject is ASCII. *)
Record sealed (e : DeliveryEvent) : Prop := {
  sealed_payload : ∃ j, json_utf8 j = true ∧ PayloadDigest e = hexSum256 (Marshal j) ∧ same_document (Marshal j) (PayloadJSON e);
  sealed_subject : is_ascii (Event_SubjectDigest e) = true;
  sealed_envelope : Event_ID e ≠ Nil ∧ WorkItemID e ≠ Nil ∧ (1 ≤ Sequence e)%Z ∧ OccurredAt e ≠ 0%Z;
}.
Definition numbered (l : Ledger) : Prop :=
  ∀ w, Sequence <$> filter (λ e, WorkItemID e = w) (events l) = seqZ 1 (Z.of_nat (length (filter (λ e, WorkItemID e = w) (events l)))).
Record ledger_inv (l : Ledger) : Prop := {
  inv_sealed : ∀ e, e ∈ events l → sealed e;
  inv_numbered : numbered l;
  inv_ids : NoDup (Event_ID <$> events l);
  inv_keys : NoDup (DedupeKey <$> events l);
}.

Lemma lastSequence_numbered w l : numbered l → lastSequence w l = Z.of_nat (length (filter (λ e, WorkItemID e = w) (events l))).
Proof.
  intros Hn. specialize (Hn w). unfold lastSequence. destruct (filter _ (events l)) as [|e es]; [done|].
  rewrite fmap_cons in Hn. cbn [length] in *. rewrite Nat2Z.inj_succ, seqZ_cons in Hn by lia. injection Hn as He Hes. rewrite He.
  replace (Z.pred (Z.succ (Z.of_nat (length es)))) with (Z.of_nat (length es)) in Hes by lia.
  assert (∀ (es : list DeliveryEvent) n, (0 ≤ n)%Z → Sequence <$> es = seqZ (Z.succ n) (Z.of_nat (length es)) →
    foldl (λ n e, Z.max n (Sequence e)) n es = (n + Z.of_nat (length es))%Z) as Hfold.
  { clear. induction es as [|e es IH]; intros n Hn Hs; [cbn; lia|]. rewrite fmap_cons in Hs. cbn [length] in Hs.
    rewrite Nat2Z.inj_succ, seqZ_cons in Hs by lia. injection Hs as He Hs. cbn [foldl length]. rewrite He. rewrite Z.max_r by lia.
    replace (Z.pred (Z.succ (Z.of_nat (length es)))) with (Z.of_nat (length es)) in Hs by lia. rewrite IH; [lia|lia|done]. }
  rewrite Hfold; [lia|lia|done].
Qed.
(** What is appended keeps the invariant. *)
Lemma append_inv same id w event l e created l' : ledger_inv l → WorkItemID event = w → id ≠ Nil → w ≠ Nil →
  (1000 ≤ OccurredAt event)%Z → is_ascii (Event_SubjectDigest event) = true →
  (∃ j, json_utf8 j = true ∧ PayloadJSON event = Marshal j ∧ PayloadDigest event = hexSum256 (Marshal j)) →
  append_event same id w event l = Some (e, created, l') →
  ledger_inv l' ∧ events l `prefix_of` events l'.
Proof.
  intros Hl Hw Hid Hnil Ht Hs (j & Hj & Hp & Hd) Ha.
  apply append_cases in Ha as [(_ & -> & _)|(_ & row & Hr & -> & -> & Hf & Hc)]; [by split|..|done].
  split; [|cbn; by apply prefix_app_r]. pose proof (row_fields _ _ Hr) as (R1 & R2 & R3 & R4 & R5 & R6 & R7 & R8 & R9).
  cbn [inserted with_id with_sequence Event_ID WorkItemID Sequence Event_EventType DedupeKey Event_SubjectDigest PayloadDigest OccurredAt PayloadJSON] in *.
  assert (∀ f, f ∈ events l → Event_ID f ≠ id ∧ DedupeKey f ≠ DedupeKey event) as Hfresh.
  { intros f Hin%Hc. unfold collides in Hin. rewrite !orb_false_iff in Hin. destruct Hin as [[H1%N.eqb_neq _] H2%String.eqb_neq]. split; by intros Heq. }
  pose proof (lastSequence_numbered (WorkItemID event) l (inv_numbered l Hl)) as Hlast. constructor; cbn [events].
  - intros f [Hin| ->%list_elem_of_singleton]%elem_of_app; [by apply (inv_sealed l Hl)|]. constructor.
    + exists j. split; [done|]. split; [by rewrite R7|]. rewrite Hp in R9. by apply jsonb_document.
    + by rewrite R6.
    + split_and!; [congruence|congruence|rewrite R3; lia|rewrite R8; pose proof (timestamptz_close (OccurredAt event)); lia].
  - intros w'. cbn [events]. rewrite filter_app, fmap_app, length_app, filter_cons, filter_nil. rewrite (inv_numbered l Hl w').
    destruct (decide (WorkItemID row = w')) as [<-|Hne].
    + change (Sequence <$> [row]) with [Sequence row]. rewrite R3, Hlast, R2. cbn [length]. rewrite Nat2Z.inj_add, seqZ_app by lia. f_equal.
      by rewrite Z.add_comm.
    + cbn. by rewrite Nat.add_0_r, app_nil_r.
  - rewrite fmap_app. apply NoDup_app. split_and!; [by apply inv_ids| |apply NoDup_singleton].
    intros x (f & -> & Hin)%list_elem_of_fmap Heq%list_elem_of_singleton. apply Hfresh in Hin as [Hin _]. congruence.
  - rewrite fmap_app. apply NoDup_app. split_and!; [by apply inv_keys| |apply NoDup_singleton].
    intros x (f & -> & Hin)%list_elem_of_fmap Heq%list_elem_of_singleton. apply Hfresh in Hin as [_ Hin]. congruence.
Qed.

(** ** Observations *)

Section Observed.
Context {A : Type} {json : GoJson A} {evidence : Evidence A} {laws : EvidenceLaws A}.

Definition observation_payload (c : A) : observationPayload A := {| Payload_SchemaVersion := EvidenceVersion A; Payload_Observation := c |}.
Lemma payload_type : json_type (go_type (observationPayload A)) = true.
Proof.
  pose proof (evidence_type (A:=A)) as [Hok _]%andb_true_iff. pose proof (evidence_depth (A:=A)) as Hd%N.leb_le.
  unfold json_type. apply andb_true_iff. split.
  - cbn [go_type observationPayload_json type_ok forallb]. cbn [fst snd]. rewrite Hok. by vm_compute.
  - apply N.leb_le. cbn. unfold maxNestingDepth. lia.
Qed.
Lemma payload_go_valid c : go_valid c → go_valid (observation_payload c).
Proof. intros Hc. unfold go_valid. cbn [go_type to_go observationPayload_json]. apply typed_struct. repeat constructor; [apply evidence_version|done]. Qed.
Lemma payload_utf8 c : go_valid c → json_utf8 (encode (go_type (observationPayload A)) (to_go (observation_payload c))) = true.
Proof. intros Hc. apply MarshalGo_utf8; [apply payload_type|by apply payload_go_valid]. Qed.

(** The envelope of a document that holds the payload. *)
Lemma read_envelope c s : go_valid c → same_document (payload_text c) s →
  ∃ raw v, decode_envelope s = Some (EvidenceVersion A, raw) ∧ read_json raw = Some v ∧
    same_json (to_value (encode (go_type A) (to_go c))) v ∧ (byte_length raw ≤ byte_length s)%N.
Proof.
  intros Hc (v & w & Hv & Hw & Hs). unfold payload_text in Hv. rewrite read_MarshalGo in Hv by (apply payload_type || by apply payload_go_valid).
  apply Some_inj in Hv. rewrite <-Hv in Hs. cbn [go_type to_go observationPayload_json] in Hs. apply same_struct in Hs as (hs & -> & Hkeys & Hm). apply raw_object_read in Hw as (ms & Hms & -> & Hread).
  unfold decode_envelope. rewrite Hms. cbn [mbind option_bind].
  assert ((map without_text ms).*1 = ms.*1) as Hk by (rewrite <-list_fmap_compose; by apply list_fmap_ext; intros ? [? []] _).
  rewrite Hk in Hkeys.
  assert (∀ m, m ∈ ms → m.1 = "schema_version" ∧ m.2.2 = VNumber (itoa (EvidenceVersion A)) ∨
    m.1 = "observation" ∧ read_json m.2.1 = Some m.2.2 ∧ same_json (to_value (encode (go_type A) (to_go c))) m.2.2 ∧
      (byte_length m.2.1 ≤ byte_length s)%N) as Hcases.
  { intros m Hin. destruct (Hm (without_text m)) as (i & f & x & Hi & Hx & Hn & Hj).
    { apply list_elem_of_In, in_map, list_elem_of_In, Hin. }
    rewrite Forall_forall in Hread. destruct (Hread m Hin) as [Hr Hl]. destruct i as [|[|i]]; [..|done]; cbn in Hi, Hx; simplify_eq.
    - left. split; [exact Hn|]. cbn in Hj. by inversion Hj.
    - right. split_and!; [exact Hn|done|exact Hj|unfold byte_length; lia]. }
  change (encode_fields _ _).*1 with ["schema_version"; "observation"] in Hkeys. pose proof (Permutation_length Hkeys) as Hlen. rewrite length_fmap in Hlen.
  pose proof (evidence_version (A:=A)) as Hver. unfold go_valid in Hver. cbn in Hver. apply andb_true_iff in Hver as [?%Z.leb_le ?%Z.ltb_lt].
  destruct ms as [|[k1 [t1 v1]] [|[k2 [t2 v2]] [|? ?]]]; try done. cbn in Hkeys.
  assert (k1 ≠ k2) as Hne.
  { assert (NoDup [k1; k2]) as Hnd; [rewrite Hkeys; apply NoDup_cons; split; [by intros [=]%list_elem_of_singleton|apply NoDup_singleton]|]. apply NoDup_cons in Hnd as [Hnd _]. set_solver. }
  destruct (Hcases (k1, (t1, v1))) as [[H1 H1']|(H1 & H1' & H1'' & H1l)], (Hcases (k2, (t2, v2))) as [[H2' H2'']|(H2' & H2'' & H2s & H2l)];
    try (by left); try (by right; left); cbn in *; subst; try done; cbn [envelope_members].
  - exists t2, v2. split; [|done]. change (field_is "schema_version" "schema_version") with true. cbn iota. cbn. rewrite ParseInt_itoa by lia. done.
  - exists t1, v1. split; [|done]. change (field_is "schema_version" "observation") with false. change (field_is "observation" "observation") with true.
    cbn iota. change (field_is "schema_version" "schema_version") with true. cbn iota. cbn. rewrite ParseInt_itoa by lia. done.
Qed.

(** What reading back an observation needs of the text of its row. *)
Definition readable (s : string) : Prop :=
  ∀ version raw, decode_envelope s = Some (version, raw) → clean_text A raw ∧ (byte_length raw ≤ max_bytes A)%N.
Lemma project_row (o c : A) row : Canonical o = Some c → go_valid c → sealed row → Event_EventType row = EventType A →
  same_document (payload_text c) (PayloadJSON row) → readable (PayloadJSON row) → EqualFold (MatrixDigest c) (Event_SubjectDigest row) = true →
  PayloadDigest row = hexSum256 (payload_text c) →
  ProjectObservation row = Some (Build_Projection (Event_ID row) (Sequence row) c (OccurredAt row)).
Proof.
  intros Hc Hg Hrow Ht Hdoc Hread Hm Hd. destruct (sealed_envelope row Hrow) as (H1 & H2 & H3 & H4). unfold ProjectObservation.
  rewrite (proj2 (N.eqb_neq _ _) H1), (proj2 (N.eqb_neq _ _) H2), (proj2 (Z.ltb_ge _ _) H3), Ht, String.eqb_refl.
  unfold IsZero. rewrite (proj2 (Z.eqb_neq _ _) H4). cbn [orb negb].
  destruct (read_envelope c _ Hg Hdoc) as (raw & v & He & Hr & Hs & _). destruct (Hread _ _ He) as [Hclean Hsize]. rewrite He.
  cbn [mbind option_bind]. rewrite Z.eqb_refl. cbn [negb]. rewrite (Decode_canonical o c raw v) by done. cbn [mbind option_bind].
  rewrite Hm. cbn [negb]. rewrite (Canonical_idem o c Hc). cbn [mbind option_bind].
  by rewrite Hd, (proj2 (hex_fold _ _ (hexSum256_hex _) (hexSum256_hex _)) eq_refl).
Qed.

(** A row whose evidence is longer than the limit cannot be read back. *)
Lemma project_oversized row version raw : decode_envelope (PayloadJSON row) = Some (version, raw) → (max_bytes A < byte_length raw)%N →
  ProjectObservation (A:=A) row = None.
Proof.
  intros He Hl. unfold ProjectObservation. destruct (_ || _); [done|]. rewrite He. cbn [mbind option_bind]. destruct (negb _); [done|].
  destruct (Evidence.Decode raw) as [c|] eqn:Hd; [|done]. apply Decode_size in Hd. lia.
Qed.

(** The text the row's digest was made of has the digest of another text. *)
Definition row_collides (row : DeliveryEvent) (text : string) : Prop :=
  ∃ x, same_document x (PayloadJSON row) ∧ PayloadDigest row = hexSum256 x ∧ collide x text.

(** The event of an observation. *)
Definition event_of (w : uuid) (c : A) (t : Z) : DeliveryEvent := {|
  Event_ID := Nil; WorkItemID := w; Sequence := 0; Event_EventType := EventType A; DedupeKey := dedupe_key w c;
  Event_SubjectDigest := MatrixDigest c; PayloadJSON := payload_text c; PayloadDigest := hexSum256 (payload_text c);
  Event_ActorType := "system"; Event_ActorID := evidence_actor A; OccurredAt := t; CreatedAt := t |}.
Lemma Record_append id w (o : A) t l : RecordObservation id w o t l =
  if N.eqb w Nil || IsZero t then None else c ← Canonical o; append_event same_evidence id w (event_of w c t) l.
Proof.
  unfold RecordObservation, newObservationEvent. destruct (N.eqb w Nil || IsZero t); [done|]. by destruct (Canonical o).
Qed.
Lemma Record_parts id w (o : A) t l r : RecordObservation id w o t l = Some r →
  w ≠ Nil ∧ ∃ c, Canonical o = Some c ∧ append_event same_evidence id w (event_of w c t) l = Some r.
Proof.
  rewrite Record_append. destruct (N.eqb w Nil || IsZero t) eqn:Hw; [done|]. apply orb_false_iff in Hw as [Hw%N.eqb_neq _].
  intros (c & Hc & Ha)%bind_Some. split; [done|]. by exists c.
Qed.
(** Evidence that is the same up to the case of its digests has the same text, or digests collide. *)
Lemma same_evidence_text existing w c t : sealed existing → go_valid c → Canonical c = Some c → same_evidence existing (event_of w c t) = true →
  Event_EventType existing = EventType A ∧ EqualFold (MatrixDigest c) (Event_SubjectDigest existing) = true ∧
  PayloadDigest existing = hexSum256 (payload_text c) ∧
  (same_document (payload_text c) (PayloadJSON existing) ∨ row_collides existing (payload_text c)).
Proof.
  intros Hs Hg Hc. unfold same_evidence. cbn [event_of PayloadDigest Event_SubjectDigest Event_EventType]. rewrite !andb_true_iff.
  intros [[Hd Hm] Ht%String.eqb_eq]. split; [done|]. destruct (sealed_payload existing Hs) as (j & Hj & Hdj & Hdoc). rewrite Hdj in Hd |- *.
  apply hex_fold in Hd; [|apply hexSum256_hex..]. split; [|split; [done|]].
  - apply fold_sym; [by apply sealed_subject| |done]. by apply lower_hex_text, digest_lower, (Canonical_digest c c).
  - destruct (digest_binds j _ Hj (payload_utf8 c Hg) Hd) as [->|Hcol]; [by left|right]. by exists (Marshal j).
Qed.
Lemma read_own_text c : go_valid c → same_document (payload_text c) (payload_text c).
Proof.
  intros Hc. pose proof (read_MarshalGo (observation_payload c) payload_type (payload_go_valid c Hc)) as Hr.
  eexists _, _. split; [exact Hr|]. split; [exact Hr|]. apply same_json_refl.
Qed.
End Observed.
End Facts.
