(* ===== verification/LedgerDemo.v ===== *)
(** * An example of the ledger: one security observation of one task

    The database of the example keeps texts as they are; identities are in unary; digests stay
    symbolic. *)
From stdpp Require Import base tactics list strings gmap relations.
From Stdlib Require Import Ascii.
From S2P Require Import Prelude GoStrings GoSort Sha256 PlanStore Json JsonTypes JsonRaw GoJson Evidence EvidenceSecurity DeliveryLedger LedgerFacts.
Open Scope string_scope.

Definition kept_text (s : string) : option string := match read_json s with Some _ => Some s | None => None end.
Lemma kept_document j s : json_utf8 j = true → kept_text (Marshal j) = Some s → same_document (Marshal j) s.
Proof.
  intros _. unfold kept_text. destruct (read_json (Marshal j)) as [v|] eqn:Hv; [|done]. intros [= <-]. exists v, v. split_and!; [done..|apply same_value_refl].
Qed.
Definition microseconds (t : Z) : Z := (t / 1000 * 1000)%Z.
Lemma microseconds_close t : (microseconds t ≤ t < microseconds t + 1000)%Z.
Proof. unfold microseconds. pose proof (Z.div_mod t 1000). pose proof (Z.mod_pos_bound t 1000). lia. Qed.
Definition kept : Database :=
  {| jsonb := kept_text; timestamptz := microseconds; jsonb_document := kept_document; timestamptz_close := microseconds_close |}.

Section Demo.
#[local] Existing Instances ascii_only unary kept.

Definition demo_task_id : string := "11111111-1111-4111-8111-111111111111".
Definition demo_digest : string := "00000000000000000000000000000000000000000000000000000000000000aa".
Definition demo_repository (name : string) (high : Z) : Repository :=
  {| Reference := "workspace://" +:+ name; Branch := "itbem-agent/" +:+ demo_task_id; SecretScanPassed := true; HighFindings := high; CriticalFindings := 0 |}.
Definition demo_observed (task : string) (high : Z) (names : list string) : Observation :=
  {| Observation_SchemaVersion := 1; Observation_TaskID := task; Observation_MatrixDigest := demo_digest;
     Repositories := (λ name, demo_repository name high) <$> names |}.
(** As a worker reports it, in canonical form, and with other findings. *)
Definition demo_reported : Observation := demo_observed (" " +:+ demo_task_id) 0 ["events"; "dashboard"].
Definition demo_canonical : Observation := demo_observed demo_task_id 0 ["dashboard"; "events"].
Definition demo_other : Observation := demo_observed demo_task_id 3 ["dashboard"; "events"].
Lemma demo_is_canonical : Canonical demo_reported = Some demo_canonical.
Proof. vm_compute. reflexivity. Qed.
Lemma other_is_canonical : Canonical demo_other = Some demo_other.
Proof. vm_compute. reflexivity. Qed.

(** Work item 2, before and after the report of the task. *)
Definition demo_before : Ledger := {| work_items := {[2%N]}; events := [] |}.
Definition demo_event : DeliveryEvent := with_id (with_sequence (event_of 2%N demo_canonical 5000) 1) 9%N.
Definition demo_row : DeliveryEvent := {|
  Event_ID := 9%N; WorkItemID := 2%N; Sequence := 1; Event_EventType := "delivery.security.observed.v1";
  DedupeKey := dedupe_key 2%N demo_canonical; Event_SubjectDigest := demo_digest; PayloadJSON := payload_text demo_canonical;
  PayloadDigest := hexSum256 (payload_text demo_canonical); Event_ActorType := "system"; Event_ActorID := "qa-runner/local-security/v1";
  OccurredAt := 5000; CreatedAt := 5000 |}.
Definition demo_after : Ledger := {| work_items := {[2%N]}; events := [demo_row] |}.
Lemma demo_text_kept : jsonb (payload_text demo_canonical) = Some (payload_text demo_canonical).
Proof. vm_compute. reflexivity. Qed.
Lemma demo_recorded : RecordObservation 9%N 2%N demo_reported 5000 demo_before = Some (demo_event, true, demo_after).
Proof.
  rewrite Record_append. change (Evidence.Canonical demo_reported) with (Canonical demo_reported).
  rewrite demo_is_canonical. cbn [N.eqb Nil IsZero Z.eqb orb mbind option_bind].
  unfold append_event. rewrite bool_decide_eq_true_2 by (cbn; set_solver). cbn [negb find_dedupe demo_before events List.find].
  change (lastSequence 2%N _ + 1)%Z with 1%Z. unfold Create. fold demo_event. unfold row_of.
  change (PayloadJSON demo_event) with (payload_text demo_canonical). rewrite demo_text_kept. cbn [mbind option_bind existsb orb].
  assert (fits demo_event = true) as ->; [|done]. unfold fits. cbn [demo_event with_id with_sequence event_of PayloadDigest].
  rewrite hexSum256_length. vm_compute. reflexivity.
Qed.
Lemma demo_valid : go_valid demo_reported.
Proof. vm_compute. reflexivity. Qed.
Lemma demo_canonical_valid : go_valid demo_canonical.
Proof. vm_compute. reflexivity. Qed.
Lemma demo_row_sealed : sealed demo_row.
Proof.
  split; [|reflexivity|by split_and!]. eexists. split; [apply (payload_utf8 demo_canonical demo_canonical_valid)|].
  split; [reflexivity|]. apply (read_own_text demo_canonical demo_canonical_valid).
Qed.
Lemma demo_row_readable : readable (A:=Observation) (PayloadJSON demo_row).
Proof.
  intros version raw Hd. split; [exact I|]. change (PayloadJSON demo_row) with (payload_text demo_canonical) in Hd.
  assert (decode_envelope (payload_text demo_canonical) = Some (1%Z, MarshalGo demo_canonical)) as He by (vm_compute; reflexivity).
  rewrite He in Hd. injection Hd as _ <-. apply N.leb_le. vm_compute. reflexivity.
Qed.
Lemma demo_projected : ProjectObservation demo_row = Some (Build_Projection 9%N 1 demo_canonical 5000).
Proof.
  apply (project_row demo_reported demo_canonical demo_row).
  - exact demo_is_canonical.
  - apply demo_canonical_valid.
  - apply demo_row_sealed.
  - reflexivity.
  - apply (read_own_text demo_canonical demo_canonical_valid).
  - apply demo_row_readable.
  - vm_compute. reflexivity.
  - reflexivity.
Qed.
End Demo.
