(* ===== verification/LedgerTheorems.v ===== *)
(** * The delivery ledger: what its operations keep and what reading it back gives

    [reachable]: the ledgers that recordings of observations and gate evaluations lead to, in
    any order.  A reachable ledger only grows, numbers the events of each work item 1, 2, ...
    and gives every recorded observation back. *)
From stdpp Require Import base tactics list strings gmap relations.
From Stdlib Require Import Ascii.
From S2P Require Import Prelude GoStrings GoSort Sha256 PlanStore Json JsonTypes JsonRaw GoJson ReleaseGate GateJson.
From S2P Require Import Evidence DeliveryLedger LedgerFacts LedgerGate LedgerDemo.
Open Scope string_scope.

Section Theorems.
Context {unicode : GoUnicode} {text : UuidText} {database : Database}.

(** A step of the ledger: a work item appears, or an operation of the package succeeds.  The
    values recorded are Go values with valid UTF-8 strings; identities are not nil. *)
Inductive ledger_step : Ledger → Ledger → Prop :=
| new_item w l : w ≠ Nil → ledger_step l {| work_items := {[w]} ∪ work_items l; events := events l |}
| observe A (json : GoJson A) (evidence : Evidence A) (laws : EvidenceLaws A) id w (o : A) t l e created l' :
    id ≠ Nil → (1000 ≤ t)%Z → go_valid o → RecordObservation id w o t l = Some (e, created, l') → ledger_step l l'
| evaluate id w input t l e created l' :
    id ≠ Nil → (1000 ≤ t)%Z → go_valid (gate_payload (canonicalGateInput input)) →
    RecordGateEvaluation id w input t l = Some (e, created, l') → ledger_step l l'.
Definition empty_ledger : Ledger := {| work_items := ∅; events := [] |}.
Definition reachable (l : Ledger) : Prop := rtc ledger_step empty_ledger l.

Lemma gate_payload_type : json_type (go_type gateEvaluationPayload) = true.
Proof. by vm_compute. Qed.
Lemma gate_subject_ascii i : is_ascii (SubjectDigest (Evaluate i)) = true.
Proof.
  unfold Evaluate. destruct (normalizeRevisions (Revisions i)); [|done].
  repeat match goal with |- context [let '(_, _) := ?x in _] => destruct x end. cbn [SubjectDigest]. unfold subjectDigest.
  apply lower_hex_text, hexSum256_hex.
Qed.
Lemma gate_append id w input t l r : RecordGateEvaluation id w input t l = Some r → w ≠ Nil ∧ ∃ event,
  newGateEvaluationEvent w input t = Some event ∧ append_event (λ _ _, true) id w event l = Some r ∧ WorkItemID event = w ∧
  OccurredAt event = t ∧ Event_SubjectDigest event = SubjectDigest (Evaluate (canonicalGateInput input)) ∧
  PayloadJSON event = MarshalGo (gate_payload (canonicalGateInput input)) ∧ PayloadDigest event = hexSum256 (PayloadJSON event).
Proof.
  unfold RecordGateEvaluation, newGateEvaluationEvent. destruct (N.eqb w Nil || IsZero t) eqn:Hw; [done|].
  apply orb_false_iff in Hw as [Hw%N.eqb_neq _]. cbn [mbind option_bind]. intros Ha. split; [done|]. eexists. by split_and!.
Qed.
Lemma step_inv l l' : ledger_step l l' → ledger_inv l → ledger_inv l' ∧ events l `prefix_of` events l'.
Proof.
  intros Hs Hl. destruct Hs as [w l Hw|A json evidence laws id w o t l e created l' Hid Ht Ho Hr|id w input t l e created l' Hid Ht Hi Hr].
  - split; [|done]. destruct Hl as [H1 H2 H3 H4]. by split.
  - apply Record_parts in Hr as (Hw & c & Hc & Ha). pose proof (Canonical_go_valid o c Hc Ho) as Hg.
    eapply append_inv; [exact Hl| |exact Hid|exact Hw| | | |exact Ha]; [done|done|by apply lower_hex_text, digest_lower, (Canonical_digest o c)|].
    eexists. split; [by apply (payload_utf8 c)|done].
  - apply gate_append in Hr as (Hw & event & _ & Ha & Hwi & Hoc & Hsub & Hp & Hd).
    eapply append_inv; [exact Hl|exact Hwi|exact Hid|exact Hw|by rewrite Hoc|rewrite Hsub; apply gate_subject_ascii| |exact Ha].
    eexists. split; [by apply (MarshalGo_utf8 _ gate_payload_type Hi)|]. by rewrite Hd, Hp.
Qed.
Lemma steps_inv l l' : rtc ledger_step l l' → ledger_inv l → ledger_inv l' ∧ events l `prefix_of` events l'.
Proof.
  induction 1 as [|l1 l2 l3 H12 _ IH]; [done|]. intros [H2 Hp]%(step_inv _ _ H12). apply IH in H2 as [H3 Hp']. split; [done|by etrans].
Qed.
Lemma reachable_inv l : reachable l → ledger_inv l.
Proof.
  intros Hr. apply (steps_inv _ _ Hr). split; [by intros ? ?%not_elem_of_nil|by intros w|constructor|constructor].
Qed.

(** C5: the ledger is append-only.  From a reachable ledger on, rows are only added, in order; in every later ledger the
    events of one work item are numbered 1, 2, 3, ... in that order, no two rows have the same identity or dedupe key, and
    every payload is still the document whose text has the digest of its row. *)
Theorem ledger_is_append_only l l' : reachable l → rtc ledger_step l l' →
  events l `prefix_of` events l' ∧
  (∀ w, Sequence <$> filter (λ e, WorkItemID e = w) (events l') =
        seqZ 1 (Z.of_nat (length (filter (λ e, WorkItemID e = w) (events l'))))) ∧
  NoDup (Event_ID <$> events l') ∧ NoDup (DedupeKey <$> events l') ∧
  ∀ e, e ∈ events l' → ∃ j, PayloadDigest e = hexSum256 (Marshal j) ∧ same_document (Marshal j) (PayloadJSON e).
Proof.
  intros Hl%reachable_inv Hs. destruct (steps_inv _ _ Hs Hl) as [[H1 H2 H3 H4] Hp]. split_and!; [done|exact H2|done|done|].
  intros e He. destruct (sealed_payload e (H1 e He)) as (j & _ & Hd & Hdoc). by exists j.
Qed.

(** ** Observations *)

Section Observed.
Context {A : Type} {json : GoJson A} {evidence : Evidence A} {laws : EvidenceLaws A}.

(** The row a recording leaves for an observation. *)
Lemma recorded_row id w (o : A) t l e created l' : ledger_inv l → id ≠ Nil → (1000 ≤ t)%Z → go_valid o →
  RecordObservation id w o t l = Some (e, created, l') →
  ∃ c row, Canonical o = Some c ∧ go_valid c ∧ find_dedupe (dedupe_key w c) l' = Some row ∧ row ∈ events l' ∧ sealed row ∧
    Event_ID row = Event_ID e ∧ Sequence row = Sequence e ∧ Event_EventType row = EventType A ∧
    EqualFold (MatrixDigest c) (Event_SubjectDigest row) = true ∧ PayloadDigest row = hexSum256 (payload_text c) ∧
    (same_document (payload_text c) (PayloadJSON row) ∨ row_collides row (payload_text c)).
Proof.
  intros Hl Hid Ht Ho (Hw & c & Hc & Ha)%Record_parts. pose proof (Canonical_go_valid o c Hc Ho) as Hg. pose proof (Canonical_idem o c Hc) as Hcc.
  exists c. destruct (append_cases _ _ _ _ _ _ _ _ eq_refl Ha) as [(_ & -> & Hf & Hs)|(_ & row & Hr & -> & -> & Hf & _)].
  - destruct (find_dedupe_Some _ _ _ Hf) as [Hin _]. pose proof (inv_sealed l Hl e Hin) as Hse.
    destruct (same_evidence_text e w c t Hse Hg Hcc Hs) as (H1 & H2 & H3 & H4). exists e. by split_and!.
  - pose proof (row_fields _ _ Hr) as (R1 & R2 & R3 & R4 & R5 & R6 & R7 & R8 & R9).
    assert (row ∈ (events l ++ [row])%list) as Hin by (apply elem_of_app; right; by left).
    assert (ledger_inv {| work_items := work_items l; events := events l ++ [row] |}) as Hl'.
    { refine (proj1 (append_inv same_evidence id w (event_of w c t) l _ _ _ Hl eq_refl Hid Hw Ht _ _ Ha)).
      - by apply lower_hex_text, digest_lower, (Canonical_digest o c).
      - eexists. split; [by apply (payload_utf8 c)|done]. }
    exists row. split_and!; try done.
    + by apply find_dedupe_appended.
    + by apply (inv_sealed _ Hl').
    + rewrite R6. apply hex_fold; [..|done]; apply digest_lower, (Canonical_digest o c Hc).
    + left. apply (jsonb_document _ _ (payload_utf8 c Hg)). exact R9.
Qed.

(** C24: what is recorded is read back, if it is not too long.  After an observation was recorded in a reachable ledger, there
    is a row under its dedupe key, new or an earlier one accepted as identical, and PostgreSQL's text of that row holds one
    text of the evidence.  If that text has at most the bytes the package decodes (64 KiB, 128 KiB for environments) and is
    clean - only QA asks for more than the JSON it is: UTF-8 with complete Unicode escapes - the row projects to the
    canonical form; if it is longer, the row never projects, although it was recorded.  Or the text the row was made of and
    the observation's are a collision of SHA-256. *)
Theorem recorded_evidence_projects id w (o : A) t l e created l' : reachable l → id ≠ Nil → (1000 ≤ t)%Z → go_valid o →
  RecordObservation id w o t l = Some (e, created, l') →
  ∃ c row, Canonical o = Some c ∧ find_dedupe (dedupe_key w c) l' = Some row ∧ Event_ID row = Event_ID e ∧ Sequence row = Sequence e ∧
    (row_collides row (payload_text c) ∨
     ∃ raw, decode_envelope (PayloadJSON row) = Some (EvidenceVersion A, raw) ∧
       (clean_text A raw → (byte_length raw ≤ max_bytes A)%N →
        ProjectObservation row = Some (Build_Projection (Event_ID e) (Sequence e) c (OccurredAt row))) ∧
       ((max_bytes A < byte_length raw)%N → ProjectObservation (A:=A) row = None)).
Proof.
  intros Hl%reachable_inv Hid Ht Ho Hr.
  destruct (recorded_row _ _ _ _ _ _ _ _ Hl Hid Ht Ho Hr) as (c & row & Hc & Hg & Hf & Hin & Hs & H1 & H2 & H3 & H4 & H5 & [Hdoc|Hcol]);
    exists c, row; split_and!; try done; [right|by left].
  destruct (read_envelope c _ Hg Hdoc) as (raw & v & He & _). exists raw. split; [done|]. split; [|by eapply project_oversized].
  intros Hclean Hsize. rewrite <-H1, <-H2. apply (project_row o); try done. intros version raw' Hraw. by rewrite He in Hraw; injection Hraw as <- <-.
Qed.

(** one task, one observation.  When an observation was recorded, recording one of the same task and work item again -
    at any time, with any new identity - changes nothing: it returns the row that is there when the canonical evidence is
    the same, and fails when it differs (or SHA-256 collides on the two texts). *)
Theorem observation_is_recorded_once id id' w (o o' : A) t t' l e created l' c c' : reachable l → id ≠ Nil → (1000 ≤ t)%Z → (1000 ≤ t')%Z →
  go_valid o → go_valid o' → RecordObservation id w o t l = Some (e, created, l') →
  Canonical o = Some c → Canonical o' = Some c' → TaskID c' = TaskID c →
  ∃ row, find_dedupe (dedupe_key w c) l' = Some row ∧
    (c' = c → RecordObservation id' w o' t' l' = Some (row, false, l')) ∧
    (c' ≠ c → RecordObservation id' w o' t' l' = None ∨ collide (payload_text c) (payload_text c')).
Proof.
  intros Hl%reachable_inv Hid Ht Ht' Ho Ho' Hr Hc Hc' Htask.
  destruct (recorded_row _ _ _ _ _ _ _ _ Hl Hid Ht Ho Hr) as (c0 & row & Hc0 & Hg & Hf & Hin & Hs & _ & _ & H3 & H4 & H5 & _).
  assert (c0 = c) as -> by congruence. exists row. split; [done|]. pose proof (Canonical_go_valid o' c' Hc' Ho') as Hg'.
  assert (dedupe_key w c' = dedupe_key w c) as Hk by (unfold dedupe_key; by rewrite Htask).
  assert (w ≠ Nil ∧ w ∈ work_items l') as [Hw Hwi].
  { pose proof (Record_parts _ _ _ _ _ _ Hr) as (Hw & c1 & _ & Ha). split; [done|]. pose proof (append_cases _ _ _ _ _ _ _ _ eq_refl Ha) as Hcase.
    unfold append_event in Ha. case_bool_decide as Hwl; [|done]. by destruct Hcase as [(_ & -> & _)|(_ & ? & _ & _ & -> & _)]. }
  rewrite Record_append, Hc'. rewrite (proj2 (N.eqb_neq _ _) Hw). unfold IsZero. rewrite (proj2 (Z.eqb_neq t' 0)) by lia.
  cbn [orb mbind option_bind]. unfold append_event. rewrite bool_decide_eq_true_2 by done. cbn [negb event_of DedupeKey].
  rewrite Hk, Hf. assert (is_ascii (MatrixDigest c) = true) as Hm by by apply lower_hex_text, digest_lower, (Canonical_digest o c).
  split.
  - intros ->. unfold same_evidence. cbn [event_of PayloadDigest Event_SubjectDigest Event_EventType]. rewrite H3, H5, String.eqb_refl.
    rewrite (proj2 (hex_fold _ _ (hexSum256_hex _) (hexSum256_hex _)) eq_refl). rewrite fold_sym; [done|done| |done]. by apply sealed_subject.
  - intros Hne. destruct (same_evidence row _) eqn:Hse; [right|by left]. unfold same_evidence in Hse.
    cbn [event_of PayloadDigest Event_SubjectDigest Event_EventType] in Hse. rewrite !andb_true_iff in Hse. destruct Hse as [[Hd _] _].
    rewrite H5 in Hd. apply hex_fold in Hd; [|apply hexSum256_hex..].
    destruct (digest_binds _ _ (payload_utf8 c Hg) (payload_utf8 c' Hg') Hd) as [Heq|Hcol]; [|done].
    destruct Hne. apply encode_inj in Heq; [by injection Heq|apply payload_type|by apply payload_go_valid..].
Qed.

(** a row cannot be made to tell another story.  Whatever happens to the other columns of a row with the digest of a
    recorded canonical observation, what the row projects to - if it projects at all - has the recorded text, and is the
    recorded observation; or SHA-256 collides on the two texts. *)
Theorem tampered_row_fails_closed (c : A) event p : PayloadDigest event = hexSum256 (payload_text c) → ProjectObservation event = Some p →
  payload_text (Projection_Observation p) = payload_text c ∧ (go_valid c → go_valid (Projection_Observation p) → Projection_Observation p = c) ∨
  collide (payload_text (Projection_Observation p)) (payload_text c).
Proof.
  intros Hd. unfold ProjectObservation. destruct (_ || _); [done|]. intros ([version raw] & _ & Hp)%bind_Some. destruct (negb _); [done|].
  apply bind_Some in Hp as (o & _ & Hp). destruct (negb _) in Hp; [done|]. apply bind_Some in Hp as (o' & _ & Hp).
  destruct (EqualFold _ _) eqn:Hf; [|done]. injection Hp as <-. cbn [Projection_Observation]. rewrite Hd in Hf.
  apply hex_fold in Hf; [|apply hexSum256_hex..]. destruct (decide (payload_text o' = payload_text c)) as [Heq|Hne].
  - left. split; [done|]. intros Hc Ho. symmetry in Heq. unfold payload_text, MarshalGo in Heq.
    apply Marshal_inj in Heq; [|by apply payload_utf8..]. apply encode_inj in Heq; [by injection Heq|apply payload_type|by apply payload_go_valid..].
  - right. split; [done|]. by apply hexSum256_eq.
Qed.
End Observed.
End Theorems.

(** ** The example *)

Section Demo.
#[local] Existing Instances ascii_only unary kept.
#[local] Existing Instances EvidenceSecurity.Observation_json EvidenceSecurity.Observation_evidence EvidenceSecurity.Observation_laws.

Lemma ledger_demo_item : ledger_step empty_ledger demo_before.
Proof. apply (new_item 2%N empty_ledger). discriminate. Qed.
Lemma demo_reachable : reachable demo_before.
Proof. apply rtc_once, ledger_demo_item. Qed.
Lemma ledger_demo_step : ledger_step demo_before demo_after.
Proof.
  apply (observe EvidenceSecurity.Observation _ _ EvidenceSecurity.Observation_laws 9%N 2%N demo_reported 5000 demo_before demo_event true demo_after); [discriminate|lia|apply demo_valid|apply demo_recorded].
Qed.
Lemma ledger_is_append_only_witness : events demo_before `prefix_of` events demo_after.
Proof. apply (ledger_is_append_only demo_before demo_after); [apply demo_reachable|apply rtc_once, ledger_demo_step]. Defined.
Lemma recorded_evidence_projects_witness :
  ∃ row, find_dedupe (dedupe_key 2%N demo_canonical) demo_after = Some row ∧
    (ProjectObservation row = Some (Build_Projection 9%N 1 demo_canonical (OccurredAt row)) ∨ row_collides row (payload_text demo_canonical)).
Proof.
  destruct (recorded_evidence_projects 9%N 2%N demo_reported 5000 demo_before demo_event true demo_after) as (c & row & Hc & Hf & _ & _ & Hp).
  - apply demo_reachable.
  - discriminate.
  - lia.
  - apply demo_valid.
  - apply demo_recorded.
  - assert (c = demo_canonical) as ->.
    { apply Some_inj. rewrite <-Hc. apply demo_is_canonical. }
    exists row. split; [exact Hf|]. assert (row = demo_row) as ->.
    { apply find_dedupe_Some in Hf as [Hin _]. by apply list_elem_of_singleton in Hin. }
    destruct Hp as [Hcol|(raw & He & Hread & _)]; [right; exact Hcol|left].
    destruct (demo_row_readable _ _ He) as [Hclean Hsize]. exact (Hread Hclean Hsize).
Defined.
Lemma demo_canonical_twice : EvidenceSecurity.Canonical demo_canonical = Some demo_canonical.
Proof. vm_compute. reflexivity. Qed.
Lemma demo_other_valid : go_valid demo_other.
Proof. vm_compute. reflexivity. Qed.
Lemma observation_is_recorded_once_witness :
  (∃ row, RecordObservation 10%N 2%N demo_canonical 9000 demo_after = Some (row, false, demo_after)) ∧
  (RecordObservation 10%N 2%N demo_other 9000 demo_after = None ∨ collide (payload_text demo_canonical) (payload_text demo_other)).
Proof.
  assert ((10 : N) ≠ Nil) as H10 by discriminate. assert ((9 : N) ≠ Nil) as H9 by discriminate.
  assert (1000 ≤ 5000)%Z as H5 by lia. assert (1000 ≤ 9000)%Z as H9000 by lia. split.
  - destruct (observation_is_recorded_once 9%N 10%N 2%N demo_reported demo_canonical 5000 9000 demo_before demo_event true demo_after
      demo_canonical demo_canonical demo_reachable H9 H5 H9000 demo_valid demo_canonical_valid demo_recorded demo_is_canonical
      demo_canonical_twice eq_refl) as (row & _ & Hsame & _).
    exists row. exact (Hsame eq_refl).
  - destruct (observation_is_recorded_once 9%N 10%N 2%N demo_reported demo_other 5000 9000 demo_before demo_event true demo_after
      demo_canonical demo_other demo_reachable H9 H5 H9000 demo_valid demo_other_valid demo_recorded demo_is_canonical
      other_is_canonical eq_refl) as (row & _ & _ & Hdiff).
    apply Hdiff. discriminate.
Defined.
Lemma tampered_row_fails_closed_witness :
  payload_text demo_canonical = payload_text demo_canonical ∨ collide (payload_text demo_canonical) (payload_text demo_canonical).
Proof.
  destruct (tampered_row_fails_closed demo_canonical demo_row (Build_Projection 9%N 1 demo_canonical 5000)) as [[H _]|H].
  - reflexivity.
  - apply demo_projected.
  - by left.
  - by right.
Defined.
End Demo.
