(* ===== verification/LedgerGateTheorems.v ===== *)
(** * Release gate decisions in the ledger: what an authorization means

    [authorization_is_sound]: an authorized event holds an input that is ready to be released,
    approved by the acting human.  [recorded_gate_authorizes]: a recorded decision that allows
    the action does authorize it, while it is recent. *)
From stdpp Require Import base tactics list strings gmap relations.
From Stdlib Require Import Ascii.
From S2P Require Import Prelude GoStrings GoSort Sha256 PlanStore Json JsonTypes JsonRaw GoJson Evidence DeliveryLedger LedgerFacts.
From S2P Require Import ReleaseGate ReleaseGateFacts ReleaseGateTheorems GateJson LedgerGate LedgerDemo LedgerTheorems.
Open Scope string_scope.

Section Gate.
Context {unicode : GoUnicode} {text : UuidText} {database : Database}.

(** ** Decisions that are deeply equal *)

Lemma deep_string s g : DeepEqual (GString s) g = true → of_go g = s.
Proof. destruct g; try done. cbn. by intros ->%String.eqb_eq. Qed.
Lemma deep_decision d g : DeepEqual (to_go d) g = true →
  Decision_Action (of_go g) = Decision_Action d ∧ Decision_ChangeSetID (of_go g) = Decision_ChangeSetID d ∧
  SubjectDigest (of_go g) = SubjectDigest d ∧ State (of_go g) = State d.
Proof.
  destruct g as [| | | | |vals]; try done. cbn -[of_go]. do 10 (destruct vals as [|? vals]; [by rewrite ?andb_false_r|]).
  rewrite !andb_true_iff. intros (_ & H1%deep_string & H2%deep_string & _ & _ & _ & _ & H3%deep_string & H4%deep_string & _). by cbn.
Qed.

(** The decision on an input, its envelope apart from the reasons. *)
Lemma decision_envelope i : Decision_SchemaVersion (Evaluate i) = SchemaVersion ∧ Decision_Action (Evaluate i) = Input_Action i ∧
  Decision_ChangeSetID (Evaluate i) = ChangeSetID i.
Proof.
  unfold Evaluate. destruct (normalizeRevisions (Revisions i)); [|done].
  by repeat match goal with |- context [let '(_, _) := ?x in _] => destruct x end.
Qed.
Lemma allowed_reasons i : State (Evaluate i) = "allowed" → Reasons (Evaluate i) = [].
Proof.
  unfold Evaluate. destruct (normalizeRevisions (Revisions i)) as [n|]; [|done].
  repeat match goal with |- context [let '(_, _) := ?x in _] => destruct x end. cbn [State Reasons].
  rewrite allowed_empty. by intros ->.
Qed.

(** The subject of an input that is allowed. *)
Lemma allowed_subject i n md pd vd bd : release_ready i n md pd vd bd → SubjectDigest (Evaluate i) =
  subjectDigest (Input_Action i) md pd vd bd (RequiredTestKinds (Input_Policy i)) (Classification (Recovery i)).
Proof.
  intros Hr. assert (State (Evaluate i) = "allowed") as Hallow by (apply allowed_ready; by do 5 eexists).
  destruct Hr as [_ Hn Hmd [Hpd _] _ Hvd Hbd _ _ _ _ _ _]. revert Hallow. unfold Evaluate. rewrite Hn.
  destruct (matrix_digest_normalized _ _ Hn) as [-> _].
  repeat match goal with |- context [let '(_, _) := ?x in _] => destruct x end. cbn [State SubjectDigest].
  rewrite allowed_empty, !app_nil, !add_if_nil. intros (_ & _ & _ & _ & Hun & _). rewrite Hun, Hmd, Hpd, Hvd, Hbd. reflexivity.
Qed.
Lemma gate_subject_length i : (String.length (SubjectDigest (Evaluate i)) ≤ 64)%nat.
Proof.
  unfold Evaluate. destruct (normalizeRevisions (Revisions i)); [|cbn; lia].
  repeat match goal with |- context [let '(_, _) := ?x in _] => destruct x end. cbn [SubjectDigest]. unfold subjectDigest.
  by rewrite hexSum256_length.
Qed.
(** The decision on an input that is allowed is a Go value if the input is. *)
Lemma digest_utf8 (r : Result string string) : (∀ d, r = Ok d → ∃ m, d = hexSum256 m) → utf8_valid (ok_value r) = true.
Proof. destruct r as [d|]; [|done]. intros H. destruct (H d eq_refl) as [m ->]. apply ascii_utf8, digest_ascii. Qed.
Lemma allowed_go_valid i : State (Evaluate i) = "allowed" → go_valid i → go_valid (gate_payload i).
Proof.
  intros Hallow Hi. pose proof (allowed_reasons i Hallow) as Hreasons. destruct (decision_envelope i) as (D1 & D2 & D3).
  unfold go_valid. cbn [go_type to_go gateEvaluationPayload_json gate_payload Gate_SchemaVersion Gate_Input Gate_Decision]. apply typed_struct.
  constructor; [done|]. constructor; [exact Hi|]. constructor; [|done].
  unfold go_valid in Hi. cbn [go_type to_go Input_json] in Hi. apply typed_struct in Hi. rewrite !Forall2_cons in Hi. destruct Hi as (_ & Ha & Hc & _).
  cbn [snd go_type to_go Decision_json]. apply typed_struct. rewrite D1, D2, D3, Hreasons, Hallow.
  assert (∀ m, utf8_valid (hexSum256 m) = true) as Hhex by (intros; apply ascii_utf8, digest_ascii).
  assert (utf8_valid (MatrixDigest (Evaluate i)) = true ∧ utf8_valid (PolicyDigest (Evaluate i)) = true ∧
    utf8_valid (VaultDigest (Evaluate i)) = true ∧ utf8_valid (RequirementsDigest (Evaluate i)) = true ∧
    utf8_valid (SubjectDigest (Evaluate i)) = true) as (H1 & H2 & H3 & H4 & H5).
  { unfold Evaluate. destruct (normalizeRevisions (Revisions i)) as [n|]; [|done].
    repeat match goal with |- context [let '(_, _) := ?x in _] => destruct x end.
    cbn [MatrixDigest PolicyDigest VaultDigest RequirementsDigest SubjectDigest]. split_and!.
    - apply digest_utf8, RevisionMatrixDigest_hex.
    - destruct (_ || _); [done|apply digest_utf8, CompositePolicyDigest_hex].
    - apply digest_utf8, VaultEvidenceDigest_hex.
    - apply digest_utf8, BranchRequirementsDigest_hex.
    - apply Hhex. }
  repeat (constructor; [first [done|exact Ha|exact Hc]|]). constructor.
Qed.

(** ** Authorization *)

(** The payload of an event, as the decoder gives it. *)
Definition stored_input (event : DeliveryEvent) : option Input :=
  decoded ← Unmarshal false (go_type gateEvaluationPayload) (PayloadJSON event);
  Some (Gate_Input (of_go decoded)).
Lemma Unmarshal_lax t s g : Unmarshal true t s = Some g → Unmarshal false t s = Some g.
Proof. unfold Unmarshal. intros (v & Hv & Hd)%bind_Some. rewrite Hv. by apply decode_lax. Qed.
Lemma project_gate event p : ProjectGateEvaluation event = Some p → ∃ decoded, Unmarshal false (go_type gateEvaluationPayload) (PayloadJSON event) = Some decoded ∧
  Gate_Action p = Decision_Action (Gate_Decision (of_go decoded)) ∧ Gate_State p = State (Gate_Decision (of_go decoded)) ∧
  Gate_SubjectDigest p = SubjectDigest (Gate_Decision (of_go decoded)) ∧ Event_SubjectDigest event = Gate_SubjectDigest p ∧
  Gate_ChangeSetID p = Decision_ChangeSetID (Gate_Decision (of_go decoded)) ∧
  EqualFold (PayloadDigest event) (hexSum256 (Marshal (encode (go_type gateEvaluationPayload) decoded))) = true.
Proof.
  unfold ProjectGateEvaluation. destruct (_ || _); [done|]. intros (decoded & Hd & Hp)%bind_Some. destruct (negb _); [done|].
  destruct (EqualFold _ _) eqn:Hf; [|done]. cbn [negb] in Hp. destruct (_ || _) eqn:Hsub in Hp; [done|]. injection Hp as <-.
  apply orb_false_iff in Hsub as [_ Hsub%negb_false_iff%String.eqb_eq]. exists decoded. split_and!; try done. by apply Unmarshal_lax.
Qed.

(** C4: what an authorization means.  An authorized event belongs to the work item and holds an input for the requested
    action and this change set on which the gate's decision is reproduced: every requirement of the release is met, the
    acting human approved exactly this subject, and the evaluation is at most [maxAge] old and not from the future. *)
Theorem authorization_is_sound event w action human now maxAge p :
  AuthorizeGateEvaluation event w action human now maxAge = Some p →
  WorkItemID event = w ∧ ∃ input a, stored_input event = Some input ∧
    Input_Action input = action ∧ ChangeSetID input = uuid_text w ∧
    (∃ matrix matrixDigest policyDigest vaultDigest requirementsDigest,
       release_ready input matrix matrixDigest policyDigest vaultDigest requirementsDigest) ∧
    Input_HumanApproval input = Some a ∧ Approval_Approved a = true ∧ ActorType a = "human" ∧ Actor a = TrimSpace human ∧ Actor a ≠ "" ∧
    EqualFold (Approval_SubjectDigest a) (SubjectDigest (Evaluate input)) = true ∧
    (OccurredAt event ≤ now + Minute)%Z ∧ ((maxAge < 2 ^ 63 - 1)%Z → (now - OccurredAt event ≤ maxAge)%Z).
Proof.
  unfold AuthorizeGateEvaluation. destruct (_ || _) eqn:Hctx; [done|]. destruct (N.eqb_spec (WorkItemID event) w) as [Hw|]; [|done]. cbn [negb].
  intros (proj & Hproj & (decoded & Hdec & Hrest)%bind_Some)%bind_Some. split; [done|].
  destruct (project_gate _ _ Hproj) as (decoded' & Hdec' & Ha & Hst & Hsub & _). assert (decoded' = decoded) as -> by congruence.
  destruct (negb (Z.eqb _ _)); [done|]. destruct (DeepEqual _ _) eqn:Hdeep; [|done]. cbn [negb] in Hrest.
  destruct (_ || _) eqn:Hact in Hrest; [done|]. destruct (_ || _) eqn:Hcs in Hrest; [done|].
  destruct (approval_matches _ _ _) eqn:Happ; [|done]. cbn [negb] in Hrest. destruct (_ || _) eqn:Hage in Hrest; [done|].
  apply deep_decision in Hdeep as (D1 & _ & D3 & D4). change (of_go (field 2 decoded)) with (Gate_Decision (of_go decoded)) in *.
  apply orb_false_iff in Hact as [[Hact%negb_false_iff%String.eqb_eq Hallow%negb_false_iff%String.eqb_eq]%orb_false_iff _].
  apply orb_false_iff in Hcs as [Hcs%negb_false_iff%String.eqb_eq _]. apply orb_false_iff in Hage as [Hfut%Z.ltb_ge Hold%Z.ltb_ge].
  apply orb_false_iff in Hctx as [[[_ Hactor%String.eqb_neq]%orb_false_iff _]%orb_false_iff _].
  set (input := Gate_Input (of_go decoded)) in *. destruct (decision_envelope input) as (_ & E2 & _).
  unfold approval_matches in Happ. destruct (Input_HumanApproval input) as [a|] eqn:Hap; [|done].
  rewrite !andb_true_iff, !String.eqb_eq in Happ. destruct Happ as [[[Hyes Htype] Hname] Hfold].
  exists input, a. split_and!; try done.
  - unfold stored_input. by rewrite Hdec.
  - congruence.
  - apply allowed_ready. congruence.
  - congruence.
  - by rewrite <-D3, <-Hsub.
  - unfold Sub in Hold. lia.
Qed.

(** ** A recorded decision authorizes *)

(** What is read back from the row of a new gate event. *)
Lemma gate_row id w input t l e l' : ledger_inv l → id ≠ Nil → (1000 ≤ t)%Z → go_valid (gate_payload (canonicalGateInput input)) →
  RecordGateEvaluation id w input t l = Some (e, true, l') →
  w ≠ Nil ∧ ∃ row, row ∈ events l' ∧ sealed row ∧ Event_ID row = Event_ID e ∧ Sequence row = Sequence e ∧ WorkItemID row = w ∧
    Event_EventType row = EventTypeReleaseGateEvaluated ∧ OccurredAt row = timestamptz t ∧
    Event_SubjectDigest row = SubjectDigest (Evaluate (canonicalGateInput input)) ∧
    PayloadDigest row = hexSum256 (MarshalGo (gate_payload (canonicalGateInput input))) ∧
    same_document (MarshalGo (gate_payload (canonicalGateInput input))) (PayloadJSON row).
Proof.
  intros Hl Hid Ht Hi Hr. pose proof (gate_append _ _ _ _ _ _ Hr) as (Hw & event & Hev & Ha & Hwi & Hoc & Hsub & Hp & Hd). split; [done|].
  destruct (append_cases _ _ _ _ _ _ _ _ Hwi Ha) as [(? & _)|(_ & row & Hrow & -> & -> & _)]; [done|].
  pose proof (row_fields _ _ Hrow) as (R1 & R2 & R3 & R4 & R5 & R6 & R7 & R8 & R9).
  cbn [inserted with_id with_sequence Event_ID WorkItemID Sequence Event_EventType DedupeKey Event_SubjectDigest PayloadDigest OccurredAt PayloadJSON] in *.
  assert (row ∈ (events l ++ [row])%list) as Hin by (apply elem_of_app; right; by left).
  pose proof (MarshalGo_utf8 _ gate_payload_type Hi) as Hutf.
  assert (ledger_inv {| work_items := work_items l; events := events l ++ [row] |}) as Hl'.
  { refine (proj1 (append_inv _ id w event l _ _ _ Hl Hwi Hid Hw _ _ _ Ha)); [by rewrite Hoc|rewrite Hsub; apply gate_subject_ascii|].
    eexists. split; [exact Hutf|]. by rewrite Hd, Hp. }
  assert (Event_EventType event = EventTypeReleaseGateEvaluated) as Hty.
  { unfold newGateEvaluationEvent in Hev. destruct (_ || _); [done|]. by injection Hev as <-. }
  exists row. split_and!; try done; try congruence; [by apply (inv_sealed _ Hl')|].
  apply (jsonb_document _ _ Hutf). by rewrite <-R9, Hp.
Qed.

(** The row of a new event of an input that is allowed authorizes the action. *)
Lemma gate_authorizes id w input t l e l' human now maxAge :
  let i := canonicalGateInput input in
  ledger_inv l → id ≠ Nil → (1000 ≤ t)%Z → go_valid i → RecordGateEvaluation id w input t l = Some (e, true, l') →
  State (Evaluate i) = "allowed" → ChangeSetID i = uuid_text w →
  approval_matches (Input_HumanApproval i) (TrimSpace human) (SubjectDigest (Evaluate i)) = true → TrimSpace human ≠ "" →
  now ≠ 0%Z → (0 < maxAge)%Z → (t ≤ now + Minute)%Z → (now - t + 1000 ≤ maxAge < 2 ^ 63)%Z →
  ∃ row p, row ∈ events l' ∧ Event_ID row = Event_ID e ∧
    AuthorizeGateEvaluation row w (Input_Action i) human now maxAge = Some p ∧ Gate_State p = "allowed" ∧ Gate_Sequence p = Sequence e ∧
    Gate_SubjectDigest p = SubjectDigest (Evaluate i).
Proof.
  intros i Hl Hid Ht Hi Hr Hallow Hcs Happ Hactor Hnow Hage Hfut Hold.
  pose proof (allowed_go_valid i Hallow Hi) as Hp0.
  destruct (gate_row _ _ _ _ _ _ _ Hl Hid Ht Hp0 Hr) as (Hw & row & Hin & Hse & R1 & R2 & R3 & R4 & R5 & R6 & R7 & Hdoc). fold i in Hdoc, R6, R7.
  destruct (sealed_envelope row Hse) as (E1 & E2 & E3 & E4). pose proof (timestamptz_close t) as Hts.
  destruct (decision_envelope i) as (D1 & D2 & D3). pose proof (allowed_reasons i Hallow) as Hreasons.
  assert (Input_Action i = ActionMerge ∨ Input_Action i = ActionRelease) as Haction.
  { apply allowed_ready in Hallow as (n & md & pd & vd & bd & Hready). by destruct (ready_identity _ _ _ _ _ _ Hready) as (_ & ? & _). }
  assert (∀ strict, Unmarshal strict (go_type gateEvaluationPayload) (PayloadJSON row) = Some (to_go (gate_payload i))) as Hdec.
  { intros strict. apply Unmarshal_go; [apply gate_payload_type|done..]. }
  set (p := {| Gate_EventID := Event_ID row; Gate_Sequence := Sequence row; Gate_Action := Decision_Action (Evaluate i);
    Gate_ChangeSetID := Decision_ChangeSetID (Evaluate i); Gate_MatrixDigest := MatrixDigest (Evaluate i);
    Gate_PolicyDigest := PolicyDigest (Evaluate i); Gate_VaultDigest := VaultDigest (Evaluate i);
    Gate_RequirementsDigest := RequirementsDigest (Evaluate i); Gate_SubjectDigest := SubjectDigest (Evaluate i); Gate_State := State (Evaluate i);
    Gate_Reasons := Reasons (Evaluate i); Gate_OccurredAt := OccurredAt row |}).
  assert (ProjectGateEvaluation row = Some p) as Hproj.
  { unfold ProjectGateEvaluation. rewrite (proj2 (N.eqb_neq _ _) E1), (proj2 (N.eqb_neq _ _) E2), (proj2 (Z.ltb_ge _ _) E3), R4, String.eqb_refl.
    unfold IsZero. rewrite (proj2 (Z.eqb_neq _ _) E4), Hdec. cbn [orb negb mbind option_bind]. rewrite of_to_go. cbn [gate_payload Gate_SchemaVersion Gate_Decision].
    rewrite Z.eqb_refl, R7. fold (MarshalGo (gate_payload i)). rewrite (proj2 (hex_fold _ _ (hexSum256_hex _) (hexSum256_hex _)) eq_refl).
    by rewrite D1, Z.eqb_refl, R6, String.eqb_refl. }
  exists row, p. split_and!; try done. unfold AuthorizeGateEvaluation. rewrite (proj2 (N.eqb_neq _ _) Hw), (proj2 (String.eqb_neq _ _) Hactor).
  unfold IsZero at 1. rewrite (proj2 (Z.eqb_neq _ _) Hnow), (proj2 (Z.leb_gt _ _) Hage).
  assert (negb (String.eqb (Input_Action i) ActionMerge) && negb (String.eqb (Input_Action i) ActionRelease) = false) as -> by by destruct Haction as [-> | ->].
  cbn [orb]. rewrite R3, N.eqb_refl, Hproj, Hdec. cbn [negb mbind option_bind]. rewrite of_to_go. cbn [gate_payload Gate_SchemaVersion Gate_Input].
  rewrite Z.eqb_refl. change (field 2 (to_go (gate_payload i))) with (to_go (Evaluate i)). rewrite DeepEqual_refl. cbn [negb].
  unfold p. cbn [Gate_Action Gate_State Gate_Reasons Gate_ChangeSetID Gate_SubjectDigest]. rewrite D2, D3, Hallow, Hreasons, Hcs, !String.eqb_refl, Happ.
  cbn [negb orb length Nat.eqb]. rewrite R5, (proj2 (Z.ltb_ge _ _)) by lia. rewrite (proj2 (Z.ltb_ge _ _)); [done|]. unfold Sub. lia.
Qed.

(** a decision that allows the action can be used.  When the evaluation of an input that is ready, approved by the
    acting human and about this work item is recorded as a new event, the stored row authorizes the action for as long as
    the event is recent: nothing the database does to the row on the way stops it. *)
Theorem recorded_gate_authorizes id w input t l e l' human now maxAge :
  let i := canonicalGateInput input in
  reachable l → id ≠ Nil → (1000 ≤ t)%Z → go_valid i → RecordGateEvaluation id w input t l = Some (e, true, l') →
  State (Evaluate i) = "allowed" → ChangeSetID i = uuid_text w →
  approval_matches (Input_HumanApproval i) (TrimSpace human) (SubjectDigest (Evaluate i)) = true → TrimSpace human ≠ "" →
  now ≠ 0%Z → (0 < maxAge)%Z → (t ≤ now + Minute)%Z → (now - t + 1000 ≤ maxAge < 2 ^ 63)%Z →
  ∃ row p, row ∈ events l' ∧ Event_ID row = Event_ID e ∧
    AuthorizeGateEvaluation row w (Input_Action i) human now maxAge = Some p ∧ Gate_State p = "allowed" ∧ Gate_Sequence p = Sequence e ∧
    Gate_SubjectDigest p = SubjectDigest (Evaluate i).
Proof. intros i Hl%reachable_inv. by apply gate_authorizes. Qed.
End Gate.

(** ** The example: the release of ReleaseGateTheorems.v, of work item 3 *)

Section Demo.
#[local] Existing Instances ascii_only unary kept.

Definition gate_approval : HumanApproval :=
  {| Actor := "cleo"; ActorType := "human"; Approval_SubjectDigest := Approval_SubjectDigest demo_approval; Approval_Approved := true |}.
Definition gate_input (kinds : list string) : Input :=
  let i := demo_input (rev demo_repositories) (Some gate_approval) in
  {| Input_SchemaVersion := 3; Input_Action := ActionRelease; ChangeSetID := "111"; Revisions := Revisions i;
     Input_Policy := {| Policy_Resolved := true; Policy_Digest := demo_policy_digest; RequiredTestKinds := kinds;
                        Policy_Repositories := Policy_Repositories (Input_Policy i) |};
     Branches := Branches i; Checks := Checks i; Reviews := Reviews i; Vault := Vault i; Tests := Tests i; Security := Security i;
     Compatibility := Compatibility i; Migrations := Migrations i; Dependencies := Dependencies i; Environment := Environment i;
     Recovery := Recovery i; Input_HumanApproval := Some gate_approval |}.
Lemma gate_canonical : canonicalGateInput (gate_input ["unit"; "Integration"]) = gate_input ["Integration"; "unit"].
Proof. reflexivity. Qed.
Lemma gate_subject : subjectDigest ActionRelease demo_matrix_digest demo_policy_digest demo_vault_digest demo_requirements_digest
  ["Integration"; "unit"] RecoveryRollback = Approval_SubjectDigest demo_approval.
Proof.
  assert (subjectKinds ["Integration"; "unit"] = subjectKinds ["unit"; "Integration"]) as Hk by (vm_compute; reflexivity).
  unfold demo_approval, subjectDigest. cbn [Approval_SubjectDigest]. rewrite Hk. reflexivity.
Qed.
Lemma gate_ready : release_ready (gate_input ["Integration"; "unit"]) demo_normalized demo_matrix_digest demo_policy_digest
  demo_vault_digest demo_requirements_digest.
Proof.
  destruct (demo_ready (rev demo_repositories) (or_intror eq_refl)) as [_ H2 H3 H4 (_ & _ & H5) H6 H7 H8 H9 H10 H11 H12 _]. split.
  - split_and!; [reflexivity|by right|reflexivity].
  - exact H2.
  - exact H3.
  - exact H4.
  - split_and!; [reflexivity|reflexivity|exact H5].
  - exact H6.
  - exact H7.
  - destruct H8 as [W1 W2 W3 W4 W5 W6]. by split.
  - exact H9.
  - intros kind [->|[->|[]%not_elem_of_nil]%elem_of_cons]%elem_of_cons; apply H10; [right; left|left].
  - exact H11.
  - exact H12.
  - exists gate_approval. split; [reflexivity|]. split; [reflexivity|]. split; [reflexivity|]. split; [discriminate|].
    change (equalDigest (Approval_SubjectDigest demo_approval) (subjectDigest ActionRelease demo_matrix_digest demo_policy_digest demo_vault_digest
      demo_requirements_digest ["Integration"; "unit"] RecoveryRollback) = true).
    rewrite gate_subject. unfold demo_approval, subjectDigest. cbn [Approval_SubjectDigest]. apply digest_self.
Qed.
Lemma gate_allowed : State (Evaluate (gate_input ["Integration"; "unit"])) = "allowed".
Proof. apply allowed_ready. do 5 eexists. apply gate_ready. Qed.

Lemma gate_go_valid : go_valid (gate_input ["Integration"; "unit"]).
Proof.
  assert (∀ m, utf8_valid (hexSum256 m) = true) as Hhex by (intros; apply ascii_utf8, digest_ascii).
  assert (utf8_valid demo_matrix_digest = true ∧ utf8_valid demo_policy_digest = true ∧
    utf8_valid (Approval_SubjectDigest demo_approval) = true) as (H1 & H2 & H3).
  { unfold demo_approval, demo_matrix_digest, demo_policy_digest, subjectDigest. cbn [Approval_SubjectDigest]. split_and!; apply Hhex. }
  unfold go_valid. cbn -[utf8_valid demo_matrix_digest demo_policy_digest Approval_SubjectDigest].
  cbn [gate_approval Approval_SubjectDigest]. rewrite !H1, H2, H3. vm_compute. reflexivity.
Qed.
Lemma gate_matches : approval_matches (Some gate_approval) "cleo" (SubjectDigest (Evaluate (gate_input ["Integration"; "unit"]))) = true.
Proof.
  rewrite (allowed_subject _ _ _ _ _ _ gate_ready).
  change (approval_matches (Some gate_approval) "cleo" (subjectDigest ActionRelease demo_matrix_digest demo_policy_digest demo_vault_digest
    demo_requirements_digest ["Integration"; "unit"] RecoveryRollback) = true).
  rewrite gate_subject. unfold approval_matches, gate_approval. cbn [Approval_Approved ActorType Actor Approval_SubjectDigest].
  rewrite !String.eqb_refl. cbn [andb]. unfold demo_approval, subjectDigest. cbn [Approval_SubjectDigest]. apply hex_fold; [apply hexSum256_hex..|reflexivity].
Qed.
Definition gate_before : Ledger := {| work_items := {[3%N]}; events := [] |}.
Lemma gate_reachable : reachable gate_before.
Proof. apply rtc_once, (new_item 3%N empty_ledger). discriminate. Qed.

(** The event of the evaluation can be written. *)
Lemma gate_recorded : ∃ e l, RecordGateEvaluation 9%N 3%N (gate_input ["unit"; "Integration"]) 5000 gate_before = Some (e, true, l).
Proof.
  unfold RecordGateEvaluation, newGateEvaluationEvent. cbn [N.eqb Nil IsZero Z.eqb orb]. rewrite gate_canonical.
  pose proof (read_MarshalGo _ gate_payload_type (allowed_go_valid _ gate_allowed gate_go_valid)) as Hread.
  assert (String.length (SubjectDigest (Evaluate (gate_input ["Integration"; "unit"]))) ≤ 64)%nat as Hsub by apply gate_subject_length.
  change (MarshalGo {| Gate_SchemaVersion := _; Gate_Input := ?i; Gate_Decision := _ |}) with (MarshalGo (gate_payload i)).
  revert Hread Hsub. generalize (MarshalGo (gate_payload (gate_input ["Integration"; "unit"]))) as payload.
  generalize (SubjectDigest (Evaluate (gate_input ["Integration"; "unit"]))) as subject.
  generalize (to_value (encode (go_type gateEvaluationPayload) (to_go (gate_payload (gate_input ["Integration"; "unit"]))))) as v.
  intros v subject payload Hread Hsub.
  assert (String.length (uuid_text 3%N +:+ ":release-gate-v3:" +:+ hexSum256 payload) ≤ 256)%nat as Hkey.
  { rewrite <-!length_bytes, !bytes_append, !length_app, !length_bytes, hexSum256_length. vm_compute. lia. }
  assert (String.length (hexSum256 payload) ≤ 64)%nat as Hdigest by by rewrite hexSum256_length.
  revert Hkey Hdigest. generalize (uuid_text 3%N +:+ ":release-gate-v3:" +:+ hexSum256 payload) as key. generalize (hexSum256 payload) as digest.
  intros digest key Hkey Hdigest. cbn [mbind option_bind]. unfold append_event. rewrite bool_decide_eq_true_2 by (cbn; set_solver).
  cbn [negb find_dedupe gate_before events List.find]. unfold Create, row_of. cbn [with_id with_sequence PayloadJSON].
  change (jsonb payload) with (kept_text payload). unfold kept_text. rewrite Hread. cbn [mbind option_bind existsb orb].
  match goal with |- context [fits ?e] => assert (fits e = true) as -> end; [|by do 2 eexists].
  unfold fits. cbn [with_id with_sequence Event_EventType DedupeKey Event_SubjectDigest PayloadDigest Event_ActorType Event_ActorID].
  rewrite (proj2 (Nat.leb_le _ _) Hkey), (proj2 (Nat.leb_le _ _) Hsub), (proj2 (Nat.leb_le _ _) Hdigest). vm_compute. reflexivity.
Qed.

Lemma gate_demo e l : RecordGateEvaluation 9%N 3%N (gate_input ["unit"; "Integration"]) 5000 gate_before = Some (e, true, l) →
  ∃ row p, row ∈ events l ∧ AuthorizeGateEvaluation row 3%N ActionRelease " cleo" 9000 1000000 = Some p.
Proof.
  intros Hr. destruct (gate_authorizes 9%N 3%N (gate_input ["unit"; "Integration"]) 5000 gate_before e l " cleo" 9000 1000000)
    as (row & p & Hin & _ & Ha & _).
  - apply reachable_inv, gate_reachable.
  - discriminate.
  - lia.
  - rewrite gate_canonical. apply gate_go_valid.
  - exact Hr.
  - rewrite gate_canonical. apply gate_allowed.
  - rewrite gate_canonical. reflexivity.
  - rewrite gate_canonical. apply gate_matches.
  - discriminate.
  - discriminate.
  - lia.
  - unfold Minute. lia.
  - lia.
  - exists row, p. split; [exact Hin|exact Ha].
Qed.
Lemma authorization_is_sound_witness : ∃ event input, stored_input event = Some input ∧ Input_Action input = ActionRelease.
Proof.
  destruct gate_recorded as (e & l & Hr). destruct (gate_demo e l Hr) as (row & p & _ & Ha).
  destruct (authorization_is_sound row 3%N ActionRelease " cleo" 9000 1000000 p Ha) as (_ & input & a & Hs & Hact & _).
  exists row, input. split; [exact Hs|exact Hact].
Defined.
Lemma recorded_gate_authorizes_witness :
  ∃ e l row p, RecordGateEvaluation 9%N 3%N (gate_input ["unit"; "Integration"]) 5000 gate_before = Some (e, true, l) ∧ row ∈ events l ∧
    AuthorizeGateEvaluation row 3%N ActionRelease " cleo" 9000 1000000 = Some p.
Proof.
  destruct gate_recorded as (e & l & Hr). exists e, l.
  destruct (recorded_gate_authorizes 9%N 3%N (gate_input ["unit"; "Integration"]) 5000 gate_before e l " cleo" 9000 1000000)
    as (row & p & Hin & _ & Ha & _).
  - apply gate_reachable.
  - discriminate.
  - lia.
  - rewrite gate_canonical. apply gate_go_valid.
  - exact Hr.
  - rewrite gate_canonical. apply gate_allowed.
  - rewrite gate_canonical. reflexivity.
  - rewrite gate_canonical. apply gate_matches.
  - discriminate.
  - discriminate.
  - lia.
  - unfold Minute. lia.
  - lia.
  - exists row, p. split; [exact Hr|]. split; [exact Hin|]. exact Ha.
Defined.
End Demo.
