(* ===== verification/GoInt.v ===== *)
(** * Go's int64 and float64

    [int64] wraps around.  A [float64] is a [spec_float]: its value is exact, and its
    operations are those of IEEE 754 binary64. *)
From stdpp Require Import base tactics list strings gmap.
From Stdlib Require Import Ascii ZArith SpecFloat.
From S2P Require Import Prelude GoStrings Json.
Open Scope string_scope.
Open Scope Z_scope.

Definition maxInt64 : Z := 2 ^ 63 - 1.
(** The value of an [int64] computation. *)
Definition int64 (z : Z) : Z := (z + 2 ^ 63) mod 2 ^ 64 - 2 ^ 63.
Definition is_int64 (z : Z) : Prop := - 2 ^ 63 ≤ z ≤ maxInt64.
Lemma int64_id z : is_int64 z → int64 z = z.
Proof. unfold is_int64, int64, maxInt64. intros Hz. rewrite Z.mod_small by lia. lia. Qed.
Lemma int64_range z : is_int64 (int64 z).
Proof. unfold is_int64, int64, maxInt64. pose proof (Z.mod_pos_bound (z + 2 ^ 63) (2 ^ 64)). lia. Qed.

(** [strconv.ParseInt(text, 10, 64)]: an optional sign and decimal digits. *)
Definition ParseInt64 (text : string) : option Z :=
  let '(negative, digits) :=
    match bytes text with
    | c :: r => if byte_is 45 c then (true, r) else if byte_is 43 c then (false, r) else (false, c :: r)
    | [] => (false, [])
    end in
  match digits with
  | [] => None
  | _ =>
      u ← uint_of digits;
      let z := if negative : bool then - Z.of_N (N.of_uint u) else Z.of_N (N.of_uint u) in
      if Z.leb (- 2 ^ 63) z && Z.leb z maxInt64 then Some z else None
  end.
Lemma ParseInt64_range text z : ParseInt64 text = Some z → is_int64 z.
Proof.
  unfold ParseInt64. destruct (match bytes text with [] => _ | _ => _ end) as [negative [|c r]]; [done|].
  intros (u & _ & Hz)%bind_Some. destruct (_ && _) eqn:Hr in Hz; [|done]. injection Hz as <-.
  unfold is_int64. lia.
Qed.

(** ** float64 *)

Definition float64 := spec_float.
(** [float64(z)] *)
Definition to_float (z : Z) : float64 := binary_normalize 53 1024 z 0 false.
Definition float_mul : float64 → float64 → float64 := SFmul 53 1024.
Definition float_div : float64 → float64 → float64 := SFdiv 53 1024.
(** The value without its fraction, [math.Trunc], of a finite number. *)
Definition truncated (f : float64) : option Z :=
  match f with
  | S754_zero _ => Some 0
  | S754_finite s m e =>
      let z := if Z.leb 0 e then Z.pos m * 2 ^ e else Z.pos m / 2 ^ (- e) in
      Some (if s then - z else z)
  | _ => None
  end.
Definition is_whole (f : float64) : bool :=
  match f with S754_zero _ => true | S754_finite _ m e => Z.leb 0 e || Z.eqb (Z.pos m mod 2 ^ (- e)) 0 | _ => false end.
Definition at_least_zero (f : float64) : bool := SFleb (S754_zero false) f.
