(* ===== verification/CostUsage.v ===== *)
(** * services/automationcost/usage.go: the token counts a provider reports

    Usage is decoded JSON (or a value a client library built): a Go [map[string]any].  The
    loops over [usageDetails] and over maps only decide which error is reported first, and
    errors carry no key here. *)
From stdpp Require Import base tactics list strings gmap.
From Stdlib Require Import Ascii SpecFloat.
From S2P Require Import Prelude GoStrings GoInt.
Open Scope string_scope.

(** An [any], as far as the package looks at it: a nil, an [int], an [int64], a [float64], a
    [json.Number], a [map[string]any], or a value of another type. *)
Inductive goany :=
| AnyNil | AnyInt (z : Z) | AnyInt64 (z : Z) | AnyFloat (f : float64) | AnyNumber (text : string)
| AnyMap (m : gmap string goany) | AnyOther.
Notation usage_map := (gmap string goany).

Inductive cost_error :=
| missing_identity | invalid_token_count | invalid_token_details | conflicting_aliases | missing_accounting
| cost_range | token_range | reasoning_exceeds_output | cache_misses_differ | cache_exceeds_input | total_inconsistent
| no_pricing | invalid_bounds | catalog_not_json | catalog_incomplete | catalog_rates.
Notation Res := (Result cost_error).

(** [mapValue]: a nil map reads as an empty one. *)
Definition mapValue (value : option goany) : usage_map := match value with Some (AnyMap m) => m | _ => ∅ end.
(** [m[key] != nil] *)
Definition not_nil (value : option goany) : bool := match value with None | Some AnyNil => false | _ => true end.

(** ** Keys *)

Definition usageKeys : list string :=
  ["input_tokens"; "prompt_tokens"; "prompt_token_count"; "output_tokens"; "completion_tokens"; "completion_token_count"; "total_tokens";
   "cache_read_input_tokens"; "cached_input_tokens"; "cache_read_tokens"; "cache_creation_input_tokens"; "cache_write_tokens";
   "prompt_cache_hit_tokens"; "prompt_cache_miss_tokens"; "reasoning_tokens"; "thinking_tokens"].
Definition cacheDetails : list string :=
  ["cached_tokens"; "cache_read_input_tokens"; "cache_write_tokens"; "cache_creation_input_tokens"; "cache_creation_tokens"].
Definition reasoningDetails : list string := ["reasoning_tokens"; "thinking_tokens"].
Definition usageDetails : list (string * list string) :=
  [("prompt_tokens_details", cacheDetails); ("input_tokens_details", cacheDetails);
   ("completion_tokens_details", reasoningDetails); ("output_tokens_details", reasoningDetails)].

Definition usageReported (raw : usage_map) (keys parents : list string) : bool :=
  existsb (λ key, bool_decide (is_Some (raw !! key))) keys ||
  existsb (λ parent, existsb (λ key, bool_decide (is_Some (mapValue (raw !! parent) !! key))) keys) parents.
Definition cache_keys : list string :=
  ["cache_read_input_tokens"; "cached_input_tokens"; "cache_read_tokens"; "prompt_cache_hit_tokens"; "cached_tokens"].
Definition cacheReported (raw : usage_map) : bool := usageReported raw cache_keys ["prompt_tokens_details"; "input_tokens_details"].
Definition reasoningReported (raw : usage_map) : bool :=
  usageReported raw reasoningDetails ["completion_tokens_details"; "output_tokens_details"].
Definition writesReported (raw : usage_map) : bool :=
  usageReported raw ["cache_write_tokens"; "cache_creation_input_tokens"; "cache_creation_tokens"] ["prompt_tokens_details"; "input_tokens_details"].

(** ** Counts *)

(** A count and whether it is valid; the count of an invalid number is never used. *)
Definition tokenCount (raw : option goany) : Z * bool :=
  match raw with
  | Some (AnyInt value) | Some (AnyInt64 value) => (value, Z.leb 0 value)
  | Some (AnyFloat value) =>
      match truncated value with
      | Some z => if at_least_zero value && Z.ltb z (2 ^ 63) && is_whole value then (z, true) else (0%Z, false)
      | None => (0%Z, false)
      end
  | Some (AnyNumber text) => match ParseInt64 text with Some z => (z, Z.leb 0 z) | None => (0%Z, false) end
  | _ => (0%Z, false)
  end.
Definition valid_count (raw : option goany) : bool := (tokenCount raw).2.
(** The counts of a map under some keys: present keys have valid counts. *)
Definition counts_valid (values : usage_map) (keys : list string) : bool :=
  forallb (λ key, match values !! key with None => true | value => valid_count value end) keys.

(** [TokenUsage] *)
Definition kept_counts (values : usage_map) (keys : list string) : usage_map :=
  list_to_map (omap (λ key, value ← values !! key; if valid_count (Some value) then Some (key, value) else None) keys).
Definition TokenUsage (raw : usage_map) : usage_map :=
  foldl (λ clean '(parent, keys),
    match raw !! parent with
    | Some (AnyMap child) =>
        let filtered := kept_counts child keys in
        if Nat.ltb 0 (size filtered) then <[parent := AnyMap filtered]> clean else clean
    | _ => clean
    end) (kept_counts raw usageKeys) usageDetails.

(** ** Validation *)

Definition details_valid (raw : usage_map) (detail : string * list string) : Res unit :=
  match raw !! detail.1 with
  | None | Some AnyNil => mret tt
  | Some (AnyMap child) => fail_if (negb (counts_valid child detail.2)) invalid_token_count
  | Some _ => Err invalid_token_details
  end.
Fixpoint each {A} (f : A → Res unit) (l : list A) : Res unit :=
  match l with [] => mret tt | x :: l => _ ← f x; each f l end.

(** The names of one quantity, and the maps it may be in. *)
Definition dimensions : list (list string * list string) :=
  [(["input_tokens"; "prompt_tokens"; "prompt_token_count"], []);
   (["output_tokens"; "completion_tokens"; "completion_token_count"], []);
   (cache_keys, ["input_tokens_details"; "prompt_tokens_details"]);
   (["cache_creation_input_tokens"; "cache_write_tokens"; "cache_creation_tokens"], ["input_tokens_details"; "prompt_tokens_details"]);
   (reasoningDetails, ["output_tokens_details"; "completion_tokens_details"])].
(** The values present, in the order of the loops. *)
Definition aliases (raw : usage_map) (dimension : list string * list string) : list goany :=
  let maps := raw :: ((λ parent, mapValue (raw !! parent)) <$> dimension.2) in
  maps ≫= λ values, omap (λ key, values !! key) dimension.1.
Fixpoint same_counts (previous : option Z) (values : list goany) : Res unit :=
  match values with
  | [] => mret tt
  | value :: rest =>
      let '(count, valid) := tokenCount (Some value) in
      if negb valid then Err invalid_token_count
      else if match previous with Some n => negb (Z.eqb count n) | None => false end then Err conflicting_aliases
      else same_counts (Some count) rest
  end.
Definition ValidateTokenUsage (raw : usage_map) : Res unit :=
  _ ← fail_if (negb (counts_valid raw usageKeys)) invalid_token_count;
  _ ← each (details_valid raw) usageDetails;
  each (λ dimension, same_counts None (aliases raw dimension)) dimensions.

Definition VerifyTokenUsage (raw : usage_map) : Res unit :=
  _ ← ValidateTokenUsage raw;
  fail_if (negb (forallb (existsb (λ key, bool_decide (is_Some (raw !! key))))
    [["input_tokens"; "prompt_tokens"; "prompt_token_count"]; ["output_tokens"; "completion_tokens"; "completion_token_count"]])) missing_accounting.

(** ** Reading *)

(** [int64(value)] of a float; out of range it is what amd64 gives. *)
Definition float_int64 (f : float64) : Z :=
  match truncated f with Some z => if Z.leb (- 2 ^ 63) z && Z.ltb z (2 ^ 63) then z else (- 2 ^ 63)%Z | None => (- 2 ^ 63)%Z end.
Fixpoint usageNumber (usage : usage_map) (keys : list string) : Z :=
  match keys with
  | [] => 0
  | key :: rest =>
      match usage !! key with
      | Some (AnyFloat value) => if at_least_zero value then float_int64 value else usageNumber usage rest
      | Some (AnyInt64 value) | Some (AnyInt value) => if Z.leb 0 value then value else usageNumber usage rest
      | Some (AnyNumber text) =>
          match ParseInt64 text with
          | Some result => if Z.leb 0 result then result else usageNumber usage rest
          | None => usageNumber usage rest
          end
      | _ => usageNumber usage rest
      end
  end.
