(* ===== verification/CostLedger.v ===== *)
(** * services/automationcost: what a provider call costs (ledger.go), sums and profiles of usage

    [Build] turns reported usage into a ledger in micro-dollars, [EstimateUpperBound] is the
    hold a project's budget takes before the call.  Sums and products are those of [int64].  The end is
    AggregateUsage (usage.go) and profile.go. *)
From stdpp Require Import base tactics list strings gmap.
From Stdlib Require Import Ascii SpecFloat ZArith.
From S2P Require Import Prelude GoStrings GoInt Json JsonTypes CostUsage.
Open Scope string_scope.

Definition perMillion : Z := 1000000.

Record Rates := {
  InputMicrosPerMillion : Z; OutputMicrosPerMillion : Z; CachedMicrosPerMillion : Z; CacheWriteMicrosPerMillion : Z;
}.
Definition noRates : Rates :=
  {| InputMicrosPerMillion := 0; OutputMicrosPerMillion := 0; CachedMicrosPerMillion := 0; CacheWriteMicrosPerMillion := 0 |}.
Record Catalog := { Version : string; Basis : string; Models : gmap string Rates }.
Record Ledger := {
  InputTokens : Z; OutputTokens : Z; CachedInputTokens : Z; CacheWriteTokens : Z; ReasoningTokens : Z; TotalTokens : Z;
  InputCostMicros : Z; OutputCostMicros : Z; CachedCostMicros : Z; CacheWriteCostMicros : Z; TotalCostMicros : Z;
  PricingBasis : string; PricingSnapshot : string;
}.

(** ** Arithmetic *)

Fixpoint sum_from (total : Z) (values : list Z) : Res Z :=
  match values with
  | [] => mret total
  | value :: rest => if Z.ltb value 0 || Z.ltb (int64 (maxInt64 - value)) total then Err cost_range else sum_from (int64 (total + value)) rest
  end.
Definition sumNonNegative : list Z → Res Z := sum_from 0.
Definition sumCost (values : list Z) : Res Z := sumNonNegative values.
Definition cost (tokens rate : Z) : Res Z :=
  if Z.leb tokens 0 || Z.leb rate 0 then mret 0%Z
  else if Z.ltb (Z.quot (int64 (maxInt64 - Z.quot perMillion 2)) rate) tokens then Err cost_range
  else mret (Z.quot (int64 (int64 (tokens * rate) + Z.quot perMillion 2)) perMillion).

(** ** The catalog *)

Definition rates (input output cached write : Z) : Rates :=
  {| InputMicrosPerMillion := input; OutputMicrosPerMillion := output; CachedMicrosPerMillion := cached; CacheWriteMicrosPerMillion := write |}.
Definition builtin : Catalog := {| Version := "official-text-prices-2026-09-23"; Basis := "official_api_price"; Models := list_to_map [
  ("minimax:minimax-m3", rates 600000 2400000 120000 0);
  ("minimax:minimax-m2.7", rates 300000 1200000 60000 375000);
  ("minimax:minimax-m2.7-highspeed", rates 600000 2400000 60000 375000);
  ("deepseek:deepseek-flash", rates 300000 1200000 6000 0);
  ("deepseek:deepseek-v4-pro", rates 1320000 3960000 44000 0);
  ("openai:gpt-6-astra", rates 5000000 25000000 500000 6250000);
  ("openai:gpt-6-sol", rates 1000000 5000000 100000 1250000);
  ("openai:gpt-6-luna", rates 50000 250000 5000 62500);
  ("openai:gpt-5.3-codex", rates 1750000 14000000 175000 0);
  ("anthropic:claude-opus-4-1-20250805", rates 15000000 75000000 1500000 18750000);
  ("anthropic:claude-opus-4-20250514", rates 15000000 75000000 1500000 18750000);
  ("anthropic:claude-sonnet-4-20250514", rates 3000000 15000000 300000 3750000);
  ("anthropic:claude-3-7-sonnet-20250219", rates 3000000 15000000 300000 3750000);
  ("anthropic:claude-3-5-haiku-20241022", rates 800000 4000000 80000 1000000)] |}.

(** [json.Unmarshal] into a [Catalog]: the entries of the map are decoded into fresh values. *)
Definition Rates_type : gotype := TStruct [(("input_microusd_per_million", false), TInt); (("output_microusd_per_million", false), TInt);
  (("cached_microusd_per_million", false), TInt); (("cache_write_microusd_per_million", false), TInt)].
Definition rates_of (g : govalue) : Rates :=
  match struct_values g with [GInt i; GInt o; GInt c; GInt w] => rates i o c w | _ => noRates end.
Fixpoint decode_models (members : list (string * jvalue)) (models : gmap string Rates) : option (gmap string Rates) :=
  match members with
  | [] => Some models
  | (key, v) :: rest => g ← decode false v Rates_type (zero Rates_type); decode_models rest (<[key := rates_of g]> models)
  end.
Fixpoint decode_catalog (members : list (string * jvalue)) (catalog : Catalog) : option Catalog :=
  match members with
  | [] => Some catalog
  | (key, v) :: rest =>
      catalog ←
        (if field_is "version" key then
           match v with
           | VNull => Some catalog
           | VString s => Some {| Version := s; Basis := Basis catalog; Models := Models catalog |}
           | _ => None
           end
         else if field_is "basis" key then
           match v with
           | VNull => Some catalog
           | VString s => Some {| Version := Version catalog; Basis := s; Models := Models catalog |}
           | _ => None
           end
         else if field_is "models" key then
           match v with
           | VNull => Some {| Version := Version catalog; Basis := Basis catalog; Models := ∅ |}
           | VObject entries =>
               models ← decode_models entries (Models catalog);
               Some {| Version := Version catalog; Basis := Basis catalog; Models := models |}
           | _ => None
           end
         else Some catalog);
      decode_catalog rest catalog
  end.
Definition UnmarshalCatalog (configured : string) : option Catalog :=
  v ← read_json configured;
  match v with
  | VNull => Some {| Version := ""; Basis := ""; Models := ∅ |}
  | VObject members => decode_catalog members {| Version := ""; Basis := ""; Models := ∅ |}
  | _ => None
  end.
Definition rate_valid (key : string) (rate : Rates) : bool :=
  negb (String.eqb (TrimSpace key) "") && Z.leb 0 (InputMicrosPerMillion rate) && Z.leb 0 (OutputMicrosPerMillion rate) &&
  Z.leb 0 (CachedMicrosPerMillion rate) && Z.leb 0 (CacheWriteMicrosPerMillion rate).
Definition catalogFor (configured : string) : Res Catalog :=
  if String.eqb (TrimSpace configured) "" then mret builtin
  else match UnmarshalCatalog configured with
       | None => Err catalog_not_json
       | Some catalog =>
           if String.eqb (TrimSpace (Version catalog)) "" || String.eqb (TrimSpace (Basis catalog)) "" || Nat.eqb (size (Models catalog)) 0
           then Err catalog_incomplete
           else if negb (forallb (λ '(key, rate), rate_valid key rate) (map_to_list (Models catalog))) then Err catalog_rates
           else mret catalog
       end.

Section Cost.
Context `{GoUnicode}.

Definition normal (name : string) : string := ToLower (TrimSpace name).
Definition rates_for (catalog : Catalog) (provider model : string) : option Rates :=
  match Models catalog !! (provider +:+ ":" +:+ model) with
  | Some r => Some r
  | None => Models catalog !! (provider +:+ ":*")
  end.
Definition RatesFor (provider model configured : string) : Res (Rates * bool) :=
  catalog ← catalogFor configured;
  match rates_for catalog (normal provider) (normal model) with
  | Some r => mret (r, true)
  | None => mret (noRates, false)
  end.

(** ** [Build] *)

Definition cached_names : list string := ["cached_tokens"; "cache_read_input_tokens"].
Definition write_names : list string := ["cache_write_tokens"; "cache_creation_input_tokens"; "cache_creation_tokens"].
(** A count, looked for in a map of details when it is zero. *)
Definition or_nested (usage : usage_map) (parent : string) (keys : list string) (count : Z) : Z :=
  if Z.eqb count 0 then usageNumber (mapValue (usage !! parent)) keys else count.
Definition cached_count (usage : usage_map) : Z :=
  or_nested usage "input_tokens_details" cached_names (or_nested usage "prompt_tokens_details" cached_names
    (usageNumber usage ["cache_read_input_tokens"; "cached_input_tokens"; "cache_read_tokens"; "prompt_cache_hit_tokens"])).
Definition write_count (usage : usage_map) : Z :=
  or_nested usage "input_tokens_details" write_names (or_nested usage "prompt_tokens_details" write_names
    (usageNumber usage ["cache_creation_input_tokens"; "cache_write_tokens"])).
Definition reasoning_count (usage : usage_map) : Z :=
  or_nested usage "output_tokens_details" reasoningDetails (or_nested usage "completion_tokens_details" reasoningDetails
    (usageNumber usage reasoningDetails)).
(** Messages usage counts cached tokens beside its input. *)
Definition input_excludes_cache (provider : string) (usage : usage_map) : bool :=
  (String.eqb provider "anthropic" || String.eqb provider "opencode-go") && negb (not_nil (usage !! "cached_input_tokens")) &&
  negb (not_nil (usage !! "prompt_tokens")) && negb (not_nil (usage !! "input_tokens_details")) &&
  (not_nil (usage !! "cache_creation_input_tokens") || not_nil (usage !! "cache_read_input_tokens")).
Definition misses_agree (usage : usage_map) (input : Z) : Res unit :=
  match usage !! "prompt_cache_hit_tokens", usage !! "prompt_cache_miss_tokens" with
  | Some hit, Some miss =>
      match sumNonNegative [(tokenCount (Some hit)).1; (tokenCount (Some miss)).1] with
      | Ok sum => fail_if (negb (Z.eqb sum input)) cache_misses_differ
      | Err _ => Err cache_misses_differ
      end
  | _, _ => mret tt
  end.
Definition rescued {A} (e : cost_error) (r : Res A) : Res A := match r with Ok a => Ok a | Err _ => Err e end.

Record counts := { n_input : Z; n_output : Z; n_cached : Z; n_write : Z; n_reasoning : Z; n_total : Z }.
(** The tokens of the ledger. *)
Definition count_tokens (provider : string) (usage : usage_map) : Res counts :=
  let cached := cached_count usage in
  let write := write_count usage in
  let reasoning := reasoning_count usage in
  let output := usageNumber usage ["output_tokens"; "completion_tokens"; "completion_token_count"] in
  let total := usageNumber usage ["total_tokens"] in
  input ←
    (let input := usageNumber usage ["input_tokens"; "prompt_tokens"; "prompt_token_count"] in
     if input_excludes_cache provider usage then sumNonNegative [input; cached; write] else mret input);
  _ ← fail_if (Z.ltb output reasoning) reasoning_exceeds_output;
  _ ← misses_agree usage input;
  minimumTotal ← rescued token_range (sumNonNegative [input; output]);
  let total := if Z.eqb total 0 then minimumTotal else total in
  cacheInput ← rescued cache_exceeds_input (sumNonNegative [cached; write]);
  _ ← fail_if (Z.ltb input cacheInput) cache_exceeds_input;
  _ ← fail_if (Z.ltb total minimumTotal) total_inconsistent;
  mret {| n_input := input; n_output := output; n_cached := cached; n_write := write; n_reasoning := reasoning; n_total := total |}.

Record charge := { c_input : Z; c_output : Z; c_cached : Z; c_write : Z; c_total : Z }.
Definition charge_for (n : counts) (r : Rates) : Res charge :=
  let billableInput := int64 (int64 (n_input n - n_cached n) - n_write n) in
  input ← cost billableInput (InputMicrosPerMillion r);
  output ← cost (n_output n) (OutputMicrosPerMillion r);
  cached ← cost (n_cached n) (CachedMicrosPerMillion r);
  write ← cost (n_write n) (CacheWriteMicrosPerMillion r);
  total ← sumCost [input; output; cached; write];
  mret {| c_input := input; c_output := output; c_cached := cached; c_write := write; c_total := total |}.
Definition no_charge : charge := {| c_input := 0; c_output := 0; c_cached := 0; c_write := 0; c_total := 0 |}.

Definition Rates_json (r : Rates) : json := JObject [
  ("input_microusd_per_million", JInt (InputMicrosPerMillion r)); ("output_microusd_per_million", JInt (OutputMicrosPerMillion r));
  ("cached_microusd_per_million", JInt (CachedMicrosPerMillion r)); ("cache_write_microusd_per_million", JInt (CacheWriteMicrosPerMillion r))].
(** [json.Marshal] of the snapshot: a map, so its keys are sorted. *)
Definition snapshot (catalog : Catalog) (provider model : string) (r : Rates) : string := Marshal (JObject [
  ("basis", JString (Basis catalog)); ("catalog_version", JString (Version catalog)); ("model", JString model);
  ("provider", JString provider); ("rates_microusd_per_million", Rates_json r)]).

Definition Build (provider model : string) (usage : usage_map) (configured : string) : Res Ledger :=
  let provider := normal provider in
  let model := normal model in
  _ ← fail_if (String.eqb provider "" || String.eqb model "") missing_identity;
  _ ← ValidateTokenUsage usage;
  catalog ← catalogFor configured;
  n ← count_tokens provider usage;
  let priced := rates_for catalog provider model in
  c ← match priced with Some r => charge_for n r | None => mret no_charge end;
  mret {|
    InputTokens := n_input n; OutputTokens := n_output n; CachedInputTokens := n_cached n; CacheWriteTokens := n_write n;
    ReasoningTokens := n_reasoning n; TotalTokens := n_total n;
    InputCostMicros := c_input c; OutputCostMicros := c_output c; CachedCostMicros := c_cached c; CacheWriteCostMicros := c_write c;
    TotalCostMicros := c_total c;
    PricingBasis := match priced with Some _ => Basis catalog | None => "unpriced" end;
    PricingSnapshot := snapshot catalog provider model (default noRates priced) |}.

(** ** [EstimateUpperBound] *)

Definition input_rate (r : Rates) : Z :=
  let inputRate := InputMicrosPerMillion r in
  let inputRate := if Z.ltb inputRate (CachedMicrosPerMillion r) then CachedMicrosPerMillion r else inputRate in
  if Z.ltb inputRate (CacheWriteMicrosPerMillion r) then CacheWriteMicrosPerMillion r else inputRate.
Definition EstimateUpperBound (provider model : string) (inputBytes maxCompletionTokens : Z) (configured : string) : Res Z :=
  let provider := normal provider in
  let model := normal model in
  _ ← fail_if (String.eqb provider "" || String.eqb model "" || Z.ltb inputBytes 0 || Z.ltb maxCompletionTokens 0) invalid_bounds;
  catalog ← catalogFor configured;
  match rates_for catalog provider model with
  | None => Err no_pricing
  | Some r =>
      inputCost ← cost inputBytes (input_rate r);
      outputCost ← cost maxCompletionTokens (OutputMicrosPerMillion r);
      sumCost [inputCost; outputCost]
  end.
End Cost.

(** ** Sums and profiles of usage *)

(** A catalog without prices. *)
Definition usageOnlyCatalog : string := Marshal (JObject
  [("version", JString "usage-only"); ("basis", JString "unpriced"); ("models", JObject [("usage-only:*", JObject [])])]).

Section Profile.
Context `{GoUnicode}.

(** ** [AggregateUsage] *)

Definition ledger_counts (l : Ledger) : list (string * Z) :=
  [("input_tokens", InputTokens l); ("output_tokens", OutputTokens l); ("total_tokens", TotalTokens l);
   ("cached_input_tokens", CachedInputTokens l); ("cache_write_tokens", CacheWriteTokens l); ("reasoning_tokens", ReasoningTokens l)].
Fixpoint add_counts (result : usage_map) (counts : list (string * Z)) : Res usage_map :=
  match counts with
  | [] => mret result
  | (key, count) :: rest =>
      let previous := (tokenCount (result !! key)).1 in
      total ← sumNonNegative [previous; count];
      add_counts (<[key := AnyInt64 total]> result) rest
  end.
Record known := { cacheKnown : bool; reasoningKnown : bool; writesKnown : bool }.
Definition all_known : known := {| cacheKnown := true; reasoningKnown := true; writesKnown := true |}.
Fixpoint add_calls (provider model : string) (calls : list usage_map) (k : known) (result : usage_map) : Res (known * usage_map) :=
  match calls with
  | [] => mret (k, result)
  | usage :: rest =>
      let k := {| cacheKnown := cacheKnown k && cacheReported usage; reasoningKnown := reasoningKnown k && reasoningReported usage;
                  writesKnown := writesKnown k && writesReported usage |} in
      ledger ← Build provider model usage usageOnlyCatalog;
      result ← add_counts result (ledger_counts ledger);
      add_calls provider model rest k result
  end.
Definition delete_unless (b : bool) (key : string) (m : usage_map) : usage_map := if b then m else delete key m.
Definition AggregateUsage (provider model : string) (calls : list usage_map) : Res usage_map :=
  '(k, result) ← add_calls provider model calls all_known ∅;
  mret (delete_unless (writesKnown k) "cache_write_tokens" (delete_unless (reasoningKnown k) "reasoning_tokens"
    (delete_unless (cacheKnown k) "cached_input_tokens" result))).

(** ** [Profile] *)

Record UsageProfile := {
  Profile_InputTokens : Z; Profile_OutputTokens : Z; Profile_CachedInputTokens : option Z; Profile_CacheWriteTokens : option Z;
  Profile_ReasoningTokens : option Z; AnswerTokens : option Z; CacheHitInputPercent : option float64; ReasoningOutputPercent : option float64;
  OutputTotalPercent : float64; OutputBudgetPercent : float64; NearOutputLimit : bool;
}.
(** [100 * float64(part) / float64(whole)] *)
Definition percent (part whole : Z) : float64 := float_div (float_mul (to_float 100) (to_float part)) (to_float whole).
Definition when {A} (b : bool) (a : A) : option A := if b then Some a else None.
Definition Profile (provider model : string) (usage : usage_map) (maxOutput : Z) : Res UsageProfile :=
  _ ← VerifyTokenUsage usage;
  ledger ← Build provider model usage usageOnlyCatalog;
  let budget := if Z.ltb 0 maxOutput then percent (OutputTokens ledger) maxOutput else S754_zero false in
  mret {|
    Profile_InputTokens := InputTokens ledger; Profile_OutputTokens := OutputTokens ledger;
    Profile_CachedInputTokens := when (cacheReported usage) (CachedInputTokens ledger);
    Profile_CacheWriteTokens := when (writesReported usage) (CacheWriteTokens ledger);
    Profile_ReasoningTokens := when (reasoningReported usage) (ReasoningTokens ledger);
    AnswerTokens := when (reasoningReported usage) (int64 (OutputTokens ledger - ReasoningTokens ledger));
    CacheHitInputPercent := when (cacheReported usage && Z.ltb 0 (InputTokens ledger)) (percent (CachedInputTokens ledger) (InputTokens ledger));
    ReasoningOutputPercent := when (reasoningReported usage && Z.ltb 0 (OutputTokens ledger)) (percent (ReasoningTokens ledger) (OutputTokens ledger));
    OutputTotalPercent := if Z.ltb 0 (TotalTokens ledger) then percent (OutputTokens ledger) (TotalTokens ledger) else S754_zero false;
    OutputBudgetPercent := budget;
    NearOutputLimit := Z.ltb 0 maxOutput && SFleb (to_float 90) budget |}.
End Profile.
