(* ===== verification/CostFacts.v ===== *)
(** * Facts about usage and costs: ranges of counts, exact sums and roundings; what costs promise *)
From stdpp Require Import base tactics list strings gmap.
From Stdlib Require Import Ascii SpecFloat ZArith.
From S2P Require Import Prelude GoStrings GoInt Json JsonTypes CostUsage CostLedger.
Open Scope string_scope.
Open Scope Z_scope.

(** ** Usage as Go can hold it *)

Definition go_int (value : goany) : Prop := match value with AnyInt z | AnyInt64 z => is_int64 z | _ => True end.
Definition go_counts (m : usage_map) : Prop := map_Forall (λ _ value, go_int value) m.
Definition go_usage (usage : usage_map) : Prop :=
  go_counts usage ∧ map_Forall (λ _ value, match value with AnyMap child => go_counts child | _ => True end) usage.
Lemma go_nested usage parent : go_usage usage → go_counts (mapValue (usage !! parent)).
Proof.
  intros [_ Hu]. unfold mapValue. destruct (usage !! parent) as [[]|] eqn:Hp; try apply map_Forall_empty.
  apply Hu in Hp. done.
Qed.

Definition is_count (z : Z) : Prop := 0 ≤ z ≤ maxInt64.
Lemma at_least_zero_truncated f z : at_least_zero f = true → truncated f = Some z → 0 ≤ z.
Proof.
  destruct f as [s|s| |s m e]; cbn; try done; [by intros _ [= <-]|]. destruct s; [done|]. intros _ [= <-].
  destruct (Z.leb_spec 0 e); [apply Z.mul_nonneg_nonneg; [lia|apply Z.pow_nonneg; lia]|]. apply Z.div_pos; [lia|]. apply Z.pow_pos_nonneg; lia.
Qed.
Lemma tokenCount_range value : go_int value → valid_count (Some value) = true → is_count (tokenCount (Some value)).1.
Proof.
  unfold valid_count, is_count, maxInt64. destruct value as [|z|z|f|text|m|]; cbn; try done.
  1,2: unfold is_int64, maxInt64; intros; lia.
  - intros _. destruct (truncated f) as [z|] eqn:Hz; [|done]. destruct (_ && _) eqn:Hv; [|done]. cbn. intros _.
    rewrite !andb_true_iff in Hv. destruct Hv as [[Hge Hlt] _]. apply Z.ltb_lt in Hlt. pose proof (at_least_zero_truncated _ _ Hge Hz). lia.
  - intros _. destruct (ParseInt64 text) as [z|] eqn:Hz; [|done]. cbn. apply ParseInt64_range in Hz. unfold is_int64, maxInt64 in Hz.
    intros ?%Z.leb_le. lia.
Qed.

(** Reading validated keys. *)
Lemma usageNumber_count usage keys : counts_valid usage keys = true →
  usageNumber usage keys = 0 ∨ ∃ key value, key ∈ keys ∧ usage !! key = Some value ∧ valid_count (Some value) = true ∧
    usageNumber usage keys = (tokenCount (Some value)).1.
Proof.
  induction keys as [|key keys IH]; [by left|]. unfold counts_valid. cbn [forallb usageNumber]. intros [Hk Hks]%andb_true_iff.
  assert (usageNumber usage keys = 0 ∨ ∃ key' value, key' ∈ key :: keys ∧ usage !! key' = Some value ∧ valid_count (Some value) = true ∧
    usageNumber usage keys = (tokenCount (Some value)).1) as Hrest.
  { destruct (IH Hks) as [|(key' & value & ? & ?)]; [by left|right]. exists key', value. split; [by right|done]. }
  destruct (usage !! key) as [value|] eqn:Hv; [|exact Hrest].
  destruct value as [|z|z|f|text|m|]; try exact Hrest; try done; right; exists key; eexists; (split; [by left|]); (split; [exact Hv|]);
    (split; [exact Hk|]); revert Hk; unfold valid_count; cbn.
  - by intros ->.
  - by intros ->.
  - destruct (truncated f) as [z|] eqn:Ht; [|done]. destruct (at_least_zero f) eqn:Hge; [|done]. cbn [andb]. unfold float_int64. rewrite Ht.
    destruct (Z.ltb z (2 ^ 63)) eqn:Hlt; [|done]. destruct (is_whole f); [|done]. cbn. intros _. pose proof (at_least_zero_truncated _ _ Hge Ht).
    by rewrite (proj2 (Z.leb_le _ _)) by lia.
  - destruct (ParseInt64 text) as [z|]; [|done]. cbn. by intros ->.
Qed.
Lemma usageNumber_range usage keys : go_counts usage → counts_valid usage keys = true → is_count (usageNumber usage keys).
Proof.
  intros Hgo [->|(key & value & _ & Hv & Hc & ->)]%usageNumber_count; [by unfold is_count, maxInt64|].
  apply tokenCount_range; [by eapply Hgo|done].
Qed.
Lemma counts_valid_sub usage keys keys' : forallb (λ key, bool_decide (key ∈ keys)) keys' = true → counts_valid usage keys = true →
  counts_valid usage keys' = true.
Proof.
  unfold counts_valid. rewrite !forallb_forall. intros Hsub Hv key Hin%Hsub%bool_decide_eq_true. apply Hv. by apply list_elem_of_In.
Qed.

(** ** Sums, exact or refused *)

Lemma sum_nonneg values : Forall (λ z, 0 ≤ z) values → 0 ≤ foldr Z.add 0 values.
Proof. induction 1; cbn; lia. Qed.
Lemma sum_from_ok total values s : is_count total → Forall is_int64 values →
  sum_from total values = Ok s ↔ Forall (λ z, 0 ≤ z) values ∧ s = total + foldr Z.add 0 values ∧ s ≤ maxInt64.
Proof.
  unfold is_count. revert total. induction values as [|z values IH]; intros total Ht Hv; cbn [sum_from foldr].
  - rewrite Z.add_0_r. split; [intros [= ->]; split_and!; [constructor|done|lia]|by intros (_ & -> & _)].
  - apply Forall_cons in Hv as [Hz Hv]. unfold is_int64, maxInt64 in *. rewrite Forall_cons. destruct (Z.ltb_spec z 0); [by split; [|lia]|].
    rewrite int64_id by (unfold is_int64, maxInt64; lia). destruct (Z.ltb_spec (2 ^ 63 - 1 - z) total); cbn [orb].
    + split; [done|]. intros ([_ Hs%sum_nonneg] & -> & Hle). lia.
    + rewrite int64_id by (unfold is_int64, maxInt64; lia). rewrite IH by (done || lia). split; [intros (? & -> & ?); split_and!; [done|done|lia|lia]|intros ([_ ?] & -> & ?); split_and!; [done|lia|lia]].
Qed.
Lemma sum_ok values s : Forall is_int64 values →
  sumNonNegative values = Ok s ↔ Forall (λ z, 0 ≤ z) values ∧ s = foldr Z.add 0 values ∧ s ≤ maxInt64.
Proof. intros Hv. unfold sumNonNegative. rewrite sum_from_ok by (done || by unfold is_count, maxInt64). by rewrite Z.add_0_l. Qed.

(** Micro-dollars, rounded to the nearest, halves up. *)
Definition rounded (tokens rate : Z) : Z := (tokens * rate + 500000) / 1000000.
Lemma rounded_range tokens rate : 0 ≤ tokens → 0 ≤ rate → 0 ≤ rounded tokens rate.
Proof. intros. unfold rounded. apply Z.div_pos; [|lia]. assert (0 ≤ tokens * rate) by (by apply Z.mul_nonneg_nonneg). lia. Qed.
Lemma cost_ok tokens rate c : is_count tokens → is_count rate →
  cost tokens rate = Ok c ↔ tokens * rate + 500000 ≤ maxInt64 ∧ c = rounded tokens rate.
Proof.
  unfold is_count, cost, rounded, perMillion. intros Ht Hr. change (Z.quot 1000000 2) with 500000.
  destruct (Z.leb_spec tokens 0) as [Ht0|Ht0]; cbn [orb].
  { replace tokens with 0 by lia. rewrite Z.mul_0_l. unfold maxInt64. cbn. split; [by intros [= <-]|by intros [_ ->]]. }
  destruct (Z.leb_spec rate 0) as [Hr0|Hr0].
  { replace rate with 0 by lia. rewrite Z.mul_0_r. unfold maxInt64. cbn. split; [by intros [= <-]|by intros [_ ->]]. }
  assert (0 < tokens * rate) as Hpos by (by apply Z.mul_pos_pos).
  rewrite (int64_id (maxInt64 - 500000)) by (unfold is_int64, maxInt64; lia). rewrite Z.quot_div_nonneg by (unfold maxInt64; lia).
  destruct (Z.ltb_spec ((maxInt64 - 500000) / rate) tokens) as [Hlt|Hge].
  - split; [done|]. intros [Hle _]. exfalso. apply Z.lt_nge in Hlt. apply Hlt. apply Z.div_le_lower_bound; [lia|]. rewrite Z.mul_comm. lia.
  - assert (tokens * rate + 500000 ≤ maxInt64) as Hle.
    { pose proof (Z.mul_div_le (maxInt64 - 500000) rate Hr0). assert (rate * tokens ≤ rate * ((maxInt64 - 500000) / rate)) by (apply Z.mul_le_mono_nonneg_l; lia). lia. }
    rewrite (int64_id (tokens * rate)) by (unfold is_int64, maxInt64 in *; lia).
    rewrite int64_id by (unfold is_int64, maxInt64 in *; lia). rewrite Z.quot_div_nonneg by lia. split; [by intros [= <-]|by intros [_ ->]].
Qed.
Lemma rounded_int64 tokens rate : 0 ≤ tokens → 0 ≤ rate → tokens * rate + 500000 ≤ maxInt64 → is_int64 (rounded tokens rate).
Proof.
  intros Ht Hr Hle. pose proof (rounded_range _ _ Ht Hr). unfold is_int64. split; [lia|].
  assert (rounded tokens rate ≤ tokens * rate + 500000); [|lia]. unfold rounded. apply Z.div_le_upper_bound; [lia|].
  assert (0 ≤ tokens * rate) by (by apply Z.mul_nonneg_nonneg). lia.
Qed.

(** ** Rates *)

Definition good_rates (r : Rates) : Prop := is_count (InputMicrosPerMillion r) ∧ is_count (OutputMicrosPerMillion r) ∧
  is_count (CachedMicrosPerMillion r) ∧ is_count (CacheWriteMicrosPerMillion r).
Definition int_value (g : govalue) : Prop := match g with GInt z => is_int64 z | _ => False end.
Lemma decode_int strict v old x : int_value old → decode strict v TInt old = Some x → int_value x.
Proof.
  intros Hold. destruct v; cbn; try done; [by intros [= <-]|]. intros (z & Hz & [= <-])%bind_Some.
  unfold ParseInt in Hz. apply bind_Some in Hz as (z' & _ & Hz). destruct (_ && _) eqn:Hr in Hz; [|done]. injection Hz as ->.
  cbn. unfold is_int64, maxInt64. lia.
Qed.
Lemma field_index_type key fs i t : field_index key fs = Some (i, t) → ∃ f, f ∈ fs ∧ t = f.2.
Proof.
  revert i. induction fs as [|f fs IH]; intros i; [done|]. cbn [field_index]. destruct (field_is _ _).
  - intros [= _ <-]. exists f. split; [by left|done].
  - intros ([j t'] & Hj & [= _ ->])%bind_Some. apply IH in Hj as (g & ? & ->). exists g. split; [by right|done].
Qed.
Lemma decode_members_ints strict fs members vals vals' : Forall (λ f, f.2 = TInt) fs → Forall int_value vals →
  decode_members strict fs members vals = Some vals' → Forall int_value vals'.
Proof.
  intros Hfs. revert vals. induction members as [|[key v] rest IH]; intros vals Hv; cbn [decode_members]; [by intros [= <-]|].
  destruct (field_index key fs) as [[i t]|] eqn:Hi.
  - apply field_index_type in Hi as (f & Hf & ->). rewrite Forall_forall in Hfs. rewrite (Hfs f Hf). intros (x & Hx & Hr)%bind_Some.
    apply (IH (<[i := x]> vals)); [|done]. apply Forall_insert; [done|]. apply decode_int in Hx; [done|].
    destruct (vals !! i) as [y|] eqn:Hy; cbn; [|by unfold is_int64, maxInt64]. by eapply Forall_lookup_1.
  - destruct strict; [done|]. by apply IH.
Qed.
Lemma decoded_rates v g key : decode false v Rates_type (zero Rates_type) = Some g → rate_valid key (rates_of g) = true → good_rates (rates_of g).
Proof.
  intros Hg Hv. assert (Forall int_value (struct_values g)) as Hints.
  { assert (Forall int_value (struct_values (zero Rates_type))) as H0 by (repeat constructor; cbn; unfold is_int64, maxInt64; lia).
    destruct v; try done; cbn [decode Rates_type] in Hg; [by injection Hg as <-|]. change (decode false (VObject fields) Rates_type (zero Rates_type) = Some g) in Hg.
    unfold Rates_type at 1 in Hg. rewrite decode_struct in Hg. apply bind_Some in Hg as (vals & Hvals & [= <-]). cbn [struct_values].
    eapply decode_members_ints; [|exact H0|exact Hvals]. by repeat constructor. }
  unfold rate_valid in Hv. rewrite !andb_true_iff, !Z.leb_le in Hv. destruct Hv as [[[[_ H1] H2] H3] H4]. revert H1 H2 H3 H4.
  unfold good_rates, is_count, rates_of. destruct (struct_values g) as [|[| |i| | |] [|[| |o| | |] [|[| |c| | |] [|[| |w| | |] [|]]]]]; cbn; unfold maxInt64; try lia.
  rewrite !Forall_cons in Hints. cbn in Hints. unfold is_int64, maxInt64 in Hints. lia.
Qed.
Lemma decode_models_rates members models models' : decode_models members models = Some models' →
  map_Forall (λ _ r, ∀ key, rate_valid key r = true → good_rates r) models →
  map_Forall (λ _ r, ∀ key, rate_valid key r = true → good_rates r) models'.
Proof.
  revert models. induction members as [|[key v] rest IH]; intros models; cbn [decode_models]; [by intros [= <-]|].
  intros (g & Hg & Hr)%bind_Some Hm. apply (IH _ Hr). apply map_Forall_insert_2; [|done]. intros key'. by apply (decoded_rates v).
Qed.
Lemma decode_catalog_rates members catalog catalog' : decode_catalog members catalog = Some catalog' →
  map_Forall (λ _ r, ∀ key, rate_valid key r = true → good_rates r) (Models catalog) →
  map_Forall (λ _ r, ∀ key, rate_valid key r = true → good_rates r) (Models catalog').
Proof.
  revert catalog. induction members as [|[key v] rest IH]; intros catalog; cbn [decode_catalog]; [by intros [= <-]|].
  intros (next & Hn & Hr)%bind_Some Hm. apply (IH _ Hr). destruct (field_is "version" key); [destruct v; try done; by injection Hn as <-|].
  destruct (field_is "basis" key); [destruct v; try done; by injection Hn as <-|]. destruct (field_is "models" key); [|by injection Hn as <-].
  destruct v; try done.
  - injection Hn as <-. apply map_Forall_empty.
  - apply bind_Some in Hn as (models & Hmodels & [= <-]). cbn. by eapply decode_models_rates.
Qed.
Lemma builtin_rates : map_Forall (λ _ r, good_rates r) (Models builtin).
Proof. apply (bool_decide_unpack _). vm_compute. exact I. Qed.
Lemma catalog_rates configured catalog : catalogFor configured = Ok catalog → map_Forall (λ _ r, good_rates r) (Models catalog).
Proof.
  unfold catalogFor. destruct (String.eqb _ _); [intros [= <-]; apply builtin_rates|]. destruct (UnmarshalCatalog configured) as [c|] eqn:Hc; [|done].
  destruct (_ || _ || _); [done|]. destruct (forallb _ _) eqn:Hall; [|done]. intros [= <-]. unfold UnmarshalCatalog in Hc.
  apply bind_Some in Hc as (v & _ & Hc). assert (map_Forall (λ _ r, ∀ key, rate_valid key r = true → good_rates r) (Models c)) as Hm.
  { destruct v; try done; [injection Hc as <-; apply map_Forall_empty|]. eapply decode_catalog_rates; [exact Hc|]. apply map_Forall_empty. }
  intros key r Hr. apply (Hm key r Hr key). rewrite forallb_forall in Hall. apply (Hall (key, r)). by apply list_elem_of_In, elem_of_map_to_list.
Qed.

(** ** What the ledger counts *)

Section Counts.
Context `{GoUnicode}.

Lemma rates_for_good configured catalog provider model r : catalogFor configured = Ok catalog → rates_for catalog provider model = Some r → good_rates r.
Proof.
  intros Hc%catalog_rates. unfold rates_for. destruct (Models catalog !! _) as [r'|] eqn:Hr; [intros [= <-]|]; intros; by eapply Hc.
Qed.
Lemma each_ok {A} (f : A → Res unit) l u : each f l = Ok u ↔ ∀ x, x ∈ l → f x = Ok tt.
Proof.
  induction l as [|x l IH]; cbn [each].
  - destruct u. split; [by intros _ ? ?%not_elem_of_nil|done].
  - rewrite bind_ok. setoid_rewrite IH. setoid_rewrite elem_of_cons. split.
    + intros ([] & Hx & Hl) y [->|Hy]; [done|by apply Hl].
    + intros Hall. exists tt. split; [apply Hall; by left|]. intros y Hy. apply Hall. by right.
Qed.
(** What validation says of the keys the ledger reads. *)
Lemma validated usage u : ValidateTokenUsage usage = Ok u → counts_valid usage usageKeys = true ∧
  ∀ detail, detail ∈ usageDetails → counts_valid (mapValue (usage !! detail.1)) detail.2 = true.
Proof.
  unfold ValidateTokenUsage. intros (? & Hk%fail_if_ok%negb_false_iff & (? & Hd & _)%bind_ok)%bind_ok. split; [done|].
  intros detail Hin. rewrite each_ok in Hd. specialize (Hd detail Hin). unfold details_valid in Hd. unfold mapValue.
  assert (∀ keys, counts_valid ∅ keys = true) as Hempty by (intros keys; unfold counts_valid; apply forallb_forall; intros key _; by rewrite lookup_empty).
  destruct (usage !! detail.1) as [[]|]; try done; try apply Hempty. by apply fail_if_ok, negb_false_iff in Hd.
Qed.
Lemma count_range usage keys u : go_usage usage → ValidateTokenUsage usage = Ok u →
  forallb (λ key, bool_decide (key ∈ usageKeys)) keys = true → is_count (usageNumber usage keys).
Proof. intros [Hgo _] [Hv _]%validated Hk. apply usageNumber_range; [done|]. by eapply counts_valid_sub. Qed.
Lemma nested_range usage parent keys keys' count u : go_usage usage → ValidateTokenUsage usage = Ok u → (parent, keys') ∈ usageDetails →
  forallb (λ key, bool_decide (key ∈ keys')) keys = true → is_count count → is_count (or_nested usage parent keys count).
Proof.
  intros Hgo [_ Hv]%validated Hp Hk Hc. unfold or_nested. destruct (Z.eqb count 0); [|done].
  apply usageNumber_range; [by apply go_nested|]. eapply counts_valid_sub; [exact Hk|]. by apply (Hv _ Hp).
Qed.
Lemma cached_range usage u : go_usage usage → ValidateTokenUsage usage = Ok u → is_count (cached_count usage).
Proof.
  intros Hgo Hv. unfold cached_count. eapply (nested_range _ _ _ cacheDetails); [done..|by right; left|reflexivity|].
  eapply (nested_range _ _ _ cacheDetails); [done..|by left|reflexivity|]. by eapply count_range.
Qed.
Lemma write_range usage u : go_usage usage → ValidateTokenUsage usage = Ok u → is_count (write_count usage).
Proof.
  intros Hgo Hv. unfold write_count. eapply (nested_range _ _ _ cacheDetails); [done..|by right; left|reflexivity|].
  eapply (nested_range _ _ _ cacheDetails); [done..|by left|reflexivity|]. by eapply count_range.
Qed.
Lemma reasoning_range usage u : go_usage usage → ValidateTokenUsage usage = Ok u → is_count (reasoning_count usage).
Proof.
  intros Hgo Hv. unfold reasoning_count. eapply (nested_range _ _ _ reasoningDetails); [done..|by right; right; right; left|reflexivity|].
  eapply (nested_range _ _ _ reasoningDetails); [done..|by right; right; left|reflexivity|]. by eapply count_range.
Qed.

Record consistent (n : counts) : Prop := {
  counts_nonneg : 0 ≤ n_cached n ∧ 0 ≤ n_write n ∧ 0 ≤ n_reasoning n;
  counts_cache : n_cached n + n_write n ≤ n_input n;
  counts_reasoning : n_reasoning n ≤ n_output n;
  counts_total : n_input n + n_output n ≤ n_total n ≤ maxInt64;
}.
Lemma counts_consistent input output cached write reasoning total :
  is_count cached → is_count write → is_count reasoning → is_count total → cached + write ≤ input → reasoning ≤ output → input + output ≤ maxInt64 →
  input + output ≤ (if Z.eqb total 0 then input + output else total) →
  consistent {| n_input := input; n_output := output; n_cached := cached; n_write := write; n_reasoning := reasoning;
    n_total := if Z.eqb total 0 then input + output else total |}.
Proof.
  unfold is_count. intros Hc Hw Hr Ht H1 H2 H3 H4. constructor; cbn [n_cached n_write n_reasoning n_output n_input n_total]; [lia|lia|lia|].
  destruct (Z.eqb total 0); lia.
Qed.
Lemma rescued_ok {A} e (r : Res A) a : rescued e r = Ok a ↔ r = Ok a.
Proof. by destruct r. Qed.
Lemma sum_two a b s : is_count a → is_count b → sumNonNegative [a; b] = Ok s ↔ s = a + b ∧ s ≤ maxInt64.
Proof.
  unfold is_count. intros Ha Hb. rewrite sum_ok by (repeat constructor; unfold is_int64; lia). cbn. rewrite Z.add_0_r.
  split; [by intros (_ & -> & ?)|intros [-> ?]; split; [repeat constructor; lia|done]].
Qed.
Lemma count_tokens_ok provider usage u n : go_usage usage → ValidateTokenUsage usage = Ok u → count_tokens provider usage = Ok n →
  consistent n ∧ n_cached n = cached_count usage ∧ n_write n = write_count usage ∧ n_reasoning n = reasoning_count usage ∧
  n_output n = usageNumber usage ["output_tokens"; "completion_tokens"; "completion_token_count"] ∧
  n_input n = usageNumber usage ["input_tokens"; "prompt_tokens"; "prompt_token_count"] +
    (if input_excludes_cache provider usage then cached_count usage + write_count usage else 0).
Proof.
  intros Hgo Hv. unfold count_tokens.
  assert (is_count (usageNumber usage ["output_tokens"; "completion_tokens"; "completion_token_count"])) as Hout by by eapply count_range.
  assert (is_count (usageNumber usage ["total_tokens"])) as Htot by by eapply count_range.
  assert (is_count (usageNumber usage ["input_tokens"; "prompt_tokens"; "prompt_token_count"])) as Hin by by eapply count_range.
  pose proof (cached_range _ _ Hgo Hv) as Hc. pose proof (write_range _ _ Hgo Hv) as Hw. pose proof (reasoning_range _ _ Hgo Hv) as Hr.
  intros (input & Hinput & H1)%bind_ok. apply bind_ok in H1 as (? & Hreason%fail_if_ok%Z.ltb_ge & H1). apply bind_ok in H1 as (? & _ & H1).
  apply bind_ok in H1 as (minimum & Hmin%rescued_ok & H1). apply bind_ok in H1 as (cache & Hcache%rescued_ok & H1).
  apply bind_ok in H1 as (? & Hci%fail_if_ok%Z.ltb_ge & H1). apply bind_ok in H1 as (? & Hti%fail_if_ok%Z.ltb_ge & [= <-]). cbn [n_cached n_write n_reasoning n_output n_input n_total].
  assert (is_count input ∧ input = usageNumber usage ["input_tokens"; "prompt_tokens"; "prompt_token_count"] +
    (if input_excludes_cache provider usage then cached_count usage + write_count usage else 0)) as [Hi ->].
  { destruct (input_excludes_cache provider usage); [|injection Hinput as <-; by rewrite Z.add_0_r].
    unfold is_count in *. apply sum_ok in Hinput as (_ & -> & Hle); [|repeat constructor; unfold is_int64; lia]. cbn [foldr] in Hle |- *. rewrite Z.add_0_r in *. lia. }
  apply sum_two in Hmin as [-> Hmin]; [|done..]. apply sum_two in Hcache as [-> Hcache]; [|done..]. unfold is_count in *.
  split; [by apply counts_consistent|done].
Qed.

(** The charge of consistent counts, exact. *)
Record exact_charge (n : counts) (r : Rates) (c : charge) : Prop := {
  exact_input : c_input c = rounded (n_input n - n_cached n - n_write n) (InputMicrosPerMillion r);
  exact_output : c_output c = rounded (n_output n) (OutputMicrosPerMillion r);
  exact_cached : c_cached c = rounded (n_cached n) (CachedMicrosPerMillion r);
  exact_write : c_write c = rounded (n_write n) (CacheWriteMicrosPerMillion r);
  exact_total : c_total c = c_input c + c_output c + c_cached c + c_write c ∧ 0 ≤ c_total c ≤ maxInt64;
}.
Lemma charge_exact n r c : consistent n → good_rates r → charge_for n r = Ok c → exact_charge n r c.
Proof.
  intros [(Hc & Hw & Hr) Hcache Hreason Htotal] (R1 & R2 & R3 & R4). unfold charge_for.
  assert (is_count (n_input n - n_cached n - n_write n) ∧ is_count (n_output n) ∧ is_count (n_cached n) ∧ is_count (n_write n)) as (T1 & T2 & T3 & T4).
  { unfold is_count. lia. }
  rewrite (int64_id (n_input n - n_cached n)), int64_id by (unfold is_int64, is_count in *; lia).
  intros (input & [Li ->]%cost_ok & H1)%bind_ok; [|done..]. apply bind_ok in H1 as (output & [Lo ->]%cost_ok & H1); [|done..].
  apply bind_ok in H1 as (cached & [Lc ->]%cost_ok & H1); [|done..]. apply bind_ok in H1 as (write & [Lw ->]%cost_ok & H1); [|done..].
  apply bind_ok in H1 as (total & Ht & [= <-]). unfold is_count in *.
  apply sum_ok in Ht as (Hnn & -> & Hle); [|repeat constructor; apply rounded_int64; lia]. cbn in Hle |- *. rewrite !Forall_cons in Hnn.
  split; cbn; try done. rewrite Z.add_0_r in *. lia.
Qed.
End Counts.

(** ** What costs promise

    [charge_is_exact]: a ledger that is built adds up, without wrapping around.
    [hold_covers_charge]: how far the hold of a budget covers the charge of the call. *)

Section Cost.
Context `{GoUnicode}.

(** The parts of a successful [Build]. *)
Lemma Build_ok provider model usage configured l : Build provider model usage configured = Ok l → go_usage usage →
  ∃ catalog n c, catalogFor configured = Ok catalog ∧ ValidateTokenUsage usage = Ok tt ∧ count_tokens (normal provider) usage = Ok n ∧ consistent n ∧
    InputTokens l = n_input n ∧ OutputTokens l = n_output n ∧ CachedInputTokens l = n_cached n ∧ CacheWriteTokens l = n_write n ∧
    ReasoningTokens l = n_reasoning n ∧ TotalTokens l = n_total n ∧ InputCostMicros l = c_input c ∧ OutputCostMicros l = c_output c ∧
    CachedCostMicros l = c_cached c ∧ CacheWriteCostMicros l = c_write c ∧ TotalCostMicros l = c_total c ∧
    match rates_for catalog (normal provider) (normal model) with
    | Some r => good_rates r ∧ exact_charge n r c ∧ PricingBasis l = Basis catalog
    | None => c = no_charge ∧ PricingBasis l = "unpriced"
    end.
Proof.
  unfold Build. intros (? & _ & H1)%bind_ok Hgo. apply bind_ok in H1 as ([] & Hv & H1). apply bind_ok in H1 as (catalog & Hcat & H1).
  apply bind_ok in H1 as (n & Hn & H1). apply bind_ok in H1 as (c & Hc & [= <-]). exists catalog, n, c.
  destruct (count_tokens_ok _ _ _ _ Hgo Hv Hn) as (Hcons & _). split_and!; try done.
  destruct (rates_for catalog (normal provider) (normal model)) as [r|] eqn:Hr; [|by injection Hc as <-].
  pose proof (rates_for_good _ _ _ _ _ Hcat Hr) as Hgood. split; [done|]. split; [by apply charge_exact|done].
Qed.

(** C28: a ledger adds up.  For usage as a Go value can hold it, a ledger that [Build] gives has counts that fit together,
    and either no price or charges that are the exact products of the catalog's rates, rounded to the nearest
    micro-dollar, and whose sum is in the range of an int64: nothing wrapped around. *)
Theorem charge_is_exact provider model usage configured l : go_usage usage → Build provider model usage configured = Ok l →
  0 ≤ CachedInputTokens l ∧ 0 ≤ CacheWriteTokens l ∧ CachedInputTokens l + CacheWriteTokens l ≤ InputTokens l ∧
  0 ≤ ReasoningTokens l ≤ OutputTokens l ∧ InputTokens l + OutputTokens l ≤ TotalTokens l ≤ maxInt64 ∧
  TotalCostMicros l = InputCostMicros l + OutputCostMicros l + CachedCostMicros l + CacheWriteCostMicros l ∧ 0 ≤ TotalCostMicros l ≤ maxInt64 ∧
  ∃ catalog, catalogFor configured = Ok catalog ∧
    match rates_for catalog (normal provider) (normal model) with
    | Some r =>
        InputCostMicros l = rounded (InputTokens l - CachedInputTokens l - CacheWriteTokens l) (InputMicrosPerMillion r) ∧
        OutputCostMicros l = rounded (OutputTokens l) (OutputMicrosPerMillion r) ∧
        CachedCostMicros l = rounded (CachedInputTokens l) (CachedMicrosPerMillion r) ∧
        CacheWriteCostMicros l = rounded (CacheWriteTokens l) (CacheWriteMicrosPerMillion r) ∧ PricingBasis l = Basis catalog
    | None => TotalCostMicros l = 0 ∧ PricingBasis l = "unpriced"
    end.
Proof.
  intros Hgo Hb. destruct (Build_ok _ _ _ _ _ Hb Hgo) as (catalog & n & c & Hcat & _ & _ & [Hnn Hcache Hreason Htotal] & -> & -> & -> & -> & -> & -> & -> & -> & -> & -> & -> & Hp).
  destruct (rates_for catalog (normal provider) (normal model)) as [r|] eqn:Hr.
  - destruct Hp as (_ & [E1 E2 E3 E4 E5] & Hbasis). split_and!; try lia. exists catalog. split; [done|]. by rewrite Hr.
  - destruct Hp as [-> Hbasis]. unfold no_charge, maxInt64 in *. cbn. split_and!; try lia. exists catalog. split; [done|]. by rewrite Hr.
Qed.

(** ** The hold of a budget *)

Lemma rounded_mono t t' r r' : 0 ≤ t ≤ t' → 0 ≤ r ≤ r' → rounded t r ≤ rounded t' r'.
Proof. intros Ht Hr. unfold rounded. apply Z.div_le_mono; [lia|]. assert (t * r ≤ t' * r') by (apply Z.mul_le_mono_nonneg; lia). lia. Qed.
(** Three parts that are rounded one by one exceed their rounded sum by one at most. *)
Lemma rounded_split a b c r : rounded a r + rounded b r + rounded c r ≤ rounded (a + b + c) r + 1.
Proof. unfold rounded. rewrite !Z.mul_add_distr_r. generalize (a * r) (b * r) (c * r). intros x y z. Z.to_euclidean_division_equations. lia. Qed.
Lemma rounded_zero r : rounded 0 r = 0.
Proof. unfold rounded. by rewrite Z.mul_0_l. Qed.
(** They exceed it only if at least two of them are there. *)
Lemma rounded_whole a b c r : (b = 0 ∧ c = 0) ∨ (a = 0 ∧ c = 0) ∨ (a = 0 ∧ b = 0) →
  rounded a r + rounded b r + rounded c r = rounded (a + b + c) r.
Proof.
  intros [[-> ->]|[[-> ->]|[-> ->]]]; rewrite !rounded_zero, ?Z.add_0_l, ?Z.add_0_r; done.
Qed.
Lemma input_rate_max r : good_rates r → is_count (input_rate r) ∧ InputMicrosPerMillion r ≤ input_rate r ∧
  CachedMicrosPerMillion r ≤ input_rate r ∧ CacheWriteMicrosPerMillion r ≤ input_rate r.
Proof.
  intros (H1 & _ & H2 & H3). unfold input_rate. destruct (Z.ltb_spec (InputMicrosPerMillion r) (CachedMicrosPerMillion r)).
  - destruct (Z.ltb_spec (CachedMicrosPerMillion r) (CacheWriteMicrosPerMillion r)); unfold is_count in *; split_and!; lia.
  - destruct (Z.ltb_spec (InputMicrosPerMillion r) (CacheWriteMicrosPerMillion r)); unfold is_count in *; split_and!; lia.
Qed.
Lemma hold_bound n r c inputBytes maxOutput hold : consistent n → good_rates r → exact_charge n r c →
  n_input n ≤ inputBytes ≤ maxInt64 → n_output n ≤ maxOutput ≤ maxInt64 →
  (input ← cost inputBytes (input_rate r); output ← cost maxOutput (OutputMicrosPerMillion r); sumCost [input; output]) = Ok hold →
  c_total c ≤ hold ∨ c_total c = hold + 1 ∧ 0 < n_cached n + n_write n ∧ n_cached n ≠ n_input n ∧ n_write n ≠ n_input n.
Proof.
  intros [Hnn Hcache Hreason Htotal] Hr [E1 E2 E3 E4 [E5 _]] Hi Ho (x & Hx & (y & Hy & Hs)%bind_ok)%bind_ok.
  destruct (input_rate_max r Hr) as (Hmax & M1 & M2 & M3). destruct Hr as (R1 & R2 & R3 & R4). unfold is_count in *.
  apply cost_ok in Hx as [Lx ->]; [|unfold is_count; lia..]. apply cost_ok in Hy as [Ly ->]; [|unfold is_count; lia..].
  apply sum_ok in Hs as (_ & -> & _); [|repeat constructor; apply rounded_int64; lia]. cbn [foldr]. rewrite Z.add_0_r, E5, E1, E2, E3, E4.
  assert (rounded (n_input n - n_cached n - n_write n) (InputMicrosPerMillion r) ≤ rounded (n_input n - n_cached n - n_write n) (input_rate r)) by (apply rounded_mono; lia).
  assert (rounded (n_cached n) (CachedMicrosPerMillion r) ≤ rounded (n_cached n) (input_rate r)) by (apply rounded_mono; lia).
  assert (rounded (n_write n) (CacheWriteMicrosPerMillion r) ≤ rounded (n_write n) (input_rate r)) by (apply rounded_mono; lia).
  assert (rounded (n_input n) (input_rate r) ≤ rounded inputBytes (input_rate r)) by (apply rounded_mono; lia).
  assert (rounded (n_output n) (OutputMicrosPerMillion r) ≤ rounded maxOutput (OutputMicrosPerMillion r)) by (apply rounded_mono; lia).
  pose proof (rounded_split (n_input n - n_cached n - n_write n) (n_cached n) (n_write n) (input_rate r)) as Hsplit.
  replace (n_input n - n_cached n - n_write n + n_cached n + n_write n) with (n_input n) in Hsplit by lia.
  pose proof (rounded_whole (n_input n - n_cached n - n_write n) (n_cached n) (n_write n) (input_rate r)) as Hwhole.
  replace (n_input n - n_cached n - n_write n + n_cached n + n_write n) with (n_input n) in Hwhole by lia. lia.
Qed.

(** The call of the example: five plain input tokens and four that are written to the cache. *)
Definition split_usage : usage_map := <["input_tokens" := AnyInt 9]> (<["cache_write_tokens" := AnyInt 4]> (<["output_tokens" := AnyInt 0]> ∅)).
Lemma split_go_usage : go_usage split_usage.
Proof. split; repeat (apply map_Forall_insert_2; [cbn; unfold is_int64, maxInt64; lia || done|]); apply map_Forall_empty. Qed.
Lemma hold_can_fall_short : EstimateUpperBound "minimax" "minimax-m2.7" 9 0 "" = Ok 3 ∧
  ∃ l, Build "minimax" "minimax-m2.7" split_usage "" = Ok l ∧ InputTokens l = 9 ∧ OutputTokens l = 0 ∧ TotalCostMicros l = 4.
Proof. split; [vm_compute; reflexivity|]. eexists. split_and!; vm_compute; reflexivity. Qed.

(** A call within the bounds its hold was taken for: no more input tokens than bytes, no more output tokens than the limit. *)
Definition within_hold (inputBytes maxCompletionTokens : Z) (l : Ledger) : Prop :=
  InputTokens l ≤ inputBytes ≤ maxInt64 ∧ OutputTokens l ≤ maxCompletionTokens ≤ maxInt64.

(** C37: the hold of a budget covers the call, short of one micro-dollar.  For every provider, model, catalog and usage, a
    call within the bounds of its hold is charged at most the hold, or exactly one micro-dollar more; more only if its
    input is split between plain, cached and cache-write tokens, whose charges are rounded one by one.  The second case
    occurs, with the built-in prices. *)
Theorem hold_covers_charge :
  (∀ provider model inputBytes maxCompletionTokens configured hold usage l,
     EstimateUpperBound provider model inputBytes maxCompletionTokens configured = Ok hold → go_usage usage →
     Build provider model usage configured = Ok l → within_hold inputBytes maxCompletionTokens l →
     TotalCostMicros l ≤ hold ∨
     TotalCostMicros l = hold + 1 ∧ 0 < CachedInputTokens l + CacheWriteTokens l ∧
       CachedInputTokens l ≠ InputTokens l ∧ CacheWriteTokens l ≠ InputTokens l) ∧
  ∃ provider model inputBytes maxCompletionTokens hold usage l,
    EstimateUpperBound provider model inputBytes maxCompletionTokens "" = Ok hold ∧ go_usage usage ∧
    Build provider model usage "" = Ok l ∧ within_hold inputBytes maxCompletionTokens l ∧ TotalCostMicros l = hold + 1.
Proof.
  split.
  - intros provider model inputBytes maxCompletionTokens configured hold usage l He Hgo Hb [Hi Ho].
    destruct (Build_ok _ _ _ _ _ Hb Hgo) as (catalog & n & c & Hcat & _ & _ & Hn & Ti & To & Tk & Tw & _ & _ & _ & _ & _ & _ & Tc & Hp).
    rewrite Ti in Hi. rewrite To in Ho. rewrite Tc, Ti, Tk, Tw. unfold EstimateUpperBound in He. apply bind_ok in He as (? & _ & He).
    rewrite Hcat in He. cbn [mbind result_mbind result_bind] in He.
    destruct (rates_for catalog (normal provider) (normal model)) as [r|]; [|done]. destruct Hp as (Hgood & Hexact & _).
    by eapply hold_bound.
  - destruct hold_can_fall_short as (He & l & Hb & Hi & Ho & Ht). exists "minimax", "minimax-m2.7", 9, 0, 3, split_usage, l.
    split_and!; [done|exact split_go_usage|done|split; rewrite ?Hi, ?Ho; unfold maxInt64; lia|done].
Qed.
End Cost.

(** ** The example *)

Section Demo.
#[local] Existing Instance ascii_only.

(** A call of one million input tokens, half of them cached, as JSON numbers and Go integers. *)
Definition demo_usage : usage_map := <["prompt_tokens" := AnyFloat (to_float 1000000)]> (<["completion_tokens" := AnyInt64 1000000]>
  (<["prompt_tokens_details" := AnyMap {["cached_tokens" := AnyNumber "500000"]}]> ∅)).
Lemma demo_go_usage : go_usage demo_usage.
Proof.
  split; repeat (apply map_Forall_insert_2; [cbn; unfold is_int64, maxInt64; lia || done|]); try apply map_Forall_empty.
  apply map_Forall_insert_2; [by apply map_Forall_singleton|apply map_Forall_empty].
Qed.
Lemma charge_is_exact_witness : ∃ l, Build "minimax" "MiniMax-M3" demo_usage "" = Ok l ∧ CachedInputTokens l = 500000 ∧
  CachedInputTokens l + CacheWriteTokens l ≤ InputTokens l ∧ TotalCostMicros l = 2760000.
Proof.
  destruct (Build "minimax" "MiniMax-M3" demo_usage "") as [l|e] eqn:Hb; [|vm_compute in Hb; discriminate Hb].
  exists l. destruct (charge_is_exact "minimax" "MiniMax-M3" demo_usage "" l demo_go_usage Hb) as (_ & _ & Hc & _).
  split; [reflexivity|]. revert Hc. vm_compute in Hb. injection Hb as <-. intros Hc. split; [reflexivity|]. split; [exact Hc|reflexivity].
Defined.
Lemma hold_covers_charge_witness : ∃ l, Build "minimax" "MiniMax-M3" demo_usage "" = Ok l ∧ TotalCostMicros l ≤ 7200001.
Proof.
  destruct (Build "minimax" "MiniMax-M3" demo_usage "") as [l|e] eqn:Hb; [|vm_compute in Hb; discriminate Hb].
  exists l. split; [reflexivity|].
  assert (EstimateUpperBound "minimax" "MiniMax-M3" 4000000 2000000 "" = Ok 7200000) as He by (vm_compute; reflexivity).
  assert (within_hold 4000000 2000000 l) as Hw.
  { vm_compute in Hb. injection Hb as <-. split; cbn; unfold maxInt64; lia. }
  destruct (proj1 hold_covers_charge "minimax" "MiniMax-M3" 4000000 2000000 "" 7200000 demo_usage l He demo_go_usage Hb Hw) as [H|[H _]]; lia.
Defined.
End Demo.
