(* ===== verification/CostAggregate.v ===== *)
(** * Sums of usage are usage: [aggregate_is_the_sum]

    The result of [AggregateUsage] is usage again, and [Build] reads the sums of the calls from
    it, so that calls can be summed in groups. *)
From stdpp Require Import base tactics list strings gmap.
From Stdlib Require Import Ascii SpecFloat ZArith.
From S2P Require Import Prelude GoStrings GoInt Json JsonTypes CostUsage CostLedger CostFacts.
Open Scope string_scope.
Open Scope Z_scope.

Section Aggregate.
Context `{GoUnicode}.

(** The usage that states some counts. *)
Definition stated (k : known) (n : counts) : usage_map :=
  delete_unless (writesKnown k) "cache_write_tokens" (delete_unless (reasoningKnown k) "reasoning_tokens" (delete_unless (cacheKnown k) "cached_input_tokens"
    (<["input_tokens" := AnyInt64 (n_input n)]> (<["output_tokens" := AnyInt64 (n_output n)]> (<["total_tokens" := AnyInt64 (n_total n)]>
     (<["cached_input_tokens" := AnyInt64 (n_cached n)]> (<["cache_write_tokens" := AnyInt64 (n_write n)]>
     (<["reasoning_tokens" := AnyInt64 (n_reasoning n)]> ∅)))))))).
Definition if_known (b : bool) (z : Z) : Z := if b then z else 0.
(** What is left of the counts. *)
Definition known_counts (k : known) (n : counts) : counts := {|
  n_input := n_input n; n_output := n_output n; n_cached := if_known (cacheKnown k) (n_cached n); n_write := if_known (writesKnown k) (n_write n);
  n_reasoning := if_known (reasoningKnown k) (n_reasoning n); n_total := n_total n |}.

Lemma known_consistent k n : consistent n → consistent (known_counts k n).
Proof.
  intros [Hnn Hc Hr Ht]. destruct k as [[] [] []]; constructor; cbn [known_counts cacheKnown reasoningKnown writesKnown if_known n_input n_output n_cached n_write n_reasoning n_total]; lia.
Qed.
(** What is stated under a key. *)
Definition entry (k : known) (n : counts) (key : string) : option goany :=
  if String.eqb key "input_tokens" then Some (AnyInt64 (n_input n)) else if String.eqb key "output_tokens" then Some (AnyInt64 (n_output n))
  else if String.eqb key "total_tokens" then Some (AnyInt64 (n_total n))
  else if String.eqb key "cached_input_tokens" then (if cacheKnown k then Some (AnyInt64 (n_cached n)) else None)
  else if String.eqb key "cache_write_tokens" then (if writesKnown k then Some (AnyInt64 (n_write n)) else None)
  else if String.eqb key "reasoning_tokens" then (if reasoningKnown k then Some (AnyInt64 (n_reasoning n)) else None)
  else None.
Lemma lookup_stated k n key : stated k n !! key = entry k n key.
Proof.
  unfold entry. repeat match goal with |- context [String.eqb key ?name] =>
    destruct (String.eqb_spec key name) as [->|]; [destruct k as [[] [] []]; vm_compute; reflexivity|] end.
  assert (∀ b k' (m : usage_map), key ≠ k' → delete_unless b k' m !! key = m !! key) as Hdel.
  { intros [] k' m Hk; cbn; [done|by rewrite lookup_delete_ne]. }
  unfold stated. rewrite !Hdel by done. rewrite !lookup_insert_ne by (by apply not_eq_sym). apply lookup_empty.
Qed.
Lemma stated_counts k n keys : consistent n → counts_valid (stated k n) keys = true.
Proof.
  intros [Hnn Hc Hr Ht]. unfold counts_valid. apply forallb_forall. intros key _. rewrite lookup_stated. unfold entry.
  destruct k as [[] [] []]; cbn [cacheKnown reasoningKnown writesKnown];
    repeat (destruct (String.eqb key _); [solve [done|unfold valid_count; cbn; apply Z.leb_le; lia]|]); done.
Qed.
Lemma stated_nested k n parent : parent ∈ usageDetails.*1 → stated k n !! parent = None.
Proof. rewrite lookup_stated. by intros [-> | [-> | [-> | [-> | []%not_elem_of_nil]%elem_of_cons]%elem_of_cons]%elem_of_cons]%elem_of_cons. Qed.
Lemma stated_valid k n : consistent n → ValidateTokenUsage (stated k n) = Ok tt.
Proof.
  intros Hn. unfold ValidateTokenUsage. rewrite stated_counts by done. cbn [negb fail_if mbind result_mbind result_bind].
  assert (each (details_valid (stated k n)) usageDetails = Ok tt) as ->.
  { apply each_ok. intros detail Hin. unfold details_valid. by rewrite stated_nested by by apply (list_elem_of_fmap_2 fst). }
  cbn [mbind result_mbind result_bind]. apply each_ok. intros dimension Hin.
  assert (aliases (stated k n) dimension = omap (λ key, stated k n !! key) dimension.1) as ->.
  { unfold aliases. cbn [mbind list_bind]. rewrite <-(app_nil_r (omap _ _)) at 2. f_equal.
    assert (∀ parents, (∀ parent, parent ∈ parents → stated k n !! parent = None) →
      ((λ parent, mapValue (stated k n !! parent)) <$> parents) ≫= (λ values, omap (λ key, values !! key) dimension.1) = []) as Hnil.
    { induction parents as [|parent parents IH]; intros Hp; [done|]. rewrite fmap_cons, bind_cons, IH by (intros; apply Hp; by right).
      rewrite (Hp parent) by (by left). cbn [mapValue]. rewrite app_nil_r. clear. by induction dimension.1 as [|key keys IH]; [|cbn; rewrite lookup_empty]. }
    apply Hnil. intros parent Hp. apply stated_nested.
    assert (forallb (λ d, forallb (λ p, bool_decide (p ∈ usageDetails.*1)) d.2) dimensions = true) as Hall by (vm_compute; reflexivity).
    rewrite forallb_forall in Hall. specialize (Hall _ (proj1 (list_elem_of_In _ _) Hin)). rewrite forallb_forall in Hall.
    eapply bool_decide_eq_true, Hall. by apply list_elem_of_In. }
  assert (omap (λ key, stated k n !! key) dimension.1 = [] ∨
    ∃ z, 0 ≤ z ∧ omap (λ key, stated k n !! key) dimension.1 = [AnyInt64 z]) as [-> |(z & Hz%Z.leb_le & ->)]; [|done|by cbn; rewrite Hz].
  destruct Hn as [Hnn Hc Hr Ht]. unfold dimensions in Hin. rewrite !elem_of_cons in Hin.
  destruct Hin as [-> |[-> |[-> |[-> |[-> |[]%not_elem_of_nil]]]]]; cbn [omap list_omap fst cache_keys reasoningDetails];
    rewrite !lookup_stated; unfold entry; destruct k as [[] [] []]; cbn;
    first [by left|right; eexists; split; [|reflexivity]; lia].
Qed.

(** What the ledger reads from stated counts. *)
Ltac read_keys := intros [Hnn Hc Hr Ht]; cbn [usageNumber reasoningDetails]; rewrite !lookup_stated; unfold entry; cbn -[Z.leb];
  repeat rewrite (proj2 (Z.leb_le _ _)) by lia; try reflexivity.
Lemma read_input k n : consistent n → usageNumber (stated k n) ["input_tokens"; "prompt_tokens"; "prompt_token_count"] = n_input n.
Proof. read_keys. Qed.
Lemma read_output k n : consistent n → usageNumber (stated k n) ["output_tokens"; "completion_tokens"; "completion_token_count"] = n_output n.
Proof. read_keys. Qed.
Lemma read_total k n : consistent n → usageNumber (stated k n) ["total_tokens"] = n_total n.
Proof. read_keys. Qed.
Lemma read_nested k n parent keys count : parent ∈ usageDetails.*1 → or_nested (stated k n) parent keys count = count.
Proof.
  intros Hp. unfold or_nested. rewrite stated_nested by done. destruct (Z.eqb_spec count 0) as [->|]; [|done]. clear.
  induction keys as [|key keys IH]; [done|]. cbn [usageNumber mapValue]. by rewrite lookup_empty.
Qed.
Lemma read_cached k n : consistent n → cached_count (stated k n) = if_known (cacheKnown k) (n_cached n).
Proof.
  intros Hn. unfold cached_count. rewrite !read_nested by (vm_compute; set_solver). revert Hn. read_keys.
  destruct (cacheKnown k); cbn -[Z.leb]; [by rewrite (proj2 (Z.leb_le _ _)) by lia|done].
Qed.
Lemma read_write k n : consistent n → write_count (stated k n) = if_known (writesKnown k) (n_write n).
Proof.
  intros Hn. unfold write_count. rewrite !read_nested by (vm_compute; set_solver). revert Hn. read_keys.
  destruct (writesKnown k); cbn -[Z.leb]; [by rewrite (proj2 (Z.leb_le _ _)) by lia|done].
Qed.
Lemma read_reasoning k n : consistent n → reasoning_count (stated k n) = if_known (reasoningKnown k) (n_reasoning n).
Proof.
  intros Hn. unfold reasoning_count. rewrite !read_nested by (vm_compute; set_solver). revert Hn. read_keys.
  destruct (reasoningKnown k); cbn -[Z.leb]; [by rewrite (proj2 (Z.leb_le _ _)) by lia|done].
Qed.
Lemma counts_eq n i o c w r t : n_input n = i → n_output n = o → n_cached n = c → n_write n = w → n_reasoning n = r → n_total n = t →
  {| n_input := i; n_output := o; n_cached := c; n_write := w; n_reasoning := r; n_total := t |} = n.
Proof. intros <- <- <- <- <- <-. by destruct n. Qed.
Lemma stated_reads k n provider : consistent n → count_tokens provider (stated k n) = Ok (known_counts k n).
Proof.
  intros Hn. unfold count_tokens. rewrite read_input, read_output, read_total, read_cached, read_write, read_reasoning by done.
  assert (input_excludes_cache provider (stated k n) = false) as ->.
  { unfold input_excludes_cache. rewrite !lookup_stated. unfold entry. cbn. by rewrite andb_false_r. }
  assert (misses_agree (stated k n) (n_input n) = Ok tt) as Hmiss by (unfold misses_agree; by rewrite !lookup_stated).
  destruct (known_consistent k n Hn) as [(K1 & K2 & K3) K4 K5 K6]. cbn [known_counts n_input n_output n_cached n_write n_reasoning n_total] in *.
  rewrite (proj2 (Z.ltb_ge (n_output n) _)) by lia. cbn [fail_if mbind result_mbind result_bind mret result_mret]. rewrite Hmiss.
  assert (sumNonNegative [n_input n; n_output n] = Ok (n_input n + n_output n)) as -> by (apply sum_two; unfold is_count; lia).
  assert (sumNonNegative [if_known (cacheKnown k) (n_cached n); if_known (writesKnown k) (n_write n)] =
    Ok (if_known (cacheKnown k) (n_cached n) + if_known (writesKnown k) (n_write n))) as -> by (apply sum_two; unfold is_count; lia).
  cbn [rescued fail_if mbind result_mbind result_bind mret result_mret].
  assert ((if Z.eqb (n_total n) 0 then n_input n + n_output n else n_total n) = n_total n) as -> by (destruct (Z.eqb_spec (n_total n) 0); lia).
  by rewrite !(proj2 (Z.ltb_ge _ _)) by lia.
Qed.

(** The catalog without prices. *)
Definition usage_only : Catalog := {| Version := "usage-only"; Basis := "unpriced"; Models := {["usage-only:*" := noRates]} |}.
Lemma usage_only_catalog : catalogFor usageOnlyCatalog = Ok usage_only.
Proof. vm_compute. reflexivity. Qed.
Lemma free_charge n : charge_for n noRates = Ok no_charge.
Proof. unfold charge_for, cost. cbn [noRates InputMicrosPerMillion OutputMicrosPerMillion CachedMicrosPerMillion CacheWriteMicrosPerMillion]. by rewrite !orb_true_r. Qed.
Lemma build_stated provider model k n : consistent n → normal provider ≠ "" → normal model ≠ "" →
  ∃ l, Build provider model (stated k n) usageOnlyCatalog = Ok l ∧ InputTokens l = n_input n ∧ OutputTokens l = n_output n ∧ TotalTokens l = n_total n ∧
    CachedInputTokens l = if_known (cacheKnown k) (n_cached n) ∧ CacheWriteTokens l = if_known (writesKnown k) (n_write n) ∧
    ReasoningTokens l = if_known (reasoningKnown k) (n_reasoning n).
Proof.
  intros Hn Hp Hm. unfold Build. rewrite (proj2 (String.eqb_neq _ _) Hp), (proj2 (String.eqb_neq _ _) Hm).
  rewrite stated_valid, usage_only_catalog by done. cbn [orb fail_if mbind result_mbind result_bind]. rewrite stated_reads by done.
  cbn [mbind result_mbind result_bind].
  assert (match rates_for usage_only (normal provider) (normal model) with Some r => charge_for (known_counts k n) r | None => mret no_charge end = Ok no_charge) as ->.
  { destruct (rates_for _ _ _) as [r|] eqn:Hr; [|done]. assert (r = noRates) as ->; [|apply free_charge]. unfold rates_for in Hr. cbn [usage_only Models] in Hr.
    destruct (_ !! (_ +:+ ":" +:+ _)) as [r'|] eqn:Hr'; [injection Hr as ->; by apply lookup_singleton_Some in Hr' as [_ <-]|by apply lookup_singleton_Some in Hr as [_ <-]]. }
  eexists. by split_and!.
Qed.

(** ** Adding calls *)

Definition counts_of (l : Ledger) : counts := {|
  n_input := InputTokens l; n_output := OutputTokens l; n_cached := CachedInputTokens l; n_write := CacheWriteTokens l;
  n_reasoning := ReasoningTokens l; n_total := TotalTokens l |}.
Definition no_counts : counts := {| n_input := 0; n_output := 0; n_cached := 0; n_write := 0; n_reasoning := 0; n_total := 0 |}.
Definition plus (m n : counts) : counts := {|
  n_input := n_input m + n_input n; n_output := n_output m + n_output n; n_cached := n_cached m + n_cached n; n_write := n_write m + n_write n;
  n_reasoning := n_reasoning m + n_reasoning n; n_total := n_total m + n_total n |}.
(** The result before any call and after some. *)
Definition so_far (o : option counts) : usage_map := match o with Some n => stated all_known n | None => ∅ end.
Definition sum_so_far (o : option counts) : counts := default no_counts o.

Lemma so_far_count o key f : consistent (sum_so_far o) → (key, f) ∈ [("input_tokens", n_input); ("output_tokens", n_output); ("total_tokens", n_total);
  ("cached_input_tokens", n_cached); ("cache_write_tokens", n_write); ("reasoning_tokens", n_reasoning)] →
  (tokenCount (so_far o !! key)).1 = f (sum_so_far o).
Proof.
  intros _ Hin. destruct o as [n|]; cbn [so_far sum_so_far default]; [rewrite lookup_stated|rewrite lookup_empty];
    rewrite !elem_of_cons in Hin; destruct Hin as [[= -> ->]|[[= -> ->]|[[= -> ->]|[[= -> ->]|[[= -> ->]|[[= -> ->]|[]%not_elem_of_nil]]]]]]; reflexivity.
Qed.
Lemma add_counts_ok o l r : consistent (sum_so_far o) → consistent (counts_of l) → add_counts (so_far o) (ledger_counts l) = Ok r →
  r = so_far (Some (plus (sum_so_far o) (counts_of l))) ∧ consistent (plus (sum_so_far o) (counts_of l)).
Proof.
  intros Ho Hl Hr. unfold ledger_counts in Hr. cbn [add_counts] in Hr.
  repeat (apply bind_ok in Hr as (? & ?Hs & Hr)). injection Hr as <-.
  rewrite ?lookup_insert_ne in * by done.
  rewrite (so_far_count o "input_tokens" n_input) in Hs by (done || set_solver).
  rewrite (so_far_count o "output_tokens" n_output) in Hs0 by (done || set_solver).
  rewrite (so_far_count o "total_tokens" n_total) in Hs1 by (done || set_solver).
  rewrite (so_far_count o "cached_input_tokens" n_cached) in Hs2 by (done || set_solver).
  rewrite (so_far_count o "cache_write_tokens" n_write) in Hs3 by (done || set_solver).
  rewrite (so_far_count o "reasoning_tokens" n_reasoning) in Hs4 by (done || set_solver).
  destruct Ho as [(A1 & A2 & A3) A4 A5 A6], Hl as [(B1 & B2 & B3) B4 B5 B6]. cbn [counts_of n_input n_output n_cached n_write n_reasoning n_total] in *.
  apply sum_two in Hs as [-> L1]; [|unfold is_count; lia..]. apply sum_two in Hs0 as [-> L2]; [|unfold is_count; lia..].
  apply sum_two in Hs1 as [-> L3]; [|unfold is_count; lia..]. apply sum_two in Hs2 as [-> L4]; [|unfold is_count; lia..].
  apply sum_two in Hs3 as [-> L5]; [|unfold is_count; lia..]. apply sum_two in Hs4 as [-> L6]; [|unfold is_count; lia..].
  split; [|constructor; cbn [plus counts_of n_input n_output n_cached n_write n_reasoning n_total]; lia].
  apply map_eq. intros key. cbn [so_far]. rewrite lookup_stated. unfold entry.
  repeat match goal with |- context [String.eqb key ?name] => destruct (String.eqb_spec key name) as [->|];
    [repeat first [rewrite lookup_insert_eq|rewrite lookup_insert_ne by done]; reflexivity|] end.
  rewrite !lookup_insert_ne by (by apply not_eq_sym). destruct o; [|apply lookup_empty]. cbn [so_far]. rewrite lookup_stated. unfold entry.
  by rewrite !(proj2 (String.eqb_neq key _)) by done.
Qed.
Lemma build_consistent provider model usage configured l : go_usage usage → Build provider model usage configured = Ok l → consistent (counts_of l).
Proof.
  intros Hgo Hb. destruct (Build_ok _ _ _ _ _ Hb Hgo) as (catalog & n & c & _ & _ & _ & Hn & H1 & H2 & H3 & H4 & H5 & H6 & _).
  unfold counts_of. rewrite H1, H2, H3, H4, H5, H6. by destruct n.
Qed.
Definition all_calls (calls : list usage_map) (k : known) : known := {|
  cacheKnown := cacheKnown k && forallb cacheReported calls; reasoningKnown := reasoningKnown k && forallb reasoningReported calls;
  writesKnown := writesKnown k && forallb writesReported calls |}.
Lemma add_calls_ok provider model calls k o k' r : Forall go_usage calls → consistent (sum_so_far o) →
  add_calls provider model calls k (so_far o) = Ok (k', r) →
  k' = all_calls calls k ∧ ∃ ls, Forall2 (λ usage l, Build provider model usage usageOnlyCatalog = Ok l) calls ls ∧
    (calls = [] ∧ r = so_far o ∨ r = so_far (Some (foldl plus (sum_so_far o) (counts_of <$> ls)))) ∧
    consistent (foldl plus (sum_so_far o) (counts_of <$> ls)).
Proof.
  intros Hgo. revert k o. induction Hgo as [|usage calls Hu Hgo IH]; intros k o Ho; cbn [add_calls].
  - intros [= <- <-]. split; [destruct k; unfold all_calls; cbn; by rewrite !andb_true_r|]. exists []. split; [constructor|]. split; [by left|done].
  - intros (l & Hl & (result & Hr & Hrest)%bind_ok)%bind_ok. pose proof (build_consistent _ _ _ _ _ Hu Hl) as Hcl.
    apply add_counts_ok in Hr as [-> Hc]; [|done..]. apply IH in Hrest as (-> & ls & Hls & Hr & Hcons); [|done].
    split; [unfold all_calls; cbn; by rewrite !andb_assoc|]. exists (l :: ls). split; [by constructor|]. split; [right|done].
    destruct Hr as [[-> ->]| ->]; [|done]. apply Forall2_nil_inv_l in Hls as ->. done.
Qed.
Lemma foldl_plus n ns : foldl plus n ns = plus n (foldr plus no_counts ns).
Proof.
  revert n. induction ns as [|x ns IH]; intros n; cbn [foldl foldr]; [unfold plus, no_counts; cbn; rewrite !Z.add_0_r; by destruct n|].
  rewrite IH. unfold plus. cbn. by rewrite !Z.add_assoc.
Qed.

(** The sum of a count over ledgers. *)
Definition total (f : Ledger → Z) (ls : list Ledger) : Z := foldr (λ l s, f l + s) 0 ls.
Lemma sum_counts ls : foldl plus no_counts (counts_of <$> ls) = {| n_input := total InputTokens ls; n_output := total OutputTokens ls;
  n_cached := total CachedInputTokens ls; n_write := total CacheWriteTokens ls; n_reasoning := total ReasoningTokens ls; n_total := total TotalTokens ls |}.
Proof. rewrite foldl_plus. unfold plus at 1. cbn [no_counts n_input n_output n_cached n_write n_reasoning n_total]. rewrite !Z.add_0_l. induction ls as [|l ls IH]; [done|]. cbn. injection IH as -> -> -> -> -> ->. done. Qed.
Lemma stated_go k n : consistent n → go_usage (stated k n).
Proof.
  intros [(H1 & H2 & H3) Hc Hr Ht]. split; intros key value; rewrite lookup_stated; unfold entry;
    repeat (destruct (String.eqb key _); [destruct k as [[] [] []]; cbn; intros [= <-]; cbn; unfold is_int64; lia || done|]); done.
Qed.

(** usage can be summed.  When the usage of some calls is aggregated, each call has a ledger, and the result is usage
    whose own ledger has the sums of their counts: input, output and total always, the cached, written and reasoning tokens
    when every call reported them.  So calls may be summed in groups, with nothing lost or counted twice. *)
Theorem aggregate_is_the_sum provider model calls usage : calls ≠ [] → Forall go_usage calls → AggregateUsage provider model calls = Ok usage →
  go_usage usage ∧ ∃ ls l, Forall2 (λ usage l, Build provider model usage usageOnlyCatalog = Ok l) calls ls ∧
    Build provider model usage usageOnlyCatalog = Ok l ∧
    InputTokens l = total InputTokens ls ∧ OutputTokens l = total OutputTokens ls ∧ TotalTokens l = total TotalTokens ls ∧
    (forallb cacheReported calls = true → CachedInputTokens l = total CachedInputTokens ls) ∧
    (forallb writesReported calls = true → CacheWriteTokens l = total CacheWriteTokens ls) ∧
    (forallb reasoningReported calls = true → ReasoningTokens l = total ReasoningTokens ls).
Proof.
  intros Hne Hgo ([k r] & Ha & [= <-])%bind_ok. assert (consistent (sum_so_far None)) as H0 by (constructor; cbn; unfold maxInt64; lia).
  apply (add_calls_ok _ _ _ _ None) in Ha as (-> & ls & Hls & [[-> _]| ->] & Hc); [done| |done..].
  change (sum_so_far None) with no_counts in *. rewrite sum_counts in *. set (n := {| n_input := _ |}) in *.
  change (delete_unless _ _ _) with (stated (all_calls calls all_known) n). split; [by apply stated_go|].
  assert (normal provider ≠ "" ∧ normal model ≠ "") as [Hp Hm].
  { destruct Hls as [|usage l calls ls Hb]; [done|]. unfold Build in Hb. apply bind_ok in Hb as (? & Hid%fail_if_ok & _).
    apply orb_false_iff in Hid as [?%String.eqb_neq ?%String.eqb_neq]. done. }
  destruct (build_stated provider model (all_calls calls all_known) n Hc Hp Hm) as (l & Hb & H1 & H2 & H3 & H4 & H5 & H6). exists ls, l.
  split_and!; try done.
  - intros Hk. rewrite H4. unfold all_calls. cbn. by rewrite Hk.
  - intros Hk. rewrite H5. unfold all_calls. cbn. by rewrite Hk.
  - intros Hk. rewrite H6. unfold all_calls. cbn. by rewrite Hk.
Qed.
End Aggregate.

(** ** The example: two calls that report the same tokens under different names *)

Section Demo.
#[local] Existing Instance ascii_only.

Definition chat_usage : usage_map := <["prompt_tokens" := AnyInt 100]> (<["completion_tokens" := AnyInt 40]> (<["prompt_cache_hit_tokens" := AnyInt 80]>
  (<["reasoning_tokens" := AnyInt 30]> ∅))).
Definition response_usage : usage_map := <["input_tokens" := AnyInt 100]> (<["output_tokens" := AnyInt 40]>
  (<["input_tokens_details" := AnyMap {["cached_tokens" := AnyInt 80]}]> (<["output_tokens_details" := AnyMap {["reasoning_tokens" := AnyInt 30]}]> ∅))).
Lemma demo_calls_go : Forall go_usage [chat_usage; response_usage].
Proof.
  assert (∀ z, 0 ≤ z < 1000 → is_int64 z) as Hz by (intros z Hz; unfold is_int64, maxInt64; lia).
  repeat (constructor; [split; repeat (apply map_Forall_insert_2; [cbn; first [done|apply Hz; lia|by apply map_Forall_singleton, Hz]|]); apply map_Forall_empty|]).
  constructor.
Qed.
Lemma aggregate_is_the_sum_witness : ∃ usage l, AggregateUsage "deepseek" "future-model" [chat_usage; response_usage] = Ok usage ∧
  Build "deepseek" "future-model" usage usageOnlyCatalog = Ok l ∧ InputTokens l = 200 ∧ CachedInputTokens l = 160.
Proof.
  destruct (AggregateUsage "deepseek" "future-model" [chat_usage; response_usage]) as [usage|e] eqn:Ha; [|vm_compute in Ha; discriminate Ha].
  destruct (aggregate_is_the_sum "deepseek" "future-model" [chat_usage; response_usage] usage) as (_ & ls & l & Hls & Hl & Hi & _ & _ & Hc & _).
  - discriminate.
  - exact demo_calls_go.
  - exact Ha.
  - exists usage, l. split; [reflexivity|]. split; [exact Hl|]. rewrite Hi, Hc by reflexivity.
    apply Forall2_cons_inv_l in Hls as (l1 & ls1 & Hb1 & Hls & ->). apply Forall2_cons_inv_l in Hls as (l2 & ls2 & Hb2 & Hls & ->).
    apply Forall2_nil_inv_l in Hls as ->. vm_compute in Hb1, Hb2. injection Hb1 as <-. injection Hb2 as <-. split; reflexivity.
Defined.
End Demo.
