(* ===== verification/Base64.v ===== *)
(** * [encoding/base64] with the URL alphabet and no padding ([RawURLEncoding]), [crypto/hmac]

    The decoder skips line breaks and does not look at the spare bits of the last character, so
    several texts decode to the same bytes; an encoded text is read back. *)
From stdpp Require Import base tactics list strings.
From Stdlib Require Import Ascii NArith.
From S2P Require Import Prelude GoStrings Sha256 Json.
Open Scope N_scope.

Definition sextet_char (n : N) : ascii :=
  ascii_of_N (if n <? 26 then 65 + n else if n <? 52 then 71 + n else if n <? 62 then n - 4 else if n =? 62 then 45 else 95).
Definition char_sextet (c : ascii) : option N :=
  let n := N_of_ascii c in
  if is_upper c then Some (n - 65) else if is_lower c then Some (n - 71) else if is_digit c then Some (n + 4)
  else if byte_is 45 c then Some 62 else if byte_is 95 c then Some 63 else None.

(** Three bytes are four sextets; a rest of one or two bytes is two or three. *)
Fixpoint sextets (l : list N) : list N :=
  match l with
  | [] => []
  | [a] => [a / 4; a mod 4 * 16]
  | [a; b] => [a / 4; a mod 4 * 16 + b / 16; b mod 16 * 4]
  | a :: b :: c :: rest => a / 4 :: a mod 4 * 16 + b / 16 :: b mod 16 * 4 + c / 64 :: c mod 64 :: sextets rest
  end.
Fixpoint octets (l : list N) : option (list N) :=
  match l with
  | [] => Some []
  | [_] => None
  | [a; b] => Some [a * 4 + b / 16]
  | [a; b; c] => Some [a * 4 + b / 16; b mod 16 * 16 + c / 4]
  | a :: b :: c :: d :: rest => l ← octets rest; Some (a * 4 + b / 16 :: b mod 16 * 16 + c / 4 :: c mod 4 * 64 + d :: l)
  end.

Definition EncodeToString (s : string) : string := of_bytes (sextet_char <$> sextets (N_of_ascii <$> bytes s)).
Definition is_newline (c : ascii) : bool := byte_is 10 c || byte_is 13 c.
Definition DecodeString (s : string) : option string :=
  values ← mapM char_sextet (List.filter (λ c, negb (is_newline c)) (bytes s));
  l ← octets values;
  Some (of_bytes (ascii_of_N <$> l)).

(** ** The round trip *)

#[local] Ltac Zify.zify_post_hook ::= Z.to_euclidean_division_equations.

Definition is_sextet_char (c : ascii) : bool := is_alnum c || byte_is 45 c || byte_is 95 c.
Lemma below (P : N → Prop) (n : nat) : Forall P (N.of_nat <$> seq 0 n) → ∀ x, x < N.of_nat n → P x.
Proof.
  intros Hall x Hx. rewrite Forall_fmap in Hall. rewrite <-(N2Nat.id x). apply (Forall_forall (P ∘ N.of_nat) (seq 0 n)); [done|].
  apply elem_of_seq. lia.
Qed.
Lemma sextet_facts n : n < 64 → char_sextet (sextet_char n) = Some n ∧ is_sextet_char (sextet_char n) = true ∧ is_newline (sextet_char n) = false.
Proof.
  apply (below (λ n, char_sextet (sextet_char n) = Some n ∧ is_sextet_char (sextet_char n) = true ∧ is_newline (sextet_char n) = false) 64).
  repeat constructor.
Qed.
Lemma sextets_small l : Forall (λ b, b < 256) l → Forall (λ n, n < 64) (sextets l).
Proof.
  induction l as [l IH] using (induction_ltof1 _ length). unfold ltof in IH. destruct l as [|a [|b [|c rest]]]; intros Hl; decompose_Forall_hyps.
  - constructor.
  - cbn. repeat (apply List.Forall_cons; [lia|]). apply List.Forall_nil.
  - cbn. repeat (apply List.Forall_cons; [lia|]). apply List.Forall_nil.
  - cbn [sextets]. repeat (apply List.Forall_cons; [lia|]). apply IH; [cbn; lia|done].
Qed.
Lemma octets_sextets l : Forall (λ b, b < 256) l → octets (sextets l) = Some l.
Proof.
  induction l as [l IH] using (induction_ltof1 _ length). unfold ltof in IH. destruct l as [|a [|b [|c rest]]]; intros Hl; decompose_Forall_hyps.
  - done.
  - cbn. repeat f_equal; lia.
  - cbn. repeat f_equal; lia.
  - cbn [sextets octets]. rewrite IH; [|cbn; lia|done]. cbn [mbind option_bind].
    repeat f_equal; lia.
Qed.
Lemma bytes_small s : Forall (λ b, b < 256) (N_of_ascii <$> bytes s).
Proof. rewrite Forall_fmap. apply Forall_true. intros c. apply N_ascii_bounded. Qed.
Lemma bytes_back s : of_bytes (ascii_of_N <$> (N_of_ascii <$> bytes s)) = s.
Proof.
  rewrite <-list_fmap_compose, (list_fmap_ext _ id), list_fmap_id, of_bytes_bytes; [done|]. intros _ c _. apply ascii_N_embedding.
Qed.
Lemma sextet_chars l : Forall (λ n, n < 64) l →
  List.filter (λ c, negb (is_newline c)) (sextet_char <$> l) = sextet_char <$> l ∧ mapM char_sextet (sextet_char <$> l) = Some l ∧
  forallb is_sextet_char (sextet_char <$> l) = true.
Proof.
  induction 1 as [|n l Hn _ (IH1 & IH2 & IH3)]; [done|]. destruct (sextet_facts n Hn) as (H1 & H2 & H3).
  cbn. rewrite H3. cbn. rewrite IH1, H1. cbn. rewrite IH2, H2, IH3. done.
Qed.
Lemma DecodeString_EncodeToString s : DecodeString (EncodeToString s) = Some s.
Proof.
  unfold DecodeString, EncodeToString. rewrite bytes_of_bytes.
  destruct (sextet_chars (sextets (N_of_ascii <$> bytes s))) as (-> & -> & _); [apply sextets_small, bytes_small|].
  cbn [mbind option_bind]. rewrite octets_sextets by apply bytes_small. cbn [mbind option_bind]. by rewrite bytes_back.
Qed.
Lemma encoded_inj s t : EncodeToString s = EncodeToString t → s = t.
Proof. intros Heq%(f_equal DecodeString). rewrite !DecodeString_EncodeToString in Heq. by injection Heq. Qed.
Lemma EncodeToString_chars s : all_bytes is_sextet_char (EncodeToString s) = true.
Proof.
  unfold all_bytes, EncodeToString. rewrite bytes_of_bytes.
  by destruct (sextet_chars (sextets (N_of_ascii <$> bytes s))) as (_ & _ & ->); [apply sextets_small, bytes_small|].
Qed.
Example encode_example : EncodeToString "light work?"%string = "bGlnaHQgd29yaz8"%string.
Proof. reflexivity. Qed.
Example decode_lenient : DecodeString "bGlnaHR"%string = Some "light"%string ∧ DecodeString "b"%string = None ∧ DecodeString "bA=="%string = None.
Proof. split_and!; reflexivity. Qed.

(** * [crypto/hmac] over [crypto/sha256] (RFC 2104) *)
Open Scope N_scope.

Definition text_of (l : list N) : string := of_bytes (ascii_of_N <$> l).
(** The key as one block of 64 bytes. *)
Definition key_block (key : string) : list N :=
  let k := if Nat.ltb 64 (String.length key) then Sum256 key else N_of_ascii <$> bytes key in
  k ++ replicate (64 - length k) 0.
Definition inner (key message : string) : string := text_of (N.lxor 54 <$> key_block key) +:+ message.
Definition outer (key message : string) : string := text_of (N.lxor 92 <$> key_block key) +:+ text_of (Sum256 (inner key message)).
(** [mac.Sum(nil)] after [mac.Write]: writes are concatenated. *)
Definition Sum (key message : string) : list N := Sum256 (outer key message).

Example Sum_jefe : Sha256.EncodeToString (Sum "Jefe" "what do ya want for nothing?") =
  "5bdcc146bf60754e6a042426089575c75a003f089d2739839dec58b964ec3843"%string.
Proof. vm_compute. reflexivity. Qed.

(** Two messages with one code are a collision of SHA-256 at texts that are known. *)
Definition mac_collide (key x y : string) : Prop := collide (inner key x) (inner key y) ∨ collide (outer key x) (outer key y).
Lemma text_of_back l : Forall (λ b, b < 256) l → N_of_ascii <$> bytes (text_of l) = l.
Proof.
  intros Hl. unfold text_of. rewrite bytes_of_bytes. induction Hl as [|b l Hb _ IH]; [done|]. cbn. by rewrite IH, N_ascii_embedding.
Qed.
Lemma append_grouped (s t u : string) : (s +:+ t) +:+ u = s +:+ (t +:+ u).
Proof. apply bytes_inj. rewrite !bytes_append. by rewrite app_assoc. Qed.
Lemma append_inj (p s t : string) : p +:+ s = p +:+ t → s = t.
Proof. intros Heq%(f_equal bytes). rewrite !bytes_append in Heq. by apply app_inv_head, bytes_inj in Heq. Qed.
Lemma Sum_binds key x y : Sum key x = Sum key y → x = y ∨ mac_collide key x y.
Proof.
  intros Heq. destruct (decide (outer key x = outer key y)) as [Ho|Ho]; [|by right; right].
  apply append_inj, (f_equal (λ s, N_of_ascii <$> bytes s)) in Ho. rewrite !text_of_back in Ho by apply Sum256_small.
  destruct (decide (inner key x = inner key y)) as [Hi|Hi]; [left|by right; left]. by apply append_inj in Hi.
Qed.
