(* ===== verification/AccessProof.v ===== *)
(** * internal/publicaccessproof/publicaccessproof.go: proofs of an event's password

    A proof is a signed JSON text: who verified the password of which event may read it until
    the proof expires or the password changes.  Instants are nanoseconds since the Unix epoch;
    [env] is the value of EVENT_ACCESS_SECRET. *)
From stdpp Require Import base tactics list strings.
From Stdlib Require Import Ascii ZArith.
From S2P Require Import Prelude GoStrings Sha256 Json JsonTypes Base64 PlanStore.
Open Scope string_scope.

Definition Second : Z := 1000000000.
(** [t.Unix()] *)
Definition Unix (t : Z) : Z := t / Second.

Definition purpose : string := "event-password-access".
Record claims := { Purpose : string; EventID : string; AccessVersion : string; ExpiresAt : Z }.
Definition claims_json (c : claims) : json := JObject [
  ("purpose", JString (Purpose c)); ("eventId", JString (EventID c)); ("accessVersion", JString (AccessVersion c)); ("expiresAt", JInt (ExpiresAt c))].
(** [json.Unmarshal]: keys are compared without case. *)
Definition decode_claim (c : claims) (member : string * jvalue) : option claims :=
  let '(key, v) := member in
  let '{| Purpose := p; EventID := e; AccessVersion := a; ExpiresAt := x |} := c in
  if field_is "purpose" key then p ← decode_string p v; Some {| Purpose := p; EventID := e; AccessVersion := a; ExpiresAt := x |}
  else if field_is "eventid" key then e ← decode_string e v; Some {| Purpose := p; EventID := e; AccessVersion := a; ExpiresAt := x |}
  else if field_is "accessversion" key then a ← decode_string a v; Some {| Purpose := p; EventID := e; AccessVersion := a; ExpiresAt := x |}
  else if field_is "expiresat" key then x ← decode_int64 x v; Some {| Purpose := p; EventID := e; AccessVersion := a; ExpiresAt := x |}
  else Some c.
Fixpoint decode_claims (members : list (string * jvalue)) (c : claims) : option claims :=
  match members with [] => Some c | member :: rest => c ← decode_claim c member; decode_claims rest c end.
Definition UnmarshalClaims (payload : string) : option claims :=
  let zero := {| Purpose := ""; EventID := ""; AccessVersion := ""; ExpiresAt := 0 |} in
  v ← read_json payload;
  match v with VNull => Some zero | VObject members => decode_claims members zero | _ => None end.

Definition accessSecret (env : string) : string := TrimSpace env.
Definition sign (payload secret : string) : string := EncodeToString (text_of (Sum secret payload)).

Section Proofs.
Context {text : UuidText}.

Definition Generate (env : string) (eventID : uuid) (accessVersion : string) (ttl now : Z) : option (string * Z) :=
  let secret := accessSecret env in
  if String.eqb secret "" then None
  else
    let expiresAt := (now + ttl)%Z in
    let payload := Marshal (claims_json
      {| Purpose := purpose; EventID := uuid_text eventID; AccessVersion := accessVersion; ExpiresAt := Unix expiresAt |}) in
    let encodedPayload := EncodeToString payload in
    Some (encodedPayload +:+ "." +:+ sign encodedPayload secret, expiresAt).

Definition Validate (env token : string) (eventID : uuid) (accessVersion : string) (now : Z) : bool :=
  let secret := accessSecret env in
  let token := TrimSpace token in
  if String.eqb token "" || String.eqb secret "" then false
  else match Split token "."%char with
       | [encodedPayload; signature] =>
           if negb (String.eqb (sign encodedPayload secret) signature) then false
           else match DecodeString encodedPayload with
                | None => false
                | Some payload =>
                    match UnmarshalClaims payload with
                    | None => false
                    | Some parsed =>
                        if negb (String.eqb (Purpose parsed) purpose) || negb (String.eqb (EventID parsed) (uuid_text eventID)) ||
                           negb (String.eqb (AccessVersion parsed) accessVersion)
                        then false
                        else Z.leb (Unix now) (ExpiresAt parsed)
                    end
                end
       | _ => false
       end.

Definition passwordVersionPurpose : string := "event-password-version".
Definition PasswordVersion (env : string) (eventID : uuid) (password : string) : string :=
  let secret := accessSecret env in
  let password := TrimSpace password in
  if String.eqb secret "" || String.eqb password "" then ""
  else "pw1." +:+ of_bytes (take 22 (bytes (EncodeToString (text_of
    (Sum secret (passwordVersionPurpose +:+ NUL +:+ uuid_text eventID +:+ NUL +:+ password)))))).
End Proofs.

(** ** Texts with separators *)

Definition without (c : ascii) (s : string) : bool := all_bytes (λ b, negb (Ascii.eqb b c)) s.
Lemma split_bytes_app sep l r cur : forallb (λ b, negb (Ascii.eqb b sep)) l = true →
  split_bytes sep cur (l ++ r)%list = split_bytes sep (rev l ++ cur)%list r.
Proof.
  revert cur. induction l as [|c l IH]; intros cur; [done|]. cbn. intros [Hc Hl]%andb_true_iff. apply negb_true_iff in Hc. rewrite Hc, IH by done.
  by rewrite <-app_assoc.
Qed.
Lemma Split_cons sep a r : without sep a = true → Split (a +:+ String sep EmptyString +:+ r) sep = a :: Split r sep.
Proof.
  unfold without, all_bytes, Split. intros Ha. rewrite !bytes_append, split_bytes_app by done. rewrite app_nil_r. cbn.
  rewrite Ascii.eqb_refl. by rewrite rev_involutive, of_bytes_bytes.
Qed.
Lemma Split_one sep a : without sep a = true → Split a sep = [a].
Proof.
  unfold without, all_bytes, Split. intros Ha. rewrite <-(app_nil_r (bytes a)), split_bytes_app by done. cbn.
  by rewrite app_nil_r, rev_involutive, of_bytes_bytes.
Qed.
(** What [Split] gives, joined again; its first part has no separator. *)
Lemma split_bytes_join sep l cur : forallb (λ b, negb (Ascii.eqb b sep)) cur = true → ∃ a rest, split_bytes sep cur l = a :: rest ∧
  (rev cur ++ l = bytes a ++ (rest ≫= λ s, sep :: bytes s))%list ∧ without sep a = true.
Proof.
  revert cur. induction l as [|c l IH]; intros cur Hcur; cbn.
  { exists (of_bytes (rev cur)), []. unfold without, all_bytes. rewrite bytes_of_bytes, !app_nil_r. split_and!; [done..|].
    rewrite forallb_forall in Hcur |- *. intros b Hb%in_rev. by apply Hcur. }
  destruct (Ascii.eqb_spec c sep) as [->|Hc].
  - destruct (IH []) as (a & rest & -> & Heq & _); [done|]. exists (of_bytes (rev cur)), (a :: rest). split; [done|]. unfold without, all_bytes. cbn.
    rewrite bytes_of_bytes. cbn in Heq. rewrite Heq. split; [done|]. rewrite forallb_forall in Hcur |- *. intros b Hb%in_rev. by apply Hcur.
  - destruct (IH (c :: cur)) as (a & rest & -> & Heq & Ha). { cbn. rewrite Hcur. by destruct (Ascii.eqb_spec c sep). }
    exists a, rest. split; [done|]. rewrite <-Heq. cbn. by rewrite <-app_assoc.
Qed.
Lemma Split_two s sep a b : Split s sep = [a; b] → s = a +:+ String sep EmptyString +:+ b ∧ without sep a = true.
Proof.
  unfold Split. intros Hs. destruct (split_bytes_join sep (bytes s) []) as (a' & rest & Heq & Hj & Ha); [done|]. rewrite Hs in Heq. injection Heq as <- <-.
  split; [|done]. apply bytes_inj. rewrite !bytes_append. cbn in Hj |- *. by rewrite app_nil_r in Hj.
Qed.

Lemma Split_three s sep a b c : Split s sep = [a; b; c] → s = a +:+ String sep EmptyString +:+ b +:+ String sep EmptyString +:+ c.
Proof.
  unfold Split. intros Hs. destruct (split_bytes_join sep (bytes s) []) as (a' & rest & Heq & Hj & _); [done|]. rewrite Hs in Heq. injection Heq as <- <-.
  apply bytes_inj. rewrite !bytes_append. cbn in Hj |- *. by rewrite app_nil_r in Hj.
Qed.

(** ** Tokens *)

(** The text of an identity has no separator of tokens in it. *)
Class UuidShape (text : UuidText) : Prop := uuid_text_shape id : all_bytes (λ c, is_hex_digit c || byte_is 45 c) (uuid_text id) = true.
#[export] Instance unary_shape : UuidShape unary.
Proof. intros id. unfold all_bytes, uuid_text, unary, unary_text. rewrite bytes_of_bytes. by induction (N.to_nat id). Qed.

Lemma sextet_char_plain c : is_sextet_char c = true → is_visible c = true ∧ Ascii.eqb c "." = false.
Proof.
  intros Hc. destruct (Ascii.eqb_spec c ".") as [->|]; [done|]. split; [|done]. revert Hc. unfold is_sextet_char, is_alnum, is_upper, is_lower, is_digit, is_visible, in_range, byte_is.
  rewrite !orb_true_iff, !andb_true_iff, !N.leb_le, !N.eqb_eq. lia.
Qed.
Lemma encoded_plain s : all_bytes is_visible (EncodeToString s) = true ∧ without "." (EncodeToString s) = true.
Proof.
  pose proof (EncodeToString_chars s) as Hs. split; revert Hs; apply all_bytes_impl; intros c Hc%sextet_char_plain; [apply Hc|].
  by rewrite (proj2 Hc).
Qed.

Lemma UnmarshalClaims_Marshal c : utf8_valid (Purpose c) = true → utf8_valid (EventID c) = true → utf8_valid (AccessVersion c) = true →
  (- 2 ^ 63 ≤ ExpiresAt c < 2 ^ 63)%Z → UnmarshalClaims (Marshal (claims_json c)) = Some c.
Proof.
  intros H1 H2 H3 Hx. unfold UnmarshalClaims, read_json. rewrite parse_text_Marshal; [|cbn; by rewrite H1, H2, H3|by vm_compute].
  destruct c as [p e a x]. cbn -[ParseInt itoa field_is].
  repeat (match goal with |- context [field_is ?a ?b] => let v := eval vm_compute in (field_is a b) in change (field_is a b) with v end;
          cbn -[ParseInt itoa field_is]).
  cbn in Hx. by rewrite ParseInt_itoa.
Qed.

Section Tokens.
Context {text : UuidText} {shape : UuidShape text}.

(** The parts of a token that is accepted. *)
Lemma Validate_true env token id version now : Validate env token id version now = true ↔
  accessSecret env ≠ "" ∧ ∃ encoded payload c, TrimSpace token = encoded +:+ "." +:+ sign encoded (accessSecret env) ∧ without "." encoded = true ∧
    DecodeString encoded = Some payload ∧ UnmarshalClaims payload = Some c ∧ Purpose c = purpose ∧ EventID c = uuid_text id ∧ AccessVersion c = version ∧
    (Unix now ≤ ExpiresAt c)%Z.
Proof.
  unfold Validate. split.
  - destruct (String.eqb_spec (TrimSpace token) ""); [done|]. destruct (String.eqb_spec (accessSecret env) ""); [done|]. cbn [orb].
    destruct (Split (TrimSpace token) ".") as [|encoded [|signature [|]]] eqn:Hs; try done.
    destruct (String.eqb_spec (sign encoded (accessSecret env)) signature) as [<-|]; [|done]. cbn [negb].
    destruct (DecodeString encoded) as [payload|] eqn:Hd; [|done]. destruct (UnmarshalClaims payload) as [c|] eqn:Hc; [|done].
    destruct (String.eqb_spec (Purpose c) purpose); [|done]. destruct (String.eqb_spec (EventID c) (uuid_text id)); [|done].
    destruct (String.eqb_spec (AccessVersion c) version); [|done]. cbn [negb orb]. intros Ht%Z.leb_le. split; [done|].
    destruct (Split_two _ _ _ _ Hs) as [Hj Hw]. exists encoded, payload, c. by split_and!.
  - intros (Hsec & encoded & payload & c & Ht & Hw & Hd & Hc & Hp & He & Ha & Hx). rewrite Ht.
    destruct (String.eqb_spec (encoded +:+ "." +:+ sign encoded (accessSecret env)) "") as [Hempty|_].
    { apply (f_equal bytes) in Hempty. rewrite !bytes_append in Hempty. by destruct (bytes encoded). }
    destruct (String.eqb_spec (accessSecret env) ""); [done|]. cbn [orb].
    rewrite Split_cons, Split_one by (done || apply encoded_plain). rewrite String.eqb_refl, Hd, Hc, Hp, He, Ha, !String.eqb_refl.
    cbn. by apply Z.leb_le.
Qed.

Lemma PasswordVersion_utf8 env id password : utf8_valid (PasswordVersion env id password) = true.
Proof.
  unfold PasswordVersion. destruct (_ || _); [done|]. apply ascii_utf8. unfold is_ascii. rewrite all_bytes_append. apply andb_true_iff. split; [done|].
  unfold all_bytes. rewrite bytes_of_bytes. generalize (Sum (accessSecret env) (passwordVersionPurpose +:+ NUL +:+ uuid_text id +:+ NUL +:+ TrimSpace password)).
  intros l. pose proof (proj1 (encoded_plain (text_of l))) as Hv. apply (all_bytes_impl is_visible is_ascii_byte) in Hv; [|apply visible_is_ascii].
  unfold all_bytes in Hv. rewrite <-(take_drop 22 (bytes _)), forallb_app in Hv. by apply andb_true_iff in Hv as [Hv _].
Qed.
Lemma PasswordVersion_trimmed env id password password' : TrimSpace password = TrimSpace password' →
  PasswordVersion env id password = PasswordVersion env id password'.
Proof. intros Heq. unfold PasswordVersion. by rewrite Heq. Qed.

(** A token of [Generate], read by [Validate]. *)
Lemma Validate_Generate env id version ttl now token expires id' version' now' :
  Generate env id version ttl now = Some (token, expires) → utf8_valid version = true → (- 2 ^ 63 ≤ Unix (now + ttl) < 2 ^ 63)%Z →
  expires = (now + ttl)%Z ∧ (Validate env token id' version' now' = true ↔ id' = id ∧ version' = version ∧ (Unix now' ≤ Unix expires)%Z).
Proof.
  unfold Generate. destruct (String.eqb_spec (accessSecret env) "") as [|Hsec]; [done|]. intros [= <- <-] Hv Hx. split; [done|].
  set (c := {| Purpose := purpose; EventID := uuid_text id; AccessVersion := version; ExpiresAt := Unix (now + ttl) |}).
  set (encoded := EncodeToString (Marshal (claims_json c))). set (token := encoded +:+ _).
  assert (TrimSpace token = token) as Htrim.
  { apply TrimSpace_visible. unfold token. rewrite !all_bytes_append. unfold encoded, sign. rewrite !(proj1 (encoded_plain _)). done. }
  assert (UnmarshalClaims (Marshal (claims_json c)) = Some c) as Hback by (apply UnmarshalClaims_Marshal; [done|apply ascii_utf8, uuid_text_ascii|done|done]).
  rewrite Validate_true, Htrim. split.
  - intros (_ & encoded' & payload & c' & Ht & Hw & Hd & Hc & _ & He & Ha & Hn).
    assert (encoded' = encoded) as ->.
    { pose proof (f_equal (λ t, Split t ".") Ht) as Hs. unfold token in Hs. cbv beta in Hs.
      rewrite !Split_cons, !Split_one in Hs by (done || apply encoded_plain). by injection Hs. }
    unfold encoded in Hd. rewrite DecodeString_EncodeToString in Hd. injection Hd as <-. rewrite Hback in Hc. injection Hc as <-.
    cbn in He, Ha, Hn. by apply uuid_text_inj in He.
  - intros (-> & -> & Hn). split; [done|]. exists encoded, (Marshal (claims_json c)), c. split_and!; try done; [apply encoded_plain|].
    unfold encoded. apply DecodeString_EncodeToString.
Qed.
End Tokens.
