(* ===== verification/PreviewToken.v ===== *)
(** * internal/previewtoken: links that show an unpublished event

    [env] is the value of EVENT_PREVIEW_SECRET; [sign] is the function of the same text in
    publicaccessproof. *)
From stdpp Require Import base tactics list strings.
From Stdlib Require Import Ascii ZArith.
From S2P Require Import Prelude GoStrings GoInt Sha256 Json Base64 PlanStore AccessProof.
Open Scope string_scope.

Definition previewSecret (env : string) : string := TrimSpace env.

Section Previews.
Context {text : UuidText}.

Definition signed_text (eventID expiresAt : string) : string := eventID +:+ "." +:+ expiresAt.
Definition GenerateWithExpiry (env : string) (eventID : uuid) (ttl now : Z) : option (string * Z) :=
  let secret := previewSecret env in
  if String.eqb secret "" then None
  else
    let expiresAt := (now + ttl)%Z in
    let payload := signed_text (uuid_text eventID) (Sprint (Unix expiresAt)) in
    Some (EncodeToString (payload +:+ "." +:+ sign payload secret), expiresAt).
Definition Generate (env : string) (eventID : uuid) (ttl now : Z) : option string := fst <$> GenerateWithExpiry env eventID ttl now.

Definition Validate (env token : string) (eventID : uuid) (now : Z) : bool :=
  let secret := previewSecret env in
  let token := TrimSpace token in
  if String.eqb token "" || String.eqb secret "" then false
  else match DecodeString token with
       | None => false
       | Some decoded =>
           match Split decoded "."%char with
           | [event; expiry; signature] =>
               if negb (String.eqb event (uuid_text eventID)) then false
               else match ParseInt64 expiry with
                    | None => false
                    | Some expiresAt =>
                        if Z.ltb expiresAt (Unix now) then false
                        else String.eqb (sign (signed_text event expiry) secret) signature
                    end
           | _ => false
           end
       end.
End Previews.

(** ** The round trip *)

Lemma itoa_plain z : forallb (λ c, is_digit c || byte_is 45 c) (itoa z) = true.
Proof.
  assert (∀ u, forallb (λ c, is_digit c || byte_is 45 c) (digits u) = true) as Hd by (intros u; by induction u).
  destruct z as [|p|p]; cbn [itoa]; [done|apply Hd|]. cbn. by rewrite Hd.
Qed.
Lemma ParseInt64_Sprint z : is_int64 z → ParseInt64 (Sprint z) = Some z.
Proof.
  intros Hz. unfold ParseInt64, Sprint. rewrite bytes_of_bytes. destruct z as [|p|p]; [done|..]; cbn [itoa N.to_uint].
  - destruct (positive_digits p) as (c & r & Hd & Hc). rewrite Hd.
    assert (byte_is 45 c = false ∧ byte_is 43 c = false) as [-> ->].
    { unfold byte_is, in_range in *. apply andb_true_iff in Hc as [?%N.leb_le _]. rewrite !N.eqb_neq. lia. }
    rewrite <-Hd, uint_of_digits. cbn [mbind option_bind]. change (N.of_uint (Pos.to_uint p)) with (N.of_uint (N.to_uint (Npos p))).
    rewrite DecimalN.Unsigned.of_to. cbn [Z.of_N]. unfold is_int64, maxInt64 in *. destruct (_ && _) eqn:He; [done|]. lia.
  - change (byte_is 45 "-") with true. cbn iota. destruct (positive_digits p) as (c & r & Hd & _). rewrite Hd, <-Hd, uint_of_digits.
    cbn [mbind option_bind]. change (N.of_uint (Pos.to_uint p)) with (N.of_uint (N.to_uint (Npos p))).
    rewrite DecimalN.Unsigned.of_to. cbn [Z.of_N Z.opp]. unfold is_int64, maxInt64 in *. destruct (_ && _) eqn:He; [done|]. lia.
Qed.

Section Tokens.
Context {text : UuidText} {shape : UuidShape text}.

Lemma uuid_text_without id : without "." (uuid_text id) = true.
Proof.
  pose proof (shape id) as Hs. revert Hs. apply all_bytes_impl. intros c Hc. destruct (Ascii.eqb_spec c ".") as [->|]; [done|done].
Qed.
Lemma Sprint_without z : without "." (Sprint z) = true.
Proof.
  unfold without, all_bytes, Sprint. rewrite bytes_of_bytes. pose proof (itoa_plain z) as Hz. rewrite forallb_forall in Hz |- *.
  intros c Hc%Hz. by destruct (Ascii.eqb_spec c ".") as [->|].
Qed.
(** A token of [GenerateWithExpiry], read by [Validate]. *)
Lemma Validate_GenerateWithExpiry env id ttl now token expires id' now' :
  GenerateWithExpiry env id ttl now = Some (token, expires) → is_int64 (Unix (now + ttl)) →
  expires = (now + ttl)%Z ∧ (Validate env token id' now' = true ↔ id' = id ∧ (Unix now' ≤ Unix expires)%Z).
Proof.
  unfold GenerateWithExpiry. destruct (String.eqb_spec (previewSecret env) "") as [|Hsec]; [done|]. intros [= <- <-] Hx. split; [done|].
  unfold Validate. set (body := _ +:+ _ +:+ _). rewrite TrimSpace_visible by apply encoded_plain. rewrite DecodeString_EncodeToString.
  destruct (String.eqb_spec (EncodeToString body) "") as [He|_].
  { change "" with (EncodeToString "") in He. apply encoded_inj, (f_equal (λ s, length (Split s "."))) in He. unfold body, signed_text in He.
    rewrite !append_grouped in He. rewrite !Split_cons, Split_one in He by (apply uuid_text_without || apply Sprint_without || apply encoded_plain). done. }
  destruct (String.eqb_spec (previewSecret env) ""); [done|]. cbn [orb]. unfold body. unfold signed_text at 1. rewrite !append_grouped.
  rewrite !Split_cons, Split_one by (apply uuid_text_without || apply Sprint_without || apply encoded_plain).
  destruct (String.eqb_spec (uuid_text id) (uuid_text id')) as [Hid|Hid]; cbn [negb].
  - apply uuid_text_inj in Hid as <-. rewrite ParseInt64_Sprint by done. destruct (Z.ltb_spec (Unix (now + ttl)) (Unix now')).
    + split; [done|lia].
    + rewrite String.eqb_refl. split; [done|done].
  - split; [done|]. intros [-> _]. done.
Qed.
(** What an accepted token says. *)
Lemma Validate_signed env token id now : Validate env token id now = true → previewSecret env ≠ "" ∧ ∃ expiry expiresAt,
  DecodeString (TrimSpace token) = Some (signed_text (uuid_text id) expiry +:+ "." +:+ sign (signed_text (uuid_text id) expiry) (previewSecret env)) ∧
  ParseInt64 expiry = Some expiresAt ∧ (Unix now ≤ expiresAt)%Z.
Proof.
  unfold Validate. destruct (String.eqb_spec (TrimSpace token) ""); [done|]. destruct (String.eqb_spec (previewSecret env) ""); [done|]. cbn [orb].
  destruct (DecodeString (TrimSpace token)) as [decoded|]; [|done]. destruct (Split decoded ".") as [|event [|expiry [|signature [|]]]] eqn:Hs; try done.
  destruct (String.eqb_spec event (uuid_text id)) as [->|]; [|done]. cbn [negb]. destruct (ParseInt64 expiry) as [expiresAt|] eqn:Hp; [|done].
  destruct (Z.ltb_spec expiresAt (Unix now)); [done|]. intros Hsig%String.eqb_eq. split; [done|]. exists expiry, expiresAt. split_and!; [|done..].
  f_equal. rewrite Hsig. unfold signed_text. rewrite !append_grouped. by apply Split_three.
Qed.
End Tokens.
