(* ===== verification/EventAccess.v ===== *)
(** * Who may read an event: models/EventConfig.go, services/events/access_window.go and
    invitation_holder.go, internal/accesstoken, utils/public_token.go and
    controllers/publicaccess

    Repositories are functions of the request; they may fail with any error.  Every reading of
    the clock is an argument of its own. *)
From stdpp Require Import base tactics list strings.
From Stdlib Require Import Ascii ZArith.
From S2P Require Import Prelude GoStrings PlanStore AccessProof.
From S2P Require PreviewToken.
Open Scope string_scope.

(** ** models.EventConfig *)

(** A [time.Time]: nanoseconds since the Unix epoch, and the offset of its zone in seconds. *)
Record Time := { Nano : Z; Offset : Z }.
Definition zeroTime : Z := (-62135596800 * Second)%Z.
Definition IsZero (t : Time) : bool := Z.eqb (Nano t) zeroTime.
(** [value.Year() > 1970]: the wall clock is past the 365 days of 1970. *)
Definition after_1970 (t : Time) : bool := Z.leb (365 * 86400) (Unix (Nano t) + Offset t).

(** The messages, the design of the page and the times of the row are left out. *)
Record EventConfig := {
  ID : uuid; IsPublic : bool; IsAuthPreview : bool; AllowUploads : bool; AllowMessages : bool; AuthPasswordPreview : string;
  NotifyOnMomentUpload : bool; ActiveFrom : Time; ActiveUntil : option Time; RSVPDeadline : option Time;
  ShowCountdown : bool; ShowRSVPSection : bool; ShowEventLocation : bool; ShowSecondLocation : bool; ShowHostsSection : bool;
  ShowPhotoGallery : bool; ShowMomentWall : bool; VisibilityConfigured : bool; ShareUploadsEnabled : bool; MaxUploadsPerGuest : Z;
  AutoApproveUploads : bool; ShowContactSection : bool; ShowHeader : bool; ShowFooter : bool; ShowEventSchedule : bool;
}.
Definition HasAnyVisibilityFlag (cfg : option EventConfig) : bool :=
  match cfg with
  | None => false
  | Some c => ShowCountdown c || ShowRSVPSection c || ShowEventLocation c || ShowSecondLocation c || ShowHostsSection c || ShowPhotoGallery c ||
              ShowMomentWall c || ShowContactSection c || ShowHeader c || ShowFooter c || ShowEventSchedule c
  end.
Definition with_defaults (c : EventConfig) : EventConfig := {|
  ID := ID c; IsPublic := IsPublic c; IsAuthPreview := IsAuthPreview c; AllowUploads := AllowUploads c; AllowMessages := AllowMessages c;
  AuthPasswordPreview := AuthPasswordPreview c; NotifyOnMomentUpload := NotifyOnMomentUpload c; ActiveFrom := ActiveFrom c;
  ActiveUntil := ActiveUntil c; RSVPDeadline := RSVPDeadline c; ShowCountdown := true; ShowRSVPSection := true; ShowEventLocation := true;
  ShowSecondLocation := true; ShowHostsSection := true; ShowPhotoGallery := true; ShowMomentWall := negb (AllowUploads c);
  VisibilityConfigured := VisibilityConfigured c; ShareUploadsEnabled := ShareUploadsEnabled c; MaxUploadsPerGuest := MaxUploadsPerGuest c;
  AutoApproveUploads := AutoApproveUploads c; ShowContactSection := true; ShowHeader := true; ShowFooter := true; ShowEventSchedule := true |}.
Definition ApplyVisibilityDefaults (c : EventConfig) : EventConfig :=
  if VisibilityConfigured c || HasAnyVisibilityFlag (Some c) then c else with_defaults c.
Definition WithVisibilityDefaults (cfg : option EventConfig) : option EventConfig := ApplyVisibilityDefaults <$> cfg.
Definition NormalizedAuthPasswordPreview (cfg : option EventConfig) : string :=
  match cfg with None => "" | Some c => TrimSpace (AuthPasswordPreview c) end.
Definition HasAuthPasswordPreview (cfg : option EventConfig) : bool := negb (String.eqb (NormalizedAuthPasswordPreview cfg) "").
Definition RSVPDeadlinePassed (cfg : option EventConfig) (now : Z) : bool :=
  match cfg with
  | None => false
  | Some c =>
      match RSVPDeadline c with
      | None => false
      | Some deadline => if IsZero deadline || negb (after_1970 deadline) then false else Z.ltb (Nano deadline) now
      end
  end.

(** ** services/events *)

Inductive window_status := AccessWindowOpen | AccessWindowNotStarted | AccessWindowEnded.
#[export] Instance window_status_eq : EqDecision window_status.
Proof. solve_decision. Defined.
Definition EventAccessTimeSet (value : Time) : bool := negb (IsZero value) && after_1970 value.
Definition EventAccessWindowStatus (cfg : option EventConfig) (now : Z) : window_status :=
  match cfg with
  | None => AccessWindowOpen
  | Some c =>
      if EventAccessTimeSet (ActiveFrom c) && Z.ltb now (Nano (ActiveFrom c)) then AccessWindowNotStarted
      else match ActiveUntil c with
           | Some until => if EventAccessTimeSet until && Z.ltb (Nano until) now then AccessWindowEnded else AccessWindowOpen
           | None => AccessWindowOpen
           end
  end.
Definition EventAccessWindowOpen (cfg : option EventConfig) (now : Z) : bool := bool_decide (EventAccessWindowStatus cfg now = AccessWindowOpen).

Section Access.
Context {text : UuidText} {E : Type}.

(** [pageSpecAccessVersion] *)
Definition EventConfigAccessVersion (env : string) (cfg : option EventConfig) : string :=
  match cfg with
  | None => ""
  | Some c => if HasAuthPasswordPreview cfg then PasswordVersion env (ID c) (NormalizedAuthPasswordPreview cfg) else ""
  end.
Definition InvitationHeldByLiveGuest (lookup : option (uuid → Result E bool)) (invitationID : uuid) : bool :=
  match lookup with
  | None => true
  | Some lookup => match lookup invitationID with Ok live => live | Err _ => false end
  end.

(** ** internal/accesstoken *)

Record InvitationAccessToken := { InvitationID : uuid; Token_ExpiresAt : option Time }.
Record AccessTokenRepository := {
  GetByToken : string → Result E (option InvitationAccessToken);
  GetByPrettyToken : string → Result E (option InvitationAccessToken);
}.
Definition Lookup (repo : option AccessTokenRepository) (token : string) : Result E (option InvitationAccessToken) :=
  let token := TrimSpace token in
  match repo with
  | None => mret None
  | Some repo =>
      if String.eqb token "" then mret None
      else match GetByToken repo token with
           | Ok (Some accessToken) => mret (Some accessToken)
           | raw =>
               match GetByPrettyToken repo token, raw with
               | Ok (Some prettyToken), _ => mret (Some prettyToken)
               | _, Err tokenErr => Err tokenErr
               | Err prettyErr, _ => Err prettyErr
               | Ok None, _ => mret None
               end
           end
  end.

(** ** controllers/publicaccess *)

Record Invitation := { Invitation_ID : uuid; Invitation_EventID : uuid }.
Record InvitationRepository := {
  GetInvitationByIDLite : uuid → Result E (option Invitation);
  InvitationHasLiveGuest : option (uuid → Result E bool);
}.
Record EventReadDeps := {
  ConfigRepo : option (uuid → Result E (option EventConfig)); TokenRepo : option AccessTokenRepository;
  InvitationRepo : option InvitationRepository; IsEventActive : option (uuid → Result E bool); Now : option Z;
  RequirePasswordProof : bool; PasswordProofToken : string;
}.
Record EventReadResult := { Allowed : bool; Config : option EventConfig }.
Inductive read_error := config_repository_unavailable | repository_error (e : E).
(** The process: its secrets, and the clock when a preview, the window and a proof are read. *)
Record Process := { EVENT_PREVIEW_SECRET : string; EVENT_ACCESS_SECRET : string; preview_now : Z; read_now : Z; proof_now : Z }.

Definition eventReadNow (p : Process) (deps : EventReadDeps) : Z := match Now deps with Some now => now | None => read_now p end.
Definition eventPasswordProofRequired (p : Process) (eventID : uuid) (cfg : option EventConfig) (deps : EventReadDeps) : bool :=
  if negb (RequirePasswordProof deps) || bool_decide (cfg = None) || negb (HasAuthPasswordPreview cfg) then false
  else negb (Validate (EVENT_ACCESS_SECRET p) (PasswordProofToken deps) eventID (EventConfigAccessVersion (EVENT_ACCESS_SECRET p) cfg) (proof_now p)).
Definition isExpiredAccessToken (accessToken : InvitationAccessToken) (now : Z) : bool :=
  match Token_ExpiresAt accessToken with Some expires => Z.ltb (Nano expires) now | None => false end.
Definition allowInvitationToken (eventID : uuid) (token : string) (deps : EventReadDeps) (now : Z) : bool :=
  match TokenRepo deps, InvitationRepo deps with
  | Some tokens, Some invitations =>
      if String.eqb token "" then false
      else match Lookup (Some tokens) token with
           | Ok (Some accessToken) =>
               if isExpiredAccessToken accessToken now then false
               else match GetInvitationByIDLite invitations (InvitationID accessToken) with
                    | Ok (Some invitation) =>
                        if negb (N.eqb (Invitation_EventID invitation) eventID) then false
                        else InvitationHeldByLiveGuest (InvitationHasLiveGuest invitations) (Invitation_ID invitation)
                    | _ => false
                    end
           | _ => false
           end
  | _, _ => false
  end.
Definition nothing : EventReadResult := {| Allowed := false; Config := None |}.
Definition AllowEventReadWithConfig (p : Process) (eventID : uuid) (previewToken invitationToken : string) (deps : EventReadDeps) :
    EventReadResult * option read_error :=
  match ConfigRepo deps with
  | None => (nothing, Some config_repository_unavailable)
  | Some configs =>
      let previewAllowed := PreviewToken.Validate (EVENT_PREVIEW_SECRET p) previewToken eventID (preview_now p) in
      let now := eventReadNow p deps in
      match configs eventID with
      | Err e => (nothing, Some (repository_error e))
      | Ok cfg =>
          let cfg := WithVisibilityDefaults cfg in
          let result allowed := {| Allowed := allowed; Config := cfg |} in
          let read :=
            if negb (EventAccessWindowOpen cfg now) then (result previewAllowed, None)
            else if eventPasswordProofRequired p eventID cfg deps && negb previewAllowed then (result false, None)
            else if match cfg with Some c => IsPublic c | None => false end then (result true, None)
            else (result (previewAllowed || allowInvitationToken eventID invitationToken deps now), None) in
          match IsEventActive deps with
          | None => read
          | Some is_active =>
              match is_active eventID with
              | Err e => (result false, Some (repository_error e))
              | Ok active => if negb active then (result previewAllowed, None) else read
              end
          end
      end
  end.
(** utils/public_token.go: the first of the names with a value. *)
Record Request := { Header : string → string; QueryParam : string → string }.
Fixpoint first_given (read : string → string) (keys : list string) : string :=
  match keys with
  | [] => ""
  | key :: rest => let token := TrimSpace (read key) in if String.eqb token "" then first_given read rest else token
  end.
Definition publicInvitationQueryKeys : list string :=
  ["token"; "Token"; "invitation_token"; "invitationToken"; "InvitationToken"; "pretty_token"; "prettyToken"; "PrettyToken"].
Definition publicEventAccessQueryKeys : list string := ["event_access_token"; "eventAccessToken"; "EventAccessToken"].
Definition publicPreviewQueryKeys : list string := ["preview_token"; "previewToken"; "PreviewToken"].
Definition HeaderEventAccessToken : string := "X-Event-Access-Token".
Definition PublicInvitationQueryToken (c : Request) : string := first_given (QueryParam c) publicInvitationQueryKeys.
Definition PublicEventAccessToken (c : Request) : string :=
  let token := TrimSpace (Header c HeaderEventAccessToken) in
  if String.eqb token "" then first_given (QueryParam c) publicEventAccessQueryKeys else token.
Definition PublicPreviewToken (c : Request) : string := first_given (QueryParam c) publicPreviewQueryKeys.
Definition eventReadDepsWithRequestProof (c : Request) (deps : EventReadDeps) : EventReadDeps :=
  let proof := PublicEventAccessToken c in
  if String.eqb proof "" then deps
  else {| ConfigRepo := ConfigRepo deps; TokenRepo := TokenRepo deps; InvitationRepo := InvitationRepo deps; IsEventActive := IsEventActive deps;
          Now := Now deps; RequirePasswordProof := RequirePasswordProof deps; PasswordProofToken := proof |}.
Definition AllowEventReadFromRequestWithConfig (p : Process) (c : Request) (eventID : uuid) (deps : EventReadDeps) : EventReadResult * option read_error :=
  AllowEventReadWithConfig p eventID (PublicPreviewToken c) (PublicInvitationQueryToken c) (eventReadDepsWithRequestProof c deps).
Definition AllowEventRead (p : Process) (eventID : uuid) (previewToken invitationToken : string) (deps : EventReadDeps) : bool * option read_error :=
  let '(result, err) := AllowEventReadWithConfig p eventID previewToken invitationToken deps in (Allowed result, err).
End Access.
Arguments InvitationRepository : clear implicits.
Arguments AccessTokenRepository : clear implicits.
Arguments EventReadDeps : clear implicits.
Arguments read_error : clear implicits.
