(* ===== verification/AttemptLimiter.v ===== *)
(** * internal/publicaccessproof/attempts.go and VerifyEventAccess of controllers/events:
    guesses of an event's password

    The limiter's operations are atomic (a mutex, or a Redis script); between them other
    requests run.  A handler is therefore a program ([Prog]) that asks for operations, and a run
    interleaves the programs of many requests (the runs are at the end). *)
From stdpp Require Import base tactics list strings gmap.
From Stdlib Require Import Ascii ZArith.
From S2P Require Import Prelude GoStrings Sha256 Json PlanStore AccessProof EventAccess.
Open Scope string_scope.
Open Scope Z_scope.

Definition Minute : Z := 60 * Second.
Definition PasswordAttemptsPerIP : Z := 10.
Definition PasswordAttemptsPerIPWindow : Z := 10 * Minute.
Definition PasswordFailuresPerIPUnderAttack : Z := 3.
Definition PasswordFailuresPerEvent : Z := 100.
Definition PasswordFailuresEventWindow : Z := 15 * Minute.

Definition PasswordMatches (stored candidate : string) : bool :=
  bool_decide (Sum256 (TrimSpace stored) = Sum256 (TrimSpace candidate)).

(** ** The counters in process memory *)

Record memoryWindow := { count : Z; expiresAt : Z }.
Notation memory := (gmap string memoryWindow).
(** The window of a key that has not expired. *)
Definition live (m : memory) (key : string) (now : Z) : option memoryWindow :=
  w ← m !! key; if Z.ltb now (expiresAt w) then Some w else None.
Definition sweep (now : Z) (m : memory) : memory :=
  if Nat.ltb (N.to_nat 50000) (size m) then filter (λ kw, now < expiresAt kw.2) m else m.
Definition addMemory (key : string) (delta window now : Z) (m : memory) : (Z * Z) * memory :=
  let m := sweep now m in
  match live m key now with
  | None =>
      if Z.eqb delta 0 then ((0, 0), m)
      else let current := {| count := delta; expiresAt := now + window |} in ((count current, expiresAt current - now), <[key := current]> m)
  | Some w =>
      let current := {| count := count w + delta; expiresAt := expiresAt w |} in ((count current, expiresAt current - now), <[key := current]> m)
  end.
Definition refundMemory (key : string) (now : Z) (m : memory) : memory :=
  match live m key now with
  | None => m
  | Some w => if Z.leb (count w) 0 then m else <[key := {| count := count w - 1; expiresAt := expiresAt w |}]> m
  end.

Definition attemptKey (name identifier : string) : string := "security:rate-limit:" +:+ name +:+ ":" +:+ hexSum256 identifier.
(** [reply]: what the Redis script answers, if there is a client and it does not fail. *)
Definition add (reply : option (list Z)) (name identifier : string) (delta window now : Z) (m : memory) : (Z * Z) * memory :=
  match reply with
  | Some [current; ttl] => ((current, let retry := ttl * 1000000 in if Z.ltb retry 0 then 0 else retry), m)
  | _ => addMemory (attemptKey name identifier) delta window now m
  end.
Definition refund (done : bool) (name identifier : string) (now : Z) (m : memory) : memory :=
  if done then m else refundMemory (attemptKey name identifier) now m.

(** ** Programs *)

Inductive Prog (A : Type) :=
| Ret (a : A)
| Add (name identifier : string) (delta window : Z) (k : Z * Z → Prog A)
| Refund (name identifier : string) (k : Prog A).
Arguments Ret {A} a.
Arguments Add {A} name identifier delta window k.
Arguments Refund {A} name identifier k.
Fixpoint prog_bind {A B} (f : A → Prog B) (p : Prog A) : Prog B :=
  match p with
  | Ret a => f a
  | Add name identifier delta window k => Add name identifier delta window (λ r, prog_bind f (k r))
  | Refund name identifier k => Refund name identifier (prog_bind f k)
  end.
#[export] Instance prog_mret : MRet Prog := λ A, Ret.
#[export] Instance prog_mbind : MBind Prog := λ A B, prog_bind.
Definition op_add (name identifier : string) (delta window : Z) : Prog (Z * Z) := Add name identifier delta window Ret.
Definition op_refund (name identifier : string) : Prog unit := Refund name identifier (Ret tt).

(** Package net: an IPv4 address has a text, any other one the text of its /64 prefix. *)
Class GoNet := { address : Type; ParseIP : string → option address; To4 : address → option string; Mask64 : address → string }.
Definition no_addresses : GoNet := {| address := unit; ParseIP _ := None; To4 _ := None; Mask64 _ := "" |}.

Section Limiter.
Context {text : UuidText} {net : GoNet}.

Definition ClientKey (ip : string) : string :=
  let trimmed := TrimSpace ip in
  match ParseIP trimmed with
  | None => trimmed
  | Some parsed => match To4 parsed with Some v4 => v4 | None => Mask64 parsed +:+ "/64" end
  end.
Definition ipFailureIdentifier (eventID : uuid) (ip : string) : string := uuid_text eventID +:+ "|" +:+ ClientKey ip.
Definition ReserveIPFailure (eventID : uuid) (ip : string) (underAttack : bool) : Prog (bool * Z) :=
  let limit := if underAttack then PasswordFailuresPerIPUnderAttack else PasswordAttemptsPerIP in
  let identifier := ipFailureIdentifier eventID ip in
  '(count, retry) ← op_add "event-password-ip" identifier 1 PasswordAttemptsPerIPWindow;
  if Z.leb count limit then mret (true, retry)
  else _ ← op_refund "event-password-ip" identifier; mret (false, retry).
Definition RefundIPFailure (eventID : uuid) (ip : string) : Prog unit := op_refund "event-password-ip" (ipFailureIdentifier eventID ip).
Definition EventFailuresExceeded (eventID : uuid) : Prog (bool * Z) :=
  '(count, retry) ← op_add "event-password-fail" (uuid_text eventID) 0 PasswordFailuresEventWindow;
  mret (Z.leb PasswordFailuresPerEvent count, retry).
Definition RecordFailure (eventID : uuid) : Prog unit :=
  _ ← op_add "event-password-fail" (uuid_text eventID) 1 PasswordFailuresEventWindow; mret tt.

(** ** VerifyEventAccess *)

Definition eventPasswordAccessTTL : Z := 12 * 60 * Minute.
Inductive access_response :=
| PasswordRequired | MissingIdentifier | EventNotFound | ConfigServiceUnavailable | ConfigNotFound | ConfigError | NotPublic | NotProtected
| TooManyAttempts (seconds : Z) | WrongPassword | TokenError | Granted (accessToken accessVersion : string) (expires : Z).
(** The header Retry-After: the seconds are rounded up, and there is one at least. *)
Definition tooManyPasswordAttempts (retry : Z) : access_response :=
  let seconds := (retry + (Second - 1)) / Second in TooManyAttempts (if Z.ltb seconds 1 then 1 else seconds).

Context {E : Type}.
Record Event := { Event_ID : uuid; Event_IsActive : bool }.
Record Services := {
  GetEventByIdentifier : string → Result E (option Event); eventConfigSvc : option (uuid → Result E (option EventConfig));
  eventAccessTokenRepo : option (AccessTokenRepository E); eventInvitationRepo : option (InvitationRepository E);
}.
(** A request: its path, its JSON body if it can be read, its client, and the clock when its proof is made. *)
Record AccessRequest := { Identifier : string; Password : option string; Query : Request; RealIP : string; issue_now : Z }.

Definition eventPublicReadDeps (s : Services) (isEventActive : uuid → Result E bool) : EventReadDeps E := {|
  ConfigRepo := eventConfigSvc s; TokenRepo := eventAccessTokenRepo s; InvitationRepo := eventInvitationRepo s;
  IsEventActive := Some isEventActive; Now := None; RequirePasswordProof := false; PasswordProofToken := "" |}.
Definition allowPublicEventRead (s : Services) (p : Process) (event : option Event) (previewToken invitationToken : string) : bool * option (read_error E) :=
  match event with
  | None => (false, None)
  | Some event => AllowEventRead p (Event_ID event) previewToken invitationToken (eventPublicReadDeps s (λ _, Ok (Event_IsActive event)))
  end.
(** The part of the handler for a protected event. *)
Definition verify_password (p : Process) (event : Event) (cfg : EventConfig) (password clientIP : string) (now : Z) : Prog access_response :=
  '(underAttack, _) ← EventFailuresExceeded (Event_ID event);
  '(ok, retry) ← ReserveIPFailure (Event_ID event) clientIP underAttack;
  if negb ok then mret (tooManyPasswordAttempts retry)
  else if negb (PasswordMatches (NormalizedAuthPasswordPreview (Some cfg)) password)
  then _ ← RecordFailure (Event_ID event); mret WrongPassword
  else
    _ ← RefundIPFailure (Event_ID event) clientIP;
    let accessVersion := EventConfigAccessVersion (EVENT_ACCESS_SECRET p) (Some cfg) in
    match Generate (EVENT_ACCESS_SECRET p) (Event_ID event) accessVersion eventPasswordAccessTTL now with
    | None => mret TokenError
    | Some (accessToken, expires) => mret (Granted accessToken accessVersion expires)
    end.
Definition VerifyEventAccess (s : Services) (p : Process) (r : AccessRequest) : Prog access_response :=
  if String.eqb (Identifier r) "" then mret MissingIdentifier
  else match Password r with
       | None => mret PasswordRequired
       | Some password =>
           let password := TrimSpace password in
           if String.eqb password "" then mret PasswordRequired
           else match GetEventByIdentifier s (Identifier r) with
                | Err _ | Ok None => mret EventNotFound
                | Ok (Some event) =>
                    match eventConfigSvc s with
                    | None => mret ConfigServiceUnavailable
                    | Some configs =>
                        match configs (Event_ID event) with
                        | Err _ | Ok None => mret ConfigNotFound
                        | Ok (Some cfg) =>
                            match allowPublicEventRead s p (Some event) (PublicPreviewToken (Query r)) (PublicInvitationQueryToken (Query r)) with
                            | (_, Some _) => mret ConfigError
                            | (allowed, None) =>
                                if negb allowed then mret NotPublic
                                else if negb (HasAuthPasswordPreview (Some cfg)) then mret NotProtected
                                else verify_password p event cfg password (RealIP r) (issue_now r)
                            end
                        end
                    end
                end
       end.
End Limiter.
Arguments Services : clear implicits.

(** ** Runs of many guesses

    A run interleaves requests at the operations of the limiter, with any readings of the
    clock.  Each window of a counter has a number; a request remembers in which window its
    slot is, and which window it gave a slot back to. *)

(** A window: its key, and its number among the windows of the key. *)
Notation window_id := (string * nat)%type.
(** [client]: the key of the event and the client of the request, if its event exists. *)
Record thread := { program : Prog access_response; client : option string; slot : option window_id; returned : option window_id }.
Record system := { windows : memory; opened : gmap string nat; threads : list thread }.
Definition window_number (s : system) (key : string) : nat := default 0%nat (opened s !! key).

Inductive label (E : Type) :=
| Arrive (s : Services E) (p : Process) (r : AccessRequest)
| Run (i : nat) (now : Z).
Arguments Arrive {E} s p r.
Arguments Run {E} i now.

(** Whether an addition starts a window, and a refund finds a slot. *)
Definition starts (key : string) (delta now : Z) (m : memory) : bool := bool_decide (live (sweep now m) key now = None) && negb (Z.eqb delta 0).
Definition takes_back (key : string) (now : Z) (m : memory) : bool :=
  match live m key now with Some w => Z.ltb 0 (count w) | None => false end.

Section Runs.
Context {text : UuidText} {net : GoNet} {E : Type}.

(** One operation of thread [i], in process memory. *)
Definition run_thread (s : system) (i : nat) (t : thread) (now : Z) : system :=
  match program t with
  | Ret _ => s
  | Add name identifier delta window k =>
      let key := attemptKey name identifier in
      let '(reply, m) := add None name identifier delta window now (windows s) in
      let number := if starts key delta now (windows s) then S (window_number s key) else window_number s key in
      {| windows := m; opened := <[key := number]> (opened s);
         threads := <[i := {| program := k reply; client := client t; slot := if String.eqb name "event-password-ip" then Some (key, number) else slot t;
                              returned := returned t |}]> (threads s) |}
  | Refund name identifier k =>
      let key := attemptKey name identifier in
      {| windows := refund false name identifier now (windows s); opened := <[key := window_number s key]> (opened s);
         threads := <[i := {| program := k; client := client t; slot := slot t;
                              returned := if takes_back key now (windows s) then Some (key, window_number s key) else returned t |}]> (threads s) |}
  end.
Definition client_of (s : Services E) (r : AccessRequest) : option string :=
  match GetEventByIdentifier s (Identifier r) with
  | Ok (Some event) => Some (attemptKey "event-password-ip" (ipFailureIdentifier (Event_ID event) (RealIP r)))
  | _ => None
  end.
Definition step (s : system) (l : label E) : system :=
  match l with
  | Arrive services p r =>
      {| windows := windows s; opened := opened s;
         threads := (threads s ++ [{| program := VerifyEventAccess services p r; client := client_of services r; slot := None; returned := None |}])%list |}
  | Run i now => match threads s !! i with Some t => run_thread s i t now | None => s end
  end.
Definition start : system := {| windows := ∅; opened := ∅; threads := [] |}.
Definition run (labels : list (label E)) : system := foldl step start labels.
End Runs.

(** ** Counting threads *)

Fixpoint number_of {A} (P : A → bool) (l : list A) : Z := match l with [] => 0 | x :: l => (if P x then 1 else 0) + number_of P l end.
Lemma number_of_nonneg {A} (P : A → bool) l : 0 ≤ number_of P l.
Proof. induction l as [|x l IH]; cbn; [lia|]. destruct (P x); lia. Qed.
Lemma number_of_app {A} (P : A → bool) l k : number_of P (l ++ k)%list = number_of P l + number_of P k.
Proof. induction l as [|x l IH]; cbn; [lia|]. rewrite IH. lia. Qed.
Lemma number_of_insert {A} (P : A → bool) l i x y : l !! i = Some x →
  number_of P (<[i := y]> l) = number_of P l - (if P x then 1 else 0) + (if P y then 1 else 0).
Proof.
  revert i. induction l as [|z l IH]; intros [|i]; [done..| |]; intros Hi.
  - injection Hi as ->. cbn. lia.
  - change (number_of P (<[S i := y]> (z :: l))) with ((if P z then 1 else 0) + number_of P (<[i := y]> l)). rewrite (IH i Hi). cbn. lia.
Qed.
Lemma number_of_none {A} (P : A → bool) l : (∀ x, x ∈ l → P x = false) → number_of P l = 0.
Proof. induction l as [|x l IH]; intros Hl; [done|]. cbn. rewrite (Hl x) by (by left). rewrite IH; [lia|]. intros y Hy. apply Hl. by right. Qed.
Lemma number_of_le {A} (P Q : A → bool) l : (∀ x, x ∈ l → P x = true → Q x = true) → number_of P l ≤ number_of Q l.
Proof.
  induction l as [|x l IH]; intros Hl; cbn; [lia|]. specialize (Hl x ltac:(by left)) as Hx.
  assert (number_of P l ≤ number_of Q l) by (apply IH; intros y Hy; apply Hl; by right).
  destruct (P x); [rewrite Hx by done; lia|]. destruct (Q x); lia.
Qed.

(** ** The stages of a request *)

(** A request that may compare the password, or has: it holds its slot. *)
Definition in_slot (w : window_id) (t : thread) : bool := bool_decide (slot t = Some w).
Definition is_refused (p : Prog access_response) : bool := match p with Refund _ _ (Ret (TooManyAttempts _)) => true | _ => false end.
Definition is_wrong (p : Prog access_response) : bool := match p with Ret WrongPassword => true | _ => false end.
Definition is_done (p : Prog access_response) : bool := match p with Ret _ => true | _ => false end.
Definition guessing (w : window_id) (t : thread) : bool :=
  in_slot w t && negb (is_refused (program t)) && (negb (is_done (program t)) || is_wrong (program t)).
Definition refused (w : window_id) (t : thread) : bool := in_slot w t && is_refused (program t).
Definition wrong (w : window_id) (t : thread) : bool := in_slot w t && is_wrong (program t).
(** A slot that is given back to a window it was not taken from. *)
Definition late (w : window_id) (t : thread) : bool := bool_decide (returned t = Some w) && negb (in_slot w t).

Section Stages.
Context {text : UuidText} {net : GoNet} {E : Type}.

Inductive stage : thread → Prop :=
| stage_done r client slot returned : match slot with Some w => client = Some w.1 | None => is_wrong (Ret r) = false end →
    stage {| program := Ret r; client := client; slot := slot; returned := returned |}
| stage_check p event cfg password ip now :
    stage {| program := verify_password p event cfg password ip now; client := Some (attemptKey "event-password-ip" (ipFailureIdentifier (Event_ID event) ip));
             slot := None; returned := None |}
| stage_reserve identifier window k limit : 1 ≤ limit ≤ PasswordAttemptsPerIP →
    (∀ c retry, limit < c → ∃ r, k (c, retry) = Refund "event-password-ip" identifier (Ret (TooManyAttempts r))) →
    (∀ c retry, c ≤ limit → (∃ r, k (c, retry) = Refund "event-password-ip" identifier (Ret r) ∧ is_refused (k (c, retry)) = false ∧ is_wrong (Ret r) = false) ∨
      (∃ name identifier' window', k (c, retry) = Add name identifier' 1 window' (λ _, Ret WrongPassword) ∧ String.eqb name "event-password-ip" = false)) →
    stage {| program := Add "event-password-ip" identifier 1 window k; client := Some (attemptKey "event-password-ip" identifier); slot := None; returned := None |}
| stage_refund identifier number r : is_wrong (Ret r) = false →
    stage {| program := Refund "event-password-ip" identifier (Ret r); client := Some (attemptKey "event-password-ip" identifier);
             slot := Some (attemptKey "event-password-ip" identifier, number); returned := None |}
| stage_wrong name identifier window w : String.eqb name "event-password-ip" = false →
    stage {| program := Add name identifier 1 window (λ _, Ret WrongPassword); client := Some w.1; slot := Some w; returned := None |}.

Lemma VerifyEventAccess_stage (s : Services E) p r : stage {| program := VerifyEventAccess s p r; client := client_of s r; slot := None; returned := None |}.
Proof.
  unfold VerifyEventAccess, client_of. destruct (String.eqb _ _); [by apply stage_done|]. destruct (Password r); [|by apply stage_done].
  destruct (String.eqb _ _); [by apply stage_done|]. destruct (GetEventByIdentifier s (Identifier r)) as [[event|]|]; [|by apply stage_done..].
  repeat (match goal with |- context [match ?x with _ => _ end] => destruct x end; try by apply stage_done). apply stage_check.
Qed.
Lemma check_stage p event cfg password ip now : ∃ name identifier window k,
  verify_password p event cfg password ip now = Add name identifier 0 window k ∧ String.eqb name "event-password-ip" = false ∧
  ∀ reply, stage {| program := k reply; client := Some (attemptKey "event-password-ip" (ipFailureIdentifier (Event_ID event) ip)); slot := None; returned := None |}.
Proof.
  unfold verify_password, EventFailuresExceeded, op_add. cbn [mbind prog_mbind prog_bind mret prog_mret].
  do 4 eexists. split; [reflexivity|]. split; [done|]. intros [c0 retry0]. cbn [prog_bind].
  unfold ReserveIPFailure, op_add. cbn [mbind prog_mbind prog_bind].
  set (limit := if PasswordFailuresPerEvent <=? c0 then PasswordFailuresPerIPUnderAttack else PasswordAttemptsPerIP).
  apply (stage_reserve _ _ _ limit).
  { unfold limit, PasswordFailuresPerIPUnderAttack, PasswordAttemptsPerIP. destruct (_ <=? _); lia. }
  - intros c retry Hc. cbn [prog_bind]. fold limit. destruct (Z.leb_spec c limit); [lia|]. cbn. eexists. reflexivity.
  - intros c retry Hc. cbn [prog_bind]. fold limit. destruct (Z.leb_spec c limit); [|lia]. cbn. destruct (PasswordMatches _ password); cbn.
    + left. destruct (Generate _ _ _ _ _) as [[token expires]|]; eexists; by split_and!.
    + right. do 3 eexists. by split.
Qed.
End Stages.
