(* ===== verification/AttemptTheorems.v ===== *)
(** * What the limiter of guesses promises *)
From stdpp Require Import base tactics list strings gmap.
From Stdlib Require Import Ascii ZArith.
From S2P Require Import Prelude GoStrings Sha256 Json PlanStore AccessProof EventAccess AttemptLimiter.
Open Scope string_scope.
Open Scope Z_scope.

(** ** The memory *)

Lemma sweep_Some now m key w : sweep now m !! key = Some w → m !! key = Some w.
Proof. unfold sweep. destruct (Nat.ltb _ _); [|done]. intros Hw. by apply map_lookup_filter_Some_1_1 in Hw. Qed.
Lemma live_Some m key now w : live m key now = Some w → m !! key = Some w.
Proof. unfold live. intros (w' & Hw & Hlive)%bind_Some. destruct (Z.ltb now (expiresAt w')); [|done]. by injection Hlive as <-. Qed.
Lemma addMemory_other key delta window now m key' w : key' ≠ key → (addMemory key delta window now m).2 !! key' = Some w → m !! key' = Some w.
Proof.
  intros Hne. unfold addMemory. destruct (live (sweep now m) key now); [|destruct (Z.eqb delta 0)]; cbn [snd];
    rewrite ?lookup_insert_ne by done; apply sweep_Some.
Qed.
(** What an addition does to its key. *)
Inductive addition (key : string) (delta now : Z) (m : memory) : (Z * Z) * memory → Prop :=
| added w retry m' : starts key delta now m = false → m !! key = Some w → (∀ w', m' !! key = Some w' → count w' = count w + delta) →
    addition key delta now m ((count w + delta, retry), m')
| untouched m' : starts key delta now m = false → delta = 0 → (∀ w, m' !! key = Some w → m !! key = Some w) → addition key delta now m ((0, 0), m')
| started retry m' : starts key delta now m = true → (∀ w', m' !! key = Some w' → count w' = delta) → addition key delta now m ((delta, retry), m').
Lemma addMemory_addition key delta window now m : addition key delta now m (addMemory key delta window now m).
Proof.
  unfold addMemory. destruct (live (sweep now m) key now) as [w|] eqn:Hl.
  - apply added; [unfold starts; by rewrite Hl|by eapply sweep_Some, live_Some|]. intros w'. rewrite lookup_insert_eq. by intros [= <-].
  - destruct (Z.eqb_spec delta 0) as [->|Hd].
    + apply untouched; [apply andb_false_r|done|]. intros w. apply sweep_Some.
    + apply (started key delta now m); [unfold starts; apply Z.eqb_neq in Hd; rewrite Hd, bool_decide_eq_true_2; [reflexivity|exact Hl]|]. intros w'. rewrite lookup_insert_eq. by intros [= <-].
Qed.

Section Guesses.
Context {text : UuidText} {net : GoNet} {E : Type}.

(** ** The invariant *)

Definition guesses (w : window_id) (s : system) : Z := number_of (guessing w) (threads s).
Definition refusals (w : window_id) (s : system) : Z := number_of (refused w) (threads s).
Definition late_refunds (w : window_id) (s : system) : Z := number_of (late w) (threads s).
Record counted (s : system) : Prop := {
  threads_staged t : t ∈ threads s → stage t;
  windows_opened t key n : t ∈ threads s → slot t = Some (key, n) ∨ returned t = Some (key, n) → (n ≤ window_number s key)%nat;
  slots_counted key w : windows s !! key = Some w → 0 ≤ count w ∧
    guesses (key, window_number s key) s + refusals (key, window_number s key) s ≤ count w + late_refunds (key, window_number s key) s;
  guesses_bounded w : guesses w s ≤ PasswordAttemptsPerIP + late_refunds w s;
}.

(** A window that is not opened yet has no slots. *)
Lemma unopened s key n : counted s → (window_number s key < n)%nat →
  guesses (key, n) s = 0 ∧ refusals (key, n) s = 0 ∧ late_refunds (key, n) s = 0.
Proof.
  intros Hs Hn. assert (∀ t, t ∈ threads s → in_slot (key, n) t = false ∧ bool_decide (returned t = Some (key, n)) = false) as Hno.
  { intros t Ht. unfold in_slot. split; apply bool_decide_eq_false; intros Heq.
    - pose proof (windows_opened s Hs t key n Ht (or_introl Heq)). lia.
    - pose proof (windows_opened s Hs t key n Ht (or_intror Heq)). lia. }
  split_and!; apply number_of_none; intros t Ht; destruct (Hno t Ht) as [H1 H2]; unfold guessing, refused, late; rewrite ?H1, ?H2; done.
Qed.
(** The counts of a thread. *)
Definition b2z (b : bool) : Z := if b then 1 else 0.
Lemma replaced s i t t' w : threads s !! i = Some t →
  number_of (guessing w) (<[i := t']> (threads s)) = guesses w s - b2z (guessing w t) + b2z (guessing w t') ∧
  number_of (refused w) (<[i := t']> (threads s)) = refusals w s - b2z (refused w t) + b2z (refused w t') ∧
  number_of (late w) (<[i := t']> (threads s)) = late_refunds w s - b2z (late w t) + b2z (late w t').
Proof. intros Hi. unfold guesses, refusals, late_refunds, b2z. split_and!; by apply number_of_insert. Qed.

(** One thread changes, at one key. *)
Lemma counted_step s i t t' key number m : counted s → threads s !! i = Some t → stage t' →
  (window_number s key ≤ number)%nat →
  (∀ k n, slot t' = Some (k, n) ∨ returned t' = Some (k, n) → slot t = Some (k, n) ∨ returned t = Some (k, n) ∨ k = key ∧ (n ≤ number)%nat) →
  (∀ k w, k ≠ key → m !! k = Some w → windows s !! k = Some w) →
  (∀ w, w.1 ≠ key → b2z (guessing w t') - b2z (late w t') ≤ b2z (guessing w t) - b2z (late w t) ∧
    b2z (guessing w t') + b2z (refused w t') - b2z (late w t') ≤ b2z (guessing w t) + b2z (refused w t) - b2z (late w t)) →
  let s' := {| windows := m; opened := <[key := number]> (opened s); threads := <[i := t']> (threads s) |} in
  (∀ w, m !! key = Some w → 0 ≤ count w ∧ guesses (key, number) s' + refusals (key, number) s' ≤ count w + late_refunds (key, number) s') →
  (∀ n, guesses (key, n) s' ≤ PasswordAttemptsPerIP + late_refunds (key, n) s') →
  counted s'.
Proof.
  intros Hs Hi Hstage Hnumber Hslots Hm Hother s' Hkey Hbound.
  assert (∀ k, window_number s' k = if decide (k = key) then number else window_number s k) as Hwn.
  { intros k. unfold window_number, s'. cbn. destruct (decide (k = key)) as [->|Hk]; [by rewrite lookup_insert_eq|by rewrite lookup_insert_ne]. }
  assert (∀ k, (window_number s k ≤ window_number s' k)%nat) as Hgrow by (intros k; rewrite Hwn; destruct (decide (k = key)) as [->|]; lia).
  assert (∀ u, u ∈ threads s' → u = t' ∨ u ∈ threads s) as Hin.
  { intros u (j & Hj)%list_elem_of_lookup. cbn in Hj. destruct (decide (i = j)) as [->|Hij].
    - rewrite list_lookup_insert_eq in Hj by (by eapply lookup_lt_Some). injection Hj as <-. by left.
    - rewrite list_lookup_insert_ne in Hj by done. right. by eapply list_elem_of_lookup_2. }
  pose proof (list_elem_of_lookup_2 _ _ _ Hi) as Ht. split.
  - intros u [->|Hu]%Hin; [done|by apply Hs].
  - intros u k n [->|Hu]%Hin Hkn.
    + destruct (Hslots k n Hkn) as [Hold|[Hold|[-> Hn]]].
      * pose proof (windows_opened s Hs t k n Ht (or_introl Hold)). specialize (Hgrow k). lia.
      * pose proof (windows_opened s Hs t k n Ht (or_intror Hold)). specialize (Hgrow k). lia.
      * rewrite Hwn, decide_True by done. done.
    + pose proof (windows_opened s Hs u k n Hu Hkn). specialize (Hgrow k). lia.
  - intros k w Hw. rewrite Hwn. destruct (decide (k = key)) as [->|Hk]; [by apply Hkey|].
    destruct (slots_counted s Hs k w (Hm k w Hk Hw)) as [H0 Hc]. split; [done|].
    destruct (replaced s i t t' (k, window_number s k) Hi) as (R1 & R2 & R3). destruct (Hother (k, window_number s k) Hk) as [_ Ho].
    unfold guesses, refusals, late_refunds in *. cbn [threads s'] in *. lia.
  - intros [k n]. destruct (decide (k = key)) as [->|Hk]; [apply Hbound|].
    destruct (replaced s i t t' (k, n) Hi) as (R1 & R2 & R3). destruct (Hother (k, n) Hk) as [Ho _]. pose proof (guesses_bounded s Hs (k, n)).
    unfold guesses, refusals, late_refunds in *. cbn [threads s'] in *. lia.
Qed.

(** ** Each operation keeps it *)

(** An addition at a key that no slot of the thread changes. *)
Lemma counted_add s i t t' key delta window now : counted s → threads s !! i = Some t → stage t' → 0 ≤ delta →
  slot t' = slot t → returned t' = returned t → (∀ w, guessing w t' = guessing w t ∧ refused w t' = refused w t ∧ late w t' = late w t) →
  counted {| windows := (addMemory key delta window now (windows s)).2;
    opened := <[key := if starts key delta now (windows s) then S (window_number s key) else window_number s key]> (opened s); threads := <[i := t']> (threads s) |}.
Proof.
  intros Hs Hi Hstage Hdelta Hslot Hret Hsame.
  assert (∀ w, number_of (guessing w) (<[i := t']> (threads s)) = guesses w s ∧ number_of (refused w) (<[i := t']> (threads s)) = refusals w s ∧
    number_of (late w) (<[i := t']> (threads s)) = late_refunds w s) as Hkept.
  { intros w. destruct (replaced s i t t' w Hi) as (-> & -> & ->). destruct (Hsame w) as (-> & -> & ->). lia. }
  apply counted_step with t; try done.
  - destruct (starts _ _ _ _); lia.
  - intros k n Hkn. rewrite Hslot, Hret in Hkn. tauto.
  - intros k w Hk. by apply addMemory_other.
  - intros w _. destruct (Hsame w) as (-> & -> & ->). lia.
  - intros w Hw. unfold guesses, refusals, late_refunds. cbn [threads].
    destruct (addMemory_addition key delta window now (windows s)) as [w0 retry m' -> Hw0 Hm'|m' -> -> Hm'|retry m' -> Hm'].
    + destruct (Hkept (key, window_number s key)) as (-> & -> & ->). destruct (slots_counted s Hs key w0 Hw0). rewrite (Hm' w Hw). lia.
    + destruct (Hkept (key, window_number s key)) as (-> & -> & ->). apply (slots_counted s Hs key w). by apply Hm'.
    + destruct (Hkept (key, S (window_number s key))) as (-> & -> & ->). destruct (unopened s key (S (window_number s key)) Hs) as (-> & -> & ->); [lia|].
      rewrite (Hm' w Hw). lia.
  - intros n. unfold guesses, late_refunds. cbn [threads]. destruct (Hkept (key, n)) as (-> & _ & ->). apply (guesses_bounded s Hs).
Qed.

Lemma in_slot_of w t : in_slot w t = true ↔ slot t = Some w.
Proof. apply bool_decide_eq_true. Qed.
Lemma no_slot w t : slot t = None → returned t = None → guessing w t = false ∧ refused w t = false ∧ late w t = false.
Proof. intros Hs Hr. unfold guessing, refused, late, in_slot. by rewrite Hs, Hr, !bool_decide_eq_false_2. Qed.
Lemma other_slot w w' t : slot t = Some w' → returned t = None → w ≠ w' → guessing w t = false ∧ refused w t = false ∧ late w t = false.
Proof.
  intros Hs Hr Hw. unfold guessing, refused, late, in_slot. rewrite Hs, Hr, !bool_decide_eq_false_2; [done|done|congruence].
Qed.
Lemma own_slot w t : slot t = Some w → guessing w t = negb (is_refused (program t)) && (negb (is_done (program t)) || is_wrong (program t)) ∧
  refused w t = is_refused (program t) ∧ late w t = false.
Proof.
  intros Hs. unfold guessing, refused, late, in_slot. rewrite Hs, bool_decide_eq_true_2 by done. cbn. split_and!; [done..|apply andb_false_r].
Qed.

(** Taking a slot. *)
Lemma counted_reserve s i t identifier window k limit now : counted s → threads s !! i = Some t →
  t = {| program := Add "event-password-ip" identifier 1 window k; client := Some (attemptKey "event-password-ip" identifier); slot := None; returned := None |} → 1 ≤ limit ≤ PasswordAttemptsPerIP →
  (∀ c retry, limit < c → ∃ r, k (c, retry) = Refund "event-password-ip" identifier (Ret (TooManyAttempts r))) →
  (∀ c retry, c ≤ limit → (∃ r, k (c, retry) = Refund "event-password-ip" identifier (Ret r) ∧ is_refused (k (c, retry)) = false ∧ is_wrong (Ret r) = false) ∨
    (∃ name identifier' window', k (c, retry) = Add name identifier' 1 window' (λ _, Ret WrongPassword) ∧ String.eqb name "event-password-ip" = false)) →
  counted (run_thread s i t now).
Proof.
  intros Hs Hi -> Hlimit Hover Hunder. cbn [run_thread program client slot returned]. set (key := attemptKey "event-password-ip" identifier) in *.
  change (add None "event-password-ip" identifier 1 window now (windows s)) with (addMemory key 1 window now (windows s)).
  destruct (addMemory key 1 window now (windows s)) as [reply m] eqn:Hadd. rewrite String.eqb_refl.
  pose proof (addMemory_addition key 1 window now (windows s)) as Hcase. rewrite Hadd in Hcase.
  assert (∀ k' w, k' ≠ key → m !! k' = Some w → windows s !! k' = Some w) as Hother.
  { intros k' w Hk Hw. apply (addMemory_other key 1 window now (windows s) k' w Hk). by rewrite Hadd. }
  set (number := if starts key 1 now (windows s) then _ else _). set (t' := {| program := k reply; client := Some key; slot := Some (key, number); returned := None |}).
  set (t := {| program := Add _ _ _ _ _; client := _; slot := None; returned := None |}) in *.
  assert (∀ w, w ≠ (key, number) → guessing w t' = false ∧ refused w t' = false ∧ late w t' = false) as Hne by (intros w Hw; by apply (other_slot w (key, number))).
  assert (∀ w, guessing w t = false ∧ refused w t = false ∧ late w t = false) as Hnone by (intros w; by apply no_slot).
  destruct (own_slot (key, number) t' eq_refl) as (Hg & Hr & Hl). cbn [program t'] in Hg, Hr.
  assert (stage t' ∧ (limit < reply.1 ∧ is_refused (k reply) = true ∨ reply.1 ≤ limit ∧ is_refused (k reply) = false)) as [Hstage Hwhich].
  { destruct reply as [c retry]. cbn [fst]. unfold t'. destruct (Z.ltb_spec limit c) as [Hc|Hc].
    - destruct (Hover c retry Hc) as (r & ->). split; [by apply stage_refund|by left].
    - destruct (Hunder c retry Hc) as [(r & Hk & Hnr & Hnw)|(name & identifier' & window' & Hk & Hname)].
      + rewrite Hnr, Hk. split; [by apply stage_refund|by right].
      + rewrite Hk. split; [by apply (stage_wrong _ _ _ (key, number))|by right]. }
  assert (b2z (guessing (key, number) t') + b2z (refused (key, number) t') ≤ 1 ∧ (limit < reply.1 → guessing (key, number) t' = false)) as [Hone Hrefused].
  { rewrite Hg, Hr. destruct Hwhich as [[? ->]|[? ->]]; cbn; [split; [lia|done]|]. split; [destruct (_ || _); cbn; lia|lia]. }
  destruct (replaced s i t t' (key, number) Hi) as (R1 & R2 & R3). destruct (Hnone (key, number)) as (N1 & N2 & N3). rewrite N1 in R1. rewrite N2 in R2. rewrite N3, Hl in R3. cbn [b2z] in R1, R2, R3.
  assert (∀ w, m !! key = Some w → guesses (key, number) s + refusals (key, number) s + 1 ≤ count w + late_refunds (key, number) s ∧ count w = reply.1 ∧ 0 ≤ count w) as Hcount.
  { intros w Hw. unfold number. inversion Hcase as [w0 retry m' Hst Hw0 Hm' Heq|m' _ Hd|retry m' Hst Hm' Heq]; subst; [|done|]; rewrite Hst; cbn [fst].
    - destruct (slots_counted s Hs key w0 Hw0). rewrite (Hm' w Hw). split; [lia|]. split; [done|lia].
    - destruct (unopened s key (S (window_number s key)) Hs) as (-> & -> & ->); [lia|]. rewrite (Hm' w Hw). split; [lia|]. split; [done|lia]. }
  assert (∃ w, m !! key = Some w) as [w0 Hw0].
  { assert (m = (addMemory key 1 window now (windows s)).2) as -> by (by rewrite Hadd). unfold addMemory.
    destruct (live _ _ _); cbn [snd]; eexists; apply lookup_insert_eq. }
  destruct (Hcount w0 Hw0) as (C1 & C2 & C3).
  apply counted_step with t; try done.
  - unfold number. destruct (starts _ _ _ _); lia.
  - cbn. intros k' n [[= <- <-]|]; [|done]. right. right. done.
  - intros w Hw. destruct (Hne w) as (-> & -> & ->); [by intros ->|]. destruct (Hnone w) as (-> & -> & ->). lia.
  - intros w Hw. destruct (Hcount w Hw) as (D1 & D2 & D3). split; [done|]. unfold guesses, refusals, late_refunds. cbn [threads]. rewrite R1, R2, R3. lia.
  - intros n. unfold guesses, late_refunds. cbn [threads]. destruct (decide (n = number)) as [->|Hn].
    + rewrite R1, R3. pose proof (guesses_bounded s Hs (key, number)). destruct (Z.ltb_spec limit reply.1) as [Hc|Hc].
      * rewrite (Hrefused Hc). cbn [b2z]. lia.
      * pose proof (number_of_nonneg (refused (key, number)) (threads s)). unfold refusals in C1.
        assert (b2z (guessing (key, number) t') ≤ 1) by (destruct (guessing _ t'); cbn; lia). lia.
    + destruct (replaced s i t t' (key, n) Hi) as (-> & _ & ->). destruct (Hne (key, n)) as (-> & _ & ->); [congruence|]. destruct (Hnone (key, n)) as (-> & _ & ->).
      pose proof (guesses_bounded s Hs (key, n)). cbn [b2z]. lia.
Qed.

(** Giving a slot back. *)
Lemma refundMemory_other key now m key' w : key' ≠ key → refundMemory key now m !! key' = Some w → m !! key' = Some w.
Proof.
  intros Hne. unfold refundMemory. destruct (live m key now) as [w'|]; [|done]. destruct (Z.leb (count w') 0); [done|]. by rewrite lookup_insert_ne.
Qed.
Lemma refundMemory_own key now m w : refundMemory key now m !! key = Some w →
  ∃ w', m !! key = Some w' ∧ (takes_back key now m = false ∧ w = w' ∨ takes_back key now m = true ∧ 0 < count w' ∧ count w = count w' - 1).
Proof.
  unfold refundMemory, takes_back. destruct (live m key now) as [w'|] eqn:Hl; [|intros Hw; exists w; split; [done|by left]].
  destruct (Z.leb_spec (count w') 0) as [Hc|Hc]; intros Hw.
  - exists w. split; [done|]. left. destruct (Z.ltb_spec 0 (count w')); [lia|done].
  - exists w'. split; [by eapply live_Some|]. right. rewrite lookup_insert_eq in Hw. injection Hw as <-. cbn. split; [lia|lia].
Qed.
Lemma counted_refund s i t identifier number r now : counted s → threads s !! i = Some t →
  t = {| program := Refund "event-password-ip" identifier (Ret r); client := Some (attemptKey "event-password-ip" identifier); slot := Some (attemptKey "event-password-ip" identifier, number); returned := None |} →
  is_wrong (Ret r) = false → counted (run_thread s i t now).
Proof.
  intros Hs Hi -> Hr. cbn [run_thread program client slot returned]. unfold refund. set (key := attemptKey "event-password-ip" identifier) in *.
  set (back := takes_back key now (windows s)). set (own := (key, window_number s key)).
  set (t' := {| program := Ret r; client := Some key; slot := Some (key, number); returned := if back then Some own else None |}).
  set (t := {| program := Refund _ _ _; client := _; slot := _; returned := None |}) in *.
  assert (∀ w, guessing w t' = false ∧ refused w t' = false) as Hdone.
  { intros w. unfold guessing, refused. cbn [t' program is_refused is_done]. rewrite Hr, !andb_false_r. done. }
  assert (∀ w, late w t = false) as Hnot by (intros w; unfold late; cbn [returned t]; by rewrite bool_decide_eq_false_2).
  assert (∀ w, b2z (guessing w t) + b2z (refused w t) = b2z (bool_decide (w = (key, number)))) as Hsum.
  { intros w. unfold guessing, refused, in_slot. cbn [t slot program is_done]. destruct (decide (w = (key, number))) as [->|Hw].
    - rewrite !bool_decide_eq_true_2 by done. cbn [andb negb orb]. by destruct (is_refused _).
    - rewrite !bool_decide_eq_false_2 by congruence. done. }
  assert (∀ w, b2z (late w t') = b2z (back && bool_decide (w = own) && bool_decide (w ≠ (key, number)))) as Hlate.
  { intros w. unfold late, in_slot. cbn [t' returned slot]. f_equal. destruct back; cbn [andb]; [|by rewrite bool_decide_eq_false_2].
    f_equal; [apply bool_decide_ext; naive_solver congruence|]. rewrite <-bool_decide_not. apply bool_decide_ext. naive_solver congruence. }
  apply counted_step with t; try done.
  - by apply stage_done.
  - cbn. intros k n [[= <- <-]|Hb]; [by left|]. right. right. destruct back; [|done]. by injection Hb as <- <-.
  - intros k w Hk. by apply refundMemory_other.
  - intros w Hw. destruct (Hdone w) as (-> & ->). rewrite Hnot, Hlate, (bool_decide_eq_false_2 (w = own)) by (by intros ->). rewrite andb_false_r. cbn.
      unfold b2z. destruct (guessing w t), (refused w t); lia.
  - intros w Hw. change (key, window_number s key) with own. unfold guesses, refusals, late_refunds. cbn [threads]. destruct (replaced s i t t' own Hi) as (-> & -> & ->).
      destruct (Hdone own) as (-> & ->). rewrite Hnot, Hlate, (bool_decide_eq_true_2 (own = own)) by done. specialize (Hsum own).
      destruct (refundMemory_own key now (windows s) w Hw) as (w' & Hw' & Hcase). destruct (slots_counted s Hs key w' Hw') as [H0 Hc].
      change (key, window_number s key) with own in Hc. fold back in Hcase.
      destruct Hcase as [[Hb ->]|(Hb & Hpos & ->)]; rewrite Hb; cbn [andb].
    + cbn. unfold b2z in *. destruct (guessing own t), (refused own t); lia.
    + destruct (decide (own = (key, number))) as [Heq|Hne].
      * rewrite (bool_decide_eq_false_2 (own ≠ _)) by (intros Hn; by apply Hn). rewrite bool_decide_eq_true_2 in Hsum by done. cbn in *. lia.
      * rewrite (bool_decide_eq_true_2 (own ≠ _)) by done. rewrite bool_decide_eq_false_2 in Hsum by done. cbn in *. lia.
  - intros n. unfold guesses, late_refunds. cbn [threads]. destruct (replaced s i t t' (key, n) Hi) as (-> & _ & ->).
      destruct (Hdone (key, n)) as (-> & _). rewrite Hnot, Hlate. pose proof (guesses_bounded s Hs (key, n)).
      unfold b2z. destruct (guessing (key, n) t), (back && _ && _); lia.
Qed.

(** ** Runs *)

Lemma counted_thread s i t now : counted s → threads s !! i = Some t → counted (run_thread s i t now).
Proof.
  intros Hs Hi. pose proof (threads_staged s Hs t (list_elem_of_lookup_2 _ _ _ Hi)) as Hstage.
  inversion Hstage as [r c sl re _ Heq|p event cfg password ip now' Heq|identifier window k limit Hlimit Hover Hunder Heq|identifier number r Hr Heq|name identifier window w Hname Heq]; subst t.
  - done.
  - destruct (check_stage p event cfg password ip now') as (name & identifier & window & k & Hp & Hname & Hk).
    cbn [run_thread program client slot returned] in *. unfold run_thread. cbn [program]. rewrite Hp. cbn [program client slot returned].
    destruct (add None name identifier 0 window now (windows s)) as [reply m] eqn:Hadd. rewrite Hname.
    replace m with (addMemory (attemptKey name identifier) 0 window now (windows s)).2 by (unfold add in Hadd; by rewrite Hadd).
    eapply counted_add; [done|done|apply Hk|lia|done|done|]. intros w.
    destruct (no_slot w {| program := verify_password p event cfg password ip now';
      client := Some (attemptKey "event-password-ip" (ipFailureIdentifier (Event_ID event) ip)); slot := None; returned := None |}) as (-> & -> & ->); [done..|].
    by apply no_slot.
  - by eapply counted_reserve.
  - by eapply counted_refund.
  - unfold run_thread. cbn [program client slot returned]. rewrite Hname.
    destruct (add None name identifier 1 window now (windows s)) as [reply m] eqn:Hadd.
    replace m with (addMemory (attemptKey name identifier) 1 window now (windows s)).2 by (unfold add in Hadd; by rewrite Hadd).
    eapply counted_add; [done|done|by apply stage_done|lia|done|done|]. intros w0. unfold guessing, refused, late, in_slot. done.
Qed.
Lemma counted_start : counted start.
Proof.
  split.
  - intros t []%not_elem_of_nil.
  - intros t key n []%not_elem_of_nil.
  - intros key w Hw. cbn [windows start] in Hw. by rewrite lookup_empty in Hw.
  - intros w. cbn. unfold PasswordAttemptsPerIP. lia.
Qed.
Lemma counted_arrive s t : counted s → stage t → slot t = None → returned t = None →
  counted {| windows := windows s; opened := opened s; threads := (threads s ++ [t])%list |}.
Proof.
  intros Hs Hstage Hslot Hret.
  assert (∀ w, number_of (guessing w) (threads s ++ [t])%list = guesses w s ∧ number_of (refused w) (threads s ++ [t])%list = refusals w s ∧
    number_of (late w) (threads s ++ [t])%list = late_refunds w s) as Hkept.
  { intros w. destruct (no_slot w t Hslot Hret) as (H1 & H2 & H3). rewrite !number_of_app. cbn. rewrite H1, H2, H3. unfold guesses, refusals, late_refunds. lia. }
  split.
  - intros u [Hu|Hu%list_elem_of_singleton]%elem_of_app; [by apply Hs|by subst].
  - intros u key n [Hu|Hu%list_elem_of_singleton]%elem_of_app Hkn; [by apply (windows_opened s Hs u)|]. subst u. rewrite Hslot, Hret in Hkn. naive_solver.
  - intros key w Hw. unfold guesses, refusals, late_refunds. cbn [threads]. destruct (Hkept (key, window_number s key)) as (H1 & H2 & H3).
    change (window_number {| windows := windows s; opened := opened s; threads := (threads s ++ [t])%list |} key) with (window_number s key).
    rewrite H1, H2, H3. by apply (slots_counted s Hs).
  - intros w. unfold guesses, late_refunds. cbn [threads]. destruct (Hkept w) as (-> & _ & ->). apply (guesses_bounded s Hs).
Qed.
Lemma counted_run (labels : list (label E)) : counted (run labels).
Proof.
  unfold run. assert (∀ s, counted s → counted (foldl step s labels)) as Hall; [|apply Hall, counted_start].
  induction labels as [|l labels IH]; intros s Hs; [done|]. apply IH. destruct l as [services p r|i now]; cbn [step].
  - apply counted_arrive; [done|apply VerifyEventAccess_stage|done|done].
  - destruct (threads s !! i) as [t|] eqn:Hi; [|done]. by apply counted_thread.
Qed.

(** C10: guesses are bounded.  Whatever requests arrive, and however their operations are interleaved and the clock is read, every request
    that is answered with 401 holds a slot of its event and client, and in one window at most ten such requests hold one,
    plus the slots that were given back to that window by requests that had taken theirs in another one. *)
Theorem wrong_guesses_are_bounded (labels : list (label E)) :
  (∀ t, t ∈ threads (run labels) → program t = Ret WrongPassword → ∃ w, slot t = Some w ∧ client t = Some w.1) ∧
  ∀ w, number_of (wrong w) (threads (run labels)) ≤ 10 + number_of (late w) (threads (run labels)).
Proof.
  pose proof (counted_run labels) as Hs. split.
  - intros t Ht Hp. pose proof (threads_staged _ Hs t Ht) as Hstage. destruct Hstage as [r c sl re Hc|p event cfg password ip now'| | |]; cbn in *; try done.
    injection Hp as ->. destruct sl as [w|]; [by exists w|done].
  - intros w. pose proof (guesses_bounded _ Hs w) as Hb. unfold PasswordAttemptsPerIP, guesses, late_refunds in Hb.
    assert (number_of (wrong w) (threads (run labels)) ≤ number_of (guessing w) (threads (run labels))); [|lia].
    apply number_of_le. intros t _. unfold wrong, guessing. intros [-> Hw]%andb_true_iff. rewrite Hw, orb_true_r.
    destruct (program t) as [[]| |]; done.
Qed.
End Guesses.
