(* ===== verification/EventAccessTheorems.v ===== *)
(** * What the gates of an event promise *)
From stdpp Require Import base tactics list strings.
From Stdlib Require Import Ascii ZArith.
From S2P Require Import Prelude GoStrings GoInt Json JsonTypes Sha256 Base64 PlanStore AccessProof EventAccess AttemptLimiter.
From S2P Require PreviewToken.
Open Scope string_scope.

Section Gate.
Context {text : UuidText} {shape : UuidShape text} {E : Type}.
Implicit Types (deps : EventReadDeps E) (p : Process).

(** ** The decision *)

(** The event can be read at [now] by its configured window. *)
Definition in_window (cfg : option EventConfig) (now : Z) : Prop := ∀ c, cfg = Some c →
  (EventAccessTimeSet (ActiveFrom c) = true → (Nano (ActiveFrom c) ≤ now)%Z) ∧
  (∀ until, ActiveUntil c = Some until → EventAccessTimeSet until = true → (now ≤ Nano until)%Z).
(** The guest has verified the password, where one is asked for. *)
Definition password_verified p (eventID : uuid) (cfg : option EventConfig) deps : Prop :=
  ∀ c, RequirePasswordProof deps = true → cfg = Some c → TrimSpace (AuthPasswordPreview c) ≠ "" →
    Validate (EVENT_ACCESS_SECRET p) (PasswordProofToken deps) eventID (PasswordVersion (EVENT_ACCESS_SECRET p) (ID c) (AuthPasswordPreview c)) (proof_now p) = true.
(** The token is one of an invitation to the event that a guest holds. *)
Definition invited (eventID : uuid) (token : string) deps (now : Z) : Prop := ∃ tokens invitations t invitation,
  token ≠ "" ∧ TokenRepo deps = Some tokens ∧ InvitationRepo deps = Some invitations ∧ Lookup (Some tokens) token = Ok (Some t) ∧
  (∀ expires, Token_ExpiresAt t = Some expires → (now ≤ Nano expires)%Z) ∧
  GetInvitationByIDLite invitations (InvitationID t) = Ok (Some invitation) ∧ Invitation_EventID invitation = eventID ∧
  (∀ lookup, InvitationHasLiveGuest invitations = Some lookup → lookup (Invitation_ID invitation) = Ok true).
Definition active (eventID : uuid) deps : Prop := ∀ is_active, IsEventActive deps = Some is_active → is_active eventID = Ok true.

Lemma EventAccessWindowOpen_iff cfg now : EventAccessWindowOpen cfg now = true ↔ in_window cfg now.
Proof.
  unfold EventAccessWindowOpen, EventAccessWindowStatus, in_window. destruct cfg as [c|]; [|rewrite bool_decide_eq_true; naive_solver].
  rewrite bool_decide_eq_true. destruct (EventAccessTimeSet (ActiveFrom c)) eqn:Hf; cbn [andb].
  - destruct (Z.ltb_spec now (Nano (ActiveFrom c))) as [Hlt|Hge].
    { split; [done|]. intros Hw. destruct (Hw c eq_refl) as [Hfrom _]. specialize (Hfrom Hf). lia. }
    destruct (ActiveUntil c) as [until|] eqn:Hu; [|naive_solver].
    destruct (EventAccessTimeSet until) eqn:Hs; cbn [andb]; [|naive_solver congruence].
    destruct (Z.ltb_spec (Nano until) now) as [Hlt|Hle]; [|naive_solver].
    split; [done|]. intros Hw. destruct (Hw c eq_refl) as [_ Huntil]. specialize (Huntil until Hu Hs). lia.
  - destruct (ActiveUntil c) as [until|] eqn:Hu; [|naive_solver congruence].
    destruct (EventAccessTimeSet until) eqn:Hs; cbn [andb]; [|naive_solver congruence].
    destruct (Z.ltb_spec (Nano until) now) as [Hlt|Hle]; [|naive_solver congruence].
    split; [done|]. intros Hw. destruct (Hw c eq_refl) as [_ Huntil]. specialize (Huntil until Hu Hs). lia.
Qed.
#[local] Ltac no_invitation := split; [discriminate|intros (? & ? & ? & ? & ? & ? & ? & ? & _ & ? & ? & _); simplify_eq; congruence].
Lemma allowInvitationToken_iff eventID token deps now : allowInvitationToken eventID token deps now = true ↔ invited eventID token deps now.
Proof.
  unfold allowInvitationToken, invited. destruct (TokenRepo deps) as [tokens|]; [|no_invitation]. destruct (InvitationRepo deps) as [invitations|]; [|no_invitation].
  destruct (String.eqb_spec token "") as [->|Ht]; [no_invitation|]. destruct (Lookup (Some tokens) token) as [[t|]|] eqn:Hl; [|no_invitation..].
  unfold isExpiredAccessToken. destruct (match Token_ExpiresAt t with Some _ => _ | None => _ end) eqn:Hx.
  { split; [done|]. intros (? & ? & t' & ? & _ & [= <-] & [= <-] & Hl' & Hn & _). rewrite Hl in Hl'. injection Hl' as <-.
    destruct (Token_ExpiresAt t) as [expires|]; [|done]. specialize (Hn expires eq_refl). lia. }
  assert (∀ expires, Token_ExpiresAt t = Some expires → (now ≤ Nano expires)%Z) as Hfresh by (intros expires He; rewrite He in Hx; lia).
  destruct (GetInvitationByIDLite invitations (InvitationID t)) as [[invitation|]|] eqn:Hi; [|no_invitation..].
  destruct (N.eqb_spec (Invitation_EventID invitation) eventID) as [He|He]; cbn [negb]; [|no_invitation].
  unfold InvitationHeldByLiveGuest. split.
  - intros Hlive. exists tokens, invitations, t, invitation. split_and!; try done. intros lookup Hlk. rewrite Hlk in Hlive.
    destruct (lookup (Invitation_ID invitation)); [by subst|done].
  - intros (? & ? & t' & inv' & _ & [= <-] & [= <-] & Hl' & _ & Hi' & _ & Hlive). rewrite Hl in Hl'. injection Hl' as <-. rewrite Hi in Hi'. injection Hi' as <-.
    destruct (InvitationHasLiveGuest invitations) as [lookup|]; [|done]. by rewrite (Hlive lookup eq_refl).
Qed.

(** The defaults of visibility leave the gates alone. *)
Lemma defaults_keep cfg now : EventAccessWindowOpen (WithVisibilityDefaults cfg) now = EventAccessWindowOpen cfg now ∧
  HasAuthPasswordPreview (WithVisibilityDefaults cfg) = HasAuthPasswordPreview cfg ∧
  (∀ env, EventConfigAccessVersion env (WithVisibilityDefaults cfg) = EventConfigAccessVersion env cfg) ∧
  match WithVisibilityDefaults cfg with Some c => IsPublic c | None => false end = match cfg with Some c => IsPublic c | None => false end ∧
  (WithVisibilityDefaults cfg = None ↔ cfg = None).
Proof. destruct cfg as [c|]; [|done]. cbn. unfold ApplyVisibilityDefaults. by destruct (_ || _). Qed.
Lemma EventConfigAccessVersion_eq env c : HasAuthPasswordPreview (Some c) = true →
  EventConfigAccessVersion env (Some c) = PasswordVersion env (ID c) (AuthPasswordPreview c).
Proof. intros Hc. unfold EventConfigAccessVersion. rewrite Hc. apply PasswordVersion_trimmed. apply TrimSpace_idem. Qed.
Lemma HasAuthPasswordPreview_iff c : HasAuthPasswordPreview (Some c) = true ↔ TrimSpace (AuthPasswordPreview c) ≠ "".
Proof. unfold HasAuthPasswordPreview. cbn. destruct (String.eqb_spec (TrimSpace (AuthPasswordPreview c)) ""); naive_solver. Qed.
Lemma eventPasswordProofRequired_iff p eventID cfg deps : eventPasswordProofRequired p eventID (WithVisibilityDefaults cfg) deps = false ↔ password_verified p eventID cfg deps.
Proof.
  unfold eventPasswordProofRequired, password_verified. destruct (defaults_keep cfg 0) as (_ & -> & -> & _ & Hnone).
  rewrite (bool_decide_ext _ _ Hnone). destruct (RequirePasswordProof deps); cbn [negb orb]; [|naive_solver]. destruct cfg as [c|]; [|rewrite bool_decide_eq_true_2 by done; naive_solver].
  rewrite bool_decide_eq_false_2 by done. cbn [orb]. destruct (HasAuthPasswordPreview (Some c)) eqn:Hc; cbn [negb].
  - rewrite EventConfigAccessVersion_eq, negb_false_iff by done. apply HasAuthPasswordPreview_iff in Hc. naive_solver.
  - split; [|done]. intros _ c' _ [= <-] Hne%HasAuthPasswordPreview_iff. congruence.
Qed.

(** The answer of an active event. *)
Lemma read_iff p eventID invitationToken deps cfg preview : let now := eventReadNow p deps in
  (if negb (EventAccessWindowOpen (WithVisibilityDefaults cfg) now) then preview
   else if eventPasswordProofRequired p eventID (WithVisibilityDefaults cfg) deps && negb preview then false
   else if match WithVisibilityDefaults cfg with Some c => IsPublic c | None => false end then true
   else preview || allowInvitationToken eventID invitationToken deps now) = true ↔
  preview = true ∨ in_window cfg now ∧ password_verified p eventID cfg deps ∧ ((∃ c, cfg = Some c ∧ IsPublic c = true) ∨ invited eventID invitationToken deps now).
Proof.
  intros now. destruct (defaults_keep cfg now) as (-> & _ & _ & -> & _). rewrite <-EventAccessWindowOpen_iff, <-eventPasswordProofRequired_iff, <-allowInvitationToken_iff.
  assert ((∃ c, cfg = Some c ∧ IsPublic c = true) ↔ match cfg with Some c => IsPublic c | None => false end = true) as ->.
  { destruct cfg as [c|]; naive_solver. }
  destruct preview, (EventAccessWindowOpen cfg now), (eventPasswordProofRequired _ _ _ _), (match cfg with Some c => IsPublic c | None => false end),
    (allowInvitationToken _ _ _ _); cbn; naive_solver.
Qed.

#[local] Ltac no_answer := split_and!; [done|split; [done|intros (? & ? & ? & ? & _); simplify_eq; congruence]|done].

(** C26: reading an event is decided by its rules.  The gate fails only when the configuration or the state of the event cannot be
    read, and then it denies.  Otherwise it allows exactly a valid preview link, or an active event inside its window whose
    password is verified where it has one and asks for it, that is public or that the request has an invitation to. *)
Theorem event_read_is_decided p eventID previewToken invitationToken deps :
  let '(allowed, err) := AllowEventRead p eventID previewToken invitationToken deps in
  let preview := PreviewToken.Validate (EVENT_PREVIEW_SECRET p) previewToken eventID (preview_now p) = true in
  let now := eventReadNow p deps in
  (err ≠ None → allowed = false) ∧
  (err = None ↔ ∃ configs cfg, ConfigRepo deps = Some configs ∧ configs eventID = Ok cfg ∧
    ∀ is_active, IsEventActive deps = Some is_active → is_ok (is_active eventID) = true) ∧
  (∀ configs cfg, err = None → ConfigRepo deps = Some configs → configs eventID = Ok cfg →
    (allowed = true ↔ preview ∨
      active eventID deps ∧ in_window cfg now ∧ password_verified p eventID cfg deps ∧
      ((∃ c, cfg = Some c ∧ IsPublic c = true) ∨ invited eventID invitationToken deps now))).
Proof.
  unfold AllowEventRead, AllowEventReadWithConfig. destruct (ConfigRepo deps) as [configs|]; [|no_answer].
  destruct (configs eventID) as [cfg|e] eqn:Hcfg; [|no_answer].
  pose proof (read_iff p eventID invitationToken deps cfg (PreviewToken.Validate (EVENT_PREVIEW_SECRET p) previewToken eventID (preview_now p))) as Hread. cbv zeta in Hread.
  set (answer := if negb _ then _ else _) in Hread.
  match goal with |- context [if negb (EventAccessWindowOpen _ _) then ?x else ?y] => set (pair := if negb (EventAccessWindowOpen _ _) then x else y) end.
  assert (pair = ({| Allowed := answer; Config := WithVisibilityDefaults cfg |}, None)) as ->.
  { unfold pair, answer. repeat (match goal with |- context [if ?b then _ else _] => destruct b end; try done). }
  clearbody answer. unfold active. destruct (IsEventActive deps) as [is_active|] eqn:Ha.
  - destruct (is_active eventID) as [[]|e] eqn:Hactive; cbn.
    + split_and!; [done|split; [intros _|done]|].
      * exists configs, cfg. split_and!; [done..|]. intros ? [= <-]. by rewrite Hactive.
      * intros configs' cfg' _ [= <-] Hc. assert (cfg' = cfg) as -> by congruence. rewrite Hread.
        assert (∀ f, Some is_active = Some f → f eventID = Ok true) by (intros ? [= <-]; done). tauto.
    + split_and!; [done|split; [intros _|done]|].
      * exists configs, cfg. split_and!; [done..|]. intros ? [= <-]. by rewrite Hactive.
      * intros configs' cfg' _ _ _. split; [by left|]. intros [?|(Hno & _)]; [done|]. specialize (Hno is_active eq_refl). congruence.
    + split_and!; [done| |done]. split; [done|]. intros (? & ? & _ & _ & Hok). specialize (Hok is_active eq_refl). by rewrite Hactive in Hok.
  - split_and!; [done|split; [intros _|done]|].
    + exists configs, cfg. by split_and!.
    + intros configs' cfg' _ [= <-] Hc. assert (cfg' = cfg) as -> by congruence. cbn. rewrite Hread.
      assert (∀ f, @None (uuid → Result E bool) = Some f → f eventID = Ok true) by done. tauto.
Qed.
End Gate.
