(* ===== verification/AccessGrants.v ===== *)
(** * Public access, from the handler to the gate: an event with a password, and guests who
    guess it *)
From stdpp Require Import base tactics list strings gmap.
From Stdlib Require Import Ascii ZArith.
From S2P Require Import Prelude GoStrings Sha256 Json PlanStore AccessProof EventAccess AttemptLimiter GoInt EventAccessTheorems.
From S2P Require PreviewToken.
Open Scope string_scope.
Open Scope Z_scope.

#[local] Existing Instance unary.
#[local] Existing Instance no_addresses.

Definition never : Time := {| Nano := zeroTime; Offset := 0 |}.
Definition demo_config : EventConfig := {|
  ID := 2%N; IsPublic := true; IsAuthPreview := false; AllowUploads := false; AllowMessages := false; AuthPasswordPreview := " moonlight";
  NotifyOnMomentUpload := false; ActiveFrom := never; ActiveUntil := None; RSVPDeadline := None; ShowCountdown := true; ShowRSVPSection := false;
  ShowEventLocation := false; ShowSecondLocation := false; ShowHostsSection := false; ShowPhotoGallery := false; ShowMomentWall := false;
  VisibilityConfigured := true; ShareUploadsEnabled := false; MaxUploadsPerGuest := 50; AutoApproveUploads := false; ShowContactSection := false;
  ShowHeader := false; ShowFooter := false; ShowEventSchedule := false |}.
Definition demo_services : Services unit := {|
  GetEventByIdentifier identifier := Ok (if String.eqb identifier "gala" then Some {| Event_ID := 2%N; Event_IsActive := true |} else None);
  eventConfigSvc := Some (λ _, Ok (Some demo_config)); eventAccessTokenRepo := None; eventInvitationRepo := None |}.
Definition demo_time : Z := 1700000000 * Second.
Definition demo_process : Process := {|
  EVENT_PREVIEW_SECRET := "preview"; EVENT_ACCESS_SECRET := "access"; preview_now := demo_time; read_now := demo_time; proof_now := demo_time |}.
Definition plain_request : Request := {| Header _ := ""; QueryParam _ := "" |}.
Definition demo_request (password : string) : AccessRequest :=
  {| Identifier := "gala"; Password := Some password; Query := plain_request; RealIP := "203.0.113.7"; issue_now := demo_time |}.

(** The request with the password is answered with a token. *)
Lemma demo_protected password : String.eqb (TrimSpace password) "" = false →
  VerifyEventAccess demo_services demo_process (demo_request password) =
  verify_password demo_process {| Event_ID := 2%N; Event_IsActive := true |} demo_config (TrimSpace password) "203.0.113.7" demo_time.
Proof. intros Hp. unfold VerifyEventAccess. cbn [demo_request Identifier Password Query RealIP issue_now]. rewrite Hp. reflexivity. Qed.

(** Eleven wrong guesses from one client, one after another: ten are compared, the last one is refused; then another client tries. *)
Definition guess (password : string) (i : nat) : list (label unit) :=
  Arrive demo_services demo_process (demo_request password) :: ((λ _, Run i demo_time) <$> seq 0 4).
Definition demo_labels : list (label unit) := concat ((λ i, guess "sunlight" i) <$> seq 0 11).
Example eleven_guesses :
  (program <$> threads (run demo_labels)) = (replicate 10 (Ret WrongPassword) ++ [Ret (TooManyAttempts 600)])%list.
Proof. vm_compute. reflexivity. Qed.
(** Without the wrong guesses a guest may verify as often as they like. *)
Definition is_granted (p : Prog access_response) : bool := match p with Ret (Granted _ _ _) => true | _ => false end.
Example twelve_guests :
  forallb is_granted (program <$> threads (run (concat ((λ i, guess "moonlight" i) <$> seq 0 12)))) = true.
Proof. vm_compute. reflexivity. Qed.

(** * Proofs of a password, from the handler that issues them to the gate that reads them *)

(** The values a program may end with, whatever the limiter answers. *)
Inductive answers {A} : Prog A → A → Prop :=
| answers_ret a : answers (Ret a) a
| answers_add name identifier delta window k reply a : answers (k reply) a → answers (Add name identifier delta window k) a
| answers_refund name identifier k a : answers k a → answers (Refund name identifier k) a.
Lemma answers_bind {A B} (p : Prog A) (f : A → Prog B) b : answers (p ≫= f) b → ∃ a, answers p a ∧ answers (f a) b.
Proof.
  induction p as [a|name identifier delta window k IH|name identifier k IH]; intros Hb.
  - exists a. by split; [constructor|].
  - inversion Hb; subst. match goal with Hk : answers _ b |- _ => apply IH in Hk as (a & Ha & Hf) end. exists a. split; [by econstructor|done].
  - inversion Hb; subst. match goal with Hk : answers _ b |- _ => apply IH in Hk as (a & Ha & Hf) end. exists a. split; [by constructor|done].
Qed.
Lemma answers_mret {A} (a b : A) : answers (mret a) b → b = a.
Proof. by inversion 1. Qed.

Section Grants.
Context {text : UuidText} {shape : UuidShape text} {net : GoNet} {E : Type}.
Implicit Types (s : Services E) (p : Process) (deps : EventReadDeps E).

(** What a request proved when it is answered with a token. *)
Lemma granted s p r token version expires : answers (VerifyEventAccess s p r) (Granted token version expires) →
  ∃ event configs cfg password, GetEventByIdentifier s (Identifier r) = Ok (Some event) ∧ eventConfigSvc s = Some configs ∧
    configs (Event_ID event) = Ok (Some cfg) ∧ Password r = Some password ∧ HasAuthPasswordPreview (Some cfg) = true ∧
    PasswordMatches (NormalizedAuthPasswordPreview (Some cfg)) (TrimSpace password) = true ∧
    version = EventConfigAccessVersion (EVENT_ACCESS_SECRET p) (Some cfg) ∧
    Generate (EVENT_ACCESS_SECRET p) (Event_ID event) version eventPasswordAccessTTL (issue_now r) = Some (token, expires).
Proof.
  unfold VerifyEventAccess. destruct (String.eqb _ _); [by intros ?%answers_mret|]. destruct (Password r) as [password|]; [|by intros ?%answers_mret].
  destruct (String.eqb _ _); [by intros ?%answers_mret|]. destruct (GetEventByIdentifier s (Identifier r)) as [[event|]|]; [|by intros ?%answers_mret..].
  destruct (eventConfigSvc s) as [configs|]; [|by intros ?%answers_mret]. destruct (configs (Event_ID event)) as [[cfg|]|] eqn:Hcfg; [|by intros ?%answers_mret..].
  destruct (allowPublicEventRead _ _ _ _ _) as [allowed [err|]]; [by intros ?%answers_mret|]. destruct (negb allowed); [by intros ?%answers_mret|].
  destruct (HasAuthPasswordPreview (Some cfg)) eqn:Hpw; cbn [negb]; [|by intros ?%answers_mret].
  unfold verify_password. intros ([underAttack retry0] & _ & H)%answers_bind. apply answers_bind in H as ([ok retry] & _ & H).
  destruct ok; cbn [negb] in H; [|by apply answers_mret in H]. destruct (PasswordMatches _ _) eqn:Hm; cbn [negb] in H.
  - apply answers_bind in H as ([] & _ & H). destruct (Generate _ _ _ _ _) as [[token' expires']|] eqn:Hg; apply answers_mret in H; [|done].
    injection H as -> -> ->. exists event, configs, cfg, password. by split_and!.
  - apply answers_bind in H as ([] & _ & H). by apply answers_mret in H.
Qed.

(** The gate, for a request with a proof and no preview link. *)
Lemma allowed_verified p eventID previewToken invitationToken deps configs cfg :
  AllowEventRead p eventID previewToken invitationToken deps = (true, None) → ConfigRepo deps = Some configs → configs eventID = Ok cfg →
  PreviewToken.Validate (EVENT_PREVIEW_SECRET p) previewToken eventID (preview_now p) = false → password_verified p eventID cfg deps.
Proof.
  unfold AllowEventRead, AllowEventReadWithConfig. intros Hr Hc Hcfg Hpreview. rewrite Hc, Hcfg, Hpreview in Hr. apply eventPasswordProofRequired_iff.
  destruct (eventPasswordProofRequired _ _ _ _); [|done]. cbn [negb andb] in Hr.
  destruct (IsEventActive deps) as [f|]; [destruct (f eventID) as [[]|]|]; cbn in Hr; try done; by destruct (negb (EventAccessWindowOpen _ _)).
Qed.
Lemma verified_allowed p eventID previewToken invitationToken deps configs c :
  ConfigRepo deps = Some configs → configs eventID = Ok (Some c) → active eventID deps → in_window (Some c) (eventReadNow p deps) →
  IsPublic c = true → password_verified p eventID (Some c) deps → AllowEventRead p eventID previewToken invitationToken deps = (true, None).
Proof.
  intros Hc Hcfg Ha Hw Hpub Hv. unfold AllowEventRead, AllowEventReadWithConfig. rewrite Hc, Hcfg.
  apply EventAccessWindowOpen_iff in Hw. apply eventPasswordProofRequired_iff in Hv.
  destruct (defaults_keep (Some c) (eventReadNow p deps)) as (-> & _ & _ & -> & _). rewrite Hw, Hv, Hpub. cbn [negb andb].
  destruct (IsEventActive deps) as [f|] eqn:Hf; [|done]. by rewrite (Ha f Hf).
Qed.

(** C9: a verified password opens the event until it changes.  When a request is answered with a token, its password was the event's (or
    collides with it), and the token expires after twelve hours.  As long as the server's secret stays, that token
    admits to an event with a password - preview links apart - only before it expires, only to the event it was issued for and only while
    the version of its password is the one that was verified; and if all this holds, the public event is read. *)
Theorem verified_password_opens_event s p r token version expires :
  answers (VerifyEventAccess s p r) (Granted token version expires) → 0 ≤ issue_now r < 2 ^ 62 →
  ∃ event current cfg password, GetEventByIdentifier s (Identifier r) = Ok (Some event) ∧ Password r = Some password ∧
    eventConfigSvc s = Some current ∧ current (Event_ID event) = Ok (Some cfg) ∧
    (TrimSpace password = TrimSpace (AuthPasswordPreview cfg) ∨ collide (TrimSpace (AuthPasswordPreview cfg)) (TrimSpace password)) ∧
    expires = issue_now r + 12 * 60 * 60 * Second ∧
    ∀ p' eventID previewToken invitationToken deps configs cfg',
      EVENT_ACCESS_SECRET p' = EVENT_ACCESS_SECRET p → RequirePasswordProof deps = true → PasswordProofToken deps = token →
      ConfigRepo deps = Some configs → configs eventID = Ok (Some cfg') → TrimSpace (AuthPasswordPreview cfg') ≠ "" →
      PreviewToken.Validate (EVENT_PREVIEW_SECRET p') previewToken eventID (preview_now p') = false →
      let good := eventID = Event_ID event ∧ Unix (proof_now p') ≤ Unix expires ∧
        PasswordVersion (EVENT_ACCESS_SECRET p) (ID cfg') (AuthPasswordPreview cfg') = PasswordVersion (EVENT_ACCESS_SECRET p) (ID cfg) (AuthPasswordPreview cfg) in
      let read := AllowEventRead p' eventID previewToken invitationToken deps in
      (read = (true, None) → good) ∧
      (good → active eventID deps → in_window (Some cfg') (eventReadNow p' deps) → IsPublic cfg' = true → read = (true, None)).
Proof.
  intros Hans Hnow. destruct (granted _ _ _ _ _ _ Hans) as (event & configs & cfg & password & Hevent & Hsvc & Hcur & Hpw & Hhas & Hmatch & Hv & Hgen).
  exists event, configs, cfg, password. do 4 (split; [done|]). split.
  { unfold PasswordMatches in Hmatch. apply bool_decide_eq_true in Hmatch. change (NormalizedAuthPasswordPreview (Some cfg)) with (TrimSpace (AuthPasswordPreview cfg)) in Hmatch. rewrite !TrimSpace_idem in Hmatch.
    destruct (decide (TrimSpace password = TrimSpace (AuthPasswordPreview cfg))); [by left|right]. split; [congruence|done]. }
  rewrite EventConfigAccessVersion_eq in Hv by done.
  assert (∀ id' version' now', expires = issue_now r + eventPasswordAccessTTL ∧
    (Validate (EVENT_ACCESS_SECRET p) token id' version' now' = true ↔ id' = Event_ID event ∧ version' = version ∧ Unix now' ≤ Unix expires)) as Hvalid.
  { intros id' version' now'. eapply Validate_Generate; [done|subst version; apply PasswordVersion_utf8|].
    unfold Unix, eventPasswordAccessTTL, Minute, Second. assert (0 ≤ issue_now r + 12 * 60 * (60 * 1000000000) < 2 ^ 63) by lia.
    split; [|apply Z.le_lt_trans with (issue_now r + 12 * 60 * (60 * 1000000000)); [|lia]]; [apply Z.le_trans with 0; [lia|apply Z.div_pos; lia]|].
    apply Z.div_le_upper_bound; lia. }
  split; [rewrite (proj1 (Hvalid 0%N "" 0)); unfold eventPasswordAccessTTL, Minute; lia|].
  intros p' eventID previewToken invitationToken deps configs' cfg' Hsecret Hrequire Htoken Hrepo Hcfg' Hhas' Hpreview. cbv zeta. split.
  - intros Hread. pose proof (allowed_verified _ _ _ _ _ _ _ Hread Hrepo Hcfg' Hpreview cfg' Hrequire eq_refl Hhas') as Hok.
    rewrite Hsecret, Htoken in Hok. apply Hvalid in Hok as (-> & Hver & Hx). split_and!; [done..|]. congruence.
  - intros (-> & Hx & Hver) Ha Hw Hpub. eapply verified_allowed; [done..|].
    intros c _ [= <-] _. rewrite Hsecret, Htoken. apply Hvalid. split_and!; [done| |done]. congruence.
Qed.
End Grants.

(** ** Preview links *)

Section Previews.
Context {text : UuidText} {shape : UuidShape text}.

(** C27: a preview link opens one event for a while.  The link of an event is accepted for this event only, until it
    expires; and whatever link is accepted carries the signature of the event and an expiry that has not passed. *)
Theorem preview_opens_one_event env id ttl now token expires :
  PreviewToken.GenerateWithExpiry env id ttl now = Some (token, expires) → is_int64 (Unix (now + ttl)) →
  (∀ id' now', PreviewToken.Validate env token id' now' = true ↔ id' = id ∧ Unix now' ≤ Unix (now + ttl)) ∧
  ∀ other id' now', PreviewToken.Validate env other id' now' = true → ∃ expiry expiresAt,
    Base64.DecodeString (TrimSpace other) = Some (uuid_text id' +:+ "." +:+ expiry +:+ "." +:+ sign (uuid_text id' +:+ "." +:+ expiry) (TrimSpace env)) ∧
    ParseInt64 expiry = Some expiresAt ∧ Unix now' ≤ expiresAt.
Proof.
  intros Hgen Hx. split.
  - intros id' now'. destruct (PreviewToken.Validate_GenerateWithExpiry env id ttl now token expires id' now' Hgen Hx) as [-> Hv]. exact Hv.
  - intros other id' now' Hv. destruct (PreviewToken.Validate_signed env other id' now' Hv) as (_ & expiry & expiresAt & Hd & Hp & Hn).
    exists expiry, expiresAt. split_and!; [|done..]. rewrite Hd. unfold PreviewToken.signed_text. by rewrite !Base64.append_grouped.
Qed.
End Previews.

Section Demo.
#[local] Existing Instance unary.
#[local] Existing Instance no_addresses.

Lemma preview_opens_one_event_witness : ∃ token, PreviewToken.Validate "preview" token 7%N demo_time = true ∧ PreviewToken.Validate "preview" token 8%N demo_time = false.
Proof.
  destruct (PreviewToken.GenerateWithExpiry "preview" 7%N Second demo_time) as [[token expires]|] eqn:Hgen; [|discriminate Hgen].
  exists token. destruct (preview_opens_one_event "preview" 7%N Second demo_time token expires Hgen) as [Hv _].
  - vm_compute. split; discriminate.
  - split; [apply Hv; split; [reflexivity|vm_compute; discriminate]|].
    destruct (PreviewToken.Validate "preview" token 8%N demo_time) eqn:H8; [|reflexivity]. apply Hv in H8 as [H8 _]. discriminate H8.
Defined.

Definition demo_deps (token : string) (cfg : EventConfig) : EventReadDeps unit := {|
  ConfigRepo := Some (λ _, Ok (Some cfg)); TokenRepo := None; InvitationRepo := None; IsEventActive := Some (λ _, Ok true); Now := None;
  RequirePasswordProof := true; PasswordProofToken := token |}.
Lemma demo_granted token expires : Generate "access" 2%N (PasswordVersion "access" 2%N " moonlight") eventPasswordAccessTTL demo_time = Some (token, expires) →
  answers (VerifyEventAccess demo_services demo_process (demo_request "moonlight "))
    (Granted token (PasswordVersion "access" 2%N " moonlight") expires).
Proof.
  intros Hgen. rewrite demo_protected by reflexivity.
  unfold verify_password, EventFailuresExceeded, op_add. cbn [mbind prog_mbind prog_bind]. apply (answers_add _ _ _ _ _ (0, 0)). cbn [prog_bind mret prog_mret].
  unfold ReserveIPFailure, op_add. cbn [mbind prog_mbind prog_bind]. apply (answers_add _ _ _ _ _ (1, 0)). cbn -[PasswordMatches Generate EventConfigAccessVersion TrimSpace].
  assert (PasswordMatches (NormalizedAuthPasswordPreview (Some demo_config)) (TrimSpace "moonlight ") = true) as Hm by (by apply bool_decide_eq_true_2).
  cbn -[PasswordMatches Generate EventConfigAccessVersion TrimSpace] in Hm. rewrite Hm. cbn -[Generate EventConfigAccessVersion TrimSpace]. apply answers_refund.
  change (EventConfigAccessVersion "access" (Some demo_config)) with (PasswordVersion "access" 2%N (TrimSpace " moonlight")).
  rewrite (PasswordVersion_trimmed "access" 2%N (TrimSpace " moonlight") " moonlight") by apply TrimSpace_idem. rewrite Hgen. constructor.
Qed.
Lemma verified_password_opens_event_witness : ∃ token expires,
  answers (VerifyEventAccess demo_services demo_process (demo_request "moonlight ")) (Granted token (PasswordVersion "access" 2%N " moonlight") expires) ∧
  AllowEventRead demo_process 2%N "" "" (demo_deps token demo_config) = (true, None).
Proof.
  destruct (Generate "access" 2%N (PasswordVersion "access" 2%N " moonlight") eventPasswordAccessTTL demo_time) as [[token expires]|] eqn:Hgen; [|discriminate Hgen].
  exists token, expires. split; [exact (demo_granted token expires Hgen)|].
  destruct (verified_password_opens_event demo_services demo_process (demo_request "moonlight ") token _ expires (demo_granted token expires Hgen))
    as (event & current & cfg & password & Hevent & _ & Hsvc & Hcur & _ & Hx & Hopen); [vm_compute; split; [discriminate|reflexivity]|].
  injection Hevent as <-. injection Hsvc as <-. injection Hcur as <-. subst expires.
  assert (TrimSpace (AuthPasswordPreview demo_config) ≠ "") as Hne by (vm_compute; discriminate).
  destruct (Hopen demo_process 2%N "" "" (demo_deps token demo_config) (λ _, Ok (Some demo_config)) demo_config
    eq_refl eq_refl eq_refl eq_refl eq_refl Hne eq_refl) as [_ Hread].
  apply Hread.
  - split; [reflexivity|]. split; [vm_compute; discriminate|reflexivity].
  - intros f Hf. injection Hf as <-. reflexivity.
  - intros c Hc. injection Hc as <-. split; [|discriminate]. intros Hset. discriminate Hset.
  - reflexivity.
Defined.
End Demo.
