(* ===== verification/Vault.v ===== *)
(** * internal/projectvault: proposals, their digests, and the probes that extend them

    A slice is [None] when it is nil.  A [float64] is kept as the number [json.Marshal] writes
    for it, and a [map[string]any] as its JSON, with its keys in order: the code only stores and
    encodes them.  Marshalling these types cannot fail. *)
From stdpp Require Import base tactics list strings gmap.
From Stdlib Require Import Ascii.
From S2P Require Import Prelude GoStrings GoSort Sha256 Json.
Open Scope string_scope.

Definition SchemaVersion : Z := 1.
Notation slice A := (option (list A)).
Definition items {A} (s : slice A) : list A := default [] s.
(** [append([]T(nil), s...)] *)
Definition clone {A} (s : slice A) : slice A := match items s with [] => None | l => Some l end.
Definition scriptNamePattern (s : string) : bool := re_ident is_alnum (λ c, is_alnum c || one_of ":_.-" c) 0 79 s.
Definition environmentVariableNamePattern (s : string) : bool :=
  re_ident (λ c, is_upper c || is_lower c || byte_is 95 c) (λ c, is_alnum c || byte_is 95 c) 0 127 s.

(** ** Data *)

Record Provenance := { Source : string; Path : string; Proof_Revision : string; Confidence : json }.
Record Repository := { Reference : string; DefaultBranch : string; Revision : string }.
Record Fact := { Fact_Name : string; Fact_Confidence : json; Fact_Provenance : slice Provenance }.
Record ProposedCommand := {
  Command_Capability : string; WorkingDirectory : string; Command : slice string; Status : string; Command_Provenance : Provenance;
}.
Record Capability := { Name : string; State : string; Reason : string; Evidence : slice Provenance }.
Record PolicySuggestion := {
  Level : string; RepositoryReference : string; Mode : string; RequiredTestKinds : slice string; AllowedTargetBranches : slice string;
  Policy_Reason : string; RequiredOperatorDecisions : slice string; Policy_Provenance : slice Provenance;
}.
Record CapabilityProbe := {
  Probe_Name : string; Probe_State : string; Probe_Reason : string; Probe_Revision : string; EvidenceSHA256 : string; SubjectSHA256 : string;
  ExecutorRole : string;
}.
Record VaultHistoryEntry := {
  History_Kind : string; History_Lifecycle : string; History_Value : json; History_Provenance : slice Provenance; History_ValidFromSHA : string;
  History_ValidThroughSHA : string; TransitionSHA : string;
}.
Record VaultEntry := {
  Key : string; Kind : string; Lifecycle : string; LifecycleSHA : string; ValidFromSHA : string; ValidThroughSHA : string; Value : json;
  Entry_Provenance : slice Provenance; History : slice VaultHistoryEntry; HistoryTruncated : bool;
}.
Record Manifest := {
  Manifest_SchemaVersion : Z; Scope : string; Manifest_Repository : Repository; Entries : slice VaultEntry; Manifest_HistoryTruncated : bool;
}.
Record VaultDiff := { Added : slice string; Modified : slice string; Unchanged : slice string; Removed : slice string }.
Record Proposal := {
  Proposal_SchemaVersion : Z; Proposal_Repository : Repository; Readiness : string; TrustBoundary : string; InventoryFileCount : Z;
  InventoryTruncated : bool; Stacks : slice Fact; Commands : slice ProposedCommand; Capabilities : slice Capability;
  Proposal_PolicySuggestion : option PolicySuggestion; Vault : Manifest; VaultSHA256 : string; PreviousRevision : string;
  PreviousVaultSHA256 : string; Proposal_VaultDiff : VaultDiff;
}.

(** ** Their JSON *)

Definition slice_json {A} (f : A → json) (s : slice A) : json := match s with None => JNull | Some l => JArray (f <$> l) end.
(** A member with [omitempty]. *)
Definition omit_empty (empty : bool) (member : string * json) : list (string * json) := if empty then [] else [member].
Definition no_items {A} (s : slice A) : bool := match items s with [] => true | _ => false end.

Definition Provenance_json (p : Provenance) : json :=
  JObject [("source", JString (Source p)); ("path", JString (Path p)); ("revision", JString (Proof_Revision p)); ("confidence", Confidence p)].
Definition Repository_json (r : Repository) : json :=
  JObject [("reference", JString (Reference r)); ("default_branch", JString (DefaultBranch r)); ("revision", JString (Revision r))].
Definition Fact_json (f : Fact) : json :=
  JObject [("name", JString (Fact_Name f)); ("confidence", Fact_Confidence f); ("provenance", slice_json Provenance_json (Fact_Provenance f))].
Definition ProposedCommand_json (c : ProposedCommand) : json :=
  JObject [("capability", JString (Command_Capability c)); ("working_directory", JString (WorkingDirectory c));
    ("command", slice_json JString (Command c)); ("status", JString (Status c)); ("provenance", Provenance_json (Command_Provenance c))].
Definition Capability_json (c : Capability) : json :=
  JObject ([("name", JString (Name c)); ("state", JString (State c)); ("reason", JString (Reason c))] ++
    omit_empty (no_items (Evidence c)) ("evidence", slice_json Provenance_json (Evidence c)))%list.
Definition PolicySuggestion_json (p : PolicySuggestion) : json :=
  JObject [("level", JString (Level p)); ("repository_reference", JString (RepositoryReference p)); ("mode", JString (Mode p));
    ("required_test_kinds", slice_json JString (RequiredTestKinds p)); ("allowed_target_branches", slice_json JString (AllowedTargetBranches p));
    ("reason", JString (Policy_Reason p)); ("required_operator_decisions", slice_json JString (RequiredOperatorDecisions p));
    ("provenance", slice_json Provenance_json (Policy_Provenance p))].
Definition VaultHistoryEntry_json (h : VaultHistoryEntry) : json :=
  JObject [("kind", JString (History_Kind h)); ("lifecycle", JString (History_Lifecycle h)); ("value", History_Value h);
    ("provenance", slice_json Provenance_json (History_Provenance h)); ("valid_from_sha", JString (History_ValidFromSHA h));
    ("valid_through_sha", JString (History_ValidThroughSHA h)); ("transition_sha", JString (TransitionSHA h))].
Definition VaultEntry_json (e : VaultEntry) : json :=
  JObject ([("key", JString (Key e)); ("kind", JString (Kind e)); ("lifecycle", JString (Lifecycle e)); ("lifecycle_sha", JString (LifecycleSHA e));
    ("valid_from_sha", JString (ValidFromSHA e)); ("valid_through_sha", JString (ValidThroughSHA e)); ("value", Value e);
    ("provenance", slice_json Provenance_json (Entry_Provenance e))] ++
    omit_empty (no_items (History e)) ("history", slice_json VaultHistoryEntry_json (History e)) ++
    omit_empty (negb (HistoryTruncated e)) ("history_truncated", JBool (HistoryTruncated e)))%list.
Definition Manifest_json (m : Manifest) : json :=
  JObject ([("schema_version", JInt (Manifest_SchemaVersion m)); ("scope", JString (Scope m)); ("repository", Repository_json (Manifest_Repository m));
    ("entries", slice_json VaultEntry_json (Entries m))] ++
    omit_empty (negb (Manifest_HistoryTruncated m)) ("history_truncated", JBool (Manifest_HistoryTruncated m)))%list.
Definition VaultDiff_json (d : VaultDiff) : json :=
  JObject [("added", slice_json JString (Added d)); ("modified", slice_json JString (Modified d)); ("unchanged", slice_json JString (Unchanged d));
    ("removed", slice_json JString (Removed d))].
Definition Proposal_json (p : Proposal) : json :=
  JObject ([("schema_version", JInt (Proposal_SchemaVersion p)); ("repository", Repository_json (Proposal_Repository p)); ("readiness", JString (Readiness p));
    ("trust_boundary", JString (TrustBoundary p)); ("inventory_file_count", JInt (InventoryFileCount p));
    ("inventory_truncated", JBool (InventoryTruncated p)); ("stacks", slice_json Fact_json (Stacks p));
    ("commands", slice_json ProposedCommand_json (Commands p)); ("capabilities", slice_json Capability_json (Capabilities p))] ++
    match Proposal_PolicySuggestion p with Some s => [("policy_suggestion", PolicySuggestion_json s)] | None => [] end ++
    [("vault", Manifest_json (Vault p)); ("vault_sha256", JString (VaultSHA256 p))] ++
    omit_empty (String.eqb (PreviousRevision p) "") ("previous_revision", JString (PreviousRevision p)) ++
    omit_empty (String.eqb (PreviousVaultSHA256 p) "") ("previous_vault_sha256", JString (PreviousVaultSHA256 p)) ++
    [("vault_diff", VaultDiff_json (Proposal_VaultDiff p))])%list.

Definition ManifestSHA256 (manifest : Manifest) : string := hexSum256 (Marshal (Manifest_json manifest)).
Definition ProposalSHA256 (proposal : Proposal) : string := hexSum256 (Marshal (Proposal_json proposal)).

(** ** Errors

    [slice_out_of_range] is no error value of the code: it stands for the panic of a slice past
    the end of a string. *)

Inductive vault_error :=
| stored_not_json | vault_digest_mismatch | checkpoint_mismatch | policy_suggestion_invalid | proposal_digest_mismatch
| reference_invalid (reason : string) | revision_invalid | default_branch_invalid
| probe_proposal_invalid | probe_invalid | probe_role_invalid | probe_name_unknown | probe_duplicate | probe_subject_invalid
| reconcile_schema_invalid | reconcile_checkpoints_invalid | entry_invalid | entries_duplicate
| slice_out_of_range.
Notation Res := (Result vault_error).

Definition validSHA (value : string) : bool := re_exact (λ c, is_digit c || in_range 97 102 c) 40 value.

(** ** The suggested policy *)

Definition policySuggestionReason : string :=
  "Static onboarding only proposes a review-only baseline; merge and release remain disabled until an independent policy revision is approved.".
Definition policySuggestionRequiredOperatorDecisions : list string :=
  ["confirm required test kinds after exact-SHA capability probes"; "choose a merge method before enabling merge";
   "configure workflow, environment, secret references, health checks, and recovery before enabling release"].
Definition policySuggestionTestKind (value : string) : bool := existsb (String.eqb value) ["unit"; "integration"; "contract"; "e2e"].
Definition provenanceKey (value : Provenance) : string :=
  if String.eqb (Source value) "" || String.eqb (Path value) "" || String.eqb (Proof_Revision value) "" then ""
  else Source value +:+ NUL +:+ Path value +:+ NUL +:+ Proof_Revision value.
Record suggestion_state := { testKinds : list string; provenance : list Provenance; seenKinds : gset string; seenProof : gset string }.
Definition suggest (s : suggestion_state) (command : ProposedCommand) : suggestion_state :=
  let kind := Command_Capability command in
  if negb (policySuggestionTestKind kind) then s
  else
    let s :=
      if bool_decide (kind ∈ seenKinds s) then s
      else {| testKinds := (testKinds s ++ [kind])%list; provenance := provenance s; seenKinds := {[kind]} ∪ seenKinds s; seenProof := seenProof s |} in
    let key := provenanceKey (Command_Provenance command) in
    if String.eqb key "" || bool_decide (key ∈ seenProof s) then s
    else {| testKinds := testKinds s; provenance := (provenance s ++ [Command_Provenance command])%list; seenKinds := seenKinds s;
            seenProof := {[key]} ∪ seenProof s |}.
Definition buildPolicySuggestion (repository : Repository) (metadataProof : Provenance) (commands : list ProposedCommand) : PolicySuggestion :=
  let s := foldl suggest {| testKinds := []; provenance := [metadataProof]; seenKinds := ∅; seenProof := {[provenanceKey metadataProof]} |} commands in
  {| Level := "repository"; RepositoryReference := Reference repository; Mode := "review_only"; RequiredTestKinds := Some (sort_strings (testKinds s));
     AllowedTargetBranches := Some [DefaultBranch repository]; Policy_Reason := policySuggestionReason;
     RequiredOperatorDecisions := Some policySuggestionRequiredOperatorDecisions; Policy_Provenance := Some (sort_key provenanceKey (provenance s)) |}.
Definition policySuggestionsEqual (left right : PolicySuggestion) : bool :=
  String.eqb (Marshal (PolicySuggestion_json left)) (Marshal (PolicySuggestion_json right)).
(** [Confidence: 1] *)
Definition metadata_proof (revision : string) : Provenance :=
  {| Source := "github_api"; Path := "repository_metadata"; Proof_Revision := revision; Confidence := JInt 1 |}.

Section Vault.
Context `{GoUnicode}.

Definition ValidRevision (value : string) : bool := validSHA (ToLower (TrimSpace value)).
Definition validDigest (value : string) : bool := re_exact (λ c, is_digit c || in_range 97 102 c) 64 (ToLower (TrimSpace value)).

(** [json.Unmarshal] into a [Proposal] is an argument. *)
Definition ValidateStoredProposal (Unmarshal : string → option Proposal)
    (raw repositoryReference defaultBranch revision readiness proposalSHA256 vaultSHA256 : string) : Res Proposal :=
  match Unmarshal raw with
  | None => Err stored_not_json
  | Some proposal =>
      let vaultDigest := ManifestSHA256 (Vault proposal) in
      let repository := Proposal_Repository proposal in
      _ ← fail_if (negb (EqualFold vaultDigest vaultSHA256) || negb (EqualFold vaultDigest (VaultSHA256 proposal)) ||
                   negb (Z.eqb (Proposal_SchemaVersion proposal) SchemaVersion) || negb (Z.eqb (Manifest_SchemaVersion (Vault proposal)) SchemaVersion))
            vault_digest_mismatch;
      _ ← fail_if (negb (String.eqb (Reference repository) repositoryReference) || negb (EqualFold (Revision repository) revision) ||
                   negb (String.eqb (DefaultBranch repository) defaultBranch)) checkpoint_mismatch;
      _ ← match Proposal_PolicySuggestion proposal with
          | None => mret tt
          | Some suggestion =>
              let expected := buildPolicySuggestion repository (metadata_proof (Revision repository)) (items (Commands proposal)) in
              fail_if (negb (policySuggestionsEqual suggestion expected)) policy_suggestion_invalid
          end;
      _ ← fail_if (negb (EqualFold (ProposalSHA256 proposal) proposalSHA256) || negb (String.eqb (Readiness proposal) readiness)) proposal_digest_mismatch;
      mret proposal
  end.

(** ** Probes *)

Definition CapabilityProbeSubject_json (repository : Repository) (probe : CapabilityProbe) : json := JObject [
  ("schema_version", JInt SchemaVersion); ("repository", JString (Reference repository)); ("revision", JString (ToLower (TrimSpace (Revision repository))));
  ("capability", JString (TrimSpace (Probe_Name probe))); ("state", JString (ToLower (TrimSpace (Probe_State probe))));
  ("executor_role", JString (ToLower (TrimSpace (ExecutorRole probe)))); ("evidence_sha256", JString (ToLower (TrimSpace (EvidenceSHA256 probe))))].
Definition ready_or_blocked (state : string) : bool := String.eqb state "ready" || String.eqb state "blocked".
Definition CapabilityProbeSubjectSHA256 (repository : Repository) (probe : CapabilityProbe) : Res string :=
  let state := ToLower (TrimSpace (Probe_State probe)) in
  _ ← fail_if (String.eqb (Reference repository) "" || negb (validSHA (ToLower (TrimSpace (Revision repository)))) || String.eqb (Probe_Name probe) "" ||
               negb (ready_or_blocked state) || negb (validDigest (EvidenceSHA256 probe)) || String.eqb (ExecutorRole probe) "") probe_subject_invalid;
  mret (hexSum256 (Marshal (CapabilityProbeSubject_json repository probe))).

(** The fields of a probe without surrounding space, in lower case where the code does so. *)
Definition trimmed_probe (p : CapabilityProbe) : CapabilityProbe := {|
  Probe_Name := TrimSpace (Probe_Name p); Probe_State := ToLower (TrimSpace (Probe_State p)); Probe_Reason := TrimSpace (Probe_Reason p);
  Probe_Revision := Probe_Revision p; EvidenceSHA256 := EvidenceSHA256 p; SubjectSHA256 := SubjectSHA256 p;
  ExecutorRole := ToLower (TrimSpace (ExecutorRole p)) |}.
(** [byName]: the last capability of a name. *)
Definition byName (capabilities : list Capability) : gmap string nat :=
  foldl (λ m ic, <[Name ic.2 := ic.1]> m) ∅ (imap pair capabilities).
Definition capability_of (revision : string) (probe : CapabilityProbe) : Capability := {|
  Name := Probe_Name probe; State := Probe_State probe; Reason := Probe_Reason probe;
  Evidence := Some [{| Source := "sandbox_probe:" +:+ ExecutorRole probe; Path := "sha256:" +:+ ToLower (EvidenceSHA256 probe);
                       Proof_Revision := revision; Confidence := JInt 1 |}] |}.
(** One probe: the index of its capability, and what becomes of it. *)
Definition check_probe (repository : Repository) (names : gmap string nat) (seen : gset string) (probe : CapabilityProbe) : Res (nat * Capability) :=
  _ ← fail_if (String.eqb (Probe_Name probe) "source" || String.eqb (Probe_Name probe) "vault" || negb (ready_or_blocked (Probe_State probe)) ||
               negb (EqualFold (Probe_Revision probe) (Revision repository)) || negb (validDigest (EvidenceSHA256 probe)) ||
               String.eqb (Probe_Reason probe) "" || Nat.ltb 500 (String.length (Probe_Reason probe))) probe_invalid;
  _ ← fail_if (negb (existsb (String.eqb (ExecutorRole probe)) ["qa"; "release"; "orchestrator"])) probe_role_invalid;
  match names !! Probe_Name probe with
  | None => Err probe_name_unknown
  | Some index =>
      _ ← fail_if (bool_decide (Probe_Name probe ∈ seen)) probe_duplicate;
      match CapabilityProbeSubjectSHA256 repository probe with
      | Err _ => Err probe_subject_invalid
      | Ok subject =>
          _ ← fail_if (negb (EqualFold subject (SubjectSHA256 probe))) probe_subject_invalid;
          mret (index, capability_of (Revision repository) probe)
      end
  end.
(** The loop writes into the array of the proposal's capabilities, which the caller shares: the second component is that array,
    also when a later probe is refused. *)
Fixpoint apply_probes (repository : Repository) (names : gmap string nat) (seen : gset string) (probes : list CapabilityProbe)
    (capabilities : list Capability) : Res unit * list Capability :=
  match probes with
  | [] => (Ok tt, capabilities)
  | probe :: rest =>
      let probe := trimmed_probe probe in
      match check_probe repository names seen probe with
      | Err e => (Err e, capabilities)
      | Ok (index, capability) => apply_probes repository names ({[Probe_Name probe]} ∪ seen) rest (<[index := capability]> capabilities)
      end
  end.
Definition with_capabilities (p : Proposal) (capabilities : slice Capability) (readiness : string) : Proposal := {|
  Proposal_SchemaVersion := Proposal_SchemaVersion p; Proposal_Repository := Proposal_Repository p; Readiness := readiness;
  TrustBoundary := TrustBoundary p; InventoryFileCount := InventoryFileCount p; InventoryTruncated := InventoryTruncated p; Stacks := Stacks p;
  Commands := Commands p; Capabilities := capabilities; Proposal_PolicySuggestion := Proposal_PolicySuggestion p; Vault := Vault p;
  VaultSHA256 := VaultSHA256 p; PreviousRevision := PreviousRevision p; PreviousVaultSHA256 := PreviousVaultSHA256 p;
  Proposal_VaultDiff := Proposal_VaultDiff p |}.
Definition ApplyCapabilityProbes (proposal : Proposal) (probes : list CapabilityProbe) : Res Proposal * slice Capability :=
  if negb (validSHA (Revision (Proposal_Repository proposal))) || negb (Z.eqb (Proposal_SchemaVersion proposal) SchemaVersion)
  then (Err probe_proposal_invalid, Capabilities proposal)
  else
    let '(outcome, array) := apply_probes (Proposal_Repository proposal) (byName (items (Capabilities proposal))) ∅ probes (items (Capabilities proposal)) in
    let capabilities := (λ _, array) <$> Capabilities proposal in
    match outcome with
    | Err e => (Err e, capabilities)
    | Ok _ =>
        let readiness := if existsb (λ c, String.eqb (State c) "blocked") array then "blocked" else "partially_ready" in
        (Ok (with_capabilities proposal capabilities readiness), capabilities)
    end.
End Vault.

(** ** Results *)

