(* ===== verification/VaultInventory.v ===== *)
(** * internal/projectvault: building a proposal, and carrying a Vault forward

    [Build] and [Reconcile], with the functions they call.  Paths and excerpts come from the repository: they are
    filtered, never interpreted.  The order in which Go ranges over a map and the algorithm of
    [sort.Slice] are arguments ([GoChoice]). *)
From stdpp Require Import base tactics list strings gmap sorting.
From Stdlib Require Import Ascii.
From S2P Require Import Prelude GoStrings GoSort Sha256 Json JsonTypes Vault.
From S2P Require DeliveryPolicy.
Open Scope string_scope.

(** What Go leaves open: the order of [range] over a map, and where [sort.Slice] puts equal elements. *)
Class GoChoice := {
  map_range {A} : gmap string A → list (string * A);
  map_range_perm {A} (m : gmap string A) : map_range m ≡ₚ map_to_list m;
  sort_Slice {A} : (A → A → bool) → list A → list A;
  sort_Slice_perm {A} (less : A → A → bool) l : sort_Slice less l ≡ₚ l;
  sort_Slice_sorted {A} (less : A → A → bool) l : Transitive (not_less less) → (∀ x y, less x y = true → less y x = false) →
    StronglySorted (not_less less) (sort_Slice less l);
}.
(** One choice, to run the code with. *)
Definition one_choice : GoChoice := {|
  map_range A m := map_to_list m; map_range_perm A m := reflexivity _;
  sort_Slice A := sort_by; sort_Slice_perm A := sort_by_perm; sort_Slice_sorted A less l T a := sort_by_sorted less T a l |}.

(** ** Paths *)

Definition SLASH : ascii := "/"%char.
(** [strings.ReplaceAll(value, `\`, "/")] *)
Definition to_slashes (s : string) : string := map_bytes (λ c, if byte_is 92 c then SLASH else c) s.
(** What follows the last slash, and what precedes it. *)
Fixpoint until_slash (l : list ascii) : list ascii := match l with c :: l => if Ascii.eqb c SLASH then [] else c :: until_slash l | [] => [] end.
Fixpoint after_slash (l : list ascii) : option (list ascii) :=
  match l with c :: l => if Ascii.eqb c SLASH then Some l else after_slash l | [] => None end.
Definition pathBase (value : string) : string := of_bytes (rev (until_slash (rev (bytes value)))).
(** [value[:index]] at the last slash, if any. *)
Definition path_dir (value : string) : option string := (λ l, of_bytes (rev l)) <$> after_slash (rev (bytes value)).
Definition is_one_of (options : list string) (value : string) : bool := existsb (String.eqb value) options.
Definition has_segment (candidates : list string) (value : string) : bool := existsb (is_one_of candidates) (Split value SLASH).
Definition hasPathSegment (value : string) (candidates : list string) : bool := has_segment candidates value.
Definition hasSensitivePathSegment (value : string) : bool :=
  has_segment [".git"; ".aws"; ".ssh"; "secrets"; "credentials"; "node_modules"; "vendor"; ".next"; ".turbo"; "dist"; "build"; "coverage"; "__pycache__"]
    value.
Definition has_suffix_of (suffixes : list string) (value : string) : bool := existsb (HasSuffix value) suffixes.

Definition isAPIContractPath (path : string) : bool :=
  let base := pathBase path in
  has_suffix_of [".proto"; ".graphql"; ".graphqls"] base ||
  is_one_of ["openapi.json"; "openapi.yaml"; "openapi.yml"; "swagger.json"; "swagger.yaml"; "swagger.yml"; "asyncapi.json"; "asyncapi.yaml";
    "asyncapi.yml"] base.
Definition isDataSchemaPath (path : string) : bool :=
  let base := pathBase path in
  hasPathSegment path ["migration"; "migrations"; "alembic"] || is_one_of ["schema.prisma"; "schema.sql"] base ||
  HasSuffix base ".sql" && (Contains base "schema" || Contains base "migration").
Definition isDependencyManifestPath (path : string) : bool :=
  let base := pathBase path in
  is_one_of ["package.json"; "package-lock.json"; "npm-shrinkwrap.json"; "pnpm-lock.yaml"; "yarn.lock"; "bun.lock"; "bun.lockb"; "deno.json"; "deno.lock";
    "go.mod"; "go.sum"; "cargo.toml"; "cargo.lock"; "pyproject.toml"; "poetry.lock"; "pipfile"; "pipfile.lock"; "uv.lock"; "gemfile"; "gemfile.lock";
    "composer.json"; "composer.lock"; "pom.xml"; "build.gradle"; "build.gradle.kts"; "settings.gradle"; "settings.gradle.kts"; "deps.edn"; "mix.exs";
    "mix.lock"; "package.swift"; "package.resolved"; "pubspec.yaml"; "pubspec.lock"] base ||
  HasPrefix base "requirements" && HasSuffix base ".txt".
Definition isTestPath (path : string) : bool :=
  let base := pathBase path in
  hasPathSegment path ["test"; "tests"; "__tests__"; "e2e"; "integration"; "integration-tests"] || HasPrefix base "playwright.config." ||
  HasPrefix base "cypress.config." ||
  has_suffix_of ["_test.go"; "_test.rs"; ".test.js"; ".test.jsx"; ".test.ts"; ".test.tsx"; ".spec.js"; ".spec.jsx"; ".spec.ts"; ".spec.tsx"] base.
Definition isRunbookOrDecisionPath (path : string) : bool :=
  let base := pathBase path in
  hasPathSegment path ["runbook"; "runbooks"; "adr"; "adrs"; "decisions"] || HasPrefix base "runbook" || HasPrefix base "adr-".

(** ** Input *)

Record Excerpt := { Excerpt_Path : string; Content : string }.
Record EnvironmentDeclaration := { Declaration_Path : string; Names : list string }.
Record Input := {
  Input_Repository : Repository; Files : list string; Input_InventoryFileCount : Z; Input_InventoryTruncated : bool; Excerpts : list Excerpt;
  EnvironmentDeclarations : list EnvironmentDeclaration;
}.

Definition normalizeVaultEntry (entry : VaultEntry) (revision : string) : VaultEntry :=
  let or (value other : string) := if String.eqb value "" then other else value in
  {| Key := Key entry; Kind := Kind entry; Lifecycle := or (Lifecycle entry) "active"; LifecycleSHA := or (LifecycleSHA entry) revision;
     ValidFromSHA := or (ValidFromSHA entry) revision; ValidThroughSHA := or (ValidThroughSHA entry) revision; Value := Value entry;
     Entry_Provenance := Entry_Provenance entry; History := History entry; HistoryTruncated := HistoryTruncated entry |}.

(** [Confidence: .9] and [.95] *)
Definition confident_90 : json := JNumber "0.9" eq_refl.
Definition confident_95 : json := JNumber "0.95" eq_refl.

Section Inventory.
Context {unicode : GoUnicode} {choice : GoChoice}.

Definition isEnvironmentDeclarationPath (value : string) : bool :=
  let base := pathBase (ToLower (to_slashes (TrimSpace value))) in
  existsb (λ suffix, String.eqb base (".env" +:+ suffix) || String.eqb base ("env" +:+ suffix) || HasSuffix base (".env" +:+ suffix) ||
                     HasSuffix base (".tfvars" +:+ suffix)) [".example"; ".sample"; ".template"; ".dist"].
Definition safeVaultInventoryPath (value : string) : bool :=
  let lower := ToLower (to_slashes (TrimSpace value)) in
  let base := pathBase lower in
  if isEnvironmentDeclarationPath lower then negb (hasSensitivePathSegment lower)
  else if HasPrefix base ".env" || String.eqb base "id_rsa" || String.eqb base "id_ed25519" || hasSensitivePathSegment lower then false
  else if existsb (Contains lower) ["credential"; "secret"; "private_key"; "api_key"; "apikey"; "access_key"; "token"; "password"; "service_account"]
  then false
  else negb (existsb (HasSuffix base) [".pem"; ".key"; ".p12"; ".pfx"; ".jks"; ".keystore"]).

(** One path of the inventory: as it is recorded, if it is. *)
Definition normalized_path (value : string) : string := Trim (to_slashes (TrimSpace value)) SLASH.
Definition well_formed_path (value : string) : bool :=
  negb (String.eqb value "" || Nat.ltb 240 (String.length value) || some_byte is_control value) &&
  negb (existsb (λ part, String.eqb part "" || String.eqb part "." || String.eqb part "..") (Split value SLASH)).
Definition safe_path (value : string) : bool := well_formed_path value && safeVaultInventoryPath value.
Definition safe_set (values : list string) : gmap string unit :=
  foldl (λ seen value, let value := normalized_path value in if safe_path value then <[value := tt]> seen else seen) ∅ values.
Definition keys {A} (l : list (string * A)) : list string := l.*1.
Definition safeFiles (values : list string) : list string := sort_strings (keys (map_range (safe_set values))).

(** ** Stacks and commands *)

Definition markers : list (string * list string) := [
  ("go", ["go.mod"]); ("node", ["package.json"]); ("rust", ["Cargo.toml"]); ("python", ["pyproject.toml"; "requirements.txt"]);
  ("terraform", ["main.tf"]); ("aws_cdk", ["cdk.json"])].
Definition static_fact (stack path revision : string) : Fact :=
  {| Fact_Name := stack; Fact_Confidence := confident_95;
     Fact_Provenance := Some [{| Source := "static_inventory"; Path := path; Proof_Revision := revision; Confidence := confident_95 |}] |}.
Definition detect_stack (files : list string) (revision : string) (marker : string * list string) : list Fact :=
  match List.find (λ file, existsb (EqualFold (pathBase file)) marker.2) files with
  | Some file => [static_fact marker.1 file revision]
  | None => []
  end.
Definition detectStacks (files : list string) (revision : string) : list Fact :=
  sort_key Fact_Name (flat_map (detect_stack files revision) markers).

Definition command (capability : string) (value : list string) (path revision : string) : ProposedCommand := {|
  Command_Capability := capability; WorkingDirectory := default "." (path_dir path); Command := Some value; Status := "proposed_not_executed";
  Command_Provenance := {| Source := "structured_manifest"; Path := path; Proof_Revision := revision; Confidence := confident_90 |} |}.
Definition file_set (files : list string) : gmap string string := foldl (λ m file, <[ToLower file := file]> m) ∅ files.
(** The directory of the lockfiles.  The place of the last slash is that of the lowered path, but
    the path itself is sliced there: [None] is the panic of [manifestPath[:index+1]] when
    lowering made the path so much longer that the place is past its end. *)
Definition manifest_directory (manifestPath : string) : option string :=
  match path_dir (ToLower manifestPath) with
  | None => Some ""
  | Some before =>
      let stop := String.length before + 1 in
      if Nat.ltb (String.length manifestPath) stop then None else Some (ToLower (String.substring 0 stop manifestPath))
  end.
Definition packageManagerFor (manifestPath : string) (files : gmap string string) : option string :=
  directory ← manifest_directory manifestPath;
  let managers := [("pnpm-lock.yaml", "pnpm"); ("yarn.lock", "yarn"); ("bun.lock", "bun"); ("bun.lockb", "bun")] in
  let present (directory : string) (candidate : string * string) := bool_decide (is_Some (files !! (directory +:+ candidate.1))) in
  match List.find (present directory) (managers ++ [("package-lock.json", "npm")])%list with
  | Some candidate => Some candidate.2
  | None => match List.find (present "") managers with Some candidate => Some candidate.2 | None => Some "npm" end
  end.
(** [manifest.Scripts] after [json.Unmarshal]: the names in it, or nothing when the decoder fails. *)
Fixpoint scripts_in (fields : list (string * jvalue)) (scripts : gset string) : option (gset string) :=
  match fields with
  | [] => Some scripts
  | (name, v) :: fields =>
      if field_is "scripts" name
      then match v with
           | VNull => scripts_in fields ∅
           | VObject members => scripts_in fields (list_to_set (keys members) ∪ scripts)
           | _ => None
           end
      else scripts_in fields scripts
  end.
Definition Scripts (content : string) : option (gset string) :=
  match read_json content with
  | Some (VObject fields) => scripts_in fields ∅
  | Some VNull => Some ∅
  | _ => None
  end.
Definition script_candidates : list (string * string) := [
  ("test", "unit"); ("test:unit", "unit"); ("test:integration", "integration"); ("test:contract", "contract"); ("test:e2e", "e2e"); ("build", "build")].
Definition script_command (manager name : string) : list string := if String.eqb manager "yarn" then ["yarn"; name] else [manager; "run"; name].
Fixpoint propose_scripts (scripts : gset string) (manager path revision : string) (proposed : gset string) (candidates : list (string * string)) :
    list ProposedCommand :=
  match candidates with
  | [] => []
  | (name, capability) :: rest =>
      if negb (bool_decide (capability ∈ proposed)) && bool_decide (name ∈ scripts) && scriptNamePattern name
      then command capability (script_command manager name) path revision ::
           propose_scripts scripts manager path revision ({[capability]} ∪ proposed) rest
      else propose_scripts scripts manager path revision proposed rest
  end.
Definition file_commands (revision : string) (file : string * string) : list ProposedCommand :=
  let base := pathBase file.1 in
  if String.eqb base "go.mod" then [command "unit" ["go"; "test"; "./..."] file.2 revision]
  else if String.eqb base "cargo.toml" then [command "unit" ["cargo"; "test"; "--all-targets"] file.2 revision]
  else [].
Definition excerpt_commands (files : gmap string string) (revision : string) (excerpt : Excerpt) : option (list ProposedCommand) :=
  let path := Trim (to_slashes (Excerpt_Path excerpt)) SLASH in
  if negb (EqualFold (pathBase path) "package.json") || Nat.ltb (64 * 1024) (String.length (Content excerpt)) then Some []
  else match Scripts (Content excerpt) with
       | None => Some []
       | Some scripts => manager ← packageManagerFor path files; Some (propose_scripts scripts manager path revision ∅ script_candidates)
       end.
Definition joined_command (c : ProposedCommand) : string := String.concat NUL (items (Command c)).
Definition command_less (i j : ProposedCommand) : bool :=
  if String.eqb (Command_Capability i) (Command_Capability j)
  then if negb (String.eqb (WorkingDirectory i) (WorkingDirectory j)) then String.ltb (WorkingDirectory i) (WorkingDirectory j)
       else String.ltb (joined_command i) (joined_command j)
  else String.ltb (Command_Capability i) (Command_Capability j).
(** The commands found, in the order in which they are. *)
Definition found_commands (files : list string) (excerpts : list Excerpt) (revision : string) : option (list ProposedCommand) :=
  proposed ← mapM (excerpt_commands (file_set files) revision) excerpts;
  Some (flat_map (file_commands revision) (map_range (file_set files)) ++ mjoin proposed)%list.
Definition detectCommands (files : list string) (excerpts : list Excerpt) (revision : string) : option (list ProposedCommand) :=
  found ← found_commands files excerpts revision; Some (take 64 (sort_Slice command_less found)).

(** ** Capabilities *)

Definition capability_names : list string := [
  "source"; "branch_write"; "pr_write"; "review"; "unit"; "integration"; "contract"; "e2e"; "preview"; "staging"; "release"; "health"; "recovery"; "vault"].
Definition capability (source : Provenance) (proposed : gmap string Provenance) (name : string) : Capability :=
  let item state reason evidence := {| Name := name; State := state; Reason := reason; Evidence := evidence |} in
  if String.eqb name "source" then item "ready" "immutable default-branch SHA and bounded tree inventory verified" (Some [source])
  else if String.eqb name "vault" then item "proposed" "vault draft requires explicit human approval" (Some [source])
  else match proposed !! name with
       | Some proof => item "proposed" "command detected but not executed in an allow-listed sandbox" (Some [proof])
       | None => item "unknown" "not proven by static onboarding" None
       end.
Definition capabilityMatrix (source : Provenance) (commands : list ProposedCommand) : list Capability :=
  let proposed := foldl (λ m c, <[Command_Capability c := Command_Provenance c]> m) (∅ : gmap string Provenance) commands in
  capability source proposed <$> capability_names.

(** ** The Vault *)

Definition strings_json (l : list string) : json := JArray (JString <$> l).
Definition new_entry (key kind : string) (value : json) (proofs : list Provenance) : VaultEntry := {|
  Key := key; Kind := kind; Lifecycle := "active"; LifecycleSHA := ""; ValidFromSHA := ""; ValidThroughSHA := ""; Value := value;
  Entry_Provenance := Some proofs; History := None; HistoryTruncated := false |}.
Definition normalizedEnvironmentDeclarations (input : list EnvironmentDeclaration) (files : list string) (revision : string) :
    list (string * list string) * list Provenance :=
  let eligible := filter (λ file, isEnvironmentDeclarationPath (ToLower file) = true) files in
  let byPath := foldl (λ (m : gmap string (list string)) declaration,
    let path := Trim (to_slashes (TrimSpace (Declaration_Path declaration))) SLASH in
    if negb (bool_decide (path ∈ eligible)) then m
    else
      let seen := foldl (λ (m : gmap string unit) name,
        let name := TrimSpace name in if environmentVariableNamePattern name then <[name := tt]> m else m) ∅ (Names declaration) in
      let names := sort_strings (keys (map_range seen)) in
      if Nat.ltb 0 (length names) then <[path := names]> m else m) ∅ input in
  let paths := sort_strings (keys (map_range byPath)) in
  ((λ path, (path, default [] (byPath !! path))) <$> paths,
   (λ path, {| Source := "structured_environment_template"; Path := path; Proof_Revision := revision; Confidence := confident_95 |}) <$> paths).
Definition declaration_json (d : string * list string) : json := JObject [("names", strings_json d.2); ("path", JString d.1)].
Definition command_value (c : ProposedCommand) : json :=
  JObject [("argv", slice_json JString (Command c)); ("capability", JString (Command_Capability c)); ("status", JString (Status c));
    ("working_directory", JString (WorkingDirectory c))].
Definition marker_entry (files : list string) (revision : string) (marker : string * string * (string → bool)) : list VaultEntry :=
  match filter (λ file, marker.2 (ToLower file) = true) files with
  | [] => []
  | paths => [new_entry marker.1.1 marker.1.2 (JObject [("paths", strings_json paths)])
               ((λ path, {| Source := "static_inventory"; Path := path; Proof_Revision := revision; Confidence := confident_90 |}) <$> paths)]
  end.
Definition marker_entries : list (string * string * (string → bool)) := [
  ("repository.ci", "workflow", λ path, HasPrefix path ".github/workflows/");
  ("repository.ownership", "ownership", λ path, HasSuffix path "codeowners");
  ("repository.infrastructure", "infrastructure", λ path,
    HasSuffix path ".tf" || Contains path "cloudformation" || Contains path "serverless." || HasSuffix path "cdk.json");
  ("repository.documentation", "documentation", λ path, String.eqb path "readme.md" || HasPrefix path "docs/");
  ("repository.api_contracts", "contract", isAPIContractPath);
  ("repository.data_schemas", "data_schema", isDataSchemaPath);
  ("repository.dependencies", "dependency", isDependencyManifestPath);
  ("repository.environment_declarations", "configuration", isEnvironmentDeclarationPath);
  ("repository.tests", "testing", isTestPath);
  ("repository.runbooks_and_decisions", "operations", isRunbookOrDecisionPath)].
Definition entry_if (present : bool) (entry : VaultEntry) : list VaultEntry := if present then [entry] else [].
Definition found_entries (repository : Repository) (identity : Provenance) (files : list string) (stacks : list Fact) (commands : list ProposedCommand)
    (environment : list EnvironmentDeclaration) : list VaultEntry :=
  let '(declarations, proofs) := normalizedEnvironmentDeclarations environment files (Revision repository) in
  ([new_entry "repository.identity" "repository"
      (JObject [("default_branch", JString (DefaultBranch repository)); ("reference", JString (Reference repository));
        ("revision", JString (Revision repository))]) [identity]] ++
   entry_if (Nat.ltb 0 (length stacks))
     (new_entry "repository.stacks" "architecture" (JObject [("detected", strings_json (Fact_Name <$> stacks))])
        (flat_map (λ stack, items (Fact_Provenance stack)) stacks)) ++
   entry_if (Nat.ltb 0 (length commands))
     (new_entry "repository.commands" "testing" (JObject [("commands", JArray (command_value <$> commands))]) (Command_Provenance <$> commands)) ++
   flat_map (marker_entry files (Revision repository)) marker_entries ++
   entry_if (Nat.ltb 0 (length declarations))
     (new_entry "repository.environment_variables" "configuration" (JObject [("declarations", JArray (declaration_json <$> declarations))]) proofs))%list.
Definition buildManifest (repository : Repository) (identity : Provenance) (files : list string) (stacks : list Fact) (commands : list ProposedCommand)
    (environment : list EnvironmentDeclaration) : Manifest :=
  let entries := (λ entry, normalizeVaultEntry entry (Revision repository)) <$> found_entries repository identity files stacks commands environment in
  {| Manifest_SchemaVersion := SchemaVersion; Scope := "repository"; Manifest_Repository := repository; Entries := Some (sort_key Key entries);
     Manifest_HistoryTruncated := false |}.

(** ** The proposal *)

Definition valid_branch (defaultBranch : string) : bool :=
  negb (String.eqb defaultBranch "" || Nat.ltb 255 (String.length defaultBranch) ||
        some_byte (λ c, byte_is 0 c || byte_is 13 c || byte_is 10 c) defaultBranch).
Definition Build {time_url : DeliveryPolicy.GoTimeURL} (input : Input) : Res Proposal :=
  match DeliveryPolicy.CanonicalGitHubReference (Reference (Input_Repository input)) with
  | Err reason => Err (reference_invalid reason)
  | Ok reference =>
      let revision := ToLower (TrimSpace (Revision (Input_Repository input))) in
      _ ← fail_if (negb (validSHA revision)) revision_invalid;
      let defaultBranch := TrimSpace (DefaultBranch (Input_Repository input)) in
      _ ← fail_if (negb (valid_branch defaultBranch)) default_branch_invalid;
      let files := safeFiles (Files input) in
      let repository := {| Reference := reference; DefaultBranch := defaultBranch; Revision := revision |} in
      let metadataProof := metadata_proof revision in
      let stacks := detectStacks files revision in
      commands ← match detectCommands files (Excerpts input) revision with Some commands => Ok commands | None => Err slice_out_of_range end;
      let capabilities := capabilityMatrix metadataProof commands in
      let policySuggestion := buildPolicySuggestion repository metadataProof commands in
      let manifest := buildManifest repository metadataProof files stacks commands (EnvironmentDeclarations input) in
      let digest := ManifestSHA256 manifest in
      let readiness := if Nat.eqb (length files) 0 then "blocked" else "partially_ready" in
      let initialDiff := {| Added := Some (Key <$> items (Entries manifest)); Modified := Some []; Unchanged := Some []; Removed := Some [] |} in
      let fileCount := if Z.ltb (Input_InventoryFileCount input) (Z.of_nat (length files)) then Z.of_nat (length files)
                       else Input_InventoryFileCount input in
      mret {| Proposal_SchemaVersion := SchemaVersion; Proposal_Repository := repository; Readiness := readiness;
              TrustBoundary := "repository_content_is_untrusted_data"; InventoryFileCount := fileCount;
              InventoryTruncated := Input_InventoryTruncated input; Stacks := Some stacks; Commands := Some commands; Capabilities := Some capabilities;
              Proposal_PolicySuggestion := Some policySuggestion; Vault := manifest; VaultSHA256 := digest; PreviousRevision := "";
              PreviousVaultSHA256 := ""; Proposal_VaultDiff := initialDiff |}
  end.
End Inventory.

(** ** Carrying an approved Vault forward to a new revision *)

Definition maxVaultHistoryPerEntry : nat := 64.

Definition equivalent_json (entry : VaultEntry) : json := JObject [("kind", JString (Kind entry)); ("value", Value entry)].
Definition vaultEntryEquivalent (left right : VaultEntry) : bool :=
  String.eqb (Marshal (equivalent_json left)) (Marshal (equivalent_json right)).
Definition vaultHistorySnapshot (entry : VaultEntry) (lifecycle transitionSHA fallbackThroughSHA : string) : VaultHistoryEntry := {|
  History_Kind := Kind entry; History_Lifecycle := lifecycle; History_Value := Value entry; History_Provenance := Entry_Provenance entry;
  History_ValidFromSHA := ValidFromSHA entry;
  History_ValidThroughSHA := if String.eqb (ValidThroughSHA entry) "" then fallbackThroughSHA else ValidThroughSHA entry;
  TransitionSHA := transitionSHA |}.

(** An entry with its lifecycle, its first and last revisions and its history replaced. *)
Definition with_lifecycle (e : VaultEntry) (lifecycle sha from through : string) (history : slice VaultHistoryEntry) (truncated : bool) : VaultEntry := {|
  Key := Key e; Kind := Kind e; Lifecycle := lifecycle; LifecycleSHA := sha; ValidFromSHA := from; ValidThroughSHA := through; Value := Value e;
  Entry_Provenance := Entry_Provenance e; History := history; HistoryTruncated := truncated |}.
Definition with_history (e : VaultEntry) (history : slice VaultHistoryEntry) (truncated : bool) : VaultEntry :=
  with_lifecycle e (Lifecycle e) (LifecycleSHA e) (ValidFromSHA e) (ValidThroughSHA e) history truncated.
Definition trimVaultHistory (entry : VaultEntry) : VaultEntry :=
  let history := items (History entry) in
  if Nat.leb (length history) maxVaultHistoryPerEntry then entry
  else with_history entry (clone (Some (drop (length history - maxVaultHistoryPerEntry) history))) true.

Inductive change := added | modified | unchanged.
#[export] Instance change_eq_dec : EqDecision change.
Proof. solve_decision. Defined.

(** One entry of the current Vault. *)
Definition reconcile_entry (current previous : string) (previousByKey : gmap string VaultEntry) (entry : VaultEntry) : change * VaultEntry :=
  let entry := normalizeVaultEntry entry current in
  let '(kind, entry) :=
    match previousByKey !! Key entry with
    | Some prior =>
        if vaultEntryEquivalent entry prior && negb (String.eqb (Lifecycle prior) "removed")
        then (unchanged, with_lifecycle entry (Lifecycle entry) (LifecycleSHA entry) (ValidFromSHA prior) (ValidThroughSHA entry)
                           (clone (History prior)) (HistoryTruncated prior))
        else
          let '(lifecycle, transition) := if String.eqb (Lifecycle prior) "removed" then ("removed", LifecycleSHA prior) else ("deprecated", current) in
          (modified, trimVaultHistory (with_history entry (Some (items (History prior) ++ [vaultHistorySnapshot prior lifecycle transition previous])%list)
                                         (HistoryTruncated prior)))
    | None => (added, entry)
    end in
  (kind, with_lifecycle entry "active" current (ValidFromSHA entry) current (History entry) (HistoryTruncated entry)).
(** An entry of the previous Vault that the current one does not have. *)
Definition carry_entry (current previous : string) (prior : VaultEntry) : VaultEntry :=
  if String.eqb (Lifecycle prior) "removed" then prior
  else with_lifecycle prior "removed" current (ValidFromSHA prior) previous (History prior) (HistoryTruncated prior).

Section Reconcile.
Context {choice : GoChoice}.

Definition blank_key (entry : VaultEntry) : bool := String.eqb (TrimSpace (Key entry)) "".
Fixpoint index_previous (revision : string) (entries : list VaultEntry) (previousByKey : gmap string VaultEntry) : Res (gmap string VaultEntry) :=
  match entries with
  | [] => mret previousByKey
  | entry :: rest =>
      _ ← fail_if (blank_key entry) entry_invalid;
      _ ← fail_if (bool_decide (is_Some (previousByKey !! Key entry))) entries_duplicate;
      index_previous revision rest (<[Key entry := normalizeVaultEntry entry revision]> previousByKey)
  end.
Fixpoint reconcile_entries (current previous : string) (previousByKey : gmap string VaultEntry) (seen : gset string) (entries : list VaultEntry) :
    Res (list (change * VaultEntry)) :=
  match entries with
  | [] => mret []
  | entry :: rest =>
      _ ← fail_if (blank_key entry) entry_invalid;
      _ ← fail_if (bool_decide (Key entry ∈ seen)) entries_duplicate;
      rest ← reconcile_entries current previous previousByKey ({[Key entry]} ∪ seen) rest;
      mret (reconcile_entry current previous previousByKey entry :: rest)
  end.
Definition changed_keys (kind : change) (l : list (change * VaultEntry)) : slice string :=
  Some (sort_strings ((λ c, Key c.2) <$> filter (λ c, c.1 = kind) l)).
(** The two loops of [Reconcile]: the entries and the diff. *)
Definition merge_entries (current previous : Manifest) : Res (list VaultEntry * VaultDiff) :=
  let now := Revision (Manifest_Repository current) in
  let before := Revision (Manifest_Repository previous) in
  previousByKey ← index_previous before (items (Entries previous)) ∅;
  changes ← reconcile_entries now before previousByKey ∅ (items (Entries current));
  let seen := Key <$> items (Entries current) in
  let absent := filter (λ prior, Key prior ∉ seen) ((map_range previousByKey).*2) in
  mret (sort_key Key (changes.*2 ++ (carry_entry now before <$> absent))%list,
        {| Added := changed_keys added changes; Modified := changed_keys modified changes; Unchanged := changed_keys unchanged changes;
           Removed := Some (sort_strings (Key <$> filter (λ prior, Lifecycle prior ≠ "removed") absent)) |}).

Definition with_vault (p : Proposal) (vault : Manifest) (previousRevision previousDigest : string) (diff : VaultDiff) : Proposal := {|
  Proposal_SchemaVersion := Proposal_SchemaVersion p; Proposal_Repository := Proposal_Repository p; Readiness := Readiness p;
  TrustBoundary := TrustBoundary p; InventoryFileCount := InventoryFileCount p; InventoryTruncated := InventoryTruncated p; Stacks := Stacks p;
  Commands := Commands p; Capabilities := Capabilities p; Proposal_PolicySuggestion := Proposal_PolicySuggestion p; Vault := vault;
  VaultSHA256 := ManifestSHA256 vault; PreviousRevision := previousRevision; PreviousVaultSHA256 := previousDigest; Proposal_VaultDiff := diff |}.
Definition no_changes : VaultDiff := {| Added := Some []; Modified := Some []; Unchanged := Some []; Removed := Some [] |}.
Definition Reconcile (proposal : Proposal) (previous : Manifest) : Res Proposal :=
  let current := Vault proposal in
  let now := Revision (Manifest_Repository current) in
  let before := Revision (Manifest_Repository previous) in
  _ ← fail_if (negb (Z.eqb (Proposal_SchemaVersion proposal) SchemaVersion) || negb (Z.eqb (Manifest_SchemaVersion current) SchemaVersion) ||
               negb (Z.eqb (Manifest_SchemaVersion previous) SchemaVersion) || negb (String.eqb (Scope current) "repository") ||
               negb (String.eqb (Scope previous) "repository")) reconcile_schema_invalid;
  _ ← fail_if (negb (String.eqb (Reference (Manifest_Repository current)) (Reference (Manifest_Repository previous))) || negb (validSHA now) ||
               negb (validSHA before)) reconcile_checkpoints_invalid;
  if String.eqb now before then mret (with_vault proposal previous before (ManifestSHA256 previous) no_changes)
  else
    '(result, diff) ← merge_entries current previous;
    let vault := {| Manifest_SchemaVersion := Manifest_SchemaVersion current; Scope := Scope current; Manifest_Repository := Manifest_Repository current;
                    Entries := Some result;
                    Manifest_HistoryTruncated := existsb HistoryTruncated result || Manifest_HistoryTruncated current |} in
    mret (with_vault proposal vault before (ManifestSHA256 previous) diff).
End Reconcile.
