(* ===== verification/VaultFacts.v ===== *)
(** * internal/projectvault: a Vault as a map, and what [Reconcile] does to it and to those after it

    [settled]: what becomes of one key.  [merged_by_key]: the loops of [Reconcile] are the
    pointwise merge of the two Vaults.  [vault_ok]: a well-formed Vault, which [Reconcile]
    keeps so.  [remembers]: a fact once in a Vault is in its later revisions. *)
From stdpp Require Import base tactics list strings gmap sorting.
From S2P Require Import Prelude GoStrings GoSort Sha256 Json Vault VaultInventory.
From S2P Require DeliveryPolicy.
Open Scope string_scope.

Definition by_key (l : list VaultEntry) : gmap string VaultEntry := list_to_map ((λ e, (Key e, e)) <$> l).
(** Keys that are not blank and all different. *)
Definition keyed (l : list VaultEntry) : Prop := Forall (λ e, blank_key e = false) l ∧ NoDup (Key <$> l).
#[export] Instance keyed_dec l : Decision (keyed l) := _.
Definition last_items {A} (n : nat) (l : list A) : list A := drop (length l - n) l.
Definition or_else (value other : string) : string := if String.eqb value "" then other else value.
Definition removed (e : VaultEntry) : bool := String.eqb (Lifecycle e) "removed".

(** What [Reconcile] makes of one key: [current] and [prior] are its entries in the two Vaults. *)
Definition settled (now before : string) (current prior : option VaultEntry) : option VaultEntry :=
  let prior := (λ p, normalizeVaultEntry p before) <$> prior in
  match current, prior with
  | None, None => None
  | None, Some p => Some (if removed p then p else with_lifecycle p "removed" now (ValidFromSHA p) before (History p) (HistoryTruncated p))
  | Some e, None => Some (with_lifecycle e "active" now (or_else (ValidFromSHA e) now) now (History e) (HistoryTruncated e))
  | Some e, Some p =>
      if vaultEntryEquivalent e p && negb (removed p)
      then Some (with_lifecycle e "active" now (ValidFromSHA p) now (clone (History p)) (HistoryTruncated p))
      else
        let replaced := vaultHistorySnapshot p (if removed p then "removed" else "deprecated") (if removed p then LifecycleSHA p else now) before in
        let history := (items (History p) ++ [replaced])%list in
        Some (with_lifecycle e "active" now (or_else (ValidFromSHA e) now) now (Some (last_items maxVaultHistoryPerEntry history))
                (HistoryTruncated p || Nat.ltb maxVaultHistoryPerEntry (length history)))
  end.

(** ** Maps of entries *)

Lemma by_key_cons e l : by_key (e :: l) = <[Key e := e]> (by_key l).
Proof. done. Qed.
Lemma by_key_None l k : by_key l !! k = None ↔ k ∉ Key <$> l.
Proof.
  unfold by_key. rewrite <- not_elem_of_list_to_map. by rewrite <- list_fmap_compose.
Qed.
Lemma by_key_Some l k e : NoDup (Key <$> l) → by_key l !! k = Some e ↔ e ∈ l ∧ Key e = k.
Proof.
  intros Hnd. unfold by_key. rewrite <- elem_of_list_to_map; [|by rewrite <- list_fmap_compose].
  rewrite list_elem_of_fmap. split; [intros (x & [= -> ->] & ?); done|intros [? <-]; by exists e].
Qed.
Lemma by_key_is_Some l k : is_Some (by_key l !! k) ↔ k ∈ Key <$> l.
Proof.
  rewrite <- not_eq_None_Some, by_key_None. split; [apply dec_stable|by intros ? ?].
Qed.
Lemma by_key_perm l l' : NoDup (Key <$> l) → l ≡ₚ l' → by_key l = by_key l'.
Proof.
  intros Hnd Hp. apply list_to_map_proper; [by rewrite <- list_fmap_compose|by rewrite Hp].
Qed.
Lemma normalize_key e r : Key (normalizeVaultEntry e r) = Key e.
Proof. done. Qed.
Lemma length_last_items {A} n (l : list A) : length (last_items n l) = length l `min` n.
Proof. unfold last_items. rewrite length_drop. lia. Qed.

(** ** The loops *)

Lemma bind_Ok {A B} (r : Res A) (f : A → Res B) b : (a ← r; f a) = Ok b ↔ ∃ a, r = Ok a ∧ f a = Ok b.
Proof. apply bind_ok. Qed.
Lemma keyed_cons e l : keyed (e :: l) ↔ blank_key e = false ∧ Key e ∉ Key <$> l ∧ keyed l.
Proof. unfold keyed. rewrite Forall_cons, fmap_cons, NoDup_cons. naive_solver. Qed.
Lemma index_previous_ok revision l : ∀ m m', index_previous revision l m = Ok m' ↔
  keyed l ∧ Forall (λ e, m !! Key e = None) l ∧ m' = ((λ e, normalizeVaultEntry e revision) <$> by_key l) ∪ m.
Proof.
  induction l as [|e l IH]; intros m m'.
  - cbn. unfold by_key. cbn. rewrite fmap_empty, (left_id_L ∅ (∪)). split; [intros [= ->]|intros (_ & _ & ->)]; [|done].
    split; [split; constructor|]. by split; [constructor|].
  - cbn [index_previous]. rewrite bind_Ok. setoid_rewrite bind_Ok. setoid_rewrite fail_if_ok. setoid_rewrite IH.
    rewrite keyed_cons, Forall_cons, by_key_cons, fmap_insert, <- insert_union_l.
    setoid_rewrite bool_decide_eq_false. setoid_rewrite <- eq_None_not_Some. split.
    + intros (_ & Hb & _ & Hme & Hk & Hl & ->).
      assert (Hni : Key e ∉ Key <$> l).
      { intros (x & Hx & Hin)%list_elem_of_fmap. rewrite Forall_forall in Hl. specialize (Hl x Hin).
        by rewrite <- Hx, lookup_insert_eq in Hl. }
      split; [done|]. split; [split; [done|]|].
      * eapply Forall_impl; [exact Hl|]. cbn. intros x Hx. by apply lookup_insert_None in Hx as [].
      * symmetry. apply insert_union_r. by rewrite lookup_fmap, (proj2 (by_key_None l (Key e)) Hni).
    + intros ((Hb & Hni & Hk) & (Hme & Hl) & ->). exists tt. split; [done|]. exists tt. split; [done|]. split; [done|].
      split.
      * rewrite Forall_forall in *. intros x Hx. rewrite lookup_insert_ne; [by apply Hl|].
        intros Heq. apply Hni. rewrite Heq. by apply list_elem_of_fmap_2.
      * apply insert_union_r. by rewrite lookup_fmap, (proj2 (by_key_None l (Key e)) Hni).
Qed.
Lemma reconcile_entries_ok now before m l : ∀ seen changes, reconcile_entries now before m seen l = Ok changes ↔
  keyed l ∧ Forall (λ e, Key e ∉ seen) l ∧ changes = reconcile_entry now before m <$> l.
Proof.
  induction l as [|e l IH]; intros seen changes.
  - cbn. split; [intros [= <-]|intros (_ & _ & ->)]; [|done]. split; [split; constructor|]. by split; [constructor|].
  - cbn [reconcile_entries]. rewrite bind_Ok. setoid_rewrite bind_Ok. setoid_rewrite bind_Ok. setoid_rewrite fail_if_ok. setoid_rewrite IH.
    rewrite keyed_cons, Forall_cons, fmap_cons. setoid_rewrite bool_decide_eq_false. split.
    + intros (_ & Hb & _ & Hs & ? & (Hk & Hl & ->) & [= <-]).
      assert (Hni : Key e ∉ Key <$> l).
      { intros (x & Hx & Hin)%list_elem_of_fmap. rewrite Forall_forall in Hl. specialize (Hl x Hin). set_solver. }
      split; [done|]. split; [split; [done|]|done]. eapply Forall_impl; [exact Hl|]. set_solver.
    + intros ((Hb & Hni & Hk) & (Hs & Hl) & ->). exists tt. split; [done|]. exists tt. split; [done|].
      eexists. split; [|done]. split; [done|]. split; [|done]. rewrite Forall_forall in *. intros x Hx.
      assert (Key e ≠ Key x) by (intros Heq; apply Hni; rewrite Heq; by apply list_elem_of_fmap_2). set_solver.
Qed.

Lemma reconcile_entry_key now before m e : Key (reconcile_entry now before m e).2 = Key e.
Proof.
  unfold reconcile_entry. cbn. destruct (m !! Key e) as [p|]; [|done]. destruct (_ && _); [done|].
  destruct (String.eqb (Lifecycle p) _); cbn; unfold trimVaultHistory; by destruct (Nat.leb _ _).
Qed.
Lemma clone_Some {A} (l : list A) : l ≠ [] → clone (Some l) = Some l.
Proof. by destruct l. Qed.
Lemma trim_items e history truncated : history ≠ [] →
  trimVaultHistory (with_history e (Some history) truncated) =
  with_history e (Some (last_items maxVaultHistoryPerEntry history)) (truncated || Nat.ltb maxVaultHistoryPerEntry (length history)).
Proof.
  intros Hne. unfold trimVaultHistory, last_items. cbn [items History with_history with_lifecycle default from_option id].
  destruct (Nat.leb_spec (length history) maxVaultHistoryPerEntry) as [Hle|Hlt].
  - rewrite (proj2 (Nat.ltb_ge _ _) Hle), orb_false_r. replace (length history - maxVaultHistoryPerEntry) with 0 by lia. done.
  - rewrite (proj2 (Nat.ltb_lt _ _) Hlt), orb_true_r, clone_Some; [done|].
    intros Heq%(f_equal length). rewrite length_drop in Heq. cbn in Heq. unfold maxVaultHistoryPerEntry in *. lia.
Qed.
(** One entry of the current Vault becomes what the reference says. *)
Lemma reconcile_entry_settled now before m (prior : option VaultEntry) e : m !! Key e = (λ p, normalizeVaultEntry p before) <$> prior →
  settled now before (Some e) prior = Some (reconcile_entry now before m e).2.
Proof.
  intros Hm. unfold settled, reconcile_entry. cbn [Key normalizeVaultEntry]. rewrite Hm. destruct prior as [p|]; cbn [fmap option_fmap option_map]; [|done].
  set (q := normalizeVaultEntry p before).
  change (vaultEntryEquivalent (normalizeVaultEntry e now) q) with (vaultEntryEquivalent e q).
  fold (removed q). destruct (vaultEntryEquivalent e q && negb (removed q)); [done|].
  destruct (removed q); rewrite trim_items by (by destruct (items (History q))); done.
Qed.
Lemma carry_entry_settled now before prior :
  settled now before None (Some prior) = Some (carry_entry now before (normalizeVaultEntry prior before)).
Proof. unfold settled, carry_entry, removed. cbn [fmap option_fmap option_map]. by destruct (String.eqb _ _). Qed.
Lemma carry_entry_key now before p : Key (carry_entry now before p) = Key p.
Proof. unfold carry_entry. by destruct (String.eqb _ _). Qed.

Section Merge.
Context {choice : GoChoice}.

Lemma range_elem {A} (m : gmap string A) x : x ∈ map_range m ↔ m !! x.1 = Some x.2.
Proof. rewrite map_range_perm. destruct x as [k a]. apply elem_of_map_to_list. Qed.
Lemma range_keys {A} (m : gmap string A) : NoDup (map_range m).*1.
Proof. rewrite map_range_perm. apply NoDup_fst_map_to_list. Qed.

(** The entries of the previous Vault, by key. *)
Definition indexed (revision : string) (l : list VaultEntry) : gmap string VaultEntry := (λ e, normalizeVaultEntry e revision) <$> by_key l.
Lemma indexed_lookup revision l k : indexed revision l !! k = (λ e, normalizeVaultEntry e revision) <$> by_key l !! k.
Proof. apply lookup_fmap. Qed.
Lemma indexed_key revision l k p : NoDup (Key <$> l) → indexed revision l !! k = Some p → Key p = k.
Proof. intros Hnd. rewrite indexed_lookup. intros (e & Heq & ->)%fmap_Some. by apply (by_key_Some l k e Hnd) in Heq as [_ <-]. Qed.
Definition absent_entries (revision : string) (current previous : list VaultEntry) : list VaultEntry :=
  filter (λ prior, Key prior ∉ Key <$> current) (map_range (indexed revision previous)).*2.
Lemma absent_elem revision current previous p : NoDup (Key <$> previous) →
  p ∈ absent_entries revision current previous ↔ Key p ∉ Key <$> current ∧ indexed revision previous !! Key p = Some p.
Proof.
  intros Hnd. unfold absent_entries. rewrite list_elem_of_filter, (list_elem_of_fmap snd). split.
  - intros [Hc ([k q] & Hq & Hk%range_elem)]. cbn in *. subst q. by rewrite (indexed_key _ _ _ _ Hnd Hk) in *.
  - intros [Hc Hk]. split; [done|]. exists (Key p, p). by rewrite range_elem.
Qed.
Lemma range_values_keys revision l : NoDup (Key <$> l) → Key <$> (map_range (indexed revision l)).*2 = (map_range (indexed revision l)).*1.
Proof.
  intros Hnd. rewrite <- list_fmap_compose. apply list_fmap_ext. intros i [k p] Hi. cbn.
  apply (indexed_key revision l k p Hnd). apply (range_elem _ (k, p)). by eapply list_elem_of_lookup_2.
Qed.
Lemma NoDup_filter_fmap {A B} (f : A → B) (P : A → Prop) `{!∀ x, Decision (P x)} l : NoDup (f <$> l) → NoDup (f <$> filter P l).
Proof. intros Hnd. eapply sublist_NoDup; [exact Hnd|]. apply fmap_sublist, sublist_filter. Qed.

(** The entries before they are sorted. *)
Definition merged_list (now before : string) (current previous : list VaultEntry) : list VaultEntry :=
  ((reconcile_entry now before (indexed before previous) <$> current).*2 ++
   (carry_entry now before <$> absent_entries before current previous))%list.
Lemma merged_keys now before current previous :
  Key <$> merged_list now before current previous = ((Key <$> current) ++ (Key <$> absent_entries before current previous))%list.
Proof.
  unfold merged_list. rewrite fmap_app, <- !list_fmap_compose. f_equal; apply list_fmap_ext; intros; cbn;
    [apply reconcile_entry_key|apply carry_entry_key].
Qed.
Lemma merged_NoDup now before current previous : NoDup (Key <$> current) → NoDup (Key <$> previous) →
  NoDup (Key <$> merged_list now before current previous).
Proof.
  intros Hc Hp. rewrite merged_keys. apply NoDup_app. split; [done|]. split.
  - intros k Hk (p & -> & Hin)%list_elem_of_fmap. by apply absent_elem in Hin as [? _].
  - apply NoDup_filter_fmap. rewrite range_values_keys by done. apply range_keys.
Qed.
Lemma merged_by_key now before current previous : NoDup (Key <$> current) → NoDup (Key <$> previous) →
  by_key (merged_list now before current previous) = merge (settled now before) (by_key current) (by_key previous).
Proof.
  intros Hc Hp. pose proof (merged_NoDup now before _ _ Hc Hp) as Hnd. apply map_eq. intros k. rewrite lookup_merge.
  destruct (by_key current !! k) as [e|] eqn:He.
  - apply by_key_Some in He as [Hin <-]; [|done].
    assert (Hk : by_key (merged_list now before current previous) !! Key e = Some (reconcile_entry now before (indexed before previous) e).2).
    { apply by_key_Some; [done|]. split; [|apply reconcile_entry_key]. unfold merged_list. apply elem_of_app. left.
      rewrite <- list_fmap_compose. apply list_elem_of_fmap. by exists e. }
    rewrite Hk. symmetry. unfold diag_None. rewrite <- (reconcile_entry_settled now before (indexed before previous) (by_key previous !! Key e) e).
    + by destruct (by_key previous !! Key e).
    + apply indexed_lookup.
  - apply by_key_None in He. destruct (by_key previous !! k) as [p|] eqn:Hpk; cbn [diag_None].
    + rewrite carry_entry_settled. apply by_key_Some in Hpk as [Hin <-]; [|done].
      apply by_key_Some; [done|]. rewrite carry_entry_key. split; [|done]. unfold merged_list. apply elem_of_app. right.
      apply list_elem_of_fmap_2, absent_elem; [done|]. split; [done|]. rewrite indexed_lookup, normalize_key.
      rewrite (proj2 (by_key_Some previous (Key p) p Hp) (conj Hin eq_refl)). done.
    + apply by_key_None. rewrite merged_keys, elem_of_app. intros [Hin|(p' & -> & Hin)%list_elem_of_fmap]; [done|].
      apply absent_elem in Hin as [_ Hin]; [|done]. rewrite indexed_lookup, Hpk in Hin. done.
Qed.

(** The change of each key of the current Vault. *)
Definition change_of (before : string) (previous : list VaultEntry) (e : VaultEntry) : change :=
  match indexed before previous !! Key e with
  | Some p => if vaultEntryEquivalent e p && negb (removed p) then unchanged else modified
  | None => added
  end.
Lemma reconcile_entry_change now before previous e : (reconcile_entry now before (indexed before previous) e).1 = change_of before previous e.
Proof.
  unfold reconcile_entry, change_of. cbn [Key normalizeVaultEntry]. destruct (indexed before previous !! Key e) as [p|]; [|done].
  change (vaultEntryEquivalent (normalizeVaultEntry e now) p) with (vaultEntryEquivalent e p). fold (removed p).
  destruct (_ && _); [done|]. by destruct (removed p).
Qed.
Lemma changed_keys_eq kind now before current previous :
  changed_keys kind (reconcile_entry now before (indexed before previous) <$> current) =
  Some (sort_strings (Key <$> filter (λ e, change_of before previous e = kind) current)).
Proof.
  unfold changed_keys. do 2 f_equal. induction current as [|e l IH]; [done|]. rewrite fmap_cons, !filter_cons, reconcile_entry_change.
  case_decide; [|done]. by rewrite !fmap_cons, IH, reconcile_entry_key.
Qed.
Definition merged_diff (before : string) (current previous : list VaultEntry) : VaultDiff :=
  let with_change kind := Some (sort_strings (Key <$> filter (λ e, change_of before previous e = kind) current)) in
  {| Added := with_change added; Modified := with_change modified; Unchanged := with_change unchanged;
     Removed := Some (sort_strings (Key <$> filter (λ p, Lifecycle p ≠ "removed") (absent_entries before current previous))) |}.
Lemma merge_entries_ok current previous r :
  merge_entries current previous = Ok r ↔
  keyed (items (Entries current)) ∧ keyed (items (Entries previous)) ∧
  let now := Revision (Manifest_Repository current) in let before := Revision (Manifest_Repository previous) in
  r = (sort_key Key (merged_list now before (items (Entries current)) (items (Entries previous))),
       merged_diff before (items (Entries current)) (items (Entries previous))).
Proof.
  unfold merge_entries. rewrite bind_Ok. setoid_rewrite bind_Ok. setoid_rewrite index_previous_ok. setoid_rewrite reconcile_entries_ok.
  set (c := items (Entries current)). set (p := items (Entries previous)).
  
  set (now := Revision (Manifest_Repository current)). set (before := Revision (Manifest_Repository previous)). split.
  - intros (? & (Hp & _ & ->) & ? & (Hc & _ & ->) & [= <-]). split; [done|]. split; [done|]. cbn zeta.
    rewrite (right_id_L ∅ (∪)). fold (indexed before p). rewrite !changed_keys_eq. done.
  - intros (Hc & Hp & ->). eexists. split; [split; [done|]; split; [by apply Forall_forall|done]|].
    eexists. split; [split; [done|]; split; [apply Forall_forall; set_solver|done]|]. rewrite (right_id_L ∅ (∪)). fold (indexed before p).
    by rewrite !changed_keys_eq.
Qed.
End Merge.

(** ** Well-formed Vaults *)

Record history_ok (h : VaultHistoryEntry) : Prop := {
  history_lifecycle : History_Lifecycle h = "deprecated" ∨ History_Lifecycle h = "removed";
  history_from : validSHA (History_ValidFromSHA h) = true;
  history_through : validSHA (History_ValidThroughSHA h) = true;
  history_transition : validSHA (TransitionSHA h) = true;
}.
Record entry_ok (e : VaultEntry) : Prop := {
  entry_key : blank_key e = false;
  entry_lifecycle : Lifecycle e = "active" ∨ Lifecycle e = "removed";
  entry_transition : validSHA (LifecycleSHA e) = true;
  entry_from : validSHA (ValidFromSHA e) = true;
  entry_through : validSHA (ValidThroughSHA e) = true;
  entry_history : Forall history_ok (items (History e));
  entry_bounded : (length (items (History e)) ≤ maxVaultHistoryPerEntry)%nat;
}.
Record vault_ok (m : Manifest) : Prop := {
  ok_schema : Manifest_SchemaVersion m = SchemaVersion;
  ok_scope : Scope m = "repository";
  ok_revision : validSHA (Revision (Manifest_Repository m)) = true;
  ok_entries : Forall entry_ok (items (Entries m));
  ok_keys : NoDup (Key <$> items (Entries m));
  ok_sorted : key_sorted Key (items (Entries m));
}.

Ltac entry_cbn :=
  cbn [Key Kind Lifecycle LifecycleSHA ValidFromSHA ValidThroughSHA Value Entry_Provenance History HistoryTruncated with_lifecycle with_history
       normalizeVaultEntry vaultHistorySnapshot History_Lifecycle History_Value History_Kind History_ValidFromSHA History_ValidThroughSHA TransitionSHA].

Lemma vault_ok_keyed m : vault_ok m → keyed (items (Entries m)).
Proof. intros [? ? ? He Hk _]. split; [|done]. eapply Forall_impl; [exact He|]. by intros e []. Qed.
Lemma validSHA_nonempty s : validSHA s = true → String.eqb s "" = false.
Proof. by destruct s. Qed.
Lemma normalize_ok e r : entry_ok e → normalizeVaultEntry e r = e.
Proof.
  intros [_ Hl H1 H2 H3 _ _]. unfold normalizeVaultEntry.
  rewrite (validSHA_nonempty _ H1), (validSHA_nonempty _ H2), (validSHA_nonempty _ H3).
  destruct e as [k ki l ls vf vt v p h t]. entry_cbn. cbn [Lifecycle] in Hl. by destruct Hl as [-> | ->].
Qed.
Lemma removed_false e : removed e = false ↔ Lifecycle e ≠ "removed".
Proof. unfold removed. apply String.eqb_neq. Qed.
Lemma replaced_ok p now before : entry_ok p → validSHA now = true → history_ok
  (vaultHistorySnapshot p (if removed p then "removed" else "deprecated") (if removed p then LifecycleSHA p else now) before).
Proof.
  intros [_ _ H1 H2 H3 _ _] Hn. split; entry_cbn.
  - destruct (removed p); [by right|by left].
  - done.
  - by rewrite (validSHA_nonempty _ H3).
  - by destruct (removed p).
Qed.
Lemma items_clone {A} (s : slice A) : items (clone s) = items s.
Proof. unfold clone. by destruct (items s). Qed.
Lemma settled_ok now before current prior e : validSHA now = true → validSHA before = true →
  (∀ c, current = Some c → entry_ok (normalizeVaultEntry c now)) → (∀ p, prior = Some p → entry_ok p) →
  settled now before current prior = Some e → entry_ok e.
Proof.
  intros Hn Hb Hc Hp. unfold settled. destruct prior as [p|]; cbn [fmap option_fmap option_map].
  - specialize (Hp p eq_refl). rewrite (normalize_ok p before Hp). pose proof Hp as [Hk Hl H1 H2 H3 Hh Hlen].
    destruct current as [c|].
    + specialize (Hc c eq_refl) as [Hck _ _ Hcf _ _ _]. destruct (vaultEntryEquivalent c p && negb (removed p)); intros [= <-].
      * split; entry_cbn; rewrite ?items_clone; auto.
      * split; entry_cbn; auto.
        -- cbn [items default from_option id]. apply Forall_drop, Forall_app. split; [done|]. apply Forall_singleton. by apply replaced_ok.
        -- cbn [items default from_option id]. rewrite length_last_items. lia.
    + destruct (removed p); intros [= <-]; [done|]. split; entry_cbn; auto.
  - destruct current as [c|]; [|done]. intros [= <-]. specialize (Hc c eq_refl) as [Hck _ _ Hcf _ Hch Hcl]. split; entry_cbn; auto.
Qed.

(** ** What a Vault remembers *)

(** The text two entries are compared by. *)
Definition fact_text (kind : string) (value : json) : string := Marshal (JObject [("kind", JString kind); ("value", value)]).
(** The fact is the value of the entry or in its history, or the history says that it is cut off. *)
Definition remembers (e : VaultEntry) (fact : string) : Prop :=
  HistoryTruncated e = true ∨ fact_text (Kind e) (Value e) = fact ∨
  ∃ h, h ∈ items (History e) ∧ fact_text (History_Kind h) (History_Value h) = fact.
Lemma equivalent_text a b : vaultEntryEquivalent a b = true ↔ fact_text (Kind a) (Value a) = fact_text (Kind b) (Value b).
Proof. apply String.eqb_eq. Qed.
Lemma settled_remembers now before current p e fact : settled now before current (Some p) = Some e → remembers p fact → remembers e fact.
Proof.
  unfold settled. cbn [fmap option_fmap option_map]. change (remembers p fact) with (remembers (normalizeVaultEntry p before) fact).
  generalize (normalizeVaultEntry p before) as q. intros q. destruct current as [c|]; [|destruct (removed q); by intros [= <-]].
  destruct (vaultEntryEquivalent c q && negb (removed q)) eqn:Heq; unfold remembers.
  - intros [= <-] Hr. entry_cbn. apply andb_true_iff in Heq as [Heq%equivalent_text _]. by rewrite items_clone, Heq.
  - clear Heq. cbn zeta. set (replaced := vaultHistorySnapshot q _ _ _). intros [= <-] Hr. entry_cbn. destruct Hr as [->|Hr]; [by left|].
    destruct (Nat.ltb_spec maxVaultHistoryPerEntry (length (items (History q) ++ [replaced]))) as [?|Hle]; [left; apply orb_true_r|].
    right; right. cbn [items default from_option id]. unfold last_items. rewrite (proj2 (Nat.sub_0_le _ _) Hle), drop_0.
    destruct Hr as [<-|(h & Hh & <-)].
    + exists replaced. split; [apply elem_of_app; right; by apply list_elem_of_singleton|done].
    + exists h. split; [apply elem_of_app; by left|done].
Qed.
Lemma settled_is_Some now before current p : is_Some (settled now before current (Some p)).
Proof. unfold settled. cbn [fmap option_fmap option_map]. destruct current; [destruct (_ && _)|]; eauto. Qed.

(** ** [Reconcile] *)

Section Chain.
Context {unicode : GoUnicode} {choice : GoChoice}.

Definition schemas_agree (proposal : Proposal) (previous : Manifest) : Prop :=
  Proposal_SchemaVersion proposal = SchemaVersion ∧ Manifest_SchemaVersion (Vault proposal) = SchemaVersion ∧
  Manifest_SchemaVersion previous = SchemaVersion ∧ Scope (Vault proposal) = "repository" ∧ Scope previous = "repository".
Definition checkpoints_agree (current previous : Repository) : Prop :=
  Reference current = Reference previous ∧ validSHA (Revision current) = true ∧ validSHA (Revision previous) = true.
Definition reconciled_vault (current previous : Manifest) : Manifest :=
  let result := sort_key Key (merged_list (Revision (Manifest_Repository current)) (Revision (Manifest_Repository previous)) (items (Entries current))
                                (items (Entries previous))) in
  {| Manifest_SchemaVersion := Manifest_SchemaVersion current; Scope := Scope current; Manifest_Repository := Manifest_Repository current;
     Entries := Some result; Manifest_HistoryTruncated := existsb HistoryTruncated result || Manifest_HistoryTruncated current |}.

Lemma Reconcile_ok proposal previous proposal' :
  let current := Vault proposal in
  let now := Revision (Manifest_Repository current) in let before := Revision (Manifest_Repository previous) in
  Reconcile proposal previous = Ok proposal' ↔
  schemas_agree proposal previous ∧ checkpoints_agree (Manifest_Repository current) (Manifest_Repository previous) ∧
  if decide (now = before) then proposal' = with_vault proposal previous before (ManifestSHA256 previous) no_changes
  else keyed (items (Entries current)) ∧ keyed (items (Entries previous)) ∧
       proposal' = with_vault proposal (reconciled_vault current previous) before (ManifestSHA256 previous)
                     (merged_diff before (items (Entries current)) (items (Entries previous))).
Proof.
  cbn zeta. unfold Reconcile. rewrite bind_Ok. setoid_rewrite bind_Ok. setoid_rewrite fail_if_ok.
  assert (Hs : negb (Proposal_SchemaVersion proposal =? SchemaVersion)%Z || negb (Manifest_SchemaVersion (Vault proposal) =? SchemaVersion)%Z ||
    negb (Manifest_SchemaVersion previous =? SchemaVersion)%Z || negb (Scope (Vault proposal) =? "repository") || negb (Scope previous =? "repository") = false
    ↔ schemas_agree proposal previous).
  { rewrite !orb_false_iff, !negb_false_iff, !Z.eqb_eq, !String.eqb_eq. unfold schemas_agree. tauto. }
  assert (Hc : negb (Reference (Manifest_Repository (Vault proposal)) =? Reference (Manifest_Repository previous)) ||
    negb (validSHA (Revision (Manifest_Repository (Vault proposal)))) || negb (validSHA (Revision (Manifest_Repository previous))) = false
    ↔ checkpoints_agree (Manifest_Repository (Vault proposal)) (Manifest_Repository previous)).
  { rewrite !orb_false_iff, !negb_false_iff, String.eqb_eq. unfold checkpoints_agree. tauto. }
  setoid_rewrite Hs. setoid_rewrite Hc. clear Hs Hc.
  destruct (String.eqb_spec (Revision (Manifest_Repository (Vault proposal))) (Revision (Manifest_Repository previous))) as [Heq|Hne].
  - rewrite decide_True by done. split; [by intros (_ & ? & _ & ? & [= <-])|intros (? & ? & ->)]. by exists tt; split; [|exists tt].
  - rewrite decide_False by done. split.
    + intros (_ & ? & _ & ? & ([result diff] & (Hk & Hp & [= -> ->])%merge_entries_ok & [= <-])%bind_Ok). done.
    + intros (? & ? & Hk & Hp & ->). exists tt. split; [done|]. exists tt. split; [done|]. apply bind_Ok. eexists.
      split; [by apply merge_entries_ok|done].
Qed.

Lemma sorted_merge now before c p : NoDup (Key <$> c) → NoDup (Key <$> p) →
  let result := sort_key Key (merged_list now before c p) in
  key_sorted Key result ∧ NoDup (Key <$> result) ∧ by_key result = merge (settled now before) (by_key c) (by_key p).
Proof.
  intros Hc Hp. cbn zeta. pose proof (merged_NoDup now before c p Hc Hp) as Hnd. split; [apply sort_key_sorted|]. split.
  - by rewrite (sort_key_perm Key).
  - rewrite <- merged_by_key by done. symmetry. apply by_key_perm; [done|]. symmetry. apply sort_key_perm.
Qed.
Lemma reconciled_ok current previous : vault_ok current → vault_ok previous → vault_ok (reconciled_vault current previous).
Proof.
  intros Hc Hp. destruct (sorted_merge (Revision (Manifest_Repository current)) (Revision (Manifest_Repository previous)) _ _ (ok_keys _ Hc) (ok_keys _ Hp))
    as (Hs & Hnd & Hm). split; try apply Hc; [|exact Hnd|exact Hs].
  cbn [Entries reconciled_vault items default from_option id]. apply Forall_forall. intros e Hin.
  pose proof (proj2 (by_key_Some _ (Key e) e Hnd) (conj Hin eq_refl)) as Hk. rewrite Hm, lookup_merge in Hk.
  pose proof (ok_entries _ Hc) as Hce. pose proof (ok_entries _ Hp) as Hpe. rewrite Forall_forall in Hce, Hpe.
  assert (Hl : ∀ m x, vault_ok m → by_key (items (Entries m)) !! Key e = Some x → x ∈ items (Entries m)).
  { intros m x Hm' Hx. by apply by_key_Some in Hx as [? _]; [|apply Hm']. }
  eapply settled_ok; [apply (ok_revision _ Hc)|apply (ok_revision _ Hp)| | |].
  - intros c Hcc. rewrite normalize_ok; apply Hce; by apply (Hl current).
  - intros p Hpp. apply Hpe. by apply (Hl previous).
  - unfold diag_None in Hk. destruct (by_key (items (Entries current)) !! Key e) eqn:?, (by_key (items (Entries previous)) !! Key e) eqn:?; try done; exact Hk.
Qed.
(** A fact of the previous Vault is remembered by the next. *)
Lemma reconciled_remembers current previous k p fact : NoDup (Key <$> items (Entries current)) → NoDup (Key <$> items (Entries previous)) →
  by_key (items (Entries previous)) !! k = Some p → remembers p fact →
  ∃ e, by_key (items (Entries (reconciled_vault current previous))) !! k = Some e ∧ remembers e fact.
Proof.
  intros Hc Hp Hk Hr. destruct (sorted_merge (Revision (Manifest_Repository current)) (Revision (Manifest_Repository previous)) _ _ Hc Hp) as (_ & _ & Hm).
  cbn [Entries reconciled_vault items default from_option id]. rewrite Hm, lookup_merge, Hk.
  destruct (settled_is_Some (Revision (Manifest_Repository current)) (Revision (Manifest_Repository previous))
    (by_key (items (Entries current)) !! k) p) as [e He].
  exists e. split; [|by eapply settled_remembers]. by destruct (by_key (items (Entries current)) !! k).
Qed.
End Chain.
