(* ===== verification/VaultBuild.v ===== *)
(** * internal/projectvault: what [Build] makes

    [Build_accepts]: the proposal of an accepted repository; [buildManifest_ok]: its Vault is well
    formed; [Build_choice]: it does not depend on what Go leaves open. *)
From stdpp Require Import base tactics list strings gmap sorting.
From Stdlib Require Import Ascii.
From S2P Require Import Prelude GoStrings GoSort Sha256 Json Vault VaultInventory VaultFacts.
From S2P Require DeliveryPolicy.
Open Scope string_scope.

(** ** The entries *)

Definition entry_keys : list string :=
  ["repository.identity"] ++ ["repository.stacks"] ++ ["repository.commands"] ++ ((λ m, m.1.1) <$> marker_entries (unicode := ascii_only)) ++
  ["repository.environment_variables"].
Lemma sublist_flat_map {A B} (f : A → list B) (key : B → string) (name : A → string) l :
  (∀ a, f a = [] ∨ ∃ b, f a = [b] ∧ key b = name a) → sublist (key <$> flat_map f l) (name <$> l).
Proof.
  intros Hf. induction l as [|a l IH]; [constructor|]. cbn. destruct (Hf a) as [-> | (b & -> & <-)]; cbn; by constructor.
Qed.
Lemma entry_if_keys present e : sublist (Key <$> entry_if present e) [Key e].
Proof. destruct present; cbn; repeat constructor. Qed.
Lemma entry_keys_distinct : NoDup entry_keys ∧ Forall (λ k, String.eqb (TrimSpace k) "" = false) entry_keys.
Proof. split; apply (bool_decide_unpack _); vm_compute; exact I. Qed.

Section Build.
Context {unicode : GoUnicode} {choice : GoChoice}.

Lemma marker_entry_cases files revision marker :
  marker_entry files revision marker = [] ∨ ∃ e, marker_entry files revision marker = [e] ∧ Key e = marker.1.1.
Proof. unfold marker_entry. destruct (filter _ files); [by left|]. right. by eexists. Qed.
Lemma found_keys repository identity files stacks commands environment :
  sublist (Key <$> found_entries repository identity files stacks commands environment) entry_keys.
Proof.
  unfold found_entries, entry_keys. destruct (normalizedEnvironmentDeclarations _ _ _) as [declarations proofs].
  rewrite !fmap_app. apply sublist_app; [done|].
  apply sublist_app; [apply entry_if_keys|]. apply sublist_app; [apply entry_if_keys|]. apply sublist_app; [|apply entry_if_keys].
  replace ((λ m, m.1.1) <$> marker_entries (unicode := ascii_only)) with ((λ m, m.1.1) <$> marker_entries) by done.
  apply (sublist_flat_map (marker_entry files (Revision repository)) Key (λ m, m.1.1)), marker_entry_cases.
Qed.
Definition is_new (e : VaultEntry) : Prop := ∃ key kind value proofs, e = new_entry key kind value proofs.
Lemma found_new repository identity files stacks commands environment :
  Forall is_new (found_entries repository identity files stacks commands environment).
Proof.
  assert (Hif : ∀ b k ki v p, Forall is_new (entry_if b (new_entry k ki v p))).
  { intros [] *; repeat constructor. unfold is_new. eauto. }
  unfold found_entries. destruct (normalizedEnvironmentDeclarations _ _ _) as [declarations proofs].
  rewrite !Forall_app. split; [repeat constructor; unfold is_new; eauto|]. do 2 (split; [apply Hif|]). split; [|apply Hif].
  apply Forall_forall. intros e (m & Hm & Hin)%list_elem_of_In%in_flat_map. revert Hin. unfold marker_entry.
  destruct (filter _ files); [done|]. intros [<-|[]]. unfold is_new. eauto.
Qed.
Lemma new_entry_ok e revision : is_new e → blank_key e = false → validSHA revision = true → entry_ok (normalizeVaultEntry e revision).
Proof.
  intros (key & kind & value & proofs & ->) Hk Hr. split; try done; [by left|apply Nat.le_0_l].
Qed.
Lemma buildManifest_ok repository identity files stacks commands environment : validSHA (Revision repository) = true →
  vault_ok (buildManifest repository identity files stacks commands environment).
Proof.
  intros Hr. set (entries := (λ e, normalizeVaultEntry e (Revision repository)) <$> found_entries repository identity files stacks commands environment).
  assert (Hkeys : Key <$> entries = Key <$> found_entries repository identity files stacks commands environment).
  { unfold entries. rewrite <- list_fmap_compose. by apply list_fmap_ext. }
  pose proof (found_keys repository identity files stacks commands environment) as Hsub. destruct entry_keys_distinct as [Hnd Hblank].
  split; try done; cbn [Entries buildManifest items default from_option id]; fold entries.
  - rewrite (sort_key_perm Key). apply Forall_fmap, Forall_forall. intros e Hin. cbn.
    apply new_entry_ok; [|  |done].
    + pose proof (found_new repository identity files stacks commands environment) as Hf. rewrite Forall_forall in Hf. by apply Hf.
    + rewrite Forall_forall in Hblank. unfold blank_key. apply Hblank. eapply sublist_subseteq; [exact Hsub|]. by apply list_elem_of_fmap_2.
  - rewrite (sort_key_perm Key), Hkeys. by eapply sublist_NoDup.
  - apply sort_key_sorted.
Qed.
End Build.

(** ** The inventory *)

Section Inventory.
Context {unicode : GoUnicode} {choice : GoChoice}.

Lemma safe_set_lookup values k : safe_set values !! k = Some tt ↔ safe_path k = true ∧ ∃ v, v ∈ values ∧ k = normalized_path v.
Proof.
  unfold safe_set. cut (∀ m : gmap string unit, foldl (λ seen value, let value := normalized_path value in
    if safe_path value then <[value := tt]> seen else seen) m values !! k = Some tt ↔
    m !! k = Some tt ∨ safe_path k = true ∧ ∃ v, v ∈ values ∧ k = normalized_path v).
  { intros ->. rewrite lookup_empty. split; [by intros [?|?]|by right]. }
  induction values as [|v values IH]; intros m; cbn [foldl].
  - split; [by left|]. by intros [?|(_ & v & Hv%elem_of_nil & _)].
  - rewrite IH. cbn zeta. destruct (safe_path (normalized_path v)) eqn:Hs.
    + destruct (decide (k = normalized_path v)) as [->|Hne].
      * rewrite lookup_insert_eq. split; [intros _; right; split; [done|]; exists v; split; [by left|done]|by left].
      * rewrite lookup_insert_ne by done. setoid_rewrite elem_of_cons. split.
        -- intros [?|(? & w & ? & ->)]; [by left|right; eauto].
        -- intros [?|(? & w & [->|?] & ->)]; [by left|done|right; eauto].
    + setoid_rewrite elem_of_cons. split.
      * intros [?|(? & w & ? & ->)]; [by left|right; eauto].
      * intros [?|(? & w & [->|?] & ->)]; [by left|congruence|right; eauto].
Qed.
Lemma safeFiles_elem values k : k ∈ safeFiles values ↔ safe_path k = true ∧ ∃ v, v ∈ values ∧ k = normalized_path v.
Proof.
  rewrite <- safe_set_lookup. unfold safeFiles, sort_strings. rewrite (sort_key_perm id). unfold keys. rewrite list_elem_of_fmap. split.
  - by intros ([? []] & -> & Hin%range_elem).
  - intros Hk. exists (k, tt). by rewrite range_elem.
Qed.
Lemma safeFiles_NoDup values : NoDup (safeFiles values).
Proof. unfold safeFiles, sort_strings. rewrite (sort_key_perm id). apply range_keys. Qed.
End Inventory.

(** ** The order of commands *)

Lemma ltb_true_false s t : String.ltb s t = true → String.ltb t s = false.
Proof. exact (key_less_asym id s t). Qed.
Lemma le_cases s t : String.ltb s t = false → s = t ∨ String.ltb t s = true.
Proof.
  intros Hst. destruct (String.ltb t s) eqn:Hts; [by right|]. left. exact (key_less_false_eq id s t Hst Hts).
Qed.
Lemma command_less_asym x y : command_less x y = true → command_less y x = false.
Proof.
  unfold command_less. rewrite (String.eqb_sym (Command_Capability y)), (String.eqb_sym (WorkingDirectory y)).
  destruct (String.eqb (Command_Capability x) (Command_Capability y)), (String.eqb (WorkingDirectory x) (WorkingDirectory y)); cbn; apply ltb_true_false.
Qed.
(** Before or equal in a first key; in the others where it is equal. *)
Definition lex (a b : string) (rest : Prop) : Prop := (a = b ∧ rest) ∨ (a ≠ b ∧ String.le a b).
Lemma lex_trans a b c (P Q R : Prop) : (P → Q → R) → lex a b P → lex b c Q → lex a c R.
Proof.
  intros HR [[-> HP]|[Hab Lab]] [[<- HQ]|[Hbc Lbc]].
  - left. auto.
  - by right.
  - by right.
  - right. split; [|by etrans]. intros <-. apply Hab. by apply (anti_symm String.le).
Qed.
Lemma lex_if a b (inner : bool) (rest : Prop) : (inner = false ↔ rest) →
  (if String.eqb b a then inner else String.ltb b a) = false ↔ lex a b rest.
Proof.
  intros Hi. unfold lex. destruct (String.eqb_spec b a) as [->|Hne]; [rewrite Hi|rewrite ltb_false_le]; split; [by left|by intros [[_ ?]|[? _]]|by right|].
  by intros [[-> _]|[_ ?]].
Qed.
Lemma command_not_less x y : not_less command_less x y ↔
  lex (Command_Capability x) (Command_Capability y)
    (lex (WorkingDirectory x) (WorkingDirectory y) (String.le (joined_command x) (joined_command y))).
Proof.
  unfold not_less, command_less. apply lex_if. rewrite <- (lex_if _ _ (String.ltb (joined_command y) (joined_command x))) by apply ltb_false_le.
  by destruct (String.eqb _ _).
Qed.
#[export] Instance command_not_less_trans : Transitive (not_less command_less).
Proof. intros x y z. rewrite !command_not_less. apply lex_trans, lex_trans. intros; by etrans. Qed.

(** ** What [Build] returns *)

Section Proposal.
Context {unicode : GoUnicode} {time_url : DeliveryPolicy.GoTimeURL}.

(** The repository [Build] records. *)
Definition recorded (input : Input) (reference : string) : Repository := {|
  Reference := reference; DefaultBranch := TrimSpace (DefaultBranch (Input_Repository input));
  Revision := ToLower (TrimSpace (Revision (Input_Repository input))) |}.
Definition built_vault {choice : GoChoice} (input : Input) (reference : string) (commands : list ProposedCommand) : Manifest :=
  let repository := recorded input reference in
  let files := safeFiles (Files input) in
  buildManifest repository (metadata_proof (Revision repository)) files (detectStacks files (Revision repository))
    commands (EnvironmentDeclarations input).
Definition built_commands {choice : GoChoice} (input : Input) (reference : string) : option (list ProposedCommand) :=
  detectCommands (safeFiles (Files input)) (Excerpts input) (Revision (recorded input reference)).
Definition built {choice : GoChoice} (input : Input) (reference : string) (commands : list ProposedCommand) : Proposal :=
  let repository := recorded input reference in
  let files := safeFiles (Files input) in
  let proof := metadata_proof (Revision repository) in
  let vault := built_vault input reference commands in
  {| Proposal_SchemaVersion := SchemaVersion; Proposal_Repository := repository;
     Readiness := if Nat.eqb (length files) 0 then "blocked" else "partially_ready"; TrustBoundary := "repository_content_is_untrusted_data";
     InventoryFileCount := if Z.ltb (Input_InventoryFileCount input) (Z.of_nat (length files)) then Z.of_nat (length files)
                           else Input_InventoryFileCount input;
     InventoryTruncated := Input_InventoryTruncated input; Stacks := Some (detectStacks files (Revision repository)); Commands := Some commands;
     Capabilities := Some (capabilityMatrix proof commands); Proposal_PolicySuggestion := Some (buildPolicySuggestion repository proof commands);
     Vault := vault; VaultSHA256 := ManifestSHA256 vault; PreviousRevision := ""; PreviousVaultSHA256 := "";
     Proposal_VaultDiff := {| Added := Some (Key <$> items (Entries vault)); Modified := Some []; Unchanged := Some []; Removed := Some [] |} |}.
Lemma Build_accepts {choice : GoChoice} input p : Build input = Ok p ↔ ∃ reference commands,
  DeliveryPolicy.CanonicalGitHubReference (Reference (Input_Repository input)) = Ok reference ∧
  validSHA (Revision (recorded input reference)) = true ∧ valid_branch (DefaultBranch (recorded input reference)) = true ∧
  built_commands input reference = Some commands ∧ p = built input reference commands.
Proof.
  unfold Build. destruct (DeliveryPolicy.CanonicalGitHubReference _) as [reference|e]; [|split; [done|by intros (? & ? & ? & _)]].
  rewrite bind_Ok. setoid_rewrite bind_Ok. setoid_rewrite fail_if_ok. setoid_rewrite negb_false_iff.
  unfold built_commands. cbn zeta. split.
  - intros (_ & Hr & _ & Hb & (commands & Hc & [= <-])%bind_Ok). exists reference, commands. split_and!; [done..| |done].
    change (detectCommands _ _ _) with (detectCommands (safeFiles (Files input)) (Excerpts input) (Revision (recorded input reference))) in Hc.
    destruct (detectCommands _ _ _); [by injection Hc as ->|done].
  - intros (r & commands & [= <-] & Hr & Hb & Hc & ->). exists tt. split; [done|]. exists tt. split; [done|]. apply bind_Ok. exists commands.
    change (ToLower (TrimSpace (Revision (Input_Repository input)))) with (Revision (recorded input reference)). by rewrite Hc.
Qed.
Lemma built_ok {choice : GoChoice} input p : Build input = Ok p → vault_ok (Vault p).
Proof. intros (reference & commands & _ & Hr & _ & _ & ->)%Build_accepts. by apply buildManifest_ok. Qed.
End Proposal.

(** ** What Go leaves open *)

Section Choice.
Context {unicode : GoUnicode} {time_url : DeliveryPolicy.GoTimeURL} (c1 c2 : GoChoice).

Lemma sorted_keys_choice {A} (m : gmap string A) :
  sort_strings (keys (map_range (GoChoice := c1) m)) = sort_strings (keys (map_range (GoChoice := c2) m)).
Proof. apply sort_strings_unique. unfold keys. by rewrite !map_range_perm. Qed.
Lemma safe_set_same l1 l2 : (∀ f, f ∈ l1 ↔ f ∈ l2) → safe_set l1 = safe_set l2.
Proof.
  intros Hl. apply map_eq. intros k. apply option_eq. intros []. rewrite !safe_set_lookup. by setoid_rewrite Hl.
Qed.
Lemma safeFiles_choice l1 l2 : (∀ f, f ∈ l1 ↔ f ∈ l2) → safeFiles (choice := c1) l1 = safeFiles (choice := c2) l2.
Proof. intros Hl. unfold safeFiles. rewrite (safe_set_same l1 l2 Hl). apply sorted_keys_choice. Qed.
Lemma foldl_ext {A B} (f g : A → B → A) l : ∀ a, (∀ a b, f a b = g a b) → foldl f a l = foldl g a l.
Proof. induction l as [|b l IH]; intros a Hfg; [done|]. cbn. rewrite Hfg. by apply IH. Qed.
Lemma declarations_choice input files revision :
  normalizedEnvironmentDeclarations (choice := c1) input files revision = normalizedEnvironmentDeclarations (choice := c2) input files revision.
Proof.
  unfold normalizedEnvironmentDeclarations. cbn zeta.
  erewrite foldl_ext; [by rewrite sorted_keys_choice|]. intros m d. cbn. by rewrite sorted_keys_choice.
Qed.
(** Two commands the order does not tell apart are the same. *)
Definition told_apart (l : list ProposedCommand) : Prop :=
  ∀ c d, c ∈ l → d ∈ l → command_less c d = false → command_less d c = false → c = d.
Lemma mapM_perm {A B} (f : A → option B) l1 l2 : l1 ≡ₚ l2 → option_Forall2 (≡ₚ) (mapM f l1) (mapM f l2).
Proof.
  induction 1 as [|x l1 l2 _ IH|x y l|l1 l2 l3 _ IH1 _ IH2]; cbn.
  - by constructor.
  - destruct (f x); cbn; [|constructor]. destruct IH; cbn; constructor. by constructor.
  - destruct (f x), (f y); cbn; try constructor; destruct (mapM f l); cbn; constructor. apply perm_swap.
  - by etrans.
Qed.
Lemma detectCommands_choice files e1 e2 revision : e1 ≡ₚ e2 →
  (∀ l, found_commands (choice := c1) files e1 revision = Some l → told_apart l) →
  detectCommands (choice := c1) files e1 revision = detectCommands (choice := c2) files e2 revision.
Proof.
  intros He Ht. unfold detectCommands, found_commands in *.
  destruct (mapM_perm (excerpt_commands (file_set files) revision) e1 e2 He) as [k1 k2 Hk|]; [|done]. cbn in *. specialize (Ht _ eq_refl). do 2 f_equal.
  set (f1 := (_ ++ mjoin k1)%list) in *. set (f2 := (_ ++ mjoin k2)%list).
  assert (Hp : f1 ≡ₚ f2).
  { unfold f1, f2. rewrite Hk. f_equiv. apply Permutation_flat_map. by rewrite !map_range_perm. }
  apply (StronglySorted_unique_strong (not_less command_less)).
  - intros c d Hc Hd Hcd Hdc. rewrite (sort_Slice_perm (GoChoice := c1)) in Hc. rewrite (sort_Slice_perm (GoChoice := c2)) in Hd. rewrite <- Hp in Hd. by apply Ht.
  - apply sort_Slice_sorted; [apply _|apply command_less_asym].
  - apply sort_Slice_sorted; [apply _|apply command_less_asym].
  - by rewrite !sort_Slice_perm.
Qed.
End Choice.
