(* ===== verification/VaultSealed.v ===== *)
(** * internal/projectvault: what probes change, and the proposals the code makes

    [apply_probes_ok]: the loop of [ApplyCapabilityProbes] replaces the capabilities that the
    probes name, and nothing else.  [made]: a proposal that [Build], [Reconcile] or
    [ApplyCapabilityProbes] returns; [proposal_ok]: what holds of each. *)
From stdpp Require Import base tactics list strings gmap sorting.
From S2P Require Import Prelude GoStrings GoSort Sha256 Json Vault VaultInventory VaultFacts VaultBuild.
From S2P Require DeliveryPolicy.
Open Scope string_scope.

Section Probes.
Context {unicode : GoUnicode}.

(** A probe, trimmed, that is evidence about [repository]: its digest is that of what it claims. *)
Record attests (repository : Repository) (probe : CapabilityProbe) : Prop := {
  probe_not_authority : Probe_Name probe ≠ "source" ∧ Probe_Name probe ≠ "vault";
  probe_state : Probe_State probe = "ready" ∨ Probe_State probe = "blocked";
  probe_revision : EqualFold (Probe_Revision probe) (Revision repository) = true;
  probe_role : ExecutorRole probe ∈ ["qa"; "release"; "orchestrator"];
  probe_reason : Probe_Reason probe ≠ "" ∧ (String.length (Probe_Reason probe) ≤ 500)%nat;
  probe_subject : ∃ subject, CapabilityProbeSubjectSHA256 repository probe = Ok subject ∧ EqualFold subject (SubjectSHA256 probe) = true;
}.

Lemma existsb_elem (s : string) l : existsb (String.eqb s) l = true ↔ s ∈ l.
Proof.
  induction l as [|x l IH]; cbn; [split; [done|by intros ?%elem_of_nil]|]. rewrite orb_true_iff, IH, String.eqb_eq, elem_of_cons. done.
Qed.
Lemma check_probe_ok repository names seen probe i capability : check_probe repository names seen probe = Ok (i, capability) ↔
  attests repository probe ∧ validDigest (EvidenceSHA256 probe) = true ∧ names !! Probe_Name probe = Some i ∧ Probe_Name probe ∉ seen ∧
  capability = capability_of (Revision repository) probe.
Proof.
  unfold check_probe. rewrite !fail_if_bind, !orb_false_iff, !negb_false_iff, !String.eqb_neq, Nat.ltb_ge, existsb_elem.
  unfold ready_or_blocked. rewrite orb_true_iff, !String.eqb_eq.
  destruct (names !! Probe_Name probe) as [j|].
  2: { split; [by intros (_ & _ & ?)|by intros (_ & _ & ? & _)]. }
  rewrite fail_if_bind, bool_decide_eq_false. destruct (CapabilityProbeSubjectSHA256 repository probe) as [subject|e] eqn:Hs.
  2: { split; [by intros (_ & _ & _ & ?)|]. intros ([_ _ _ _ _ (? & Hs' & _)] & _). congruence. }
  rewrite fail_if_bind, negb_false_iff. split.
  - intros (((((((Hn1 & Hn2) & Hst) & Hr) & Hd) & Hre) & Hl) & Hro & Hse & Hsu & [= <- <-]).
    split; [split; eauto|]. done.
  - intros ([[Hn1 Hn2] Hst Hr Hro [Hre Hl] (s & Hs' & Hsu)] & Hd & [= ->] & Hse & ->).
    replace s with subject in Hsu by congruence. done.
Qed.

Lemma byName_spec capabilities n i : byName capabilities !! n = Some i → ∃ c, capabilities !! i = Some c ∧ Name c = n.
Proof.
  unfold byName. assert (Hin : ∀ x, x ∈ imap pair capabilities → capabilities !! x.1 = Some x.2).
  { intros [j c] Hj. apply list_elem_of_lookup in Hj as (k & Hk). rewrite list_lookup_imap in Hk. apply fmap_Some in Hk as (? & ? & [= -> ->]). done. }
  cut (∀ (m : gmap string nat), (∀ i, m !! n = Some i → ∃ c, capabilities !! i = Some c ∧ Name c = n) →
    foldl (λ m ic, <[Name ic.2 := ic.1]> m) m (imap pair capabilities) !! n = Some i → ∃ c, capabilities !! i = Some c ∧ Name c = n).
  { intros Hc. apply (Hc ∅). by intros j; rewrite lookup_empty. }
  induction (imap pair capabilities) as [|[j c] l IH]; intros m Hm; cbn; [apply Hm|].
  apply IH; [intros x Hx; apply Hin; by right|]. intros k. destruct (decide (Name c = n)) as [<-|Hne].
  - rewrite lookup_insert_eq. intros [= <-]. exists c. split; [|done]. apply (Hin (j, c)). by left.
  - rewrite lookup_insert_ne by done. apply Hm.
Qed.

(** [names] finds the capabilities of [capabilities] by their names. *)
Definition names_of (names : gmap string nat) (capabilities : list Capability) : Prop :=
  ∀ n i, names !! n = Some i → ∃ c, capabilities !! i = Some c ∧ Name c = n.
Lemma names_of_insert names capabilities probe i revision : names_of names capabilities → names !! Probe_Name probe = Some i →
  let after := <[i := capability_of revision probe]> capabilities in
  names_of names after ∧ Name <$> after = Name <$> capabilities ∧ after !! i = Some (capability_of revision probe).
Proof.
  intros Hn Hi. destruct (Hn _ _ Hi) as (c & Hc & Hname). cbn zeta.
  assert (Hlt : (i < length capabilities)%nat) by (by apply lookup_lt_Some in Hc).
  assert (Hnames : Name <$> <[i := capability_of revision probe]> capabilities = Name <$> capabilities).
  { rewrite list_fmap_insert. apply list_insert_id. rewrite list_lookup_fmap, Hc. cbn. by rewrite Hname. }
  split; [|split; [done|by apply list_lookup_insert_eq]].
  intros n j Hj. destruct (Hn n j Hj) as (d & Hd & Hdn).
  assert (Hm : (Name <$> <[i := capability_of revision probe]> capabilities) !! j = Some n) by (by rewrite Hnames, list_lookup_fmap, Hd; cbn; rewrite Hdn).
  rewrite list_lookup_fmap in Hm. apply fmap_Some in Hm as (x & Hx & ->). by exists x.
Qed.
Lemma apply_probes_ok repository names probes : ∀ seen capabilities after, names_of names capabilities →
  apply_probes repository names seen probes capabilities = (Ok tt, after) →
  Name <$> after = Name <$> capabilities ∧
  (∀ probe, probe ∈ trimmed_probe <$> probes → attests repository probe ∧ Probe_Name probe ∉ seen ∧
     ∃ i, names !! Probe_Name probe = Some i ∧ after !! i = Some (capability_of (Revision repository) probe)) ∧
  (∀ i c, after !! i = Some c → capabilities !! i = Some c ∨ ∃ probe, probe ∈ trimmed_probe <$> probes ∧ c = capability_of (Revision repository) probe) ∧
  (∀ i, (∀ probe, probe ∈ trimmed_probe <$> probes → names !! Probe_Name probe ≠ Some i) → after !! i = capabilities !! i).
Proof.
  induction probes as [|probe probes IH]; intros seen capabilities after Hn; cbn [apply_probes].
  - intros [= <-]. split; [done|]. split; [intros ? ?%elem_of_nil; done|]. split; [by left|done].
  - destruct (check_probe _ _ _ _) as [[i capability]|e] eqn:Hc; [|done]. apply check_probe_ok in Hc as (Ha & _ & Hi & Hs & ->).
    destruct (names_of_insert names capabilities (trimmed_probe probe) i (Revision repository) Hn Hi) as (Hn' & Hnames & Hat).
    intros Happ. destruct (IH _ _ _ Hn' Happ) as (H1 & H2 & H3 & H4). rewrite Hnames in H1. split; [done|].
    rewrite fmap_cons. setoid_rewrite elem_of_cons. split; [|split].
    + intros p [->|Hp].
      * split; [done|]. split; [done|]. exists i. split; [done|]. rewrite H4; [done|]. intros q Hq Hqi.
        destruct (H2 q Hq) as (_ & Hqs & _). destruct (Hn _ _ Hi) as (c & Hci & Hcn). destruct (Hn _ _ Hqi) as (c' & Hci' & Hcn').
        apply Hqs. replace (Probe_Name q) with (Probe_Name (trimmed_probe probe)) by congruence. set_solver.
      * destruct (H2 p Hp) as (? & Hps & ?). split; [done|]. split; [set_solver|done].
    + intros j c Hj. destruct (H3 j c Hj) as [Hold|(p & Hp & ->)]; [|right; eauto].
      destruct (decide (i = j)) as [<-|Hne]; [rewrite Hat in Hold; injection Hold as <-; right; eauto|].
      rewrite list_lookup_insert_ne in Hold by done. by left.
    + intros j Hj. rewrite H4; [|intros p Hp; apply Hj; by right]. apply list_lookup_insert_ne. intros ->. by apply (Hj (trimmed_probe probe)); [left|].
Qed.
End Probes.

(** ** Proposals *)

Section Made.
Context {unicode : GoUnicode} {time_url : DeliveryPolicy.GoTimeURL} {choice : GoChoice}.

Inductive made : Proposal → Prop :=
| made_built input p : Build input = Ok p → made p
| made_reconciled p q p' : made p → made q → Reconcile p (Vault q) = Ok p' → made p'
| made_probed p probes p' array : made p → ApplyCapabilityProbes p probes = (Ok p', array) → made p'.

(** A capability that static onboarding or a probe established. *)
Inductive capability_established (repository : Repository) (c : Capability) : Prop :=
| established_statically : State c ∈ ["proposed"; "unknown"] → capability_established repository c
| established_source : Name c = "source" → State c = "ready" → capability_established repository c
| established_by_probe probe : attests repository probe → c = capability_of (Revision repository) probe → capability_established repository c.

Record proposal_ok (p : Proposal) : Prop := {
  proposal_schema : Proposal_SchemaVersion p = SchemaVersion;
  proposal_vault : vault_ok (Vault p);
  proposal_digest : VaultSHA256 p = ManifestSHA256 (Vault p);
  proposal_revision : validSHA (Revision (Proposal_Repository p)) = true;
  proposal_policy : Proposal_PolicySuggestion p =
    Some (buildPolicySuggestion (Proposal_Repository p) (metadata_proof (Revision (Proposal_Repository p))) (items (Commands p)));
  proposal_commands : Forall (λ c, Status c = "proposed_not_executed") (items (Commands p)) ∧ (length (items (Commands p)) ≤ 64)%nat;
  proposal_names : Name <$> items (Capabilities p) = capability_names;
  proposal_capabilities : Forall (capability_established (Proposal_Repository p)) (items (Capabilities p));
}.

(** ** Commands and capabilities *)

Lemma propose_status scripts manager path revision candidates : ∀ proposed,
  Forall (λ c, Status c = "proposed_not_executed") (propose_scripts scripts manager path revision proposed candidates).
Proof.
  induction candidates as [|[name capability] l IH]; intros proposed; cbn [propose_scripts]; [constructor|].
  destruct (_ && _); [constructor; [done|]|]; apply IH.
Qed.
Lemma detectCommands_status files excerpts revision commands : detectCommands files excerpts revision = Some commands →
  Forall (λ c, Status c = "proposed_not_executed") commands ∧ (length commands ≤ 64)%nat.
Proof.
  intros (found & (proposed & Hp & [= <-])%bind_Some & [= <-])%bind_Some. split; [|rewrite length_take; lia]. apply Forall_take. rewrite sort_Slice_perm.
  apply mapM_Some in Hp. apply Forall_app. split; [apply Forall_flat_map, Forall_forall; intros x _|].
  - unfold file_commands. destruct (String.eqb _ "go.mod"); [by repeat constructor|]. destruct (String.eqb _ _); by repeat constructor.
  - induction Hp as [|excerpt l excerpts proposed Hl _ IH]; cbn; [constructor|]. apply Forall_app. split; [|done]. unfold excerpt_commands in Hl.
    destruct (_ || _); [by injection Hl as <-|]. destruct (Scripts _); [|by injection Hl as <-]. apply bind_Some in Hl as (manager & _ & <-%Some_inj). apply propose_status.
Qed.
Lemma capabilityMatrix_ok repository source commands :
  Name <$> capabilityMatrix source commands = capability_names ∧ Forall (capability_established repository) (capabilityMatrix source commands).
Proof.
  unfold capabilityMatrix. set (proposed := foldl _ _ _). split.
  - rewrite <- list_fmap_compose. rewrite <- (list_fmap_id capability_names) at 2. apply list_fmap_ext. intros _ name _. cbn. unfold capability.
    destruct (String.eqb_spec name "source"); [done|]. destruct (String.eqb name "vault"); [done|]. by destruct (proposed !! name).
  - apply Forall_fmap, Forall_forall. intros name _. cbn. unfold capability.
    destruct (String.eqb_spec name "source") as [->|_]; [by apply established_source|]. apply established_statically.
    destruct (String.eqb name "vault"); [cbn [State]; set_solver|]. destruct (proposed !! name); cbn [State]; set_solver.
Qed.

(** ** Every proposal made is well formed *)

Lemma built_proposal_ok input p : Build input = Ok p → proposal_ok p.
Proof.
  intros Hb. pose proof (built_ok input p Hb) as Hv. apply Build_accepts in Hb as (reference & commands & _ & Hr & _ & Hc & ->).
  split; try done; [by eapply detectCommands_status|apply (capabilityMatrix_ok (recorded input reference))..].
Qed.
Lemma reconciled_proposal_ok p q p' : proposal_ok p → proposal_ok q → Reconcile p (Vault q) = Ok p' → proposal_ok p'.
Proof.
  intros [] Hq (_ & _ & Hr)%Reconcile_ok. destruct (decide _).
  - subst p'. split; try done. apply Hq.
  - destruct Hr as (_ & _ & ->). split; try done. apply reconciled_ok; [done|apply Hq].
Qed.
Lemma apply_ok p probes p' array : ApplyCapabilityProbes p probes = (Ok p', array) ↔
  validSHA (Revision (Proposal_Repository p)) = true ∧ Proposal_SchemaVersion p = SchemaVersion ∧
  ∃ after, apply_probes (Proposal_Repository p) (byName (items (Capabilities p))) ∅ probes (items (Capabilities p)) = (Ok tt, after) ∧
    array = (λ _, after) <$> Capabilities p ∧
    p' = with_capabilities p array (if existsb (λ c, String.eqb (State c) "blocked") after then "blocked" else "partially_ready").
Proof.
  unfold ApplyCapabilityProbes. destruct (validSHA _); cbn [negb orb]; [|split; [done|by intros (? & _)]].
  destruct (Z.eqb_spec (Proposal_SchemaVersion p) SchemaVersion); cbn [negb]; [|split; [done|by intros (_ & ? & _)]].
  destruct (apply_probes _ _ _ _ _) as [[[]|failure] after].
  - split; [intros [= <- <-]; eauto 6|]. by intros (_ & _ & ? & [= <-] & -> & ->).
  - split; [done|]. by intros (_ & _ & ? & ? & _).
Qed.
(** The capabilities after the probes, as a list. *)
Lemma apply_items p probes p' array : ApplyCapabilityProbes p probes = (Ok p', array) →
  apply_probes (Proposal_Repository p) (byName (items (Capabilities p))) ∅ probes (items (Capabilities p)) = (Ok tt, items (Capabilities p')).
Proof.
  intros (_ & _ & after & Ha & -> & ->)%apply_ok. rewrite Ha. cbn [Capabilities with_capabilities]. destruct (Capabilities p) as [l|] eqn:Hc; [done|].
  cbn [fmap option_fmap option_map items default from_option id]. destruct probes as [|probe probes]; cbn in Ha; [by injection Ha as <-|].
  destruct (check_probe _ _ _ _) as [[i c]|] eqn:Hp; [|done]. apply check_probe_ok in Hp as (_ & _ & Hi & _). by rewrite lookup_empty in Hi.
Qed.
Lemma probed_proposal_ok p probes p' array : proposal_ok p → ApplyCapabilityProbes p probes = (Ok p', array) → proposal_ok p'.
Proof.
  intros [] Ha. pose proof (apply_items p probes p' array Ha) as Hp. apply apply_ok in Ha as (_ & _ & after & _ & -> & ->).
  apply apply_probes_ok in Hp as (Hn & Hat & Hc & _); [|intros n i; apply byName_spec].
  split; try done.
  - by rewrite Hn.
  - apply Forall_forall. intros c (i & Hi)%list_elem_of_lookup. destruct (Hc i c Hi) as [Hold|(probe & Hin & ->)].
    + rewrite Forall_forall in proposal_capabilities0. apply proposal_capabilities0. by eapply list_elem_of_lookup_2.
    + eapply established_by_probe; [|done]. by apply Hat.
Qed.
Lemma made_ok p : made p → proposal_ok p.
Proof.
  induction 1; [by eapply built_proposal_ok|eapply reconciled_proposal_ok; [| |eassumption]; done|eapply probed_proposal_ok; [|eassumption]; done].
Qed.

(** ** Stored proposals *)

Lemma ValidateStoredProposal_ok Unmarshal raw reference branch revision readiness digest vault p :
  ValidateStoredProposal Unmarshal raw reference branch revision readiness digest vault = Ok p ↔
  Unmarshal raw = Some p ∧
  EqualFold (ManifestSHA256 (Vault p)) vault = true ∧ EqualFold (ManifestSHA256 (Vault p)) (VaultSHA256 p) = true ∧
  Proposal_SchemaVersion p = SchemaVersion ∧ Manifest_SchemaVersion (Vault p) = SchemaVersion ∧
  Reference (Proposal_Repository p) = reference ∧ EqualFold (Revision (Proposal_Repository p)) revision = true ∧
  DefaultBranch (Proposal_Repository p) = branch ∧
  (∀ s, Proposal_PolicySuggestion p = Some s → policySuggestionsEqual s
     (buildPolicySuggestion (Proposal_Repository p) (metadata_proof (Revision (Proposal_Repository p))) (items (Commands p))) = true) ∧
  EqualFold (ProposalSHA256 p) digest = true ∧ Readiness p = readiness.
Proof.
  unfold ValidateStoredProposal. destruct (Unmarshal raw) as [q|]; [|split; [done|by intros (? & _)]].
  rewrite !fail_if_bind, !orb_false_iff, !negb_false_iff, !Z.eqb_eq, !String.eqb_eq. split.
  - intros ((((H1 & H2) & H3) & H4) & ((H5 & H6) & H7) & H8). destruct (Proposal_PolicySuggestion q) as [s|] eqn:Hs.
    + apply fail_if_bind in H8 as (H8 & H9). apply fail_if_bind in H9 as (H9 & [= <-]). rewrite orb_false_iff, !negb_false_iff, String.eqb_eq in H9.
      destruct H9. rewrite negb_false_iff in H8. repeat (split; [done|]). split; [|done]. by rewrite Hs; intros ? [= <-].
    + apply fail_if_bind in H8 as (H9 & [= <-]). rewrite orb_false_iff, !negb_false_iff, String.eqb_eq in H9. destruct H9.
      repeat (split; [done|]). split; [|done]. by rewrite Hs.
  - intros ([= <-] & H1 & H2 & H3 & H4 & H5 & H6 & H7 & H8 & H9 & H10). repeat (split; [done|]).
    destruct (Proposal_PolicySuggestion q) as [s|]; [rewrite fail_if_bind, negb_false_iff; split; [by apply H8|]|cbn];
      apply fail_if_bind; rewrite orb_false_iff, !negb_false_iff, String.eqb_eq; done.
Qed.
End Made.
