(* ===== verification/VaultTheorems.v ===== *)
(** * internal/projectvault: onboarding a repository

    The properties of building, reconciling, probing and storing a proposal, and two revisions
    of a repository to see them at. *)
From stdpp Require Import base tactics list strings gmap sorting.
From S2P Require Import Prelude GoStrings GoSort Sha256 Json Vault VaultInventory VaultFacts VaultBuild VaultSealed.
From S2P Require DeliveryPolicy.
Open Scope string_scope.

Section Theorems.
Context {unicode : GoUnicode} {time_url : DeliveryPolicy.GoTimeURL} {choice : GoChoice}.

(** ** Reconciliation *)

Lemma keys_where (P : VaultEntry → Prop) `{!∀ e, Decision (P e)} l k : NoDup (Key <$> l) →
  k ∈ items (Some (sort_strings (Key <$> filter P l))) ↔ ∃ e, by_key l !! k = Some e ∧ P e.
Proof.
  intros Hnd. cbn [items default from_option id]. unfold sort_strings. rewrite (sort_key_perm id), list_elem_of_fmap. split.
  - intros (e & -> & [HP Hin]%list_elem_of_filter). exists e. split; [by apply by_key_Some|done].
  - intros (e & [Hin <-]%by_key_Some & HP); [|done]. exists e. split; [done|]. by apply list_elem_of_filter.
Qed.
(** The same kind and value, in a Vault that still has it. *)
Definition kept (e p : VaultEntry) : Prop := fact_text (Kind e) (Value e) = fact_text (Kind p) (Value p) ∧ Lifecycle p ≠ "removed".
#[local] Instance kept_dec e p : Decision (kept e p) := _.
Definition change_between (e : VaultEntry) (prior : option VaultEntry) : change :=
  match prior with None => added | Some p => if decide (kept e p) then unchanged else modified end.
Lemma change_kind before previous e : change_of before previous e = change_between e (by_key previous !! Key e).
Proof.
  unfold change_of. rewrite indexed_lookup. destruct (by_key previous !! Key e) as [p|]; cbn [fmap option_fmap option_map change_between]; [|done].
  set (q := normalizeVaultEntry p before). assert (Hq : removed q = false ↔ Lifecycle p ≠ "removed").
  { rewrite removed_false. unfold q. cbn [Lifecycle normalizeVaultEntry]. by destruct (String.eqb_spec (Lifecycle p) "") as [->|_]. }
  pose proof (equivalent_text e q) as He. change (fact_text (Kind q) (Value q)) with (fact_text (Kind p) (Value p)) in He.
  destruct (decide (kept e p)) as [[Hf Hr]|Hd].
  - by rewrite (proj2 He Hf), (proj2 Hq Hr).
  - destruct (vaultEntryEquivalent e q && negb (removed q)) eqn:Hb; [|done]. exfalso. apply Hd.
    apply andb_true_iff in Hb as [Hf Hr%negb_true_iff]. split; [by apply He|by apply Hq].
Qed.
Lemma keys_changed kind before c p k : NoDup (Key <$> c) → k ∈ items (Some (sort_strings (Key <$> filter (λ e, change_of before p e = kind) c))) ↔
  ∃ e, by_key c !! k = Some e ∧ change_between e (by_key p !! k) = kind.
Proof.
  intros Hnd. rewrite keys_where by done. split; intros (e & He & Hk); exists e; (split; [done|]); apply by_key_Some in He as [_ <-]; try done;
    by rewrite change_kind in *.
Qed.

(** C8: Reconciling two revisions of a Vault merges them key by key: every key of either is in the result, once and in order, with the
    entry that [settled] describes (a new value replaces the old, which goes to the history; what is absent is kept as removed), the four
    lists of the diff say which keys are new, changed, unchanged and gone, and the digests are those of the result and of the previous
    Vault. *)
Theorem reconcile_merges proposal previous proposal' :
  let current := Vault proposal in
  let now := Revision (Manifest_Repository current) in let before := Revision (Manifest_Repository previous) in
  let c := by_key (items (Entries current)) in let q := by_key (items (Entries previous)) in
  let result := items (Entries (Vault proposal')) in let diff := Proposal_VaultDiff proposal' in
  Reconcile proposal previous = Ok proposal' → now ≠ before →
  NoDup (Key <$> result) ∧ key_sorted Key result ∧ by_key result = merge (settled now before) c q ∧
  (∀ k, k ∈ items (Added diff) ↔ is_Some (c !! k) ∧ q !! k = None) ∧
  (∀ k, k ∈ items (Removed diff) ↔ c !! k = None ∧ ∃ p, q !! k = Some p ∧ Lifecycle p ≠ "removed") ∧
  (∀ k, k ∈ items (Unchanged diff) ↔ ∃ e p, c !! k = Some e ∧ q !! k = Some p ∧ kept e p) ∧
  (∀ k, k ∈ items (Modified diff) ↔ ∃ e p, c !! k = Some e ∧ q !! k = Some p ∧ ¬ kept e p) ∧
  VaultSHA256 proposal' = ManifestSHA256 (Vault proposal') ∧ PreviousRevision proposal' = before ∧
  PreviousVaultSHA256 proposal' = ManifestSHA256 previous.
Proof.
  cbn zeta. intros (_ & _ & Hr)%Reconcile_ok Hne. rewrite decide_False in Hr by done. destruct Hr as ([_ Hc] & [_ Hp] & ->).
  cbn [Vault with_vault Entries reconciled_vault Proposal_VaultDiff merged_diff Added Modified Unchanged Removed VaultSHA256 PreviousRevision
       PreviousVaultSHA256].
  change (items (Some ?l)) with l at 1 2 3.
  destruct (sorted_merge (Revision (Manifest_Repository (Vault proposal))) (Revision (Manifest_Repository previous)) _ _ Hc Hp) as (Hs & Hnd & Hm).
  split; [exact Hnd|]. split; [exact Hs|]. split; [exact Hm|]. split; [|split; [|split; [|split]]]; [| | | |done].
  - intros k. rewrite keys_changed by done. split.
    + intros (e & He & Hk). split; [by exists e|]. unfold change_between in Hk. destruct (by_key (items (Entries previous)) !! k); [|done].
      by destruct (decide _).
    + intros ([e He] & Hk). exists e. by rewrite Hk.
  - intros k. unfold items at 1. cbn [default from_option id]. unfold sort_strings. rewrite (sort_key_perm id), list_elem_of_fmap. split.
    + intros (p & -> & [Hl [Ha Hi]%absent_elem]%list_elem_of_filter); [|done]. split; [by apply by_key_None|].
      rewrite indexed_lookup in Hi. apply fmap_Some in Hi as (p' & Hp' & Heq). rewrite Heq in Hl. exists p'. split; [done|].
      revert Hl. cbn [Lifecycle normalizeVaultEntry]. by destruct (String.eqb_spec (Lifecycle p') "") as [->|_].
    + intros (Hk%by_key_None & p & Hpk & Hl). pose proof Hpk as [Hin <-]%by_key_Some; [|done].
      exists (normalizeVaultEntry p (Revision (Manifest_Repository previous))). split; [done|]. apply list_elem_of_filter. split.
      * cbn [Lifecycle normalizeVaultEntry]. by destruct (String.eqb (Lifecycle p) "").
      * apply absent_elem; [done|]. split; [done|]. rewrite indexed_lookup, normalize_key, Hpk. done.
  - intros k. rewrite keys_changed by done. split.
    + intros (e & He & Hk). unfold change_between in Hk. destruct (by_key (items (Entries previous)) !! k) as [p|]; [|done].
      destruct (decide _); [|done]. by exists e, p.
    + intros (e & p & He & Hk & Hf). exists e. rewrite Hk. split; [done|]. unfold change_between. by rewrite decide_True.
  - intros k. rewrite keys_changed by done. split.
    + intros (e & He & Hk). unfold change_between in Hk. destruct (by_key (items (Entries previous)) !! k) as [p|]; [|done].
      destruct (decide _) as [|Hd]; [done|]. by exists e, p.
    + intros (e & p & He & Hk & Hd). exists e. rewrite Hk. split; [done|]. unfold change_between. by rewrite decide_False.
Qed.

(** C22: Every Vault the code makes is well formed: its entries have different keys, none blank, in order; each is active or removed,
    with full commit identities for its lifecycle and for the revisions it holds from and through, and at most 64 replaced values, each
    deprecated or removed at a commit.  Two such Vaults of one repository can always be reconciled. *)
Theorem vaults_stay_well_formed p : made p →
  vault_ok (Vault p) ∧
  ∀ q, made q → Reference (Manifest_Repository (Vault p)) = Reference (Manifest_Repository (Vault q)) → ∃ p', Reconcile p (Vault q) = Ok p' ∧ made p'.
Proof.
  intros Hp. pose proof (made_ok p Hp) as [Hs Hv _ _ _ _ _ _]. split; [done|]. intros q Hq Href. pose proof (made_ok q Hq) as [_ Hw _ _ _ _ _ _].
  cut (∃ p', Reconcile p (Vault q) = Ok p'). { intros [p' Hr]. exists p'. split; [done|]. exact (made_reconciled p q p' Hp Hq Hr). }
  assert (Hsc : schemas_agree p (Vault q)) by (destruct Hv, Hw; done).
  assert (Hcp : checkpoints_agree (Manifest_Repository (Vault p)) (Manifest_Repository (Vault q))) by (destruct Hv, Hw; done).
  destruct (decide (Revision (Manifest_Repository (Vault p)) = Revision (Manifest_Repository (Vault q)))) as [He|Hne];
    eexists; apply Reconcile_ok; (split; [done|]); (split; [done|]).
  - by rewrite decide_True.
  - rewrite decide_False by done. split; [by apply vault_ok_keyed|]. split; [by apply vault_ok_keyed|done].
Qed.

(** A Vault and the ones reconciled after it, in proposals the code makes. *)
Inductive descends (v : Manifest) : Manifest → Prop :=
| descends_self : descends v v
| descends_next w p p' : descends v w → made p → Reconcile p w = Ok p' → descends v (Vault p').

(** C6: Nothing in a Vault is forgotten by the Vaults that follow it: an entry's key is still there, and its kind and value are those of
    the entry, or in its history, unless the history says that it was cut off. *)
Theorem nothing_is_forgotten p w e : made p → descends (Vault p) w → e ∈ items (Entries (Vault p)) →
  ∃ e', e' ∈ items (Entries w) ∧ Key e' = Key e ∧
    (HistoryTruncated e' = true ∨ fact_text (Kind e') (Value e') = fact_text (Kind e) (Value e) ∨
     ∃ h, h ∈ items (History e') ∧ fact_text (History_Kind h) (History_Value h) = fact_text (Kind e) (Value e)).
Proof.
  intros Hp Hd Hin. pose proof (proposal_vault p (made_ok p Hp)) as Hv.
  cut (vault_ok w ∧ ∃ e', by_key (items (Entries w)) !! Key e = Some e' ∧ remembers e' (fact_text (Kind e) (Value e))).
  { intros (Hw & e' & [He Hk]%by_key_Some & Hr); [|apply Hw]. by exists e'. }
  induction Hd as [|w r r' _ [Hw (e' & He & Hr)] Hmade Hrec].
  - split; [done|]. exists e. split; [apply by_key_Some; [apply Hv|done]|]. right. by left.
  - pose proof (proposal_vault r (made_ok r Hmade)) as Hrv. apply Reconcile_ok in Hrec as (_ & _ & Hrec). destruct (decide _).
    + subst r'. split; [done|]. by exists e'.
    + destruct Hrec as (_ & _ & ->). cbn [Vault with_vault]. split; [by apply reconciled_ok|].
      eapply reconciled_remembers; [apply Hrv|apply Hw|exact He|exact Hr].
Qed.

(** ** What onboarding may do *)

Lemma suggested_kinds commands : ∀ s, (∀ k, k ∈ seenKinds s ↔ k ∈ testKinds s) → ∀ k,
  k ∈ testKinds (foldl suggest s commands) ↔ k ∈ testKinds s ∨ policySuggestionTestKind k = true ∧ k ∈ Command_Capability <$> commands.
Proof.
  induction commands as [|c l IH]; intros s Hs k.
  - cbn. split; [by left|]. by intros [?|[_ ?%elem_of_nil]].
  - cbn [foldl]. rewrite fmap_cons, elem_of_cons.
    assert (Hstep : (∀ k, k ∈ seenKinds (suggest s c) ↔ k ∈ testKinds (suggest s c)) ∧
      ∀ k, k ∈ testKinds (suggest s c) ↔ k ∈ testKinds s ∨ policySuggestionTestKind k = true ∧ k = Command_Capability c).
    { unfold suggest. destruct (policySuggestionTestKind (Command_Capability c)) eqn:Hk; cbn [negb].
      - destruct (bool_decide (Command_Capability c ∈ seenKinds s)) eqn:Hin; [apply bool_decide_eq_true in Hin|apply bool_decide_eq_false in Hin];
          destruct (_ || _); cbn [seenKinds testKinds]; (split; [intros x|intros x]); rewrite ?elem_of_union, ?elem_of_singleton, ?elem_of_app,
          ?list_elem_of_singleton, ?Hs; try rewrite Hs in Hin; intuition (subst; auto).
      - split; [done|]. intros x. split; [by left|]. intros [?|[? ->]]; [done|congruence]. }
    destruct Hstep as [Hseen Hkinds]. rewrite (IH _ Hseen), Hkinds. tauto.
Qed.

(** C7: Whatever the repository holds, a proposal grants nothing: its policy is review-only, for this repository and its default branch, and
    requires the test kinds of the commands found; no command is executed, and at most 64 are proposed; the capabilities are the fourteen
    known ones, and one is ready only when it is the source or when a probe attests to it at this commit. *)
Theorem onboarding_grants_nothing p : made p →
  (∃ s, Proposal_PolicySuggestion p = Some s ∧ Mode s = "review_only" ∧ Level s = "repository" ∧
     RepositoryReference s = Reference (Proposal_Repository p) ∧ AllowedTargetBranches s = Some [DefaultBranch (Proposal_Repository p)] ∧
     ∀ k, k ∈ items (RequiredTestKinds s) ↔ k ∈ ["unit"; "integration"; "contract"; "e2e"] ∧ k ∈ Command_Capability <$> items (Commands p)) ∧
  Forall (λ c, Status c = "proposed_not_executed") (items (Commands p)) ∧ (length (items (Commands p)) ≤ 64)%nat ∧
  Name <$> items (Capabilities p) = capability_names ∧
  ∀ c, c ∈ items (Capabilities p) → State c = "ready" → Name c = "source" ∨
    ∃ probe, attests (Proposal_Repository p) probe ∧ c = capability_of (Revision (Proposal_Repository p)) probe.
Proof.
  intros Hp. pose proof (made_ok p Hp) as [_ _ _ _ Hpol [Hcmd Hlen] Hnames Hcap]. split; [|split; [done|split; [done|split; [done|]]]].
  - eexists. split; [exact Hpol|]. do 4 (split; [done|]). intros k. cbn [RequiredTestKinds buildPolicySuggestion items default from_option id].
    unfold sort_strings. rewrite (sort_key_perm id), suggested_kinds by (intros x; cbn; set_solver). cbn [testKinds].
    unfold policySuggestionTestKind. rewrite existsb_elem, elem_of_nil. tauto.
  - intros c Hin Hr. rewrite Forall_forall in Hcap. destruct (Hcap c Hin) as [Hs|Hn _|probe Ha ->]; [|by left|by right; eauto].
    rewrite Hr in Hs. by apply existsb_elem in Hs.
Qed.

(** What probes change: the capabilities they name, which become what the probe claims, in their place, and the readiness; nothing else
    of the proposal.  Each probe attests to this repository at this commit, with the digest of its claim, so the source and the Vault keep
    their capabilities; the proposal is blocked exactly when a capability is. *)
Theorem probes_are_bound p probes p' array : ApplyCapabilityProbes p probes = (Ok p', array) →
  p' = with_capabilities p (Capabilities p') (Readiness p') ∧ array = Capabilities p' ∧
  Name <$> items (Capabilities p') = Name <$> items (Capabilities p) ∧
  (∀ probe, probe ∈ trimmed_probe <$> probes → attests (Proposal_Repository p) probe ∧
     capability_of (Revision (Proposal_Repository p)) probe ∈ items (Capabilities p')) ∧
  (∀ i c, items (Capabilities p') !! i = Some c → items (Capabilities p) !! i = Some c ∨
     Name c ∉ ["source"; "vault"] ∧ ∃ probe, probe ∈ trimmed_probe <$> probes ∧ c = capability_of (Revision (Proposal_Repository p)) probe) ∧
  Readiness p' = if existsb (λ c, String.eqb (State c) "blocked") (items (Capabilities p')) then "blocked" else "partially_ready".
Proof.
  intros Ha. pose proof (apply_items p probes p' array Ha) as Hi. apply apply_ok in Ha as (_ & _ & after & Hap & -> & Hp').
  assert (Hafter : items (Capabilities p') = after) by (rewrite Hap in Hi; by injection Hi).
  apply apply_probes_ok in Hi as (Hn & Hat & Hc & _); [|intros n i; apply byName_spec].
  split; [by subst p'|]. split; [by subst p'|]. split; [done|]. split; [|split].
  - intros probe Hin. destruct (Hat probe Hin) as (? & _ & i & _ & Hi). split; [done|]. by eapply list_elem_of_lookup_2.
  - intros i c Hi. destruct (Hc i c Hi) as [?|(probe & Hin & ->)]; [by left|right]. split; [|eauto].
    destruct (Hat probe Hin) as ([[? ?] _ _ _ _ _] & _). cbn [Name capability_of]. set_solver.
  - by rewrite Hafter, Hp'.
Qed.

(** The digest of a probe's claim belongs to one claim: two probes with the same digest claim the same state of the same capability
    at the same commit of the same repository, with the same evidence and role, unless two texts collide. *)
Theorem probe_evidence_is_bound r1 p1 r2 p2 digest :
  CapabilityProbeSubjectSHA256 r1 p1 = Ok digest → CapabilityProbeSubjectSHA256 r2 p2 = Ok digest →
  json_utf8 (CapabilityProbeSubject_json r1 p1) = true → json_utf8 (CapabilityProbeSubject_json r2 p2) = true →
  Reference r1 = Reference r2 ∧ ToLower (TrimSpace (Revision r1)) = ToLower (TrimSpace (Revision r2)) ∧
    TrimSpace (Probe_Name p1) = TrimSpace (Probe_Name p2) ∧ ToLower (TrimSpace (Probe_State p1)) = ToLower (TrimSpace (Probe_State p2)) ∧
    ToLower (TrimSpace (ExecutorRole p1)) = ToLower (TrimSpace (ExecutorRole p2)) ∧
    ToLower (TrimSpace (EvidenceSHA256 p1)) = ToLower (TrimSpace (EvidenceSHA256 p2)) ∨
  collide (Marshal (CapabilityProbeSubject_json r1 p1)) (Marshal (CapabilityProbeSubject_json r2 p2)).
Proof.
  unfold CapabilityProbeSubjectSHA256. rewrite !fail_if_bind. intros (_ & [= H1]) (_ & [= H2]) Hu1 Hu2.
  destruct (digest_binds _ _ Hu1 Hu2 ltac:(by rewrite H1, H2)) as [Heq|?]; [left|by right].
  unfold CapabilityProbeSubject_json in Heq. injection Heq. auto 10.
Qed.

Lemma sha_hex s : validSHA s = true → all_bytes is_lower_hex s = true.
Proof. unfold validSHA, re_exact. intros [_ Hs]%andb_true_iff. revert Hs. apply all_bytes_impl. by intros [[] [] [] [] [] [] [] []]. Qed.
(** C23: A stored proposal is sealed: the code accepts what it has made under the identities it recorded, and nothing else under the same
    identities, unless two texts collide. *)
Theorem proposals_are_sealed (Unmarshal : string → option Proposal) p raw p' : made p → json_utf8 (Proposal_json p) = true →
  let repository := Proposal_Repository p in
  let accepted raw := ValidateStoredProposal Unmarshal raw (Reference repository) (DefaultBranch repository) (Revision repository) (Readiness p)
    (ProposalSHA256 p) (VaultSHA256 p) in
  Unmarshal raw = Some p' →
  (p' = p → accepted raw = Ok p) ∧
  (accepted raw = Ok p' → json_utf8 (Proposal_json p') = true →
     Proposal_json p' = Proposal_json p ∨ collide (Marshal (Proposal_json p')) (Marshal (Proposal_json p))).
Proof.
  cbn zeta. intros Hp Hu Hraw. pose proof (made_ok p Hp) as [Hs Hv Hd Hr Hpol _ _ _]. split.
  - intros ->. apply ValidateStoredProposal_ok. split; [done|]. rewrite Hd. unfold ManifestSHA256, ProposalSHA256.
    split; [by apply hex_fold; try apply hexSum256_hex|]. split; [by apply hex_fold; try apply hexSum256_hex|].
    split; [done|]. split; [by apply ok_schema|]. split; [done|]. split; [by apply hex_fold; try apply (sha_hex _ Hr)|]. split; [done|].
    split; [|split; [by apply hex_fold; try apply hexSum256_hex|done]].
    rewrite Hpol. intros s [= <-]. apply String.eqb_refl.
  - intros (_ & _ & _ & _ & _ & _ & _ & _ & _ & Hdig & _)%ValidateStoredProposal_ok Hu'. unfold ProposalSHA256 in Hdig.
    apply hex_fold in Hdig; [|apply hexSum256_hex..]. by apply digest_binds.
Qed.

(** The inventory holds exactly the safe paths of the repository, once each and in order: without an
    empty, dot or dot-dot segment or a control byte, of at most 240 bytes, and with no name that stands for a secret or for generated code. *)
Theorem inventory_is_safe values :
  NoDup (safeFiles values) ∧ key_sorted id (safeFiles values) ∧
  ∀ k, k ∈ safeFiles values ↔
    (∃ v, v ∈ values ∧ k = normalized_path v) ∧ k ≠ "" ∧ (String.length k ≤ 240)%nat ∧ some_byte is_control k = false ∧
    (∀ part, part ∈ Split k SLASH → part ≠ "" ∧ part ≠ "." ∧ part ≠ "..") ∧ safeVaultInventoryPath k = true.
Proof.
  split; [apply safeFiles_NoDup|]. split; [apply sort_key_sorted|]. intros k. rewrite safeFiles_elem. unfold safe_path, well_formed_path.
  rewrite !andb_true_iff, !negb_true_iff, !orb_false_iff, String.eqb_neq, Nat.ltb_ge.
  assert (Hsplit : existsb (λ part, String.eqb part "" || String.eqb part "." || String.eqb part "..") (Split k SLASH) = false ↔
    ∀ part, part ∈ Split k SLASH → part ≠ "" ∧ part ≠ "." ∧ part ≠ "..").
  { induction (Split k SLASH) as [|x l IH]; cbn; [split; [by intros _ ? ?%elem_of_nil|done]|].
    rewrite !orb_false_iff, IH, !String.eqb_neq. setoid_rewrite elem_of_cons. split.
    - intros [[[? ?] ?] ?] part [->|?]; auto.
    - intros Hall. destruct (Hall x (or_introl eq_refl)) as (? & ? & ?). auto. }
  rewrite Hsplit. tauto.
Qed.
End Theorems.

(** ** Building does not depend on the order of its input *)

Section Order.
Context {unicode : GoUnicode} {time_url : DeliveryPolicy.GoTimeURL} (c1 c2 : GoChoice).

(** Building a proposal does not depend on the order of the files, on how often one is listed, on the order of the excerpts, nor on
    what Go leaves open, as long as no two commands found differ and have the same capability, directory and words. *)
Theorem Build_ignores_order i1 i2 :
  Input_Repository i1 = Input_Repository i2 → (∀ f, f ∈ Files i1 ↔ f ∈ Files i2) → Excerpts i1 ≡ₚ Excerpts i2 →
  Input_InventoryFileCount i1 = Input_InventoryFileCount i2 → Input_InventoryTruncated i1 = Input_InventoryTruncated i2 →
  EnvironmentDeclarations i1 = EnvironmentDeclarations i2 →
  (∀ l, found_commands (choice := c1) (safeFiles (choice := c1) (Files i1)) (Excerpts i1)
          (ToLower (TrimSpace (Revision (Input_Repository i1)))) = Some l → told_apart l) →
  Build (choice := c1) i1 = Build (choice := c2) i2.
Proof.
  intros Hr Hf He Hn Ht Hd Hc. unfold Build. rewrite <- (safeFiles_choice c1 c2 _ _ Hf), <- Hr, <- Hn, <- Ht, <- Hd.
  destruct (DeliveryPolicy.CanonicalGitHubReference _); [|done]. cbn zeta. rewrite <- (detectCommands_choice c1 c2 _ _ _ _ He Hc).
  unfold buildManifest, found_entries. by rewrite <- (declarations_choice c1 c2).
Qed.
End Order.

(** ** The repository *)

#[local] Existing Instance ascii_only.
#[local] Existing Instance one_choice.
Definition vault_url : DeliveryPolicy.GoTimeURL := {|
  DeliveryPolicy.url_Parse s := if String.eqb s "github://itbem/events" then
    Some {| DeliveryPolicy.Scheme := "github"; DeliveryPolicy.HasUser := false; DeliveryPolicy.Host := "itbem"; DeliveryPolicy.Hostname := "itbem";
            DeliveryPolicy.Port := ""; DeliveryPolicy.Path := "/events"; DeliveryPolicy.RawQuery := ""; DeliveryPolicy.Fragment := "" |} else None;
  DeliveryPolicy.time_text t := None |}.
#[local] Existing Instance vault_url.

Definition demo_reference : string := "github://itbem/events".
Definition revision_1 : string := "1111111111111111111111111111111111111111".
Definition revision_2 : string := "2222222222222222222222222222222222222222".
Definition demo_input (revision : string) (files : list string) (scripts : list string) : Input := {|
  Input_Repository := {| Reference := demo_reference; DefaultBranch := "main"; Revision := revision |}; Files := files; Input_InventoryFileCount := 0;
  Input_InventoryTruncated := false;
  Excerpts := [{| Excerpt_Path := "web/package.json"; Content := Marshal (JObject [("scripts", JObject ((λ s, (s, JString "run")) <$> scripts))]) |}];
  EnvironmentDeclarations := [{| Declaration_Path := ".env.example"; Names := ["PORT"; "bad name"; "PORT"; "HOST"] |}] |}.
Definition input_1 : Input := demo_input revision_1
  ["/go.mod"; ".env"; "docs\guide.md"; "../etc/passwd"; ".env.example"; "cmd/main_test.go"; "go.mod"; "web/yarn.lock"] ["test"; "build"; "test:unit"].
Definition input_2 : Input := demo_input revision_2 ["go.mod"; ".env.example"; "keys/id_rsa"] ["test:e2e"].
Definition demo_proposal (input : Input) : Proposal := built input demo_reference (default [] (built_commands input demo_reference)).
Definition proposal_1 : Proposal := demo_proposal input_1.
Definition proposal_2 : Proposal := demo_proposal input_2.

Example files_1 : safeFiles (Files input_1) = [".env.example"; "cmd/main_test.go"; "docs/guide.md"; "go.mod"; "web/yarn.lock"].
Proof. vm_compute. reflexivity. Qed.
Example commands_1 : (λ c, (Command_Capability c, WorkingDirectory c, items (Command c))) <$> items (Commands proposal_1) =
  [("build", "web", ["yarn"; "build"]); ("unit", ".", ["go"; "test"; "./..."]); ("unit", "web", ["yarn"; "test"])].
Proof. vm_compute. reflexivity. Qed.
Example keys_1 : Key <$> items (Entries (Vault proposal_1)) =
  ["repository.commands"; "repository.dependencies"; "repository.documentation"; "repository.environment_declarations";
   "repository.environment_variables"; "repository.identity"; "repository.stacks"; "repository.tests"].
Proof. vm_compute. reflexivity. Qed.

(** ** The properties at it *)

Lemma demo_built input : validSHA (Revision (recorded input demo_reference)) = true → valid_branch (DefaultBranch (recorded input demo_reference)) = true →
  DeliveryPolicy.CanonicalGitHubReference (Reference (Input_Repository input)) = Ok demo_reference →
  bool_decide (is_Some (built_commands input demo_reference)) = true → made (demo_proposal input).
Proof.
  intros Hr Hb Hc [commands Hs]%bool_decide_eq_true. apply (made_built input), Build_accepts. exists demo_reference, commands. unfold demo_proposal. by rewrite Hs.
Qed.
Lemma made_1 : made proposal_1.
Proof. apply demo_built; vm_compute; reflexivity. Qed.
Lemma made_2 : made proposal_2.
Proof. apply demo_built; vm_compute; reflexivity. Qed.
Definition proposal_2_merged : Proposal :=
  with_vault proposal_2 (reconciled_vault (Vault proposal_2) (Vault proposal_1)) revision_1 (ManifestSHA256 (Vault proposal_1))
    (merged_diff revision_1 (items (Entries (Vault proposal_2))) (items (Entries (Vault proposal_1)))).
Lemma revisions_differ : Revision (Manifest_Repository (Vault proposal_2)) ≠ Revision (Manifest_Repository (Vault proposal_1)).
Proof. by vm_compute. Qed.
Lemma demo_merged : Reconcile proposal_2 (Vault proposal_1) = Ok proposal_2_merged.
Proof.
  pose proof (proposal_vault _ (made_ok _ made_1)) as H1. pose proof (proposal_vault _ (made_ok _ made_2)) as H2.
  apply Reconcile_ok. split; [done|]. split; [split; [done|split; by apply ok_revision]|]. rewrite decide_False by apply revisions_differ.
  split; [by apply vault_ok_keyed|]. split; [by apply vault_ok_keyed|done].
Qed.

Lemma reconcile_merges_witness : "repository.tests" ∈ items (Removed (Proposal_VaultDiff proposal_2_merged)) ∧
  NoDup (Key <$> items (Entries (Vault proposal_2_merged))).
Proof.
  destruct (reconcile_merges proposal_2 (Vault proposal_1) proposal_2_merged demo_merged revisions_differ) as (Hnd & _ & _ & _ & Hrem & _).
  split; [|exact Hnd]. apply Hrem. split; [vm_compute; reflexivity|].
  destruct (by_key (items (Entries (Vault proposal_1))) !! "repository.tests") as [e|] eqn:He.
  - exists e. split; [reflexivity|]. assert (Hl : Lifecycle <$> by_key (items (Entries (Vault proposal_1))) !! "repository.tests" = Some "active")
      by (vm_compute; reflexivity). rewrite He in Hl. injection Hl as ->. discriminate.
  - exfalso. assert (Hl : is_Some (by_key (items (Entries (Vault proposal_1))) !! "repository.tests")) by (vm_compute; eauto).
    rewrite He in Hl. by destruct Hl.
Defined.

Lemma vaults_stay_well_formed_witness : vault_ok (Vault proposal_1) ∧ ∃ p', Reconcile proposal_2 (Vault proposal_1) = Ok p' ∧ made p'.
Proof.
  split; [exact (proj1 (vaults_stay_well_formed proposal_1 made_1))|].
  exact (proj2 (vaults_stay_well_formed proposal_2 made_2) proposal_1 made_1 eq_refl).
Defined.

Lemma demo_entry : ∃ e, e ∈ items (Entries (Vault proposal_1)) ∧ Key e = "repository.tests".
Proof.
  pose proof (proposal_vault _ (made_ok _ made_1)) as Hv.
  assert (Hl : is_Some (by_key (items (Entries (Vault proposal_1))) !! "repository.tests")) by (vm_compute; eauto).
  destruct Hl as [e He]. exists e. by apply by_key_Some in He; [|apply Hv].
Qed.
Lemma nothing_is_forgotten_witness : ∃ e', e' ∈ items (Entries (Vault proposal_2_merged)) ∧ Key e' = "repository.tests".
Proof.
  destruct demo_entry as (e & Hin & Hk).
  destruct (nothing_is_forgotten proposal_1 (Vault proposal_2_merged) e made_1) as (e' & Hin' & Hk' & _).
  - eapply descends_next; [apply descends_self|exact made_2|exact demo_merged].
  - exact Hin.
  - exists e'. split; [exact Hin'|]. by rewrite Hk'.
Defined.

Lemma onboarding_grants_nothing_witness : ∃ s, Proposal_PolicySuggestion proposal_1 = Some s ∧ Mode s = "review_only" ∧ "unit" ∈ items (RequiredTestKinds s).
Proof.
  destruct (onboarding_grants_nothing proposal_1 made_1) as ((s & Hs & Hm & _ & _ & _ & Hk) & _). exists s. split; [exact Hs|]. split; [exact Hm|].
  apply Hk. split; [by apply existsb_elem|]. apply existsb_elem. vm_compute. reflexivity.
Defined.

(** A probe of the unit tests, with the digest of its claim. *)
Definition demo_probe (state : string) : CapabilityProbe :=
  let probe subject := {|
    Probe_Name := "unit"; Probe_State := state; Probe_Reason := "go test passed"; Probe_Revision := revision_1;
    EvidenceSHA256 := "abababababababababababababababababababababababababababababababab"; SubjectSHA256 := subject; ExecutorRole := "qa" |} in
  probe (match CapabilityProbeSubjectSHA256 (Proposal_Repository proposal_1) (probe "") with Ok s => s | Err _ => "" end).
Lemma outcome_ok {A B} (r : Res A * B) : is_ok r.1 = true → ∃ a b, r = (Ok a, b).
Proof. destruct r as [[a|e] b]; [eauto|done]. Qed.
Lemma probes_are_bound_witness : ∃ p' array, ApplyCapabilityProbes proposal_1 [demo_probe "ready"] = (Ok p', array) ∧
  Name <$> items (Capabilities p') = Name <$> items (Capabilities proposal_1) ∧ VaultSHA256 p' = VaultSHA256 proposal_1.
Proof.
  assert (Hok : is_ok (ApplyCapabilityProbes proposal_1 [demo_probe "ready"]).1 = true) by (vm_compute; reflexivity).
  destruct (outcome_ok _ Hok) as (p' & array & Ha). exists p', array. split; [exact Ha|].
  destruct (probes_are_bound _ _ _ _ Ha) as (Hp & _ & Hn & _). split; [exact Hn|]. by rewrite Hp.
Defined.

Lemma demo_subject state : CapabilityProbeSubject_json (Proposal_Repository proposal_1) (demo_probe state) =
    CapabilityProbeSubject_json (Proposal_Repository proposal_1) (demo_probe "ready") → ready_or_blocked (ToLower (TrimSpace state)) = true →
  CapabilityProbeSubjectSHA256 (Proposal_Repository proposal_1) (demo_probe state) =
    Ok (hexSum256 (Marshal (CapabilityProbeSubject_json (Proposal_Repository proposal_1) (demo_probe "ready")))).
Proof.
  intros Hj Hs. unfold CapabilityProbeSubjectSHA256. apply fail_if_bind. split; [|by rewrite Hj]. cbn [Probe_State demo_probe]. rewrite Hs. vm_compute. reflexivity.
Qed.
Lemma probe_evidence_is_bound_witness : ∃ digest,
  CapabilityProbeSubjectSHA256 (Proposal_Repository proposal_1) (demo_probe "ready") = Ok digest ∧
  CapabilityProbeSubjectSHA256 (Proposal_Repository proposal_1) (demo_probe " Ready") = Ok digest ∧
  (ToLower (TrimSpace "ready") = ToLower (TrimSpace " Ready") ∨
   collide (Marshal (CapabilityProbeSubject_json (Proposal_Repository proposal_1) (demo_probe "ready")))
     (Marshal (CapabilityProbeSubject_json (Proposal_Repository proposal_1) (demo_probe " Ready")))).
Proof.
  assert (H1 := demo_subject "ready" eq_refl ltac:(vm_compute; reflexivity)).
  assert (H2 := demo_subject " Ready" ltac:(vm_compute; reflexivity) ltac:(vm_compute; reflexivity)).
  eexists. split; [exact H1|]. split; [exact H2|].
  destruct (probe_evidence_is_bound _ _ _ _ _ H1 H2 ltac:(vm_compute; reflexivity) ltac:(vm_compute; reflexivity)) as [(_ & _ & _ & Hs & _)|Hc];
    [left; exact Hs|right; exact Hc].
Defined.

Lemma proposals_are_sealed_witness : json_utf8 (Proposal_json proposal_1) = true ∧
  ValidateStoredProposal (λ _, Some proposal_1) "stored" demo_reference "main" revision_1 "partially_ready" (ProposalSHA256 proposal_1)
    (VaultSHA256 proposal_1) = Ok proposal_1.
Proof.
  assert (Hu : json_utf8 (Proposal_json proposal_1) = true) by (vm_compute; reflexivity). split; [exact Hu|].
  destruct (proposals_are_sealed (λ _, Some proposal_1) proposal_1 "stored" proposal_1 made_1 Hu eq_refl) as [Hv _].
  replace "partially_ready" with (Readiness proposal_1) by (vm_compute; reflexivity). exact (Hv eq_refl).
Defined.

(** Another choice: maps are ranged over backwards, and equal elements change places. *)
Lemma reversed_sorted {A} (less : A → A → bool) l : Transitive (not_less less) → (∀ x y, less x y = true → less y x = false) →
  StronglySorted (not_less less) (sort_by less (reverse l)).
Proof. intros T a. exact (sort_by_sorted less T a (reverse l)). Qed.
Definition reversed_choice : GoChoice.
Proof.
  refine {| map_range A m := reverse (map_to_list m); sort_Slice A less l := sort_by less (reverse l); sort_Slice_sorted A := reversed_sorted |}.
  - intros. apply reverse_Permutation.
  - intros. by rewrite sort_by_perm, reverse_Permutation.
Defined.
Fixpoint all_apart (l : list ProposedCommand) : bool :=
  match l with [] => true | c :: l => forallb (λ d, command_less c d || command_less d c) l && all_apart l end.
Lemma all_apart_told l : all_apart l = true → told_apart l.
Proof.
  induction l as [|x l IH]; cbn; [by intros _ c d ?%elem_of_nil|]. rewrite andb_true_iff. intros [Hx Hl].
  assert (Hd : ∀ d, d ∈ l → command_less x d || command_less d x = true).
  { intros d Hd. apply (proj1 (forallb_forall _ _) Hx). by apply list_elem_of_In. }
  intros c d [->|Hc]%elem_of_cons [->|Hin]%elem_of_cons H1 H2; [done|..|by apply IH].
  - specialize (Hd d Hin). by rewrite H1, H2 in Hd.
  - specialize (Hd c Hc). by rewrite H1, H2 in Hd.
Qed.
Definition input_1' : Input := demo_input revision_1 (reverse (Files input_1) ++ Files input_1) ["test"; "build"; "test:unit"].
Lemma Build_ignores_order_witness : Build input_1 = Build (choice := reversed_choice) input_1'.
Proof.
  apply Build_ignores_order; try reflexivity.
  - intros f. change (Files input_1') with (reverse (Files input_1) ++ Files input_1)%list. rewrite elem_of_app, elem_of_reverse. tauto.
  - intros l Hl. apply all_apart_told.
    assert (from_option all_apart true (found_commands (safeFiles (Files input_1)) (Excerpts input_1)
      (ToLower (TrimSpace (Revision (Input_Repository input_1))))) = true) as Ha by (vm_compute; reflexivity). by rewrite Hl in Ha.
Defined.
