(* ===== verification/AgentCallback.v ===== *)
(** * internal/agentcallbackauth and internal/agentwork: signed callbacks of agent machines

    The texts a machine signs, their verification, the encodings of keys and signatures, and the
    roles and lanes of workers.  Keys, signatures and bodies are byte strings.  Ed25519 is the
    parameter [Ed25519], net/url's [ParseRequestURI] the parameter [GoRequestURI]. *)
From stdpp Require Import base tactics list strings gmap.
From Stdlib Require Import Ascii ZArith.
From S2P Require Import Prelude GoStrings Sha256 Json GoInt PlanStore AccessProof PreviewToken.
From S2P Require Base64.
Open Scope string_scope.

(** crypto/ed25519: keys of 32 and 64 bytes, signatures of 64; what a generated key signs verifies under its public half. *)
Class Ed25519 := {
  generated : string → bool;
  Public : string → string;
  Sign : string → string → string;
  Verify : string → string → string → bool;
  Public_size key : String.length key = 64%nat → String.length (Public key) = 32%nat;
  Sign_size key message : String.length key = 64%nat → String.length (Sign key message) = 64%nat;
  generated_size key : generated key = true → String.length key = 64%nat;
  Verify_Sign key message : generated key = true → Verify (Public key) message (Sign key message) = true;
}.
Definition PublicKeySize : nat := 32.
Definition PrivateKeySize : nat := 64.
Definition SignatureSize : nat := 64.
(** [url.ParseRequestURI] does not fail. *)
Class GoRequestURI := ParseRequestURI : string → bool.

Definition ProtocolVersion : string := "ITBEM-AGENT-CALLBACK-V1".
Definition EnrollmentProtocolVersion : string := "ITBEM-AGENT-INSTANCE-ENROLL-V1".
(** Durations and instants are nanoseconds. *)
Definition MaxClockSkew : Z := 90 * Second.
Definition LF : ascii := ascii_of_N 10.
Definition is_line_break (c : ascii) : bool := byte_is 13 c || byte_is 10 c.
Definition blank (s : string) : bool := String.eqb s "".
(** [strings.Join(fields, "\n")] *)
Definition lines (fields : list string) : string := String.concat (String LF EmptyString) fields.

(** ** Encodings *)

Definition has_size (n : nat) (s : string) : bool := Nat.eqb (String.length s) n.
Definition encode_sized (n : nat) (value : string) : option string := if has_size n value then Some (Base64.EncodeToString value) else None.
Definition decode_sized (n : nat) (value : string) : option string :=
  let value := TrimSpace value in
  if blank value || some_byte (byte_is 61) value then None
  else
    decoded ← Base64.DecodeString value;
    if has_size n decoded && String.eqb (Base64.EncodeToString decoded) value then Some decoded else None.
Definition EncodePublicKey : string → option string := encode_sized PublicKeySize.
Definition DecodePublicKey : string → option string := decode_sized PublicKeySize.
Definition EncodeSignature : string → option string := encode_sized SignatureSize.
Definition DecodeSignature : string → option string := decode_sized SignatureSize.
Definition PublicKeyFingerprint (publicKey : string) : option string :=
  if has_size PublicKeySize publicKey then Some ("sha256:" +:+ hexSum256 publicKey) else None.

Section Signature.
Context {unicode : GoUnicode} {text : UuidText} {ed25519 : Ed25519} {request_uri : GoRequestURI}.

(** ** Requests *)

Definition upper_method (method : string) : string := ToUpper (TrimSpace method).
(** [uuid.FromString(strings.TrimSpace(value))], not nil. *)
Definition some_identity (value : string) : option uuid :=
  id ← FromString (TrimSpace value);
  if N.eqb id Nil then None else Some id.
(** A nonzero identity, written as Go writes it. *)
Definition canonical_identity (value : string) : option uuid :=
  id ← FromString value;
  if N.eqb id Nil || negb (String.eqb (uuid_text id) value) then None else Some id.
Definition canonicalRequest (instanceID method requestURI : string) (timestamp : Z) (nonce body : string) : option string :=
  parsedInstanceID ← some_identity instanceID;
  if Z.leb timestamp 0 || some_byte is_line_break (instanceID +:+ method +:+ requestURI +:+ nonce) then None
  else
    let method := upper_method method in
    if blank method || Nat.ltb 16 (String.length method) || blank requestURI || Nat.ltb 8192 (String.length requestURI) ||
       negb (HasPrefix requestURI "/") then None
    else if negb (all_bytes is_upper method) then None
    else if negb (ParseRequestURI requestURI) then None
    else
      parsedNonce ← some_identity nonce;
      Some (lines [ProtocolVersion; method; uuid_text parsedInstanceID; requestURI; Sprint timestamp; uuid_text parsedNonce; hexSum256 body]).
Definition SignRequest (privateKey instanceID method requestURI : string) (timestamp : Z) (nonce body : string) : option string :=
  if negb (has_size PrivateKeySize privateKey) then None
  else
    canonical ← canonicalRequest instanceID method requestURI timestamp nonce body;
    Some (Sign privateKey canonical).
Definition VerifyRequest (publicKey signature instanceID method requestURI : string) (timestamp : Z) (nonce body : string) (now : Z) : bool :=
  match canonicalRequest instanceID method requestURI timestamp nonce body with
  | None => false
  | Some canonical =>
      has_size PublicKeySize publicKey && has_size SignatureSize signature &&
      negb (Z.leb timestamp 0 || Z.ltb (timestamp * Second) (now - MaxClockSkew) || Z.ltb (now + MaxClockSkew) (timestamp * Second)) &&
      Verify publicKey canonical signature
  end.

(** ** Enrollment *)

Definition AgentInstanceEnrollmentMessage (agentKey machineID publicKey : string) : option string :=
  let fields := [TrimSpace agentKey; TrimSpace machineID; TrimSpace publicKey] in
  if existsb (λ field, blank field || some_byte is_line_break field) fields then None
  else Some (lines (EnrollmentProtocolVersion :: fields)).
Definition VerifyAgentInstanceEnrollment (publicKey signature agentKey machineID encodedPublicKey : string) : bool :=
  match AgentInstanceEnrollmentMessage agentKey machineID encodedPublicKey with
  | None => false
  | Some message => has_size PublicKeySize publicKey && has_size SignatureSize signature && Verify publicKey message signature
  end.

(** ** The machine's side (internal/automationagent) *)

Record MachineIdentity := { machineID : string; privateKey : string }.
(** The headers of a signed request. *)
Record Headers := { InstanceIDHeader : string; TimestampHeader : string; NonceHeader : string; SignatureHeader : string }.
(** [newSignedRequest]: [nonce] is the fresh identity, [now] the clock in nanoseconds. *)
Definition newSignedRequest (identity : MachineIdentity) (instanceID method requestURI body : string) (now : Z) (nonce : uuid) : option Headers :=
  if negb (has_size PrivateKeySize (privateKey identity)) || blank instanceID then None
  else
    let timestamp := (now / Second)%Z in
    signature ← SignRequest (privateKey identity) instanceID method requestURI timestamp (uuid_text nonce) body;
    encodedSignature ← EncodeSignature signature;
    Some {| InstanceIDHeader := instanceID; TimestampHeader := Sprint timestamp; NonceHeader := uuid_text nonce; SignatureHeader := encodedSignature |}.
Definition AgentInstanceEnrollmentProof (identity : MachineIdentity) (agentKey : string) : option (string * string) :=
  if negb (has_size PrivateKeySize (privateKey identity)) then None
  else
    encodedPublicKey ← EncodePublicKey (Public (privateKey identity));
    message ← AgentInstanceEnrollmentMessage agentKey (machineID identity) encodedPublicKey;
    signature ← EncodeSignature (Sign (privateKey identity) message);
    Some (encodedPublicKey, signature).
End Signature.

(** ** Roles and lanes (internal/agentwork) *)

Definition Role := string.
Definition Lane := string.
Definition RoleOrchestrator : Role := "orchestrator".
Definition RolePrincipalEngineer : Role := "principal_engineer".
Definition RoleReviewer : Role := "reviewer".
Definition RoleQA : Role := "qa".
Definition RoleReleaseManager : Role := "release_manager".
Definition LaneOrchestration : Lane := "orchestration".
Definition LaneEngineering : Lane := "engineering".
Definition LaneReview : Lane := "review".
Definition LaneQA : Lane := "qa".
Definition LaneRelease : Lane := "release".
Record Assignment := { Assignment_Role : Role; Assignment_Lane : Lane }.
Definition one_of_texts (options : list string) (value : string) : bool := existsb (String.eqb value) options.
Definition AssignmentForOperation (operation : string) : option Assignment :=
  let assigned role lane := Some {| Assignment_Role := role; Assignment_Lane := lane |} in
  if one_of_texts ["ai.chat"; "delivery.chat"; "document.analyze"; "delivery.summary"] operation then assigned RoleOrchestrator LaneOrchestration
  else if one_of_texts ["product.ideate"; "delivery.plan"; "delivery.implementation"] operation then assigned RolePrincipalEngineer LaneEngineering
  else if one_of_texts ["code.review"; "delivery.assessment"] operation then assigned RoleReviewer LaneReview
  else if one_of_texts ["delivery.qa"; "delivery.onboarding_probe"] operation then assigned RoleQA LaneQA
  else if one_of_texts ["delivery.publish"; "delivery.release_gate"] operation then assigned RoleReleaseManager LaneRelease
  else None.
Definition IsSupportedOperation (operation : string) : bool := match AssignmentForOperation operation with Some _ => true | None => false end.
Definition IsKnownRoleLane (role : Role) (lane : Lane) : bool :=
  (String.eqb role RoleOrchestrator && String.eqb lane LaneOrchestration) ||
  (String.eqb role RolePrincipalEngineer && String.eqb lane LaneEngineering) ||
  (String.eqb role RoleReviewer && String.eqb lane LaneReview) || (String.eqb role RoleQA && String.eqb lane LaneQA) ||
  (String.eqb role RoleReleaseManager && String.eqb lane LaneRelease).

(** ** Facts *)

Lemma Split_lines f fields : Forall (λ f, without LF f = true) (f :: fields) → Split (lines (f :: fields)) LF = f :: fields.
Proof.
  revert f. induction fields as [|g fields IH]; intros f Hf; inversion Hf; subst; [by apply Split_one|].
  change (lines (f :: g :: fields)) with (f +:+ (String LF EmptyString +:+ lines (g :: fields))).
  change (String LF EmptyString +:+ lines (g :: fields)) with (String LF EmptyString +:+ lines (g :: fields)).
  rewrite (Split_cons LF f); [|done]. by rewrite IH.
Qed.
(** Texts of fields without line feeds can be told apart. *)
Lemma lines_inj fields fields' : fields ≠ [] → fields' ≠ [] → Forall (λ f, without LF f = true) fields → Forall (λ f, without LF f = true) fields' →
  lines fields = lines fields' → fields = fields'.
Proof.
  destruct fields as [|f l]; [done|]. destruct fields' as [|f' l']; [done|]. intros _ _ Hf Hf' Heq.
  rewrite <-(Split_lines f l), <-(Split_lines f' l') by done. by rewrite Heq.
Qed.
Lemma without_LF p s : p LF = false → all_bytes p s = true → without LF s = true.
Proof. intros Hp. apply all_bytes_impl. intros c Hc. destruct (Ascii.eqb_spec c LF) as [->|]; [congruence|done]. Qed.
Lemma some_byte_append p s t : some_byte p (s +:+ t) = some_byte p s || some_byte p t.
Proof. unfold some_byte. by rewrite bytes_append, existsb_app. Qed.
Lemma some_byte_none p s : some_byte p s = false ↔ all_bytes (λ c, negb (p c)) s = true.
Proof. unfold some_byte, all_bytes. induction (bytes s) as [|c l IH]; [done|]. cbn. rewrite orb_false_iff, andb_true_iff, negb_true_iff. by rewrite IH. Qed.
Lemma no_break_without s : some_byte is_line_break s = false → without LF s = true.
Proof. rewrite some_byte_none. by apply without_LF. Qed.
Lemma Sprint_no_LF z : without LF (Sprint z) = true.
Proof.
  apply (without_LF (λ c, is_digit c || byte_is 45 c)); [done|]. unfold Sprint, all_bytes. rewrite bytes_of_bytes. apply itoa_plain.
Qed.

(** *** Encodings of sized texts *)

Lemma decode_sized_Some n value decoded : decode_sized n value = Some decoded ↔
  has_size n decoded = true ∧ Base64.EncodeToString decoded = TrimSpace value ∧ TrimSpace value ≠ "".
Proof.
  unfold decode_sized. split.
  - destruct (blank (TrimSpace value) || _) eqn:Hb; [done|]. intros (d & Hd & Hv)%bind_Some. destruct (_ && _) eqn:Hs; [|done]. injection Hv as ->.
    apply andb_true_iff in Hs as [? Hs%String.eqb_eq]. apply orb_false_iff in Hb as [Hb%String.eqb_neq _]. done.
  - intros (Hs & He & Hb). rewrite <-He in *. rewrite Base64.DecodeString_EncodeToString. cbn. rewrite Hs, String.eqb_refl.
    replace (blank _) with false by (symmetry; by apply String.eqb_neq). cbn.
    replace (some_byte (byte_is 61) (Base64.EncodeToString decoded)) with false; [done|]. symmetry. apply some_byte_none.
    eapply all_bytes_impl; [|apply Base64.EncodeToString_chars]. by intros [[] [] [] [] [] [] [] []].
Qed.
Lemma encoded_trimmed s : TrimSpace (Base64.EncodeToString s) = Base64.EncodeToString s.
Proof. apply TrimSpace_visible, encoded_plain. Qed.
Lemma decode_encode_sized n value encoded : n ≠ 0%nat → encode_sized n value = Some encoded → decode_sized n encoded = Some value.
Proof.
  unfold encode_sized. intros Hn. destruct (has_size n value) eqn:Hs; [|done]. intros [= <-]. apply decode_sized_Some. rewrite encoded_trimmed. split_and!; [done..|].
  intros He. change "" with (Base64.EncodeToString "") in He. apply Base64.encoded_inj in He as ->. unfold has_size in Hs. apply Nat.eqb_eq in Hs. by destruct n.
Qed.

Section Canonical.
Context {unicode : GoUnicode} {text : UuidText} {shape : UuidShape text} {request_uri : GoRequestURI}.

Lemma uuid_no_LF id : without LF (uuid_text id) = true.
Proof. eapply without_LF; [|apply uuid_text_shape]. done. Qed.
Lemma uuid_no_break id : some_byte is_line_break (uuid_text id) = false.
Proof. apply some_byte_none. eapply all_bytes_impl; [|apply uuid_text_shape]. by intros [[] [] [] [] [] [] [] []]. Qed.
Lemma uuid_trimmed id : TrimSpace (uuid_text id) = uuid_text id.
Proof. apply TrimSpace_visible. eapply all_bytes_impl; [|apply uuid_text_shape]. by intros [[] [] [] [] [] [] [] []]. Qed.
Lemma canonical_identity_text id : canonical_identity (uuid_text id) = if N.eqb id Nil then None else Some id.
Proof. unfold canonical_identity. rewrite FromString_text. cbn. rewrite String.eqb_refl. by rewrite orb_false_r. Qed.
Lemma canonical_identity_Some value id : canonical_identity value = Some id ↔ id ≠ Nil ∧ value = uuid_text id.
Proof.
  split.
  - unfold canonical_identity. intros (x & _ & Hx)%bind_Some. destruct (_ || _) eqn:Hb; [done|]. injection Hx as ->.
    apply orb_false_iff in Hb as [Hn%N.eqb_neq He%negb_false_iff%String.eqb_eq]. done.
  - intros [Hn ->]. rewrite canonical_identity_text. destruct (N.eqb_spec id Nil); done.
Qed.
Lemma some_identity_text id : some_identity (uuid_text id) = if N.eqb id Nil then None else Some id.
Proof. unfold some_identity. rewrite uuid_trimmed, FromString_text. done. Qed.

Definition canonical_fields (id : uuid) (method requestURI : string) (timestamp : Z) (nonce : uuid) (body : string) : list string :=
  [ProtocolVersion; method; uuid_text id; requestURI; Sprint timestamp; uuid_text nonce; hexSum256 body].
Definition fields_valid (instanceID method requestURI : string) (timestamp : Z) (nonce : string) : bool :=
  negb (Z.leb timestamp 0 || some_byte is_line_break (instanceID +:+ method +:+ requestURI +:+ nonce)) &&
  negb (blank (upper_method method) || Nat.ltb 16 (String.length (upper_method method)) || blank requestURI || Nat.ltb 8192 (String.length requestURI) ||
        negb (HasPrefix requestURI "/")) && all_bytes is_upper (upper_method method) && ParseRequestURI requestURI.
Lemma canonicalRequest_Some instanceID method requestURI timestamp nonce body canonical :
  canonicalRequest instanceID method requestURI timestamp nonce body = Some canonical ↔
  ∃ id n, some_identity instanceID = Some id ∧ some_identity nonce = Some n ∧ fields_valid instanceID method requestURI timestamp nonce = true ∧
    canonical = lines (canonical_fields id (upper_method method) requestURI timestamp n body).
Proof.
  unfold canonicalRequest, fields_valid. destruct (some_identity instanceID) as [id|]; cbn [mbind option_bind]; [|naive_solver].
  destruct (Z.leb timestamp 0 || _); cbn [negb andb]; [naive_solver|]. destruct (blank (upper_method method) || _ || _ || _ || _); cbn [negb andb]; [naive_solver|].
  destruct (all_bytes is_upper (upper_method method)); cbn [negb andb]; [|naive_solver]. destruct (ParseRequestURI requestURI); cbn [negb]; [|naive_solver].
  destruct (some_identity nonce) as [n|]; cbn [mbind option_bind]; [|naive_solver]. split; [intros [= <-]; by exists id, n|].
  by intros (id' & n' & [= <-] & [= <-] & _ & ->).
Qed.
Lemma canonical_fields_lines id method requestURI timestamp n body instanceID nonce :
  fields_valid instanceID method requestURI timestamp nonce = true →
  Forall (λ f, without LF f = true) (canonical_fields id (upper_method method) requestURI timestamp n body).
Proof.
  unfold fields_valid. rewrite !andb_true_iff, !negb_true_iff, !orb_false_iff, !some_byte_append, !orb_false_iff.
  intros (((( _ & _ & _ & Hu & _) & _) & Hm) & _). unfold canonical_fields.
  repeat constructor; [by apply (without_LF is_upper)|apply uuid_no_LF|by apply no_break_without|apply Sprint_no_LF|apply uuid_no_LF|]. eapply without_LF, hexSum256_hex. done.
Qed.
End Canonical.
