(* ===== verification/AgentRegistry.v ===== *)
(** * controllers/automation: the registry of agent machines and the authentication of callbacks

    agent_instances.go, agent_callback_auth.go and the parts of gateway.go and
    agent_directory.go they use.  A transaction is atomic; between the verification of a
    callback and its transaction other requests run ([Step]).  HTTP answers are their status;
    the authorization of an operator ([requireAgentPlatformWorkspace]) is an argument,
    [authorized].  A database that is missing or fails is not modelled.  [Facts]: consistent
    registries, what each request makes of one, the fate of a row. *)
From stdpp Require Import base tactics list strings gmap relations.
From Stdlib Require Import Ascii ZArith.
From S2P Require Import Prelude GoStrings Sha256 Json JsonTypes GoJson GoInt PlanStore AccessProof AgentCallback.
From S2P Require Base64.
Open Scope string_scope.

(** ** Tables *)

Record AutomationAgentInstance := {
  Instance_ID : uuid; Instance_AgentKey : string; Instance_MachineID : string; PublicKey : string; Instance_PublicKeyFingerprint : string;
  Instance_Status : string; LastSeenAt : option Z; RevokedAt : option Z; Instance_CreatedAt : Z;
}.
Record AutomationAgentCallbackNonce := { Nonce_InstanceID : uuid; Nonce : string; Nonce_CreatedAt : Z }.
(** Rows in the order they were inserted. *)
Record Registry := { instances : list AutomationAgentInstance; nonces : list AutomationAgentCallbackNonce; agent_profiles : list AutomationAgentProfile }.
Definition with_instances (r : Registry) (l : list AutomationAgentInstance) : Registry :=
  {| instances := l; nonces := nonces r; agent_profiles := agent_profiles r |}.
(** A timestamptz column keeps microseconds. *)
Definition microseconds (t : Z) : Z := t - t mod 1000.

Definition is_active (i : AutomationAgentInstance) : bool := String.eqb (Instance_Status i) "active".
Definition is_machine (agentKey machineID : string) (i : AutomationAgentInstance) : bool :=
  String.eqb (Instance_AgentKey i) agentKey && String.eqb (Instance_MachineID i) machineID.
Definition active_machine (agentKey machineID : string) (i : AutomationAgentInstance) : bool := is_machine agentKey machineID i && is_active i.
Definition find_instance (id : uuid) (r : Registry) : option AutomationAgentInstance := List.find (λ i, N.eqb (Instance_ID i) id) (instances r).
(** A row that breaks no unique index and fits its columns. *)
Definition may_insert (row : AutomationAgentInstance) (r : Registry) : bool :=
  negb (existsb (λ i, N.eqb (Instance_ID i) (Instance_ID row) || active_machine (Instance_AgentKey row) (Instance_MachineID row) i) (instances r)).
Definition fits_columns (row : AutomationAgentInstance) : bool :=
  Nat.leb (String.length (Instance_AgentKey row)) 64 && Nat.leb (String.length (Instance_MachineID row)) 64 &&
  Nat.leb (String.length (PublicKey row)) 64 && Nat.leb (String.length (Instance_PublicKeyFingerprint row)) 80.
Definition insert_instance (row : AutomationAgentInstance) (r : Registry) : Registry := with_instances r (instances r ++ [row]).
Definition update_instance (id : uuid) (f : AutomationAgentInstance → AutomationAgentInstance) (r : Registry) : Registry :=
  with_instances r ((λ i, if N.eqb (Instance_ID i) id then f i else i) <$> instances r).

(** HTTP statuses. *)
Definition StatusBadRequest : Z := 400.
Definition StatusUnauthorized : Z := 401.
Definition StatusForbidden : Z := 403.
Definition StatusNotFound : Z := 404.
Definition StatusConflict : Z := 409.
Definition StatusRequestEntityTooLarge : Z := 413.
Definition StatusInternalServerError : Z := 500.
Notation Answer := (Result Z).

Section Registry.
Context {unicode : GoUnicode} {text : UuidText} {ed25519 : Ed25519} {request_uri : GoRequestURI}.

(** ** Requests of the registry *)

Definition registration_type : gotype := TStruct [(("agent_key", false), TString); (("machine_id", false), TString); (("public_key", false), TString)].
Definition enrollment_type : gotype :=
  TStruct [(("agent_key", false), TString); (("machine_id", false), TString); (("public_key", false), TString); (("signature", false), TString)].
(** [decodeAgentInstanceRequest]: the texts of the members, trimmed by the handlers. *)
Definition decodeAgentInstanceRequest (t : gotype) (body : string) : option (list string) :=
  decoded ← Unmarshal true t body;
  Some ((λ g, TrimSpace (of_go g)) <$> struct_values decoded).
Definition agentProfileKeyPattern (s : string) : bool := re_ident is_lower (λ c, is_lower c || is_digit c || one_of "_-" c) 1 63 s.
Definition findActiveAgentProfile (agentKey : string) (r : Registry) : option AutomationAgentProfile :=
  if negb (agentProfileKeyPattern (TrimSpace agentKey)) then None
  else List.find (λ p, String.eqb (Profile_AgentKey p) (TrimSpace agentKey) && Active p) (agent_profiles r).
Definition active_row (id : uuid) (agentKey machineID publicKey fingerprint : string) (now : Z) : AutomationAgentInstance := {|
  Instance_ID := id; Instance_AgentKey := agentKey; Instance_MachineID := machineID; PublicKey := publicKey;
  Instance_PublicKeyFingerprint := fingerprint; Instance_Status := "active"; LastSeenAt := None; RevokedAt := None; Instance_CreatedAt := now |}.

(** [RegisterAgentInstance]: [id] is the identity the database draws. *)
Definition RegisterAgentInstance (authorized : Answer unit) (id : uuid) (body : string) (now : Z) (r : Registry) : Answer (AutomationAgentInstance * Registry) :=
  _ ← authorized;
  match decodeAgentInstanceRequest registration_type body with
  | Some [agentKey; machineID; publicKey] =>
      _ ← fail_if (negb (agentProfileKeyPattern agentKey)) StatusBadRequest;
      _ ← fail_if (match canonical_identity machineID with Some _ => false | None => true end) StatusBadRequest;
      match DecodePublicKey publicKey ≫= PublicKeyFingerprint with
      | None => Err StatusBadRequest
      | Some fingerprint =>
          match findActiveAgentProfile agentKey r with
          | None => Err StatusBadRequest
          | Some _ =>
              match List.find (active_machine agentKey machineID) (instances r) with
              | Some existing => if negb (String.eqb (PublicKey existing) publicKey) then Err StatusConflict else mret (existing, r)
              | None =>
                  let row := active_row id agentKey machineID publicKey fingerprint now in
                  if may_insert row r && fits_columns row then mret (row, insert_instance row r) else Err StatusInternalServerError
              end
          end
      end
  | _ => Err StatusBadRequest
  end.

(** [RevokeAgentInstance]: [param] is the identity of the path. *)
Definition revoke (now : Z) (i : AutomationAgentInstance) : AutomationAgentInstance := {|
  Instance_ID := Instance_ID i; Instance_AgentKey := Instance_AgentKey i; Instance_MachineID := Instance_MachineID i; PublicKey := PublicKey i;
  Instance_PublicKeyFingerprint := Instance_PublicKeyFingerprint i; Instance_Status := "revoked"; LastSeenAt := LastSeenAt i; RevokedAt := Some now;
  Instance_CreatedAt := Instance_CreatedAt i |}.
Definition RevokeAgentInstance (authorized : Answer unit) (param : string) (now : Z) (r : Registry) : Answer (AutomationAgentInstance * Registry) :=
  _ ← authorized;
  match some_identity param with
  | None => Err StatusBadRequest
  | Some id =>
      match find_instance id r with
      | None => Err StatusNotFound
      | Some instance => if is_active instance then mret (revoke now instance, update_instance id (revoke now) r) else mret (instance, r)
      end
  end.

(** ** Enrollment of a worker (gateway.go, agent_directory.go, agent_instances.go) *)

Record gatewayIdentity := { Gateway_Role : Role; Gateway_Lane : Lane }.
Definition deriveGatewayToken (root : string) (identity : gatewayIdentity) : string :=
  Base64.EncodeToString (Base64.text_of (Base64.Sum root ("itbem-agent-gateway:v1:" +:+ Gateway_Role identity +:+ ":" +:+ Gateway_Lane identity))).
(** [env] is [os.Getenv]; the three headers are [role], [lane] and [token]. *)
Definition gatewayIdentityFromRequest (env : string → string) (role lane token : string) : option gatewayIdentity :=
  let identity := {| Gateway_Role := TrimSpace role; Gateway_Lane := TrimSpace lane |} in
  if negb (IsKnownRoleLane (Gateway_Role identity) (Gateway_Lane identity)) then None
  else
    let provided := TrimSpace token in
    if blank provided then None
    else if existsb (λ name, let root := TrimSpace (env name) in negb (blank root) && String.eqb provided (deriveGatewayToken root identity))
              ["AUTOMATION_CALLBACK_SECRET"; "AUTOMATION_CALLBACK_SECRET_PREVIOUS"] then Some identity
    else None.
Definition allowedOperations : list string := [
  "ai.chat"; "document.analyze"; "code.review"; "product.ideate"; "delivery.chat"; "delivery.plan"; "delivery.implementation"; "delivery.assessment";
  "delivery.onboarding_probe"; "delivery.publish"; "delivery.release_gate"; "delivery.qa"; "delivery.summary"; "delivery.workflow"].
Definition profileOperations (profile : AutomationAgentProfile) : list string :=
  match Unmarshal false (TSlice TString) (OperationsJSON profile) with
  | Some (GSlice (Some values) _) => filter (λ v, one_of_texts allowedOperations v = true) ((λ g, TrimSpace (of_go g)) <$> values)
  | _ => []
  end.
Definition agentProfileSupportsGatewayLane (profile : AutomationAgentProfile) (identity : gatewayIdentity) : bool :=
  existsb (λ operation, match AssignmentForOperation operation with
    | Some a => String.eqb (Assignment_Role a) (Gateway_Role identity) && String.eqb (Assignment_Lane a) (Gateway_Lane identity)
    | None => false
    end) (profileOperations profile).
Definition enroll_row (row : AutomationAgentInstance) (r : Registry) : Answer (AutomationAgentInstance * Registry) :=
  let active := active_machine (Instance_AgentKey row) (Instance_MachineID row) in
  match List.find active (instances r) with
  | Some existing => if negb (String.eqb (PublicKey existing) (PublicKey row)) then Err StatusConflict else mret (existing, r)
  | None =>
      if existsb (is_machine (Instance_AgentKey row) (Instance_MachineID row)) (instances r) then Err StatusConflict
      else if negb (fits_columns row) then Err StatusInternalServerError
      else if may_insert row r then mret (row, insert_instance row r)
      else match List.find active (instances r) with
           | None => Err StatusInternalServerError
           | Some concurrent => if negb (String.eqb (PublicKey concurrent) (PublicKey row)) then Err StatusConflict else mret (concurrent, r)
           end
  end.
Definition EnrollGatewayAgentInstance (gateway : option gatewayIdentity) (id : uuid) (body : string) (now : Z) (r : Registry) :
    Answer (AutomationAgentInstance * Registry) :=
  match gateway with
  | None => Err StatusUnauthorized
  | Some identity =>
      match decodeAgentInstanceRequest enrollment_type body with
      | Some [agentKey; machineID; publicKey; signature] =>
          _ ← fail_if (negb (agentProfileKeyPattern agentKey)) StatusBadRequest;
          _ ← fail_if (match canonical_identity machineID with Some _ => false | None => true end) StatusBadRequest;
          match DecodePublicKey publicKey with
          | None => Err StatusUnauthorized
          | Some key =>
              _ ← fail_if (negb match DecodeSignature signature with
                                | Some signature => VerifyAgentInstanceEnrollment key signature agentKey machineID publicKey
                                | None => false
                                end) StatusUnauthorized;
              match PublicKeyFingerprint key with
              | None => Err StatusBadRequest
              | Some fingerprint =>
                  match findActiveAgentProfile agentKey r with
                  | None => Err StatusForbidden
                  | Some profile =>
                      _ ← fail_if (negb (agentProfileSupportsGatewayLane profile identity)) StatusForbidden;
                      enroll_row (active_row id agentKey machineID publicKey fingerprint now) r
                  end
              end
          end
      | _ => Err StatusBadRequest
      end
  end.

(** ** Callbacks (agent_callback_auth.go) *)

Definition maxSignedAgentCallbackBody : Z := 1048576.
Definition agentCallbackNonceRetention : Z := 300 * Second.
(** [Body] is [None] when it cannot be read; [Method] and [URI] are those of the request line. *)
Record CallbackRequest := { Method : string; URI : string; ContentLength : Z; Body : option string; SignedHeaders : Headers }.
Record authenticatedAgentCallback := { Callback_InstanceID : uuid; Callback_AgentKey : string; Callback_MachineID : string }.
(** A callback whose signature was verified, before its transaction: with the two readings of the clock. *)
Record Verified := {
  V_InstanceID : uuid; V_Nonce : uuid; V_Timestamp : Z; V_Method : string; V_URI : string; V_Body : string; V_Signature : string; V_PublicKey : string;
  registered : AutomationAgentInstance; verified_at : Z; read_at : Z;
}.
Definition verify_callback (c : CallbackRequest) (r : Registry) (verifiedAt readAt : Z) : Answer Verified :=
  _ ← fail_if (Z.ltb maxSignedAgentCallbackBody (ContentLength c)) StatusRequestEntityTooLarge;
  match Body c with
  | None => Err StatusRequestEntityTooLarge
  | Some body =>
      _ ← fail_if (Z.ltb maxSignedAgentCallbackBody (Z.of_nat (String.length body))) StatusRequestEntityTooLarge;
      let headers := SignedHeaders c in
      match canonical_identity (TrimSpace (InstanceIDHeader headers)), ParseInt64 (TrimSpace (TimestampHeader headers)),
            canonical_identity (TrimSpace (NonceHeader headers)), DecodeSignature (SignatureHeader headers) with
      | Some instanceID, Some timestamp, Some nonce, Some signature =>
          _ ← fail_if (Z.leb timestamp 0) StatusUnauthorized;
          match List.find (λ i, N.eqb (Instance_ID i) instanceID && is_active i) (instances r) with
          | None => Err StatusUnauthorized
          | Some registered =>
              match DecodePublicKey (PublicKey registered) with
              | None => Err StatusUnauthorized
              | Some publicKey =>
                  _ ← fail_if (negb (VerifyRequest publicKey signature (uuid_text instanceID) (Method c) (URI c) timestamp (uuid_text nonce) body verifiedAt))
                        StatusUnauthorized;
                  mret {| V_InstanceID := instanceID; V_Nonce := nonce; V_Timestamp := timestamp; V_Method := Method c; V_URI := URI c; V_Body := body;
                          V_Signature := signature; V_PublicKey := publicKey; registered := registered; verified_at := verifiedAt; read_at := readAt |}
              end
          end
      | _, _, _, _ => Err StatusUnauthorized
      end
  end.
(** The transaction. *)
Definition seen (now : Z) (i : AutomationAgentInstance) : AutomationAgentInstance := {|
  Instance_ID := Instance_ID i; Instance_AgentKey := Instance_AgentKey i; Instance_MachineID := Instance_MachineID i; PublicKey := PublicKey i;
  Instance_PublicKeyFingerprint := Instance_PublicKeyFingerprint i; Instance_Status := Instance_Status i; LastSeenAt := Some now;
  RevokedAt := RevokedAt i; Instance_CreatedAt := Instance_CreatedAt i |}.
Definition same_nonce (instanceID : uuid) (nonce : string) (n : AutomationAgentCallbackNonce) : bool :=
  N.eqb (Nonce_InstanceID n) instanceID && String.eqb (Nonce n) nonce.
Definition admit_callback (v : Verified) (r : Registry) : Answer (authenticatedAgentCallback * Registry) :=
  let now := read_at v in
  match find_instance (V_InstanceID v) r with
  | None => Err StatusUnauthorized
  | Some current =>
      _ ← fail_if (negb (is_active current) || negb (String.eqb (PublicKey current) (PublicKey (registered v)))) StatusUnauthorized;
      _ ← fail_if (existsb (same_nonce (V_InstanceID v) (uuid_text (V_Nonce v))) (nonces r)) StatusUnauthorized;
      let record := {| Nonce_InstanceID := V_InstanceID v; Nonce := uuid_text (V_Nonce v); Nonce_CreatedAt := microseconds now |} in
      let r := update_instance (V_InstanceID v) (λ i, if is_active i then seen now i else i) r in
      let kept := filter (λ n, ¬ (Nonce_CreatedAt n < microseconds (now - agentCallbackNonceRetention))%Z) (nonces r ++ [record])%list in
      mret ({| Callback_InstanceID := V_InstanceID v; Callback_AgentKey := Instance_AgentKey (registered v);
               Callback_MachineID := Instance_MachineID (registered v) |},
            {| instances := instances r; nonces := kept; agent_profiles := agent_profiles r |})
  end.
(** The middleware, when nothing else runs between the two. *)
Definition AgentCallbackAuthentication (c : CallbackRequest) (verifiedAt readAt : Z) (r : Registry) : Answer (authenticatedAgentCallback * Registry) :=
  v ← verify_callback c r verifiedAt readAt;
  admit_callback v r.

(** [bindCallbackProfileIdentity]: the identity of the callback, where the body names another or none. *)
Definition currentAgentCallbackIdentity (identity : option authenticatedAgentCallback) : option authenticatedAgentCallback :=
  identity ← identity;
  if N.eqb (Callback_InstanceID identity) Nil || blank (Callback_AgentKey identity) || blank (Callback_MachineID identity) then None else Some identity.
Definition bindCallbackProfileIdentity (identity : option authenticatedAgentCallback) (agentKey machineID : string) : Answer authenticatedAgentCallback :=
  match currentAgentCallbackIdentity identity with
  | None => Err StatusUnauthorized
  | Some identity =>
      let differs (supplied expected : string) := negb (blank supplied) && negb (String.eqb supplied expected) in
      _ ← fail_if (differs (TrimSpace agentKey) (Callback_AgentKey identity)) StatusForbidden;
      _ ← fail_if (differs (TrimSpace machineID) (Callback_MachineID identity)) StatusForbidden;
      mret identity
  end.

(** ** Runs *)

(** Requests at any replicas, on one database and one clock: [clock] is the last reading,
    [waiting] the callbacks between verification and transaction, [admitted] those handed to
    their handlers, the last first.  A transaction runs within [patience] of the verification. *)
Record World := { registry : Registry; clock : Z; waiting : list Verified; admitted : list Verified }.
Inductive Step (patience : Z) (w : World) : World → Prop :=
| step_verify c verifiedAt readAt v : (clock w ≤ verifiedAt ≤ readAt)%Z → verify_callback c (registry w) verifiedAt readAt = Ok v →
    Step patience w {| registry := registry w; clock := readAt; waiting := v :: waiting w; admitted := admitted w |}
| step_admit v before after now identity r : waiting w = (before ++ v :: after)%list → (clock w ≤ now ≤ verified_at v + patience)%Z →
    admit_callback v (registry w) = Ok (identity, r) →
    Step patience w {| registry := r; clock := now; waiting := before ++ after; admitted := v :: admitted w |}
| step_abandon v before after : waiting w = (before ++ v :: after)%list →
    Step patience w {| registry := registry w; clock := clock w; waiting := before ++ after; admitted := admitted w |}
| step_register allowed id body now i r : (clock w ≤ now)%Z → RegisterAgentInstance allowed id body now (registry w) = Ok (i, r) →
    Step patience w {| registry := r; clock := now; waiting := waiting w; admitted := admitted w |}
| step_enroll gateway id body now i r : (clock w ≤ now)%Z → EnrollGatewayAgentInstance gateway id body now (registry w) = Ok (i, r) →
    Step patience w {| registry := r; clock := now; waiting := waiting w; admitted := admitted w |}
| step_revoke allowed param now i r : (clock w ≤ now)%Z → RevokeAgentInstance allowed param now (registry w) = Ok (i, r) →
    Step patience w {| registry := r; clock := now; waiting := waiting w; admitted := admitted w |}.
Definition empty_world (profiles : list AutomationAgentProfile) : World :=
  {| registry := {| instances := []; nonces := []; agent_profiles := profiles |}; clock := 0; waiting := []; admitted := [] |}.
Definition run (patience : Z) (profiles : list AutomationAgentProfile) (w : World) : Prop := rtc (Step patience) (empty_world profiles) w.
End Registry.

Section Facts.
Context {unicode : GoUnicode} {text : UuidText} {shape : UuidShape text} {ed25519 : Ed25519} {request_uri : GoRequestURI}.

(** ** Consistent registries *)

Definition machine_of (i : AutomationAgentInstance) : string * string := (Instance_AgentKey i, Instance_MachineID i).
Definition nonce_key (n : AutomationAgentCallbackNonce) : uuid * string := (Nonce_InstanceID n, Nonce n).
Record well_formed_instance (i : AutomationAgentInstance) : Prop := {
  key_shape : agentProfileKeyPattern (Instance_AgentKey i) = true;
  machine_shape : is_Some (canonical_identity (Instance_MachineID i));
  public_key : ∃ key, DecodePublicKey (PublicKey i) = Some key ∧ PublicKeyFingerprint key = Some (Instance_PublicKeyFingerprint i);
  status : if is_active i then RevokedAt i = None else Instance_Status i = "revoked" ∧ is_Some (RevokedAt i);
}.
Definition active_machines (l : list AutomationAgentInstance) : list (string * string) := machine_of <$> filter (λ i, is_active i = true) l.
Record Consistent (r : Registry) : Prop := {
  ids_once : NoDup (Instance_ID <$> instances r);
  active_once : NoDup (active_machines (instances r));
  all_well_formed : Forall well_formed_instance (instances r);
  nonces_once : NoDup (nonce_key <$> nonces r);
}.

(** What a request of the registry does to it. *)
Inductive Change (r : Registry) : Registry → Prop :=
| unchanged : Change r r
| inserted row : well_formed_instance row → is_active row = true → may_insert row r = true → Change r (insert_instance row r)
| revoked id i now : find_instance id r = Some i → is_active i = true → Change r (update_instance id (revoke now) r).

Lemma find_instance_Some id r i : find_instance id r = Some i → i ∈ instances r ∧ Instance_ID i = id.
Proof. intros [Hi He]%find_some. split; [by apply list_elem_of_In|by apply N.eqb_eq]. Qed.
Lemma active_row_well_formed id agentKey machineID publicKey key fingerprint now :
  agentProfileKeyPattern agentKey = true → match canonical_identity machineID with Some _ => false | None => true end = false →
  DecodePublicKey publicKey = Some key → PublicKeyFingerprint key = Some fingerprint →
  well_formed_instance (active_row id agentKey machineID publicKey fingerprint now).
Proof. intros H1 H2 H3 H4. split; cbn; [done|destruct (canonical_identity machineID); [by eexists|done]|by exists key|done]. Qed.

Lemma RegisterAgentInstance_Ok authorized id body now r i r' : RegisterAgentInstance authorized id body now r = Ok (i, r') →
  authorized = Ok tt ∧ Change r r'.
Proof.
  unfold RegisterAgentInstance. intros ([] & Ha & Hr)%bind_ok. split; [done|]. revert Hr.
  destruct (decodeAgentInstanceRequest _ body) as [[|agentKey [|machineID [|publicKey [|]]]]|]; try done.
  rewrite !fail_if_bind, negb_false_iff. intros (Hk & Hm & Hr). destruct (DecodePublicKey publicKey) as [key|] eqn:Hd; [|done]. cbn in Hr.
  destruct (PublicKeyFingerprint key) as [fingerprint|] eqn:Hf; [|done]. destruct (findActiveAgentProfile agentKey r); [|done].
  destruct (List.find _ (instances r)) as [existing|].
  - destruct (negb _); [done|]. injection Hr as <- <-. constructor.
  - destruct (may_insert _ r) eqn:Hi in Hr; [|done]. destruct (fits_columns _) in Hr; [|done]. injection Hr as <- <-.
    apply inserted; [by eapply active_row_well_formed|done|done].
Qed.
Lemma RevokeAgentInstance_Ok authorized param now r i r' : RevokeAgentInstance authorized param now r = Ok (i, r') → authorized = Ok tt ∧ Change r r'.
Proof.
  unfold RevokeAgentInstance. intros ([] & Ha & Hr)%bind_ok. split; [done|]. destruct (some_identity param) as [id|]; [|done].
  destruct (find_instance id r) as [x|] eqn:Hx; [|done]. destruct (is_active x) eqn:Hactive; injection Hr as <- <-; [by eapply revoked|constructor].
Qed.

(** *** Enrollments *)

Lemma enroll_row_Ok row r i r' : enroll_row row r = Ok (i, r') →
  (r' = r ∧ i ∈ instances r ∧ active_machine (Instance_AgentKey row) (Instance_MachineID row) i = true ∧ PublicKey i = PublicKey row) ∨
  (r' = insert_instance row r ∧ i = row ∧ may_insert row r = true ∧ Forall (λ j, machine_of j ≠ machine_of row) (instances r)).
Proof.
  unfold enroll_row. destruct (List.find _ (instances r)) as [existing|] eqn:Hfind.
  - destruct (negb _) eqn:Hk; [done|]. intros [= <- <-]. left. apply find_some in Hfind as [Hin Ha]. apply negb_false_iff, String.eqb_eq in Hk.
    split_and!; [done|by apply list_elem_of_In|done..].
  - destruct (existsb _ _) eqn:He; [done|]. destruct (negb _); [done|]. destruct (may_insert row r) eqn:Hi; [|done].
    intros [= <- <-]. right. split_and!; [done..|]. apply Forall_forall. intros j Hj Hm. apply not_true_iff_false in He. destruct He. apply existsb_exists.
    exists j. split; [by apply list_elem_of_In|]. unfold is_machine. injection Hm as -> ->. by rewrite !String.eqb_refl.
Qed.
Definition proves_possession (agentKey machineID publicKey : string) : Prop := ∃ key signature message,
  DecodePublicKey publicKey = Some key ∧ AgentInstanceEnrollmentMessage agentKey machineID publicKey = Some message ∧ Verify key message signature = true.
Lemma EnrollGatewayAgentInstance_Ok gateway id body now r i r' : EnrollGatewayAgentInstance gateway id body now r = Ok (i, r') →
  ∃ identity agentKey machineID publicKey profile key fingerprint,
    gateway = Some identity ∧ proves_possession agentKey machineID publicKey ∧
    findActiveAgentProfile agentKey r = Some profile ∧ agentProfileSupportsGatewayLane profile identity = true ∧
    agentProfileKeyPattern agentKey = true ∧ match canonical_identity machineID with Some _ => false | None => true end = false ∧
    DecodePublicKey publicKey = Some key ∧ PublicKeyFingerprint key = Some fingerprint ∧
    enroll_row (active_row id agentKey machineID publicKey fingerprint now) r = Ok (i, r').
Proof.
  unfold EnrollGatewayAgentInstance. destruct gateway as [identity|]; [|done].
  destruct (decodeAgentInstanceRequest _ body) as [[|agentKey [|machineID [|publicKey [|signature [|]]]]]|]; try done.
  rewrite !fail_if_bind, negb_false_iff. intros (Hk & Hm & Hr). destruct (DecodePublicKey publicKey) as [key|] eqn:Hd; [|done].
  rewrite fail_if_bind, negb_false_iff in Hr. destruct Hr as [Hs Hr]. destruct (DecodeSignature signature) as [sig|]; [|done].
  destruct (PublicKeyFingerprint key) as [fingerprint|] eqn:Hf; [|done]. destruct (findActiveAgentProfile agentKey r) as [profile|] eqn:Hp; [|done].
  rewrite fail_if_bind, negb_false_iff in Hr. destruct Hr as [Hl Hr].
  exists identity, agentKey, machineID, publicKey, profile, key, fingerprint. split_and!; try done.
  unfold VerifyAgentInstanceEnrollment in Hs. destruct (AgentInstanceEnrollmentMessage agentKey machineID publicKey) as [message|] eqn:Hmsg; [|done].
  rewrite !andb_true_iff in Hs. exists key, sig, message. naive_solver.
Qed.
Lemma Enroll_Change gateway id body now r i r' : EnrollGatewayAgentInstance gateway id body now r = Ok (i, r') → Change r r'.
Proof.
  intros (identity & agentKey & machineID & publicKey & profile & key & fingerprint & _ & _ & _ & _ & Hk & Hm & Hd & Hf & Hr)%EnrollGatewayAgentInstance_Ok.
  apply enroll_row_Ok in Hr as [[-> _]|(-> & -> & Hi & _)]; [constructor|]. apply inserted; [by eapply active_row_well_formed|done|done].
Qed.

(** *** Callbacks *)

Definition signed_text (v : Verified) : option string :=
  canonicalRequest (uuid_text (V_InstanceID v)) (V_Method v) (V_URI v) (V_Timestamp v) (uuid_text (V_Nonce v)) (V_Body v).
(** The key of a row signed the callback, and its timestamp was near the clock. *)
Record signed_by (row : AutomationAgentInstance) (v : Verified) : Prop := {
  signer_id : Instance_ID row = V_InstanceID v;
  signer_key : DecodePublicKey (PublicKey row) = Some (V_PublicKey v);
  signature_verifies : ∃ message, signed_text v = Some message ∧ Verify (V_PublicKey v) message (V_Signature v) = true;
  near_clock : (Z.abs (V_Timestamp v * Second - verified_at v) ≤ MaxClockSkew)%Z;
}.
Lemma VerifyRequest_true publicKey signature instanceID method requestURI timestamp nonce body now :
  VerifyRequest publicKey signature instanceID method requestURI timestamp nonce body now = true ↔
  ∃ message, canonicalRequest instanceID method requestURI timestamp nonce body = Some message ∧
    has_size PublicKeySize publicKey = true ∧ has_size SignatureSize signature = true ∧ (0 < timestamp)%Z ∧
    (Z.abs (timestamp * Second - now) ≤ MaxClockSkew)%Z ∧ Verify publicKey message signature = true.
Proof.
  unfold VerifyRequest. destruct (canonicalRequest _ _ _ _ _ _) as [message|]; [|naive_solver].
  rewrite !andb_true_iff, negb_true_iff, !orb_false_iff, Z.leb_gt, !Z.ltb_ge. split.
  - intros (((H1 & H2) & (H3 & H4) & H5) & H6). exists message. split_and!; try done. lia.
  - intros (m & [= ->] & H1 & H2 & H3 & H4 & H5). split_and!; try done; lia.
Qed.
Lemma verify_callback_Ok c r verifiedAt readAt v : verify_callback c r verifiedAt readAt = Ok v →
  registered v ∈ instances r ∧ is_active (registered v) = true ∧ signed_by (registered v) v ∧ verified_at v = verifiedAt ∧ read_at v = readAt ∧
  V_Method v = Method c ∧ V_URI v = URI c ∧ Body c = Some (V_Body v).
Proof.
  unfold verify_callback. rewrite fail_if_bind. intros [_ Hv]. destruct (Body c) as [body|]; [|done]. rewrite fail_if_bind in Hv. destruct Hv as [_ Hv].
  destruct (canonical_identity (TrimSpace (InstanceIDHeader _))) as [id|]; [|done]. destruct (ParseInt64 _) as [timestamp|]; [|done].
  destruct (canonical_identity (TrimSpace (NonceHeader _))) as [nonce|]; [|done]. destruct (DecodeSignature _) as [signature|]; [|done].
  rewrite fail_if_bind in Hv. destruct Hv as [_ Hv]. destruct (List.find _ (instances r)) as [row|] eqn:Hrow; [|done].
  destruct (DecodePublicKey (PublicKey row)) as [key|] eqn:Hk; [|done]. rewrite fail_if_bind, negb_false_iff, VerifyRequest_true in Hv.
  destruct Hv as [(message & Hm & _ & _ & _ & Hskew & Hverify) [= <-]]. apply find_some in Hrow as [Hin [Hid Ha]%andb_true_iff]. apply N.eqb_eq in Hid.
  cbn. split_and!; try done; [by apply list_elem_of_In|]. split; cbn; [done|done| |done]. by exists message.
Qed.
Definition nonce_record (v : Verified) : AutomationAgentCallbackNonce :=
  {| Nonce_InstanceID := V_InstanceID v; Nonce := uuid_text (V_Nonce v); Nonce_CreatedAt := microseconds (read_at v) |}.
Definition see (now : Z) (i : AutomationAgentInstance) : AutomationAgentInstance := if is_active i then seen now i else i.
Definition is_kept (now : Z) (n : AutomationAgentCallbackNonce) : Prop := ¬ (Nonce_CreatedAt n < microseconds (now - agentCallbackNonceRetention))%Z.
#[export] Instance is_kept_dec now n : Decision (is_kept now n) := _.
Lemma admit_callback_Ok v r identity r' : admit_callback v r = Ok (identity, r') ↔
  ∃ current, find_instance (V_InstanceID v) r = Some current ∧ is_active current = true ∧ PublicKey current = PublicKey (registered v) ∧
    (V_InstanceID v, uuid_text (V_Nonce v)) ∉ nonce_key <$> nonces r ∧
    identity = {| Callback_InstanceID := V_InstanceID v; Callback_AgentKey := Instance_AgentKey (registered v);
                  Callback_MachineID := Instance_MachineID (registered v) |} ∧
    r' = {| instances := instances (update_instance (V_InstanceID v) (see (read_at v)) r);
            nonces := filter (is_kept (read_at v)) (nonces r ++ [nonce_record v])%list; agent_profiles := agent_profiles r |}.
Proof.
  unfold admit_callback. destruct (find_instance (V_InstanceID v) r) as [current|]; [|naive_solver].
  assert (existsb (same_nonce (V_InstanceID v) (uuid_text (V_Nonce v))) (nonces r) = false ↔ (V_InstanceID v, uuid_text (V_Nonce v)) ∉ nonce_key <$> nonces r) as Hn.
  { rewrite <-not_true_iff_false, existsb_exists, list_elem_of_fmap. unfold same_nonce, nonce_key. setoid_rewrite list_elem_of_In.
    setoid_rewrite andb_true_iff. setoid_rewrite N.eqb_eq. setoid_rewrite String.eqb_eq. split; intros Hn (n & H); apply Hn; exists n.
    - destruct H as [[= <- <-] ?]. done.
    - destruct H as (? & -> & ->). done. }
  rewrite !fail_if_bind, orb_false_iff, !negb_false_iff, String.eqb_eq, Hn. cbn. split.
  - intros ((H1 & H2) & H3 & [= <- <-]). by exists current.
  - intros (? & [= <-] & H1 & H2 & H3 & -> & ->). done.
Qed.

(** *** Updates of one row *)

Definition update_row (id : uuid) (f : AutomationAgentInstance → AutomationAgentInstance) (i : AutomationAgentInstance) : AutomationAgentInstance :=
  if N.eqb (Instance_ID i) id then f i else i.
(** What no update changes, and that nothing changes a revoked row. *)
Record later (i i' : AutomationAgentInstance) : Prop := {
  later_id : Instance_ID i' = Instance_ID i;
  later_key : PublicKey i' = PublicKey i;
  later_machine : machine_of i' = machine_of i;
  later_inactive : is_active i = false → i' = i;
}.
#[export] Instance later_preorder : PreOrder later.
Proof.
  split; [by intros i; split|]. intros i j k [H1 H2 H3 H4] [H5 H6 H7 H8]. split; [congruence..|]. intros Ha. rewrite <-(H4 Ha). apply H8. by rewrite (H4 Ha).
Qed.
Record row_update (f : AutomationAgentInstance → AutomationAgentInstance) : Prop := {
  update_keeps i : Instance_ID (f i) = Instance_ID i ∧ PublicKey (f i) = PublicKey i ∧ machine_of (f i) = machine_of i;
  update_revives i : is_active (f i) = true → is_active i = true;
  update_shape i : is_active i = true → well_formed_instance i → well_formed_instance (f i);
}.
Lemma revoke_update now : row_update (revoke now).
Proof. split; [done|done|]. intros i Ha [H1 H2 H3 H4]. by split. Qed.
Lemma see_update now : row_update (see now).
Proof.
  split; unfold see; intros i.
  - by destruct (is_active i).
  - destruct (is_active i) eqn:Ha; [done|by rewrite Ha].
  - intros Ha [H1 H2 H3 H4]. rewrite Ha in *. split; try done. unfold is_active in *. cbn. by rewrite Ha.
Qed.
Lemma update_row_ids id f (l : list AutomationAgentInstance) : row_update f → Instance_ID <$> (update_row id f <$> l) = Instance_ID <$> l.
Proof. intros Hf. rewrite <-list_fmap_compose. apply list_fmap_ext. intros k i _. cbn. unfold update_row. destruct (N.eqb _ _); [apply (update_keeps f Hf i)|done]. Qed.
Lemma update_row_active id f l : row_update f → sublist (active_machines (update_row id f <$> l)) (active_machines l).
Proof.
  intros Hf. unfold active_machines. induction l as [|i l IH]; [done|]. rewrite fmap_cons, !filter_cons.
  assert (is_active (update_row id f i) = true → is_active i = true) as Ha.
  { unfold update_row. destruct (N.eqb _ _); [apply (update_revives f Hf)|done]. }
  assert (machine_of (update_row id f i) = machine_of i) as Hm by (unfold update_row; destruct (N.eqb _ _); [apply (update_keeps f Hf)|done]).
  destruct (decide (is_active (update_row id f i) = true)) as [H|H].
  - rewrite decide_True by auto. rewrite !fmap_cons, Hm. by constructor.
  - destruct (decide (is_active i = true)); [rewrite fmap_cons; by constructor|done].
Qed.
Lemma find_update_row id f l id' : row_update f →
  List.find (λ i, N.eqb (Instance_ID i) id') (update_row id f <$> l) = update_row id f <$> List.find (λ i, N.eqb (Instance_ID i) id') l.
Proof.
  intros Hf. induction l as [|i l IH]; [done|]. rewrite fmap_cons. cbn [List.find].
  assert (Instance_ID (update_row id f i) = Instance_ID i) as -> by (unfold update_row; destruct (N.eqb _ _); [apply (update_keeps f Hf)|done]).
  by destruct (N.eqb (Instance_ID i) id').
Qed.
Lemma update_well_formed id f l : row_update f → (∀ i, i ∈ l → Instance_ID i = id → is_active i = true ∨ f i = i) →
  Forall well_formed_instance l → Forall well_formed_instance (update_row id f <$> l).
Proof.
  intros Hf Ha. rewrite Forall_fmap, !Forall_forall. intros Hl i Hi. cbn. unfold update_row. destruct (N.eqb_spec (Instance_ID i) id) as [Hid|]; [|by apply Hl].
  destruct (Ha i Hi Hid) as [H| ->]; [|by apply Hl]. apply (update_shape f Hf); [done|by apply Hl].
Qed.
Lemma found_is_only id r i : NoDup (Instance_ID <$> instances r) → find_instance id r = Some i → ∀ j, j ∈ instances r → Instance_ID j = id → j = i.
Proof.
  intros Hnd [Hi Hid]%find_instance_Some j Hj Hjd. apply list_elem_of_lookup in Hi as [m Hm], Hj as [n Hn].
  assert (m = n) as <-; [|congruence]. eapply (NoDup_lookup _ _ _ id Hnd); rewrite list_lookup_fmap; [rewrite Hm|rewrite Hn]; cbn; congruence.
Qed.
Lemma update_Consistent r id f ns : row_update f → Consistent r → NoDup (nonce_key <$> ns) →
  (∀ i, i ∈ instances r → Instance_ID i = id → is_active i = true ∨ f i = i) →
  Consistent {| instances := update_row id f <$> instances r; nonces := ns; agent_profiles := agent_profiles r |}.
Proof.
  intros Hf [H1 H2 H3 _] Hns Ha. split; cbn; [by rewrite update_row_ids| |by apply update_well_formed|done].
  eapply sublist_NoDup; [done|by apply update_row_active].
Qed.

Lemma may_insert_spec row r : may_insert row r = true ↔ Instance_ID row ∉ Instance_ID <$> instances r ∧ machine_of row ∉ active_machines (instances r).
Proof.
  unfold may_insert. rewrite negb_true_iff, <-not_true_iff_false, existsb_exists. split.
  - intros Hn. split; intros (i & He & Hi)%list_elem_of_fmap; apply Hn; exists i.
    + split; [by apply list_elem_of_In|]. by rewrite He, N.eqb_refl.
    + apply list_elem_of_filter in Hi as [Ha Hi]. split; [by apply list_elem_of_In|]. injection He as -> ->.
      unfold active_machine, is_machine. by rewrite !String.eqb_refl, Ha, orb_true_r.
  - intros [Hn1 Hn2] (i & Hi%list_elem_of_In & [He%N.eqb_eq|Hm]%orb_true_iff).
    + apply Hn1. apply list_elem_of_fmap. by exists i.
    + apply Hn2. apply list_elem_of_fmap. exists i. unfold active_machine, is_machine in Hm. rewrite !andb_true_iff, !String.eqb_eq in Hm.
      destruct Hm as [[H1 H2] Ha]. split; [unfold machine_of; congruence|by apply list_elem_of_filter].
Qed.
Lemma Change_Consistent r r' : Change r r' → Consistent r → Consistent r'.
Proof.
  intros [|row Hw Ha [Hid Hm]%may_insert_spec|id i now Hi Ha]; [done|intros [H1 H2 H3 H4]; split; cbn; [| |apply Forall_app; split; [done|by apply Forall_singleton]|done]|].
  - rewrite fmap_app. apply NoDup_app. split; [done|]. split; [|by apply NoDup_singleton]. by intros x Hx ->%list_elem_of_singleton.
  - unfold active_machines. rewrite filter_app, filter_cons, decide_True, filter_nil, fmap_app by done. apply NoDup_app.
    split; [done|]. split; [|by apply NoDup_singleton]. by intros x Hx ->%list_elem_of_singleton.
  - intros Hc. apply (update_Consistent r id (revoke now) (nonces r)); [apply revoke_update|done|apply Hc|]. intros j Hj Hjd. left.
    by rewrite (found_is_only id r i (ids_once r Hc) Hi j Hj Hjd).
Qed.
Lemma admit_Consistent v r identity r' : admit_callback v r = Ok (identity, r') → Consistent r → Consistent r'.
Proof.
  intros (current & _ & _ & _ & Hn & _ & ->)%admit_callback_Ok Hc. apply update_Consistent; [apply see_update|done| |].
  - eapply sublist_NoDup; [|apply fmap_sublist, sublist_filter]. rewrite fmap_app. apply NoDup_app. split; [apply Hc|]. split; [|by apply NoDup_singleton].
    by intros x Hx ->%list_elem_of_singleton.
  - intros i _ _. unfold see. destruct (is_active i); auto.
Qed.

(** *** The fate of a row *)

Lemma updated_later id f id' r i : row_update f → (Instance_ID i = id → is_active i = true ∨ f i = i) → find_instance id' r = Some i →
  later i (update_row id f i) ∧ List.find (λ i, N.eqb (Instance_ID i) id') (update_row id f <$> instances r) = Some (update_row id f i).
Proof.
  intros Hf Ha Hi. split; [|rewrite find_update_row by done; unfold find_instance in Hi; by rewrite Hi]. unfold update_row.
  destruct (N.eqb_spec (Instance_ID i) id) as [Hid|]; [|done]. destruct (update_keeps f Hf i) as (H1 & H2 & H3). split; [done..|].
  intros Hin. destruct (Ha Hid); [congruence|done].
Qed.
Lemma Change_later r r' id i : Change r r' → Consistent r → find_instance id r = Some i → ∃ i', find_instance id r' = Some i' ∧ later i i'.
Proof.
  intros [|row _ _ _|id' j now Hj Ha] Hc Hi; [by exists i| |].
  - exists i. split; [|done]. unfold find_instance in *. cbn. revert Hi. induction (instances r) as [|x l IH]; [done|]. cbn. destruct (N.eqb _ _); [done|apply IH].
  - destruct (updated_later id' (revoke now) id r i (revoke_update now)) as [Hl Hf]; [|done|by exists (update_row id' (revoke now) i)]. intros Hid. left.
    apply find_instance_Some in Hi as [Hi _]. by rewrite (found_is_only id' r j (ids_once r Hc) Hj i Hi Hid).
Qed.
Lemma admit_later v r identity r' id i : admit_callback v r = Ok (identity, r') → find_instance id r = Some i →
  ∃ i', find_instance id r' = Some i' ∧ later i i'.
Proof.
  intros (current & _ & _ & _ & _ & _ & ->)%admit_callback_Ok Hi.
  destruct (updated_later (V_InstanceID v) (see (read_at v)) id r i (see_update _)) as [Hl Hf]; [|done|by eexists]. intros _. unfold see. destruct (is_active i); auto.
Qed.
End Facts.
