(* ===== verification/AgentTheorems.v ===== *)
(** * Agent machines: what the registry and its callbacks promise

    What holds along every run ([World_ok]), the reading of signed headers, the properties and
    an example with a toy signature scheme. *)
From stdpp Require Import base tactics list strings gmap relations.
From Stdlib Require Import Ascii ZArith.
From S2P Require Import Prelude GoStrings Sha256 Json JsonTypes GoInt PlanStore AccessProof PreviewToken AgentCallback AgentRegistry.
From S2P Require Base64.
Open Scope string_scope.

Section Agents.
Context {unicode : GoUnicode} {text : UuidText} {shape : UuidShape text} {ed25519 : Ed25519} {request_uri : GoRequestURI}.

(** ** Runs *)

(** What a signed text names, besides the method, the URI and the body. *)
Definition request_key (v : Verified) : uuid * uuid * Z := (V_InstanceID v, V_Nonce v, V_Timestamp v).
Definition safe_patience : Z := agentCallbackNonceRetention - 2 * MaxClockSkew.
Definition timed (now : Z) (v : Verified) : Prop := (verified_at v ≤ read_at v ≤ now)%Z.
(** The record of a callback is kept until it is too old. *)
Definition remembered (now : Z) (ns : list AutomationAgentCallbackNonce) (v : Verified) : Prop :=
  nonce_record v ∈ ns ∨ (microseconds (read_at v) < microseconds (now - agentCallbackNonceRetention))%Z.
Definition has_signer (r : Registry) (v : Verified) : Prop := ∃ row, find_instance (V_InstanceID v) r = Some row ∧ signed_by row v.
Record World_ok (patience : Z) (w : World) : Prop := {
  world_registry : Consistent (registry w);
  world_waiting : Forall (λ v, signed_by (registered v) v ∧ timed (clock w) v) (waiting w);
  world_admitted : Forall (λ v, has_signer (registry w) v ∧ timed (clock w) v ∧ remembered (clock w) (nonces (registry w)) v) (admitted w);
  world_once : (patience ≤ safe_patience)%Z → NoDup (request_key <$> admitted w);
}.

Lemma microseconds_mono s t : (s ≤ t)%Z → (microseconds s ≤ microseconds t)%Z.
Proof. unfold microseconds. intros Hst. pose proof (Z.div_le_mono s t 1000 ltac:(lia) Hst). rewrite !Z.mod_eq by lia. lia. Qed.
Lemma microseconds_le t : (microseconds t ≤ t)%Z.
Proof. unfold microseconds. pose proof (Z.mod_pos_bound t 1000). lia. Qed.
Lemma microseconds_id k : microseconds (k * 1000) = (k * 1000)%Z.
Proof. unfold microseconds. rewrite Z.mod_mul by lia. lia. Qed.

Lemma later_signed row row' v : later row row' → signed_by row v → signed_by row' v.
Proof. intros [H1 H2 H3 H4] [? ? ? ?]. split; congruence. Qed.
Lemma has_signer_stays r r' v : (∀ id i, find_instance id r = Some i → ∃ i', find_instance id r' = Some i' ∧ later i i') → has_signer r v → has_signer r' v.
Proof. intros Hl (row & Hf & Hs). destruct (Hl _ _ Hf) as (row' & Hf' & Hr). exists row'. split; [done|by eapply later_signed]. Qed.
Lemma remembered_later now now' ns v : (now ≤ now')%Z → remembered now ns v → remembered now' ns v.
Proof. intros Hn [H|H]; [by left|right]. eapply Z.lt_le_trans, microseconds_mono; [done|]. lia. Qed.

Lemma Change_nonces r r' : Change r r' → nonces r' = nonces r.
Proof. by intros []. Qed.
Lemma Change_World_ok p w r now : (clock w ≤ now)%Z → Change (registry w) r → World_ok p w →
  World_ok p {| registry := r; clock := now; waiting := waiting w; admitted := admitted w |}.
Proof.
  intros Hn Hr [H1 H2 H3 H4]. split; cbn; [by eapply Change_Consistent| | |done].
  - eapply Forall_impl; [done|]. intros v [? ?]. split; [done|unfold timed in *; lia].
  - eapply Forall_impl; [done|]. intros v (Hs & Ht & Hm). split_and!; [|unfold timed in *; lia|rewrite (Change_nonces _ _ Hr); by eapply remembered_later].
    eapply has_signer_stays; [|done]. intros id i Hi. by eapply Change_later.
Qed.
(** The record of an earlier callback with this key would still be there. *)
Lemma replay_is_late p now u v row ns : (p ≤ safe_patience)%Z → request_key u = request_key v → signed_by row u → signed_by (registered v) v →
  timed now u → remembered now ns u → (now ≤ verified_at v + p)%Z → nonce_record u ∈ ns.
Proof.
  intros Hp Hk [_ _ _ Hu] [_ _ _ Hv] [Ht1 Ht2] [|Hm] Hn; [done|exfalso]. injection Hk as _ _ Hts. rewrite Hts in Hu.
  pose proof (microseconds_le (now - agentCallbackNonceRetention)).
  assert (V_Timestamp v * Second - MaxClockSkew ≤ microseconds (read_at u))%Z as Hr.
  { etrans; [|apply (microseconds_mono (V_Timestamp v * Second - MaxClockSkew)); unfold MaxClockSkew in *; lia].
    replace (V_Timestamp v * Second - MaxClockSkew)%Z with ((V_Timestamp v * 1000000 - 90 * 1000000) * 1000)%Z by (unfold MaxClockSkew, Second; lia).
    by rewrite microseconds_id. }
  unfold safe_patience, agentCallbackNonceRetention, MaxClockSkew, Second in *. lia.
Qed.
Lemma admit_World_ok p w v before after now identity r : waiting w = (before ++ v :: after)%list → (clock w ≤ now ≤ verified_at v + p)%Z →
  admit_callback v (registry w) = Ok (identity, r) → World_ok p w →
  World_ok p {| registry := r; clock := now; waiting := before ++ after; admitted := v :: admitted w |}.
Proof.
  intros Hw Hn Ha [H1 H2 H3 H4]. rewrite Hw in H2. apply Forall_app in H2 as [Hb [[Hv Htv] Haf]%Forall_cons]. pose proof Ha as Hok.
  apply admit_callback_Ok in Hok as (current & Hcur & Hact & Hkey & Hfresh & _ & Hr).
  assert (nonces r = filter (is_kept (read_at v)) (nonces (registry w) ++ [nonce_record v])%list) as Hns by by rewrite Hr.
  assert (∀ id i, find_instance id (registry w) = Some i → ∃ i', find_instance id r = Some i' ∧ later i i') as Hl by (intros; by eapply admit_later).
  assert (∀ u, timed (clock w) u ∨ u = v → nonce_record u ∈ (nonces (registry w) ++ [nonce_record v])%list → remembered now (nonces r) u) as Hrem.
  { intros u _ Hu. destruct (decide (is_kept (read_at v) (nonce_record u))) as [Hk|Hk]; [left; rewrite Hns; by apply list_elem_of_filter|right].
    unfold is_kept in Hk. cbn in Hk. apply dec_stable in Hk. eapply Z.lt_le_trans; [done|]. apply microseconds_mono. unfold timed in Htv. lia. }
  split; cbn; [by eapply admit_Consistent| | |].
  - apply Forall_app. split; eapply Forall_impl; try done; intros u [? ?]; (split; [done|unfold timed in *; lia]).
  - constructor.
    + split_and!; [|unfold timed in *; lia|apply Hrem; [by right|]; apply elem_of_app; right; by left].
      destruct (Hl _ _ Hcur) as (row & Hrow & Hlater). exists row. split; [done|]. apply (later_signed current); [done|].
      apply find_instance_Some in Hcur as [_ Hid]. destruct Hv as [? ? ? ?]. split; [done|congruence|done|done].
    + eapply Forall_impl; [done|]. intros u (Hs & Ht & Hm). split_and!; [by eapply has_signer_stays|unfold timed in *; lia|].
      destruct Hm as [Hm|Hm]; [apply Hrem; [by left|]; apply elem_of_app; by left|]. right. eapply Z.lt_le_trans; [done|]. apply microseconds_mono. lia.
  - intros Hp. apply NoDup_cons. split; [|by apply H4]. intros (u & Hk & Hu)%list_elem_of_fmap. rewrite Forall_forall in H3.
    destruct (H3 u Hu) as ((row & _ & Hs) & Ht & Hm). apply Hfresh. apply list_elem_of_fmap. exists (nonce_record u).
    assert (nonce_record u ∈ nonces (registry w)) as Hin by (eapply (replay_is_late p (clock w) u v row); [done|done|done|done|done|done|lia]).
    injection Hk as Hk1 Hk2 _. split; [|done]. unfold nonce_key. cbn. by rewrite Hk1, Hk2.
Qed.
Lemma Step_World_ok p w w' : Step p w w' → World_ok p w → World_ok p w'.
Proof.
  intros [c va ra v Hc Hv|v before after now identity r Hw Hn Ha|v before after Hw|authorized id body now i r Hn Hr|gateway id body now i r Hn Hr|authorized param now i r Hn Hr] Hok.
  - destruct Hok as [H1 H2 H3 H4]. destruct (verify_callback_Ok _ _ _ _ _ Hv) as (_ & _ & Hs & Hva & Hra & _). split; cbn; [done| | |done].
    + constructor; [split; [done|unfold timed; lia]|]. eapply Forall_impl; [done|]. intros u [? ?]. split; [done|unfold timed in *; lia].
    + eapply Forall_impl; [done|]. intros u (? & ? & ?). split_and!; [done|unfold timed in *; lia|eapply remembered_later; [|done]; lia].
  - by eapply admit_World_ok.
  - destruct Hok as [H1 H2 H3 H4]. rewrite Hw in H2. apply Forall_app in H2 as [Hb [_ Haf]%Forall_cons]. split; cbn; [done|by apply Forall_app|done|done].
  - apply RegisterAgentInstance_Ok in Hr as [_ Hr]. by apply Change_World_ok.
  - apply Enroll_Change in Hr. by apply Change_World_ok.
  - apply RevokeAgentInstance_Ok in Hr as [_ Hr]. by apply Change_World_ok.
Qed.
Lemma run_World_ok p profiles w : run p profiles w → World_ok p w.
Proof.
  unfold run. apply (rtc_ind_r (World_ok p)); [|intros; by eapply Step_World_ok].
  split; cbn; [split; cbn; [apply NoDup_nil_2|apply NoDup_nil_2|done|apply NoDup_nil_2]|done|done|intros _; apply NoDup_nil_2].
Qed.

(** ** Signed texts *)

Lemma canonical_texts_equal instanceID method requestURI timestamp nonce body instanceID' method' requestURI' timestamp' nonce' body' message :
  canonicalRequest instanceID method requestURI timestamp nonce body = Some message →
  canonicalRequest instanceID' method' requestURI' timestamp' nonce' body' = Some message →
  some_identity instanceID = some_identity instanceID' ∧ upper_method method = upper_method method' ∧ requestURI = requestURI' ∧
  timestamp = timestamp' ∧ some_identity nonce = some_identity nonce' ∧ hexSum256 body = hexSum256 body'.
Proof.
  intros (id & n & Hi & Hn & Hv & ->)%canonicalRequest_Some (id' & n' & Hi' & Hn' & Hv' & Heq)%canonicalRequest_Some.
  apply lines_inj in Heq; [|done|done|by eapply canonical_fields_lines|by eapply canonical_fields_lines].
  injection Heq as Hm Hid%uuid_text_inj Hu Ht%Sprint_inj Hnonce%uuid_text_inj Hb. subst. rewrite Hi, Hn. done.
Qed.
Lemma signed_texts_equal row row' u v : signed_by row u → signed_by row' v → signed_text u = signed_text v → request_key u = request_key v.
Proof.
  intros [_ _ (mu & Hu & _) _] [_ _ (mv & Hv & _) _] Heq. assert (mv = mu) as -> by congruence. unfold signed_text in Hu, Hv.
  destruct (canonical_texts_equal _ _ _ _ _ _ _ _ _ _ _ _ _ Hu Hv) as (Hi & _ & _ & Ht & Hn & _). rewrite !some_identity_text in Hi, Hn.
  apply canonicalRequest_Some in Hu as (? & ? & Hiu & Hnu & _), Hv as (? & ? & Hiv & Hnv & _). rewrite some_identity_text in Hiu, Hnu, Hiv, Hnv.
  unfold request_key. repeat (destruct (N.eqb _ Nil)); try done. congruence.
Qed.
(** The headers of a signed request are read back. *)
Lemma read_headers identity id method uri body now nonce headers : (now / Second ≤ maxInt64)%Z →
  newSignedRequest identity (uuid_text id) method uri body now nonce = Some headers →
  ∃ message, canonicalRequest (uuid_text id) method uri (now / Second) (uuid_text nonce) body = Some message ∧ (0 < now / Second)%Z ∧
    canonical_identity (TrimSpace (InstanceIDHeader headers)) = Some id ∧ canonical_identity (TrimSpace (NonceHeader headers)) = Some nonce ∧
    ParseInt64 (TrimSpace (TimestampHeader headers)) = Some (now / Second)%Z ∧
    DecodeSignature (SignatureHeader headers) = Some (Sign (privateKey identity) message).
Proof.
  intros Hmax. unfold newSignedRequest, SignRequest. destruct (_ || _) eqn:Hb; [done|]. apply orb_false_iff in Hb as [Hk%negb_false_iff _]. rewrite Hk. cbn [negb].
  intros (signature & Hs & (encoded & He & [= <-])%bind_Some)%bind_Some. apply bind_Some in Hs as (message & Hm & [= <-]). exists message.
  pose proof Hm as (id' & n' & Hi & Hn & Hv & _)%canonicalRequest_Some. rewrite some_identity_text in Hi, Hn. cbn [InstanceIDHeader NonceHeader TimestampHeader SignatureHeader]. rewrite !uuid_trimmed, !canonical_identity_text.
  unfold fields_valid in Hv. rewrite !andb_true_iff, negb_true_iff, orb_false_iff, Z.leb_gt in Hv. destruct Hv as [[[[Hpos _] _] _] _].
  split_and!; [done|done|by destruct (N.eqb id Nil)|by destruct (N.eqb nonce Nil)| |by eapply decode_encode_sized].
  rewrite TrimSpace_visible, ParseInt64_Sprint; [done|unfold is_int64, maxInt64 in *; lia|]. unfold Sprint, all_bytes. rewrite bytes_of_bytes.
  pose proof (itoa_plain (now / Second)) as Hp. revert Hp. rewrite !forallb_forall. intros Hp c Hc. specialize (Hp c Hc). revert Hp. by destruct c as [[] [] [] [] [] [] [] []].
Qed.

Lemma Step_keeps_revoked p s s' i : Step p s s' → World_ok p s → find_instance (Instance_ID i) (registry s) = Some i → is_active i = false →
  find_instance (Instance_ID i) (registry s') = Some i ∧ ∃ l, admitted s' = (l ++ admitted s)%list ∧ Forall (λ v, V_InstanceID v ≠ Instance_ID i) l.
Proof.
  intros Hstep Hok Hf Ha.
  assert (∀ r, Change (registry s) r → find_instance (Instance_ID i) r = Some i) as Hchange.
  { intros r Hr. destruct (Change_later _ _ _ _ Hr (world_registry _ _ Hok) Hf) as (i' & Hf' & Hl). by rewrite (later_inactive _ _ Hl Ha) in Hf'. }
  destruct Hstep as [c va ra v Hc Hv|v before after now identity r Hw Hn Hr|v before after Hw|authorized id body now j r Hn Hr|gateway id body now j r Hn Hr|
    authorized param now j r Hn Hr]; cbn.
  - split; [done|by exists []].
  - pose proof Hr as (current & Hcur & Hact & _)%admit_callback_Ok. destruct (admit_later _ _ _ _ _ _ Hr Hf) as (i' & Hf' & Hl).
    rewrite (later_inactive _ _ Hl Ha) in Hf'. split; [done|]. exists [v]. split; [done|]. apply Forall_singleton. intros Hid. rewrite Hid in Hcur. congruence.
  - split; [done|by exists []].
  - apply RegisterAgentInstance_Ok in Hr as [_ Hr]. split; [by apply Hchange|by exists []].
  - apply Enroll_Change in Hr. split; [by apply Hchange|by exists []].
  - apply RevokeAgentInstance_Ok in Hr as [_ Hr]. split; [by apply Hchange|by exists []].
Qed.

(** What the middleware makes of a signed request. *)
Lemma found_active id r row : find_instance id r = Some row → is_active row = true → List.find (λ i, N.eqb (Instance_ID i) id && is_active i) (instances r) = Some row.
Proof.
  unfold find_instance. induction (instances r) as [|x l IH]; [done|]. cbn. destruct (N.eqb (Instance_ID x) id) eqn:Hx; [|done]. intros [= ->] ->. done.
Qed.
Lemma verified_request identity id row method uri body now nonce headers verifiedAt readAt r :
  generated (privateKey identity) = true → find_instance id r = Some row → is_active row = true →
  DecodePublicKey (PublicKey row) = Some (Public (privateKey identity)) → (now / Second ≤ maxInt64)%Z →
  newSignedRequest identity (uuid_text id) method uri body now nonce = Some headers →
  (Z.of_nat (String.length body) ≤ maxSignedAgentCallbackBody)%Z → (Z.abs (now / Second * Second - verifiedAt) ≤ MaxClockSkew)%Z →
  ∃ v, verify_callback {| Method := method; URI := uri; ContentLength := Z.of_nat (String.length body); Body := Some body; SignedHeaders := headers |}
         r verifiedAt readAt = Ok v ∧ V_InstanceID v = id ∧ V_Nonce v = nonce ∧ registered v = row ∧ read_at v = readAt.
Proof.
  intros Hg Hf Ha Hk Hmax Hnew Hlen Hskew. destruct (read_headers _ _ _ _ _ _ _ _ Hmax Hnew) as (message & Hm & Hpos & Hi & Hn & Ht & Hs).
  eexists. split; [|split; [|split; [|split]]].
  - unfold verify_callback. cbn [ContentLength Body SignedHeaders Method URI]. rewrite Hi, Hn, Ht, Hs, (found_active _ _ _ Hf Ha), Hk, !fail_if_bind.
    split; [lia|]. split; [lia|]. split; [lia|]. split; [|reflexivity]. apply negb_false_iff, VerifyRequest_true. exists message.
    unfold has_size, PublicKeySize, SignatureSize. rewrite Public_size, Sign_size by (by apply generated_size). split_and!; [done..|]. by apply Verify_Sign.
  - done.
  - done.
  - done.
  - done.
Qed.
Lemma replay_refused identity id method uri body now nonce headers verifiedAt readAt r :
  (now / Second ≤ maxInt64)%Z → newSignedRequest identity (uuid_text id) method uri body now nonce = Some headers →
  (Z.of_nat (String.length body) ≤ maxSignedAgentCallbackBody)%Z → (id, uuid_text nonce) ∈ nonce_key <$> nonces r →
  AgentCallbackAuthentication {| Method := method; URI := uri; ContentLength := Z.of_nat (String.length body); Body := Some body; SignedHeaders := headers |}
    verifiedAt readAt r = Err StatusUnauthorized.
Proof.
  intros Hmax Hnew Hlen Hused. destruct (read_headers _ _ _ _ _ _ _ _ Hmax Hnew) as (message & _ & Hpos & Hi & Hn & Ht & Hs).
  unfold AgentCallbackAuthentication, verify_callback. cbn [ContentLength Body SignedHeaders Method URI]. rewrite Hi, Hn, Ht, Hs.
  destruct (Z.ltb_spec maxSignedAgentCallbackBody (Z.of_nat (String.length body))); [lia|]. destruct (Z.leb_spec (now / Second) 0); [lia|].
  cbn [fail_if mbind result_mbind result_bind]. destruct (List.find _ (instances r)) as [row|]; [|done]. destruct (DecodePublicKey (PublicKey row)) as [key|]; [|done].
  destruct (VerifyRequest _ _ _ _ _ _ _ _ _); [|done]. cbn [negb fail_if mbind result_mbind result_bind mret result_mret].
  unfold admit_callback. cbn [V_InstanceID V_Nonce]. destruct (find_instance id r) as [current|]; [|done]. destruct (_ || _); [done|].
  replace (existsb _ (nonces r)) with true; [done|]. symmetry. apply existsb_exists. apply list_elem_of_fmap in Hused as (n & Hkey & Hin%list_elem_of_In).
  exists n. split; [done|]. injection Hkey as Hk1 Hk2. unfold same_nonce. by rewrite <-Hk1, <-Hk2, N.eqb_refl, String.eqb_refl.
Qed.
Lemma gatewayIdentityFromRequest_Some env role lane token identity : gatewayIdentityFromRequest env role lane token = Some identity →
  ∃ name, name ∈ ["AUTOMATION_CALLBACK_SECRET"; "AUTOMATION_CALLBACK_SECRET_PREVIOUS"] ∧ TrimSpace (env name) ≠ "" ∧
    IsKnownRoleLane (Gateway_Role identity) (Gateway_Lane identity) = true ∧ TrimSpace token = deriveGatewayToken (TrimSpace (env name)) identity.
Proof.
  unfold gatewayIdentityFromRequest. destruct (IsKnownRoleLane _ _) eqn:Hk; [|done]. cbn [negb]. destruct (blank _); [done|].
  destruct (existsb _ _) eqn:He; [|done]. intros [= <-]. apply existsb_exists in He as (name & Hin & [Hb%negb_true_iff Ht%String.eqb_eq]%andb_true_iff).
  exists name. split; [by apply list_elem_of_In|]. apply String.eqb_neq in Hb. done.
Qed.

(** *** Proofs of possession *)

Lemma sextets_length l : (3 * length (Base64.sextets l) ≤ 4 * length l + 2)%nat.
Proof. induction l as [l IH] using (induction_ltof1 _ length). unfold ltof in IH. destruct l as [|a [|b [|c rest]]]; cbn; [lia..|]. specialize (IH rest). cbn in IH. lia. Qed.
Lemma encoded_length n s encoded : encode_sized n s = Some encoded → (3 * String.length encoded ≤ 4 * n + 2)%nat.
Proof.
  unfold encode_sized. destruct (has_size n s) eqn:Hs; [|done]. intros [= <-]. apply Nat.eqb_eq in Hs. unfold Base64.EncodeToString.
  rewrite <-length_bytes, bytes_of_bytes, length_fmap. pose proof (sextets_length (N_of_ascii <$> bytes s)) as Hl. rewrite length_fmap, length_bytes in Hl. lia.
Qed.
Lemma agent_key_length key : agentProfileKeyPattern key = true → (String.length key ≤ 64)%nat.
Proof. unfold agentProfileKeyPattern, re_ident. destruct key as [|c r]; [done|]. rewrite !andb_true_iff, !Nat.leb_le. cbn. lia. Qed.
Lemma proof_verifies machine agentKey publicKey signature : generated (privateKey machine) = true →
  AgentInstanceEnrollmentProof machine agentKey = Some (publicKey, signature) →
  EncodePublicKey (Public (privateKey machine)) = Some publicKey ∧ ∃ decoded, DecodeSignature signature = Some decoded ∧
    VerifyAgentInstanceEnrollment (Public (privateKey machine)) decoded agentKey (machineID machine) publicKey = true.
Proof.
  intros Hg. unfold AgentInstanceEnrollmentProof. destruct (has_size PrivateKeySize _); [|done]. cbn [negb].
  intros (encoded & Hk & (message & Hm & (sig & Hs & [= -> ->])%bind_Some)%bind_Some)%bind_Some. split; [done|].
  exists (Sign (privateKey machine) message). split; [by eapply decode_encode_sized|]. unfold VerifyAgentInstanceEnrollment. rewrite Hm.
  unfold has_size, PublicKeySize, SignatureSize. rewrite Public_size, Sign_size by (by apply generated_size). by rewrite !Nat.eqb_refl, Verify_Sign.
Qed.

Lemma enroll_row_new row r : Instance_ID row ∉ Instance_ID <$> instances r → Forall (λ j, machine_of j ≠ machine_of row) (instances r) → fits_columns row = true →
  enroll_row row r = Ok (row, insert_instance row r).
Proof.
  intros Hid Hnew Hfits. unfold enroll_row. rewrite Forall_forall in Hnew.
  assert (∀ j, j ∈ instances r → is_machine (Instance_AgentKey row) (Instance_MachineID row) j = false) as Hother.
  { intros j Hj. apply not_true_iff_false. unfold is_machine. rewrite andb_true_iff, !String.eqb_eq. intros [H1 H2]. apply (Hnew j Hj). unfold machine_of. congruence. }
  destruct (List.find _ (instances r)) as [j|] eqn:Hfind.
  { apply find_some in Hfind as [Hj%list_elem_of_In Ha]. unfold active_machine in Ha. by rewrite Hother in Ha. }
  replace (existsb _ (instances r)) with false; [rewrite Hfits; cbn [negb]|].
  - replace (may_insert row r) with true; [done|]. symmetry. apply may_insert_spec. split; [done|]. intros (j & Hm & Hj)%list_elem_of_fmap.
    apply list_elem_of_filter in Hj as [_ Hj]. by apply (Hnew j Hj).
  - symmetry. apply not_true_iff_false. rewrite existsb_exists. intros (j & Hj%list_elem_of_In & Ha). by rewrite Hother in Ha.
Qed.

(** ** Properties of runs *)

(** C11: in every run, whatever replicas the requests reach and however they interleave with
    registrations, enrollments and revocations, a signed text (one instance, method, URI,
    timestamp, nonce and body) is handed to a handler at most once, if the transaction of a
    callback runs within two minutes of its verification: five minutes of retention less the
    two clock skews.  [stalled_transaction_replays] shows that the bound is needed. *)
Theorem each_text_is_admitted_once p profiles w : run p profiles w → (p ≤ safe_patience)%Z → NoDup (signed_text <$> admitted w).
Proof.
  intros [_ _ Ha Honce]%run_World_ok Hp. specialize (Honce Hp). apply NoDup_alt. intros i j x Hi Hj. rewrite list_lookup_fmap in Hi, Hj.
  apply fmap_Some in Hi as (u & Hi & ->), Hj as (v & Hj & Heq). rewrite Forall_forall in Ha.
  destruct (Ha u) as [(ru & _ & Hu) _]; [by eapply list_elem_of_lookup_2|]. destruct (Ha v) as [(rv & _ & Hv) _]; [by eapply list_elem_of_lookup_2|].
  apply (NoDup_lookup _ i j (request_key u) Honce); rewrite list_lookup_fmap; [by rewrite Hi|]. rewrite Hj. cbn. f_equal. symmetry. by eapply signed_texts_equal.
Qed.

(** C13: every callback handed to a handler is of a registered machine, was near the clock, and
    carries a signature that verifies under the key of its row over a text that states exactly
    this request: another request with the same text has the same instance, method, URI,
    timestamp and nonce, and the same body unless the two bodies collide. *)
Theorem admitted_requests_are_signed p profiles w v : run p profiles w → v ∈ admitted w → ∃ row message,
  find_instance (V_InstanceID v) (registry w) = Some row ∧ DecodePublicKey (PublicKey row) = Some (V_PublicKey v) ∧ signed_text v = Some message ∧
  Verify (V_PublicKey v) message (V_Signature v) = true ∧ (Z.abs (V_Timestamp v * Second - verified_at v) ≤ MaxClockSkew)%Z ∧
  ∀ instanceID method requestURI timestamp nonce body, canonicalRequest instanceID method requestURI timestamp nonce body = Some message →
    some_identity instanceID = Some (V_InstanceID v) ∧ upper_method method = upper_method (V_Method v) ∧ requestURI = V_URI v ∧
    timestamp = V_Timestamp v ∧ some_identity nonce = Some (V_Nonce v) ∧ (body = V_Body v ∨ collide body (V_Body v)).
Proof.
  intros [_ _ Ha _]%run_World_ok Hv. rewrite Forall_forall in Ha. destruct (Ha v Hv) as [(row & Hf & [_ Hk (message & Hm & Hs) Hc]) _].
  exists row, message. split_and!; [done..|]. intros instanceID method requestURI timestamp nonce body Hc'.
  destruct (canonical_texts_equal _ _ _ _ _ _ _ _ _ _ _ _ _ Hc' Hm) as (-> & H2 & H3 & H4 & -> & H6).
  apply canonicalRequest_Some in Hm as (? & ? & Hid & Hn & _). rewrite !some_identity_text. rewrite some_identity_text in Hid, Hn.
  destruct (N.eqb (V_InstanceID v) Nil); [done|]. destruct (N.eqb (V_Nonce v) Nil); [done|]. split_and!; [done..|]. destruct (decide (body = V_Body v)); [by left|right]. by split; [|apply hexSum256_eq].
Qed.

(** C12: a revoked machine stays revoked: whatever runs after the revocation, the row stays as it
    is and no callback of it is handed to a handler, not even one verified before. *)
Theorem revocation_is_final p profiles w authorized param now i r w' :
  run p profiles w → (clock w ≤ now)%Z → RevokeAgentInstance authorized param now (registry w) = Ok (i, r) →
  rtc (Step p) {| registry := r; clock := now; waiting := waiting w; admitted := admitted w |} w' →
  is_active i = false ∧ find_instance (Instance_ID i) (registry w') = Some i ∧
  ∃ later, admitted w' = (later ++ admitted w)%list ∧ Forall (λ v, V_InstanceID v ≠ Instance_ID i) later.
Proof.
  intros Hrun Hn Hrev Hsteps. apply run_World_ok in Hrun. pose proof (proj2 (RevokeAgentInstance_Ok _ _ _ _ _ _ Hrev)) as Hchange.
  assert (is_active i = false ∧ find_instance (Instance_ID i) r = Some i) as [Ha Hf].
  { revert Hrev. unfold RevokeAgentInstance. intros ([] & _ & Hr)%bind_ok. destruct (some_identity param) as [id|]; [|done].
    destruct (find_instance id (registry w)) as [x|] eqn:Hx; [|done]. pose proof (find_instance_Some _ _ _ Hx) as [_ Hid].
    destruct (is_active x) eqn:Hact; injection Hr as <- <-; [|by rewrite Hid]. split; [done|]. cbn. rewrite Hid. unfold find_instance, update_instance. cbn.
    change (λ i, if N.eqb (Instance_ID i) id then revoke now i else i) with (update_row id (revoke now)). rewrite find_update_row by apply revoke_update.
    unfold find_instance in Hx. rewrite Hx. cbn. unfold update_row. by rewrite Hid, N.eqb_refl. }
  split; [done|]. apply (Change_World_ok p w r now Hn Hchange) in Hrun. revert Hsteps. set (start := {| registry := r |}) in *.
  assert (find_instance (Instance_ID i) (registry start) = Some i) as Hs by done.
  assert (admitted w = admitted start) as -> by done. clearbody start. clear Hf Hrev Hchange. intros Hsteps.
  induction Hsteps as [s|s s' s'' Hstep _ IH]; [split; [done|by exists []]|].
  assert (find_instance (Instance_ID i) (registry s') = Some i ∧ ∃ l, admitted s' = (l ++ admitted s)%list ∧ Forall (λ v, V_InstanceID v ≠ Instance_ID i) l)
    as [Hs' (l & Hl & Hne)] by (by eapply Step_keeps_revoked).
  destruct (IH (Step_World_ok _ _ _ Hstep Hrun) Hs') as (Hf & l' & Hl' & Hne'). split; [done|]. exists (l' ++ l)%list. split; [by rewrite Hl', Hl, <-app_assoc|].
  by apply Forall_app.
Qed.

(** C21: a registry that requests made is consistent: identities and used nonces are unique, a
    machine has at most one active row, and in each row the agent key, the machine, the public
    key with its fingerprint and the status with its time of revocation are well formed. *)
Theorem registry_stays_consistent p profiles w : run p profiles w → Consistent (registry w).
Proof. intros Hrun%run_World_ok. apply Hrun. Qed.

(** ** Properties of requests *)

(** C25: a callback that a registered active machine signs by [newSignedRequest] is handed to its
    handler under the machine's identity when it arrives within the clock skew with a new nonce,
    and the same request is refused right after, at any times. *)
Theorem signed_requests_are_admitted identity id row method uri body now nonce headers verifiedAt readAt r :
  generated (privateKey identity) = true → find_instance id r = Some row → is_active row = true →
  DecodePublicKey (PublicKey row) = Some (Public (privateKey identity)) → (now / Second ≤ maxInt64)%Z →
  newSignedRequest identity (uuid_text id) method uri body now nonce = Some headers →
  (Z.of_nat (String.length body) ≤ maxSignedAgentCallbackBody)%Z → (Z.abs (now / Second * Second - verifiedAt) ≤ MaxClockSkew)%Z →
  (id, uuid_text nonce) ∉ nonce_key <$> nonces r →
  let request := {| Method := method; URI := uri; ContentLength := Z.of_nat (String.length body); Body := Some body; SignedHeaders := headers |} in
  ∃ r', AgentCallbackAuthentication request verifiedAt readAt r =
          Ok ({| Callback_InstanceID := id; Callback_AgentKey := Instance_AgentKey row; Callback_MachineID := Instance_MachineID row |}, r') ∧
    ∀ verifiedAt' readAt', AgentCallbackAuthentication request verifiedAt' readAt' r' = Err StatusUnauthorized.
Proof.
  intros Hg Hf Ha Hk Hmax Hnew Hlen Hskew Hnonce request.
  destruct (verified_request identity id row method uri body now nonce headers verifiedAt readAt r) as (v & Hv & Hid & Hn & Hr & Hra); try done.
  assert (∃ r', admit_callback v r = Ok ({| Callback_InstanceID := id; Callback_AgentKey := Instance_AgentKey row; Callback_MachineID := Instance_MachineID row |}, r'))
    as [r' Hadmit].
  { eexists. apply admit_callback_Ok. rewrite Hid, Hr, Hn. exists row. split_and!; try done. }
  exists r'. split; [unfold AgentCallbackAuthentication, request; rewrite Hv; exact Hadmit|]. intros va ra.
  apply (replay_refused identity id method uri body now nonce headers); [done..|].
  apply admit_callback_Ok in Hadmit as (_ & _ & _ & _ & _ & _ & ->). cbn. apply list_elem_of_fmap. exists (nonce_record v).
  split; [unfold nonce_key; cbn; by rewrite Hid, Hn|]. apply list_elem_of_filter. split; [|apply elem_of_app; right; by left].
  unfold is_kept. cbn. pose proof (microseconds_mono (read_at v - agentCallbackNonceRetention) (read_at v)). unfold agentCallbackNonceRetention, Second in *. lia.
Qed.

(** C14: an enrollment needs a token of a known lane derived from a configured secret, an active
    profile with an operation of that lane, and a signature by the enrolled key over the agent
    key, the machine and the key itself; it gives the active row of that machine, or inserts one
    when the machine never had any - so a revoked machine cannot enroll itself again. *)
Theorem enrollment_proves_possession env role lane token id body now i r r' :
  EnrollGatewayAgentInstance (gatewayIdentityFromRequest env role lane token) id body now r = Ok (i, r') →
  (∃ name identity profile, name ∈ ["AUTOMATION_CALLBACK_SECRET"; "AUTOMATION_CALLBACK_SECRET_PREVIOUS"] ∧ TrimSpace (env name) ≠ "" ∧
    IsKnownRoleLane (Gateway_Role identity) (Gateway_Lane identity) = true ∧ TrimSpace token = deriveGatewayToken (TrimSpace (env name)) identity ∧
    findActiveAgentProfile (Instance_AgentKey i) r = Some profile ∧ agentProfileSupportsGatewayLane profile identity = true) ∧
  proves_possession (Instance_AgentKey i) (Instance_MachineID i) (PublicKey i) ∧ is_active i = true ∧
  (r' = r ∧ i ∈ instances r ∨ r' = insert_instance i r ∧ Forall (λ j, machine_of j ≠ machine_of i) (instances r)).
Proof.
  intros (identity & agentKey & machineID & publicKey & profile & key & fingerprint & Hg & Hp & Hprofile & Hlane & _ & _ & _ & _ & Hr)%EnrollGatewayAgentInstance_Ok.
  apply gatewayIdentityFromRequest_Some in Hg as (name & Hname & Hroot & Hknown & Htoken).
  apply enroll_row_Ok in Hr as [(-> & Hin & Hm & Hkey)|(-> & -> & _ & Hnew)]; cbn in *.
  - unfold active_machine, is_machine in Hm. rewrite !andb_true_iff, !String.eqb_eq in Hm. destruct Hm as [[-> ->] Ha]. rewrite Hkey.
    split; [by exists name, identity, profile|]. split_and!; [done|done|by left].
  - split; [by exists name, identity, profile|]. split_and!; [done|done|by right].
Qed.

(** a machine that proves possession of its key through the gateway of a lane its profile works
    in is enrolled: the row is active, holds its public key and is the only one of the machine. *)
Theorem proven_machines_enroll machine gateway profile agentKey publicKey signature body id now r :
  generated (privateKey machine) = true → AgentInstanceEnrollmentProof machine agentKey = Some (publicKey, signature) →
  decodeAgentInstanceRequest enrollment_type body = Some [agentKey; machineID machine; publicKey; signature] →
  agentProfileKeyPattern agentKey = true → is_Some (canonical_identity (machineID machine)) → (String.length (machineID machine) ≤ 64)%nat →
  findActiveAgentProfile agentKey r = Some profile → agentProfileSupportsGatewayLane profile gateway = true →
  id ∉ Instance_ID <$> instances r → Forall (λ j, machine_of j ≠ (agentKey, machineID machine)) (instances r) →
  ∃ i, EnrollGatewayAgentInstance (Some gateway) id body now r = Ok (i, insert_instance i r) ∧ Instance_ID i = id ∧ is_active i = true ∧
    machine_of i = (agentKey, machineID machine) ∧ DecodePublicKey (PublicKey i) = Some (Public (privateKey machine)).
Proof.
  intros Hg Hproof Hbody Hkey [m Hm] Hlen Hprofile Hlane Hid Hnew. destruct (proof_verifies _ _ _ _ Hg Hproof) as (Hpk & decoded & Hs & Hv).
  assert (DecodePublicKey publicKey = Some (Public (privateKey machine))) as Hd by (by eapply decode_encode_sized).
  assert (PublicKeyFingerprint (Public (privateKey machine)) = Some ("sha256:" +:+ hexSum256 (Public (privateKey machine)))) as Hf.
  { unfold PublicKeyFingerprint, has_size, PublicKeySize. by rewrite Public_size, Nat.eqb_refl by (by apply generated_size). }
  set (row := active_row id agentKey (machineID machine) publicKey ("sha256:" +:+ hexSum256 (Public (privateKey machine))) now).
  exists row. split; [|done]. unfold EnrollGatewayAgentInstance. rewrite Hbody, Hd, Hs, Hv, Hf, Hprofile, !fail_if_bind, Hkey, Hm, Hlane.
  split_and!; try done. apply enroll_row_new; [done|done|]. unfold fits_columns, row. cbn [active_row Instance_AgentKey Instance_MachineID PublicKey Instance_PublicKeyFingerprint].
  assert (∀ s, String.length ("sha256:" +:+ s) = 7 + String.length s)%nat as -> by done. rewrite !andb_true_iff, !Nat.leb_le, hexSum256_length.
  pose proof (encoded_length _ _ _ Hpk). pose proof (agent_key_length _ Hkey). unfold PublicKeySize in *. lia.
Qed.
End Agents.

(** ** Example

    A toy scheme: the signature is the digest of the public key and the message. *)

Section Demo.
#[local] Existing Instance ascii_only.
#[local] Existing Instance unary.
Definition toy_sized (n : nat) (key : string) : string := of_bytes (take n (bytes key ++ replicate n "0"%char)).
Lemma toy_sized_length n key : String.length (toy_sized n key) = n.
Proof. unfold toy_sized. rewrite <-length_bytes, bytes_of_bytes, length_take, length_app, length_replicate. lia. Qed.
Definition toy_ed25519 : Ed25519 := {|
  generated := has_size 64; Public := toy_sized 32; Sign key message := hexSum256 (toy_sized 32 key +:+ message);
  Verify key message signature := String.eqb signature (hexSum256 (key +:+ message));
  Public_size key _ := toy_sized_length 32 key; Sign_size key message _ := hexSum256_length _;
  generated_size key H := proj1 (Nat.eqb_eq _ _) H; Verify_Sign key message _ := String.eqb_refl _ |}.
#[local] Existing Instance toy_ed25519.
Definition any_uri : GoRequestURI := λ _, true.
#[local] Existing Instance any_uri.

Definition value {A} (d : A) (x : Answer A) : A := match x with Ok a => a | Err _ => d end.
Lemma value_ok {A} (d : A) x : is_ok x = true → x = Ok (value d x).
Proof. by destruct x. Qed.

Definition demo_machine : MachineIdentity := {| machineID := "11"; privateKey := toy_sized 64 "key of the machine" |}.
Definition demo_profile : AutomationAgentProfile :=
  {| Profile_AgentKey := "qa-worker"; OperationsJSON := Marshal (JArray [JString "delivery.qa"]); Active := true |}.
Definition demo_env (name : string) : string := if String.eqb name "AUTOMATION_CALLBACK_SECRET" then " root " else "".
Definition demo_token : string := deriveGatewayToken "root" {| Gateway_Role := RoleQA; Gateway_Lane := LaneQA |}.
Definition demo_gateway : option gatewayIdentity := gatewayIdentityFromRequest demo_env "qa" "qa" demo_token.
Definition demo_enrollment : string :=
  match AgentInstanceEnrollmentProof demo_machine "qa-worker" with
  | Some (publicKey, signature) => Marshal (JObject [("agent_key", JString "qa-worker"); ("machine_id", JString "11"); ("public_key", JString publicKey);
                                                     ("signature", JString signature)])
  | None => ""
  end.
Definition demo_row : AutomationAgentInstance := active_row Nil "" "" "" "" 0.
Definition demo_start : World := empty_world [demo_profile].
Definition demo_enrolled : AutomationAgentInstance * Registry :=
  value (demo_row, registry demo_start) (EnrollGatewayAgentInstance demo_gateway 5%N demo_enrollment Second (registry demo_start)).
Lemma demo_enrolled_ok : EnrollGatewayAgentInstance demo_gateway 5%N demo_enrollment Second (registry demo_start) = Ok (demo_enrolled.1, demo_enrolled.2).
Proof. rewrite <-surjective_pairing. apply value_ok. vm_compute. reflexivity. Qed.
Definition demo_world : World := {| registry := demo_enrolled.2; clock := Second; waiting := []; admitted := [] |}.
Lemma demo_world_step p : Step p demo_start demo_world.
Proof. eapply (step_enroll p demo_start); [vm_compute; discriminate|exact demo_enrolled_ok]. Qed.

(** The machine's callback [nonce], signed at [seconds]. *)
Definition demo_headers (seconds : Z) (nonce : uuid) : option Headers :=
  newSignedRequest demo_machine (uuid_text 5%N) "PUT" "/api/internal/automation/tasks/1" "done" (seconds * Second) nonce.
Definition no_headers : Headers := {| InstanceIDHeader := ""; TimestampHeader := ""; NonceHeader := ""; SignatureHeader := "" |}.
Definition demo_request (seconds : Z) (nonce : uuid) : CallbackRequest := {|
  Method := "PUT"; URI := "/api/internal/automation/tasks/1"; ContentLength := 4; Body := Some "done";
  SignedHeaders := default no_headers (demo_headers seconds nonce) |}.
Definition no_callback : Verified := {|
  V_InstanceID := Nil; V_Nonce := Nil; V_Timestamp := 0; V_Method := ""; V_URI := ""; V_Body := ""; V_Signature := ""; V_PublicKey := "";
  registered := demo_row; verified_at := 0; read_at := 0 |}.
Definition after_verify (c : CallbackRequest) (t : Z) (w : World) : World := {|
  registry := registry w; clock := t; waiting := value no_callback (verify_callback c (registry w) t t) :: waiting w; admitted := admitted w |}.
Definition after_admit (t : Z) (w : World) : World :=
  match waiting w with
  | v :: rest => {| registry := snd (value ({| Callback_InstanceID := Nil; Callback_AgentKey := ""; Callback_MachineID := "" |}, registry w)
                              (admit_callback v (registry w))); clock := t; waiting := rest; admitted := v :: admitted w |}
  | [] => w
  end.
Lemma verify_step p c t w : Z.leb (clock w) t && is_ok (verify_callback c (registry w) t t) = true → Step p w (after_verify c t w).
Proof. intros [Ht Hok]%andb_true_iff. eapply step_verify; [|apply value_ok, Hok]. lia. Qed.
Lemma admit_step p t w : match waiting w with v :: _ => Z.leb (clock w) t && Z.leb t (verified_at v + p) && is_ok (admit_callback v (registry w)) | [] => false end = true →
  Step p w (after_admit t w).
Proof.
  unfold after_admit. destruct (waiting w) as [|v rest] eqn:Hw; [done|]. rewrite !andb_true_iff. intros [[Ht Hp] Hok].
  eapply (step_admit p w v [] rest); [done|lia|]. rewrite <-surjective_pairing. apply value_ok, Hok.
Qed.

Definition demo_served : World := after_admit (910 * Second) (after_verify (demo_request 1000 9%N) (910 * Second) demo_world).
Lemma demo_served_run p : p = safe_patience ∨ p = (safe_patience + Second)%Z → run p [demo_profile] demo_served.
Proof.
  intros Hp. eapply rtc_r; [|apply admit_step; destruct Hp as [-> | ->]; vm_compute; reflexivity].
  eapply rtc_r; [apply rtc_once, demo_world_step|apply verify_step; vm_compute; reflexivity].
Qed.
(** A callback is handed twice to its handler when its second transaction stalls for 121 seconds. *)
Definition demo_replayed : World :=
  after_admit (1211 * Second) (after_admit (1211 * Second) (after_verify (demo_request 1211 10%N) (1211 * Second)
    (after_verify (demo_request 1000 9%N) (1090 * Second) demo_served))).
Lemma stalled_transaction_replays : run (safe_patience + Second) [demo_profile] demo_replayed ∧ ¬ NoDup (signed_text <$> admitted demo_replayed).
Proof.
  split.
  - eapply rtc_r; [|apply admit_step; vm_compute; reflexivity]. eapply rtc_r; [|apply admit_step; vm_compute; reflexivity].
    eapply rtc_r; [|apply verify_step; vm_compute; reflexivity]. eapply rtc_r; [|apply verify_step; vm_compute; reflexivity]. apply demo_served_run. by right.
  - assert (∃ x y, signed_text <$> admitted demo_replayed = [x; y; x]) as (x & y & ->) by (eexists _, _; vm_compute; reflexivity).
    intros [Hx _]%NoDup_cons. apply Hx. right. by left.
Qed.

#[local] Existing Instance unary_shape.

Lemma each_text_is_admitted_once_witness : NoDup (signed_text <$> admitted demo_served) ∧ length (admitted demo_served) = 1%nat.
Proof.
  split; [|vm_compute; reflexivity]. apply (each_text_is_admitted_once safe_patience [demo_profile]); [apply demo_served_run; by left|apply Z.le_refl].
Defined.

Lemma demo_admitted : ∃ v, v ∈ admitted demo_served ∧ V_InstanceID v = 5%N.
Proof.
  assert (length (admitted demo_served) = 1%nat ∧ (V_InstanceID <$> admitted demo_served) = [5%N]) as [Hl Hi] by (split; vm_compute; reflexivity).
  destruct (admitted demo_served) as [|v [|]]; try discriminate. injection Hi as Hi. exists v. split; [by left|done].
Qed.
Lemma admitted_requests_are_signed_witness : ∃ v row message, v ∈ admitted demo_served ∧ V_InstanceID v = 5%N ∧
  find_instance 5%N (registry demo_served) = Some row ∧ Verify (V_PublicKey v) message (V_Signature v) = true.
Proof.
  destruct demo_admitted as (v & Hv & Hi). destruct (admitted_requests_are_signed safe_patience [demo_profile] demo_served v) as (row & message & Hf & _ & _ & Hs & _ & _).
  - apply demo_served_run. by left.
  - exact Hv.
  - exists v, row, message. rewrite Hi in Hf. split; [exact Hv|]. split; [exact Hi|]. split; [exact Hf|exact Hs].
Defined.

(** A machine is revoked while a callback of it waits for its transaction. *)
Definition demo_waiting : World := after_verify (demo_request 1000 9%N) (1000 * Second) demo_world.
Definition demo_revoked : AutomationAgentInstance * Registry :=
  value (demo_row, registry demo_waiting) (RevokeAgentInstance (Ok tt) "11111" (1001 * Second) (registry demo_waiting)).
Lemma demo_revoked_ok : RevokeAgentInstance (Ok tt) "11111" (1001 * Second) (registry demo_waiting) = Ok (demo_revoked.1, demo_revoked.2).
Proof. rewrite <-surjective_pairing. apply value_ok. vm_compute. reflexivity. Qed.
Definition abandoned (w : World) : World := {| registry := registry w; clock := clock w; waiting := tail (waiting w); admitted := admitted w |}.
Lemma abandon_step p w v rest : waiting w = v :: rest → Step p w (abandoned w).
Proof. intros Hw. pose proof (step_abandon p w v [] rest Hw) as Hs. unfold abandoned. by rewrite Hw. Qed.
Definition demo_after : World := {| registry := demo_revoked.2; clock := 1001 * Second; waiting := waiting demo_waiting; admitted := admitted demo_waiting |}.
Lemma demo_waits : ∃ v, waiting demo_waiting = [v].
Proof. unfold demo_waiting, after_verify. cbn [waiting demo_world]. by eexists. Qed.
Lemma demo_abandons p : Step p demo_after (abandoned demo_after) ∧ waiting (abandoned demo_after) = [].
Proof.
  destruct demo_waits as [v Hv]. split; [apply (abandon_step p demo_after v []); exact Hv|]. unfold abandoned, demo_after. cbn [waiting]. by rewrite Hv.
Qed.
Lemma revocation_is_final_witness : ∃ w', waiting w' = [] ∧ is_active demo_revoked.1 = false ∧
  find_instance (Instance_ID demo_revoked.1) (registry w') = Some demo_revoked.1.
Proof.
  assert (run safe_patience [demo_profile] demo_waiting) as Hrun.
  { eapply rtc_r; [apply rtc_once, demo_world_step|apply verify_step; vm_compute; reflexivity]. }
  destruct (revocation_is_final safe_patience [demo_profile] demo_waiting (Ok tt) "11111" (1001 * Second) demo_revoked.1 demo_revoked.2
    (abandoned demo_after)) as (Ha & Hf & _).
  - exact Hrun.
  - vm_compute. discriminate.
  - exact demo_revoked_ok.
  - apply rtc_once. exact (proj1 (demo_abandons _)).
  - exists (abandoned demo_after). split; [exact (proj2 (demo_abandons 0))|]. split; [exact Ha|exact Hf].
Defined.

Lemma registry_stays_consistent_witness : Consistent (registry demo_served) ∧ length (instances (registry demo_served)) = 1%nat.
Proof.
  split; [|vm_compute; reflexivity]. apply (registry_stays_consistent safe_patience [demo_profile]), demo_served_run. by left.
Defined.

Lemma signed_requests_are_admitted_witness : ∃ identity r',
  AgentCallbackAuthentication (demo_request 1000 9%N) (1010 * Second) (1011 * Second) (registry demo_world) = Ok (identity, r') ∧
  AgentCallbackAuthentication (demo_request 1000 9%N) (1012 * Second) (1013 * Second) r' = Err StatusUnauthorized.
Proof.
  destruct (demo_headers 1000 9%N) as [headers|] eqn:Hh; [|vm_compute in Hh; discriminate Hh].
  assert (find_instance 5%N (registry demo_world) = Some demo_enrolled.1) as Hf by (vm_compute; reflexivity).
  destruct (signed_requests_are_admitted demo_machine 5%N demo_enrolled.1 "PUT" "/api/internal/automation/tasks/1" "done" (1000 * Second) 9%N headers
    (1010 * Second) (1011 * Second) (registry demo_world)) as (r' & Hok & Hreplay).
  - vm_compute. reflexivity.
  - exact Hf.
  - vm_compute. reflexivity.
  - vm_compute. reflexivity.
  - vm_compute. discriminate.
  - exact Hh.
  - vm_compute. discriminate.
  - vm_compute. discriminate.
  - replace (nonces (registry demo_world)) with (@nil AutomationAgentCallbackNonce) by (vm_compute; reflexivity). apply not_elem_of_nil.
  - unfold demo_request. rewrite Hh. eexists _, r'. split; [exact Hok|apply Hreplay].
Defined.

Lemma enrollment_proves_possession_witness : proves_possession "qa-worker" "11" (PublicKey demo_enrolled.1) ∧ is_active demo_enrolled.1 = true.
Proof.
  destruct (enrollment_proves_possession demo_env "qa" "qa" demo_token 5%N demo_enrollment Second demo_enrolled.1 (registry demo_start) demo_enrolled.2 demo_enrolled_ok)
    as (_ & Hp & Ha & _).
  assert (Instance_AgentKey demo_enrolled.1 = "qa-worker" ∧ Instance_MachineID demo_enrolled.1 = "11") as [Hk Hm] by (split; vm_compute; reflexivity).
  rewrite Hk, Hm in Hp. split; [exact Hp|exact Ha].
Defined.

Lemma proven_machines_enroll_witness : ∃ i r', EnrollGatewayAgentInstance demo_gateway 5%N demo_enrollment Second (registry demo_start) = Ok (i, r') ∧
  DecodePublicKey (PublicKey i) = Some (Public (privateKey demo_machine)).
Proof.
  destruct (AgentInstanceEnrollmentProof demo_machine "qa-worker") as [[publicKey signature]|] eqn:Hp; [|vm_compute in Hp; discriminate Hp].
  assert (demo_gateway = Some {| Gateway_Role := RoleQA; Gateway_Lane := LaneQA |}) as -> by (vm_compute; reflexivity).
  destruct (proven_machines_enroll demo_machine {| Gateway_Role := RoleQA; Gateway_Lane := LaneQA |} demo_profile "qa-worker" publicKey signature
    demo_enrollment 5%N Second (registry demo_start)) as (i & Hok & _ & _ & _ & Hk).
  - vm_compute. reflexivity.
  - exact Hp.
  - revert Hp. vm_compute. intros Hp. injection Hp as <- <-. reflexivity.
  - vm_compute. reflexivity.
  - vm_compute. eexists. reflexivity.
  - vm_compute. repeat constructor.
  - vm_compute. reflexivity.
  - vm_compute. reflexivity.
  - apply not_elem_of_nil.
  - constructor.
  - exists i, (insert_instance i (registry demo_start)). split; [exact Hok|exact Hk].
Defined.
End Demo.
